(* ===== verification/_CoqProject ===== *)
-Q . S2P
Prelude.v
Regex.v
Url.v
Routing.v
Keyed.v
MessageState.v
WebMessages.v
WebWorkspaces.v
Json.v
ApiClient.v
Endpoints.v
Upload.v
UploadQueue.v
MessageFormat.v
MessageText.v
Links.v
Mentions.v
WebComposer.v
Storage.v
MessageJson.v
Autosave.v
ConversationScreen.v
ThreadScreen.v
Session.v
Realtime.v
VoiceDraft.v
Learning.v
VideoProgress.v
Analytics.v
CodeRunner.v
ContentBlock.v
Grading.v
PushNotifications.v
VoiceRecorder.v
WebContexts.v
LessonEditor.v
ImageViewer.v
CohortDetail.v
StudentDetail.v
RecordingLibrary.v
ContentManagement.v
SignIn.v
Announcements.v
LessonBlock.v
VideoField.v
ImagePreview.v
MessagesView.v
HelpRequests.v
TeamManagement.v
Recordings.v
InlineFormat.v
StaffLists.v
Shell.v
StudentHome.v
