(* ===== verification/Prelude.v ===== *)
(** * CSG Learning Platform: verification of the TypeScript clients

    The platform is a Rails API ([api/]) with two TypeScript clients: a React web app
    ([web/]) for students and staff and an Expo app ([mobile/]). This development models
    the logic the clients carry themselves, in their libraries, hooks, contexts and pages,
    and proves what makes it correct. The server, the network, the browser and the device
    are seen through their answers.

    ** How the parts interact

    A signed-in user has a session ([WebContexts.Auth], [Session]) that scopes what is
    cached and stored for them ([ApiClient], [Storage]). Pages call the API through one
    client ([ApiClient], with the table of calls in [Endpoints]), get changes over one
    realtime connection ([Realtime]) and merge both into the conversation they show
    ([MessageState], [WebMessages], on the sorted arrays of [Keyed]); the screens of the app
    ([ConversationScreen], [ThreadScreen]) and the workspaces of the web ([WebWorkspaces])
    are built on that, as is what the page shows of a conversation ([MessagesView]). Message text is parsed, linked, mentioned and previewed
    ([MessageFormat], [MessageText], [Links], [Mentions], [WebComposer]) and shown ([InlineFormat]). Files go to the bucket in parts ([Upload]) through a queue the pages share
    ([UploadQueue], used by [RecordingLibrary]). Staff run cohorts, students and curricula on
    their pages ([CohortDetail], [StudentDetail], [ContentManagement], [Announcements],
    [TeamManagement]), and answer what students ask ([HelpRequests], also from [Recordings]).
    Lessons are shown block by block ([ContentBlock], [LessonBlock], [Learning],
    [VideoProgress], [CodeRunner]), edited ([LessonEditor], [VideoField]) and graded
    ([Grading]). Voice
    is recorded by one microphone the composers share ([VoiceRecorder], [VoiceDraft]).
    What leaves the device as analytics is filtered ([Analytics]); notifications lead only
    to known screens ([Routing], [PushNotifications]).

    ** Files, in the order they build on each other

    - [Prelude]: JavaScript strings, arrays and sorting, tactics and hints; [Regex]: the
      backtracking matcher the sources' regular expressions are written with; [Url]: query
      strings; [Json]: values, printing and parsing, and the class of codecs; [Keyed]: the
      class of timelines, arrays sorted and free of duplicates, read as finite maps.
    - [Routing]: [mobile/src/lib/notification-path.ts] and its observer,
      [web/src/lib/routes.ts], [message-route.ts] and the gates of both apps. Notifications
      open allowed screens only, once; links round-trip; admin pages are for staff.
    - [MessageState], [WebMessages]: [mobile/src/lib/message-state.ts] and the state of
      [web/src/pages/shared/Messages.tsx]. Both refine a finite map from identifiers to
      messages; the latest request wins; replies are grouped; a reaction toggles back.
    - [WebWorkspaces], [WebComposer]: the workspaces, forms and members of the same page, and
      the mentions of its composer. With answers in order, and members changed while no panel is
      on its way, panel and people follow the selected workspace; a chosen mention replaces its
      token; the highlighted suggestion exists.
    - [MessagesView]: scrolling, polling, search and images of the same page. The
      position of a conversation is noted when it is left, and restored when its messages come
      undisturbed.
    - [ApiClient], [Endpoints]: [web/src/lib/api.ts] and [mobile/src/lib/api.ts]. Cached
      answers are recorded ones, fresh and of the same user; requests have a budget; no
      argument changes which resource a path names.
    - [Upload], [UploadQueue]: [uploadToS3.ts], [recording-upload.ts], [attachments.ts] and
      [UploadContext.tsx]. The parts tile the file, every part is sent once, the pool
      terminates, and every stored object is recorded, abandoned or still owned by an entry,
      unless it arrived after its upload was cancelled; on the phone, a multipart upload that
      fails is aborted, and an object whose recording cannot be created is abandoned.
    - [MessageFormat], [MessageText], [Links], [Mentions]: [messageFormat.ts] of both
      clients, [sanitizeUrl.ts], [mentions.ts] and the composer. Documents that
      look like no block syntax are read back as they were written, after the normalization;
      blocks are well formed, links are safe, mentions are exact.
    - [InlineFormat]: [formatInline] of both clients. What is shown is the text, piece by piece.
    - [MessageJson], [Autosave], [ConversationScreen], [ThreadScreen]: messages as JSON, the
      draft that both screens save, and the screens [conversation/[kind]/[id].tsx] and
      [thread/[id].tsx] with every handler. A draft survives leaving, except text
      that the acknowledgement of another message overtook; a message is shown as being sent,
      as the server's or as failed, once; a thread shows its replies.
    - [SignIn]: [sign-in.tsx] and [auth-errors.ts]. The steps are taken in order.
    - [Storage], [Session]: [conversation-storage.ts], [submission-storage.ts],
      [learning-cache.ts] and the mobile providers. Drafts survive; leaving erases a user.
    - [Realtime]: [realtime.ts] and [cable.ts]. At most one connection, none after leaving.
    - [VoiceDraft], [VoiceRecorder]: [voice-draft.ts], [use-voice-draft.ts] and
      [voice-recorder-provider.tsx]. Inserted text is tracked; under the conditions
      of [careful] the microphone is on only where its recording is shown, and no audio is left
      behind.
    - [Learning], [ContentBlock], [VideoProgress], [CodeRunner], [Analytics]:
      [learning.ts], [submissionQueue.ts], [ContentBlockRenderer.tsx], the two players,
      the code runner with its worker, and [analytics.ts] of both clients, each with its types. Work is handed
      in only when it may be and is complete; drafts are not lost; watched time is credited
      within bounds and reaches the server; runs end; only safe values are reported.
    - [LessonBlock]: [lesson-content-block.tsx]. What a student writes is there again when the
      lesson is opened again, but for text that was there when work was accepted; requests are those the student may make.
    - [Grading], [LessonEditor]: [CohortModuleGrading.tsx], [Grading.tsx],
      [SubmissionDetail.tsx], [LessonEditor.tsx]. The tables are those of the data, grades
      are deliberate, the queue follows its address, an unedited lesson that is stored tidily is
      saved unchanged.
    - [CohortDetail], [StudentDetail], [RecordingLibrary], [ContentManagement]:
      [CohortDetail.tsx] with [presence.ts] and [dateTime.ts], [StudentDetail.tsx],
      [RecordingUploadManager.tsx], and [ContentManagement.tsx] with its dialogs. A final
      status is confirmed; a module is saved as it was when the button was pressed; overrides
      go where they are shown; recordings reach the upload queue; every exercise has its
      place, a new one comes last, and the studio is never stuck.
    - [VideoField]: [VideoUploadField.tsx], between the upload queue and the lesson editor. Once its
      upload has ended well, the video that is saved with a lesson is in the bucket.
    - [Announcements]: [Announcements.tsx]. The address of the page implements its filters;
      announcements are posted one at a time and archived only when confirmed.
    - [Shell], [StudentHome]: [Layout.tsx] with [routePreload.ts], [Modal.tsx] and
      [MarkdownEditor.tsx]; [Dashboard.tsx], [Materials.tsx] and [Resources.tsx]. The navigation
      leads where its user may go, the focus stays in a dialog, the collapsed modules are kept.
    - [StaffLists]: [StudentManagement.tsx], [CohortManagement.tsx] and [Profile.tsx]. Each row
      that matches is shown once and the cards count them; the switch of the profile shows what
      the server holds.
    - [HelpRequests], [Recordings], [TeamManagement]: [ContextualHelp.tsx] of both clients with
      [SupportQueue.tsx] and [InterventionDetail.tsx]; [Recordings.tsx]; [TeamManagement.tsx].
      The requests that are shown are those the server answered; progress goes to its recording;
      the team is the one asked for last.
    - [PushNotifications], [WebContexts]: [pushNotifications.ts] and the three contexts of the
      web app. Browser and server agree on a subscription; the account is that of the user;
      every question is answered once.
    - [ImageViewer], [ImagePreview]: [image-viewer.ts] and the gestures of
      [image-preview.tsx]. At rest the image is in view, unless a pan ended
      during a zoom or against its drag, or a size came while the image was moved.

    ** Conventions

    - State is a record, a handler a function on it; an asynchronous handler is split at
      its [await]s, what it waits for is part of the state, and answers are events that
      arrive in any order. Theorems about machines hold for every list of events, or for
      every state of a reachability relation; what a theorem assumes of the events is named in
      its doc comment, and examples show that the assumptions matter.
    - A string is a list of Latin-1 code units. Integers are [Z]; times that the code adds
      and divides are rationals, so the rounding of floating point is not modelled.
    - Dates are strings read by a parameter ([getTime], [Date_parse]), the URL parser is a
      parameter, and so are the virtual machines of the code runner. [localStorage],
      [AsyncStorage] and the tables of the learning cache are finite maps.
    - Recursion is structural where it can be. The regular-expression matcher and the JSON
      parser take the length of their input as fuel, which is proved to be enough; the
      retry loops take the number of attempts the code allows; the pool of uploads is a step
      relation with a decreasing measure.
    - Lemmas that show an unwanted behaviour of the code (a late answer that wins, a file
      that is lost) are kept beside the theorem whose condition they explain.

    ** Not modelled

    The Rails API (Ruby); React and React Native rendering, styles and navigation
    containers; the pages that are markup around one call of the API ([CohortStudentView],
    [CohortWatchProgress] and the other mobile screens); dates and labels formatted by [Intl]; code splitting; demo data,
    scripts and documentation; third-party SDKs (Clerk, PostHog, Expo, the Ruby and QuickJS virtual machines), which
    appear as parameters or events. *)

From Stdlib Require Export Ascii String ZArith QArith Qround Lqa Sorted Permutation.
From stdpp Require Export base numbers list strings gmap pretty sorting.

#[global] Open Scope Z_scope.

(** ** Strings

    A JavaScript string is a sequence of UTF-16 code units.  The development
    works on the code units 0..255 (one [ascii] each): every operation below is
    the ECMAScript one on such strings. *)

Abbreviation str := (list ascii).

(** String literals. *)
Definition js : string → str := String.list_ascii_of_string.

Definition code (c : ascii) : N := Ascii.N_of_ascii c.

(** [c] lies between the characters [lo] and [hi]. *)
Definition in_range (lo hi c : ascii) : bool :=
  (code lo <=? code c)%N && (code c <=? code hi)%N.

(** ECMAScript WhiteSpace and LineTerminator below U+0100: TAB..CR, SPACE and
    NO-BREAK SPACE; what [trim] strips and the class [\s] matches. *)
Definition is_space (c : ascii) : bool :=
  ((9 <=? code c)%N && (code c <=? 13)%N) || (code c =? 32)%N || (code c =? 160)%N.

Definition is_digit : ascii → bool := in_range "0" "9".
Definition is_lower : ascii → bool := in_range "a" "z".
Definition is_upper : ascii → bool := in_range "A" "Z".
Definition is_alpha (c : ascii) : bool := is_lower c || is_upper c.
Definition is_alnum (c : ascii) : bool := is_alpha c || is_digit c.

(** The class [\w]. *)
Definition is_word (c : ascii) : bool := is_alnum c || bool_decide (c = "_"%char).

(** [String.prototype.toLowerCase] below U+0100: A..Z and the Latin-1 capitals
    U+00C0..U+00DE except the multiplication sign U+00D7. *)
Definition char_lower (c : ascii) : ascii :=
  if is_upper c
     || ((192 <=? code c)%N && (code c <=? 222)%N && negb (code c =? 215)%N)
  then Ascii.ascii_of_N (code c + 32) else c.

Definition toLowerCase (s : str) : str := map char_lower s.

Definition LF : ascii := "010"%char.

Fixpoint drop_while {A} (p : A → bool) (l : list A) : list A :=
  match l with
  | [] => []
  | c :: r => if p c then drop_while p r else l
  end.

Fixpoint take_while {A} (p : A → bool) (l : list A) : list A :=
  match l with
  | [] => []
  | c :: r => if p c then c :: take_while p r else []
  end.

Definition trimStart (s : str) : str := drop_while is_space s.
Definition trimEnd (s : str) : str := reverse (drop_while is_space (reverse s)).
Definition trim (s : str) : str := trimEnd (trimStart s).

(** [s.split(c)] for a one-character separator. *)
Fixpoint split_on (c : ascii) (s : str) : list str :=
  match s with
  | [] => [[]]
  | d :: r =>
      if bool_decide (d = c) then [] :: split_on c r
      else match split_on c r with
           | [] => [[d]]
           | w :: ws => (d :: w) :: ws
           end
  end.

(** [a.join(sep)] *)
Fixpoint join (sep : str) (l : list str) : str :=
  match l with
  | [] => []
  | [w] => w
  | w :: ws => w ++ sep ++ join sep ws
  end.

Fixpoint startsWith (s p : str) {struct p} : bool :=
  match p, s with
  | [], _ => true
  | c :: p', d :: s' => bool_decide (c = d) && startsWith s' p'
  | _ :: _, [] => false
  end.

Definition endsWith (s p : str) : bool := startsWith (reverse s) (reverse p).

Fixpoint includes (s p : str) : bool :=
  startsWith s p || match s with [] => false | _ :: s' => includes s' p end.

(** [s.slice(a, b)] for indices already in range conventions of JavaScript:
    a negative index counts from the end, both are clamped to the length. *)
Definition slice_index (len i : Z) : nat :=
  Z.to_nat (if i <? 0 then Z.max 0 (len + i) else Z.min i len).

Definition slice {A} (s : list A) (a b : Z) : list A :=
  let len := Z.of_nat (length s) in
  let i := slice_index len a in
  let j := slice_index len b in
  take (j - i) (drop i s).

Definition slice_from {A} (s : list A) (a : Z) : list A :=
  slice s a (Z.of_nat (length s)).

(** [String(n)] for an integer. *)
Definition str_of_Z (n : Z) : str := js (pretty n).

(** Truthiness of a string, and [a || b] on strings. *)
Definition truthy (s : str) : bool := match s with [] => false | _ => true end.
Definition str_or (a b : str) : str := if truthy a then a else b.

(** [value || undefined] *)
Definition or_undefined (s : str) : option str := if truthy s then Some s else None.

Definition eqs (a b : str) : bool := bool_decide (a = b).

(** [new Set(xs).has(x)] and [xs.includes(x)] on strings and integers. *)
Definition has {A} `{EqDecision A} (xs : list A) (x : A) : bool := bool_decide (x ∈ xs).

(** ** [Array.prototype.sort]

    The comparator returns a number; [NaN] counts as zero.  ECMAScript requires
    the sort to be stable, so for a consistent comparator its result is
    determined, whatever the algorithm: [js_sort] is insertion sort. *)
Section Sort.
Context {A : Type} (cmp : A → A → Z).

Fixpoint sort_insert (x : A) (l : list A) : list A :=
  match l with
  | [] => [x]
  | y :: r => if cmp x y <? 0 then x :: l else y :: sort_insert x r
  end.

Definition js_sort (l : list A) : list A :=
  foldl (λ acc x, sort_insert x acc) [] l.
End Sort.

(** ** Lemmas on sorting *)

(** A comparator is consistent on the elements satisfying [P] when "not after"
    is a total preorder there; then the sort yields a sorted permutation. *)
Record cmp_consistent {A} (cmp : A → A → Z) (P : A → Prop) : Prop := {
  cmp_trans x y z : P x → P y → P z → cmp x y <= 0 → cmp y z <= 0 → cmp x z <= 0;
  cmp_total x y : P x → P y → 0 <= cmp x y → cmp y x <= 0;
}.

Section SortFacts.
Context {A : Type} (cmp : A → A → Z).

Lemma sort_insert_perm x l : sort_insert cmp x l ≡ₚ x :: l.
Proof.
  induction l as [|y l IH]; [done|]; simpl. case_match; [done|].
  rewrite IH. apply Permutation_swap.
Qed.

Lemma js_sort_acc_perm l acc :
  foldl (λ acc x, sort_insert cmp x acc) acc l ≡ₚ acc ++ l.
Proof.
  revert acc; induction l as [|x l IH]; intros acc; simpl.
  - by rewrite app_nil_r.
  - rewrite IH, sort_insert_perm. simpl. by rewrite Permutation_middle.
Qed.

Lemma js_sort_perm l : js_sort cmp l ≡ₚ l.
Proof. apply js_sort_acc_perm. Qed.

Lemma js_sort_elem x l : x ∈ js_sort cmp l ↔ x ∈ l.
Proof. by rewrite js_sort_perm. Qed.

Lemma js_sort_length l : length (js_sort cmp l) = length l.
Proof. by rewrite js_sort_perm. Qed.

(** Sorting touches neither the multiset of images nor any invariant that is
    stable under permutation. *)
Lemma js_sort_map_perm {B} (f : A → B) l : map f (js_sort cmp l) ≡ₚ map f l.
Proof. by rewrite js_sort_perm. Qed.

Abbreviation le := (λ x y, cmp x y <= 0).

Lemma sort_insert_sorted (P : A → Prop) x l :
  cmp_consistent cmp P → P x → Forall P l →
  StronglySorted le l → StronglySorted le (sort_insert cmp x l).
Proof.
  intros C Px. induction l as [|y l IH]; simpl; intros FP SS.
  - repeat constructor.
  - inversion FP as [|?? Py Fl]; subst. inversion SS as [|?? SSl Hy]; subst.
    case_match eqn:E.
    + apply Z.ltb_lt in E. constructor; [done|]. constructor; [lia|].
      rewrite Forall_forall in Hy, Fl |- *. intros z Hz.
      apply (cmp_trans _ _ C x y z); auto; lia.
    + apply Z.ltb_ge in E. constructor; [by apply IH|].
      apply Forall_forall. intros z Hz.
      rewrite sort_insert_perm in Hz. apply elem_of_cons in Hz as [->|Hz].
      * by apply (cmp_total _ _ C x y).
      * rewrite Forall_forall in Hy. by apply Hy.
Qed.

Lemma js_sort_acc_sorted (P : A → Prop) l acc :
  cmp_consistent cmp P → Forall P l → Forall P acc → StronglySorted le acc →
  StronglySorted le (foldl (λ acc x, sort_insert cmp x acc) acc l).
Proof.
  intros C. revert acc. induction l as [|x l IH]; intros acc Fl Fa SS; [done|].
  inversion Fl; subst. simpl. apply IH; auto.
  - rewrite sort_insert_perm. by constructor.
  - by eapply sort_insert_sorted.
Qed.

Lemma js_sort_sorted (P : A → Prop) l :
  cmp_consistent cmp P → Forall P l → StronglySorted le (js_sort cmp l).
Proof. intros C Fl. by eapply js_sort_acc_sorted; [done..|constructor|constructor]. Qed.

(** An element not before any element of [l] is appended. *)
Lemma sort_insert_last x l :
  Forall (λ y, 0 <= cmp x y) l → sort_insert cmp x l = l ++ [x].
Proof.
  induction 1 as [|y l Hy _ IH]; [done|]. simpl.
  destruct (Z.ltb_spec (cmp x y) 0); [lia|]. by rewrite IH.
Qed.

(** Sorting a sorted list changes nothing. *)
Lemma js_sort_id (P : A → Prop) l :
  (∀ x y, P x → P y → cmp x y <= 0 → 0 <= cmp y x) →
  Forall P l → StronglySorted le l → js_sort cmp l = l.
Proof.
  intros anti. unfold js_sort.
  enough (H : ∀ acc, Forall P (acc ++ l) → StronglySorted le (acc ++ l) →
    foldl (λ acc x, sort_insert cmp x acc) acc l = acc ++ l) by (apply (H [])).
  induction l as [|x l IH]; intros acc FP SS; simpl; [by rewrite app_nil_r|].
  rewrite sort_insert_last.
  - rewrite IH; rewrite <- (assoc_L (++)); done.
  - apply Forall_app in FP as [Fa Fx]. inversion Fx; subst.
    apply Forall_forall. intros y Hy.
    rewrite Forall_forall in Fa. apply anti; auto.
    clear -SS Hy. induction acc as [|z acc IH]; [by apply not_elem_of_nil in Hy|].
    simpl in SS. inversion SS as [|?? SS' Hz]; subst.
    apply elem_of_cons in Hy as [->|Hy]; [|by apply IH].
    rewrite Forall_forall in Hz. apply Hz. set_solver.
Qed.
End SortFacts.

(** Two lists sorted by a relation that is antisymmetric on their elements are
    equal when they are permutations of each other. *)
Lemma sorted_perm_unique {A} (R : A → A → Prop) (l1 l2 : list A) :
  (∀ x y, x ∈ l1 → y ∈ l1 → R x y → R y x → x = y) →
  StronglySorted R l1 → StronglySorted R l2 → l1 ≡ₚ l2 → l1 = l2.
Proof.
  revert l2; induction l1 as [|x l1 IH]; intros l2 anti S1 S2 P.
  - by apply Permutation_nil_l in P as ->.
  - inversion S1 as [|?? S1' H1]; subst. rewrite Forall_forall in H1.
    destruct l2 as [|y l2]; [by apply Permutation_nil_r in P|].
    inversion S2 as [|?? S2' H2]; subst. rewrite Forall_forall in H2.
    assert (x = y) as ->.
    { assert (x ∈ y :: l2) as Hx by (rewrite <- P; set_solver).
      assert (y ∈ x :: l1) as Hy by (rewrite P; set_solver).
      apply elem_of_cons in Hx as [|Hx]; [done|].
      apply elem_of_cons in Hy as [|Hy]; [done|].
      apply anti; [set_solver..| |]; auto. }
    f_equal. apply IH; auto.
    + intros a b Ha Hb. apply anti; set_solver.
    + by apply Permutation_cons_inv in P.
Qed.

(** A comparator [primary || secondary] on integer keys. *)
Definition lex_cmp (a b : Z) : Z := if a =? 0 then b else a.

Lemma lex_cmp_consistent {A} (cmp : A → A → Z) (k1 k2 : A → Z) (P : A → Prop) :
  (∀ x y, P x → P y → cmp x y = lex_cmp (k1 x - k1 y) (k2 x - k2 y)) →
  cmp_consistent cmp P.
Proof.
  intros H. split.
  - intros x y z Px Py Pz. rewrite !H by done. unfold lex_cmp.
    repeat case_match; lia.
  - intros x y Px Py. rewrite !H by done. unfold lex_cmp. repeat case_match; lia.
Qed.

(** ** Lemmas on strings *)

Lemma startsWith_spec s p : startsWith s p = true ↔ ∃ r, s = p ++ r.
Proof.
  revert s; induction p as [|c p IH]; intros s; simpl.
  { split; intros _; [by exists s|reflexivity]. }
  destruct s as [|d s]; simpl.
  { split; [discriminate|]. intros [r Hr]. discriminate. }
  rewrite andb_true_iff, bool_decide_eq_true, IH.
  split; [intros [-> [r ->]]; eauto|intros [r [=]]; simplify_eq; eauto].
Qed.

Lemma startsWith_app s r : startsWith (s ++ r) s = true.
Proof. apply startsWith_spec; eauto. Qed.

Lemma endsWith_spec s p : endsWith s p = true ↔ ∃ r, s = r ++ p.
Proof.
  unfold endsWith. rewrite startsWith_spec. split.
  - intros [r H]. exists (reverse r). apply (inj reverse).
    by rewrite reverse_app, reverse_involutive.
  - intros [r ->]. exists (reverse r). by rewrite reverse_app.
Qed.

Lemma endsWith_app r s : endsWith (r ++ s) s = true.
Proof. apply endsWith_spec; eauto. Qed.

Lemma eqs_true a b : eqs a b = true ↔ a = b.
Proof. apply bool_decide_eq_true. Qed.

Lemma eqs_refl a : eqs a a = true.
Proof. by apply eqs_true. Qed.

Lemma eqs_false a b : eqs a b = false ↔ a ≠ b.
Proof. unfold eqs. by rewrite bool_decide_eq_false. Qed.

Lemma has_true {A} `{EqDecision A} (xs : list A) x : has xs x = true ↔ x ∈ xs.
Proof. apply bool_decide_eq_true. Qed.

Lemma has_false {A} `{EqDecision A} (xs : list A) x : has xs x = false ↔ x ∉ xs.
Proof. apply bool_decide_eq_false. Qed.

Lemma js_inj a b : js a = js b → a = b.
Proof.
  intros H. rewrite <- (String.string_of_list_ascii_of_string a),
    <- (String.string_of_list_ascii_of_string b). unfold js in H. by rewrite H.
Qed.

Lemma str_of_Z_inj a b : str_of_Z a = str_of_Z b → a = b.
Proof. intros H%js_inj. by apply (inj pretty) in H. Qed.

Lemma pretty_N_char_digit x : is_digit (pretty_N_char x) = true.
Proof. unfold pretty_N_char. repeat case_match; reflexivity. Qed.

Lemma pretty_N_go_digits x s :
  Forall (λ c, is_digit c = true) (js s) →
  Forall (λ c, is_digit c = true) (js (pretty_N_go x s)).
Proof.
  revert s. induction (N.lt_wf_0 x) as [x _ IH]; intros s Hs.
  assert (x = 0 ∨ 0 < x)%N as [->|?] by lia; [done|].
  rewrite pretty_N_go_step by done. apply IH; [by apply N.div_lt|].
  constructor; [apply pretty_N_char_digit|done].
Qed.

(** [String(n)] of a natural number is made of digits only. *)
Lemma str_of_Z_digits n : 0 <= n → Forall (λ c, is_digit c = true) (str_of_Z n).
Proof.
  intros Hn. destruct n as [|p|p]; [by repeat constructor| |lia].
  unfold str_of_Z, pretty, pretty_Z, pretty, pretty_positive, pretty, pretty_N.
  apply pretty_N_go_digits. constructor.
Qed.

Lemma str_of_Z_nonempty n : str_of_Z n ≠ [].
Proof.
  unfold str_of_Z, pretty, pretty_Z. destruct n as [|p|p]; [done| |done].
  unfold pretty, pretty_positive, pretty, pretty_N. case_decide; [done|].
  clear. intros H.
  assert (pretty_N_go (N.pos p) "" = "") as E.
  { destruct (pretty_N_go (N.pos p) ""); done. }
  rewrite pretty_N_go_step in E by done. revert E.
  generalize (N.pos p `div` 10)%N as x. intros x.
  assert (∀ s, s ≠ "" → pretty_N_go x s ≠ "") as G; [|by apply G].
  induction (N.lt_wf_0 x) as [x _ IH]; intros s Hs.
  assert (x = 0 ∨ 0 < x)%N as [->|?] by lia; [done|].
  rewrite pretty_N_go_step by done. apply IH; [by apply N.div_lt|done].
Qed.

(** Two digit runs closed by the same non-digit are equal: the separators of the
    storage keys cannot be confused. *)
Lemma run_sep_inj (p : ascii → bool) c a b r s :
  p c = false → Forall (λ x, p x = true) a → Forall (λ x, p x = true) b →
  a ++ c :: r = b ++ c :: s → a = b ∧ r = s.
Proof.
  intros Hc. revert b. induction a as [|x a IH]; intros [|y b] Fa Fb H;
    simplify_eq/=; auto.
  - inversion Fb; subst; congruence.
  - inversion Fa; subst; congruence.
  - inversion Fa; subst. inversion Fb; subst. destruct (IH b) as [-> ->]; auto.
Qed.

(** Trimming *)

Lemma drop_while_suffix {A} (p : A → bool) l : ∃ k, l = k ++ drop_while p l ∧ Forall (λ c, p c = true) k.
Proof.
  induction l as [|c l IH]; simpl; [by exists []|].
  destruct (p c) eqn:E; [|by exists []].
  destruct IH as (k & H & F). exists (c :: k). simpl. rewrite <- H. auto.
Qed.

Lemma drop_while_head {A} (p : A → bool) l c r : drop_while p l = c :: r → p c = false.
Proof.
  induction l as [|d l IH]; simpl; [done|]. destruct (p d) eqn:E; [done|].
  by intros [= -> ->].
Qed.

Lemma drop_while_id {A} (p : A → bool) c r : p c = false → drop_while p (c :: r) = c :: r.
Proof. simpl. by intros ->. Qed.

Lemma drop_while_idem {A} (p : A → bool) l : drop_while p (drop_while p l) = drop_while p l.
Proof.
  destruct (drop_while p l) as [|c r] eqn:E; [done|].
  apply drop_while_head in E. by rewrite drop_while_id.
Qed.

Lemma take_drop_while {A} (p : A → bool) l : take_while p l ++ drop_while p l = l.
Proof. induction l as [|c l IH]; simpl; [done|]. destruct (p c); simpl; by rewrite ?IH. Qed.

Lemma take_while_all {A} (p : A → bool) l : Forall (λ c, p c = true) (take_while p l).
Proof. induction l as [|c l IH]; simpl; [done|]. destruct (p c) eqn:E; auto. Qed.

Lemma take_while_app {A} (p : A → bool) l r c :
  Forall (λ x, p x = true) l → p c = false → take_while p (l ++ c :: r) = l.
Proof. induction 1 as [|x l Hx _ IH]; simpl; intros Hc; [by rewrite Hc|]. rewrite Hx, IH; auto. Qed.

Lemma drop_while_app {A} (p : A → bool) l r c :
  Forall (λ x, p x = true) l → p c = false → drop_while p (l ++ c :: r) = c :: r.
Proof. induction 1 as [|x l Hx _ IH]; simpl; intros Hc; [by rewrite Hc|]. rewrite Hx, IH; auto. Qed.

Lemma drop_while_none {A} (p : A → bool) l :
  Forall (λ x, p x = true) l → drop_while p l = [].
Proof. induction 1 as [|x l Hx _ IH]; simpl; [done|]. by rewrite Hx. Qed.

Lemma trimEnd_head c s : is_space c = false → ∃ r, trimEnd (c :: s) = c :: r.
Proof.
  intros Hc. unfold trimEnd. rewrite reverse_cons.
  generalize (reverse s). intros t.
  enough (∃ k, drop_while is_space (t ++ [c]) = k ++ [c]) as [k ->]
    by (rewrite reverse_app; simpl; eauto).
  induction t as [|d t [k IH]]; simpl; [rewrite Hc; by exists []|].
  destruct (is_space d); [eauto|]. by exists (d :: t).
Qed.

Lemma trim_head s c r : trim s = c :: r → is_space c = false.
Proof.
  unfold trim. destruct (trimStart s) as [|d t] eqn:E; [done|].
  apply drop_while_head in E. destruct (trimEnd_head d t E) as [k ->]. by intros [= -> _].
Qed.

Lemma trimStart_nonspace s : trimStart (trim s) = trim s.
Proof.
  destruct (trim s) as [|c r] eqn:E; [done|]. apply drop_while_id. by eapply trim_head.
Qed.

Lemma trimEnd_idem s : trimEnd (trimEnd s) = trimEnd s.
Proof. unfold trimEnd. by rewrite reverse_involutive, drop_while_idem. Qed.

Lemma trim_idem s : trim (trim s) = trim s.
Proof. unfold trim at 1. rewrite trimStart_nonspace. unfold trim. apply trimEnd_idem. Qed.

(** Slices *)

Lemma slice_take {A} (s : list A) n : 0 <= n → slice s 0 n = take (Z.to_nat n) s.
Proof.
  intros Hn. unfold slice, slice_index. rewrite (proj2 (Z.ltb_ge n 0)) by lia.
  simpl (Z.to_nat (if 0 <? 0 then _ else _)).
  replace (Z.to_nat (Z.min 0 (Z.of_nat (length s)))) with 0%nat by lia.
  rewrite drop_0, Nat.sub_0_r. destruct (decide (n <= Z.of_nat (length s))).
  - by rewrite Z.min_l by lia.
  - rewrite Z.min_r by lia. rewrite Nat2Z.id. rewrite !take_ge by lia. done.
Qed.

Lemma slice_rest {A} (s : list A) i :
  0 <= i <= Z.of_nat (length s) → slice_from s i = drop (Z.to_nat i) s.
Proof.
  intros H. unfold slice_from, slice, slice_index.
  rewrite (proj2 (Z.ltb_ge i 0)), (proj2 (Z.ltb_ge (Z.of_nat (length s)) 0)) by lia.
  rewrite !Z.min_l, Nat2Z.id by lia. apply take_ge. rewrite length_drop. lia.
Qed.

Lemma slice_drop_last {A} (r : list A) c : slice (r ++ [c]) 0 (-1) = r.
Proof.
  unfold slice, slice_index. rewrite length_app. cbn [length].
  replace (Z.to_nat (if 0 <? 0 then _ else _)) with 0%nat by (simpl; lia).
  rewrite drop_0, Nat.sub_0_r. simpl.
  replace (Z.to_nat _) with (length r) by lia. apply take_app_length.
Qed.

(** [split] then [join] is the identity. *)
Lemma join_split_on c s : join [c] (split_on c s) = s.
Proof.
  induction s as [|d s IH]; [done|]. simpl. case_bool_decide as E.
  - subst. destruct (split_on c s) eqn:H; simpl; [by destruct s|]. by rewrite <- IH.
  - destruct (split_on c s) as [|w ws] eqn:H.
    + destruct s; simpl in H; repeat case_match; done.
    + destruct ws; simpl in *; by rewrite <- IH.
Qed.

Lemma split_on_no_sep c s w : w ∈ split_on c s → c ∉ w.
Proof.
  revert w; induction s as [|d s IH]; intros w; simpl.
  { intros ->%list_elem_of_singleton. apply not_elem_of_nil. }
  case_bool_decide.
  { intros [->|Hw]%elem_of_cons; [apply not_elem_of_nil|by apply IH]. }
  destruct (split_on c s) as [|v vs].
  { intros ->%list_elem_of_singleton [->|[]%not_elem_of_nil]%elem_of_cons. done. }
  intros [->|Hw]%elem_of_cons; [|by apply IH; right].
  intros [->|Hv]%elem_of_cons; [done|]. by apply (IH v); [left|].
Qed.

(** ** Tactics and hint databases *)

(** [split_ands] turns the boolean conjunctions and negations of the context into
    propositions. *)
Ltac bool_facts :=
  repeat match goal with
  | H : _ && _ = true |- _ => apply andb_true_iff in H; destruct H
  | H : _ || _ = false |- _ => apply orb_false_iff in H; destruct H
  | H : negb _ = true |- _ => apply negb_true_iff in H
  | H : negb _ = false |- _ => apply negb_false_iff in H
  | H : bool_decide _ = true |- _ => apply bool_decide_eq_true in H
  | H : bool_decide _ = false |- _ => apply bool_decide_eq_false in H
  | H : eqs _ _ = true |- _ => apply eqs_true in H
  | H : (_ =? _) = true |- _ => apply Z.eqb_eq in H
  | H : (_ =? _) = false |- _ => apply Z.eqb_neq in H
  | H : (_ <? _) = true |- _ => apply Z.ltb_lt in H
  | H : (_ <? _) = false |- _ => apply Z.ltb_ge in H
  | H : (_ <=? _) = true |- _ => apply Z.leb_le in H
  | H : (_ <=? _) = false |- _ => apply Z.leb_gt in H
  end.

(** Case analysis on every [match] and [if] of the goal, with the equations kept
    as propositions. *)
Ltac split_cases := repeat case_match; bool_facts; simplify_eq/=.

Create HintDb csg.
#[export] Hint Resolve js_sort_perm startsWith_app endsWith_app trim_idem : csg.
#[export] Hint Resolve str_of_Z_digits str_of_Z_nonempty : csg.
