(* ===== verification/Regex.v ===== *)
(** * Regular expressions

    The ECMAScript backtracking matcher as combinators: a matcher takes the
    state and the continuation "match the rest", tries its alternatives in the
    order the standard prescribes (greedy quantifiers longest first, lazy ones
    shortest first, alternatives left to right) and backtracks when the
    continuation fails.  The regular expressions of the sources are transcribed
    with these combinators; [re_spec] gives the language of a matcher without
    its search order. *)

From S2P Require Import Prelude.

(** The position in the subject (the text before it, reversed, and after it) and
    the captures so far, the latest first. *)
Record rstate := RState {
  before : str;
  rest : str;
  caps : list (nat * str);
}.

Definition matcher : Type := rstate → (rstate → option rstate) → option rstate.

Definition step (s : rstate) (c : ascii) (r : str) : rstate :=
  RState (c :: before s) r (caps s).

(** One character of a class. *)
Definition chr (p : ascii → bool) : matcher := λ s k,
  match rest s with
  | c :: r => if p c then k (step s c r) else None
  | [] => None
  end.

Definition eps : matcher := λ s k, k s.
Definition seq (m1 m2 : matcher) : matcher := λ s k, m1 s (λ s', m2 s' k).
Definition alt (m1 m2 : matcher) : matcher := λ s k,
  match m1 s k with Some r => Some r | None => m2 s k end.
Definition opt (m : matcher) : matcher := alt m eps.

(** A literal text. *)
Fixpoint lit (w : str) : matcher :=
  match w with
  | [] => eps
  | c :: w' => seq (chr (λ d, bool_decide (d = c))) (lit w')
  end.

(** [p*] and [p*?] for a class [p]. *)
Fixpoint star_go (p : ascii → bool) (b r : str) (cs : list (nat * str))
    (k : rstate → option rstate) : option rstate :=
  match r with
  | c :: r' =>
      if p c then
        match star_go p (c :: b) r' cs k with
        | Some x => Some x
        | None => k (RState b r cs)
        end
      else k (RState b r cs)
  | [] => k (RState b r cs)
  end.
Definition star (p : ascii → bool) : matcher := λ s k,
  star_go p (before s) (rest s) (caps s) k.

Fixpoint lazy_go (p : ascii → bool) (b r : str) (cs : list (nat * str))
    (k : rstate → option rstate) : option rstate :=
  match k (RState b r cs) with
  | Some x => Some x
  | None =>
      match r with
      | c :: r' => if p c then lazy_go p (c :: b) r' cs k else None
      | [] => None
      end
  end.
Definition lazy_star (p : ascii → bool) : matcher := λ s k,
  lazy_go p (before s) (rest s) (caps s) k.

Definition plus (p : ascii → bool) : matcher := seq (chr p) (star p).

(** [m{0,n}], greedy. *)
Fixpoint upto (n : nat) (m : matcher) : matcher :=
  match n with
  | O => eps
  | S n' => opt (seq m (upto n' m))
  end.

(** A capture group: records the text consumed by [m]. *)
Definition consumed (s s' : rstate) : str :=
  reverse (take (length (before s') - length (before s)) (before s')).
Definition group (i : nat) (m : matcher) : matcher := λ s k,
  m s (λ s', k (RState (before s') (rest s') ((i, consumed s s') :: caps s'))).

Definition bol : matcher := λ s k, if before s is [] then k s else None.
Definition eol : matcher := λ s k, if rest s is [] then k s else None.

(** [^] with the flag [m]. *)
Definition mbol : matcher := λ s k,
  match before s with
  | [] => k s
  | c :: _ => if bool_decide (c = LF) || bool_decide (c = "013"%char) then k s else None
  end.

Definition neg_look (m : matcher) : matcher := λ s k,
  if m s Some is Some _ then None else k s.
Definition look (m : matcher) : matcher := λ s k,
  if m s Some is Some _ then k s else None.

(** [exec] from a position: the leftmost start that matches. *)
Fixpoint search (m : matcher) (b r : str) : option (rstate * rstate) :=
  match m (RState b r []) Some with
  | Some e => Some (RState b r [], e)
  | None =>
      match r with
      | [] => None
      | c :: r' => search m (c :: b) r'
      end
  end.

Definition exec (m : matcher) (s : str) : option (rstate * rstate) := search m [] s.
Definition test (m : matcher) (s : str) : bool := bool_decide (is_Some (exec m s)).

Definition cap (i : nat) (s : rstate) : str :=
  match list_find (λ x, x.1 = i) (caps s) with
  | Some (_, (_, w)) => w
  | None => []
  end.

(** [s.replace(re, f)] with the flag [g]: [f] gets the matched text and the final
    state (its captures).  [fuel] bounds the matches; one more than the length of
    the text is enough, an empty match advances by one character. *)
Fixpoint replace_go (fuel : nat) (m : matcher) (f : str → rstate → str)
    (b r : str) : str :=
  match fuel with
  | O => r
  | S fuel' =>
      match search m b r with
      | None => r
      | Some (s0, e) =>
          let skipped := take (length r - length (rest s0)) r in
          if bool_decide (length (rest e) = length (rest s0)) then
            skipped ++ f [] e ++
              match rest e with
              | [] => []
              | c :: r' => c :: replace_go fuel' m f (c :: before e) r'
              end
          else skipped ++ f (consumed s0 e) e ++ replace_go fuel' m f (before e) (rest e)
      end
  end.

Definition replace_all (m : matcher) (f : str → rstate → str) (s : str) : str :=
  replace_go (S (length s)) m f [] s.

(** ** The language of a matcher *)

Record re_spec (m : matcher) (R : rstate → rstate → Prop) : Prop := {
  re_sound s k r : m s k = Some r → ∃ s', R s s' ∧ k s' = Some r;
  re_complete s k s' : R s s' → is_Some (k s') → is_Some (m s k);
}.

(** [R] consumes a word of [L] and leaves the captures alone. *)
Definition consumes (L : str → Prop) (s s' : rstate) : Prop :=
  ∃ w, L w ∧ rest s = w ++ rest s' ∧ before s' = reverse w ++ before s ∧ caps s' = caps s.

Lemma chr_spec p : re_spec (chr p) (consumes (λ w, ∃ c, w = [c] ∧ p c = true)).
Proof.
  split.
  - intros [b r cs] k x. unfold chr; simpl. destruct r as [|c r]; [done|].
    destruct (p c) eqn:E; [|done]. intros H. exists (step (RState b (c :: r) cs) c r).
    split; [|done]. exists [c]. simpl. eauto 10.
  - intros [b r cs] k [b' r' cs'] (w & (c & -> & Hc) & H1 & H2 & H3); simpl in *; subst.
    unfold chr; simpl. by rewrite Hc.
Qed.

Lemma eps_spec : re_spec eps (λ s s', s' = s).
Proof. split; unfold eps; naive_solver. Qed.

Lemma seq_spec m1 m2 R1 R2 :
  re_spec m1 R1 → re_spec m2 R2 →
  re_spec (seq m1 m2) (λ s s', ∃ t, R1 s t ∧ R2 t s').
Proof.
  intros [S1 C1] [S2 C2]. split; unfold seq.
  - intros s k r (t & H1 & (s' & H2 & H3)%S2)%S1. eauto.
  - intros s k s' (t & H1 & H2) H3. eapply C1; [done|]. eauto.
Qed.

Lemma alt_spec m1 m2 R1 R2 :
  re_spec m1 R1 → re_spec m2 R2 → re_spec (alt m1 m2) (λ s s', R1 s s' ∨ R2 s s').
Proof.
  intros [S1 C1] [S2 C2]. split; unfold alt.
  - intros s k r. destruct (m1 s k) eqn:E; intros H.
    + simplify_eq. apply S1 in E. naive_solver.
    + apply S2 in H. naive_solver.
  - intros s k s' [H|H] Hk.
    + destruct (C1 _ _ _ H Hk) as [x ->]. eauto.
    + destruct (m1 s k); [eauto|]. by eapply C2.
Qed.

Lemma star_spec p : re_spec (star p) (consumes (Forall (λ c, p c = true))).
Proof.
  split.
  - intros [b r cs] k x. unfold star; simpl.
    revert b. induction r as [|c r IH]; intros b; simpl.
    { intros H. eexists. split; [|done]. exists []. simpl. auto. }
    assert (H0 : ∀ y, k (RState b (c :: r) cs) = Some y →
      ∃ s', consumes (Forall (λ c, p c = true)) (RState b (c :: r) cs) s' ∧ k s' = Some y).
    { intros y H. eexists. split; [|done]. exists []. simpl. auto. }
    destruct (p c) eqn:E; [|by apply H0].
    destruct (star_go p (c :: b) r cs k) as [y|] eqn:E2; [|by apply H0].
    intros [= ->]. apply IH in E2 as (s' & (w & Fw & H1 & H2 & H3) & H4).
    exists s'. split; [|done]. exists (c :: w). simpl in *.
    rewrite reverse_cons, <- (assoc_L (++)). simpl. split_and!; auto. by rewrite H1.
  - intros [b r cs] k [b' r' cs'] (w & Fw & H1 & H2 & H3) Hk. unfold star. simpl in *.
    subst cs' r. revert b H2. induction Fw as [|c w Hc Fw IH]; intros b H2; simpl in *.
    + subst b'. destruct r' as [|c r]; simpl; [done|].
      destruct (p c); [|done]. by destruct (star_go _ _ _ _ _).
    + rewrite Hc. rewrite reverse_cons, <- (assoc_L (++)) in H2.
      destruct (IH (c :: b)) as [y ->]; eauto.
Qed.

Lemma bol_spec : re_spec bol (λ s s', before s = [] ∧ s' = s).
Proof. split; unfold bol; intros s *; destruct (before s); naive_solver. Qed.

Lemma eol_spec : re_spec eol (λ s s', rest s = [] ∧ s' = s).
Proof. split; unfold eol; intros s *; destruct (rest s); naive_solver. Qed.

Lemma group_spec i m R :
  re_spec m R →
  re_spec (group i m) (λ s s', ∃ t, R s t ∧
    s' = RState (before t) (rest t) ((i, consumed s t) :: caps t)).
Proof.
  intros [S1 C1]. split; unfold group.
  - intros s k r (t & H1 & H2)%S1. eauto.
  - intros s k s' (t & H1 & ->) Hk. eapply C1; eauto.
Qed.

Lemma consumed_word s s' w :
  before s' = reverse w ++ before s → consumed s s' = w.
Proof.
  intros H. unfold consumed. rewrite H.
  replace (length (reverse w ++ before s) - length (before s))%nat with (length (reverse w)).
  - by rewrite take_app_length, reverse_involutive.
  - rewrite length_app. lia.
Qed.

Lemma re_spec_ext m R R' :
  re_spec m R → (∀ s s', R s s' ↔ R' s s') → re_spec m R'.
Proof.
  intros [S C] H. split.
  - intros s k r (s' & H1 & H2)%S. exists s'. by rewrite <- H.
  - intros s k s' H1. by apply C, H.
Qed.

(** Sequencing two word-consuming matchers concatenates their languages. *)
Lemma seq_consumes m1 m2 L1 L2 :
  re_spec m1 (consumes L1) → re_spec m2 (consumes L2) →
  re_spec (seq m1 m2) (consumes (λ w, ∃ u v, w = u ++ v ∧ L1 u ∧ L2 v)).
Proof.
  intros H1 H2. eapply re_spec_ext; [by apply seq_spec|]. intros s s'. split.
  - intros (t & (u & Lu & Ru & Bu & Cu) & (v & Lv & Rv & Bv & Cv)).
    exists (u ++ v). rewrite reverse_app, <- !(assoc_L (++)). split_and!; [by eauto|..]; congruence.
  - intros (w & (u & v & -> & Lu & Lv) & Rw & Bw & Cw).
    exists (RState (reverse u ++ before s) (v ++ rest s') (caps s)). split.
    + exists u. simpl. rewrite <- (assoc_L (++)) in Rw. auto.
    + exists v. simpl. rewrite reverse_app, <- (assoc_L (++)) in Bw. auto.
Qed.

Lemma alt_consumes m1 m2 L1 L2 :
  re_spec m1 (consumes L1) → re_spec m2 (consumes L2) →
  re_spec (alt m1 m2) (consumes (λ w, L1 w ∨ L2 w)).
Proof.
  intros H1 H2. eapply re_spec_ext; [by apply alt_spec|]. intros s s'. split.
  - intros [(w & ? & ?)|(w & ? & ?)]; exists w; auto.
  - intros (w & [?|?] & ?); [left|right]; exists w; auto.
Qed.

Lemma lit_spec w : re_spec (lit w) (consumes (λ u, u = w)).
Proof.
  induction w as [|c w IH]; simpl.
  - eapply re_spec_ext; [apply eps_spec|]. intros [b r cs] [b' r' cs']. split.
    + intros [= -> -> ->]. exists []. auto.
    + intros (u & -> & H1 & H2 & H3); simpl in *. congruence.
  - eapply re_spec_ext; [apply seq_consumes; [apply chr_spec|apply IH]|].
    intros s s'. split; intros (u & Hu & H).
    + destruct Hu as (? & ? & -> & (d & -> & Hd) & ->).
      apply bool_decide_eq_true in Hd as ->. by exists (c :: w).
    + subst. exists (c :: w). split; [|done]. exists [c], w. split_and!; [done| |done].
      exists c. by rewrite bool_decide_eq_true_2.
Qed.

Lemma plus_spec p :
  re_spec (plus p) (consumes (λ w, w ≠ [] ∧ Forall (λ c, p c = true) w)).
Proof.
  eapply re_spec_ext; [apply seq_consumes; [apply chr_spec|apply star_spec]|].
  intros s s'. split; intros (w & Hw & H).
  - destruct Hw as (? & v & -> & (c & -> & Hc) & Fv). exists (c :: v). split; [|done].
    split; [done|by constructor].
  - destruct Hw as [Hne Fw]. destruct w as [|c w]; [done|]. inversion Fw; subst.
    exists (c :: w). split; [|done]. exists [c], w. eauto 10.
Qed.

(** [p{0,n}]: at most [n] characters. *)
Lemma upto_spec n p :
  re_spec (upto n (chr p)) (consumes (λ w, (length w ≤ n)%nat ∧ Forall (λ c, p c = true) w)).
Proof.
  induction n as [|n IH]; simpl.
  - eapply re_spec_ext; [apply eps_spec|]. intros [b r cs] [b' r' cs']. split.
    + intros [= -> -> ->]. exists []. simpl. auto.
    + intros (u & [Hl _] & H1 & H2 & H3). destruct u; simpl in *; [congruence|lia].
  - eapply re_spec_ext; [apply alt_consumes; [apply seq_consumes; [apply chr_spec|apply IH]|apply (lit_spec [])]|].
    intros s s'. split; intros (w & Hw & H); exists w; (split; [|done]).
    + destruct Hw as [(? & v & -> & (c & -> & Hc) & Hl & Fv)| ->]; simpl; [|split; [lia|done]].
      split; [lia|by constructor].
    + destruct Hw as [Hl Fw]. destruct w as [|c w]; [by right|left]. simpl in Hl.
      inversion Fw; subst. exists [c], w. split; [done|]. split; [by eauto|]. split; [lia|done].
Qed.

(** A matcher that starts with [^] matches at the start or not at all. *)
Lemma search_bol_tail m c b r : search (seq bol m) (c :: b) r = None.
Proof. revert b c; induction r as [|d r IH]; intros b c; simpl; auto. Qed.

Lemma exec_bol m s :
  exec (seq bol m) s =
  match m (RState [] s []) Some with
  | Some e => Some (RState [] s [], e)
  | None => None
  end.
Proof.
  unfold exec. destruct s as [|c s]; simpl; [done|].
  unfold seq at 1, bol at 1; simpl. case_match; [done|]. apply search_bol_tail.
Qed.

Lemma test_bol m s :
  test (seq bol m) s =
  match m (RState [] s []) Some with Some _ => true | None => false end.
Proof.
  unfold test. rewrite exec_bol. destruct (m _ _);
    [apply bool_decide_eq_true_2; eauto|apply bool_decide_eq_false_2; by intros [? ?]].
Qed.

(** [^m$]: the whole text is a word of the language of [m]. *)
Definition anchored (m : matcher) : matcher := seq bol (seq m eol).

Lemma exec_anchored_sound m R s x :
  re_spec m R → exec (anchored m) s = Some x →
  R (RState [] s []) x.2 ∧ rest x.2 = [].
Proof.
  intros HR. unfold anchored. rewrite exec_bol.
  destruct (seq m eol (RState [] s []) Some) as [e|] eqn:E; intros [= <-]; simpl.
  apply (re_sound _ _ (seq_spec _ _ _ _ HR eol_spec)) in E as (s' & (t & H1 & H2 & ->) & [= <-]).
  done.
Qed.

Lemma exec_anchored_complete m R s e :
  re_spec m R → R (RState [] s []) e → rest e = [] → is_Some (exec (anchored m) s).
Proof.
  intros HR H1 H2. unfold anchored. rewrite exec_bol.
  destruct (re_complete _ _ (seq_spec _ _ _ _ HR eol_spec) (RState [] s []) Some e)
    as [y ->]; eauto.
Qed.

Lemma test_anchored m L s :
  re_spec m (consumes L) → test (anchored m) s = true ↔ L s.
Proof.
  intros HR. unfold test. rewrite bool_decide_eq_true. split.
  - intros [x Hx]. apply (exec_anchored_sound _ _ _ _ HR) in Hx as [(w & Lw & H1 & _) H2].
    simpl in H1. rewrite H2, app_nil_r in H1. by subst.
  - intros Ls. apply (exec_anchored_complete _ _ _ (RState (reverse s) [] []) HR); [|done].
    exists s. simpl. by rewrite !app_nil_r.
Qed.

(** [^prefix(p+)$]: the capture is what follows the prefix. *)
Lemma exec_prefix_plus i w p s x :
  exec (anchored (seq (lit w) (group i (plus p)))) s = Some x →
  ∃ d, s = w ++ d ∧ d ≠ [] ∧ Forall (λ c, p c = true) d ∧ cap i x.2 = d.
Proof.
  intros H. apply (exec_anchored_sound _ _ _ _
    (seq_spec _ _ _ _ (lit_spec w) (group_spec i _ _ (plus_spec p)))) in H as [H Hr].
  destruct H as (t & (u & -> & H1 & H2 & H3) & (t' & (v & [Hv Fv] & H4 & H5 & H6) & Hs)).
  simpl in *. exists v. rewrite Hs in Hr |- *. simpl in Hr.
  rewrite H4, Hr, app_nil_r in H1. split_and!; [done..|].
  unfold cap; simpl. case_decide; [|done]. simpl. by apply consumed_word.
Qed.

Lemma exec_prefix_plus_complete i w p d :
  d ≠ [] → Forall (λ c, p c = true) d →
  is_Some (exec (anchored (seq (lit w) (group i (plus p)))) (w ++ d)).
Proof.
  intros Hd Fd. eapply exec_anchored_complete.
  - apply seq_spec; [apply lit_spec|apply group_spec, plus_spec].
  - exists (RState (reverse w) d []). split.
    + exists w. simpl. by rewrite app_nil_r.
    + eexists (RState (reverse d ++ reverse w) [] []). split; [|done].
      exists d. simpl. by rewrite app_nil_r.
  - done.
Qed.

#[export] Hint Resolve lit_spec plus_spec star_spec chr_spec eps_spec : csg.
