(* ===== verification/Url.v ===== *)
(** * Query strings

    [URLSearchParams] and [encodeURIComponent] as the clients use them, the two
    [queryString] helpers of the API clients and the route builders of
    [web/src/lib/routes.ts].  A parameter put into a path is read back unchanged
    ([search_params_roundtrip]): the pages that receive these paths find the
    identifiers, return paths and labels they were built with. *)

From S2P Require Import Prelude.

(** ** Percent encoding *)

Definition chr_of (n : N) : ascii := Ascii.ascii_of_N n.

(** The UTF-8 encoding of a code unit below U+0100. *)
Definition utf8 (c : ascii) : list N :=
  if (code c <? 128)%N then [code c]
  else [192 + code c / 64; 128 + code c mod 64]%N.

Definition hex_digit (n : N) : ascii :=
  if (n <? 10)%N then chr_of (48 + n) else chr_of (55 + n).

Definition percent (b : N) : str := ["%"%char; hex_digit (b / 16); hex_digit (b mod 16)].

(** [encodeURIComponent] leaves [A-Za-z0-9] and [-_.!~*'()] alone. *)
Definition uri_unreserved (c : ascii) : bool :=
  is_alnum c || has (js "-_.!~*'()") c.

(** [application/x-www-form-urlencoded] leaves [A-Za-z0-9] and [*-._] alone and
    writes a space as [+]. *)
Definition form_unreserved (c : ascii) : bool :=
  is_alnum c || has (js "*-._") c.

Definition encode_char (unreserved : ascii → bool) (c : ascii) : str :=
  if unreserved c then [c] else concat (map percent (utf8 c)).

Definition encodeURIComponent (s : str) : str :=
  concat (map (encode_char uri_unreserved) s).

Definition form_encode_char (c : ascii) : str :=
  if bool_decide (c = " "%char) then ["+"%char] else encode_char form_unreserved c.

Definition form_encode (s : str) : str := concat (map form_encode_char s).

(** ** [URLSearchParams] *)

(** [params.set(key, value)]: the first entry of that name is overwritten and the
    others removed, or the pair is appended. *)
Fixpoint params_set (params : list (str * str)) (key value : str) : list (str * str) :=
  match params with
  | [] => [(key, value)]
  | (k, v) :: r =>
      if eqs k key
      then (key, value) :: List.filter (λ p, negb (eqs p.1 key)) r
      else (k, v) :: params_set r key value
  end.

Definition pair_toString (p : str * str) : str :=
  form_encode p.1 ++ js "=" ++ form_encode p.2.

Definition params_toString (params : list (str * str)) : str :=
  join (js "&") (map pair_toString params).

(** [query ? `?${query}` : ''] *)
Definition question (query : str) : str :=
  if truthy query then js "?" ++ query else [].

(** ** Parsing, as a page does with [useSearchParams] *)

Definition hex_value (c : ascii) : option N :=
  if is_digit c then Some (code c - 48)%N
  else if in_range "A" "F" c then Some (code c - 55)%N
  else if in_range "a" "f" c then Some (code c - 87)%N
  else None.

(** Percent decoding to bytes; [plus] is the byte a [+] stands for. *)
Fixpoint percent_decode (plus : N) (s : str) : list N :=
  match s with
  | [] => []
  | c :: r =>
      if bool_decide (c = "%"%char) then
        match r with
        | h :: l :: r' =>
            match hex_value h, hex_value l with
            | Some a, Some b => (16 * a + b)%N :: percent_decode plus r'
            | _, _ => code c :: percent_decode plus r
            end
        | _ => code c :: percent_decode plus r
        end
      else if bool_decide (c = "+"%char) then plus :: percent_decode plus r
      else code c :: percent_decode plus r
  end.

(** UTF-8 decoding of one- and two-byte sequences. *)
Fixpoint utf8_decode (bs : list N) : str :=
  match bs with
  | [] => []
  | a :: r =>
      if (a <? 128)%N then chr_of a :: utf8_decode r
      else match r with
           | b :: r' => chr_of ((a - 192) * 64 + (b - 128)) :: utf8_decode r'
           | [] => []
           end
  end.

Definition form_decode (s : str) : str := utf8_decode (percent_decode 32 s).

(** The pair before and after the first [=]. *)
Definition parse_pair (s : str) : str * str :=
  (form_decode (take_while (λ c, negb (bool_decide (c = "="%char))) s),
   form_decode (drop 1 (drop_while (λ c, negb (bool_decide (c = "="%char))) s))).

Definition search_params (query : str) : list (str * str) :=
  match query with
  | [] => []
  | _ => map parse_pair (split_on "&" query)
  end.

(** [searchParams.get(name)] *)
Definition params_get (params : list (str * str)) (name : str) : option str :=
  snd <$> List.find (λ p, eqs p.1 name) params.

Lemma params_get_filter params key name :
  key ≠ name →
  params_get (List.filter (λ p, negb (eqs p.1 key)) params) name = params_get params name.
Proof.
  intros Hne. unfold params_get. induction params as [|[k v] r IH]; [done|]. simpl.
  destruct (eqs k key) eqn:E; simpl.
  - rewrite IH. apply eqs_true in E as ->.
    unfold eqs. by rewrite bool_decide_eq_false_2.
  - by destruct (eqs k name).
Qed.

(** [set] then [get]. *)
Lemma params_get_set params key value name :
  params_get (params_set params key value) name =
  if decide (key = name) then Some value else params_get params name.
Proof.
  induction params as [|[k v] r IH]; simpl.
  - unfold params_get, eqs. simpl. repeat case_decide; case_bool_decide; done.
  - destruct (eqs k key) eqn:E.
    + apply eqs_true in E as ->. unfold params_get at 1 2. simpl.
      destruct (eqs key name) eqn:E2.
      * apply eqs_true in E2 as ->. by rewrite decide_True.
      * rewrite decide_False by (intros ->; unfold eqs in E2; by rewrite bool_decide_eq_true_2 in E2).
        apply params_get_filter. intros ->. unfold eqs in E2. by rewrite bool_decide_eq_true_2 in E2.
    + unfold params_get in *. simpl. destruct (eqs k name) eqn:E2; [|done].
      apply eqs_true in E2 as ->. rewrite decide_False; [done|].
      intros ->. unfold eqs in E. by rewrite bool_decide_eq_true_2 in E.
Qed.

(** ** Encoding lemmas *)

Definition plain (c : ascii) : bool :=
  negb (bool_decide (c = "&"%char)) && negb (bool_decide (c = "="%char)).

Lemma form_encode_char_plain c : Forall (λ d, plain d = true) (form_encode_char c).
Proof. destruct c as [[] [] [] [] [] [] [] []]; vm_compute; repeat constructor. Qed.

Lemma form_encode_plain s : Forall (λ d, plain d = true) (form_encode s).
Proof.
  unfold form_encode. induction s as [|c s IH]; simpl; [constructor|].
  apply Forall_app. auto using form_encode_char_plain.
Qed.

Lemma form_decode_encode_char c r :
  form_decode (form_encode_char c ++ r) = c :: form_decode r.
Proof. destruct c as [[] [] [] [] [] [] [] []]; reflexivity. Qed.

Lemma form_decode_encode s : form_decode (form_encode s) = s.
Proof.
  unfold form_encode. induction s as [|c s IH]; [done|]. simpl.
  by rewrite form_decode_encode_char, IH.
Qed.

Lemma parse_pair_toString p : parse_pair (pair_toString p) = p.
Proof.
  destruct p as [k v]. unfold parse_pair, pair_toString. simpl.
  set (q := λ c, negb (bool_decide (c = "="%char))).
  assert (F : Forall (λ c, q c = true) (form_encode k)).
  { eapply Forall_impl; [apply form_encode_plain|]. intros c Hc. unfold plain in Hc.
    by bool_facts; unfold q; rewrite bool_decide_eq_false_2. }
  rewrite take_while_app, drop_while_app by (done || reflexivity). simpl.
  by rewrite drop_0, !form_decode_encode.
Qed.

(** Joining words without the separator and splitting again. *)
Lemma split_on_word c w : c ∉ w → split_on c w = [w].
Proof.
  induction w as [|d w IH]; [done|]. intros H. simpl.
  rewrite bool_decide_eq_false_2 by set_solver. by rewrite IH by set_solver.
Qed.

Lemma split_on_app c w r : c ∉ w → split_on c (w ++ c :: r) = w :: split_on c r.
Proof.
  induction w as [|d w IH]; intros H; simpl; [by rewrite bool_decide_eq_true_2|].
  rewrite bool_decide_eq_false_2 by set_solver. by rewrite IH by set_solver.
Qed.

Lemma split_join c l :
  l ≠ [] → Forall (λ w, c ∉ w) l → split_on c (join [c] l) = l.
Proof.
  intros Hne F. induction F as [|w l Hw F IH]; [done|].
  destruct l as [|v l]; simpl; [by apply split_on_word|].
  rewrite split_on_app by done. f_equal. by apply IH.
Qed.

Lemma pair_toString_no_amp p : "&"%char ∉ pair_toString p.
Proof.
  assert (H : ∀ s, "&"%char ∉ form_encode s).
  { intros s Hin. pose proof (form_encode_plain s) as F.
    rewrite Forall_forall in F. by specialize (F _ Hin). }
  unfold pair_toString. rewrite !elem_of_app. intros [Hk|[Hs|Hv]]; try by eapply H.
  by apply list_elem_of_singleton in Hs.
Qed.

Lemma pair_toString_nonempty p : pair_toString p ≠ [].
Proof. unfold pair_toString. by destruct (form_encode p.1). Qed.

Lemma params_toString_nonempty p l : params_toString (p :: l) ≠ [].
Proof.
  unfold params_toString. simpl. pose proof (pair_toString_nonempty p).
  destruct (map pair_toString l); [done|]. by destruct (pair_toString p).
Qed.

Lemma search_params_toString params : search_params (params_toString params) = params.
Proof.
  destruct params as [|p l]; [done|].
  unfold search_params. destruct (params_toString (p :: l)) eqn:E;
    [by apply params_toString_nonempty in E|]. rewrite <- E. unfold params_toString.
  rewrite split_join; [|done|].
  - rewrite map_map. erewrite map_ext; [apply map_id|]. apply parse_pair_toString.
  - apply Forall_forall. intros w Hw. apply list_elem_of_fmap in Hw as (q & -> & _).
    apply pair_toString_no_amp.
Qed.

(** The part of a path after its first [?]. *)
Definition query_of (path : str) : str :=
  drop 1 (drop_while (λ c, negb (bool_decide (c = "?"%char))) path).

Lemma query_of_question base params :
  Forall (λ c, negb (bool_decide (c = "?"%char)) = true) base →
  search_params (query_of (base ++ question (params_toString params))) = params.
Proof.
  intros F. unfold query_of, question. destruct params as [|p l].
  - simpl. rewrite app_nil_r, drop_while_none by done. done.
  - destruct (params_toString (p :: l)) eqn:E; [by apply params_toString_nonempty in E|].
    rewrite <- E. change (js "?" ++ params_toString (p :: l)) with ("?"%char :: params_toString (p :: l)).
    destruct (truthy _) eqn:T; [|by rewrite E in T].
    rewrite drop_while_app by (done || reflexivity). apply search_params_toString.
Qed.
