(* ===== verification/Routing.v ===== *)
(** * Navigation: notification paths, route builders and access gates

    - [NotificationPath]: [mobile/src/lib/notification-path.ts] and the observer
      of [mobile/src/components/notification-observer.tsx];
    - [Routes]: [web/src/lib/routes.ts];
    - [SearchRoute]: [mobile/src/lib/message-route.ts];
    - [Access]: who is let through by [ProtectedRoute] (web), [AppLayout] and
      [Index] (mobile), and the two session-access modules. *)

From S2P Require Import Prelude Regex Url.

Module NotificationPath.

(** A value of type [unknown]: a string, or anything else. *)
Inductive unknown := UString (s : str) | UOther.

(** ** The regular expressions *)

Definition CONVERSATION_PATH : matcher :=
  anchored (seq (lit (js "/conversation/"))
    (seq (group 1 (alt (lit (js "channel")) (lit (js "dm"))))
      (seq (lit (js "/")) (plus is_digit)))).
Definition WEB_CHANNEL_PATH : matcher :=
  anchored (seq (lit (js "/messages/")) (group 1 (plus is_digit))).
Definition WEB_DM_PATH : matcher :=
  anchored (seq (lit (js "/messages/dm/")) (group 1 (plus is_digit))).
Definition WEB_ANNOUNCEMENT_PATH : matcher :=
  anchored (seq (lit (js "/announcements/")) (group 1 (plus is_digit))).
Definition WEB_SUBMISSION_PATH : matcher :=
  anchored (seq (lit (js "/admin/submissions/")) (group 1 (plus is_digit))).
Definition WEB_HELP_REQUEST_PATH : matcher :=
  anchored (seq (lit (js "/admin/help-requests/")) (group 1 (plus is_digit))).
Definition WEB_INTERVENTION_PATH : matcher :=
  anchored (seq (lit (js "/admin/interventions/")) (group 1 (plus is_digit))).
Definition LEARNING_PATH : matcher :=
  anchored (seq (lit (js "/"))
    (seq (group 1 (alt (lit (js "lesson")) (lit (js "module"))))
      (seq (lit (js "/")) (plus is_digit)))).
Definition STAFF_PATH : matcher :=
  anchored (seq (lit (js "/staff/"))
    (seq (group 1 (alt (lit (js "student")) (alt (lit (js "submission"))
                  (alt (lit (js "support")) (lit (js "intervention"))))))
      (seq (lit (js "/")) (plus is_digit)))).
(** [/^\/recording\/[A-Za-z0-9-]+$/] *)
Definition RECORDING_PATH : matcher :=
  anchored (seq (lit (js "/recording/"))
    (plus (λ c, is_alnum c || bool_decide (c = "-"%char)))).

Definition isAllowedNotificationPath (value : unknown) : bool :=
  match value with
  | UOther => false
  | UString s =>
      eqs s (js "/") || eqs s (js "/learn") || eqs s (js "/resources")
      || eqs s (js "/recordings") || eqs s (js "/updates")
      || eqs s (js "/staff/grading") || eqs s (js "/staff/support")
      || (test CONVERSATION_PATH s || test LEARNING_PATH s || test STAFF_PATH s
          || test RECORDING_PATH s)
  end.

(** [value.replace(from, to)] for a string [from]: the first occurrence. *)
Fixpoint replace_first (s from to : str) : str :=
  if startsWith s from then to ++ drop (length from) s
  else match s with [] => [] | c :: r => c :: replace_first r from to end.

(** [value.match(re)] and the first group. *)
Definition match1 (re : matcher) (s : str) : option str :=
  (λ x, cap 1 x.2) <$> exec re s.

Definition mobileNotificationPath (value : unknown) : str :=
  match value with
  | UOther => js "/updates"
  | UString s =>
      if isAllowedNotificationPath value then s else
      match match1 WEB_DM_PATH s with
      | Some d => js "/conversation/dm/" ++ d
      | None =>
      match match1 WEB_CHANNEL_PATH s with
      | Some d => js "/conversation/channel/" ++ d
      | None =>
      if test WEB_ANNOUNCEMENT_PATH s then js "/updates" else
      match match1 WEB_SUBMISSION_PATH s with
      | Some d => js "/staff/submission/" ++ d
      | None =>
      match match1 WEB_HELP_REQUEST_PATH s with
      | Some d => js "/staff/support/" ++ d
      | None =>
      match match1 WEB_INTERVENTION_PATH s with
      | Some d => js "/staff/intervention/" ++ d
      | None =>
      if test (anchored (seq (lit (js "/lessons/")) (plus is_digit))) s
      then replace_first s (js "/lessons/") (js "/lesson/") else
      if test (anchored (seq (lit (js "/modules/")) (plus is_digit))) s
      then replace_first s (js "/modules/") (js "/module/") else
      if eqs s (js "/dashboard") then js "/" else
      if eqs s (js "/admin/grading") then js "/staff/grading" else
      if eqs s (js "/admin/support") then js "/staff/support" else
      js "/updates"
      end end end end end
  end.

(** ** The observer *)

(** [handled.current] and the paths pushed on the router so far. *)
Record observer := Observer { handled : option str; pushed : list str }.

(** [open(response)]: the response's request identifier and [data?.path]. *)
Definition open (o : observer) (response : option (str * unknown)) : observer :=
  match response with
  | None => o
  | Some (identifier, data_path) =>
      if bool_decide (handled o = Some identifier) then o
      else
        let path := mobileNotificationPath data_path in
        if isAllowedNotificationPath (UString path)
        then Observer (Some identifier) (pushed o ++ [path])
        else o
  end.

(** ** Languages of the path expressions *)

Definition digits (d : str) : Prop := d ≠ [] ∧ Forall (λ c, is_digit c = true) d.

Lemma kind_path_complete p (m : matcher) (L : str → Prop) k d :
  re_spec m (consumes L) → L k → digits d →
  test (anchored (seq (lit p) (seq (group 1 m) (seq (lit (js "/")) (plus is_digit)))))
    (p ++ k ++ js "/" ++ d) = true.
Proof.
  intros Hm Lk [Hd Fd]. apply bool_decide_eq_true.
  eapply (exec_anchored_complete _ _ _
    (RState (reverse (js "/" ++ d) ++ reverse k ++ reverse p) [] [(1%nat, k)])).
  - apply seq_spec; [apply lit_spec|]. apply seq_spec; [by apply group_spec|].
    apply seq_consumes; [apply lit_spec|apply plus_spec].
  - exists (RState (reverse p) (k ++ js "/" ++ d) []). split.
    { exists p. by rewrite app_nil_r. }
    eexists (RState (reverse k ++ reverse p) (js "/" ++ d) [(1%nat, k)]). split.
    { eexists (RState (reverse k ++ reverse p) (js "/" ++ d) []). split; [by exists k|].
      f_equal. by rewrite (consumed_word _ _ k). }
    exists (js "/" ++ d). rewrite app_nil_r. split_and!; [|done..].
    by exists (js "/"), d.
  - done.
Qed.

Lemma allowed_by_test s :
  test CONVERSATION_PATH s = true ∨ test LEARNING_PATH s = true ∨ test STAFF_PATH s = true →
  isAllowedNotificationPath (UString s) = true.
Proof.
  unfold isAllowedNotificationPath. intros [->|[->| ->]];
    rewrite ?orb_true_l, ?orb_true_r; rewrite ?orb_true_l, ?orb_true_r; done.
Qed.

Lemma conversation_allowed k d :
  k = js "channel" ∨ k = js "dm" → digits d →
  isAllowedNotificationPath (UString (js "/conversation/" ++ k ++ js "/" ++ d)) = true.
Proof.
  intros Hk Hd. apply allowed_by_test. left.
  apply (kind_path_complete _ _ (λ u, u = js "channel" ∨ u = js "dm")); auto.
  apply alt_consumes; apply lit_spec.
Qed.

Lemma learning_allowed k d :
  k = js "lesson" ∨ k = js "module" → digits d →
  isAllowedNotificationPath (UString (js "/" ++ k ++ js "/" ++ d)) = true.
Proof.
  intros Hk Hd. apply allowed_by_test. right. left.
  apply (kind_path_complete _ _ (λ u, u = js "lesson" ∨ u = js "module")); auto.
  apply alt_consumes; apply lit_spec.
Qed.

Definition staff_kind (u : str) : Prop :=
  u = js "student" ∨ u = js "submission" ∨ u = js "support" ∨ u = js "intervention".

Lemma staff_allowed k d :
  staff_kind k → digits d →
  isAllowedNotificationPath (UString (js "/staff/" ++ k ++ js "/" ++ d)) = true.
Proof.
  intros Hk Hd. apply allowed_by_test. right. right.
  apply (kind_path_complete _ _ staff_kind); auto.
  repeat (apply alt_consumes; [apply lit_spec|]). apply lit_spec.
Qed.

Lemma match1_digits w s d :
  match1 (anchored (seq (lit w) (group 1 (plus is_digit)))) s = Some d →
  digits d ∧ s = w ++ d.
Proof.
  unfold match1. destruct (exec _ s) as [x|] eqn:E; intros [= <-].
  apply exec_prefix_plus in E as (d & -> & ? & ? & ->). done.
Qed.

Lemma match1_complete w d :
  digits d → match1 (anchored (seq (lit w) (group 1 (plus is_digit)))) (w ++ d) = Some d.
Proof.
  intros [Hd Fd]. unfold match1.
  destruct (exec_prefix_plus_complete 1 w _ d Hd Fd) as [x Hx]. rewrite Hx. simpl.
  apply exec_prefix_plus in Hx as (e & He & _ & _ & ->). by simplify_list_eq.
Qed.

Lemma prefix_digits w s :
  test (anchored (seq (lit w) (plus is_digit))) s = true ↔ ∃ d, digits d ∧ s = w ++ d.
Proof.
  rewrite (test_anchored _ _ _ (seq_consumes _ _ _ _ (lit_spec w) (plus_spec is_digit))).
  unfold digits. naive_solver.
Qed.

Lemma test_prefix_digits w d :
  digits d → test (anchored (seq (lit w) (plus is_digit))) (w ++ d) = true.
Proof. intros D. apply prefix_digits. eauto. Qed.

Lemma replace_first_prefix w d to : replace_first (w ++ d) w to = to ++ d.
Proof.
  destruct (w ++ d) as [|c r] eqn:E; simpl.
  - by apply app_eq_nil in E as [-> ->].
  - rewrite <- E, startsWith_app. by rewrite drop_app_length.
Qed.

(** The statement of C1 for use in other proofs. *)
Lemma notification_path_allowed_lemma (value : unknown) :
  isAllowedNotificationPath (UString (mobileNotificationPath value)) = true.
Proof.
  destruct value as [s|]; [|reflexivity]. unfold mobileNotificationPath.
  destruct (isAllowedNotificationPath (UString s)) eqn:A; [done|].
  repeat case_match; repeat match goal with
  | H : match1 _ _ = Some _ |- _ => apply match1_digits in H as [??]
  | H : test (anchored (seq (lit _) (plus is_digit))) _ = true |- _ =>
      apply prefix_digits in H as (d & ? & ->)
  end; rewrite ?replace_first_prefix; try reflexivity.
  - by apply (conversation_allowed (js "dm")); [right|].
  - by apply (conversation_allowed (js "channel")); [left|].
  - apply (staff_allowed (js "submission")); unfold staff_kind; auto.
  - apply (staff_allowed (js "support")); unfold staff_kind; auto.
  - apply (staff_allowed (js "intervention")); unfold staff_kind; auto.
  - by apply (learning_allowed (js "lesson")); [left|].
  - by apply (learning_allowed (js "module")); [right|].
Qed.

(** C8: Whatever a push notification carries (a web path, a mobile path, a string
    made up by the sender, no string at all), [mobileNotificationPath] yields a
    path of the allow-list [isAllowedNotificationPath]; so the observer always
    navigates to an existing screen of the app and never to an arbitrary
    address. *)
Theorem notification_path_allowed (value : unknown) :
  isAllowedNotificationPath (UString (mobileNotificationPath value)) = true.
Proof.
  apply notification_path_allowed_lemma.
Qed.

Lemma notification_path_kept s :
  isAllowedNotificationPath (UString s) = true → mobileNotificationPath (UString s) = s.
Proof. unfold mobileNotificationPath. by intros ->. Qed.

(** None of the web prefixes is on the allow-list. *)
Ltac not_allowed :=
  unfold isAllowedNotificationPath; unfold CONVERSATION_PATH, LEARNING_PATH, STAFF_PATH,
    RECORDING_PATH, anchored; rewrite !test_bol; reflexivity.

Lemma match1_other w p c r :
  (∀ e, w ++ e ≠ p ++ c :: r) →
  match1 (anchored (seq (lit w) (group 1 (plus is_digit)))) (p ++ c :: r) = None.
Proof.
  intros H. destruct (match1 _ _) as [e|] eqn:E; [|done].
  apply match1_digits in E as [_ E]. by destruct (H e).
Qed.

Definition web_targets : list (string * string) :=
  [("/messages/", "/conversation/channel/"); ("/messages/dm/", "/conversation/dm/");
   ("/admin/submissions/", "/staff/submission/"); ("/admin/help-requests/", "/staff/support/");
   ("/admin/interventions/", "/staff/intervention/"); ("/lessons/", "/lesson/");
   ("/modules/", "/module/")].

(** The web paths the server puts into notifications open the mobile screen of
    the same object: channels, direct messages, submissions, help requests,
    interventions, lessons and modules keep their identifier, for every
    identifier. *)
Theorem notification_path_targets (n : Z) (web mobile : string) :
  0 <= n → (web, mobile) ∈ web_targets →
  mobileNotificationPath (UString (js web ++ str_of_Z n)) = js mobile ++ str_of_Z n.
Proof.
  intros Hn Hin.
  assert (digits (str_of_Z n)) as D by (split; auto with csg).
  destruct (str_of_Z n) as [|c r] eqn:E; [by destruct D|].
  assert (is_digit c = true) as Dc by (destruct D as [_ D]; by inversion D).
  assert (c ≠ "d"%char) as Hc by (by intros ->).
  unfold web_targets in Hin.
  repeat (apply elem_of_cons in Hin as [[= -> ->]|Hin]);
    [..|by apply not_elem_of_nil in Hin];
    unfold mobileNotificationPath;
    (assert (∀ b, b = false → ∀ (x y : str), (if b then x else y) = y) as If by by intros ? ->);
    rewrite If by not_allowed; clear If;
    rewrite ?match1_complete by done;
    unfold WEB_DM_PATH, WEB_CHANNEL_PATH, WEB_ANNOUNCEMENT_PATH, WEB_SUBMISSION_PATH,
      WEB_HELP_REQUEST_PATH, WEB_INTERVENTION_PATH;
    rewrite ?match1_complete by done;
    repeat rewrite match1_other by (intros e He; cbn in He; congruence);
    rewrite ?test_prefix_digits by done; rewrite ?replace_first_prefix;
    unfold anchored; rewrite ?test_bol; reflexivity.
Qed.

#[local] Arguments open : simpl never.

Lemma notification_path_targets_witness :
  mobileNotificationPath (UString (js "/admin/help-requests/" ++ str_of_Z 42)) =
  js "/staff/support/" ++ str_of_Z 42.
Proof.
  apply (notification_path_targets 42 "/admin/help-requests/" "/staff/support/"); [lia|].
  apply (list_elem_of_lookup_2 _ 3). reflexivity.
Defined.

(** The notifications a sequence of responses opens. *)
Definition observe (o : observer) (rs : list (option (str * unknown))) : observer :=
  foldl open o rs.

Lemma open_some o i v :
  open o (Some (i, v)) =
  if bool_decide (handled o = Some i) then o
  else Observer (Some i) (pushed o ++ [mobileNotificationPath v]).
Proof. unfold open. by rewrite notification_path_allowed_lemma. Qed.

(** The system delivers the same notification response several times (on cold
    start and through the listener): repeating a response changes nothing, so a
    notification navigates exactly once, and every navigation goes to an allowed
    path. *)
Theorem observer_opens_once (o : observer) (i : str) (v : unknown) (n : nat) :
  handled o ≠ Some i →
  observe o (replicate (S n) (Some (i, v))) =
  Observer (Some i) (pushed o ++ [mobileNotificationPath v]).
Proof.
  intros Hh. unfold observe. simpl foldl. rewrite open_some, bool_decide_eq_false_2 by done.
  set (o' := Observer _ _).
  assert (∀ m, foldl open o' (replicate m (Some (i, v))) = o') as H; [|apply H].
  induction m as [|m IH]; [done|]. simpl. rewrite open_some.
  by rewrite bool_decide_eq_true_2.
Qed.

Lemma observer_opens_once_witness :
  observe (Observer None []) (replicate 2 (Some (js "n1", UString (js "/messages/7")))) =
  Observer (Some (js "n1")) [js "/conversation/channel/7"].
Proof.
  etransitivity.
  - apply (observer_opens_once (Observer None []) (js "n1") _ 1). discriminate.
  - vm_compute. reflexivity.
Defined.

End NotificationPath.

Module Routes.

Inductive StudentWorkspaceTab := overview | work | learning | support | communication | access.

Definition tab_str (t : StudentWorkspaceTab) : str :=
  match t with
  | overview => js "overview" | work => js "work" | learning => js "learning"
  | support => js "support" | communication => js "communication" | access => js "access"
  end.

Definition cohortPath (cohortId : Z) : str := js "/admin/cohorts/" ++ str_of_Z cohortId.

Definition cohortStudentPath (cohortId userId : Z) (tab : StudentWorkspaceTab) : str :=
  cohortPath cohortId ++ js "/students/" ++ str_of_Z userId ++ js "/" ++ tab_str tab.

Inductive queue_filter := ungraded | redo | all.
Definition queue_str (q : queue_filter) : str :=
  match q with ungraded => js "ungraded" | redo => js "redo" | all => js "all" end.

Record submission_context := {
  cohortId : option Z; userId : option Z; returnTo : option str; queue : option queue_filter;
}.

(** [if (value) params.set(key, String(value))] *)
Definition set_num (params : list (str * str)) (key : string) (value : option Z) :=
  match value with
  | Some n => if n =? 0 then params else params_set params (js key) (str_of_Z n)
  | None => params
  end.
Definition set_str (params : list (str * str)) (key : string) (value : option str) :=
  match value with
  | Some v => if truthy v then params_set params (js key) v else params
  | None => params
  end.

Definition submission_params (context : submission_context) : list (str * str) :=
  let params := set_num [] "cohort_id" (cohortId context) in
  let params := set_num params "student_id" (userId context) in
  let params := set_str params "return_to" (returnTo context) in
  set_str params "queue" (queue_str <$> queue context).

Definition submissionPath (submissionId : Z) (context : submission_context) : str :=
  js "/admin/submissions/" ++ str_of_Z submissionId
    ++ question (params_toString (submission_params context)).

Definition helpRequestPath (helpRequestId : Z) (returnTo : option str) : str :=
  js "/admin/help-requests/" ++ str_of_Z helpRequestId
    ++ question (params_toString (set_str [] "return_to" returnTo)).

Definition interventionPath (interventionId : Z) (returnTo : option str) : str :=
  js "/admin/interventions/" ++ str_of_Z interventionId
    ++ question (params_toString (set_str [] "return_to" returnTo)).

Inductive source_type := submission | help_request.
Definition source_type_str (t : source_type) : str :=
  match t with submission => js "submission" | help_request => js "help_request" end.

Definition direct_params (source : option (source_type * Z * str)) : list (str * str) :=
  match source with
  | None => []
  | Some (t, id, label) =>
      let params := params_set [] (js "source_type") (source_type_str t) in
      let params := params_set params (js "source_id") (str_of_Z id) in
      params_set params (js "source_label") label
  end.

Definition directMessagePath (conversationId : Z) (source : option (source_type * Z * str)) : str :=
  js "/messages/dm/" ++ str_of_Z conversationId
    ++ question (params_toString (direct_params source)).

Definition safeInternalReturnPath (value : option str) (fallback : str) : str :=
  match value with
  | Some v => if startsWith v (js "/") && negb (startsWith v (js "//")) then v else fallback
  | None => fallback
  end.

(** A site-relative path: it starts with exactly one slash, so a browser resolves
    it on the same origin. *)
Definition internal (p : str) : Prop :=
  ∃ r, p = "/"%char :: r ∧ ∀ r', r ≠ "/"%char :: r'.

Definition no_question (s : str) : Prop :=
  Forall (λ c, negb (bool_decide (c = "?"%char)) = true) s.

Lemma digits_no_question n : 0 <= n → no_question (str_of_Z n).
Proof.
  intros Hn. eapply Forall_impl; [by apply str_of_Z_digits|].
  intros c Hc. by destruct (decide (c = "?"%char)) as [->|]; [|rewrite bool_decide_eq_false_2].
Qed.

Lemma path_params (base : string) n params :
  0 <= n → no_question (js base) →
  search_params (query_of (js base ++ str_of_Z n ++ question (params_toString params))) = params.
Proof.
  intros Hn Hb. rewrite (assoc_L (++)). apply query_of_question, Forall_app.
  split; [done|by apply digits_no_question].
Qed.

Lemma get_set_num params key value name :
  params_get (set_num params key value) name =
  if decide (js key = name) then
    match (value ≫= λ n, if n =? 0 then None else Some (str_of_Z n)) with
    | Some v => Some v | None => params_get params name end
  else params_get params name.
Proof.
  unfold set_num. destruct value as [n|]; simpl; [destruct (n =? 0); simpl|];
    rewrite ?params_get_set; by case_decide.
Qed.

Lemma get_set_str params key value name :
  params_get (set_str params key value) name =
  if decide (js key = name) then
    match (value ≫= or_undefined) with Some v => Some v | None => params_get params name end
  else params_get params name.
Proof.
  unfold set_str, or_undefined. destruct value as [v|]; simpl; [destruct (truthy v); simpl|];
    rewrite ?params_get_set; by case_decide.
Qed.

(** The page behind a submission link finds the context it was opened from: a
    nonempty return path (any text, [&], [=], [?] and [/] included) and the queue
    filter are read back unchanged, and an absent or empty one is absent. *)
Theorem submissionPath_roundtrip (id : Z) (context : submission_context) :
  0 <= id →
  let params := search_params (query_of (submissionPath id context)) in
  params_get params (js "return_to") = (returnTo context ≫= or_undefined)
  ∧ params_get params (js "queue") = queue_str <$> queue context
  ∧ params_get params (js "cohort_id") =
      (cohortId context ≫= λ n, if n =? 0 then None else Some (str_of_Z n))
  ∧ params_get params (js "student_id") =
      (userId context ≫= λ n, if n =? 0 then None else Some (str_of_Z n)).
Proof.
  intros Hid. simpl. unfold submissionPath. rewrite path_params; [|done|by repeat constructor].
  unfold submission_params. rewrite !get_set_str, !get_set_num.
  repeat first [rewrite decide_True by reflexivity|rewrite decide_False by discriminate].
  change (params_get [] _) with (@None str).
  split_and!; [by destruct (returnTo context ≫= or_undefined)|
    by destruct (queue context) as [[]|]| |].
  - by destruct (cohortId context ≫= _).
  - by destruct (userId context ≫= _).
Qed.

Lemma submissionPath_roundtrip_witness :
  params_get (search_params (query_of (submissionPath 7
    {| cohortId := Some 3; userId := None; returnTo := Some (js "/admin/grading?tab=a&b=1");
       queue := Some redo |}))) (js "return_to") = Some (js "/admin/grading?tab=a&b=1").
Proof. apply (submissionPath_roundtrip 7); lia. Defined.

(** [safeInternalReturnPath] never yields an external address: from an internal
    fallback the result is internal, whatever the query parameter holds, and an
    internal parameter is used unchanged. *)
Theorem safeInternalReturnPath_internal (value : option str) (fallback : str) :
  internal fallback →
  internal (safeInternalReturnPath value fallback)
  ∧ ∀ v, value = Some v → internal v → safeInternalReturnPath value fallback = v.
Proof.
  intros Hf. unfold safeInternalReturnPath. split.
  - destruct value as [v|]; [|done].
    destruct (startsWith v (js "/") && negb (startsWith v (js "//"))) eqn:E; [|done].
    bool_facts. apply startsWith_spec in H as [r ->]. exists r. split; [done|].
    intros r' ->. pose proof (startsWith_app (js "//") r'). cbn in *. congruence.
  - intros v -> (r & -> & Hr). simpl.
    destruct r as [|c r]; [done|]. simpl.
    rewrite bool_decide_eq_false_2; [done|]. intros <-. by eapply Hr.
Qed.

Lemma safeInternalReturnPath_witness :
  internal (safeInternalReturnPath (Some (js "//evil.example/x")) (js "/admin/grading")).
Proof.
  apply (proj1 (safeInternalReturnPath_internal (Some (js "//evil.example/x"))
    (js "/admin/grading") ltac:(eexists; split; [reflexivity|intros r' H; discriminate H]))).
Defined.

End Routes.

Module SearchRoute.

Inductive context_type := channel | direct_conversation.

Record MessageSearchResult := {
  id : Z; parent_message_id : option Z;
  context_kind : context_type; context_id : Z; workspace_id : Z;
}.

(** The two pathnames with their parameters. *)
Inductive route :=
| ThreadRoute (id kind conversationId workspaceId : str)
| ConversationRoute (kind id messageId : str).

Definition messageSearchRoute (result : MessageSearchResult) : route :=
  let kind := match context_kind result with channel => js "channel" | _ => js "dm" end in
  match parent_message_id result with
  | Some p =>
      if p =? 0 then
        ConversationRoute kind (str_of_Z (context_id result)) (str_of_Z (id result))
      else ThreadRoute (str_of_Z p) kind (str_of_Z (context_id result))
             (str_of_Z (workspace_id result))
  | None => ConversationRoute kind (str_of_Z (context_id result)) (str_of_Z (id result))
  end.

End SearchRoute.

Module Access.

(** ** Session errors *)

(** What a request throws: an [ApiError] with its optional status and code, or
    another error. *)
Inductive thrown := ThrownApiError (status : option Z) (code : option str) | ThrownOther.

Definition ACCESS_DENIED_CODES : list str :=
  [js "account_not_authorized"; js "account_archived"].

Definition code_denied (code : option str) : bool :=
  match code with Some c => truthy c && has ACCESS_DENIED_CODES c | None => false end.

(** mobile *)
Definition isSessionAccessDenied (error : thrown) : bool :=
  match error with
  | ThrownApiError (Some status) code => (status =? 403) && code_denied code
  | _ => false
  end.

Definition canUseCachedSession (error : thrown) : bool :=
  match error with
  | ThrownOther => false
  | ThrownApiError None _ => true
  | ThrownApiError (Some status) _ =>
      (status =? 408) || (status =? 429) || (500 <=? status)
  end.

(** web: on a response's [status] and [errorCode] *)
Definition isAccessDeniedResponse (status : option Z) (errorCode : option str) : bool :=
  match status with
  | Some s => (s =? 403) && code_denied errorCode
  | None => false
  end.

(** ** Gates *)

Record CommunityPolicy := { version : str; accepted : bool }.

Record User := {
  role : str; is_staff : bool; is_admin : bool;
  community_policy : option CommunityPolicy;
}.

Inductive required := admin | instructor | staff.
Definition required_str (r : required) : str :=
  match r with admin => js "admin" | instructor => js "instructor" | staff => js "staff" end.

Record auth_context := {
  isSignedIn : bool; isLoading : bool; user : option User;
  sessionError : option str; accessDenied : bool;
}.

(** What [ProtectedRoute] renders. *)
Inductive view :=
| MessagesLoadingShell
| LoadingSpinner
| NavigateTo (path : str)
| ConnectionError (description : str)
| CommunityStandardsGate (version : str)
| Content.

Definition hasAccess (requiredRole : required) (user : User) : bool :=
  match requiredRole with
  | staff => is_staff user
  | admin => is_admin user
  | instructor => eqs (role user) (required_str requiredRole)
  end.

Definition connection_description : str :=
  js "We could not load your CSG account yet. Check your connection and try again.".

Definition ProtectedRoute (a : auth_context) (pathname : str) (requiredRole : option required)
    : view :=
  if isLoading a then
    if startsWith pathname (js "/messages") then MessagesLoadingShell else LoadingSpinner
  else if negb (isSignedIn a) then NavigateTo (js "/sign-in")
  else if accessDenied a then NavigateTo (js "/sign-in")
  else match user a with
  | None => ConnectionError (str_or (default [] (sessionError a)) connection_description)
  | Some u =>
      match community_policy u with
      | Some p =>
          if negb (accepted p) then CommunityStandardsGate (version p)
          else match requiredRole with
               | Some r => if hasAccess r u then Content else NavigateTo (js "/dashboard")
               | None => Content
               end
      | None =>
          match requiredRole with
          | Some r => if hasAccess r u then Content else NavigateTo (js "/dashboard")
          | None => Content
          end
      end
  end.

(** The mobile gate [AppLayout]. *)
Inductive mobile_view :=
| MNothing | MRedirect (href : str) | MLoading | MError | MPolicyGate | MStack.

Definition AppLayout (loaded signedIn loading denied : bool) (user : option User) : mobile_view :=
  if negb loaded then MNothing
  else if negb signedIn then MRedirect (js "/(auth)/sign-in")
  else if loading then MLoading
  else if denied then MRedirect (js "/(auth)/access-denied")
  else match user with
  | None => MError
  | Some u =>
      match community_policy u with
      | Some p => if negb (accepted p) then MPolicyGate else MStack
      | None => MStack
      end
  end.

Definition Index (loaded signedIn loading denied : bool) : mobile_view :=
  if negb loaded || (signedIn && loading) then MNothing
  else if negb signedIn then MRedirect (js "/(auth)/sign-in")
  else if denied then MRedirect (js "/(auth)/access-denied")
  else MRedirect (js "/(app)/(tabs)").

(** ** The route table of [web/src/App.tsx] *)

(** Public routes, or routes below a [ProtectedRoute]. *)
Inductive guard := Public | Protected (requiredRole : option required).

Definition AppRoutes : list (string * guard) :=
  [("/", Public); ("/sign-in", Public); ("/sign-up", Public); ("/privacy", Public);
   ("/terms", Public); ("/account-deletion", Public);
   ("/admin/cohorts/:id/student-view/*", Protected (Some staff));
   ("/dashboard", Protected None); ("/materials", Protected None);
   ("/modules/:id", Protected None); ("/lessons/:id", Protected None);
   ("/profile", Protected None); ("/recordings", Protected None);
   ("/resources", Protected None); ("/announcements", Protected None);
   ("/announcements/:id", Protected None); ("/messages", Protected None);
   ("/messages/dm/:dmId", Protected None); ("/messages/:channelId", Protected None);
   ("/admin", Protected (Some staff)); ("/admin/students", Protected (Some staff));
   ("/admin/students/:id", Protected (Some staff));
   ("/admin/cohorts/:cohortId/students/:id/:tab?", Protected (Some staff));
   ("/admin/cohorts", Protected (Some staff)); ("/admin/cohorts/:id", Protected (Some staff));
   ("/admin/cohorts/:id/settings", Protected (Some staff));
   ("/admin/cohorts/:id/watch-progress", Protected (Some staff));
   ("/admin/grading", Protected (Some staff)); ("/admin/submissions/:id", Protected (Some staff));
   ("/admin/support", Protected (Some staff)); ("/admin/moderation", Protected (Some staff));
   ("/admin/help-requests/:id", Protected (Some staff));
   ("/admin/interventions/:id", Protected (Some staff));
   ("/admin/cohorts/:cohortId/modules/:moduleId/grading", Protected (Some staff));
   ("/admin/content", Protected (Some admin)); ("/admin/team", Protected (Some admin));
   ("/admin/lessons/:id/edit", Protected (Some admin))].

(** What a matched route shows. *)
Definition render (a : auth_context) (pathname : str) (g : guard) : view :=
  match g with
  | Public => Content
  | Protected r => ProtectedRoute a pathname r
  end.

(** ** Theorems *)

Lemma protected_content a p r :
  ProtectedRoute a p r = Content ↔
  isLoading a = false ∧ isSignedIn a = true ∧ accessDenied a = false
  ∧ ∃ u, user a = Some u ∧ (∀ q, community_policy u = Some q → accepted q = true)
        ∧ (∀ x, r = Some x → hasAccess x u = true).
Proof.
  unfold ProtectedRoute. split.
  - intros H. destruct (isLoading a); [by case_match|].
    destruct (isSignedIn a); [|done]. destruct (accessDenied a); [done|]. simpl in H.
    destruct (user a) as [u|]; [|done]. split_and!; [done..|]. exists u.
    destruct (community_policy u) as [q|]; [destruct (accepted q) eqn:A; [|done]|];
      (destruct r as [x|]; [destruct (hasAccess x u) eqn:HA; [|done]|]);
      (split_and!; [done|intros ? [=]; by subst|intros ? [=]; by subst]).
  - intros (-> & -> & -> & u & -> & Hq & Hr). simpl.
    destruct (community_policy u) as [q|]; [rewrite (Hq q) by done; simpl|];
      (destruct r as [x|]; [by rewrite Hr|done]).
Qed.

(** A page below [/admin] is shown only to a signed-in, not denied user with
    an account, who has accepted the community standards and is staff, or an
    admin; everyone else is redirected or sees the loading, retry or policy
    screen. *)
Theorem admin_pages_staff_only (a : auth_context) (pathname : str) (path : string) (g : guard) :
  (path, g) ∈ AppRoutes → startsWith (js path) (js "/admin") = true →
  render a pathname g = Content →
  isSignedIn a = true ∧ accessDenied a = false
  ∧ ∃ u, user a = Some u ∧ (∀ q, community_policy u = Some q → accepted q = true)
         ∧ (is_staff u = true ∨ is_admin u = true).
Proof.
  intros Hin Hp.
  assert (g = Protected (Some staff) ∨ g = Protected (Some admin)) as Hg.
  { unfold AppRoutes in Hin. revert Hp.
    repeat (apply elem_of_cons in Hin as [[= -> ->]|Hin]; [vm_compute; auto; done|]).
    by apply not_elem_of_nil in Hin. }
  destruct Hg as [-> | ->]; simpl; intros (_ & ? & ? & u & ? & ? & Hr)%protected_content;
    (split_and!; [done..|]); exists u; (split_and!; [done..|]);
    [left; by apply (Hr staff)|right; by apply (Hr admin)].
Qed.

Definition sample_staff : User :=
  {| role := js "instructor"; is_staff := true; is_admin := false; community_policy := None |}.

Definition sample_context : auth_context :=
  {| isSignedIn := true; isLoading := false; user := Some sample_staff;
     sessionError := None; accessDenied := false |}.

Lemma admin_pages_staff_only_witness :
  isSignedIn sample_context = true ∧ accessDenied sample_context = false
  ∧ ∃ u, user sample_context = Some u
         ∧ (∀ q, community_policy u = Some q → accepted q = true)
         ∧ (is_staff u = true ∨ is_admin u = true).
Proof.
  apply (admin_pages_staff_only sample_context (js "/admin/grading") "/admin/grading"
    (Protected (Some staff))); [apply (list_elem_of_lookup_2 _ 27); reflexivity|reflexivity..].
Defined.

(** A denied session is never served from the cache: the two classes of errors of
    the mobile session provider are disjoint. *)
Lemma denied_not_cached e : isSessionAccessDenied e = true → canUseCachedSession e = false.
Proof.
  destruct e as [[s|] c|]; simpl; try done. intros H. bool_facts. by subst.
Qed.

End Access.
