(* ===== verification/Keyed.v ===== *)
(** * Timelines: lists kept sorted and free of duplicate keys

    The conversation views of both clients keep an array of messages that they
    filter, map and sort again. [Timeline] is what such an element type provides:
    a numeric key, the comparator handed to [Array.prototype.sort], and the
    elements on which that comparator is a total preorder. From it this file
    derives the invariant [wf] of the arrays, their reading [to_map] as a finite
    map from keys, and how each array operation acts on both. *)

From S2P Require Import Prelude.

Class Timeline (A : Type) := {
  key : A → Z;
  order : A → A → Z;
  valid : A → Prop;
  order_ok : cmp_consistent order valid;
}.

(** [items.filter((item) => item.id !== k)] *)
Definition without_key {A} (f : A → Z) (k : Z) (l : list A) : list A :=
  List.filter (λ x, negb (f x =? k)) l.

(** [items.map((item) => item.id === k ? g(item) : item)] *)
Definition map_key {A} (f : A → Z) (k : Z) (g : A → A) (l : list A) : list A :=
  map (λ x, if f x =? k then g x else x) l.

Section BooleanFilter.
Context {A B : Type}.
Implicit Types (p : A → bool) (l : list A).

Lemma sorted_filter (R : A → A → Prop) p l :
  StronglySorted R l → StronglySorted R (List.filter p l).
Proof.
  induction 1 as [|x l S IH F]; [constructor|]. simpl. destruct (p x); [|done].
  constructor; [done|]. rewrite Forall_forall in F |- *. intros y Hy.
  apply F. apply list_elem_of_In, filter_In in Hy as [Hy _]. by apply list_elem_of_In.
Qed.

Lemma Forall_bfilter (P : A → Prop) p l : Forall P l → Forall P (List.filter p l).
Proof. induction 1; simpl; [constructor|]. destruct (p x); auto. Qed.

Lemma elem_of_bfilter p l x : x ∈ List.filter p l ↔ x ∈ l ∧ p x = true.
Proof. by rewrite !list_elem_of_In, filter_In. Qed.

Lemma NoDup_map_bfilter (f : A → B) p l : NoDup (map f l) → NoDup (map f (List.filter p l)).
Proof.
  induction l as [|x l IH]; [done|]. simpl. intros [Hx N]%NoDup_cons.
  destruct (p x); simpl; [|by apply IH]. apply NoDup_cons. split; [|by apply IH].
  intros (y & Hy & Hin)%list_elem_of_fmap. apply Hx, list_elem_of_fmap. exists y.
  by apply elem_of_bfilter in Hin as [Hin _].
Qed.

Lemma filter_absent p l : (∀ x, x ∈ l → p x = true) → List.filter p l = l.
Proof.
  induction l as [|x l IH]; intros H; [done|]. simpl. rewrite H by (by left).
  rewrite IH; [done|]. intros y Hy. apply H. by right.
Qed.

Lemma filter_filter_andb p q l :
  List.filter (λ x, p x && q x) l = List.filter q (List.filter p l).
Proof.
  induction l as [|x l IH]; [done|]. simpl. destruct (p x); simpl; [|done].
  destruct (q x); by rewrite ?IH.
Qed.
End BooleanFilter.

(** [items.some((item) => item.id === k)] *)
Lemma existsb_key {A} (f : A → Z) k (l : list A) :
  existsb (λ x, f x =? k) l = true ↔ k ∈ map f l.
Proof.
  rewrite existsb_exists, list_elem_of_fmap. setoid_rewrite Z.eqb_eq.
  setoid_rewrite list_elem_of_In. split; intros (x & ?); exists x; intuition.
Qed.

Section Timeline.
Context {A : Type} `{Timeline A}.
Implicit Types (l older : list A) (x : A).

(** One entry per key, comparable elements, in the order of the comparator. *)
Definition wf l : Prop :=
  NoDup (map key l) ∧ Forall valid l ∧ StronglySorted (λ a b, order a b <= 0) l.

Definition to_map l : gmap Z A := list_to_map (map (λ x, (key x, x)) l).

Lemma wf_sort l k : NoDup (map key l) → Forall valid l → k ≡ₚ l → wf (js_sort order k).
Proof.
  intros N F P. split_and!.
  - by rewrite js_sort_map_perm, P.
  - by rewrite js_sort_perm, P.
  - eapply js_sort_sorted; [apply order_ok|by rewrite P].
Qed.

Lemma to_map_lookup l i x : NoDup (map key l) → (to_map l !! i = Some x ↔ x ∈ l ∧ key x = i).
Proof.
  intros N. unfold to_map. rewrite <- elem_of_list_to_map.
  - rewrite list_elem_of_fmap. split; [intros (y & [= -> ->] & ?)|intros [? <-]]; eauto.
  - by rewrite <- list_fmap_compose.
Qed.

Lemma to_map_perm l k : NoDup (map key l) → l ≡ₚ k → to_map l = to_map k.
Proof.
  intros N P. apply list_to_map_proper; [by rewrite <- list_fmap_compose|by rewrite P].
Qed.

Lemma to_map_cons x l : to_map (x :: l) = <[key x := x]> (to_map l).
Proof. done. Qed.

Lemma to_map_None l i : to_map l !! i = None ↔ i ∉ map key l.
Proof. unfold to_map. by rewrite <- not_elem_of_list_to_map, <- list_fmap_compose. Qed.

Lemma to_map_without k l : to_map (without_key key k l) = delete k (to_map l).
Proof.
  unfold without_key. induction l as [|x l IH]; [symmetry; apply delete_empty|]. simpl.
  destruct (Z.eqb_spec (key x) k) as [<-|Hne]; simpl.
  - by rewrite IH, to_map_cons, delete_insert_eq.
  - by rewrite !to_map_cons, IH, delete_insert_ne.
Qed.

Lemma wf_filter p l : wf l → wf (List.filter p l).
Proof.
  intros (N & F & S). split_and!; auto using NoDup_map_bfilter, Forall_bfilter, sorted_filter.
Qed.

(** An update that keeps the key of the element at [k]. *)
Lemma map_key_keys k g l :
  (∀ x, x ∈ l → key x = k → key (g x) = key x) → map key (map_key key k g l) = map key l.
Proof.
  intros Hk. unfold map_key. rewrite map_map. apply map_ext_in. intros x Hx%list_elem_of_In.
  destruct (Z.eqb_spec (key x) k); auto.
Qed.

Lemma to_map_map_key k g l :
  (∀ x, x ∈ l → key x = k → key (g x) = key x) →
  to_map (map_key key k g l) = alter g k (to_map l).
Proof.
  unfold map_key. induction l as [|x l IH]; intros Hk; simpl.
  { apply map_eq. intros i. rewrite lookup_alter. by case_decide. }
  rewrite !to_map_cons, IH by (intros y Hy; apply Hk; by right).
  destruct (Z.eqb_spec (key x) k) as [E|E]; simpl.
  - rewrite (Hk x), E by (auto || by left). apply map_eq. intros i.
    destruct (decide (k = i)) as [<-|Hi].
    + by rewrite lookup_alter_eq, !lookup_insert_eq.
    + by rewrite lookup_alter_ne, !lookup_insert_ne, lookup_alter_ne.
  - by rewrite alter_insert_ne.
Qed.

(** Two elements in the same place of the order. *)
Definition same_place (x y : A) : Prop :=
  key y = key x ∧ (valid x → valid y) ∧ ∀ z, order y z = order x z ∧ order z y = order z x.

Lemma wf_map_key k g l :
  (∀ x, x ∈ l → key x = k → same_place x (g x)) → wf l → wf (map_key key k g l).
Proof.
  intros Hp (N & F & S). split_and!.
  - rewrite map_key_keys; [done|]. intros x Hx Hk. by apply Hp.
  - unfold map_key. apply Forall_forall. intros y (x & -> & Hx)%list_elem_of_fmap.
    rewrite Forall_forall in F. destruct (Z.eqb_spec (key x) k); [|auto].
    apply Hp; auto.
  - set (f := λ x, if key x =? k then g x else x).
    assert (Hf : ∀ x, x ∈ l → ∀ z, order (f x) z = order x z ∧ order z (f x) = order z x).
    { intros x Hx z. unfold f. destruct (Z.eqb_spec (key x) k); [by apply Hp|done]. }
    change (map_key key k g l) with (map f l). clear Hp N F.
    induction S as [|x l S IH F]; [constructor|]. simpl.
    constructor; [apply IH; intros y Hy; apply Hf; by right|].
    rewrite Forall_forall in F |- *. intros y (z & -> & Hz)%list_elem_of_fmap.
    destruct (Hf x ltac:(by left) (f z)) as [-> _].
    destruct (Hf z ltac:(by right) x) as [_ ->]. by apply F.
Qed.

(** Appending a new element and sorting inserts it. *)
Lemma append_fresh l x :
  wf l → valid x → key x ∉ map key l →
  wf (js_sort order (l ++ [x])) ∧ to_map (js_sort order (l ++ [x])) = <[key x := x]> (to_map l).
Proof.
  intros (N & F & S) Hx Hf.
  assert (N' : NoDup (map key (x :: l))) by (by apply NoDup_cons).
  assert (P : l ++ [x] ≡ₚ x :: l) by (symmetry; apply Permutation_cons_append).
  assert (W : wf (js_sort order (l ++ [x]))) by (apply (wf_sort (x :: l)); auto).
  split; [done|]. rewrite <- to_map_cons. apply to_map_perm; [apply W|].
  by rewrite <- P; apply js_sort_perm.
Qed.

(** Removing the entries of two keys and appending the element of one of them. *)
Lemma replace_append l i x :
  wf l → valid x →
  let l' := List.filter (λ y, negb (key y =? i) && negb (key y =? key x)) l in
  wf (js_sort order (l' ++ [x]))
  ∧ to_map (js_sort order (l' ++ [x])) = <[key x := x]> (delete i (to_map l)).
Proof.
  intros W Hv l'. unfold l'. rewrite filter_filter_andb.
  destruct (append_fresh (without_key key (key x) (without_key key i l)) x) as [W' M'].
  - by apply wf_filter, wf_filter.
  - done.
  - intros (y & E & [_ Hy]%elem_of_bfilter)%list_elem_of_fmap. by rewrite <- E, Z.eqb_refl in Hy.
  - split; [done|]. unfold without_key in M' at 1. fold (without_key key i l).
    etransitivity; [exact M'|]. by rewrite !to_map_without, insert_delete_eq.
Qed.

(** Prepending the elements of a page whose keys are not there yet. *)
Lemma prepend_new l older :
  wf l → NoDup (map key older) → Forall valid older →
  let l' := List.filter (λ x, negb (has (map key l) (key x))) older ++ l in
  wf (js_sort order l') ∧ to_map (js_sort order l') = to_map l ∪ to_map older.
Proof.
  intros (N & F & S) No Fo. set (p := λ x, negb (has (map key l) (key x))). simpl.
  assert (Hp : ∀ x, x ∈ List.filter p older → x ∈ older ∧ key x ∉ map key l).
  { intros x [Hx Px]%elem_of_bfilter. unfold p in Px. by rewrite negb_true_iff, has_false in Px. }
  assert (N' : NoDup (map key (List.filter p older ++ l))).
  { rewrite map_app. apply NoDup_app. split_and!; [by apply NoDup_map_bfilter| |done].
    intros i (x & -> & Hx)%list_elem_of_fmap. by apply Hp. }
  assert (W : wf (js_sort order (List.filter p older ++ l))).
  { apply (wf_sort (List.filter p older ++ l)); [done| |done].
    apply Forall_app. auto using Forall_bfilter. }
  split; [done|].
  rewrite (to_map_perm _ (List.filter p older ++ l)); [|apply W|apply js_sort_perm].
  apply map_eq. intros i. apply option_eq. intros x.
  rewrite to_map_lookup, lookup_union_Some_raw, to_map_None, !to_map_lookup by done.
  rewrite elem_of_app. split.
  - intros [[Hx|Hx] <-]; [|by left]. right. destruct (Hp x Hx). auto.
  - intros [[Hx <-]|(Hn & Hx & <-)]; [auto|]. split; [left|done].
    apply elem_of_bfilter. split; [done|]. unfold p. by rewrite negb_true_iff, has_false.
Qed.

(** What an array operation [f] does, as an operation [s] of the map. *)
Definition implements (f : list A → list A) (s : gmap Z A → gmap Z A) (l : list A) : Prop :=
  wf (f l) ∧ to_map (f l) = s (to_map l).

Lemma without_implements k l : wf l → implements (without_key key k) (delete k) l.
Proof. intros W. split; [by apply wf_filter|apply to_map_without]. Qed.

Lemma map_key_implements k g l :
  wf l → (∀ x, x ∈ l → key x = k → same_place x (g x)) →
  implements (map_key key k g) (alter g k) l.
Proof.
  intros W Hp. split; [by apply wf_map_key|]. apply to_map_map_key. intros x Hx E. by apply Hp.
Qed.

End Timeline.

#[export] Hint Resolve wf_filter without_implements : csg.
