(* ===== verification/MessageState.v ===== *)
(** * Conversation state

    The messages a conversation shows, and how realtime events, optimistic sends
    and older pages change them:
    - [Mobile]: [mobile/src/lib/message-state.ts] on the types of
      [mobile/src/lib/types.ts];
    - [Web]: the helpers and state updates of [web/src/pages/shared/Messages.tsx].

    Timestamps are strings; [Date_parse] is [Date.parse] ([None] for [NaN]), whose
    treatment of strings outside the ISO format is implementation-defined, so
    every theorem holds for all of them. *)

From S2P Require Import Prelude.
From S2P Require Import Keyed.

Module Mobile.

Record Person := { person_id : Z; person_name : str; person_avatar : option str }.

Record Author := {
  author_id : Z; author_name : str; email : str; role : str; author_avatar : option str;
}.

(** An author where a reaction lists its users: the fields those have. *)
Definition person_of (a : Author) : Person :=
  {| person_id := author_id a; person_name := author_name a; person_avatar := author_avatar a |}.

Record MessageReaction := {
  emoji : str; count : Z; reacted : bool; users : list Person;
}.

Record Attachment := {
  attachment_id : Z; filename : str; content_type : str; byte_size : Z; image : bool;
  url : option str;
}.

Record UploadAttachmentInput := {
  up_s3_key : str; up_filename : str; up_content_type : str; up_byte_size : Z;
}.

Inductive ClientStatus := sending | failed.

(** An optional property [p?: T] is an option; a nullable optional one is an
    option of an option. *)
Record Message := {
  id : Z;
  channel_id : option Z;
  direct_conversation_id : option Z;
  parent_message_id : option Z;
  body : str;
  mention_user_ids : list Z;
  edited_at : option str;
  deleted_at : option str;
  pinned_at : option str;
  pinned_by_id : option (option Z);
  created_at : str;
  updated_at : str;
  mine : bool;
  blocked : option bool;
  reactions : list MessageReaction;
  attachments : list Attachment;
  read_receipts : option (Z * list Person);
  client_status : option ClientStatus;
  client_error : option str;
  client_uploads : option (list UploadAttachmentInput);
  reply_count : option Z;
  author : Author;
}.

Inductive event_kind := created | updated | deleted.

Record MessageEvent := {
  event : event_kind;
  event_channel_id : option Z;
  event_direct_conversation_id : option Z;
  message : Message;
}.

(** [{ ...old, ...new }]: the properties of [new], and of [old] where [new] has
    none. *)
Definition over {A} (new old : option A) : option A :=
  match new with Some x => Some x | None => old end.

Definition spread (old new : Message) : Message := {|
  id := id new;
  channel_id := channel_id new;
  direct_conversation_id := direct_conversation_id new;
  parent_message_id := parent_message_id new;
  body := body new;
  mention_user_ids := mention_user_ids new;
  edited_at := edited_at new;
  deleted_at := deleted_at new;
  pinned_at := pinned_at new;
  pinned_by_id := over (pinned_by_id new) (pinned_by_id old);
  created_at := created_at new;
  updated_at := updated_at new;
  mine := mine new;
  blocked := over (blocked new) (blocked old);
  reactions := reactions new;
  attachments := attachments new;
  read_receipts := over (read_receipts new) (read_receipts old);
  client_status := over (client_status new) (client_status old);
  client_error := over (client_error new) (client_error old);
  client_uploads := over (client_uploads new) (client_uploads old);
  reply_count := over (reply_count new) (reply_count old);
  author := author new;
|}.

(** [{ ...m, reactions }] *)
Definition with_reactions (m : Message) (rs : list MessageReaction) : Message := {|
  id := id m; channel_id := channel_id m; direct_conversation_id := direct_conversation_id m;
  parent_message_id := parent_message_id m; body := body m;
  mention_user_ids := mention_user_ids m; edited_at := edited_at m; deleted_at := deleted_at m;
  pinned_at := pinned_at m; pinned_by_id := pinned_by_id m; created_at := created_at m;
  updated_at := updated_at m; mine := mine m; blocked := blocked m; reactions := rs;
  attachments := attachments m; read_receipts := read_receipts m;
  client_status := client_status m; client_error := client_error m;
  client_uploads := client_uploads m; reply_count := reply_count m; author := author m;
|}.

Section Ops.
Context (Date_parse : str → option Z).

(** [time || left.id - right.id], where [time] is [NaN] when a date is invalid. *)
Definition message_cmp (left right : Message) : Z :=
  match Date_parse (created_at left), Date_parse (created_at right) with
  | Some a, Some b => lex_cmp (a - b) (id left - id right)
  | _, _ => id left - id right
  end.

Definition sortMessages (messages : list Message) : list Message :=
  js_sort message_cmp messages.

(** [messages.map((m) => m.id === incoming.id ? { ...m, ...incoming } : m)] *)
Definition spread_in (messages : list Message) (incoming : Message) : list Message :=
  map_key id (id incoming) (λ m, spread m incoming) messages.

Definition without (messages : list Message) (i : Z) : list Message :=
  without_key id i messages.

Definition mergeMessageEvent (messages : list Message) (payload : MessageEvent)
    : list Message :=
  match event payload with
  | created =>
      if existsb (λ m, id m =? id (message payload)) messages
      then spread_in messages (message payload)
      else sortMessages (messages ++ [message payload])
  | deleted => without messages (id (message payload))
  | updated => spread_in messages (message payload)
  end.

Definition mergePinnedMessageEvent (messages : list Message) (payload : MessageEvent)
    : list Message :=
  let withoutMessage := without messages (id (message payload)) in
  match event payload, pinned_at (message payload) with
  | deleted, _ | _, None => withoutMessage
  | _, Some p => if truthy p then message payload :: withoutMessage else withoutMessage
  end.

Definition reconcileOptimistic (messages : list Message) (optimisticId : Z) (canonical : Message)
    : list Message :=
  sortMessages (List.filter (λ m, negb (id m =? optimisticId) && negb (id m =? id canonical))
                  messages ++ [canonical]).

Definition prependOlderMessages (current older : list Message) : list Message :=
  let ids := map id current in
  sortMessages (List.filter (λ m, negb (has ids (id m))) older ++ current).

End Ops.

Definition toggleOwnReaction (m : Message) (e : str) (user : Author) : Message :=
  match List.find (λ r, eqs (emoji r) e) (reactions m) with
  | None =>
      with_reactions m (reactions m ++
        [{| emoji := e; count := 1; reacted := true; users := [person_of user] |}])
  | Some selected =>
      if reacted selected then
        let c := Z.max 0 (count selected - 1) in
        with_reactions m
          (if c =? 0
           then List.filter (λ r, negb (eqs (emoji r) e)) (reactions m)
           else map (λ r, if eqs (emoji r) e
                          then {| emoji := emoji r; count := c; reacted := false;
                                  users := List.filter
                                    (λ p, negb (person_id p =? author_id user)) (users r) |}
                          else r) (reactions m))
      else
        with_reactions m
          (map (λ r, if eqs (emoji r) e
                     then {| emoji := emoji r; count := count r + 1; reacted := true;
                             users := if existsb (λ p, person_id p =? author_id user) (users r)
                                      then users r else users r ++ [person_of user] |}
                     else r) (reactions m))
  end.

(** ** The conversation as a map from identifiers *)

Section Refinement.
Context (Date_parse : str → option Z).

Abbreviation mergeMessageEvent := (mergeMessageEvent Date_parse).
Abbreviation cmp := (message_cmp Date_parse).

Definition dated (m : Message) : Prop := is_Some (Date_parse (created_at m)).

Lemma cmp_lex x y :
  dated x → dated y →
  cmp x y = lex_cmp (default 0 (Date_parse (created_at x)) - default 0 (Date_parse (created_at y)))
              (id x - id y).
Proof. unfold message_cmp. intros [a ->] [b ->]. done. Qed.

(** The messages of a conversation, in chronological order. *)
#[local] Instance message_timeline : Timeline Message := {|
  key := id; order := cmp; valid := dated;
  order_ok := lex_cmp_consistent _ (λ m, default 0 (Date_parse (created_at m))) id _ cmp_lex;
|}.

(** The array the screen shows, as a map from identifiers. *)
Abbreviation conversation l := (to_map (H:=message_timeline) l).

(** The abstract operations, on the map. *)
Definition spec_event (s : gmap Z Message) (ev : MessageEvent) : gmap Z Message :=
  let m := message ev in
  match event ev with
  | created => <[id m := match s !! id m with Some old => spread old m | None => m end]> s
  | updated => alter (λ old, spread old m) (id m) s
  | deleted => delete (id m) s
  end.

Definition spec_reconcile (s : gmap Z Message) (optimistic : Z) (canonical : Message) :=
  <[id canonical := canonical]> (delete optimistic s).

Definition spec_prepend (s : gmap Z Message) (older : list Message) : gmap Z Message :=
  s ∪ conversation older.

(** The operations of the screen, as one type. *)
Inductive op :=
| Event (ev : MessageEvent)
| Reconcile (optimistic : Z) (canonical : Message)
| Older (older : list Message).

Definition run_op (l : list Message) (o : op) : list Message :=
  match o with
  | Event ev => mergeMessageEvent l ev
  | Reconcile i c => reconcileOptimistic Date_parse l i c
  | Older older => prependOlderMessages Date_parse l older
  end.

Definition spec_op (s : gmap Z Message) (o : op) : gmap Z Message :=
  match o with
  | Event ev => spec_event s ev
  | Reconcile i c => spec_reconcile s i c
  | Older older => spec_prepend s older
  end.

(** What the server promises: dates parse, a page has no duplicates, and the
    creation time of a message does not change. *)
Definition op_ok (s : gmap Z Message) (o : op) : Prop :=
  match o with
  | Event ev => dated (message ev)
      ∧ ∀ old, s !! id (message ev) = Some old → created_at old = created_at (message ev)
  | Reconcile i c => dated c
  | Older older => NoDup (map id older) ∧ Forall dated older
  end.

(** *** Each operation implements its specification *)

(** A newer copy of a message takes the place of the older one. *)
Lemma spread_same_place m x :
  id x = id m → created_at x = created_at m → dated m → same_place x (spread x m).
Proof.
  intros Hi Hc Hd. split_and!; [simpl; congruence|done|]. intros z.
  unfold order, message_timeline, message_cmp. simpl. by rewrite Hi, Hc.
Qed.

Lemma spread_in_implements l m :
  wf l → dated m → (∀ x, to_map l !! id m = Some x → created_at x = created_at m) →
  implements (λ l, spread_in l m) (alter (λ old, spread old m) (id m)) l.
Proof.
  intros W Hd Hc. apply (map_key_implements (id m) (λ old, spread old m) l W). intros x Hx Hi.
  apply spread_same_place; [done| |done]. apply Hc, to_map_lookup; [apply W|done].
Qed.

Lemma merge_event_refines l ev :
  wf l → op_ok (to_map l) (Event ev) →
  wf (mergeMessageEvent l ev) ∧ to_map (mergeMessageEvent l ev) = spec_event (to_map l) ev.
Proof.
  intros W [Hd Hc]. unfold Mobile.mergeMessageEvent, spec_event. destruct (event ev).
  - destruct (existsb _ l) eqn:E.
    + apply existsb_key in E. destruct (spread_in_implements l (message ev)) as [W' M']; try done.
      split; [done|]. rewrite M'.
      destruct (to_map l !! id (message ev)) as [old|] eqn:L; [|by apply to_map_None in L].
      by rewrite <- (insert_id _ _ _ L) at 1; rewrite alter_insert_eq.
    + assert (Hn : id (message ev) ∉ map id l) by (intros Hin%existsb_key; congruence).
      pose proof (proj2 (to_map_None l (id (message ev))) Hn) as L. rewrite L.
      exact (append_fresh l (message ev) W Hd Hn).
  - by apply spread_in_implements.
  - exact (without_implements (id (message ev)) l W).
Qed.

Lemma run_op_refines l o :
  wf l → op_ok (to_map l) o → wf (run_op l o) ∧ to_map (run_op l o) = spec_op (to_map l) o.
Proof.
  intros W. destruct o as [ev|i c|older]; simpl.
  - by apply merge_event_refines.
  - intros Hd. exact (replace_append l i c W Hd).
  - intros [N F]. exact (prepend_new l older W N F).
Qed.

(** Sequences of operations that respect the server's promises. *)
Fixpoint ops_ok (s : gmap Z Message) (os : list op) : Prop :=
  match os with
  | [] => True
  | o :: r => op_ok s o ∧ ops_ok (spec_op s o) r
  end.

(** C2: The conversation screen refines a map from identifiers to messages: for
    every sequence of realtime events, reconciled optimistic sends and loaded
    older pages, the list stays free of duplicates and in chronological order,
    and it holds exactly the messages of the abstract conversation, where a
    created or updated event overwrites, a deletion removes, a confirmed send
    replaces its optimistic entry, and an older page never overrides a newer
    copy. *)
Theorem conversation_refines_map (l : list Message) (os : list op) :
  wf l → ops_ok (to_map l) os →
  wf (foldl run_op l os) ∧ to_map (foldl run_op l os) = foldl spec_op (to_map l) os.
Proof.
  revert l. induction os as [|o os IH]; intros l W; [done|].
  simpl. intros [Ho Hos]. destruct (run_op_refines l o W Ho) as [W' M'].
  rewrite <- M'. apply IH; [done|]. by rewrite M'.
Qed.

End Refinement.

(** *** A concrete conversation *)

(** A date parser that reads a number of seconds written in digits. *)
Definition sample_parse (s : str) : option Z :=
  match s with
  | [] => None
  | _ => Some (foldl (λ acc c, 10 * acc + Z.of_N (code c) - 48) 0 s)
  end.

Definition sample_author : Author :=
  {| author_id := 5; author_name := js "Ana"; email := js "ana@csg"; role := js "student";
     author_avatar := None |}.

Definition sample_message (i : Z) (at_ : string) : Message :=
  {| id := i; channel_id := Some 1; direct_conversation_id := None; parent_message_id := None;
     body := js "hi"; mention_user_ids := []; edited_at := None; deleted_at := None;
     pinned_at := None; pinned_by_id := None; created_at := js at_; updated_at := js at_;
     mine := false; blocked := None; reactions := []; attachments := []; read_receipts := None;
     client_status := None; client_error := None; client_uploads := None; reply_count := None;
     author := sample_author |}.

Definition sample_event (k : event_kind) (m : Message) : MessageEvent :=
  {| event := k; event_channel_id := Some 1; event_direct_conversation_id := None; message := m |}.

Definition sample_list : list Message := [sample_message 1 "100"; sample_message (-1) "300"].
Definition sample_ops : list op :=
  [Event (sample_event created (sample_message 7 "200"));
   Reconcile (-1) (sample_message 9 "290"); Older [sample_message 1 "100"; sample_message 0 "050"]].

Lemma conversation_refines_map_witness :
  wf (H:=message_timeline sample_parse) (foldl (run_op sample_parse) sample_list sample_ops)
  ∧ map id (foldl (run_op sample_parse) sample_list sample_ops) = [0; 1; 7; 9].
Proof.
  split; [|vm_compute; reflexivity].
  apply (conversation_refines_map sample_parse sample_list sample_ops).
  - split_and!.
    + apply NoDup_cons; split; [by apply (bool_decide_unpack _)|].
      apply NoDup_cons; split; [by apply (bool_decide_unpack _)|constructor].
    + repeat constructor; eexists; reflexivity.
    + repeat constructor; vm_compute; discriminate.
  - unfold sample_ops. repeat (refine (conj _ _)).
    + eexists; reflexivity.
    + intros old Hold. vm_compute in Hold. discriminate.
    + eexists; reflexivity.
    + apply NoDup_cons; split; [by apply (bool_decide_unpack _)|].
      apply NoDup_cons; split; [by apply (bool_decide_unpack _)|constructor].
    + repeat constructor; eexists; reflexivity.
    + exact I.
Defined.

(** ** Reactions *)

Section Reactions.
Context (user : Author).

(** A reaction counts its users, and is marked as the user's own exactly when the
    user is among them. *)
Definition reaction_ok (r : MessageReaction) : Prop :=
  0 < count r ∧ count r = Z.of_nat (length (users r))
  ∧ NoDup (map person_id (users r))
  ∧ (reacted r = true ↔ author_id user ∈ map person_id (users r)).

Definition reactions_ok (m : Message) : Prop :=
  NoDup (map emoji (reactions m)) ∧ Forall reaction_ok (reactions m).

Definition reaction_of (m : Message) (e : str) : option MessageReaction :=
  List.find (λ r, eqs (emoji r) e) (reactions m).

Definition own (m : Message) (e : str) : bool :=
  match reaction_of m e with Some r => reacted r | None => false end.

Definition total (m : Message) (e : str) : Z :=
  match reaction_of m e with Some r => count r | None => 0 end.

Lemma find_emoji_spec rs e r :
  List.find (λ r, eqs (emoji r) e) rs = Some r → r ∈ rs ∧ emoji r = e.
Proof. intros H%find_some. rewrite list_elem_of_In. by rewrite <- eqs_true. Qed.

Lemma find_emoji_none rs e r :
  List.find (λ r, eqs (emoji r) e) rs = None → r ∈ rs → emoji r ≠ e.
Proof.
  intros H Hr. apply list_elem_of_In in Hr. pose proof (find_none _ _ H _ Hr) as E. simpl in E.
  intros <-. unfold eqs in E. by rewrite bool_decide_eq_true_2 in E.
Qed.

(** Distinct emoji: the reaction found is the only one of its emoji. *)
Lemma emoji_unique rs r1 r2 :
  NoDup (map emoji rs) → r1 ∈ rs → r2 ∈ rs → emoji r1 = emoji r2 → r1 = r2.
Proof.
  induction rs as [|r rs IH]; simpl; [by intros _ ?%not_elem_of_nil|].
  intros [Hr N]%NoDup_cons [->|H1]%elem_of_cons [->|H2]%elem_of_cons E; auto.
  - destruct Hr. apply list_elem_of_fmap. eauto.
  - destruct Hr. apply list_elem_of_fmap. eauto.
Qed.

Lemma find_map_emoji (f : MessageReaction → MessageReaction) rs e :
  (∀ r, emoji (f r) = emoji r) →
  List.find (λ r, eqs (emoji r) e) (map f rs) = f <$> List.find (λ r, eqs (emoji r) e) rs.
Proof.
  intros H. induction rs as [|r rs IH]; [done|]. simpl. rewrite H. by destruct (eqs _ _).
Qed.

Lemma find_filter_emoji rs e e' :
  e' ≠ e →
  List.find (λ r, eqs (emoji r) e') (List.filter (λ r, negb (eqs (emoji r) e)) rs)
  = List.find (λ r, eqs (emoji r) e') rs.
Proof.
  intros Hne. induction rs as [|r rs IH]; [done|]. simpl.
  destruct (eqs (emoji r) e) eqn:E; simpl.
  - rewrite IH. apply eqs_true in E. unfold eqs. by rewrite bool_decide_eq_false_2 by congruence.
  - by destruct (eqs (emoji r) e').
Qed.

Lemma find_filter_gone rs e :
  List.find (λ r, eqs (emoji r) e) (List.filter (λ r, negb (eqs (emoji r) e)) rs) = None.
Proof.
  induction rs as [|r rs IH]; [done|]. simpl. destruct (eqs (emoji r) e) eqn:E; simpl; [done|].
  by rewrite E.
Qed.

Lemma find_app_emoji rs rs' e :
  List.find (λ r, eqs (emoji r) e) (rs ++ rs') =
  match List.find (λ r, eqs (emoji r) e) rs with
  | Some r => Some r | None => List.find (λ r, eqs (emoji r) e) rs' end.
Proof. induction rs as [|r rs IH]; [done|]. simpl. by destruct (eqs _ _). Qed.

Lemma existsb_person l : existsb (λ p, person_id p =? author_id user) l = true ↔
  author_id user ∈ map person_id l.
Proof. apply existsb_key. Qed.


Abbreviation rx e := (λ r, eqs (emoji r) e).

(** The entry of the emoji after a toggle. *)
Definition toggled (e : str) (o : option MessageReaction) : option MessageReaction :=
  match o with
  | None => Some {| emoji := e; count := 1; reacted := true; users := [person_of user] |}
  | Some r =>
      if reacted r then
        if Z.max 0 (count r - 1) =? 0 then None
        else Some {| emoji := emoji r; count := Z.max 0 (count r - 1); reacted := false;
                     users := List.filter (λ p, negb (person_id p =? author_id user)) (users r) |}
      else Some {| emoji := emoji r; count := count r + 1; reacted := true;
                   users := if existsb (λ p, person_id p =? author_id user) (users r)
                            then users r else users r ++ [person_of user] |}
  end.

Lemma toggle_lookup m e e' :
  reaction_of (toggleOwnReaction m e user) e'
  = if eqs e' e then toggled e (reaction_of m e) else reaction_of m e'.
Proof.
  unfold reaction_of, toggleOwnReaction, toggled.
  destruct (List.find (rx e) (reactions m)) as [r|] eqn:F; simpl.
  - pose proof (find_emoji_spec _ _ _ F) as [_ Er].
    destruct (reacted r); [destruct (_ =? 0)|]; cbn [with_reactions reactions].
    + destruct (eqs e' e) eqn:E; [apply eqs_true in E as ->; apply find_filter_gone|].
      apply find_filter_emoji. intros ->. by rewrite eqs_refl in E.
    + rewrite find_map_emoji by (intros x; by destruct (eqs _ _)).
      destruct (eqs e' e) eqn:E.
      * apply eqs_true in E as ->. rewrite F. simpl. by rewrite (proj2 (eqs_true _ _) Er).
      * destruct (List.find (rx e') (reactions m)) as [x|] eqn:F'; [|done].
        simpl. apply find_emoji_spec in F' as [_ <-]. by rewrite E.
    + rewrite find_map_emoji by (intros x; by destruct (eqs _ _)).
      destruct (eqs e' e) eqn:E.
      * apply eqs_true in E as ->. rewrite F. simpl. by rewrite (proj2 (eqs_true _ _) Er).
      * destruct (List.find (rx e') (reactions m)) as [x|] eqn:F'; [|done].
        simpl. apply find_emoji_spec in F' as [_ <-]. by rewrite E.
  - rewrite find_app_emoji. simpl.
    destruct (eqs e' e) eqn:E.
    + apply eqs_true in E as ->. rewrite F. by rewrite eqs_refl.
    + destruct (eqs e e') eqn:E'; [apply eqs_true in E' as ->; by rewrite eqs_refl in E|].
      by destruct (List.find (rx e') (reactions m)).
Qed.

Lemma toggle_emoji_nodup m e :
  NoDup (map emoji (reactions m)) → NoDup (map emoji (reactions (toggleOwnReaction m e user))).
Proof.
  intros N. unfold toggleOwnReaction.
  destruct (List.find (rx e) (reactions m)) as [r|] eqn:F; simpl.
  - destruct (reacted r); [destruct (_ =? 0)|]; cbn [with_reactions reactions].
    + by apply NoDup_map_bfilter.
    + rewrite map_map. erewrite map_ext; [exact N|]. intros x. by destruct (eqs _ _).
    + rewrite map_map. erewrite map_ext; [exact N|]. intros x. by destruct (eqs _ _).
  - rewrite map_app. apply NoDup_app. split_and!; [done| |apply NoDup_singleton].
    intros x (r & -> & Hr)%list_elem_of_fmap E%list_elem_of_singleton.
    by apply (find_emoji_none _ _ _ F Hr).
Qed.

(** A message's reactions are determined by the entries of each emoji. *)
Lemma reactions_ok_lookup m :
  NoDup (map emoji (reactions m)) →
  (Forall reaction_ok (reactions m) ↔ ∀ e r, reaction_of m e = Some r → reaction_ok r).
Proof.
  intros N. unfold reaction_of. rewrite Forall_forall. split.
  - intros H e r [Hr _]%find_emoji_spec. by apply H.
  - intros H r Hr. apply (H (emoji r)).
    destruct (List.find _ (reactions m)) as [x|] eqn:F.
    + apply find_emoji_spec in F as [Hx E]. f_equal. by apply (emoji_unique (reactions m)).
    + by destruct (find_emoji_none _ _ _ F Hr).
Qed.

Lemma remove_person_length l :
  NoDup (map person_id l) → author_id user ∈ map person_id l →
  S (length (List.filter (λ p, negb (person_id p =? author_id user)) l)) = length l.
Proof.
  induction l as [|p l IH]; simpl; [by intros _ ?%not_elem_of_nil|].
  intros [Hp N]%NoDup_cons [E|H]%elem_of_cons.
  - rewrite <- E, Z.eqb_refl. simpl. f_equal. rewrite filter_absent; [done|].
    intros x Hx. apply negb_true_iff, Z.eqb_neq. intros Ex. apply Hp.
    apply list_elem_of_fmap. exists x. split; [congruence|done].
  - destruct (Z.eqb_spec (person_id p) (author_id user)) as [E|E].
    + by rewrite E in Hp.
    + simpl. by rewrite IH.
Qed.

Lemma toggled_ok e o :
  (∀ r, o = Some r → reaction_ok r) → ∀ r, toggled e o = Some r → reaction_ok r.
Proof.
  intros H r. unfold toggled. destruct o as [s|].
  - destruct (H s eq_refl) as (P & L & N & R). destruct (reacted s).
    + destruct (Z.eqb_spec (Z.max 0 (count s - 1)) 0) as [|Hc]; [done|]. intros [= <-].
      pose proof (remove_person_length _ N (proj1 R eq_refl)).
      split_and!; simpl; [lia|lia|by apply NoDup_map_bfilter|]. split; [done|].
      intros (p & Hp & Hin)%list_elem_of_fmap.
      apply list_elem_of_In, filter_In in Hin as [_ Hin]. by rewrite <- Hp, Z.eqb_refl in Hin.
    + intros [= <-]. assert (A : ¬ author_id user ∈ map person_id (users s)).
      { intros Ha. by apply R in Ha. }
      destruct (existsb _ (users s)) eqn:X; [by apply existsb_person in X|].
      split_and!; simpl.
      * lia.
      * rewrite length_app. simpl. lia.
      * rewrite map_app. apply NoDup_app. split_and!; [done| |apply NoDup_singleton].
        by intros x Hx ->%list_elem_of_singleton.
      * split; [|done]. intros _. rewrite map_app. apply elem_of_app. right. by left.
  - intros [= <-]. split_and!; simpl; [lia|lia|apply NoDup_singleton|].
    split; [|done]. intros _. by left.
Qed.

Lemma toggle_reactions_ok m e :
  reactions_ok m → reactions_ok (toggleOwnReaction m e user).
Proof.
  intros [N F]. pose proof (toggle_emoji_nodup m e N) as N'. split; [done|].
  apply (reactions_ok_lookup _ N'). intros e' r. rewrite toggle_lookup.
  pose proof (proj1 (reactions_ok_lookup m N) F) as G.
  destruct (eqs e' e); [|apply G]. apply toggled_ok. apply G.
Qed.

(** Toggling a reaction keeps every reaction consistent (its count is the
    number of its users, who are distinct, and it is marked as the user's own
    exactly when the user is one of them), flips whether the user reacted with
    that emoji, changes its count by one accordingly, and leaves every other
    emoji's reaction alone. *)
Theorem toggle_reaction_correct (m : Message) (e : str) :
  reactions_ok m →
  let m' := toggleOwnReaction m e user in
  reactions_ok m'
  ∧ own m' e = negb (own m e)
  ∧ total m' e = total m e + (if own m e then -1 else 1)
  ∧ (∀ e', e' ≠ e → reaction_of m' e' = reaction_of m e').
Proof.
  intros H m'. split; [by apply toggle_reactions_ok|].
  assert (Q : reaction_of m' e = toggled e (reaction_of m e)).
  { unfold m'. rewrite toggle_lookup. by rewrite eqs_refl. }
  assert (G : ∀ r, reaction_of m e = Some r → reaction_ok r).
  { apply reactions_ok_lookup; apply H. }
  unfold own, total. rewrite Q. split_and!.
  - destruct (reaction_of m e) as [r|]; [|done]. simpl. destruct (reacted r); [|done].
    by destruct (_ =? 0).
  - destruct (reaction_of m e) as [r|]; [|done]. destruct (G r eq_refl) as (P & _). simpl.
    destruct (reacted r); [|simpl; lia].
    destruct (Z.eqb_spec (Z.max 0 (count r - 1)) 0); simpl; lia.
  - intros e' Hne. unfold m'. rewrite toggle_lookup.
    destruct (eqs e' e) eqn:E; [by apply eqs_true in E|done].
Qed.

End Reactions.

Definition reacted_message : Message := with_reactions (sample_message 1 "100")
  [{| emoji := js "+1"; count := 1; reacted := true; users := [person_of sample_author] |}].

Lemma toggle_reaction_witness :
  own reacted_message (js "+1") = true
  ∧ own (toggleOwnReaction reacted_message (js "+1") sample_author) (js "+1") = false.
Proof.
  split; [vm_compute; reflexivity|].
  rewrite (proj1 (proj2 (toggle_reaction_correct sample_author reacted_message (js "+1")
    ltac:(split; [apply NoDup_singleton|]; repeat constructor; simpl;
          try lia; try apply NoDup_singleton; try (intros; by left); try done;
          try (by intros ?%not_elem_of_nil))))).
  vm_compute. reflexivity.
Defined.

End Mobile.
