(* ===== verification/WebMessages.v ===== *)
(** * The web messages page

    The state of [web/src/pages/shared/Messages.tsx]: the messages of the selected
    conversation, its pins, the channel and direct-conversation summaries with
    their unread counts, and the handlers that change them (realtime events,
    loading a conversation, sending, editing, deleting, pinning, reacting,
    blocking). Data types are those of [web/src/types/api.ts].

    [getTime] is [new Date(s).getTime()], [None] for [NaN]; a comparator that
    returns [NaN] makes [Array.prototype.sort] treat its arguments as equal.
    [now] stands for [new Date().toISOString()] where a handler runs. Not part of
    the state: where the page is scrolled to and the timers that restore it, toast
    notices, and the panes a small screen shows; a handler that reads the scroll
    position or the visibility takes it as its [View]. *)

From S2P Require Import Prelude.
From S2P Require Import Keyed.

(** ** Data *)

Record Person := { person_id : Z; full_name : str; avatar_url : option str }.

Record Author := {
  author_id : Z; author_full_name : str; email : str; role : str; author_avatar : option str;
}.

Record MessageReaction := { emoji : str; count : Z; reacted : bool; users : list Person }.

Record MessageAttachment := {
  attachment_id : Z; filename : str; content_type : str; byte_size : Z; image : bool;
  url : option str;
}.

(** A [ChannelMessage] with the flags [LocalMessage] adds to it. *)
Record LocalMessage := {
  id : Z;
  channel_id : option Z;
  direct_conversation_id : option Z;
  parent_message_id : option Z;
  body : str;
  mention_user_ids : list Z;
  edited_at : option str;
  deleted_at : option str;
  pinned_at : option str;
  pinned_by_id : option Z;
  created_at : str;
  updated_at : str;
  mine : bool;
  blocked : option bool;
  attachments : list MessageAttachment;
  reactions : list MessageReaction;
  read_receipts : option (Z * list Person);
  author : Author;
  pending : option bool;
  failed : option bool;
}.

Record LatestMessage := {
  latest_id : Z; latest_body : str; latest_created_at : str; author_name : str;
}.

(** The fields channel and direct-conversation summaries share, and the page
    uses of them. *)
Record Summary := {
  summary_id : Z;
  workspace_id : Z;
  name : str;
  position : Z;
  muted : bool;
  unread_count : Z;
  last_read_at : option str;
  latest_message : option LatestMessage;
}.

Inductive Target := Channel (i : Z) | Dm (i : Z).

#[export] Instance Target_eq_dec : EqDecision Target.
Proof. solve_decision. Defined.

Definition target_id (t : Target) : Z := match t with Channel i | Dm i => i end.

Inductive event_kind := created | updated | deleted.

#[export] Instance event_kind_eq_dec : EqDecision event_kind.
Proof. solve_decision. Defined.

(** A broadcast event. [event_mine] is the [mine] of its message, which a
    broadcast to several readers leaves out. *)
Record ChannelMessageEvent := {
  event : event_kind;
  event_channel_id : option Z;
  event_direct_conversation_id : option Z;
  message : LocalMessage;
  event_mine : option bool;
  event_channel : option Summary;
  event_direct_conversation : option Summary;
}.

(** *** Record updates [{ ...m, field }] *)

Definition with_reactions (m : LocalMessage) rs : LocalMessage := {|
  id := id m; channel_id := channel_id m; direct_conversation_id := direct_conversation_id m;
  parent_message_id := parent_message_id m; body := body m;
  mention_user_ids := mention_user_ids m; edited_at := edited_at m; deleted_at := deleted_at m;
  pinned_at := pinned_at m; pinned_by_id := pinned_by_id m; created_at := created_at m;
  updated_at := updated_at m; mine := mine m; blocked := blocked m;
  attachments := attachments m; reactions := rs; read_receipts := read_receipts m;
  author := author m; pending := pending m; failed := failed m |}.

Definition with_mine (m : LocalMessage) b : LocalMessage := {|
  id := id m; channel_id := channel_id m; direct_conversation_id := direct_conversation_id m;
  parent_message_id := parent_message_id m; body := body m;
  mention_user_ids := mention_user_ids m; edited_at := edited_at m; deleted_at := deleted_at m;
  pinned_at := pinned_at m; pinned_by_id := pinned_by_id m; created_at := created_at m;
  updated_at := updated_at m; mine := b; blocked := blocked m;
  attachments := attachments m; reactions := reactions m; read_receipts := read_receipts m;
  author := author m; pending := pending m; failed := failed m |}.

(** [{ ...item, pending: false, failed: true }] *)
Definition mark_failed (m : LocalMessage) : LocalMessage := {|
  id := id m; channel_id := channel_id m; direct_conversation_id := direct_conversation_id m;
  parent_message_id := parent_message_id m; body := body m;
  mention_user_ids := mention_user_ids m; edited_at := edited_at m; deleted_at := deleted_at m;
  pinned_at := pinned_at m; pinned_by_id := pinned_by_id m; created_at := created_at m;
  updated_at := updated_at m; mine := mine m; blocked := blocked m;
  attachments := attachments m; reactions := reactions m; read_receipts := read_receipts m;
  author := author m; pending := Some false; failed := Some true |}.

(** [{ ...item, blocked: true, body: '', attachments: [], reactions: [] }] for
    the messages of a blocked author. *)
Definition hideAuthor (author_blocked : Z) (m : LocalMessage) : LocalMessage :=
  if author_id (author m) =? author_blocked then {|
    id := id m; channel_id := channel_id m; direct_conversation_id := direct_conversation_id m;
    parent_message_id := parent_message_id m; body := [];
    mention_user_ids := mention_user_ids m; edited_at := edited_at m; deleted_at := deleted_at m;
    pinned_at := pinned_at m; pinned_by_id := pinned_by_id m; created_at := created_at m;
    updated_at := updated_at m; mine := mine m; blocked := Some true;
    attachments := []; reactions := []; read_receipts := read_receipts m;
    author := author m; pending := pending m; failed := failed m |}
  else m.

(** [{ ...summary, unread_count, last_read_at, latest_message }] *)
Definition with_read (s : Summary) (n : Z) (at_ : option str) (latest : option LatestMessage)
    : Summary := {|
  summary_id := summary_id s; workspace_id := workspace_id s; name := name s;
  position := position s; muted := muted s; unread_count := n; last_read_at := at_;
  latest_message := latest |}.

Definition with_muted (s : Summary) (b : bool) : Summary := {|
  summary_id := summary_id s; workspace_id := workspace_id s; name := name s;
  position := position s; muted := b; unread_count := unread_count s;
  last_read_at := last_read_at s; latest_message := latest_message s |}.

(** A nullable number or string in a condition: [null], [0] and [''] are falsy. *)
Definition truthy_id (o : option Z) : bool :=
  match o with Some i => negb (i =? 0) | None => false end.

Definition truthy_str (o : option str) : bool :=
  match o with Some s => truthy s | None => false end.

(** [a || b] on nullable strings. *)
Definition or_str (o : option str) (d : str) : str :=
  match o with Some s => if truthy s then s else d | None => d end.

Section Page.
Context (getTime : str → option Z).
Context (localeCompare : str → str → Z).

(** ** Helpers *)

Definition mergeIncomingMessage (existing incoming : LocalMessage) : LocalMessage :=
  with_reactions incoming (map (λ r,
    match List.find (λ item, eqs (emoji item) (emoji r)) (reactions existing) with
    | Some item =>
        if reacted item && negb (reacted r)
        then {| emoji := emoji r; count := count r; reacted := true; users := users r |}
        else r
    | None => r
    end) (reactions incoming)).

(** [a - b], then the identifiers when the difference is zero; [NaN] counts as
    equal. *)
Definition chronological (a b : LocalMessage) : Z :=
  match getTime (created_at a), getTime (created_at b) with
  | Some x, Some y => lex_cmp (x - y) (id a - id b)
  | _, _ => 0
  end.

Definition sortChronologicalMessages (items : list LocalMessage) : list LocalMessage :=
  js_sort chronological items.

Definition pin_order (a b : LocalMessage) : Z :=
  match getTime (or_str (pinned_at b) (created_at b)),
        getTime (or_str (pinned_at a) (created_at a)) with
  | Some y, Some x => lex_cmp (y - x) (id b - id a)
  | _, _ => 0
  end.

Definition sortPinnedMessages (items : list LocalMessage) : list LocalMessage :=
  js_sort pin_order items.

Definition upsertPinnedMessage (prev : list LocalMessage) (incoming : LocalMessage)
    : list LocalMessage :=
  if negb (truthy_str (pinned_at incoming)) || truthy_str (deleted_at incoming)
  then without_key id (id incoming) prev
  else
    sortPinnedMessages
      (if existsb (λ item, id item =? id incoming) prev
       then map_key id (id incoming) (λ item, mergeIncomingMessage item incoming) prev
       else prev ++ [incoming]).

Definition latestMessageFrom (m : LocalMessage) : LatestMessage := {|
  latest_id := id m;
  latest_body :=
    if truthy (body m) then body m
    else if (length (attachments m) =? 1)%nat then js "Attachment"
    else str_of_Z (Z.of_nat (length (attachments m))) ++ js " attachments";
  latest_created_at := created_at m;
  author_name := author_full_name (author m) |}.

Definition latestMessageTime (item : Summary) : option Z :=
  match latest_message item with
  | Some l => getTime (latest_created_at l)
  | None => Some 0
  end.

Definition initialMessageTarget (channels directConversations : list Summary) : option Target :=
  let unreadTargets := js_sort
    (λ left right : Target * option Z,
       match left.2, right.2 with Some l, Some r => r - l | _, _ => 0 end)
    (map (λ c, (Channel (summary_id c), latestMessageTime c))
       (List.filter (λ c, 0 <? unread_count c) channels) ++
     map (λ c, (Dm (summary_id c), latestMessageTime c))
       (List.filter (λ c, 0 <? unread_count c) directConversations)) in
  match unreadTargets, channels, directConversations with
  | t :: _, _, _ => Some t.1
  | [], c :: _, _ => Some (Channel (summary_id c))
  | [], [], d :: _ => Some (Dm (summary_id d))
  | [], [], [] => None
  end.

(** [channelNeedsRead] and [dmNeedsRead], which have the same body. *)
Definition needsRead (s : Summary) : bool :=
  if 0 <? unread_count s then true else
  match latest_message s with
  | None => false
  | Some l =>
      if negb (truthy_str (last_read_at s)) then true else
      match getTime (latest_created_at l), getTime (default [] (last_read_at s)) with
      | Some a, Some b => b <? a
      | _, _ => false
      end
  end.

(** ** Page state *)

Record PendingAttachment := {
  file : Z; p_filename : str; p_content_type : str; p_byte_size : Z; progress : Z;
  s3_key : option str; uploaded : bool;
}.

Record State := {
  channels : list Summary;
  directConversations : list Summary;
  selectedTarget : option Target;
  messages : list LocalMessage;
  pinnedMessages : list LocalMessage;
  highlightedMessageId : option Z;
  hasUnreadBelow : bool;
  shouldStickToBottom : bool;
  targetRequest : Z;
  targetLoading : bool;
  tempMessageId : Z;
  optimisticUrls : gmap Z (list str);
  composer : str * list Z * list PendingAttachment;
  sending : bool;
  error : str;
}.

(** *** The page's state setters *)

Definition set_channels (x : list Summary) (st : State) : State := {|
  channels := x; directConversations := directConversations st; selectedTarget := selectedTarget
  st; messages := messages st; pinnedMessages := pinnedMessages st; highlightedMessageId :=
  highlightedMessageId st; hasUnreadBelow := hasUnreadBelow st; shouldStickToBottom :=
  shouldStickToBottom st; targetRequest := targetRequest st; targetLoading := targetLoading st;
  tempMessageId := tempMessageId st; optimisticUrls := optimisticUrls st; composer := composer
  st; sending := sending st; error := error st |}.

Definition set_directConversations (x : list Summary) (st : State) : State := {|
  channels := channels st; directConversations := x; selectedTarget := selectedTarget st;
  messages := messages st; pinnedMessages := pinnedMessages st; highlightedMessageId :=
  highlightedMessageId st; hasUnreadBelow := hasUnreadBelow st; shouldStickToBottom :=
  shouldStickToBottom st; targetRequest := targetRequest st; targetLoading := targetLoading st;
  tempMessageId := tempMessageId st; optimisticUrls := optimisticUrls st; composer := composer
  st; sending := sending st; error := error st |}.

Definition set_selectedTarget (x : option Target) (st : State) : State := {|
  channels := channels st; directConversations := directConversations st; selectedTarget := x;
  messages := messages st; pinnedMessages := pinnedMessages st; highlightedMessageId :=
  highlightedMessageId st; hasUnreadBelow := hasUnreadBelow st; shouldStickToBottom :=
  shouldStickToBottom st; targetRequest := targetRequest st; targetLoading := targetLoading st;
  tempMessageId := tempMessageId st; optimisticUrls := optimisticUrls st; composer := composer
  st; sending := sending st; error := error st |}.

Definition set_messages (x : list LocalMessage) (st : State) : State := {|
  channels := channels st; directConversations := directConversations st; selectedTarget :=
  selectedTarget st; messages := x; pinnedMessages := pinnedMessages st; highlightedMessageId :=
  highlightedMessageId st; hasUnreadBelow := hasUnreadBelow st; shouldStickToBottom :=
  shouldStickToBottom st; targetRequest := targetRequest st; targetLoading := targetLoading st;
  tempMessageId := tempMessageId st; optimisticUrls := optimisticUrls st; composer := composer
  st; sending := sending st; error := error st |}.

Definition set_pinnedMessages (x : list LocalMessage) (st : State) : State := {|
  channels := channels st; directConversations := directConversations st; selectedTarget :=
  selectedTarget st; messages := messages st; pinnedMessages := x; highlightedMessageId :=
  highlightedMessageId st; hasUnreadBelow := hasUnreadBelow st; shouldStickToBottom :=
  shouldStickToBottom st; targetRequest := targetRequest st; targetLoading := targetLoading st;
  tempMessageId := tempMessageId st; optimisticUrls := optimisticUrls st; composer := composer
  st; sending := sending st; error := error st |}.

Definition set_highlightedMessageId (x : option Z) (st : State) : State := {|
  channels := channels st; directConversations := directConversations st; selectedTarget :=
  selectedTarget st; messages := messages st; pinnedMessages := pinnedMessages st;
  highlightedMessageId := x; hasUnreadBelow := hasUnreadBelow st; shouldStickToBottom :=
  shouldStickToBottom st; targetRequest := targetRequest st; targetLoading := targetLoading st;
  tempMessageId := tempMessageId st; optimisticUrls := optimisticUrls st; composer := composer
  st; sending := sending st; error := error st |}.

Definition set_hasUnreadBelow (x : bool) (st : State) : State := {|
  channels := channels st; directConversations := directConversations st; selectedTarget :=
  selectedTarget st; messages := messages st; pinnedMessages := pinnedMessages st;
  highlightedMessageId := highlightedMessageId st; hasUnreadBelow := x; shouldStickToBottom :=
  shouldStickToBottom st; targetRequest := targetRequest st; targetLoading := targetLoading st;
  tempMessageId := tempMessageId st; optimisticUrls := optimisticUrls st; composer := composer
  st; sending := sending st; error := error st |}.

Definition set_shouldStickToBottom (x : bool) (st : State) : State := {|
  channels := channels st; directConversations := directConversations st; selectedTarget :=
  selectedTarget st; messages := messages st; pinnedMessages := pinnedMessages st;
  highlightedMessageId := highlightedMessageId st; hasUnreadBelow := hasUnreadBelow st;
  shouldStickToBottom := x; targetRequest := targetRequest st; targetLoading := targetLoading
  st; tempMessageId := tempMessageId st; optimisticUrls := optimisticUrls st; composer :=
  composer st; sending := sending st; error := error st |}.

Definition set_targetRequest (x : Z) (st : State) : State := {|
  channels := channels st; directConversations := directConversations st; selectedTarget :=
  selectedTarget st; messages := messages st; pinnedMessages := pinnedMessages st;
  highlightedMessageId := highlightedMessageId st; hasUnreadBelow := hasUnreadBelow st;
  shouldStickToBottom := shouldStickToBottom st; targetRequest := x; targetLoading :=
  targetLoading st; tempMessageId := tempMessageId st; optimisticUrls := optimisticUrls st;
  composer := composer st; sending := sending st; error := error st |}.

Definition set_targetLoading (x : bool) (st : State) : State := {|
  channels := channels st; directConversations := directConversations st; selectedTarget :=
  selectedTarget st; messages := messages st; pinnedMessages := pinnedMessages st;
  highlightedMessageId := highlightedMessageId st; hasUnreadBelow := hasUnreadBelow st;
  shouldStickToBottom := shouldStickToBottom st; targetRequest := targetRequest st;
  targetLoading := x; tempMessageId := tempMessageId st; optimisticUrls := optimisticUrls st;
  composer := composer st; sending := sending st; error := error st |}.

Definition set_tempMessageId (x : Z) (st : State) : State := {|
  channels := channels st; directConversations := directConversations st; selectedTarget :=
  selectedTarget st; messages := messages st; pinnedMessages := pinnedMessages st;
  highlightedMessageId := highlightedMessageId st; hasUnreadBelow := hasUnreadBelow st;
  shouldStickToBottom := shouldStickToBottom st; targetRequest := targetRequest st;
  targetLoading := targetLoading st; tempMessageId := x; optimisticUrls := optimisticUrls st;
  composer := composer st; sending := sending st; error := error st |}.

Definition set_optimisticUrls (x : gmap Z (list str)) (st : State) : State := {|
  channels := channels st; directConversations := directConversations st; selectedTarget :=
  selectedTarget st; messages := messages st; pinnedMessages := pinnedMessages st;
  highlightedMessageId := highlightedMessageId st; hasUnreadBelow := hasUnreadBelow st;
  shouldStickToBottom := shouldStickToBottom st; targetRequest := targetRequest st;
  targetLoading := targetLoading st; tempMessageId := tempMessageId st; optimisticUrls := x;
  composer := composer st; sending := sending st; error := error st |}.

Definition set_composer (x : str * list Z * list PendingAttachment) (st : State) : State := {|
  channels := channels st; directConversations := directConversations st; selectedTarget :=
  selectedTarget st; messages := messages st; pinnedMessages := pinnedMessages st;
  highlightedMessageId := highlightedMessageId st; hasUnreadBelow := hasUnreadBelow st;
  shouldStickToBottom := shouldStickToBottom st; targetRequest := targetRequest st;
  targetLoading := targetLoading st; tempMessageId := tempMessageId st; optimisticUrls :=
  optimisticUrls st; composer := x; sending := sending st; error := error st |}.

Definition set_sending (x : bool) (st : State) : State := {|
  channels := channels st; directConversations := directConversations st; selectedTarget :=
  selectedTarget st; messages := messages st; pinnedMessages := pinnedMessages st;
  highlightedMessageId := highlightedMessageId st; hasUnreadBelow := hasUnreadBelow st;
  shouldStickToBottom := shouldStickToBottom st; targetRequest := targetRequest st;
  targetLoading := targetLoading st; tempMessageId := tempMessageId st; optimisticUrls :=
  optimisticUrls st; composer := composer st; sending := x; error := error st |}.

Definition set_error (x : str) (st : State) : State := {|
  channels := channels st; directConversations := directConversations st; selectedTarget :=
  selectedTarget st; messages := messages st; pinnedMessages := pinnedMessages st;
  highlightedMessageId := highlightedMessageId st; hasUnreadBelow := hasUnreadBelow st;
  shouldStickToBottom := shouldStickToBottom st; targetRequest := targetRequest st;
  targetLoading := targetLoading st; tempMessageId := tempMessageId st; optimisticUrls :=
  optimisticUrls st; composer := composer st; sending := sending st; error := x |}.

(** [setMessages((prev) => f(prev))], and likewise for the other lists. *)
Definition update_messages f (st : State) : State := set_messages (f (messages st)) st.
Definition update_pins f (st : State) : State := set_pinnedMessages (f (pinnedMessages st)) st.
Definition update_channels f (st : State) : State := set_channels (f (channels st)) st.
Definition update_dms f (st : State) : State :=
  set_directConversations (f (directConversations st)) st.

(** What a handler asks of the world besides changing the state. *)
Inductive effect := MarkRead (t : Target) | RevokeURLs (urls : list str).

(** ** Summaries *)

Definition updateLatestForTarget (now : str) (m : LocalMessage) (markRead : bool) (st : State)
    : State :=
  let unreadDelta := if mine m || markRead then 0 else 1 in
  let update s := with_read s (if markRead then 0 else unread_count s + unreadDelta)
                    (if markRead then Some now else last_read_at s)
                    (Some (latestMessageFrom m)) in
  let st := match channel_id m with
            | Some c => if c =? 0 then st else update_channels (map_key summary_id c update) st
            | None => st end in
  match direct_conversation_id m with
  | Some c => if c =? 0 then st else update_dms (map_key summary_id c update) st
  | None => st
  end.

Definition mark_summary_read (now : str) (s : Summary) : Summary :=
  with_read s 0 (Some now) (latest_message s).

Definition upsert_channel (next : Summary) (prev : list Summary) : list Summary :=
  if existsb (λ c, summary_id c =? summary_id next) prev
  then map_key summary_id (summary_id next) (λ _, next) prev
  else js_sort (λ left right, lex_cmp (position left - position right)
                                (localeCompare (name left) (name right))) (prev ++ [next]).

Definition upsert_dm (next : Summary) (prev : list Summary) : list Summary :=
  if existsb (λ c, summary_id c =? summary_id next) prev
  then map_key summary_id (summary_id next) (λ _, next) prev
  else next :: prev.

Definition updateTargetSummaryFromEvent (now : str) (ev : ChannelMessageEvent) (m : LocalMessage)
    (markRead : bool) (st : State) : State :=
  let next s := if markRead then mark_summary_read now s else s in
  match event_channel ev, event_direct_conversation ev, event ev with
  | Some c, _, _ => update_channels (upsert_channel (next c)) st
  | None, Some d, _ => update_dms (upsert_dm (next d)) st
  | None, None, deleted => st
  | None, None, _ => updateLatestForTarget now m markRead st
  end.

Definition markWorkspaceRead (now : str) (workspace : Z) (st : State) : State * list effect :=
  let unread := List.filter (λ s, (workspace_id s =? workspace) && (0 <? unread_count s)) in
  let workspaceChannels := unread (channels st) in
  let workspaceDms := unread (directConversations st) in
  match workspaceChannels, workspaceDms with
  | [], [] => (st, [])
  | _, _ =>
      let update := map (λ s, if workspace_id s =? workspace then mark_summary_read now s else s) in
      (update_dms update (update_channels update st),
       map (λ c, MarkRead (Channel (summary_id c))) workspaceChannels ++
       map (λ c, MarkRead (Dm (summary_id c))) workspaceDms)
  end.

(** ** Realtime events *)

(** What the page looks like when a handler runs. *)
Record View := {
  visible : bool; isDesktop : bool; conversationPane : bool; threadOpen : bool;
  nearBottom : bool; programmaticScroll : bool;
}.

Definition canAutoMarkRead (v : View) (ignoreScrollPosition : bool) : bool :=
  if negb (visible v) then false
  else if negb (isDesktop v) && negb (conversationPane v) then false
  else if threadOpen v then false
  else ignoreScrollPosition || nearBottom v.

Definition belongsToTarget (t : option Target) (ev : ChannelMessageEvent) : bool :=
  match t with
  | Some (Channel i) => bool_decide (event_channel_id ev = Some i)
  | Some (Dm i) => bool_decide (event_direct_conversation_id ev = Some i)
  | None => false
  end.

Definition realtime_messages (k : event_kind) (m : LocalMessage) (prev : list LocalMessage)
    : list LocalMessage :=
  match k with
  | deleted => without_key id (id m) prev
  | _ =>
      if existsb (λ item, id item =? id m) prev
      then sortChronologicalMessages
             (map_key id (id m) (λ item, mergeIncomingMessage item m) prev)
      else sortChronologicalMessages (prev ++ [m])
  end.

Definition realtime_pins (k : event_kind) (m : LocalMessage) (prev : list LocalMessage)
    : list LocalMessage :=
  match k with
  | deleted => without_key id (id m) prev
  | _ => upsertPinnedMessage prev m
  end.

Definition onRealtime (user : Author) (v : View) (now : str) (ev : ChannelMessageEvent)
    (st : State) : State * list effect :=
  let currentTarget := selectedTarget st in
  let belongs := belongsToTarget currentTarget ev in
  let m := with_mine (message ev)
             (default (author_id (author (message ev)) =? author_id user) (event_mine ev)) in
  let isCreated := bool_decide (event ev = created) in
  let shouldMark := belongs && negb (mine m) && isCreated && canAutoMarkRead v false in
  let st := updateTargetSummaryFromEvent now ev m (mine m || shouldMark) st in
  if belongs then
    let st := if shouldStickToBottom st && programmaticScroll v then st
              else set_shouldStickToBottom (mine m || shouldMark || nearBottom v) st in
    let st := if isCreated && negb (mine m) && negb (truthy_id (parent_message_id m))
                 && negb (shouldStickToBottom st)
              then set_hasUnreadBelow true st else st in
    let st := update_messages (realtime_messages (event ev) m) st in
    let st := update_pins (realtime_pins (event ev) m) st in
    (st, match currentTarget with
         | Some t => if shouldMark then [MarkRead t] else []
         | None => [] end)
  else (st, []).

(** ** Loading a conversation

    [loadTarget] is asynchronous: [load_begin] runs up to the request,
    [load_apply] when its response arrives (where a request that is no longer
    the latest returns early), [load_marked] after the read receipt was sent. *)

Record LoadOptions := {
  aroundMessageId : option Z; highlighted : option Z; background : bool;
}.

Record ConversationResponse := {
  summary : Summary; loaded : option (list LocalMessage); pins : option (list LocalMessage);
}.

(** [savedAtBottom] is the [atBottom] of the saved scroll position, if any. *)
Definition load_begin (o : LoadOptions) (savedAtBottom : option bool) (st : State) : Z * State :=
  let requestId := targetRequest st + 1 in
  let st := set_targetRequest requestId st in
  (requestId,
   if background o then st
   else set_shouldStickToBottom
          (negb (truthy_id (aroundMessageId o)) && default true savedAtBottom)
          (set_hasUnreadBelow false (set_targetLoading true st))).

Definition update_summaries (t : Target) (f : Summary → Summary) (st : State) : State :=
  match t with
  | Channel i => update_channels (map_key summary_id i f) st
  | Dm i => update_dms (map_key summary_id i f) st
  end.

Definition finish_loading (o : LoadOptions) (st : State) : State :=
  if background o then st else set_targetLoading false st.

Definition load_apply (requestId : Z) (t : Target) (markRead : bool) (o : LoadOptions)
    (res : option ConversationResponse) (st : State) : State * list effect :=
  if negb (requestId =? targetRequest st) then (st, []) else
  match res with
  | None => (finish_loading o st, [])
  | Some r =>
      let st := set_messages (sortChronologicalMessages (default [] (loaded r))) st in
      let st := set_pinnedMessages (sortPinnedMessages (default [] (pins r))) st in
      let st := update_summaries t (λ _, summary r) st in
      let st := set_highlightedMessageId
                  (if truthy_id (highlighted o) then highlighted o else None) st in
      if markRead && needsRead (summary r) then (st, [MarkRead t])
      else (finish_loading o st, [])
  end.

Definition load_marked (now : str) (t : Target) (o : LoadOptions) (st : State) : State :=
  finish_loading o (update_summaries t (mark_summary_read now) st).

(** ** Sending *)

Definition image_type (s : str) : bool := startsWith s (js "image/").

Definition optimistic_attachments (createObjectURL : Z → str) (tempId : Z)
    (l : list PendingAttachment) : list MessageAttachment :=
  imap (λ index a, {|
    attachment_id := tempId - Z.of_nat index - 1; filename := p_filename a;
    content_type := p_content_type a; byte_size := p_byte_size a;
    image := image_type (p_content_type a); url := Some (createObjectURL (file a)) |}) l.

Definition optimistic_message (user : Author) (t : Target) (threadRoot : option Z) (now : str)
    (tempId : Z) (submittedBody : str) (mentions : list Z) (files : list MessageAttachment)
    : LocalMessage := {|
  id := tempId;
  channel_id := match t with Channel i => Some i | Dm _ => None end;
  direct_conversation_id := match t with Dm i => Some i | Channel _ => None end;
  parent_message_id := if truthy_id threadRoot then threadRoot else None;
  body := submittedBody;
  mention_user_ids := mentions;
  edited_at := None; deleted_at := None; pinned_at := None; pinned_by_id := None;
  created_at := now; updated_at := now;
  mine := true; pending := Some true; failed := None; blocked := None;
  attachments := files; reactions := []; read_receipts := None; author := user |}.

(** [handleSend] up to its first [await]. The text is the editor's content after
    [normalizeMessageMarkdown], the mentions those [resolveMentionedUserIds]
    finds in it; [None] when the handler returns at its guards. *)
Definition send_begin (createObjectURL : Z → str) (user : option Author) (threadRoot : option Z)
    (now : str) (submittedBody : str) (mentions : list Z) (st : State)
    : option (LocalMessage * State) :=
  match selectedTarget st, user with
  | Some t, Some u =>
      let submitted := st.(composer).2 in
      if negb (truthy submittedBody) && (length submitted =? 0)%nat then None else
      let tempId := tempMessageId st - 1 in
      let st := set_tempMessageId tempId st in
      let urls := map (λ a, createObjectURL (file a)) submitted in
      let st := match urls with
                | [] => st
                | _ => set_optimisticUrls (<[tempId := urls]> (optimisticUrls st)) st end in
      let m := optimistic_message u t threadRoot now tempId submittedBody mentions
                 (optimistic_attachments createObjectURL tempId submitted) in
      let st := set_shouldStickToBottom true st in
      let st := update_messages (λ prev, sortChronologicalMessages (prev ++ [m])) st in
      let st := updateLatestForTarget now m true st in
      let st := set_composer ([], [], []) st in
      Some (m, set_error [] (set_sending true st))
  | _, _ => None
  end.

(** How the request ends: a response with an error or a message, or an exception. *)
Inductive send_outcome :=
| Responded (err : option str) (data : option LocalMessage)
| Threw (msg : str).

Definition send_failed (tempId : Z) (err : str) (st : State) : State :=
  update_messages (map_key id tempId mark_failed) (set_error err st).

Definition releaseOptimisticAttachmentUrls (i : Z) (st : State) : State * list effect :=
  match optimisticUrls st !! i with
  | None => (st, [])
  | Some urls => (set_optimisticUrls (delete i (optimisticUrls st)) st, [RevokeURLs urls])
  end.

Definition confirm_messages (tempId : Z) (m : LocalMessage) (prev : list LocalMessage)
    : list LocalMessage :=
  sortChronologicalMessages
    (List.filter (λ item, negb (id item =? tempId) && negb (id item =? id m)) prev ++ [m]).

Definition send_settle (now : str) (tempId : Z) (o : send_outcome) (st : State)
    : State * list effect :=
  let settled :=
    match o with
    | Responded err data =>
        if truthy_str err then (send_failed tempId (default [] err) st, []) else
        match data with
        | None => (st, [])
        | Some m =>
            let '(st, eff) := releaseOptimisticAttachmentUrls tempId st in
            (updateLatestForTarget now m true (update_messages (confirm_messages tempId m) st), eff)
        end
    | Threw msg => (send_failed tempId msg st, [])
    end in
  (set_sending false settled.1, settled.2).

(** ** Changes to one message *)

(** The response to an edit, a pin or a reaction replaces the message. *)
Definition replace_message (i : Z) (m : LocalMessage) (st : State) : State :=
  update_pins (λ prev, upsertPinnedMessage prev m)
    (update_messages (map_key id i (λ _, m)) st).

Definition saveEdit_done (i : Z) (err : option str) (data : option LocalMessage) (st : State)
    : State :=
  match data with
  | Some m => replace_message i m st
  | None => if truthy_str err then set_error (default [] err) st else st
  end.

Definition togglePin_done (i : Z) (data : option LocalMessage) (st : State) : State :=
  match data with Some m => replace_message i m st | None => st end.

(** Which request a reaction toggle makes. *)
Inductive reaction_request := React | Unreact.

Definition toggleReaction_request (m : LocalMessage) (e : str) : reaction_request :=
  match List.find (λ r, eqs (emoji r) e) (reactions m) with
  | Some r => if reacted r then Unreact else React
  | None => React
  end.

Definition deleteMessage_done (i : Z) (err : option str) (deleted_ok : bool) (st : State)
    : State * list effect :=
  if deleted_ok then
    let '(st, eff) := releaseOptimisticAttachmentUrls i st in
    (update_pins (without_key id i) (update_messages (without_key id i) st), eff)
  else (if truthy_str err then set_error (default [] err) st else st, []).

Definition blockMessageAuthor_done (author : Z) (blocked_ok : bool) (st : State) : State :=
  if blocked_ok
  then update_pins (map (hideAuthor author)) (update_messages (map (hideAuthor author)) st)
  else st.

Definition toggleMute_done (selectedMuted ok : bool) (st : State) : State :=
  match selectedTarget st with
  | Some t => if ok then update_summaries t (λ s, with_muted s (negb selectedMuted)) st else st
  | None => st
  end.

(** [selectTarget], the part that changes this state (the request that follows is
    [load_begin]). *)
Definition selectTarget (t : Target) (o : LoadOptions) (st : State) : State :=
  set_selectedTarget (Some t)
    (set_shouldStickToBottom (negb (truthy_id (aroundMessageId o))) (set_targetLoading true st)).

(** [selectWorkspace]: its first channel or direct conversation, or none. *)
Definition first_of_workspace (w : Z) (st : State) : option Target :=
  match List.find (λ x, workspace_id x =? w) (channels st),
        List.find (λ x, workspace_id x =? w) (directConversations st) with
  | Some c, _ => Some (Channel (summary_id c))
  | None, Some d => Some (Dm (summary_id d))
  | None, None => None
  end.

Definition selectWorkspace (w : Z) (st : State) : State :=
  match first_of_workspace w st with
  | Some t => selectTarget t {| aroundMessageId := None; highlighted := None; background := false |} st
  | None => set_pinnedMessages [] (set_messages [] (set_selectedTarget None st))
  end.

End Page.

(** ** The page as a transition system *)

Section Invariant.
Context (getTime : str → option Z).
Context (localeCompare : str → str → Z).
Context (createObjectURL : Z → str).

Inductive action :=
| Realtime (user : Author) (v : View) (now : str) (ev : ChannelMessageEvent)
| LoadBegin (o : LoadOptions) (savedAtBottom : option bool)
| LoadApply (req : Z) (t : Target) (markRead : bool) (o : LoadOptions)
    (res : option ConversationResponse)
| LoadMarked (now : str) (t : Target) (o : LoadOptions)
| SendBegin (user : option Author) (threadRoot : option Z) (now text : str) (mentions : list Z)
| SendSettle (now : str) (tempId : Z) (o : send_outcome)
| Edited (i : Z) (err : option str) (data : option LocalMessage)
| Pinned (i : Z) (data : option LocalMessage)
| Deleted (i : Z) (err : option str) (ok : bool)
| Blocked (author : Z) (ok : bool)
| Muted (selectedMuted ok : bool)
| WorkspaceRead (now : str) (workspace : Z)
| Selected (t : Target) (o : LoadOptions)
| WorkspaceSelected (w : Z).

Definition step (a : action) (st : State) : State :=
  match a with
  | Realtime user v now ev => (onRealtime getTime localeCompare user v now ev st).1
  | LoadBegin o saved => (load_begin o saved st).2
  | LoadApply req t markRead o res => (load_apply getTime req t markRead o res st).1
  | LoadMarked now t o => load_marked now t o st
  | SendBegin user root now text mentions =>
      match send_begin getTime createObjectURL user root now text mentions st with
      | Some (_, st') => st' | None => st end
  | SendSettle now tempId o => (send_settle getTime now tempId o st).1
  | Edited i err data => saveEdit_done getTime i err data st
  | Pinned i data => togglePin_done getTime i data st
  | Deleted i err ok => (deleteMessage_done i err ok st).1
  | Blocked author ok => blockMessageAuthor_done author ok st
  | Muted m ok => toggleMute_done m ok st
  | WorkspaceRead now w => (markWorkspaceRead now w st).1
  | Selected t o => selectTarget t o st
  | WorkspaceSelected w => selectWorkspace w st
  end.

Definition dated (m : LocalMessage) : Prop := is_Some (getTime (created_at m)).

Lemma chronological_lex x y :
  dated x → dated y →
  chronological getTime x y
  = lex_cmp (default 0 (getTime (created_at x)) - default 0 (getTime (created_at y))) (id x - id y).
Proof. unfold chronological. intros [a ->] [b ->]. done. Qed.

#[local] Instance message_timeline : Timeline LocalMessage := {|
  key := id; order := chronological getTime; valid := dated;
  order_ok :=
    lex_cmp_consistent _ (λ m, default 0 (getTime (created_at m))) id _ chronological_lex;
|}.

(** A message as the server sends it: a positive identifier, a readable date. *)
Definition from_server (m : LocalMessage) : Prop := 0 < id m ∧ dated m.

(** A newer copy of a message the page may hold. *)
Definition newer_copy (s : gmap Z LocalMessage) (i : Z) (m : LocalMessage) : Prop :=
  from_server m ∧ id m = i ∧ ∀ old, s !! i = Some old → created_at old = created_at m.

(** What the page relies on the server and the clock for. *)
Definition trusted (st : State) (a : action) : Prop :=
  let s := to_map (messages st) in
  match a with
  | Realtime user v now ev => newer_copy s (id (message ev)) (message ev)
  | LoadApply req t markRead o (Some r) =>
      NoDup (map id (default [] (loaded r))) ∧ Forall from_server (default [] (loaded r))
  | SendBegin user root now text mentions => is_Some (getTime now)
  | SendSettle now tempId (Responded err (Some m)) => from_server m
  | Edited i _ (Some m) | Pinned i (Some m) => newer_copy s i m
  | _ => True
  end.

(** The messages shown, as a map from identifiers, after an action. *)
Definition spec_step (st : State) (a : action) (s : gmap Z LocalMessage)
    : gmap Z LocalMessage :=
  match a with
  | Realtime user v now ev =>
      if belongsToTarget (selectedTarget st) ev then
        let m := with_mine (message ev)
          (default (author_id (author (message ev)) =? author_id user) (event_mine ev)) in
        match event ev with
        | deleted => delete (id m) s
        | _ => <[id m := match s !! id m with
                         | Some old => mergeIncomingMessage old m | None => m end]> s
        end
      else s
  | LoadApply req t markRead o (Some r) =>
      if req =? targetRequest st then to_map (default [] (loaded r)) else s
  | SendBegin user root now text mentions =>
      match send_begin getTime createObjectURL user root now text mentions st with
      | Some (m, _) => <[id m := m]> s | None => s end
  | SendSettle now tempId (Threw _) => alter mark_failed tempId s
  | SendSettle now tempId (Responded err data) =>
      if truthy_str err then alter mark_failed tempId s
      else match data with Some m => <[id m := m]> (delete tempId s) | None => s end
  | Edited i _ (Some m) | Pinned i (Some m) => alter (λ _, m) i s
  | Deleted i err true => delete i s
  | Blocked author true => hideAuthor author <$> s
  | WorkspaceSelected w => match first_of_workspace w st with Some _ => s | None => ∅ end
  | _ => s
  end.

Definition Inv (st : State) : Prop :=
  wf (messages st) ∧ tempMessageId st <= 0 ∧ Forall (λ m, tempMessageId st <= id m) (messages st).

(** *** Lemmas *)

Lemma messages_updateLatest now m b st :
  messages (updateLatestForTarget now m b st) = messages st
  ∧ tempMessageId (updateLatestForTarget now m b st) = tempMessageId st.
Proof.
  unfold updateLatestForTarget.
  destruct (channel_id m) as [c|]; [destruct (c =? 0)|];
    (destruct (direct_conversation_id m) as [d|]; [destruct (d =? 0)|]); done.
Qed.

Lemma messages_updateSummary now ev m b st :
  messages (updateTargetSummaryFromEvent localeCompare now ev m b st) = messages st
  ∧ tempMessageId (updateTargetSummaryFromEvent localeCompare now ev m b st) = tempMessageId st.
Proof.
  unfold updateTargetSummaryFromEvent.
  destruct (event_channel ev), (event_direct_conversation ev), (event ev);
    try done; apply messages_updateLatest.
Qed.

Lemma messages_update_summaries t f st :
  messages (update_summaries t f st) = messages st
  ∧ tempMessageId (update_summaries t f st) = tempMessageId st.
Proof. by destruct t. Qed.

Lemma messages_finish o st :
  messages (finish_loading o st) = messages st
  ∧ tempMessageId (finish_loading o st) = tempMessageId st.
Proof. unfold finish_loading. by destruct (background o). Qed.

(** The bound on identifiers is the map's too. *)
Lemma ids_bound (b : Z) l :
  NoDup (map id l) →
  (Forall (λ m, b <= id m) l ↔ ∀ i m, to_map l !! i = Some m → b <= i).
Proof.
  intros N. rewrite Forall_forall. split.
  - intros F i m [Hm <-]%to_map_lookup; auto.
  - intros F m Hm. apply (F (id m) m). by apply to_map_lookup.
Qed.

(** What each action does to the messages and the counter is an [implements]. *)
Lemma Inv_of_map st st' (s : gmap Z LocalMessage) :
  Inv st → wf (messages st') → to_map (messages st') = s →
  tempMessageId st' <= tempMessageId st →
  (∀ i m, s !! i = Some m → tempMessageId st' <= i ∨ is_Some (to_map (messages st) !! i)) →
  Inv st'.
Proof.
  intros (W & T & F) W' M' T' H. split_and!; [done|lia|].
  apply ids_bound; [apply W'|]. rewrite M'. intros i m Hm.
  destruct (H i m Hm) as [?|[x Hx]]; [lia|]. apply ids_bound with (i := i) (m := x) in F; [lia|apply W|done].
Qed.

Lemma merge_same_place x m :
  id x = id m → created_at x = created_at m → dated m →
  same_place x (mergeIncomingMessage x m).
Proof.
  intros Hi Hc Hd. split_and!; [simpl; congruence|done|]. intros z.
  unfold order, message_timeline, chronological. simpl. by rewrite Hi, Hc.
Qed.

(** A list that is in order already is not changed by sorting it. *)
Lemma sort_sorted l : wf l → sortChronologicalMessages getTime l = l.
Proof.
  intros (N & F & S). apply (js_sort_id _ dated); [|done|done].
  intros x y Hx Hy. rewrite !chronological_lex by done. unfold lex_cmp.
  repeat case_match; lia.
Qed.

Lemma realtime_implements k m l :
  wf l → dated m → (∀ old, to_map l !! id m = Some old → created_at old = created_at m) →
  implements (realtime_messages getTime k m)
    (λ s, match k with
          | deleted => delete (id m) s
          | _ => <[id m := match s !! id m with
                           | Some old => mergeIncomingMessage old m | None => m end]> s
          end) l.
Proof.
  intros W Hd Hc.
  assert (U : implements (λ l, if existsb (λ item, id item =? id m) l
      then sortChronologicalMessages getTime
             (map_key id (id m) (λ item, mergeIncomingMessage item m) l)
      else sortChronologicalMessages getTime (l ++ [m]))
    (λ s, <[id m := match s !! id m with
                    | Some old => mergeIncomingMessage old m | None => m end]> s) l).
  { unfold implements. destruct (existsb _ l) eqn:E.
    - apply existsb_key in E.
      destruct (map_key_implements (id m) (λ item, mergeIncomingMessage item m) l W) as [W' M'].
      { intros x Hx Hi. apply merge_same_place; [done| |done]. apply Hc.
        apply to_map_lookup; [apply W|done]. }
      rewrite sort_sorted by done. split; [done|]. etransitivity; [exact M'|].
      destruct (to_map l !! id m) as [old|] eqn:L; [|by apply to_map_None in L].
      by rewrite <- (insert_id _ _ _ L) at 1; rewrite alter_insert_eq.
    - assert (Hn : id m ∉ map id l) by (intros Hin%existsb_key; congruence).
      pose proof (proj2 (to_map_None l (id m)) Hn) as L. rewrite L. exact (append_fresh l m W Hd Hn). }
  destruct k; [exact U|exact U|exact (without_implements (id m) l W)].
Qed.

Lemma hide_implements a l : wf l → implements (map (hideAuthor a)) (fmap (hideAuthor a)) l.
Proof.
  intros (N & F & S).
  assert (K : ∀ x, id (hideAuthor a x) = id x ∧ created_at (hideAuthor a x) = created_at x)
    by (intros x; unfold hideAuthor; by destruct (_ =? _)).
  split; [split_and!|].
  - rewrite map_map. erewrite map_ext; [exact N|]. intros x. apply K.
  - apply Forall_fmap. eapply Forall_impl; [exact F|]. intros x Hx.
    change (dated (hideAuthor a x)). unfold dated. by rewrite (proj2 (K x)).
  - clear N F. induction S as [|x l S IH Fx]; [constructor|]. simpl. constructor; [done|].
    rewrite Forall_forall in Fx |- *. intros y (z & -> & Hz)%list_elem_of_fmap.
    specialize (Fx z Hz). unfold order, message_timeline, chronological in *.
    destruct (K x) as [-> ->], (K z) as [-> ->]. done.
  - clear N F S. induction l as [|x l IH]; simpl; [symmetry; apply fmap_empty|].
    rewrite !to_map_cons, IH, fmap_insert. simpl. by rewrite (proj1 (K x)).
Qed.

Lemma failed_implements i l : wf l → implements (map_key id i mark_failed) (alter mark_failed i) l.
Proof.
  intros W. apply (map_key_implements i mark_failed l W). intros x Hx Hi. by split_and!.
Qed.

Lemma replaced_implements i m l :
  wf l → newer_copy (to_map l) i m → implements (map_key id i (λ _, m)) (alter (λ _, m) i) l.
Proof.
  intros W ((Hp & Hd) & Hi & Hc). apply (map_key_implements i (λ _, m) l W).
  intros x Hx Hxi. assert (Ec : created_at x = created_at m).
  { apply Hc, to_map_lookup; [apply W|done]. }
  unfold key, message_timeline in Hxi. split_and!; [simpl; congruence|done|]. intros z.
  unfold order, message_timeline, chronological. by rewrite Ec, Hi, <- Hxi.
Qed.

(** The effect of an action on the fields the invariant is about. *)
Definition refines (st : State) (a : action) : Prop :=
  let st' := step a st in
  wf (messages st') ∧ to_map (messages st') = spec_step st a (to_map (messages st)).

Lemma send_begin_spec user root now text mentions st m st' :
  send_begin getTime createObjectURL user root now text mentions st = Some (m, st') →
  id m = tempMessageId st - 1 ∧ created_at m = now ∧ tempMessageId st' = tempMessageId st - 1
  ∧ messages st' = sortChronologicalMessages getTime (messages st ++ [m]).
Proof.
  unfold send_begin. destruct (selectedTarget st) as [t|]; [|done]. destruct user as [u|]; [|done].
  destruct (negb (truthy text) && _); [done|]. intros [= <- <-].
  cbn [messages tempMessageId set_error set_sending set_composer].
  rewrite !(proj1 (messages_updateLatest _ _ _ _)), !(proj2 (messages_updateLatest _ _ _ _)).
  by destruct (map _ _).
Qed.

Lemma release_messages i st :
  messages (releaseOptimisticAttachmentUrls i st).1 = messages st
  ∧ tempMessageId (releaseOptimisticAttachmentUrls i st).1 = tempMessageId st.
Proof. unfold releaseOptimisticAttachmentUrls. by destruct (optimisticUrls st !! i). Qed.

Lemma realtime_fields user v now ev st :
  let st' := step (Realtime user v now ev) st in
  let m := with_mine (message ev)
    (default (author_id (author (message ev)) =? author_id user) (event_mine ev)) in
  tempMessageId st' = tempMessageId st
  ∧ messages st' = if belongsToTarget (selectedTarget st) ev
                   then realtime_messages getTime (event ev) m (messages st) else messages st.
Proof.
  unfold step, onRealtime. set (m := with_mine _ _). set (b := mine m || _).
  pose proof (messages_updateSummary now ev m b st) as [E1 E2].
  set (st1 := updateTargetSummaryFromEvent _ _ _ _ _ _) in *.
  destruct (belongsToTarget _ ev); simpl; [|done].
  destruct (shouldStickToBottom st1 && _);
    (match goal with |- context [if ?c then set_hasUnreadBelow _ _ else _] => destruct c end);
    simpl; by rewrite ?E1, ?E2.
Qed.

Lemma settle_fields now tempId o st :
  let st' := step (SendSettle now tempId o) st in
  tempMessageId st' = tempMessageId st
  ∧ messages st' = match o with
                   | Threw _ => map_key id tempId mark_failed (messages st)
                   | Responded err data =>
                       if truthy_str err then map_key id tempId mark_failed (messages st)
                       else match data with
                            | Some m => confirm_messages getTime tempId m (messages st)
                            | None => messages st end
                   end.
Proof.
  unfold step, send_settle. destruct o as [err data|msg]; [|done].
  destruct (truthy_str err); [done|]. destruct data as [m|]; [|done].
  pose proof (release_messages tempId st) as [E1 E2].
  destruct (releaseOptimisticAttachmentUrls tempId st) as [st1 eff]. simpl in E1, E2.
  cbn [fst messages tempMessageId set_sending].
  rewrite (proj1 (messages_updateLatest _ _ _ _)), (proj2 (messages_updateLatest _ _ _ _)).
  simpl. by rewrite E1.
Qed.

Lemma load_fields req t mr o res st :
  let st' := step (LoadApply req t mr o res) st in
  tempMessageId st' = tempMessageId st
  ∧ messages st' = match res with
                   | Some r => if req =? targetRequest st
                               then sortChronologicalMessages getTime (default [] (loaded r))
                               else messages st
                   | None => messages st end.
Proof.
  unfold step, load_apply. destruct (req =? targetRequest st); simpl; [|by destruct res].
  destruct res as [r|]; simpl.
  - destruct (mr && _); simpl;
      rewrite ?(proj1 (messages_finish _ _)), ?(proj2 (messages_finish _ _));
      simpl; by destruct t.
  - by rewrite (proj1 (messages_finish _ _)), (proj2 (messages_finish _ _)).
Qed.

Lemma delete_fields i err ok st :
  let st' := step (Deleted i err ok) st in
  tempMessageId st' = tempMessageId st
  ∧ messages st' = if ok then without_key id i (messages st) else messages st.
Proof.
  unfold step, deleteMessage_done. destruct ok; [|by destruct (truthy_str err)].
  pose proof (release_messages i st) as [E1 E2].
  destruct (releaseOptimisticAttachmentUrls i st) as [st1 eff]. simpl in *. by rewrite E1.
Qed.

Lemma other_fields a st :
  match a with
  | LoadBegin _ _ | LoadMarked _ _ _ | Muted _ _ | WorkspaceRead _ _ | Selected _ _ => True
  | _ => False end →
  tempMessageId (step a st) = tempMessageId st ∧ messages (step a st) = messages st.
Proof.
  destruct a; intros []; unfold step.
  - unfold load_begin. simpl. by destruct (background o).
  - unfold load_marked.
    rewrite (proj1 (messages_finish _ _)), (proj2 (messages_finish _ _)). by destruct t.
  - unfold toggleMute_done. destruct (selectedTarget st) as [[]|], ok; done.
  - unfold markWorkspaceRead. by destruct (List.filter _ (channels st)), (List.filter _ (directConversations st)).
  - done.
Qed.

Lemma with_mine_copy s b m i : newer_copy s i m → newer_copy s i (with_mine m b).
Proof. done. Qed.

Lemma step_refines a st : Inv st → trusted st a → refines st a.
Proof.
  intros (W & T & F) Ha. unfold refines.
  destruct a as [user v now ev|o sv|req t mr o res|now t o|user root now text ms
                |now tempId o|i err data|i data|i err ok|author ok|sm ok|now w|t o|w].
  - rewrite (proj2 (realtime_fields user v now ev st)). unfold spec_step.
    destruct (belongsToTarget _ ev); [|done].
    destruct Ha as ((_ & Hd) & _ & Hc). by apply realtime_implements.
  - by rewrite (proj2 (other_fields (LoadBegin o sv) st I)).
  - rewrite (proj2 (load_fields req t mr o res st)). unfold spec_step.
    destruct res as [r|]; [|done]. destruct (req =? targetRequest st); [|done].
    destruct Ha as [N Fr].
    assert (W' : wf (sortChronologicalMessages getTime (default [] (loaded r)))).
    { refine (wf_sort (default [] (loaded r)) (default [] (loaded r)) N _ (Permutation_refl _)).
      eapply Forall_impl; [exact Fr|]. by intros x []. }
    split; [done|]. apply to_map_perm; [apply W'|apply js_sort_perm].
  - by rewrite (proj2 (other_fields (LoadMarked now t o) st I)).
  - unfold step, spec_step.
    destruct (send_begin _ _ _ _ _ _ _ _) as [[m st']|] eqn:E; [|done].
    apply send_begin_spec in E as (Hi & Hc & _ & ->).
    apply (append_fresh (messages st) m W).
    + change (dated m). unfold dated. by rewrite Hc.
    + intros (x & Hx & Hin)%list_elem_of_fmap. rewrite Forall_forall in F.
      specialize (F x Hin). change (id m = id x) in Hx. lia.
  - rewrite (proj2 (settle_fields now tempId o st)). unfold spec_step.
    destruct o as [err data|msg]; [|by apply failed_implements].
    destruct (truthy_str err); [by apply failed_implements|].
    destruct data as [m|]; [|done]. destruct Ha as [_ Hd].
    exact (replace_append (messages st) tempId m W Hd).
  - unfold step, saveEdit_done, spec_step. destruct data as [m|]; [|by destruct (truthy_str err)].
    by apply replaced_implements.
  - unfold step, togglePin_done, spec_step. destruct data as [m|]; [|done].
    by apply replaced_implements.
  - rewrite (proj2 (delete_fields i err ok st)). unfold spec_step.
    destruct ok; [|done]. exact (without_implements i (messages st) W).
  - unfold step, blockMessageAuthor_done, spec_step. destruct ok; [|done].
    by apply hide_implements.
  - by rewrite (proj2 (other_fields (Muted sm ok) st I)).
  - by rewrite (proj2 (other_fields (WorkspaceRead now w) st I)).
  - done.
  - unfold step, selectWorkspace, spec_step. destruct (first_of_workspace w st); [done|].
    split; [|done]. change (wf []). by split_and!; constructor.
Qed.

(** Identifiers stay at or above the counter of the optimistic ones. *)
Lemma step_counter a st :
  tempMessageId (step a st) <= tempMessageId st.
Proof.
  destruct a as [user v now ev|o sv|req t mr o res|now t o|user root now text ms
                |now tempId o|i err data|i data|i err ok|author ok|sm ok|now w|t o|w].
  - by rewrite (proj1 (realtime_fields user v now ev st)).
  - by rewrite (proj1 (other_fields (LoadBegin o sv) st I)).
  - by rewrite (proj1 (load_fields req t mr o res st)).
  - by rewrite (proj1 (other_fields (LoadMarked now t o) st I)).
  - unfold step. destruct (send_begin _ _ _ _ _ _ _ _) as [[m st']|] eqn:E; [|lia].
    apply send_begin_spec in E as (_ & _ & -> & _). lia.
  - by rewrite (proj1 (settle_fields now tempId o st)).
  - unfold step, saveEdit_done. by destruct data, (truthy_str err).
  - unfold step, togglePin_done. by destruct data.
  - by rewrite (proj1 (delete_fields i err ok st)).
  - unfold step, blockMessageAuthor_done. by destruct ok.
  - by rewrite (proj1 (other_fields (Muted sm ok) st I)).
  - by rewrite (proj1 (other_fields (WorkspaceRead now w) st I)).
  - done.
  - unfold step, selectWorkspace. by destruct (first_of_workspace w st).
Qed.

(** Every message shown after an action was shown before it, is the server's, or
    is the optimistic one the action adds. *)
Lemma step_ids a st i m :
  Inv st → trusted st a →
  spec_step st a (to_map (messages st)) !! i = Some m →
  tempMessageId (step a st) <= i ∨ is_Some (to_map (messages st) !! i).
Proof.
  intros (W & T & F) Ha. pose proof (step_counter a st) as C.
  assert (P : ∀ j, 0 < j → tempMessageId (step a st) <= j) by lia.
  assert (A : ∀ f j, alter f j (to_map (messages st)) !! i = Some m →
    is_Some (to_map (messages st) !! i)).
  { intros f j H. rewrite lookup_alter in H. case_decide; [|by eexists].
    subst. by destruct (to_map (messages st) !! i). }
  destruct a as [user v now ev|o sv|req t mr o res|now t o|user root now text ms
                |now tempId o|j err data|j data|j err ok|author ok|sm ok|now w|t o|w];
    unfold spec_step; try (intros H; right; by exists m).
  - destruct (belongsToTarget _ ev); [|intros H; right; by exists m].
    destruct Ha as ((Hp & _) & _). simpl. destruct (event ev).
    + intros [[<- _]|[_ H]]%lookup_insert_Some; [left; by apply P|right; by exists m].
    + intros [[<- _]|[_ H]]%lookup_insert_Some; [left; by apply P|right; by exists m].
    + intros [_ H]%lookup_delete_Some. right. by exists m.
  - destruct res as [r|]; [|intros H; right; by exists m].
    destruct (_ =? _); [|intros H; right; by exists m]. destruct Ha as [N Fr].
    intros [Hm <-]%to_map_lookup; [|done]. left. apply P.
    rewrite Forall_forall in Fr. by apply Fr.
  - unfold step in *. destruct (send_begin _ _ _ _ _ _ _ _) as [[x st']|] eqn:E;
      [|intros H; right; by exists m].
    apply send_begin_spec in E as (Hi & _ & Ht & _).
    intros [[<- _]|[_ H]]%lookup_insert_Some; [left; lia|right; by exists m].
  - destruct o as [err data|msg]; [|intros H%A; by right].
    destruct (truthy_str err); [intros H%A; by right|].
    destruct data as [x|]; [|intros H; right; by exists m]. destruct Ha as [Hp _].
    intros [[<- _]|[_ [_ H]%lookup_delete_Some]]%lookup_insert_Some;
      [left; by apply P|right; by exists m].
  - destruct data; [intros H%A; by right|intros H; right; by exists m].
  - destruct data; [intros H%A; by right|intros H; right; by exists m].
  - destruct ok; [|intros H; right; by exists m].
    intros [_ H]%lookup_delete_Some. right. by exists m.
  - destruct ok; [|intros H; right; by exists m].
    rewrite lookup_fmap. intros (x & -> & _)%fmap_Some. right. by eexists.
  - destruct (first_of_workspace w st); [intros H; right; by exists m|by intros ?%lookup_empty_Some].
Qed.

Lemma step_Inv a st : Inv st → trusted st a → Inv (step a st).
Proof.
  intros HI Ha. destruct (step_refines a st HI Ha) as [W' M'].
  eapply Inv_of_map; [exact HI|exact W'|exact M'|apply step_counter|].
  intros i m. by apply step_ids.
Qed.

(** The states the page can be in: it opens with no messages. *)
Inductive reachable : State → Prop :=
| reachable_open st : messages st = [] → tempMessageId st = 0 → reachable st
| reachable_step st a : reachable st → trusted st a → reachable (step a st).

Lemma reachable_Inv st : reachable st → Inv st.
Proof.
  induction 1 as [st E T|st a _ IH Ha]; [|by apply step_Inv].
  unfold Inv. rewrite E, T. split_and!; [split_and!; constructor|done|constructor].
Qed.

(** C1: In every state the web messages page can reach, the conversation shows
    each message once and in chronological order, and every handler (a realtime
    event, a loaded or stale response, an optimistic send and its outcome, an
    edit, a pin, a reaction, a deletion, a block, a selected workspace) changes the set of
    messages shown exactly as its specification on a map from identifiers says. ([trusted]:
    what the server sends has readable dates and positive identifiers, each once in a loaded
    list, and a newer copy of a message has its date.) *)
Theorem web_conversation_refines (st : State) (a : action) :
  reachable st → trusted st a →
  wf (messages st)
  ∧ to_map (messages (step a st)) = spec_step st a (to_map (messages st)).
Proof.
  intros R Ha. pose proof (reachable_Inv st R) as HI.
  split; [apply HI|by apply step_refines].
Qed.

End Invariant.

(** ** Stale responses *)

Section StaleResponses.
Context (getTime : str → option Z).

Record Reply := {
  request : Z; reply_target : Target; reply_mark : bool; reply_options : LoadOptions;
  response : option ConversationResponse;
}.

Definition receive (st : State) (r : Reply) : State :=
  (load_apply getTime (request r) (reply_target r) (reply_mark r) (reply_options r)
     (response r) st).1.

Lemma receive_request st r : targetRequest (receive st r) = targetRequest st.
Proof.
  unfold receive, load_apply, finish_loading.
  destruct (request r =? targetRequest st); [|done]. destruct (response r) as [x|]; simpl.
  - destruct (reply_mark r && _), (background (reply_options r)), (reply_target r); done.
  - by destruct (background (reply_options r)).
Qed.

Lemma receive_messages st r :
  messages (receive st r) =
  match response r with
  | Some x => if request r =? targetRequest st
              then sortChronologicalMessages getTime (default [] (loaded x)) else messages st
  | None => messages st
  end.
Proof.
  unfold receive, load_apply, finish_loading.
  destruct (request r =? targetRequest st); [|by destruct (response r)].
  destruct (response r) as [x|]; simpl; [|by destruct (background (reply_options r))].
  destruct (reply_mark r && _), (background (reply_options r)), (reply_target r); done.
Qed.

Lemma receive_stale st rs :
  Forall (λ r, request r ≠ targetRequest st) rs →
  messages (foldl receive st rs) = messages st.
Proof.
  revert st. induction rs as [|r rs IH]; intros st F; [done|].
  apply Forall_cons in F as [Hr F]. simpl. rewrite IH.
  - rewrite receive_messages, (proj2 (Z.eqb_neq _ _) Hr). by destruct (response r).
  - by rewrite receive_request.
Qed.

(** C25: When the user opens several conversations before the first has loaded,
    the responses may arrive in any order: the requests have different numbers, and once
    a successful response to the latest request is among them, the page shows that
    conversation, sorted, and none of the others. *)
Theorem latest_request_wins (st : State) (rs : list Reply) (r : Reply) (x : ConversationResponse) :
  NoDup (map request rs) → r ∈ rs → request r = targetRequest st → response r = Some x →
  messages (foldl receive st rs) = sortChronologicalMessages getTime (default [] (loaded x)).
Proof.
  revert st. induction rs as [|y rs IH]; intros st N Hin Hr Hx; [by apply not_elem_of_nil in Hin|].
  apply NoDup_cons in N as [Hy N]. simpl. apply elem_of_cons in Hin as [->|Hin].
  - rewrite receive_stale.
    + by rewrite receive_messages, Hx, Hr, Z.eqb_refl.
    + rewrite receive_request. apply Forall_forall. intros z Hz E. apply Hy.
      apply list_elem_of_fmap. exists z. split; [congruence|done].
  - apply IH; [done|done|by rewrite receive_request|done].
Qed.

End StaleResponses.

(** ** Threads *)

Section Threads.
Context (getTime : str → option Z).

(** [new Map(messages.map((message) => [message.id, message]))] *)
Definition messagesById (l : list LocalMessage) : gmap Z LocalMessage :=
  foldl (λ acc m, <[id m := m]> acc) ∅ l.

(** The loop of [rootMessageIdFor]; [None] when it has not ended within the fuel. *)
Fixpoint root_walk (fuel : nat) (byId : gmap Z LocalMessage) (current : option LocalMessage)
    : option (option LocalMessage) :=
  match fuel with
  | O => None
  | S fuel =>
      match current with
      | Some m => match parent_message_id m with
                  | Some p => if p =? 0 then Some (Some m) else root_walk fuel byId (byId !! p)
                  | None => Some (Some m)
                  end
      | None => Some None
      end
  end.

Definition root_id (m : LocalMessage) (found : option LocalMessage) : Z :=
  match found with Some c => if id c =? 0 then id m else id c | None => id m end.

Definition rootMessageIdFor (fuel : nat) (m : LocalMessage) (byId : gmap Z LocalMessage)
    : option Z :=
  root_id m <$> root_walk fuel byId (Some m).

Definition by_time (a b : LocalMessage) : Z :=
  match getTime (created_at a), getTime (created_at b) with
  | Some x, Some y => x - y | _, _ => 0 end.

Definition add_reply (fuel : nat) (byId : gmap Z LocalMessage)
    (acc : option (gmap Z (list LocalMessage))) (m : LocalMessage)
    : option (gmap Z (list LocalMessage)) :=
  replies ← acc;
  if truthy_id (parent_message_id m) then
    rootId ← rootMessageIdFor fuel m byId;
    Some (<[rootId := default [] (replies !! rootId) ++ [m]]> replies)
  else Some replies.

Definition threadReplies (fuel : nat) (l : list LocalMessage)
    : option (gmap Z (list LocalMessage)) :=
  match foldl (add_reply fuel (messagesById l)) (Some ∅) l with
  | Some replies => Some (js_sort by_time <$> replies)
  | None => None
  end.

Definition rootMessages (l : list LocalMessage) : list LocalMessage :=
  List.filter (λ m, negb (truthy_id (parent_message_id m))) l.

(** Following parents from [m] ends at a message without one, or at a parent that
    is not loaded. *)
Inductive chain (byId : gmap Z LocalMessage) : LocalMessage → option LocalMessage → Prop :=
| chain_root m : truthy_id (parent_message_id m) = false → chain byId m (Some m)
| chain_lost m p :
    parent_message_id m = Some p → p ≠ 0 → byId !! p = None → chain byId m None
| chain_up m p q r :
    parent_message_id m = Some p → p ≠ 0 → byId !! p = Some q →
    chain byId q r → chain byId m r.

Lemma chain_walk byId m r :
  chain byId m r → ∃ n, ∀ fuel, (n <= fuel)%nat → root_walk fuel byId (Some m) = Some r.
Proof.
  induction 1 as [m Hm|m p Hp H0 Hl|m p q r Hp H0 Hl _ [n IH]].
  - exists 1%nat. intros [|f] Hf; [lia|]. simpl. unfold truthy_id in Hm.
    destruct (parent_message_id m) as [p|]; [|done]. by destruct (p =? 0).
  - exists 2%nat. intros [|[|f]] Hf; [lia..|]. simpl.
    rewrite Hp, (proj2 (Z.eqb_neq _ _) H0), Hl. done.
  - exists (S n). intros [|f] Hf; [lia|]. simpl.
    rewrite Hp, (proj2 (Z.eqb_neq _ _) H0), Hl. apply IH. lia.
Qed.

(** No message is its own ancestor. *)
Definition acyclic (byId : gmap Z LocalMessage) : Prop :=
  ∃ rank : Z → nat, ∀ i m p q,
    byId !! i = Some m → parent_message_id m = Some p → p ≠ 0 → byId !! p = Some q →
    (rank p < rank i)%nat.

Lemma chain_exists byId i m : acyclic byId → byId !! i = Some m → ∃ r, chain byId m r.
Proof.
  intros [rank Hr]. remember (rank i) as n eqn:En. revert i m En.
  induction (lt_wf n) as [n _ IH]. intros i m -> Hm.
  destruct (truthy_id (parent_message_id m)) eqn:T; [|exists (Some m); by constructor].
  unfold truthy_id in T. destruct (parent_message_id m) as [p|] eqn:Hp; [|done].
  apply negb_true_iff, Z.eqb_neq in T. destruct (byId !! p) as [q|] eqn:Hq.
  - destruct (IH (rank p) (Hr i m p q Hm Hp T Hq) p q eq_refl Hq) as [r Hc].
    exists r. by eapply chain_up.
  - exists None. by eapply chain_lost.
Qed.

Lemma messagesById_lookup l (acc : gmap Z LocalMessage) i :
  i ∉ map id l → foldl (λ acc m, <[id m := m]> acc) acc l !! i = acc !! i.
Proof.
  revert acc. induction l as [|x l IH]; intros acc; [done|]. simpl.
  intros [Hx Hl]%not_elem_of_cons. by rewrite IH, lookup_insert_ne.
Qed.

Lemma messagesById_elem l m : NoDup (map id l) → m ∈ l → messagesById l !! id m = Some m.
Proof.
  unfold messagesById. generalize (∅ : gmap Z LocalMessage).
  induction l as [|x l IH]; intros acc; simpl; [by intros _ ?%not_elem_of_nil|].
  intros [Hx N]%NoDup_cons [->|Hm]%elem_of_cons; [|by apply IH].
  by rewrite messagesById_lookup, lookup_insert_eq.
Qed.

(** Enough fuel for every message of a list. *)
Lemma walks_fuel byId (l : list LocalMessage) :
  (∀ m, m ∈ l → ∃ r, chain byId m r) →
  ∃ n, ∀ fuel, (n <= fuel)%nat → ∀ m c, m ∈ l → chain byId m c →
    root_walk fuel byId (Some m) = Some c.
Proof.
  induction l as [|x l IH]; intros H; [exists O; by intros ? ? ? ? ?%not_elem_of_nil|].
  destruct IH as [n Hn]; [intros m Hm; apply H; by right|].
  destruct (H x ltac:(by left)) as [r Hr]. destruct (chain_walk _ _ _ Hr) as [k Hk].
  exists (n `max` k)%nat. intros fuel Hf m c [->|Hm]%elem_of_cons Hc; [|apply Hn; [lia|done..]].
  destruct (chain_walk _ _ _ Hc) as [k' Hk'].
  rewrite <- (Hk' (fuel `max` k')%nat) by lia. rewrite (Hk fuel), (Hk (fuel `max` k')%nat) by lia.
  done.
Qed.

Lemma fold_replies fuel byId (root : LocalMessage → Z) l (acc : gmap Z (list LocalMessage)) :
  (∀ m, m ∈ l → rootMessageIdFor fuel m byId = Some (root m)) →
  ∃ T, foldl (add_reply fuel byId) (Some acc) l = Some T
  ∧ ∀ r, default [] (T !! r) = default [] (acc !! r) ++
      List.filter (λ m, truthy_id (parent_message_id m) && (root m =? r)) l.
Proof.
  revert acc. induction l as [|m l IH]; intros acc H; simpl.
  { exists acc. split; [done|]. intros r. by rewrite app_nil_r. }
  assert (H' : ∀ x, x ∈ l → rootMessageIdFor fuel x byId = Some (root x))
    by (intros x Hx; apply H; by right).
  destruct (truthy_id (parent_message_id m)) eqn:E; simpl; [|apply IH, H'].
  rewrite (H m) by (by left). simpl.
  destruct (IH (<[root m := default [] (acc !! root m) ++ [m]]> acc) H') as (T & HT & Hr).
  exists T. split; [done|]. intros r. rewrite Hr.
  destruct (Z.eqb_spec (root m) r) as [<-|Hne].
  - rewrite lookup_insert_eq. simpl. by rewrite <- (assoc_L (++)).
  - by rewrite lookup_insert_ne.
Qed.

Lemma by_time_consistent : cmp_consistent by_time (dated getTime).
Proof.
  unfold by_time, dated. split.
  - intros x y z [a Ha] [b Hb] [c Hc]. rewrite Ha, Hb, Hc. lia.
  - intros x y [a Ha] [b Hb]. rewrite Ha, Hb. lia.
Qed.

(** The replies of each thread, when no message is its own ancestor. *)
Lemma threads_lookup l :
  NoDup (map id l) → acyclic (messagesById l) →
  ∃ n T, (∀ fuel, (n <= fuel)%nat → ∃ R, threadReplies fuel l = Some R
    ∧ ∀ r, default [] (R !! r) = js_sort by_time (T r))
  ∧ ∀ r, T r = List.filter (λ m, truthy_id (parent_message_id m) &&
      (default 0 (rootMessageIdFor n m (messagesById l)) =? r)) l
  ∧ ∀ m c, m ∈ l → chain (messagesById l) m c →
      rootMessageIdFor n m (messagesById l) = Some (root_id m c).
Proof.
  intros N A. set (byId := messagesById l).
  assert (C : ∀ m, m ∈ l → ∃ c, chain byId m c).
  { intros m Hm. eapply chain_exists; [done|]. by apply messagesById_elem. }
  destruct (walks_fuel byId l C) as [n Hn].
  assert (R : ∀ fuel m c, (n <= fuel)%nat → m ∈ l → chain byId m c →
    rootMessageIdFor fuel m byId = Some (root_id m c)).
  { intros fuel m c Hf Hm Hc. unfold rootMessageIdFor. by rewrite (Hn fuel Hf m c Hm Hc). }
  set (root m := default 0 (rootMessageIdFor n m byId)).
  exists n, (λ r, List.filter (λ m, truthy_id (parent_message_id m) && (root m =? r)) l).
  split; [|intros r; split; [done|intros m c Hm Hc; by apply R]].
  intros fuel Hf. destruct (fold_replies fuel byId root l ∅) as (T & HT & Hr).
  { intros m Hm. destruct (C m Hm) as [c Hc].
    rewrite (R fuel m c Hf Hm Hc). unfold root. by rewrite (R n m c (le_n n) Hm Hc). }
  exists (js_sort by_time <$> T). unfold threadReplies. fold byId. rewrite HT.
  split; [done|]. intros r. rewrite lookup_fmap. specialize (Hr r). rewrite lookup_empty in Hr.
  simpl in Hr. rewrite <- Hr. by destruct (T !! r).
Qed.

(** Grouping a conversation into threads ends and loses nothing: a message
    is in the thread of [r] exactly when it is a reply whose chain of parents
    leads to the message [r], or is broken by a parent that is not loaded and
    [r] is the reply itself; no thread lists a message twice, and each is in
    chronological order. *)
Theorem threads_group_replies (l : list LocalMessage) :
  NoDup (map id l) → acyclic (messagesById l) → Forall (dated getTime) l →
  ∃ n, ∀ fuel, (n <= fuel)%nat → ∃ R, threadReplies fuel l = Some R
  ∧ ∀ r, let thread := default [] (R !! r) in
    NoDup (map id thread)
    ∧ StronglySorted (λ a b, by_time a b <= 0) thread
    ∧ ∀ m, m ∈ thread ↔ m ∈ l ∧ truthy_id (parent_message_id m) = true
                       ∧ ∃ c, chain (messagesById l) m c ∧ root_id m c = r.
Proof.
  intros N A D. destruct (threads_lookup l N A) as (n & T & HR & HT).
  exists n. intros fuel Hf. destruct (HR fuel Hf) as (R & E & HRr). exists R. split; [done|].
  intros r. simpl. rewrite HRr. destruct (HT r) as [-> Hroot]. split_and!.
  - rewrite js_sort_map_perm. by apply NoDup_map_bfilter.
  - eapply js_sort_sorted; [apply by_time_consistent|]. by apply Forall_bfilter.
  - intros m. rewrite js_sort_elem, elem_of_bfilter, andb_true_iff, Z.eqb_eq. split.
    + intros (Hm & Hp & Hr).
      destruct (chain_exists _ _ _ A (messagesById_elem l m N Hm)) as [c Hc].
      split_and!; [done..|]. exists c. split; [done|]. by rewrite (Hroot m c Hm Hc) in Hr.
    + intros (Hm & Hp & c & Hc & Hr). split_and!; [done..|]. by rewrite (Hroot m c Hm Hc).
Qed.

End Threads.

(** ** Where the page opens *)

Section Opening.
Context (getTime : str → option Z).

(** The conversations with unread messages. *)
Definition unread_targets (channels dms : list Summary) : list (Target * option Z) :=
  map (λ c, (Channel (summary_id c), latestMessageTime getTime c))
    (List.filter (λ c, 0 <? unread_count c) channels) ++
  map (λ c, (Dm (summary_id c), latestMessageTime getTime c))
    (List.filter (λ c, 0 <? unread_count c) dms).

Definition newest_first (left right : Target * option Z) : Z :=
  match left.2, right.2 with Some l, Some r => r - l | _, _ => 0 end.

Lemma newest_first_consistent : cmp_consistent newest_first (λ p, is_Some p.2).
Proof.
  unfold newest_first. split.
  - intros [? x] [? y] [? z] [a Ha] [b Hb] [c Hc]. simpl in *. subst. lia.
  - intros [? x] [? y] [a Ha] [b Hb]. simpl in *. subst. lia.
Qed.

(** The page opens the unread conversation whose latest message is the most
    recent, among channels and direct conversations alike; when nothing is
    unread it opens the first channel, or the first direct conversation, or
    none. *)
Theorem initial_target_correct (channels dms : list Summary) :
  Forall (λ c, is_Some (latestMessageTime getTime c)) (channels ++ dms) →
  match initialMessageTarget getTime channels dms with
  | Some t =>
      (∃ at_, (t, Some at_) ∈ unread_targets channels dms
        ∧ ∀ t' at', (t', Some at') ∈ unread_targets channels dms → at' <= at_)
      ∨ (unread_targets channels dms = []
        ∧ Some t = match channels, dms with
                   | c :: _, _ => Some (Channel (summary_id c))
                   | [], d :: _ => Some (Dm (summary_id d))
                   | [], [] => None end)
  | None => channels = [] ∧ dms = []
  end.
Proof.
  intros F. apply Forall_app in F as [Fc Fd].
  assert (V : Forall (λ p : Target * option Z, is_Some p.2) (unread_targets channels dms)).
  { unfold unread_targets. apply Forall_app. rewrite !Forall_fmap.
    split; by apply Forall_bfilter. }
  unfold initialMessageTarget. fold newest_first. fold (unread_targets channels dms).
  pose proof (js_sort_sorted newest_first _ _ newest_first_consistent V) as S.
  pose proof (js_sort_perm newest_first (unread_targets channels dms)) as P.
  destruct (js_sort newest_first _) as [|[t o] rest].
  - apply Permutation_nil in P.
    destruct channels; [destruct dms|]; [done|right|right]; by rewrite P.
  - left. rewrite <- P in V. apply Forall_cons in V as [[at_ Ho] V]. simpl in Ho. subst o.
    exists at_. rewrite <- P. split; [by left|]. intros t' at' H. rewrite <- P in H.
    apply elem_of_cons in H as [[= -> ->]|H]; [lia|].
    apply StronglySorted_inv in S as [_ S]. rewrite Forall_forall in S.
    specialize (S _ H). unfold newest_first in S. simpl in S. lia.
Qed.

End Opening.

(** ** The workspace switcher *)

Section Switcher.
Context (localeCompare : str → str → Z).

Record WorkspaceSummary := { ws_id : Z; ws_name : str; member_count : Z }.

Record WorkspaceCard := {
  workspace : WorkspaceSummary; channelCount : Z; dmCount : Z;
  unreadChannelCount : Z; unreadDmCount : Z; unreadCount : Z;
}.

Definition sum_unread (l : list Summary) : Z := foldl (λ sum s, sum + unread_count s) 0 l.

Definition workspaceCards (workspaces : list WorkspaceSummary) (channels dms : list Summary)
    : list WorkspaceCard :=
  map (λ w,
    let workspaceChannels := List.filter (λ c, workspace_id c =? ws_id w) channels in
    let workspaceDms := List.filter (λ c, workspace_id c =? ws_id w) dms in
    {| workspace := w;
       channelCount := Z.of_nat (length workspaceChannels);
       dmCount := Z.of_nat (length workspaceDms);
       unreadChannelCount := sum_unread workspaceChannels;
       unreadDmCount := sum_unread workspaceDms;
       unreadCount := 0 + sum_unread workspaceChannels + sum_unread workspaceDms |}) workspaces.

Definition totalUnread (cards : list WorkspaceCard) : Z :=
  foldl (λ sum c, sum + unreadCount c) 0 cards.

Definition is_selected (selected : option Z) (c : WorkspaceCard) : bool :=
  bool_decide (Some (ws_id (workspace c)) = selected).

Definition card_order (selected : option Z) (left right : WorkspaceCard) : Z :=
  if negb (eqb (is_selected selected left) (is_selected selected right))
  then if is_selected selected left then -1 else 1
  else if negb (unreadCount left =? unreadCount right)
  then unreadCount right - unreadCount left
  else localeCompare (ws_name (workspace left)) (ws_name (workspace right)).

Definition sortedWorkspaceCards (selected : option Z) (cards : list WorkspaceCard) :=
  js_sort (card_order selected) cards.

Definition unreadOtherWorkspaceCards (selected : option Z) (cards : list WorkspaceCard) :=
  List.filter (λ c, negb (is_selected selected c) && (0 <? unreadCount c))
    (sortedWorkspaceCards selected cards).

Definition selectedUnread (selected : option Z) (cards : list WorkspaceCard) : Z :=
  match List.find (is_selected selected) cards with Some c => unreadCount c | None => 0 end.

Definition plural (n : Z) (one many : string) : str := if n =? 1 then js one else js many.

Definition workspaceSwitcherSubtitle (selected : option Z) (workspaces : list WorkspaceSummary)
    (cards : list WorkspaceCard) : str :=
  let otherUnread := Z.max 0 (totalUnread cards - selectedUnread selected cards) in
  if 0 <? otherUnread then
    str_of_Z otherUnread ++ js " unread in other " ++ plural otherUnread "workspace" "workspaces"
  else if 0 <? selectedUnread selected cards then
    str_of_Z (selectedUnread selected cards) ++ js " unread here"
  else match List.find (λ w, bool_decide (Some (ws_id w) = selected)) workspaces with
       | Some w => str_of_Z (member_count w) ++ js " " ++ plural (member_count w) "member" "members"
       | None => str_of_Z (Z.of_nat (length workspaces)) ++ js " workspaces"
       end.

Lemma sum_unread_acc l n : foldl (λ sum s, sum + unread_count s) n l = n + sum_unread l.
Proof.
  unfold sum_unread. revert n. induction l as [|s l IH]; intros n; simpl; [lia|].
  rewrite IH, (IH (0 + unread_count s)). lia.
Qed.

Lemma sum_unread_cons s l : sum_unread (s :: l) = unread_count s + sum_unread l.
Proof. unfold sum_unread at 1. simpl. by rewrite sum_unread_acc. Qed.

Lemma totalUnread_cons c l : totalUnread (c :: l) = unreadCount c + totalUnread l.
Proof.
  assert (G : ∀ n, foldl (λ sum c, sum + unreadCount c) n l = n + totalUnread l).
  { unfold totalUnread. induction l as [|x l IH]; intros n; simpl; [lia|].
    rewrite IH, (IH (0 + unreadCount x)). lia. }
  unfold totalUnread at 1. simpl. by rewrite G.
Qed.

Lemma totalUnread_perm l k : l ≡ₚ k → totalUnread l = totalUnread k.
Proof.
  induction 1; [done| | |congruence]; rewrite ?totalUnread_cons; lia.
Qed.

(** The unread messages of the conversations of a list of workspaces. *)
Lemma sum_by_workspace (ws : list WorkspaceSummary) l :
  NoDup (map ws_id ws) → Forall (λ s, workspace_id s ∈ map ws_id ws) l →
  foldr (λ w n, sum_unread (List.filter (λ c, workspace_id c =? ws_id w) l) + n) 0 ws
  = sum_unread l.
Proof.
  intros N. revert l. induction ws as [|w ws IH]; intros l F; simpl.
  { destruct l; [done|]. apply Forall_cons in F as [F _]. by apply not_elem_of_nil in F. }
  apply NoDup_cons in N as [Hw N].
  set (rest := List.filter (λ c, negb (workspace_id c =? ws_id w)) l).
  assert (E : ∀ w', w' ∈ ws → List.filter (λ c, workspace_id c =? ws_id w') l
                              = List.filter (λ c, workspace_id c =? ws_id w') rest).
  { intros w' Hw'. unfold rest. rewrite <- filter_filter_andb. apply filter_ext. intros c.
    destruct (Z.eqb_spec (workspace_id c) (ws_id w')) as [Ec|]; [|by rewrite andb_false_r].
    destruct (Z.eqb_spec (workspace_id c) (ws_id w)) as [Ew|]; [|done].
    destruct Hw. apply list_elem_of_fmap. exists w'. split; [congruence|done]. }
  assert (Q : foldr (λ w n, sum_unread (List.filter (λ c, workspace_id c =? ws_id w) l) + n) 0 ws
            = foldr (λ w n, sum_unread (List.filter (λ c, workspace_id c =? ws_id w) rest) + n) 0 ws).
  { clear -E. induction ws as [|w' ws IH]; [done|]. simpl. rewrite E by (by left).
    rewrite IH; [done|]. intros x Hx. apply E. by right. }
  rewrite Q, IH; [|done|].
  - unfold rest. clear. induction l as [|c l IH]; [done|]. simpl.
    destruct (workspace_id c =? ws_id w); simpl; rewrite !sum_unread_cons; lia.
  - unfold rest. apply Forall_forall. intros c [Hc Hn]%elem_of_bfilter.
    rewrite Forall_forall in F. specialize (F c Hc). apply elem_of_cons in F as [F|F]; [|done].
    by rewrite F, Z.eqb_refl in Hn.
Qed.

Lemma totalUnread_cards ws channels dms :
  totalUnread (workspaceCards ws channels dms) =
  foldr (λ w n, sum_unread (List.filter (λ c, workspace_id c =? ws_id w) channels) + n) 0 ws +
  foldr (λ w n, sum_unread (List.filter (λ c, workspace_id c =? ws_id w) dms) + n) 0 ws.
Proof.
  unfold workspaceCards. induction ws as [|w ws IH]; [done|].
  cbn [map foldr]. rewrite totalUnread_cons, IH. cbn [unreadCount]. lia.
Qed.

(** The workspace switcher counts every unread message once: the badge total
    is the sum of the unread counts of all channels and direct conversations,
    however they are spread over the workspaces, and reordering the cards with
    the selected workspace first does not change it. *)
Theorem switcher_counts_once (ws : list WorkspaceSummary) (channels dms : list Summary)
    (selected : option Z) :
  NoDup (map ws_id ws) →
  Forall (λ s, workspace_id s ∈ map ws_id ws) (channels ++ dms) →
  let cards := workspaceCards ws channels dms in
  totalUnread cards = sum_unread channels + sum_unread dms
  ∧ totalUnread (sortedWorkspaceCards selected cards) = totalUnread cards.
Proof.
  intros N [Fc Fd]%Forall_app cards. split.
  - unfold cards. rewrite totalUnread_cards. by rewrite !sum_by_workspace.
  - apply totalUnread_perm, js_sort_perm.
Qed.

End Switcher.

(** ** A concrete page *)

(** A date parser that reads a number of seconds written in digits. *)
Definition sample_time (s : str) : option Z :=
  match s with
  | [] => None
  | _ => Some (foldl (λ acc c, 10 * acc + Z.of_N (code c) - 48) 0 s)
  end.

Definition sample_compare (a b : str) : Z := Z.of_nat (length a) - Z.of_nat (length b).

Definition sample_user : Author :=
  {| author_id := 5; author_full_name := js "Ana"; email := js "ana@csg"; role := js "student";
     author_avatar := None |}.

Definition sample_message (i : Z) (t : Target) (parent : option Z) (at_ : string) : LocalMessage :=
  {| id := i; channel_id := match t with Channel c => Some c | Dm _ => None end;
     direct_conversation_id := match t with Dm d => Some d | Channel _ => None end;
     parent_message_id := parent; body := js "hi"; mention_user_ids := []; edited_at := None;
     deleted_at := None; pinned_at := None; pinned_by_id := None; created_at := js at_;
     updated_at := js at_; mine := false; blocked := None; attachments := []; reactions := [];
     read_receipts := None; author := sample_user; pending := None; failed := None |}.

Definition opened : State :=
  {| channels := []; directConversations := []; selectedTarget := Some (Channel 1);
     messages := []; pinnedMessages := []; highlightedMessageId := None; hasUnreadBelow := false;
     shouldStickToBottom := true; targetRequest := 0; targetLoading := false; tempMessageId := 0;
     optimisticUrls := ∅; composer := ([], [], []); sending := false; error := [] |}.

Definition sample_view : View :=
  {| visible := true; isDesktop := true; conversationPane := true; threadOpen := false;
     nearBottom := true; programmaticScroll := false |}.

Definition sample_options : LoadOptions :=
  {| aroundMessageId := None; highlighted := None; background := false |}.

Definition sample_summary (i w unread : Z) (latest : option string) : Summary :=
  {| summary_id := i; workspace_id := w; name := js "general"; position := 0; muted := false;
     unread_count := unread; last_read_at := None;
     latest_message := (λ at_, {| latest_id := 1; latest_body := js "x";
       latest_created_at := js at_; author_name := js "Ana" |}) <$> latest |}.

Definition sample_event (k : event_kind) (m : LocalMessage) : ChannelMessageEvent :=
  {| event := k; event_channel_id := channel_id m;
     event_direct_conversation_id := direct_conversation_id m; message := m; event_mine := None;
     event_channel := None; event_direct_conversation := None |}.

Definition sample_url (i : Z) : str := js "blob:".

Definition sample_action : action :=
  Realtime sample_user sample_view (js "9") (sample_event created (sample_message 7 (Channel 1) None "200")).

Definition after_send : State :=
  step sample_time sample_compare sample_url (SendBegin (Some sample_user) None (js "100") (js "yo") [])
    opened.

Lemma web_conversation_refines_witness :
  wf (H:=message_timeline sample_time) (messages after_send)
  ∧ map id (messages (step sample_time sample_compare sample_url sample_action after_send))
    = [-1; 7].
Proof.
  split; [|vm_compute; reflexivity].
  apply (web_conversation_refines sample_time sample_compare sample_url after_send sample_action).
  - apply (reachable_step sample_time sample_compare sample_url opened).
    + by apply reachable_open.
    + by eexists.
  - split; [split; [vm_compute; reflexivity|eexists; vm_compute; reflexivity]|].
    split; [reflexivity|]. intros old H. vm_compute in H. discriminate.
Defined.

Lemma latest_request_wins_witness :
  messages (foldl (receive sample_time) (set_targetRequest 2 opened)
    [{| request := 2; reply_target := Dm 4; reply_mark := false; reply_options := sample_options;
        response := Some {| summary := sample_summary 4 1 0 None;
                            loaded := Some [sample_message 9 (Dm 4) None "10"]; pins := None |} |};
     {| request := 1; reply_target := Channel 1; reply_mark := false;
        reply_options := sample_options;
        response := Some {| summary := sample_summary 1 1 0 None;
                            loaded := Some [sample_message 8 (Channel 1) None "10"];
                            pins := None |} |}])
  = [sample_message 9 (Dm 4) None "10"].
Proof.
  etransitivity;
    [eapply latest_request_wins; [|apply elem_of_cons; left; reflexivity|reflexivity|reflexivity]
    |vm_compute; reflexivity].
  apply NoDup_cons; split; [by apply (bool_decide_unpack _)|].
  apply NoDup_cons; split; [by apply (bool_decide_unpack _)|constructor].
Defined.

Definition sample_thread : list LocalMessage :=
  [sample_message 1 (Channel 1) None "1"; sample_message 2 (Channel 1) (Some 1) "3";
   sample_message 3 (Channel 1) (Some 2) "2"].

Lemma sample_thread_acyclic : acyclic (messagesById sample_thread).
Proof.
  exists Z.to_nat. intros i m p q Hm Hp H0 Hq.
  assert (Hin : ∀ j x, messagesById sample_thread !! j = Some x → j = 1 ∨ j = 2 ∨ j = 3).
  { intros j x Hj. unfold messagesById in Hj. simpl in Hj.
    apply lookup_insert_Some in Hj as [[<- _]|[_ Hj]]; [auto|].
    apply lookup_insert_Some in Hj as [[<- _]|[_ Hj]]; [auto|].
    apply lookup_insert_Some in Hj as [[<- _]|[_ Hj]]; [auto|done]. }
  destruct (Hin i m Hm) as [-> | [-> | -> ] ]; vm_compute in Hm; injection Hm as <-;
    simpl in Hp; simplify_eq; vm_compute; lia.
Qed.

Lemma threads_group_replies_witness :
  ∃ n R, threadReplies sample_time n sample_thread = Some R
  ∧ NoDup (map id (default [] (R !! 1))).
Proof.
  destruct (threads_group_replies sample_time sample_thread) as [n Hn].
  - apply NoDup_cons; split; [by apply (bool_decide_unpack _)|].
    apply NoDup_cons; split; [by apply (bool_decide_unpack _)|].
    apply NoDup_cons; split; [by apply (bool_decide_unpack _)|constructor].
  - apply sample_thread_acyclic.
  - repeat constructor; eexists; reflexivity.
  - destruct (Hn n (le_n n)) as (R & E & HR). exists n, R. split; [done|]. apply HR.
Defined.

Example sample_thread_grouped :
  (λ R : gmap Z (list LocalMessage), map id (default [] (R !! 1)))
    <$> threadReplies sample_time 4 sample_thread = Some [3; 2].
Proof. vm_compute. reflexivity. Qed.

Lemma initial_target_witness :
  initialMessageTarget sample_time [sample_summary 1 1 0 (Some "9"%string)]
    [sample_summary 4 1 2 (Some "5"%string)] = Some (Dm 4)
  ∧ ∃ at_, (Dm 4, Some at_) ∈ unread_targets sample_time
      [sample_summary 1 1 0 (Some "9"%string)] [sample_summary 4 1 2 (Some "5"%string)].
Proof.
  split; [vm_compute; reflexivity|].
  pose proof (initial_target_correct sample_time [sample_summary 1 1 0 (Some "9"%string)]
    [sample_summary 4 1 2 (Some "5"%string)]
    ltac:(repeat constructor; eexists; vm_compute; reflexivity)) as H.
  change (initialMessageTarget _ _ _) with (Some (Dm 4)) in H.
  destruct H as [(at_ & H & _)|[H _]]; [by exists at_|vm_compute in H; discriminate].
Defined.

Lemma switcher_counts_once_witness :
  totalUnread (workspaceCards [{| ws_id := 1; ws_name := js "A"; member_count := 2 |}]
    [sample_summary 1 1 3 None] [sample_summary 4 1 2 None]) = 5.
Proof.
  rewrite (proj1 (switcher_counts_once sample_compare
    [{| ws_id := 1; ws_name := js "A"; member_count := 2 |}]
    [sample_summary 1 1 3 None] [sample_summary 4 1 2 None] None
    ltac:(apply NoDup_singleton) ltac:(repeat constructor))).
  vm_compute. reflexivity.
Defined.

(** A send that is confirmed after the user has opened another conversation adds
    its message to the one now shown: the update does not look at the selected
    target. *)
Theorem late_confirmation_shows_elsewhere :
  let sent := after_send in
  let moved := step sample_time sample_compare sample_url (Selected (Dm 4) sample_options) sent in
  let shown := step sample_time sample_compare sample_url
    (SendSettle (js "101") (-1) (Responded None (Some (sample_message 12 (Channel 1) None "100"))))
    (set_messages [] moved) in
  selectedTarget shown = Some (Dm 4)
  ∧ map (λ m, (id m, channel_id m)) (messages shown) = [(12, Some 1)].
Proof. vm_compute. done. Qed.
