(* ===== verification/WebWorkspaces.v ===== *)
(** * The workspaces of the messages page (web)

    The other half of [web/src/pages/shared/Messages.tsx]: which workspace and which
    conversation are selected, the panel of a workspace with its members, the people a direct
    message can go to, and the forms for channels, workspaces, members and direct messages.
    The messages of the selected conversation are those of [WebMessages]. A handler runs up
    to its next [await], kept in [ops]; [answer] goes on; the values a handler saw when it
    began are kept with it. The value of a [select] is the chosen identifier, or none.

    [settle] runs the effects of React: whatever changes the selected workspace asks for its
    panel and its people; whatever renews the lists or the selected conversation selects the
    workspace of that conversation. *)

From S2P Require Import Prelude.
From S2P Require Import Keyed.
From S2P Require Import WebMessages.

(** ** Data *)

Record User := { u_id : Z; u_name : str; u_mail : str }.

Record Detail := { d_id : Z; d_name : str; d_count : Z; can_manage : bool; members : list User }.

Record ChannelForm := { cf_workspace : option Z; cf_name : str; cf_description : str; cf_visibility : str }.
Record WorkspaceForm := { wf_name : str; wf_description : str }.

Inductive Request :=
| GetLists                                       (* workspaces, channels and direct conversations *)
| GetWorkspace (w : Z) | GetUsers | GetAvailable (w : Z)
| CreateChannel (w : Z) (name : str) (description : option str) (visibility : str)
| CreateWorkspace (name : str) (description : option str)
| AddMember (w u : Z) | RemoveMember (w u : Z)
| CreateDm (w u : Z).

(** What follows [await loadLists()]; a new workspace is selected among the lists the
    handler began with. *)
Inductive After :=
| ThenNothing
| ThenChannel (i : Z) (name : str)
| ThenWorkspace (d : Detail) (channels dms : list Summary)
| ThenDm (i : Z).

Inductive Op :=
| OLists (k : After)
| ODetail (w : Z) | OUsers | OAvailable (w : Z)
| OChannel | OWorkspace (channels dms : list Summary)
| OMember (added : bool) (w : Z) | ODm.

Record State := {
  workspaces : list WorkspaceSummary; channels : list Summary; dms : list Summary;
  detail : option Detail; availableUsers : list User; allUsers : list User;
  selectedWorkspaceId : option Z; selectedTarget : option Target;
  channelForm : ChannelForm; workspaceForm : WorkspaceForm;
  dmUserId : option Z; memberToAddId : option Z;
  loading : bool; creatingChannel : bool; creatingWorkspace : bool;
  showChannelForm : bool; showDmForm : bool; showWorkspaceForm : bool; showWorkspaceMembers : bool;
  workspaceError : str; channelError : str; toasts : list (bool * str);
  ops : list Op; requests : list Request;
}.

Definition set_lists (ws : list WorkspaceSummary) (cs ds : list Summary) (s : State) : State := {|
  workspaces := ws; channels := cs; dms := ds; detail := detail s; availableUsers := availableUsers s;
  allUsers := allUsers s; selectedWorkspaceId := selectedWorkspaceId s; selectedTarget := selectedTarget s;
  channelForm := channelForm s; workspaceForm := workspaceForm s; dmUserId := dmUserId s;
  memberToAddId := memberToAddId s; loading := loading s; creatingChannel := creatingChannel s;
  creatingWorkspace := creatingWorkspace s; showChannelForm := showChannelForm s; showDmForm := showDmForm s;
  showWorkspaceForm := showWorkspaceForm s; showWorkspaceMembers := showWorkspaceMembers s;
  workspaceError := workspaceError s; channelError := channelError s; toasts := toasts s; ops := ops s;
  requests := requests s |}.
Definition set_people (d : option Detail) (av al : list User) (dm mem : option Z) (s : State) : State := {|
  workspaces := workspaces s; channels := channels s; dms := dms s; detail := d; availableUsers := av;
  allUsers := al; selectedWorkspaceId := selectedWorkspaceId s; selectedTarget := selectedTarget s;
  channelForm := channelForm s; workspaceForm := workspaceForm s; dmUserId := dm; memberToAddId := mem;
  loading := loading s; creatingChannel := creatingChannel s; creatingWorkspace := creatingWorkspace s;
  showChannelForm := showChannelForm s; showDmForm := showDmForm s; showWorkspaceForm := showWorkspaceForm s;
  showWorkspaceMembers := showWorkspaceMembers s; workspaceError := workspaceError s;
  channelError := channelError s; toasts := toasts s; ops := ops s; requests := requests s |}.
Definition set_selected (w : option Z) (t : option Target) (s : State) : State := {|
  workspaces := workspaces s; channels := channels s; dms := dms s; detail := detail s;
  availableUsers := availableUsers s; allUsers := allUsers s; selectedWorkspaceId := w; selectedTarget := t;
  channelForm := channelForm s; workspaceForm := workspaceForm s; dmUserId := dmUserId s;
  memberToAddId := memberToAddId s; loading := loading s; creatingChannel := creatingChannel s;
  creatingWorkspace := creatingWorkspace s; showChannelForm := showChannelForm s; showDmForm := showDmForm s;
  showWorkspaceForm := showWorkspaceForm s; showWorkspaceMembers := showWorkspaceMembers s;
  workspaceError := workspaceError s; channelError := channelError s; toasts := toasts s; ops := ops s;
  requests := requests s |}.
Definition set_forms (c : ChannelForm) (w : WorkspaceForm) (s : State) : State := {|
  workspaces := workspaces s; channels := channels s; dms := dms s; detail := detail s;
  availableUsers := availableUsers s; allUsers := allUsers s; selectedWorkspaceId := selectedWorkspaceId s;
  selectedTarget := selectedTarget s; channelForm := c; workspaceForm := w; dmUserId := dmUserId s;
  memberToAddId := memberToAddId s; loading := loading s; creatingChannel := creatingChannel s;
  creatingWorkspace := creatingWorkspace s; showChannelForm := showChannelForm s; showDmForm := showDmForm s;
  showWorkspaceForm := showWorkspaceForm s; showWorkspaceMembers := showWorkspaceMembers s;
  workspaceError := workspaceError s; channelError := channelError s; toasts := toasts s; ops := ops s;
  requests := requests s |}.
Definition set_busy (l c w : bool) (s : State) : State := {|
  workspaces := workspaces s; channels := channels s; dms := dms s; detail := detail s;
  availableUsers := availableUsers s; allUsers := allUsers s; selectedWorkspaceId := selectedWorkspaceId s;
  selectedTarget := selectedTarget s; channelForm := channelForm s; workspaceForm := workspaceForm s;
  dmUserId := dmUserId s; memberToAddId := memberToAddId s; loading := l; creatingChannel := c;
  creatingWorkspace := w; showChannelForm := showChannelForm s; showDmForm := showDmForm s;
  showWorkspaceForm := showWorkspaceForm s; showWorkspaceMembers := showWorkspaceMembers s;
  workspaceError := workspaceError s; channelError := channelError s; toasts := toasts s; ops := ops s;
  requests := requests s |}.
Definition set_shown (c d w m : bool) (s : State) : State := {|
  workspaces := workspaces s; channels := channels s; dms := dms s; detail := detail s;
  availableUsers := availableUsers s; allUsers := allUsers s; selectedWorkspaceId := selectedWorkspaceId s;
  selectedTarget := selectedTarget s; channelForm := channelForm s; workspaceForm := workspaceForm s;
  dmUserId := dmUserId s; memberToAddId := memberToAddId s; loading := loading s;
  creatingChannel := creatingChannel s; creatingWorkspace := creatingWorkspace s; showChannelForm := c;
  showDmForm := d; showWorkspaceForm := w; showWorkspaceMembers := m; workspaceError := workspaceError s;
  channelError := channelError s; toasts := toasts s; ops := ops s; requests := requests s |}.
Definition set_notes (w c : str) (t : list (bool * str)) (s : State) : State := {|
  workspaces := workspaces s; channels := channels s; dms := dms s; detail := detail s;
  availableUsers := availableUsers s; allUsers := allUsers s; selectedWorkspaceId := selectedWorkspaceId s;
  selectedTarget := selectedTarget s; channelForm := channelForm s; workspaceForm := workspaceForm s;
  dmUserId := dmUserId s; memberToAddId := memberToAddId s; loading := loading s;
  creatingChannel := creatingChannel s; creatingWorkspace := creatingWorkspace s;
  showChannelForm := showChannelForm s; showDmForm := showDmForm s; showWorkspaceForm := showWorkspaceForm s;
  showWorkspaceMembers := showWorkspaceMembers s; workspaceError := w; channelError := c; toasts := t;
  ops := ops s; requests := requests s |}.
Definition set_ops (l : list Op) (r : list Request) (s : State) : State := {|
  workspaces := workspaces s; channels := channels s; dms := dms s; detail := detail s;
  availableUsers := availableUsers s; allUsers := allUsers s; selectedWorkspaceId := selectedWorkspaceId s;
  selectedTarget := selectedTarget s; channelForm := channelForm s; workspaceForm := workspaceForm s;
  dmUserId := dmUserId s; memberToAddId := memberToAddId s; loading := loading s;
  creatingChannel := creatingChannel s; creatingWorkspace := creatingWorkspace s;
  showChannelForm := showChannelForm s; showDmForm := showDmForm s; showWorkspaceForm := showWorkspaceForm s;
  showWorkspaceMembers := showWorkspaceMembers s; workspaceError := workspaceError s;
  channelError := channelError s; toasts := toasts s; ops := l; requests := r |}.

Definition ask (r : Request) (o : Op) (s : State) : State := set_ops (ops s ++ [o]) (requests s ++ [r]) s.
Definition ask_next (i : nat) (r : Request) (o : Op) (s : State) : State :=
  set_ops (<[i := o]> (ops s)) (requests s ++ [r]) s.
Definition returns (i : nat) (s : State) : State := set_ops (delete i (ops s)) (requests s) s.

Definition set_detail (d : option Detail) (s : State) : State :=
  set_people d (availableUsers s) (allUsers s) (dmUserId s) (memberToAddId s) s.
Definition toast (ok : bool) (m : str) (s : State) : State :=
  set_notes (workspaceError s) (channelError s) (toasts s ++ [(ok, m)]) s.
Definition workspace_note (m : str) (s : State) : State := set_notes m (channelError s) (toasts s) s.
Definition channel_note (m : str) (s : State) : State := set_notes (workspaceError s) m (toasts s) s.

(** [a || b] on nullable identifiers. *)
Definition or_id (a b : option Z) : option Z := if truthy_id a then a else b.

(** ** Effects *)

Definition loadAvailableUsers (w : Z) (s : State) : State := ask (GetAvailable w) (OAvailable w) s.
Definition loadWorkspaceDetail (w : Z) (s : State) : State := ask (GetWorkspace w) (ODetail w) s.

(** The two effects on [selectedWorkspaceId]. *)
Definition on_workspace (old : option Z) (s : State) : State :=
  if decide (old = selectedWorkspaceId s) then s
  else match selectedWorkspaceId s with
       | Some w => if w =? 0 then set_detail None s else loadWorkspaceDetail w (loadAvailableUsers w s)
       | None => set_detail None s
       end.

Definition find_summary (i : Z) (l : list Summary) : option Summary := List.find (λ x, summary_id x =? i) l.

(** [selectedChannel?.workspace_id || selectedDm?.workspace_id] *)
Definition target_workspace (s : State) : option Z :=
  match selectedTarget s with
  | Some (Channel i) => workspace_id <$> find_summary i (channels s)
  | Some (Dm i) => workspace_id <$> find_summary i (dms s)
  | None => None
  end.

Definition on_target (s : State) : State :=
  if truthy_id (target_workspace s) then set_selected (target_workspace s) (selectedTarget s) s else s.

Definition default_channel_workspace (s : State) : State :=
  match cf_workspace (channelForm s), workspaces s with
  | None, w :: _ =>
      set_forms {| cf_workspace := Some (ws_id w); cf_name := cf_name (channelForm s);
                   cf_description := cf_description (channelForm s);
                   cf_visibility := cf_visibility (channelForm s) |} (workspaceForm s) s
  | _, _ => s
  end.

(** All effects after a commit that renewed the lists or the target. *)
Definition settle (old : option Z) (s : State) : State :=
  let s1 := on_workspace old (default_channel_workspace s) in
  on_workspace (selectedWorkspaceId s1) (on_target s1).

(** ** Handlers *)

Section Handlers.
Context (getTime : str → option Z) (isStaff : bool).

Definition loadLists (s : State) : State := ask GetLists (OLists ThenNothing) s.

Definition select_target (t : option Target) (s : State) : State := set_selected (selectedWorkspaceId s) t s.
Definition selectTarget (t : Target) (s : State) : State := settle (selectedWorkspaceId s) (select_target (Some t) s).

(** [selectWorkspace] over the lists its closure has. *)
Definition first_of (w : Z) (cs ds : list Summary) : option Target :=
  match List.find (λ x, workspace_id x =? w) cs, List.find (λ x, workspace_id x =? w) ds with
  | Some c, _ => Some (Channel (summary_id c))
  | None, Some d => Some (Dm (summary_id d))
  | None, None => None
  end.

Definition choose_workspace (w : Z) (cs ds : list Summary) (s : State) : State :=
  set_forms {| cf_workspace := Some w; cf_name := cf_name (channelForm s);
               cf_description := cf_description (channelForm s); cf_visibility := cf_visibility (channelForm s) |}
    (workspaceForm s) (set_selected (Some w) (first_of w cs ds) s).
Definition selectWorkspace (w : Z) (s : State) : State :=
  settle (selectedWorkspaceId s) (choose_workspace w (channels s) (dms s) s).

Definition handleCreateChannel (s : State) : State :=
  let f := channelForm s in
  match cf_workspace f with
  | Some w =>
      if truthy (trim (cf_name f)) then
        ask (CreateChannel w (trim (cf_name f)) (or_undefined (trim (cf_description f))) (cf_visibility f))
          OChannel (channel_note [] (set_busy (loading s) true (creatingWorkspace s) s))
      else s
  | None => s
  end.

Definition handleCreateWorkspace (s : State) : State :=
  let f := workspaceForm s in
  if truthy (trim (wf_name f)) then
    ask (CreateWorkspace (trim (wf_name f)) (or_undefined (trim (wf_description f))))
      (OWorkspace (channels s) (dms s)) (workspace_note [] (set_busy (loading s) (creatingChannel s) true s))
  else s.

Definition handleAddWorkspaceMember (s : State) : State :=
  match detail s, memberToAddId s with
  | Some d, Some u => ask (AddMember (d_id d) u) (OMember true (d_id d)) (workspace_note [] s)
  | _, _ => s
  end.
Definition handleRemoveWorkspaceMember (u : Z) (s : State) : State :=
  match detail s with
  | Some d => ask (RemoveMember (d_id d) u) (OMember false (d_id d)) (workspace_note [] s)
  | None => s
  end.

Definition handleCreateDm (s : State) : State :=
  match selectedWorkspaceId s, dmUserId s with
  | Some w, Some u => if w =? 0 then s else ask (CreateDm w u) ODm s
  | _, _ => s
  end.

(** ** Answers *)

Inductive Reply :=
| Failed (e : str)
| GaveLists (ws : option (list WorkspaceSummary)) (cs ds : option (list Summary))
| GaveDetail (d : option Detail)
| GaveUsers (l : option (list User))
| GaveChannel (c : option (Z * str))
| GaveDm (i : option Z).

Definition lists_loaded (ws : option (list WorkspaceSummary)) (cs ds : option (list Summary)) (s : State) : State :=
  let lc := default [] cs in
  let ld := default [] ds in
  let first := initialMessageTarget getTime lc ld in
  let first_workspace := match first with
                         | Some (Channel i) => workspace_id <$> find_summary i lc
                         | Some (Dm i) => workspace_id <$> find_summary i ld
                         | None => None end in
  set_busy false (creatingChannel s) (creatingWorkspace s)
    (set_selected (or_id (selectedWorkspaceId s) (or_id first_workspace (ws_id <$> head (default [] ws))))
       (match selectedTarget s with Some t => Some t | None => first end)
       (set_lists (default (workspaces s) ws) (default (channels s) cs) (default (dms s) ds) s)).

Definition QUOTE : str := ["034"%char].

Definition after_lists (k : After) (s : State) : State :=
  match k with
  | ThenNothing => s
  | ThenChannel i name =>
      set_busy (loading s) false (creatingWorkspace s)
        (toast true (js "Created channel #" ++ name) (select_target (Some (Channel i)) s))
  | ThenWorkspace d cs ds =>
      set_busy (loading s) (creatingChannel s) false
        (toast true (js "Created workspace " ++ QUOTE ++ d_name d ++ QUOTE)
           (set_shown (showChannelForm s) (showDmForm s) (showWorkspaceForm s) true
              (choose_workspace (d_id d) cs ds (set_detail (Some d) s))))
  | ThenDm i =>
      select_target (Some (Dm i))
        (set_shown (showChannelForm s) false (showWorkspaceForm s) (showWorkspaceMembers s) s)
  end.

Definition with_count (d : Detail) (w : WorkspaceSummary) : WorkspaceSummary :=
  if ws_id w =? d_id d then {| ws_id := ws_id w; ws_name := ws_name w; member_count := d_count d |} else w.

Definition member_changed (added : bool) (d : Detail) (s : State) : State :=
  toast true (if added then js "Workspace member added" else js "Workspace member removed")
    (set_lists (map (with_count d) (workspaces s)) (channels s) (dms s)
       (set_people (Some d) (availableUsers s) (allUsers s) (dmUserId s)
          (if added then None else memberToAddId s) s)).

Definition detail_loaded (i : nat) (d : Detail) (s : State) : State :=
  let s1 := set_detail (Some d) s in
  if isStaff && can_manage d then ask_next i GetUsers OUsers s1
  else returns i (set_people (Some d) (availableUsers s1) [] (dmUserId s1) (memberToAddId s1) s1).

Definition answer (i : nat) (r : Reply) (s : State) : State :=
  match ops s !! i with
  | None => s
  | Some o =>
      match o, r with
      | OLists k, GaveLists ws cs ds =>
          settle (selectedWorkspaceId s) (after_lists k (lists_loaded ws cs ds (returns i s)))
      | ODetail _, GaveDetail (Some d) => detail_loaded i d s
      | ODetail _, _ => returns i s
      | OUsers, GaveUsers (Some l) =>
          returns i (set_people (detail s) (availableUsers s) l (dmUserId s) (memberToAddId s) s)
      | OUsers, _ => returns i s
      | OAvailable _, GaveUsers (Some l) =>
          returns i (set_people (detail s) l (allUsers s) (or_id (u_id <$> head l) None) (memberToAddId s) s)
      | OAvailable _, _ => returns i s
      | OChannel, GaveChannel (Some c) =>
          ask_next i GetLists (OLists (ThenChannel c.1 c.2))
            (set_shown false (showDmForm s) (showWorkspaceForm s) (showWorkspaceMembers s)
               (set_forms {| cf_workspace := cf_workspace (channelForm s); cf_name := []; cf_description := [];
                             cf_visibility := cf_visibility (channelForm s) |} (workspaceForm s) s))
      | OChannel, Failed e =>
          returns i (set_busy (loading s) false (creatingWorkspace s) (toast false e (channel_note e s)))
      | OChannel, _ => returns i (set_busy (loading s) false (creatingWorkspace s) s)
      | OWorkspace cs ds, GaveDetail (Some d) =>
          ask_next i GetLists (OLists (ThenWorkspace d cs ds))
            (set_shown (showChannelForm s) (showDmForm s) false (showWorkspaceMembers s)
               (set_forms (channelForm s) {| wf_name := []; wf_description := [] |} s))
      | OWorkspace _ _, Failed e =>
          returns i (set_busy (loading s) (creatingChannel s) false (toast false e (workspace_note e s)))
      | OWorkspace _ _, _ => returns i (set_busy (loading s) (creatingChannel s) false s)
      | OMember added _, GaveDetail (Some d) => returns i (member_changed added d s)
      | OMember _ _, Failed e => returns i (toast false e (workspace_note e s))
      | OMember _ _, _ => returns i s
      | ODm, GaveDm (Some x) => ask_next i GetLists (OLists (ThenDm x)) s
      | ODm, Failed e => returns i (toast false e s)
      | ODm, _ => returns i s
      | _, _ => s
      end
  end.

(** ** Events *)

Inductive event_ :=
| SelectsTarget (t : Target) | SelectsWorkspace (w : Z)
| TypesChannel (f : ChannelForm) | TypesWorkspace (f : WorkspaceForm)
| ChoosesMember (u : option Z) | ChoosesPerson (u : option Z)
| SubmitsChannel | SubmitsWorkspace | AddsMember | RemovesMember (u : Z) | SubmitsDm
| Answers (i : nat) (r : Reply).

Definition workspace_step (s : State) (e : event_) : State :=
  match e with
  | SelectsTarget t => selectTarget t s
  | SelectsWorkspace w => selectWorkspace w s
  | TypesChannel f => default_channel_workspace (set_forms f (workspaceForm s) s)
  | TypesWorkspace f => set_forms (channelForm s) f s
  | ChoosesMember u => set_people (detail s) (availableUsers s) (allUsers s) (dmUserId s) u s
  | ChoosesPerson u => set_people (detail s) (availableUsers s) (allUsers s) u (memberToAddId s) s
  | SubmitsChannel => handleCreateChannel s
  | SubmitsWorkspace => handleCreateWorkspace s
  | AddsMember => handleAddWorkspaceMember s
  | RemovesMember u => handleRemoveWorkspaceMember u s
  | SubmitsDm => handleCreateDm s
  | Answers i r => answer i r s
  end.

Definition run_workspaces (es : list event_) (s : State) : State := fold_left workspace_step es s.

(** The page after its first effects. *)
Definition opened_workspaces (target : option Target) : State := loadLists {|
  workspaces := []; channels := []; dms := []; detail := None; availableUsers := []; allUsers := [];
  selectedWorkspaceId := None; selectedTarget := target;
  channelForm := {| cf_workspace := None; cf_name := []; cf_description := []; cf_visibility := js "cohort" |};
  workspaceForm := {| wf_name := []; wf_description := [] |}; dmUserId := None; memberToAddId := None;
  loading := true; creatingChannel := false; creatingWorkspace := false; showChannelForm := false;
  showDmForm := false; showWorkspaceForm := false; showWorkspaceMembers := false; workspaceError := [];
  channelError := []; toasts := []; ops := []; requests := [] |}.

Definition memberCandidates (s : State) : list User :=
  let ids := map u_id (match detail s with Some d => members d | None => [] end) in
  List.filter (λ u, negb (has ids (u_id u))) (allUsers s).
Definition visibleChannels (s : State) : list Summary :=
  match selectedWorkspaceId s with
  | Some w => if w =? 0 then channels s else List.filter (λ c, workspace_id c =? w) (channels s)
  | None => channels s end.
Definition visibleDms (s : State) : list Summary :=
  match selectedWorkspaceId s with
  | Some w => if w =? 0 then dms s else List.filter (λ c, workspace_id c =? w) (dms s)
  | None => dms s end.

(** ** The panel and the people are those of the selected workspace *)

Definition panel (o : Op) : bool := match o with ODetail _ | OMember _ _ => true | _ => false end.
Definition people (o : Op) : bool := match o with OAvailable _ => true | _ => false end.

(** Which users can be written to in a workspace. *)
Context (meets : Z → Z → Prop).

(** The panel of [w] is shown, or was asked for last. *)
Definition panel_of (w : Z) (s : State) : Prop :=
  (∃ l, List.filter panel (ops s) = l ++ [ODetail w])
  ∨ (List.filter panel (ops s) = [] ∨ ∃ b, List.filter panel (ops s) = [OMember b w])
    ∧ (d_id <$> detail s) = Some w.

(** The people of [w] are offered, or were asked for last. *)
Definition people_of (w : Z) (s : State) : Prop :=
  (∃ l, List.filter people (ops s) = l ++ [OAvailable w])
  ∨ List.filter people (ops s) = [] ∧ Forall (λ u, meets w (u_id u)) (availableUsers s)
    ∧ ∀ u, dmUserId s = Some u → meets w u.

Definition current (s : State) : Prop :=
  ∀ w, selectedWorkspaceId s = Some w → w ≠ 0 → panel_of w s ∧ people_of w s.

(** The answers come in the order of the questions and are those of the server; members are
    changed in a panel that is current, and a person is chosen among those offered. *)
Definition ev_ok (s : State) (e : event_) : Prop :=
  match e with
  | Answers i r =>
      match ops s !! i, r with
      | Some (ODetail w), _ =>
          List.filter panel (take i (ops s)) = [] ∧ ∃ d, r = GaveDetail (Some d) ∧ d_id d = w
      | Some (OMember _ w), GaveDetail (Some d) => List.filter panel (take i (ops s)) = [] ∧ d_id d = w
      | Some (OMember _ w), _ => List.filter panel (take i (ops s)) = []
      | Some (OAvailable w), _ =>
          List.filter people (take i (ops s)) = []
          ∧ ∃ l, r = GaveUsers (Some l) ∧ Forall (λ u, meets w (u_id u)) l
      | _, _ => True
      end
  | AddsMember | RemovesMember _ => List.filter panel (ops s) = []
  | ChoosesPerson (Some u) => u ∈ map u_id (availableUsers s)
  | _ => True
  end.

Fixpoint events_ok (es : list event_) (s : State) : Prop :=
  match es with [] => True | e :: es => ev_ok s e ∧ events_ok es (workspace_step s e) end.

(** An answer removes what it answers. *)
Lemma filter_first {A} (f : A → bool) l i o :
  l !! i = Some o → f o = true → List.filter f (take i l) = [] →
  List.filter f l = o :: List.filter f (drop (S i) l) ∧ List.filter f (delete i l) = List.filter f (drop (S i) l).
Proof.
  intros H Fo E. pose proof (take_drop_middle l i o H) as M. split.
  - rewrite <- M at 1. rewrite List.filter_app, E. cbn. by rewrite Fo.
  - rewrite delete_take_drop, List.filter_app, E. done.
Qed.

Lemma filter_other {A} (f : A → bool) l i o :
  l !! i = Some o → f o = false → List.filter f (delete i l) = List.filter f l.
Proof.
  intros H Fo. pose proof (take_drop_middle l i o H) as M. rewrite delete_take_drop. rewrite <- M at 3.
  rewrite !List.filter_app. cbn. by rewrite Fo.
Qed.

Lemma filter_replaced {A} (f : A → bool) l i o o' :
  l !! i = Some o → f o' = false → List.filter f (<[i := o']> l) = List.filter f (delete i l).
Proof.
  intros H Fo. rewrite delete_take_drop, insert_take_drop by (by eapply lookup_lt_Some).
  rewrite !List.filter_app. cbn. by rewrite Fo.
Qed.

Lemma current_frame s s' :
  selectedWorkspaceId s' = selectedWorkspaceId s → detail s' = detail s →
  availableUsers s' = availableUsers s → dmUserId s' = dmUserId s →
  List.filter panel (ops s') = List.filter panel (ops s) →
  List.filter people (ops s') = List.filter people (ops s) → current s → current s'.
Proof.
  intros W D A U P Q C w Hw Nz. rewrite W in Hw. destruct (C w Hw Nz) as [X Y].
  unfold panel_of, people_of in *. by rewrite P, Q, D, A, U.
Qed.

Lemma on_workspace_current old s : (old = selectedWorkspaceId s → current s) → current (on_workspace old s).
Proof.
  intros C. unfold on_workspace. destruct (decide _) as [E|E]; [by apply C|].
  destruct (selectedWorkspaceId s) as [w|] eqn:W.
  - destruct (Z.eqb_spec w 0) as [->|N].
    + intros w' Hw' N'. cbn in Hw'. rewrite W in Hw'. congruence.
    + intros w' Hw' _. cbn in Hw'. rewrite W in Hw'. injection Hw' as <-. split; left; cbn.
      * exists (List.filter panel (ops s)). rewrite !List.filter_app. cbn. by rewrite app_nil_r.
      * exists (List.filter people (ops s)). rewrite !List.filter_app. cbn. by rewrite app_nil_r.
  - intros w' Hw'. cbn in Hw'. congruence.
Qed.

Lemma settle_current old s : (old = selectedWorkspaceId s → current s) → current (settle old s).
Proof.
  intros C. unfold settle. set (s1 := on_workspace old (default_channel_workspace s)).
  assert (C1 : current s1).
  { apply on_workspace_current. unfold default_channel_workspace.
    by destruct (cf_workspace (channelForm s)), (workspaces s). }
  apply on_workspace_current. intros E. unfold on_target in *. destruct (truthy_id _); [|done].
  by apply (current_frame s1); [symmetry|..].
Qed.

(** Waiting for something else changes neither. *)
Lemma asks_current r o s : panel o = false → people o = false → current s → current (ask r o s).
Proof.
  intros P Q. apply current_frame; try done; cbn; rewrite List.filter_app; cbn; rewrite ?P, ?Q; apply app_nil_r.
Qed.

Lemma returns_current i o s :
  ops s !! i = Some o → panel o = false → people o = false → current s → current (returns i s).
Proof. intros H P Q. apply current_frame; try done; cbn; by eapply filter_other. Qed.

Lemma next_current i o r o' s :
  ops s !! i = Some o → panel o = false → people o = false → panel o' = false → people o' = false →
  current s → current (ask_next i r o' s).
Proof.
  intros H P Q P' Q'. apply current_frame; try done; cbn;
    (erewrite filter_replaced by eassumption); by eapply filter_other.
Qed.

Lemma select_current s t : current s → current (settle (selectedWorkspaceId s) (select_target t s)).
Proof. intros C. apply settle_current. intros _. by apply (current_frame s). Qed.

Lemma lists_current i k ws cs ds s :
  ops s !! i = Some (OLists k) → current s →
  current (settle (selectedWorkspaceId s) (after_lists k (lists_loaded ws cs ds (returns i s)))).
Proof.
  intros H C. assert (R := returns_current i _ s H eq_refl eq_refl C).
  apply settle_current. intros E.
  assert (L : ∀ s', selectedWorkspaceId s' = selectedWorkspaceId s → detail s' = detail s →
    availableUsers s' = availableUsers s → dmUserId s' = dmUserId s → ops s' = ops (returns i s) → current s').
  { intros s' ? ? ? ? O. apply (current_frame (returns i s)); try done; by rewrite O. }
  destruct k as [|x name|d cs' ds'|x]; cbn [after_lists] in *; try (by apply L).
  intros w Hw N. cbn in Hw, E. injection Hw as <-. destruct (R _ E N) as [P Q]. split; [|exact Q].
  destruct P as [[l P]|[P _]]; [left; by exists l|right]. split; [exact P|done].
Qed.

(** Members are changed in the panel of the selected workspace. *)
Lemma member_current b r d s :
  List.filter panel (ops s) = [] → detail s = Some d → current s →
  current (ask r (OMember b (d_id d)) (workspace_note [] s)).
Proof.
  intros F D C w Hw N. destruct (C w Hw N) as [P Q]. split.
  - destruct P as [[l P]|[_ Z0]]; [rewrite F in P; by destruct l|]. right. cbn. split; [|done].
    right. exists b. rewrite List.filter_app, F. cbn. rewrite D in Z0. by injection Z0 as ->.
  - unfold people_of in *. cbn. by rewrite List.filter_app, app_nil_r.
Qed.

(** The answer to the first question about the panel. *)
Lemma panel_answered i o s s' :
  ops s !! i = Some o → panel o = true → people o = false → List.filter panel (take i (ops s)) = [] →
  selectedWorkspaceId s' = selectedWorkspaceId s → availableUsers s' = availableUsers s → dmUserId s' = dmUserId s →
  List.filter panel (ops s') = List.filter panel (delete i (ops s)) →
  List.filter people (ops s') = List.filter people (delete i (ops s)) →
  (∀ w, o = ODetail w ∨ (∃ b, o = OMember b w) ∧ (d_id <$> detail s) = Some w → (d_id <$> detail s') = Some w) →
  current s → current s'.
Proof.
  intros H Po Qo F W A U P Q D C w Hw N. rewrite W in Hw. destruct (C w Hw N) as [X Y].
  destruct (filter_first panel _ _ _ H Po F) as [F1 F2].
  split; [|unfold people_of in *; by rewrite Q, A, U, (filter_other _ _ _ _ H Qo)].
  unfold panel_of. rewrite P, F2. destruct X as [[l X]|[[X|[b X]] Z0]]; rewrite F1 in X.
  - destruct l as [|y l]; injection X as -> X.
    + right. split; [by left|]. apply D. by left.
    + left. by exists l.
  - done.
  - injection X as -> X. right. split; [by left|]. apply D. right. eauto.
Qed.

Lemma workspace_answer_ok i r s : ev_ok s (Answers i r) → current s → current (answer i r s).
Proof.
  intros Ev C. unfold answer. cbn [ev_ok] in Ev. destruct (ops s !! i) as [o|] eqn:H; [|done].
  assert (R : ∀ s', panel o = false → people o = false → current s' → ops s' = ops s → current (returns i s')).
  { intros s' P Q C' O. apply (returns_current i o); try done. by rewrite O. }
  assert (X : ∀ rq o' s', panel o = false → people o = false → panel o' = false → people o' = false →
    current s' → ops s' = ops s → current (ask_next i rq o' s')).
  { intros rq o' s' P Q P' Q' C' O. apply (next_current i o); try done. by rewrite O. }
  destruct o as [k|w| |w| |cs ds|b w|].
  - destruct r; try done. by apply lists_current.
  - destruct Ev as [F (d & -> & <-)]. unfold detail_loaded. destruct (isStaff && can_manage d).
    + apply (panel_answered i (ODetail (d_id d)) s); try done;
        [by eapply filter_replaced|by eapply filter_replaced|]. intros w [[= <-]|[[b [=]] _]]. done.
    + apply (panel_answered i (ODetail (d_id d)) s); try done. intros w [[= <-]|[[b [=]] _]]. done.
  - destruct r as [| | |[l|] | |]; by apply R.
  - destruct Ev as [F (l & -> & M)]. destruct (filter_first people _ _ _ H eq_refl F) as [F1 F2].
    intros v Hv N. destruct (C v Hv N) as [P Q]. split.
    + unfold panel_of in *. cbn. by rewrite (filter_other _ _ _ _ H eq_refl).
    + unfold people_of in *. cbn. rewrite F2. rewrite F1 in Q. destruct Q as [[k Q]|[Q _]]; [|done].
      destruct k as [|y k]; [|injection Q as _ Q; left; by exists k]. injection Q as <- Q. right. split_and!; [done|done|].
      intros u. unfold or_id. destruct l as [|x l]; [done|]. cbn. destruct (u_id x =? 0); [done|].
      intros [= <-]. by inversion M.
  - destruct r as [| | | |[c|]|]; try (by apply R). by apply X.
  - destruct r as [| |[d|]| | |]; try (by apply R). by apply X.
  - assert (F : List.filter panel (take i (ops s)) = []) by (destruct r as [| |[d|]| | |]; try done; by destruct Ev).
    destruct r as [| |[d|]| | |]; apply (panel_answered i (OMember b w) s); try done;
      intros v [[=]|[[b' [= -> ->]] D]]; cbn; try done. by destruct Ev as [_ ->].
  - destruct r as [| | | | |[x|]]; try (by apply R). by apply X.
Qed.

Lemma workspace_step_ok s e : ev_ok s e → current s → current (workspace_step s e).
Proof.
  intros Ev C. destruct e; cbn [workspace_step].
  - by apply select_current.
  - apply settle_current. intros E. by apply (current_frame s); [symmetry|..].
  - unfold default_channel_workspace. cbn. destruct (cf_workspace f), (workspaces s); by apply (current_frame s).
  - by apply (current_frame s).
  - by apply (current_frame s).
  - intros w Hw N. destruct (C w Hw N) as [P Q]. split; [exact P|]. destruct Q as [Q|(Q & A & D)]; [by left|].
    right. split_and!; [done|done|]. cbn. intros x ->. cbn in Ev. apply list_elem_of_fmap in Ev as (y & -> & Hy).
    rewrite Forall_forall in A. by apply A.
  - unfold handleCreateChannel. destruct (cf_workspace _); [|done]. destruct (truthy _); [|done]. by apply asks_current.
  - unfold handleCreateWorkspace. destruct (truthy _); [|done]. by apply asks_current.
  - unfold handleAddWorkspaceMember. destruct (detail s) as [d|] eqn:D; [|done]. destruct (memberToAddId s); [|done].
    by apply (member_current true).
  - unfold handleRemoveWorkspaceMember. destruct (detail s) as [d|] eqn:D; [|done]. by apply (member_current false).
  - unfold handleCreateDm. destruct (selectedWorkspaceId s) as [w|] eqn:W; [|done].
    destruct (dmUserId s); [|done]. destruct (w =? 0); [done|]. by apply asks_current.
  - by apply workspace_answer_ok.
Qed.

(** C24: the panel and the people follow the selected workspace, when the server answers the
    questions about panels, and those about people, in the order in which they were asked and
    without an error, when members are added and removed only while nothing about the panel
    is under way, and when a person is chosen among those offered. However workspaces and
    conversations are then selected, created and reloaded: once nothing about the panel is
    under way it is that of the selected workspace, and once the people were answered, a
    direct message is started in the selected workspace and only with somebody who can be
    written to there. *)
Theorem panel_follows_workspace (target : option Target) (es : list event_) (w : Z) :
  events_ok es (opened_workspaces target) → w ≠ 0 →
  let s := run_workspaces es (opened_workspaces target) in
  selectedWorkspaceId s = Some w →
  (List.filter panel (ops s) = [] → ∃ d, detail s = Some d ∧ d_id d = w)
  ∧ (List.filter people (ops s) = [] → requests (handleCreateDm s) = requests s
     ∨ ∃ u, meets w u ∧ requests (handleCreateDm s) = requests s ++ [CreateDm w u]).
Proof.
  intros Ev N s W. assert (C : current s).
  { unfold s, run_workspaces. assert (G : current (opened_workspaces target)) by (by intros ? [=]).
    clear -Ev G. revert Ev G. generalize (opened_workspaces target). induction es as [|e es IH]; intros s Ev C; [done|].
    destruct Ev as [E Ev]. by apply IH; [|apply workspace_step_ok]. }
  destruct (C w W N) as [P Q]. split.
  - intros E. destruct P as [[l P]|[_ D]]; [rewrite E in P; by destruct l|].
    destruct (detail s) as [d|]; [|done]. injection D as D. eauto.
  - intros E. destruct Q as [[l Q]|(_ & _ & U)]; [rewrite E in Q; by destruct l|].
    unfold handleCreateDm. rewrite W. destruct (dmUserId s) as [u|] eqn:D; [|by left].
    destruct (Z.eqb_spec w 0); [done|]. right. exists u. split; [by apply U|done].
Qed.

End Handlers.

(** ** Examples *)

Definition sample_summary (i w : Z) : Summary := {|
  summary_id := i; workspace_id := w; name := js "general"; position := 0; muted := false; unread_count := 0;
  last_read_at := None; latest_message := None |}.
Definition sample_lists : Reply :=
  GaveLists (Some [{| ws_id := 1; ws_name := js "C1"; member_count := 2 |};
                   {| ws_id := 2; ws_name := js "C2"; member_count := 3 |}])
    (Some [sample_summary 10 1; sample_summary 20 2]) (Some []).
Definition sample_detail (w : Z) : Detail :=
  {| d_id := w; d_name := js "C"; d_count := 2; can_manage := true; members := [] |}.
Definition sample_user (u : Z) : User := {| u_id := u; u_name := js "Ana"; u_mail := js "a@csg" |}.
(** In the example a user is in the workspace of their tens. *)
Definition sample_meets (w u : Z) : Prop := u / 10 = w.
Definition people_in (w : Z) : Reply := GaveUsers (Some [sample_user (w * 10 + 1)]).

Definition sample_run (es : list event_) : State :=
  run_workspaces (λ _, Some 0) true es (opened_workspaces None).

(** The lists come, the first workspace is selected and then the second; the answers for both
    come in order. *)
Definition in_turn : list event_ :=
  [Answers 0 sample_lists; SelectsWorkspace 2; Answers 0 (people_in 1); Answers 0 (GaveDetail (Some (sample_detail 1)));
   Answers 1 (people_in 2); Answers 1 (GaveDetail (Some (sample_detail 2)))].

Lemma panel_follows_workspace_witness :
  ∃ d, detail (sample_run in_turn) = Some d ∧ d_id d = 2.
Proof.
  apply (panel_follows_workspace (λ _, Some 0) true sample_meets None in_turn 2).
  - vm_compute. repeat match goal with
      | |- _ ∧ _ => split
      | |- ∃ _, GaveDetail _ = _ ∧ _ => eexists; split; [reflexivity|]
      | |- ∃ _, GaveUsers _ = _ ∧ _ => eexists; split; [reflexivity|]
      | |- List.Forall _ _ => constructor
      end; first [exact I | reflexivity].
  - done.
  - vm_compute. reflexivity.
  - vm_compute. reflexivity.
Defined.

(** The answers for the second workspace arrive before those for the first, which then win:
    the panel and the people are those of a workspace that is not selected, a member is added
    there, and a direct message is started with somebody of the other workspace. *)
Lemma late_panel_wins :
  let s := sample_run [Answers 0 sample_lists; SelectsWorkspace 2; Answers 2 (people_in 2);
             Answers 2 (GaveDetail (Some (sample_detail 2))); Answers 0 (people_in 1);
             Answers 0 (GaveDetail (Some (sample_detail 1))); ChoosesMember (Some 7); AddsMember; SubmitsDm] in
  selectedWorkspaceId s = Some 2 ∧ d_id <$> detail s = Some 1
  ∧ List.last (take 7 (requests s)) GetLists = GetUsers
  ∧ drop 7 (requests s) = [AddMember 1 7; CreateDm 2 11].
Proof. split_and!; vm_compute; reflexivity. Qed.

(** With all answers in order: a member is added in the panel of the first workspace while that
    of the second is asked for, and the answer puts the panel of the first back. *)
Lemma member_change_moves_panel :
  let s := sample_run [Answers 0 sample_lists; Answers 0 (people_in 1); Answers 0 (GaveDetail (Some (sample_detail 1)));
             ChoosesMember (Some 7); SelectsWorkspace 2; AddsMember; Answers 1 (people_in 2);
             Answers 1 (GaveDetail (Some (sample_detail 2))); Answers 2 (GaveDetail (Some (sample_detail 1)))] in
  selectedWorkspaceId s = Some 2 ∧ d_id <$> detail s = Some 1.
Proof. split_and!; vm_compute; reflexivity. Qed.

(** The panel of a workspace that could not be loaded is that of the workspace before it. *)
Lemma failed_panel_stays :
  let s := sample_run [Answers 0 sample_lists; Answers 0 (people_in 1); Answers 0 (GaveDetail (Some (sample_detail 1)));
             SelectsWorkspace 2; Answers 1 (people_in 2); Answers 1 (GaveDetail None)] in
  selectedWorkspaceId s = Some 2 ∧ d_id <$> detail s = Some 1.
Proof. split_and!; vm_compute; reflexivity. Qed.

(** A new workspace comes with a channel, which the reloaded lists have, but the handler looks
    for it in the lists from before: no conversation is selected. *)
Lemma new_workspace_without_channel :
  let lists := GaveLists (Some [{| ws_id := 3; ws_name := js "C3"; member_count := 1 |}])
                 (Some [sample_summary 10 1; sample_summary 30 3]) (Some []) in
  let s := sample_run [Answers 0 sample_lists; TypesWorkspace {| wf_name := js "C3"; wf_description := [] |};
             SubmitsWorkspace; Answers 2 (GaveDetail (Some (sample_detail 3))); Answers 2 lists] in
  selectedWorkspaceId s = Some 3 ∧ selectedTarget s = None
  ∧ map summary_id (visibleChannels s) = [30].
Proof. split_and!; vm_compute; reflexivity. Qed.
