(* ===== verification/Json.v ===== *)
(** * JSON values

    [JSON.stringify] and [JSON.parse] on the values the clients store: [null],
    booleans, integers, Latin-1 strings, arrays and objects with the order of
    their properties. [parse] is a recursive-descent parser of the JSON grammar
    (fractions, exponents and escapes beyond Latin-1 are outside the model); its
    fuel, the length of its input, is enough for every document [print] writes,
    which [parse_print] proves along with the round trip.

    [JsonCodec] is the interface the storage modules use: how a type is written
    to a value, how it is read back, and that reading gives what was written. *)

From S2P Require Import Prelude.

Inductive json :=
| JNull
| JBool (b : bool)
| JNum (n : Z)
| JStr (s : str)
| JArr (l : list json)
| JObj (l : list (str * json)).

(** Structural induction through the lists. *)
Section Induction.
Context (P : json → Prop).
Context (Hnull : P JNull) (Hbool : ∀ b, P (JBool b)) (Hnum : ∀ n, P (JNum n))
  (Hstr : ∀ s, P (JStr s)) (Harr : ∀ l, Forall P l → P (JArr l))
  (Hobj : ∀ l, Forall (λ kv, P kv.2) l → P (JObj l)).

Fixpoint json_ind' (j : json) : P j :=
  match j with
  | JNull => Hnull
  | JBool b => Hbool b
  | JNum n => Hnum n
  | JStr s => Hstr s
  | JArr l => Harr l ((fix go l : Forall P l :=
      match l with
      | [] => Forall_nil_2 _
      | x :: r => Forall_cons_2 _ _ _ (json_ind' x) (go r)
      end) l)
  | JObj l => Hobj l ((fix go l : Forall (λ kv, P kv.2) l :=
      match l with
      | [] => Forall_nil_2 _
      | x :: r => Forall_cons_2 _ _ _ (json_ind' x.2) (go r)
      end) l)
  end.
End Induction.

(** ** [JSON.stringify] *)

Definition hex_digit (n : N) : ascii :=
  ascii_of_N (if (n <? 10)%N then 48 + n else 87 + n).

Definition escape (c : ascii) : str :=
  if bool_decide (c = "034"%char) then ["\"%char; "034"%char] else
  if bool_decide (c = "\"%char) then js "\\" else
  if bool_decide (c = "008"%char) then js "\b" else
  if bool_decide (c = "009"%char) then js "\t" else
  if bool_decide (c = "010"%char) then js "\n" else
  if bool_decide (c = "012"%char) then js "\f" else
  if bool_decide (c = "013"%char) then js "\r" else
  if (code c <? 32)%N then js "\u00" ++ [hex_digit (code c / 16); hex_digit (code c mod 16)]
  else [c].

Definition quote (s : str) : str := "034"%char :: concat (map escape s) ++ ["034"%char].

Fixpoint print (j : json) : str :=
  match j with
  | JNull => js "null"
  | JBool true => js "true"
  | JBool false => js "false"
  | JNum n => str_of_Z n
  | JStr s => quote s
  | JArr l => "["%char :: join [","%char] (map print l) ++ ["]"%char]
  | JObj l => "{"%char ::
      join [","%char] (map (λ '(k, v), quote k ++ ":"%char :: print v) l) ++ ["}"%char]
  end.

(** ** [JSON.parse] *)

Definition json_space (c : ascii) : bool :=
  has ["032"%char; "009"%char; "010"%char; "013"%char] c.

Definition skip (s : str) : str := drop_while json_space s.

Definition hex_value (c : ascii) : option N :=
  if in_range "0" "9" c then Some (code c - 48)%N
  else if in_range "a" "f" c then Some (code c - 87)%N
  else if in_range "A" "F" c then Some (code c - 55)%N
  else None.

(** The next character of a string: [Some (None, r)] at its closing quote. *)
Definition next_char (s : str) : option (option ascii * str) :=
  match s with
  | [] => None
  | c :: r =>
      if bool_decide (c = "034"%char) then Some (None, r) else
      if (code c <? 32)%N then None else
      if bool_decide (c = "\"%char) then
        match r with
        | "u"%char :: a :: b :: x :: y :: r' =>
            match hex_value a, hex_value b, hex_value x, hex_value y with
            | Some 0%N, Some 0%N, Some h, Some l => Some (Some (ascii_of_N (16 * h + l)), r')
            | _, _, _, _ => None
            end
        | e :: r' =>
            if bool_decide (e = "b"%char) then Some (Some "008"%char, r') else
            if bool_decide (e = "t"%char) then Some (Some "009"%char, r') else
            if bool_decide (e = "n"%char) then Some (Some "010"%char, r') else
            if bool_decide (e = "f"%char) then Some (Some "012"%char, r') else
            if bool_decide (e = "r"%char) then Some (Some "013"%char, r') else
            if has ["034"%char; "\"%char; "/"%char] e then Some (Some e, r') else None
        | [] => None
        end
      else Some (Some c, r)
  end.

(** The characters of a string up to its closing quote. *)
Fixpoint parse_chars_fuel (fuel : nat) (s : str) : option (str * str) :=
  match fuel with
  | O => None
  | S f =>
      match next_char s with
      | None => None
      | Some (None, r) => Some ([], r)
      | Some (Some c, r) => '(t, q) ← parse_chars_fuel f r; Some (c :: t, q)
      end
  end.

Definition parse_chars (s : str) : option (str * str) := parse_chars_fuel (S (length s)) s.

Definition digits_value (s : str) : Z :=
  foldl (λ acc c, 10 * acc + (Z.of_N (code c) - 48)) 0 s.

(** An unsigned integer: [0], or a digit other than [0] and more digits. *)
Definition parse_digits (s : str) : option (Z * str) :=
  let d := take_while is_digit s in
  let r := drop_while is_digit s in
  match d with
  | [] => None
  | [c] => Some (digits_value d, r)
  | c :: _ => if bool_decide (c = "0"%char) then None else Some (digits_value d, r)
  end.

Definition parse_number (s : str) : option (Z * str) :=
  match s with
  | "-"%char :: r => '(n, q) ← parse_digits r; Some (- n, q)
  | _ => parse_digits s
  end.

Definition keyword (w : string) (s : str) : option str :=
  if startsWith s (js w) then Some (drop (length (js w)) s) else None.

Fixpoint parse_value (fuel : nat) (s : str) : option (json * str) :=
  match fuel with
  | O => None
  | S f =>
      match skip s with
      | "034"%char :: r => '(t, q) ← parse_chars r; Some (JStr t, q)
      | "["%char :: r =>
          match skip r with
          | "]"%char :: q => Some (JArr [], q)
          | _ => '(l, q) ← parse_elems f r; Some (JArr l, q)
          end
      | "{"%char :: r =>
          match skip r with
          | "}"%char :: q => Some (JObj [], q)
          | _ => '(l, q) ← parse_members f r; Some (JObj l, q)
          end
      | s' =>
          match keyword "null" s', keyword "true" s', keyword "false" s' with
          | Some q, _, _ => Some (JNull, q)
          | _, Some q, _ => Some (JBool true, q)
          | _, _, Some q => Some (JBool false, q)
          | None, None, None => '(n, q) ← parse_number s'; Some (JNum n, q)
          end
      end
  end
with parse_elems (fuel : nat) (s : str) : option (list json * str) :=
  match fuel with
  | O => None
  | S f =>
      '(v, q) ← parse_value f s;
      match skip q with
      | ","%char :: r => '(l, q') ← parse_elems f r; Some (v :: l, q')
      | "]"%char :: r => Some ([v], r)
      | _ => None
      end
  end
with parse_members (fuel : nat) (s : str) : option (list (str * json) * str) :=
  match fuel with
  | O => None
  | S f =>
      match skip s with
      | "034"%char :: r =>
          '(k, q) ← parse_chars r;
          match skip q with
          | ":"%char :: r' =>
              '(v, q') ← parse_value f r';
              match skip q' with
              | ","%char :: r'' => '(l, q'') ← parse_members f r''; Some ((k, v) :: l, q'')
              | "}"%char :: r'' => Some ([(k, v)], r'')
              | _ => None
              end
          | _ => None
          end
      | _ => None
      end
  end.

(** [JSON.parse], [None] where it throws a [SyntaxError]. *)
Definition parse (s : str) : option json :=
  '(j, r) ← parse_value (S (length s)) s;
  match skip r with [] => Some j | _ => None end.

(** [value.key] on a parsed value ([undefined] is [None]); a repeated property
    has its last value. *)
Definition get (k : str) (j : json) : option json :=
  match j with
  | JObj l => foldl (λ acc '(k', v), if eqs k' k then Some v else acc) None l
  | _ => None
  end.

(** ** Printing and parsing again *)

#[local] Arguments parse_chars : simpl never.
#[local] Arguments skip : simpl never.

Lemma next_escape c r : next_char (escape c ++ r) = Some (Some c, r).
Proof. destruct c as [[] [] [] [] [] [] [] []]; vm_compute; reflexivity. Qed.

Lemma escape_length c : (1 <= length (escape c))%nat.
Proof. unfold escape. repeat case_match; simpl; lia. Qed.

Lemma escapes_length s : (length s <= length (concat (map escape s)))%nat.
Proof.
  induction s as [|c s IH]; [done|]. cbn [map concat length]. rewrite length_app.
  pose proof (escape_length c). lia.
Qed.

Lemma parse_chars_quote s r :
  parse_chars (concat (map escape s) ++ "034"%char :: r) = Some (s, r).
Proof.
  unfold parse_chars.
  assert (G : ∀ f, (length s < f)%nat →
    parse_chars_fuel f (concat (map escape s) ++ "034"%char :: r) = Some (s, r)).
  { induction s as [|c s IH]; intros [|f] Hf; simpl in Hf; try lia; [done|].
    cbn [map concat parse_chars_fuel]. rewrite <- (assoc_L (++)), next_escape, IH by lia. done. }
  apply G. rewrite length_app. pose proof (escapes_length s). lia.
Qed.

(** Digits. *)
Lemma digits_value_app a b : digits_value (a ++ b) = foldl (λ acc c, 10 * acc + (Z.of_N (code c) - 48)) (digits_value a) b.
Proof. unfold digits_value. by rewrite foldl_app. Qed.

Lemma pretty_char_value x : (x < 10)%N → Z.of_N (code (pretty_N_char x)) - 48 = Z.of_N x.
Proof.
  intros H. assert (x = 0 ∨ x = 1 ∨ x = 2 ∨ x = 3 ∨ x = 4 ∨ x = 5 ∨ x = 6 ∨ x = 7 ∨ x = 8 ∨ x = 9)%N
    as E by lia. repeat destruct E as [->|E]; try reflexivity. by subst.
Qed.

Lemma pretty_go_value x s :
  foldl (λ acc c, 10 * acc + (Z.of_N (code c) - 48)) 0 (js (pretty_N_go x s))
  = foldl (λ acc c, 10 * acc + (Z.of_N (code c) - 48)) (Z.of_N x) (js s).
Proof.
  revert s. induction (N.lt_wf_0 x) as [x _ IH]; intros s.
  assert (x = 0 ∨ 0 < x)%N as [->|Hx] by lia; [done|].
  rewrite pretty_N_go_step by done. rewrite IH by (by apply N.div_lt). simpl.
  rewrite pretty_char_value by (by apply N.mod_lt). f_equal.
  pose proof (N.div_mod x 10 ltac:(done)). lia.
Qed.

Lemma digits_value_str n : 0 <= n → digits_value (str_of_Z n) = n.
Proof.
  intros Hn. unfold digits_value, str_of_Z, pretty, pretty_Z. destruct n as [|p|p]; [done| |lia].
  unfold pretty, pretty_positive, pretty, pretty_N. rewrite decide_False by done.
  by rewrite pretty_go_value.
Qed.

Lemma pretty_go_head x s :
  (0 < x)%N → ∃ c r, js (pretty_N_go x s) = c :: r ∧ is_digit c = true ∧ c ≠ "0"%char.
Proof.
  revert s. induction (N.lt_wf_0 x) as [x _ IH]; intros s Hx.
  rewrite pretty_N_go_step by done.
  destruct (decide (x < 10)%N) as [Hs|Hs].
  - rewrite N.div_small, N.mod_small by done. exists (pretty_N_char x), (js s).
    split_and!; [done|apply pretty_N_char_digit|]. intros E.
    pose proof (pretty_char_value x Hs) as V. rewrite E in V. simpl in V. lia.
  - apply IH; [by apply N.div_lt|]. apply N.div_str_pos. lia.
Qed.

(** What follows a number in a printed document. *)
Definition rest_ok (r : str) : Prop := match r with [] => True | c :: _ => is_digit c = false end.

Lemma take_digits_app d r :
  Forall (λ c, is_digit c = true) d → rest_ok r →
  take_while is_digit (d ++ r) = d ∧ drop_while is_digit (d ++ r) = r.
Proof.
  intros F Hr. induction F as [|c d Hc _ [IH1 IH2]]; simpl.
  - destruct r as [|c r]; [done|]. simpl in *. by rewrite Hr.
  - by rewrite Hc, IH1, IH2.
Qed.

Lemma parse_digits_str n r :
  0 <= n → rest_ok r → parse_digits (str_of_Z n ++ r) = Some (n, r).
Proof.
  intros Hn Hr. unfold parse_digits.
  destruct (take_digits_app (str_of_Z n) r) as [-> ->]; [by apply str_of_Z_digits|done|].
  rewrite digits_value_str by done. destruct (decide (n = 0)) as [->|Hnz]; [done|].
  assert (H : ∃ c q, str_of_Z n = c :: q ∧ is_digit c = true ∧ c ≠ "0"%char).
  { unfold str_of_Z, pretty, pretty_Z. destruct n as [|p|p]; [done| |lia].
    unfold pretty, pretty_positive, pretty, pretty_N. rewrite decide_False by done.
    by apply pretty_go_head. }
  destruct H as (c & q & -> & _ & Hc). destruct q; [done|]. by rewrite bool_decide_eq_false_2.
Qed.

Lemma str_of_Z_neg p : str_of_Z (Z.neg p) = "-"%char :: str_of_Z (Z.pos p).
Proof. done. Qed.

(** A number is written with digits and a minus sign. *)
Lemma str_of_Z_chars n c : is_digit c = false → c ≠ "-"%char →
  Forall (λ x, negb (bool_decide (x = c)) = true) (str_of_Z n).
Proof.
  intros Hc Hm.
  assert (D : ∀ p, 0 <= p → Forall (λ x, negb (bool_decide (x = c)) = true) (str_of_Z p)).
  { intros p Hp. eapply Forall_impl; [by apply str_of_Z_digits|]. intros x Hx. simpl in Hx.
    rewrite bool_decide_eq_false_2; [done|]. intros ->. congruence. }
  destruct n as [|p|p]; [by apply D|by apply D|].
  rewrite str_of_Z_neg. constructor; [by rewrite bool_decide_eq_false_2|by apply D].
Qed.

Lemma str_of_Z_head n : ∃ c r, str_of_Z n = c :: r ∧ (is_digit c = true ∨ c = "-"%char).
Proof.
  destruct n as [|p|p].
  - by exists "0"%char, []; auto.
  - pose proof (str_of_Z_nonempty (Z.pos p)) as N.
    pose proof (str_of_Z_digits (Z.pos p) ltac:(lia)) as F.
    destruct (str_of_Z (Z.pos p)) as [|c r]; [done|]. exists c, r.
    apply Forall_cons in F as [F _]. auto.
  - rewrite str_of_Z_neg. eauto.
Qed.

Lemma parse_number_str n r : rest_ok r → parse_number (str_of_Z n ++ r) = Some (n, r).
Proof.
  intros Hr. destruct n as [|p|p].
  - by apply (parse_digits_str 0).
  - unfold parse_number. pose proof (parse_digits_str (Z.pos p) r ltac:(lia) Hr) as D.
    pose proof (str_of_Z_nonempty (Z.pos p)) as N.
    pose proof (str_of_Z_digits (Z.pos p) ltac:(lia)) as F.
    destruct (str_of_Z (Z.pos p)) as [|c q]; [done|].
    apply Forall_cons in F as [F _]. simpl app in *.
    destruct c as [[] [] [] [] [] [] [] []]; try (vm_compute in F; discriminate); exact D.
  - rewrite str_of_Z_neg. simpl app. unfold parse_number. by rewrite parse_digits_str by (lia || done).
Qed.

Lemma print_head j : ∃ c r, print j = c :: r ∧ json_space c = false ∧ c ≠ "]"%char.
Proof.
  destruct j as [|[]|n|s|l|l]; simpl; try (eexists _, _; by split_and!).
  destruct (str_of_Z_head n) as (c & r & -> & H). exists c, r. split; [done|].
  destruct H as [H | ->]; [|done].
  destruct c as [[] [] [] [] [] [] [] []]; vm_compute in H; try discriminate; done.
Qed.

Lemma skip_cons c s : json_space c = false → skip (c :: s) = c :: s.
Proof. unfold skip. simpl. by intros ->. Qed.

Lemma skip_print j r : skip (print j ++ r) = print j ++ r.
Proof.
  destruct (print_head j) as (c & q & -> & Hc & _). simpl. unfold skip. simpl. by rewrite Hc.
Qed.

Lemma parse_value_number f n r :
  rest_ok r → parse_value (S f) (str_of_Z n ++ r) = Some (JNum n, r).
Proof.
  intros Hr. pose proof (parse_number_str n r Hr) as N.
  pose proof (skip_print (JNum n) r) as K. simpl print in K.
  cbn [parse_value]. rewrite K.
  destruct (str_of_Z_head n) as (c & q & E & H). rewrite E in *. simpl app in *.
  destruct c as [[] [] [] [] [] [] [] []];
    try (destruct H as [H|H]; [vm_compute in H|]; discriminate); cbn [keyword];
    (rewrite N; reflexivity).
Qed.

(** The fuel a value takes. *)
Fixpoint need (j : json) : nat :=
  match j with
  | JArr l => S (list_sum (map (λ x, S (need x)) l))
  | JObj l => S (list_sum (map (λ '(_, x), S (need x)) l))
  | _ => 1
  end.

Definition parses (j : json) : Prop :=
  ∀ f r, (need j <= f)%nat → rest_ok r → parse_value f (print j ++ r) = Some (j, r).

Lemma parse_elems_print l r f :
  l ≠ [] → Forall parses l → (list_sum (map (λ x, S (need x)) l) <= f)%nat →
  parse_elems f (join [","%char] (map print l) ++ "]"%char :: r) = Some (l, r).
Proof.
  intros N F. revert f. induction F as [|x l Hx F IH]; [done|]. intros f Hf.
  cbn [map list_sum foldr] in Hf. destruct f as [|f]; [lia|].
  cbn [map]. destruct l as [|y l].
  - cbn [join map]. cbn [parse_elems]. rewrite Hx by (done || simpl in Hf; lia). done.
  - assert (E : join [","%char] (print x :: map print (y :: l)) ++ "]"%char :: r
              = print x ++ ","%char :: join [","%char] (map print (y :: l)) ++ "]"%char :: r).
    { cbn [join map]. by rewrite <- !(assoc_L (++)). }
    rewrite E. cbn [parse_elems]. rewrite Hx by (done || lia). cbn -[join map skip].
    rewrite skip_cons by reflexivity. rewrite IH; [done|done|]. change (list_sum (map (λ x, S (need x)) (y :: l)))
      with (foldr Nat.add 0%nat (map (λ x, S (need x)) (y :: l))). lia.
Qed.

Definition print_member (kv : str * json) : str := quote kv.1 ++ ":"%char :: print kv.2.

Lemma print_obj l :
  print (JObj l) = "{"%char :: join [","%char] (map print_member l) ++ ["}"%char].
Proof. cbn [print]. do 3 f_equal. apply map_ext. by intros []. Qed.

Lemma parse_members_print l r f :
  l ≠ [] → Forall (λ kv, parses kv.2) l → (list_sum (map (λ kv, S (need kv.2)) l) <= f)%nat →
  parse_members f (join [","%char] (map print_member l) ++ "}"%char :: r) = Some (l, r).
Proof.
  intros N F. revert f. induction F as [|[k x] l Hx F IH]; [done|]. intros f Hf.
  cbn [map list_sum foldr] in Hf. destruct f as [|f]; [lia|]. simpl in Hx.
  assert (M : ∀ q, print_member (k, x) ++ q
            = "034"%char :: concat (map escape k) ++ "034"%char :: ":"%char :: print x ++ q).
  { intros q. unfold print_member, quote. simpl. by rewrite <- !(assoc_L (++)). }
  cbn [map]. destruct l as [|y l].
  - cbn [join map]. rewrite M. cbn -[concat map print skip]. rewrite skip_cons by reflexivity.
    rewrite parse_chars_quote. cbn -[print skip]. rewrite skip_cons by reflexivity.
    rewrite Hx by (done || simpl in Hf; lia). done.
  - assert (E : join [","%char] (print_member (k, x) :: map print_member (y :: l)) ++ "}"%char :: r
              = print_member (k, x) ++ ","%char ::
                join [","%char] (map print_member (y :: l)) ++ "}"%char :: r).
    { cbn [join map]. by rewrite <- !(assoc_L (++)). }
    rewrite E, M. cbn -[concat map print join skip]. rewrite skip_cons by reflexivity.
    rewrite parse_chars_quote. cbn -[print join map skip]. rewrite skip_cons by reflexivity.
    rewrite Hx by (done || simpl in Hf; lia). cbn -[join map skip].
    rewrite skip_cons by reflexivity. rewrite IH; [done|done|]. change (list_sum (map (λ kv : str * json, S (need kv.2)) (y :: l)))
      with (foldr Nat.add 0%nat (map (λ kv : str * json, S (need kv.2)) (y :: l))).
    simpl in Hf |- *. lia.
Qed.

(** The first member of an array or object is not its closing bracket. *)
Lemma skip_open (w : str) (ws : list str) (c : ascii) (q r : str) :
  w = c :: q → json_space c = false →
  ∃ q', skip (join [","%char] (w :: ws) ++ r) = c :: q'.
Proof.
  intros -> Hc. destruct ws; cbn [join]; simpl app; rewrite skip_cons by done; by eexists.
Qed.

Lemma parse_value_print j : parses j.
Proof.
  induction j as [|b|n|s|l F|l F] using json_ind'; intros f r Hf Hr;
    (destruct f as [|f]; [simpl in Hf; lia|]).
  - done.
  - by destruct b.
  - by apply parse_value_number.
  - cbn [print]. unfold quote. simpl app. rewrite <- (assoc_L (++)).
    cbn -[concat map skip]. rewrite skip_cons by reflexivity. by rewrite parse_chars_quote.
  - cbn [print]. simpl app. rewrite <- (assoc_L (++)). destruct l as [|x l]; [done|].
    cbn -[skip join map parse_elems]. rewrite skip_cons by reflexivity.
    destruct (print_head x) as (c & q & E & Hc & Hn).
    destruct (skip_open (print x) (map print l) c q ("]"%char :: r) E Hc) as [q' K].
    change (print x :: map print l) with (map print (x :: l)) in K. rewrite K.
    rewrite parse_elems_print; [|done|done|simpl in Hf |- *; lia].
    destruct c as [[] [] [] [] [] [] [] []]; done.
  - rewrite print_obj. simpl app. rewrite <- (assoc_L (++)). destruct l as [|[k x] l]; [done|].
    cbn -[skip join map parse_members]. rewrite skip_cons by reflexivity.
    destruct (skip_open (print_member (k, x)) (map print_member l) "034"%char
      (concat (map escape k) ++ "034"%char :: ":"%char :: print x) ("}"%char :: r)) as [q' K].
    { unfold print_member, quote. simpl. by rewrite <- (assoc_L (++)). }
    { done. }
    change (print_member (k, x) :: map print_member l) with (map print_member ((k, x) :: l)) in K.
    rewrite K. rewrite parse_members_print; [done|done|done|]. simpl in Hf |- *.
    replace (map (λ kv : str * json, S (need kv.2)) l) with (map (λ '(_, x), S (need x)) l)
      by (apply map_ext; by intros []). lia.
Qed.

Lemma need_length j : (need j <= length (print j))%nat.
Proof.
  induction j as [|b|n|s|l F|l F] using json_ind'.
  - simpl. lia.
  - destruct b; simpl; lia.
  - simpl. pose proof (str_of_Z_nonempty n). destruct (str_of_Z n); [done|]. simpl. lia.
  - simpl. lia.
  - cbn [need print length]. rewrite length_app. simpl length.
    assert (G : (list_sum (map (λ x, S (need x)) l) <= S (length (join [","%char] (map print l))))%nat);
      [|lia].
    induction F as [|x l Hx F IH]; [simpl; lia|].
    destruct l as [|y l]; [simpl; lia|].
    change (join [","%char] (map print (x :: y :: l)))
      with (print x ++ [","%char] ++ join [","%char] (map print (y :: l))).
    rewrite !length_app. change (list_sum (map (λ x, S (need x)) (x :: y :: l)))
      with (S (need x) + list_sum (map (λ x, S (need x)) (y :: l)))%nat. simpl length in *. lia.
  - rewrite print_obj. cbn [need length]. rewrite length_app. simpl length.
    assert (G : (list_sum (map (λ '(_, x), S (need x)) l)
                 <= S (length (join [","%char] (map print_member l))))%nat); [|lia].
    induction F as [|[k x] l Hx F IH]; [simpl; lia|].
    assert (M : (need x <= length (print_member (k, x)))%nat).
    { unfold print_member. rewrite length_app. simpl in *. lia. }
    destruct l as [|y l]; [simpl in *; lia|].
    change (join [","%char] (map print_member ((k, x) :: y :: l)))
      with (print_member (k, x) ++ [","%char] ++ join [","%char] (map print_member (y :: l))).
    rewrite !length_app. change (list_sum (map (λ '(_, x), S (need x)) ((k, x) :: y :: l)))
      with (S (need x) + list_sum (map (λ '(_, x), S (need x)) (y :: l)))%nat. simpl length in *. lia.
Qed.

(** Parsing a printed document gives it back. *)
Lemma parse_print j : parse (print j) = Some j.
Proof.
  unfold parse. pose proof (parse_value_print j (S (length (print j))) []) as H.
  rewrite app_nil_r in H. rewrite H; [done| |done]. pose proof (need_length j). lia.
Qed.

Lemma print_inj j k : print j = print k → j = k.
Proof. intros E. assert (Some j = Some k) as [= ->]; [|done]. by rewrite <- !parse_print, E. Qed.

(** ** Reading and writing typed values *)

Class JsonCodec (A : Type) := {
  to_json : A → json;
  of_json : json → option A;
  of_to_json : ∀ a, of_json (to_json a) = Some a;
}.

Section Codec.
Context {A : Type} `{JsonCodec A}.

(** [JSON.stringify(value)], and [JSON.parse] with the checks of its reader. *)
Definition stringify (a : A) : str := print (to_json a).
Definition parse_as (s : str) : option A := j ← parse s; of_json j.

Lemma parse_stringify a : parse_as (stringify a) = Some a.
Proof. unfold parse_as, stringify. rewrite parse_print. simpl. apply of_to_json. Qed.
End Codec.

#[export] Hint Rewrite parse_print @parse_stringify @of_to_json : csg.
