(* ===== verification/ApiClient.v ===== *)
(** * The API clients

    - [Web]: [fetchApi] of [web/src/lib/api.ts], with its retries, its fallback to
      the response cache in [localStorage], and the cache's keys, freshness and
      clearing;
    - [Mobile]: [CsgApi.request] and [transcribeVoice] of [mobile/src/lib/api.ts].

    The network is the sequence of answers to the requests a call sends; the
    definitions also return the log of those requests, so that theorems can speak
    about what reaches the server. *)

From S2P Require Import Prelude.
From S2P Require Import Json.
From S2P Require Import Url.

Module Web.

Inductive ErrorKind := auth | forbidden | not_found | server | network | timeout | unknown.

(** [null] and [undefined] members are [None]. *)
Record ApiResponse := {
  data : option json;
  error : option str;
  status : option Z;
  errorKind : option ErrorKind;
  errorCode : option str;
  fromCache : bool;
  cacheAgeMs : option Z;
}.

Definition RETRYABLE_STATUSES : list Z := [429; 500; 502; 503; 504].
Definition CACHE_FALLBACK_STATUSES : list Z := [408; 429; 500; 502; 503; 504].
Definition CACHE_PREFIX : str := js "csg-api-cache:".
Definition CACHE_MAX_AGE_MS : Z := 1000 * 60 * 60 * 24 * 7.

(** ** Errors *)

(** An element of [errors] where [join] makes a string of it. *)
Fixpoint join_item (j : json) : str :=
  match j with
  | JStr s => s
  | JNull => []
  | JArr l => join (js ",") (map join_item l)
  | JObj _ => js "[object Object]"
  | _ => print j
  end.

Definition errorMessage (errorBody : json) (status : Z) : str :=
  match get (js "error") errorBody, get (js "errors") errorBody with
  | Some (JStr e), _ => e
  | _, Some (JArr l) => join (js ", ") (map join_item l)
  | _, _ => js "Request failed with status " ++ str_of_Z status
  end.

Definition apiErrorCode (errorBody : json) : option str :=
  match get (js "code") errorBody with Some (JStr c) => Some c | _ => None end.

Definition errorKindForStatus (status : Z) : ErrorKind :=
  if status =? 401 then auth
  else if status =? 403 then forbidden
  else if status =? 404 then not_found
  else if 500 <=? status then server
  else unknown.

(** ** The response cache

    [localStorage] as a map; a storage that throws behaves as one that keeps and
    holds nothing. *)

Abbreviation Storage := (gmap str str).

Definition cacheKey (scope endpoint : str) : str :=
  CACHE_PREFIX ++ scope ++ js ":" ++ endpoint.

Definition shouldCacheResponse (endpoint : str) (d : option json) : bool :=
  match d with
  | Some (JObj _ as v) | Some (JArr _ as v) =>
      if startsWith endpoint (js "/api/v1/help_requests")
         || eqs endpoint (js "/api/v1/support_queue") then false
      else if eqs endpoint (js "/api/v1/dashboard") then
        match get (js "dashboard") v with
        | Some dashboard => match get (js "enrolled") dashboard with
                            | Some (JBool _) => true | _ => false end
        | None => false
        end
      else if eqs endpoint (js "/api/v1/resources") then
        match get (js "resources") v with Some (JArr _) => true | _ => false end
      else if eqs endpoint (js "/api/v1/recordings") then
        match get (js "recordings") v, get (js "s3_recordings") v with
        | Some (JArr _), _ | _, Some (JArr _) => true
        | _, _ => false
        end
      else true
  | _ => false
  end.

Definition writeCachedResponse (scope : option str) (endpoint : str) (d : json) (now : Z)
    (store : Storage) : Storage :=
  match scope with
  | Some s =>
      if truthy s
      then <[cacheKey s endpoint := print (JObj [(js "data", d); (js "savedAt", JNum now)])]> store
      else store
  | None => store
  end.

(** [savedAt] is read as the number the writer stores. *)
Definition readCachedResponse (scope : option str) (endpoint : str) (now : Z) (store : Storage)
    : option ApiResponse :=
  s ← scope;
  if negb (truthy s) then None else
  raw ← store !! cacheKey s endpoint;
  if negb (truthy raw) then None else
  parsed ← parse raw;
  match get (js "savedAt") parsed with
  | Some (JNum savedAt) =>
      if (savedAt =? 0) || (CACHE_MAX_AGE_MS <? now - savedAt) then None else
      if negb (shouldCacheResponse endpoint (get (js "data") parsed)) then None else
      Some {| data := get (js "data") parsed; error := None; status := None; errorKind := None;
              errorCode := None; fromCache := true; cacheAgeMs := Some (now - savedAt) |}
  | _ => None
  end.

Definition clearApiCache (scope : option str) (store : Storage) : Storage :=
  match scope with
  | Some s =>
      if truthy s then
        let scopedPrefix := CACHE_PREFIX ++ s ++ js ":" in
        let invalidScopePrefix := CACHE_PREFIX ++ js "null:" in
        filter (λ '(k, _), ¬ (startsWith k scopedPrefix || startsWith k invalidScopePrefix)) store
      else store
  | None => store
  end.

(** ** Requests *)

(** One answer to a request: a response with its body, or a rejected promise. *)
Inductive Answer :=
| Response (code : Z) (body : str)
| Rejected (aborted : bool) (message : str).

Record Call := { endpoint : str; method : str; requireAuth : bool }.

(** A request that was sent: the token it carried, whether the token was renewed
    for it, and how long the client waited before it. *)
Record Sent := { token : option str; renewed : bool; waited : Z }.

(** What a call depends on: the answers, the tokens, the clock, [Math.random] and
    the text of a [SyntaxError]. *)
Record World := {
  answer : nat → Answer;
  getAuthToken : option (bool → option str);
  now : Z;
  online : bool;
  random : nat → Q;
  syntaxError : str → str;
}.

Definition ok_status (code : Z) : bool := (200 <=? code) && (code <=? 299).

Definition canRetry (c : Call) : bool := has [js "GET"; js "HEAD"] (method c).
Definition maxAttempts (c : Call) : nat := if canRetry c then 3 else 2.

Definition waitForRetry (w : World) (attempt : nat) : Z :=
  400 * Z.of_nat attempt * Z.of_nat attempt + Qfloor (random w attempt * 250).

Definition networkErrorMessage (w : World) (message : str) : str :=
  if negb (online w) then js "You appear to be offline. Showing saved data when available."
  else message.

Definition with_error (r : ApiResponse) (e : str) (st : option Z) (k : ErrorKind)
    (c : option str) : ApiResponse := {|
  data := data r; error := Some e; status := st; errorKind := Some k; errorCode := c;
  fromCache := fromCache r; cacheAgeMs := cacheAgeMs r |}.

Definition failure (e : str) (st : option Z) (k : ErrorKind) (c : option str) : ApiResponse := {|
  data := None; error := Some e; status := st; errorKind := Some k; errorCode := c;
  fromCache := false; cacheAgeMs := None |}.

Definition success (d : option json) (st : Z) : ApiResponse := {|
  data := d; error := None; status := Some st; errorKind := None; errorCode := None;
  fromCache := false; cacheAgeMs := None |}.

(** How one attempt ends: with a result, or by trying again. *)
Inductive Verdict :=
| Done (r : ApiResponse) (store : Storage)
| Again (forceRefresh : bool) (didRetryUnauthorized : bool).

Section Fetch.
Context (w : World) (c : Call) (cacheScope : option str).

Definition canUseCache : bool :=
  requireAuth c && eqs (method c) (js "GET")
  && match cacheScope with Some s => truthy s | None => false end.

(** The body of the [catch] clause. *)
Definition on_exception (attempt : nat) (didRetry aborted : bool) (message : str)
    (store : Storage) : Verdict :=
  let kind := if aborted then timeout else network in
  let text := if aborted then js "Request timed out. Check your connection and try again."
              else networkErrorMessage w message in
  if canRetry c && (attempt <? maxAttempts c)%nat then Again false didRetry
  else
    match (if canUseCache then readCachedResponse cacheScope (endpoint c) (now w) store
           else None) with
    | Some cached => Done (with_error cached text (status cached) kind (errorCode cached)) store
    | None => Done (failure text None kind None) store
    end.

(** The body of the [try] clause, once the response is there. *)
Definition on_answer (attempt : nat) (didRetry : bool) (a : Answer) (store : Storage)
    : Verdict :=
  match a with
  | Rejected aborted message => on_exception attempt didRetry aborted message store
  | Response code body =>
      if negb (ok_status code) then
        let errorBody := default (JObj []) (parse body) in
        let error := errorMessage errorBody code in
        let errorCode := apiErrorCode errorBody in
        let retryUnauthorized := (code =? 401) && negb didRetry in
        let retryTransient := canRetry c && has RETRYABLE_STATUSES code in
        if retryUnauthorized && (attempt <? maxAttempts c)%nat then Again true true
        else if retryTransient && (attempt <? maxAttempts c)%nat then Again false didRetry
        else
          match (if canUseCache && has CACHE_FALLBACK_STATUSES code
                 then readCachedResponse cacheScope (endpoint c) (now w) store else None) with
          | Some cached =>
              Done (with_error cached error (Some code) (errorKindForStatus code) errorCode) store
          | None => Done (failure error (Some code) (errorKindForStatus code) errorCode) store
          end
      else if code =? 204 then Done (success None code) store
      else if negb (truthy body) then Done (success None code) store
      else
        match parse body with
        | None => on_exception attempt didRetry false (syntaxError w body) store
        | Some d =>
            Done (success (Some d) code)
              (if canUseCache && shouldCacheResponse (endpoint c) (Some d)
               then writeCachedResponse cacheScope (endpoint c) d (now w) store else store)
        end
  end.

(** The token of a request. *)
Definition request_token (force : bool) : option str :=
  if requireAuth c then
    match getAuthToken w with
    | Some getToken => match getToken force with
                       | Some t => if truthy t then Some t else None | None => None end
    | None => None
    end
  else None.

(** [for (let attempt = 1; attempt <= maxAttempts; attempt += 1)], with the
    attempts that are left; returns the result, the requests sent and the store. *)
Fixpoint attempts (remaining attempt : nat) (force didRetry : bool) (waited : Z) (store : Storage)
    : ApiResponse * list Sent * Storage :=
  match remaining with
  | O => (failure (js "Request failed") None unknown None, [], store)
  | S remaining =>
      let sent := {| token := request_token force; renewed := force; waited := waited |} in
      match on_answer attempt didRetry (answer w attempt) store with
      | Done r store' => (r, [sent], store')
      | Again force' didRetry' =>
          let '(r, log, store') :=
            attempts remaining (S attempt) force' didRetry' (waitForRetry w attempt) store in
          (r, sent :: log, store')
      end
  end.

Definition fetchApi (store : Storage) : ApiResponse * list Sent * Storage :=
  attempts (maxAttempts c) 1 false false 0 store.

End Fetch.

(** ** How often a request is sent *)

Section Budget.
Context (w : World) (c : Call) (scope : option str).

Abbreviation on_answer := (on_answer w c scope).

(** Why an attempt is followed by another. *)
Definition may_retry (didRetry : bool) (a : Answer) : Prop :=
  match a with
  | Response code body => (code = 401 ∧ didRetry = false) ∨ canRetry c = true
  | Rejected _ _ => canRetry c = true
  end.

Lemma again_spec attempt didRetry a store f d :
  on_answer attempt didRetry a store = Again f d →
  (attempt < maxAttempts c)%nat ∧ may_retry didRetry a ∧ (canRetry c = false → d = true).
Proof.
  assert (X : ∀ ab m, on_exception w c scope attempt didRetry ab m store = Again f d →
    (attempt < maxAttempts c)%nat ∧ canRetry c = true).
  { intros ab m. unfold on_exception. destruct (canRetry c && _) eqn:E; [|by repeat case_match].
    apply andb_true_iff in E as [-> ?%Nat.ltb_lt]. done. }
  destruct a as [code body|ab m]; simpl.
  - unfold Web.on_answer. destruct (ok_status code); simpl.
    + destruct (code =? 204); [done|]. destruct (truthy body); simpl; [|done].
      destruct (parse body); [done|]. intros [? R]%X. split_and!; [done|by right|by rewrite R].
    + destruct ((code =? 401) && negb didRetry && (attempt <? maxAttempts c)%nat) eqn:E.
      * intros [= <- <-]. apply andb_true_iff in E as [E ?%Nat.ltb_lt].
        apply andb_true_iff in E as [?%Z.eqb_eq ?%negb_true_iff].
        split; [done|split; [by left|done]].
      * destruct (canRetry c && _ && _) eqn:E2; [|by repeat case_match].
        apply andb_true_iff in E2 as [E2 ?%Nat.ltb_lt]. apply andb_true_iff in E2 as [E2 _].
        intros _; split_and!; [done|by right|by rewrite E2].
  - unfold Web.on_answer. intros [? R]%X. split_and!; [done|done|by rewrite R].
Qed.

Lemma attempts_length n attempt force didRetry wait store r log store' :
  (attempt + n = S (maxAttempts c))%nat → (0 < n)%nat →
  attempts w c scope n attempt force didRetry wait store = (r, log, store') →
  (1 <= length log <= n)%nat.
Proof.
  revert attempt force didRetry wait log. induction n as [|n IH];
    intros attempt force didRetry wait log Ha Hn; [lia|].
  cbn [attempts]. destruct (on_answer attempt didRetry _ store) as [r' st'|f d] eqn:E.
  - intros [= <- <- <-]. simpl. lia.
  - apply again_spec in E as (Hlt & _).
    destruct (attempts w c scope n _ _ _ _ store) as [[r' log'] st'] eqn:E2.
    intros [= <- <- <-]. apply IH in E2; simpl; lia.
Qed.

(** A request that may not be repeated is sent again only after a [401]. *)
Lemma attempts_mutation r log store store' :
  canRetry c = false →
  attempts w c scope 2 1 false false 0 store = (r, log, store') →
  length log = 1%nat
  ∨ (length log = 2%nat ∧ ∃ body, answer w 1 = Response 401 body).
Proof.
  intros Hc. cbn [attempts]. destruct (on_answer 1 false _ store) as [r' st'|f d] eqn:E.
  - intros [= <- <- <-]. by left.
  - apply again_spec in E as (_ & M & D). rewrite (D Hc).
    assert (A : ∃ body, answer w 1 = Response 401 body).
    { unfold may_retry in M. rewrite Hc in M. destruct (answer w 1) as [code body|]; [|done].
      destruct M as [[-> _]|]; [by exists body|done]. }
    destruct (on_answer 2 true _ store) as [r' st'|f' d'] eqn:E2.
    + intros [= <- <- <-]. right. done.
    + apply again_spec in E2 as (L & _). unfold maxAttempts in L. rewrite Hc in L. lia.
Qed.

Lemma attempts_waits n attempt force didRetry wait store r log store' :
  (∀ k, 0 <= random w k < 1)%Q →
  0 <= wait < 400 * Z.of_nat (attempt - 1) * Z.of_nat (attempt - 1) + 250 → (1 <= attempt)%nat →
  (attempt + n = S (maxAttempts c))%nat →
  attempts w c scope n attempt force didRetry wait store = (r, log, store') →
  Forall (λ s, 0 <= waited s < 1850) log.
Proof.
  intros Hr. revert attempt force didRetry wait log.
  assert (M : (maxAttempts c <= 3)%nat) by (unfold maxAttempts; destruct (canRetry c); lia).
  induction n as [|n IH]; intros attempt force didRetry wait log Hw H1 Ha; cbn [attempts].
  { intros [= <- <- <-]. constructor. }
  assert (W : 0 <= wait < 1850).
  { assert (attempt = 1 ∨ attempt = 2 ∨ attempt = 3)%nat as E by lia.
    repeat destruct E as [->|E]; try subst; simpl in Hw; lia. }
  destruct (on_answer attempt didRetry _ store) as [r' st'|f d] eqn:E.
  - intros [= <- <- <-]. apply Forall_singleton; exact W.
  - apply again_spec in E as (Hlt & _).
    destruct (attempts w c scope n _ _ _ _ store) as [[r' log'] st'] eqn:E2.
    intros [= <- <- <-]. constructor; [done|]. eapply IH; [| | |exact E2]; [|lia|lia].
    replace (S attempt - 1)%nat with attempt by lia. unfold waitForRetry.
    assert (J : 0 <= Qfloor (random w attempt * 250) < 250).
    { specialize (Hr attempt) as [H0 H2]. split.
      - apply Z.le_trans with (Qfloor 0); [done|]. apply Qfloor_resp_le. lra.
      - rewrite Zlt_Qlt. eapply Qle_lt_trans; [apply Qfloor_le|]. unfold inject_Z. lra. }
    lia.
Qed.

(** C29: A call reaches the server at least once and at most three times (twice
    when its method is not GET or HEAD). A call that is not a GET or HEAD is sent
    a second time only when the first was answered with 401: never after a
    timeout, a lost connection or a server error, where the first may have taken
    effect. Waits between requests stay below 1.85 seconds. *)
Theorem fetch_request_budget (store : Storage) :
  (∀ k, 0 <= random w k < 1)%Q →
  let '(_, log, _) := fetchApi w c scope store in
  (1 <= length log <= if canRetry c then 3 else 2)%nat
  ∧ (canRetry c = false → length log = 2%nat → ∃ body, answer w 1 = Response 401 body)
  ∧ Forall (λ s, 0 <= waited s < 1850) log.
Proof.
  intros Hr. destruct (fetchApi w c scope store) as [[r log] store'] eqn:E.
  unfold fetchApi in E. split; [|split].
  - apply attempts_length in E; [|lia|unfold maxAttempts; destruct (canRetry c); lia].
    exact E.
  - intros Hc L. unfold maxAttempts in E. rewrite Hc in E.
    apply attempts_mutation in E as [?|[_ ?]]; [lia|done|done].
  - eapply (attempts_waits (maxAttempts c) 1); [done| | | |exact E]; simpl; lia.
Qed.

End Budget.

(** ** What the cache may answer *)

Section Cache.

(** Scopes and endpoints as the program makes them: a scope has no slash, an
    endpoint is a path. *)
Definition scope_ok (s : str) : Prop := Forall (λ c, negb (bool_decide (c = "/"%char)) = true) s.
Definition endpoint_ok (e : str) : Prop := ∃ r, e = "/"%char :: r.

Lemma cacheKey_inj s s' e e' :
  scope_ok s → scope_ok s' → endpoint_ok e → endpoint_ok e' →
  cacheKey s e = cacheKey s' e' → s = s' ∧ e = e'.
Proof.
  intros Hs Hs' [r ->] [r' ->] E. unfold cacheKey in E. apply app_inv_head in E.
  assert (K : ∀ t q, t ++ js ":" ++ "/"%char :: q = (t ++ js ":") ++ "/"%char :: q)
    by (intros; by rewrite <- (assoc_L (++))).
  rewrite !K in E. apply (run_sep_inj (λ c, negb (bool_decide (c = "/"%char)))) in E as [E ->].
  - by apply app_inv_tail in E as ->.
  - done.
  - apply Forall_app. split; [done|by repeat constructor].
  - apply Forall_app. split; [done|by repeat constructor].
Qed.

(** A fresh answer of the server: scope, endpoint, time, data. *)
Definition Fresh : Type := str * str * Z * json.

Definition entry (d : json) (t : Z) : str :=
  print (JObj [(js "data", d); (js "savedAt", JNum t)]).

(** Every entry of the cache is an answer the server gave. *)
Definition recorded (hist : list Fresh) (store : Storage) : Prop :=
  ∀ s e v, scope_ok s → endpoint_ok e → store !! cacheKey s e = Some v →
  ∃ t d, (s, e, t, d) ∈ hist ∧ v = entry d t.

(** What happens to the store: a call, or the cache of a scope is cleared. *)
Inductive event :=
| Fetch (w : World) (c : Call) (scope : option str)
| Clear (scope : option str).

Definition event_ok (ev : event) : Prop :=
  match ev with
  | Fetch w c (Some s) => scope_ok s ∧ endpoint_ok (endpoint c)
  | Fetch w c None => endpoint_ok (endpoint c)
  | Clear _ => True
  end.

Definition store_after (store : Storage) (ev : event) : Storage :=
  match ev with
  | Fetch w c scope => (fetchApi w c scope store).2
  | Clear scope => clearApiCache scope store
  end.

(** The server's answer in an event, when it has one. *)
Definition fresh_of (store : Storage) (ev : event) : list Fresh :=
  match ev with
  | Fetch w c (Some s) =>
      let r := (fetchApi w c (Some s) store).1.1 in
      match data r with
      | Some d => if fromCache r then [] else [(s, endpoint c, now w, d)]
      | None => []
      end
  | _ => []
  end.

Fixpoint history (store : Storage) (evs : list event) : list Fresh :=
  match evs with
  | [] => []
  | ev :: r => fresh_of store ev ++ history (store_after store ev) r
  end.

Lemma read_entry s e t store d now r :
  store !! cacheKey s e = Some (entry d t) →
  readCachedResponse (Some s) e now store = Some r →
  data r = Some d ∧ now - t <= CACHE_MAX_AGE_MS ∧ shouldCacheResponse e (Some d) = true.
Proof.
  intros L. unfold readCachedResponse. cbn [mbind option_bind].
  destruct (truthy s); cbn [negb]; [|done]. rewrite L. cbn [mbind option_bind]. unfold entry.
  set (j := JObj [(js "data", d); (js "savedAt", JNum t)]).
  assert (T : truthy (print j) = true) by reflexivity. rewrite T, parse_print.
  cbn [negb mbind option_bind].
  assert (G1 : get (js "savedAt") j = Some (JNum t)) by reflexivity.
  assert (G2 : get (js "data") j = Some d) by reflexivity. rewrite G1, G2.
  destruct ((t =? 0) || (CACHE_MAX_AGE_MS <? now - t)) eqn:A; [done|].
  destruct (shouldCacheResponse e (Some d)); cbn [negb]; [|done].
  intros [= <-]. apply orb_false_iff in A as [_ A%Z.ltb_ge]. done.
Qed.

(** How a call can end. *)
Definition outcome_ok (w : World) (c : Call) (scope : option str) (store : Storage)
    (r : ApiResponse) (store' : Storage) : Prop :=
  (fromCache r = true → canUseCache c scope = true ∧ ∃ q,
     readCachedResponse scope (endpoint c) (now w) store = Some q ∧ data q = data r)
  ∧ (store' = store
     ∨ ∃ s d, scope = Some s ∧ fromCache r = false ∧ data r = Some d
         ∧ shouldCacheResponse (endpoint c) (Some d) = true
         ∧ store' = <[cacheKey s (endpoint c) := entry d (now w)]> store).

Lemma read_from_cache s e t store r :
  readCachedResponse s e t store = Some r → fromCache r = true.
Proof.
  unfold readCachedResponse. destruct s as [s|]; [|done]. simpl.
  destruct (truthy s); [|done]. simpl. destruct (store !! _) as [raw|]; [|done]. simpl.
  destruct (truthy raw); [|done]. simpl. destruct (parse raw); [|done]. simpl.
  repeat case_match; try done. by intros [= <-].
Qed.

Lemma done_ok w c scope attempt didRetry a store r store' :
  on_answer w c scope attempt didRetry a store = Done r store' →
  outcome_ok w c scope store r store'.
Proof.
  assert (X : ∀ ab m, on_exception w c scope attempt didRetry ab m store = Done r store' →
    outcome_ok w c scope store r store').
  { intros ab m. unfold on_exception. destruct (canRetry c && _); [done|].
    destruct (canUseCache c scope) eqn:U.
    - destruct (readCachedResponse _ _ _ _) as [q|] eqn:R; intros [= <- <-]; (split; [|by left]).
      + intros _. split; [done|]. by exists q.
      + done.
    - intros [= <- <-]. split; [done|by left]. }
  destruct a as [code body|ab m]; unfold on_answer; [|apply X].
  destruct (ok_status code); simpl.
  - destruct (code =? 204); [intros [= <- <-]; split; [done|by left]|].
    destruct (truthy body); simpl; [|intros [= <- <-]; split; [done|by left]].
    destruct (parse body) as [d|]; [|apply X]. intros [= <- <-]. split; [done|].
    destruct (canUseCache c scope && _) eqn:U; [|by left].
    apply andb_true_iff in U as [U S]. unfold canUseCache in U.
    destruct scope as [s|]; [|by rewrite andb_false_r in U].
    apply andb_true_iff in U as [_ U]. right. exists s, d. split_and!; try done.
    unfold writeCachedResponse. by rewrite U.
  - destruct (_ && _ && _); [done|]. destruct (_ && _ && _); [done|].
    destruct (canUseCache c scope && _) eqn:U.
    + apply andb_true_iff in U as [U _].
      destruct (readCachedResponse _ _ _ _) as [q|] eqn:R; intros [= <- <-]; (split; [|by left]).
      * intros _. split; [done|]. by exists q.
      * done.
    + intros [= <- <-]. split; [done|by left].
Qed.

Lemma attempts_ok w c scope n attempt force didRetry wait store r log store' :
  attempts w c scope n attempt force didRetry wait store = (r, log, store') →
  outcome_ok w c scope store r store'.
Proof.
  revert attempt force didRetry wait log. induction n as [|n IH];
    intros attempt force didRetry wait log; cbn [attempts].
  { intros [= <- <- <-]. split; [done|by left]. }
  destruct (on_answer w c scope attempt didRetry _ store) as [r' st'|f d] eqn:E.
  - intros [= <- <- <-]. by eapply done_ok.
  - destruct (attempts w c scope n _ _ _ _ store) as [[r' log'] st'] eqn:E2.
    intros [= <- <- <-]. by eapply IH.
Qed.

(** The store changes only when a GET was answered with data worth caching. *)
Lemma attempts_writes w c scope n attempt force didRetry wait store r log store' :
  attempts w c scope n attempt force didRetry wait store = (r, log, store') →
  store' = store
  ∨ ∃ d, eqs (method c) (js "GET") = true ∧ shouldCacheResponse (endpoint c) (Some d) = true.
Proof.
  assert (X : ∀ k dr ab m r' st', on_exception w c scope k dr ab m store = Done r' st' →
    st' = store).
  { intros k dr ab m r' st'. unfold on_exception. repeat case_match; by intros [= <- <-]. }
  assert (D : ∀ k dr a r' st', on_answer w c scope k dr a store = Done r' st' →
    st' = store
    ∨ ∃ d, eqs (method c) (js "GET") = true ∧ shouldCacheResponse (endpoint c) (Some d) = true).
  { intros k dr [code body|ab m] r' st'; unfold on_answer; [|intros H; left; by eapply X].
    destruct (ok_status code); simpl.
    - destruct (code =? 204); [intros [= <- <-]; by left|].
      destruct (truthy body); simpl; [|intros [= <- <-]; by left].
      destruct (parse body) as [d|]; [|intros H; left; by eapply X].
      intros [= <- <-]. destruct (canUseCache c scope && _) eqn:U; [|by left].
      apply andb_true_iff in U as [U S]. unfold canUseCache in U.
      apply andb_true_iff in U as [U _]. apply andb_true_iff in U as [_ U]. right. by exists d.
    - repeat case_match; intros [= <- <-]; by left. }
  revert attempt force didRetry wait log. induction n as [|n IH];
    intros attempt force didRetry wait log; cbn [attempts].
  { intros [= <- <- <-]. by left. }
  destruct (on_answer w c scope attempt didRetry _ store) as [r' st'|f d] eqn:E.
  - intros [= <- <- <-]. by eapply D.
  - destruct (attempts w c scope n _ _ _ _ store) as [[r' log'] st'] eqn:E2.
    intros [= <- <- <-]. by eapply IH.
Qed.

Lemma fetch_ok w c scope store :
  outcome_ok w c scope store (fetchApi w c scope store).1.1 (fetchApi w c scope store).2.
Proof.
  destruct (fetchApi w c scope store) as [[r log] store'] eqn:E. by eapply attempts_ok.
Qed.

Lemma clear_lookup scope store k v :
  clearApiCache scope store !! k = Some v → store !! k = Some v.
Proof.
  unfold clearApiCache. destruct scope as [s|]; [|done]. destruct (truthy s); [|done].
  by intros [? _]%map_lookup_filter_Some.
Qed.

Lemma recorded_step hist store ev :
  event_ok ev → recorded hist store →
  recorded (hist ++ fresh_of store ev) (store_after store ev).
Proof.
  intros Hev H s e v Hs He. destruct ev as [w c scope|scope]; simpl.
  - destruct (fetch_ok w c scope store) as [_ [->|(s' & d & -> & Hf & Hd & _ & ->)]].
    + intros L. destruct (H s e v Hs He L) as (t & d & Hin & ->). exists t, d.
      split; [|done]. apply elem_of_app. by left.
    + rewrite Hd, Hf. simpl in Hev. destruct Hev as [Hs' He'].
      intros [[E <-]|[_ L]]%lookup_insert_Some.
      * apply cacheKey_inj in E as [-> ->]; [|done..]. exists (now w), d.
        split; [|done]. apply elem_of_app. right. by left.
      * destruct (H s e v Hs He L) as (t & d' & Hin & ->). exists t, d'.
        split; [|done]. apply elem_of_app. by left.
  - intros L%clear_lookup. rewrite app_nil_r. by apply H.
Qed.

Lemma recorded_history evs store hist :
  Forall event_ok evs → recorded hist store →
  recorded (hist ++ history store evs) (foldl store_after store evs).
Proof.
  revert store hist. induction evs as [|ev evs IH]; intros store hist F H; simpl.
  { by rewrite app_nil_r. }
  apply Forall_cons in F as [Hev F]. rewrite (assoc_L (++)). apply IH; [done|].
  by apply recorded_step.
Qed.

(** C7: The cache never makes data up, never mixes users and never serves stale
    or private records: in any sequence of calls and cache clearings that starts
    with an empty store, a response marked as cached carries the data the server
    itself returned earlier for the same endpoint in the same user's scope, at
    most seven days before, and its endpoint is neither a help request nor the
    support queue. *)
Theorem cache_answers_recorded (evs : list event) (w : World) (c : Call) (s : str) (r : ApiResponse) :
  Forall event_ok evs → event_ok (Fetch w c (Some s)) →
  (fetchApi w c (Some s) (foldl store_after ∅ evs)).1.1 = r → fromCache r = true →
  ∃ t d, (s, endpoint c, t, d) ∈ history ∅ evs ∧ data r = Some d
    ∧ now w - t <= CACHE_MAX_AGE_MS
    ∧ startsWith (endpoint c) (js "/api/v1/help_requests") = false
    ∧ endpoint c ≠ js "/api/v1/support_queue".
Proof.
  intros F [Hs He] <- HC.
  assert (R : recorded (history ∅ evs) (foldl store_after ∅ evs)).
  { apply (recorded_history evs ∅ []); [done|]. intros s' e v _ _ L.
    by rewrite lookup_empty in L. }
  destruct (fetch_ok w c (Some s) (foldl store_after ∅ evs)) as [H _].
  destruct (H HC) as (_ & q & Hq & Hd).
  assert (L : ∃ v, foldl store_after ∅ evs !! cacheKey s (endpoint c) = Some v).
  { unfold readCachedResponse in Hq. simpl in Hq. destruct (truthy s); [|done]. simpl in Hq.
    destruct (_ !! cacheKey s (endpoint c)) as [v|]; [by exists v|done]. }
  destruct L as [v L]. destruct (R _ _ _ Hs He L) as (t & d & Hin & ->).
  destruct (read_entry _ _ _ _ _ _ _ L Hq) as (Hdq & Ht & HS).
  exists t, d. rewrite <- Hd. split_and!; [done..| |].
  - unfold shouldCacheResponse in HS. destruct (startsWith _ _); [|done]. by destruct d.
  - intros E. rewrite E in HS. by destruct d.
Qed.

(** ** Clearing *)

(** The scope of a signed-in user. *)
Definition clerk_scope (i : str) : str := js "clerk:" ++ i.

Definition clerk_id_ok (i : str) : Prop :=
  Forall (λ c, negb (bool_decide (c = ":"%char)) = true) i.

Lemma scoped_prefix i j e :
  clerk_id_ok i → clerk_id_ok j →
  startsWith (cacheKey (clerk_scope j) e) (CACHE_PREFIX ++ clerk_scope i ++ js ":") = true ↔ i = j.
Proof.
  intros Hi Hj. rewrite startsWith_spec. unfold cacheKey, clerk_scope. split.
  - intros [r E]. rewrite <- !(assoc_L (++)) in E. apply app_inv_head, app_inv_head in E.
    apply (run_sep_inj (λ c, negb (bool_decide (c = ":"%char))) ":"%char j i e r) in E as [-> _];
      done.
  - intros ->. exists e. by rewrite <- !(assoc_L (++)).
Qed.

(** Signing a user out removes every response cached for that user and no
    response cached for anyone else, whatever their identifiers (an identifier
    that begins with another one included). *)
Theorem clearing_is_per_user (i j e : str) (store : Storage) :
  clerk_id_ok i → clerk_id_ok j →
  clearApiCache (Some (clerk_scope i)) store !! cacheKey (clerk_scope j) e
  = if bool_decide (i = j) then None else store !! cacheKey (clerk_scope j) e.
Proof.
  intros Hi Hj. unfold clearApiCache.
  change (truthy (clerk_scope i)) with true. cbv iota.
  pose proof (scoped_prefix i j e Hi Hj) as P.
  assert (N : startsWith (cacheKey (clerk_scope j) e) (CACHE_PREFIX ++ js "null:") = false)
    by reflexivity.
  rewrite map_lookup_filter. destruct (store !! _) as [v|]; [|by case_bool_decide].
  cbn [mbind option_bind]. case_bool_decide as D.
  - rewrite option_guard_False; [done|]. intros H. apply H. by rewrite (proj2 P D).
  - rewrite option_guard_True; [done|]. rewrite N, orb_false_r. intros H. apply D, P.
    by apply Is_true_true in H.
Qed.

End Cache.

End Web.

(** *** Concrete calls *)

Module WebExamples.
Import Web.

Definition get_profile : Call :=
  {| endpoint := js "/api/v1/profile"; method := js "GET"; requireAuth := true |}.

Definition post_message : Call :=
  {| endpoint := js "/api/v1/channels/1/messages"; method := js "POST"; requireAuth := true |}.

Definition world (at_ : Z) (f : nat → Answer) : World :=
  {| answer := f; getAuthToken := Some (λ force : bool, Some (js (if force then "new" else "old")));
     now := at_; online := true; random := λ _, 1 # 2; syntaxError := λ _, js "Unexpected token" |}.

Definition profile_body : str := print (JObj [(js "name", JStr (js "Ana"))]).

Definition online_world : World := world 1000 (λ _, Response 200 profile_body).
Definition offline_world : World := world 5000 (λ _, Rejected false (js "Failed to fetch")).
Definition expired_world : World :=
  world 1000 (λ n, if (n =? 1)%nat then Response 401 [] else Response 200 profile_body).

(** A mutation after an expired token is sent twice, with the renewed token. *)
Lemma fetch_request_budget_witness :
  map token (fetchApi expired_world post_message None ∅).1.2 = [Some (js "old"); Some (js "new")]
  ∧ (length (fetchApi expired_world post_message None ∅).1.2 <= 2)%nat.
Proof.
  split; [vm_compute; reflexivity|].
  pose proof (fetch_request_budget expired_world post_message None ∅
    ltac:(intros k; split; vm_compute; congruence)) as H.
  destruct (fetchApi expired_world post_message None ∅) as [[r log] store'] eqn:E.
  exact (proj2 (proj1 H)).
Defined.

Definition ana : str := js "clerk:user_1".

Lemma ana_ok : scope_ok ana.
Proof. unfold scope_ok, ana. apply Forall_forall. intros c Hc. vm_compute in Hc.
  repeat (apply elem_of_cons in Hc as [->|Hc]; [reflexivity|]). by apply not_elem_of_nil in Hc.
Qed.

(** Offline, the profile loaded before is answered from the cache. *)
Lemma cache_answers_recorded_witness :
  fromCache (fetchApi offline_world get_profile (Some ana)
    (foldl store_after ∅ [Fetch online_world get_profile (Some ana)])).1.1 = true
  ∧ ∃ t d, (ana, endpoint get_profile, t, d)
      ∈ history ∅ [Fetch online_world get_profile (Some ana)].
Proof.
  split; [vm_compute; reflexivity|].
  destruct (cache_answers_recorded [Fetch online_world get_profile (Some ana)] offline_world
    get_profile ana _
    ltac:(constructor; [split; [apply ana_ok|by eexists]|constructor])
    ltac:(split; [apply ana_ok|by eexists]) eq_refl ltac:(vm_compute; reflexivity))
    as (t & d & H & _). by exists t, d.
Defined.

Lemma clearing_is_per_user_witness :
  clearApiCache (Some (clerk_scope (js "user_1")))
    {[ cacheKey (clerk_scope (js "user_12")) (js "/api/v1/profile") := profile_body ]}
    !! cacheKey (clerk_scope (js "user_12")) (js "/api/v1/profile") = Some profile_body.
Proof.
  rewrite clearing_is_per_user.
  - rewrite bool_decide_eq_false_2 by discriminate. by rewrite lookup_singleton_eq.
  - unfold clerk_id_ok. by repeat constructor.
  - unfold clerk_id_ok. by repeat constructor.
Defined.
End WebExamples.

(** ** The mobile client *)

Module Mobile.

Definition RETRYABLE : list Z := [429; 500; 502; 503; 504].

(** What a call ends with: a value, an [ApiError], the caller's own abort, or the
    [SyntaxError] of a body that is not JSON (it is parsed outside the [try]). *)
Inductive Outcome :=
| Value (j : json)
| Undefined
| ApiError (message : str) (status : option Z) (code : option json)
| CallerAborted
| SyntaxError.

(** The answer to one request; [byCaller] tells an abort by the caller's signal
    from one by the client's own timer. *)
Inductive Answer :=
| Response (code : Z) (body : str)
| AbortError (byCaller : bool)
| Failed.

Definition truthy_json (j : json) : bool :=
  match j with
  | JNull | JBool false => false
  | JNum n => negb (n =? 0)
  | JStr s => truthy s
  | _ => true
  end.

(** [payload.error || payload.errors?.join(', ') || ...]; [None] where reading the
    payload throws. *)
Definition failure_message (payload : json) (code : Z) : option str :=
  let fallback := js "Request failed (" ++ str_of_Z code ++ js ")" in
  match payload with
  | JNull => None
  | _ =>
      match get (js "error") payload with
      | Some e => if truthy_json e then Some (Web.join_item e) else
          match get (js "errors") payload with
          | None | Some JNull => Some fallback
          | Some (JArr l) => Some (str_or (join (js ", ") (map Web.join_item l)) fallback)
          | Some _ => None
          end
      | None =>
          match get (js "errors") payload with
          | None | Some JNull => Some fallback
          | Some (JArr l) => Some (str_or (join (js ", ") (map Web.join_item l)) fallback)
          | Some _ => None
          end
      end
  end.

Definition ok_status (code : Z) : bool := (200 <=? code) && (code <=? 299).

Section Request.
(** The texts of the two kinds of failure, and whether a failed response is tried
    again. *)
Context (timedOutText unreachableText : str) (again : Z → bool) (noContent : bool).
Context (answer : nat → Answer).

(** One attempt: [None] to call the method again with [attempt + 1]. *)
Definition attempt_outcome (attempt : nat) : option Outcome :=
  let unreachable := Some (ApiError unreachableText None None) in
  match answer attempt with
  | Response code body =>
      if negb (ok_status code) then
        if (attempt =? 0)%nat && again code then None else
        let payload := default (JObj []) (parse body) in
        match failure_message payload code with
        | Some m => Some (ApiError m (Some code) (get (js "code") payload))
        | None => unreachable
        end
      else if noContent && (code =? 204) then Some Undefined
      else Some (match parse body with Some j => Value j | None => SyntaxError end)
  | AbortError true => Some CallerAborted
  | AbortError false => Some (ApiError timedOutText None None)
  | Failed => unreachable
  end.

(** The method, its recursion bounded by the attempts it can make, with the log
    of [skipCache] of the requests sent. *)
Fixpoint run (fuel attempt : nat) : option (Outcome * list bool) :=
  match fuel with
  | O => None
  | S fuel =>
      match attempt_outcome attempt with
      | Some o => Some (o, [(0 <? attempt)%nat])
      | None => match run fuel (S attempt) with
                | Some (o, log) => Some (o, (0 <? attempt)%nat :: log)
                | None => None
                end
      end
  end.

(** Two attempts are enough: the method returns. *)
Lemma run_total : ∃ o log, run 2 0 = Some (o, log)
  ∧ (log = [false] ∨ (log = [false; true] ∧ ∃ code body, answer 0 = Response code body
                      ∧ ok_status code = false ∧ again code = true)).
Proof.
  assert (T : ∃ o, attempt_outcome 1 = Some o).
  { unfold attempt_outcome. simpl. repeat case_match; eauto. }
  destruct T as [o1 T]. cbn [run]. rewrite T.
  destruct (attempt_outcome 0) as [o|] eqn:E; [by exists o, [false]; auto|].
  exists o1, [false; true]. split; [done|]. right. split; [done|].
  unfold attempt_outcome in E. destruct (answer 0) as [code body|[]|]; try done.
  exists code, body. destruct (ok_status code); simpl in E; [by repeat case_match|].
  destruct (again code); [done|]. simpl in E. by repeat case_match.
Qed.
End Request.

Definition is_get (method : option str) : bool :=
  match method with None => true | Some m => negb (truthy m) || eqs m (js "GET") end.

Definition request (method : option str) (answer : nat → Answer) : option (Outcome * list bool) :=
  run (js "The request timed out. Check your connection and try again.")
    (js "Could not reach Code School. Check your connection and try again.")
    (λ code, (code =? 401) || (is_get method && has RETRYABLE code)) true answer 2 0.

Definition transcribeVoice (answer : nat → Answer) : option (Outcome * list bool) :=
  run (js "Transcription timed out. Your recording is still available to retry.")
    (js "Could not reach Code School. Your recording is still available to retry.")
    (λ code, code =? 401) false answer 2 0.

(** A call of the mobile client always ends. It sends one request, or two when
    the first was answered with 401 (or, for a GET, with a transient server
    error), and the second then carries a newly fetched token; a recording is
    uploaded for transcription twice only after a 401. *)
Theorem mobile_request_budget (method : option str) (answer : nat → Answer) :
  (∃ o log, request method answer = Some (o, log)
    ∧ (log = [false]
       ∨ log = [false; true] ∧ ∃ code body, answer 0%nat = Response code body
         ∧ (code = 401 ∨ (is_get method = true ∧ code ∈ RETRYABLE))))
  ∧ (∃ o log, transcribeVoice answer = Some (o, log)
    ∧ (log = [false] ∨ log = [false; true] ∧ ∃ body, answer 0%nat = Response 401 body)).
Proof.
  split.
  - destruct (run_total (js "The request timed out. Check your connection and try again.")
      (js "Could not reach Code School. Check your connection and try again.")
      (λ code, (code =? 401) || (is_get method && has RETRYABLE code)) true answer)
      as (o & log & E & H).
    exists o, log. split; [exact E|].
    destruct H as [->|(-> & code & body & A & _ & H)]; [by left|].
    right. split; [done|]. exists code, body. split; [done|].
    apply orb_true_iff in H as [H%Z.eqb_eq|H]; [by left|right].
    apply andb_true_iff in H as [H1 H2%has_true]. done.
  - destruct (run_total (js "Transcription timed out. Your recording is still available to retry.")
      (js "Could not reach Code School. Your recording is still available to retry.")
      (λ code, code =? 401) false answer) as (o & log & E & H).
    exists o, log. split; [exact E|].
    destruct H as [->|(-> & code & body & A & _ & H)]; [by left|].
    right. split; [done|]. apply Z.eqb_eq in H as ->. by exists body.
Qed.

(** [queryString], which drops absent and empty values. *)
Definition queryString (values : list (str * option str)) : str :=
  let parts := omap (λ '(k, v),
    match v with
    | Some x => if truthy x then Some (encodeURIComponent k ++ js "=" ++ encodeURIComponent x)
                else None
    | None => None
    end) values in
  let query := join (js "&") parts in
  if truthy query then js "?" ++ query else [].

End Mobile.
