(* ===== verification/Endpoints.v ===== *)
(** * The web client's API calls

    Every member of the [api] object of [web/src/lib/api.ts]: the method, the path
    with its interpolated identifiers, the query string and the JSON body it hands
    to [fetchApi]. Arguments of structured type ([data]) are JSON values; the
    members are grouped as the source groups them. The theorems say that no
    argument can change which resource a path names, and that the calls about
    help requests never leave anything in the response cache. *)

From S2P Require Import Prelude.
From S2P Require Import Json.
From S2P Require Import Url.
From S2P Require Import ApiClient.

Record Request := { method : str; path : str; query : str; body : option json }.

Definition GET (p : str) : Request := {| method := js "GET"; path := p; query := []; body := None |}.
Definition GETQ (p q : str) : Request :=
  {| method := js "GET"; path := p; query := q; body := None |}.
Definition POST (p : str) (b : option json) : Request :=
  {| method := js "POST"; path := p; query := []; body := b |}.
Definition PATCH (p : str) (b : option json) : Request :=
  {| method := js "PATCH"; path := p; query := []; body := b |}.
Definition PATCHQ (p q : str) : Request :=
  {| method := js "PATCH"; path := p; query := q; body := None |}.
Definition PUT (p : str) (b : option json) : Request :=
  {| method := js "PUT"; path := p; query := []; body := b |}.
Definition DELETE (p : str) (b : option json) : Request :=
  {| method := js "DELETE"; path := p; query := []; body := b |}.

(** An object literal; [JSON.stringify] leaves out [undefined] members. *)
Definition obj (l : list (str * option json)) : json :=
  JObj (omap (λ '(k, v), (λ x, (k, x)) <$> v) l).

(** [const { k, ...rest } = value] *)
Definition without_field (k : str) (j : json) : json :=
  match j with JObj l => JObj (List.filter (λ '(k', _), negb (eqs k' k)) l) | _ => j end.

(** [value ? f(value) : ''] *)
Definition when_truthy (v : option str) (f : str → str) : str :=
  match v with Some s => if truthy s then f s else [] | None => [] end.

(** [queryString]: members whose value is [undefined], [null] or [''] are left
    out. *)
Definition queryString (params : list (str * option str)) : str :=
  question (params_toString (omap (λ '(k, v),
    match v with Some x => if truthy x then Some (k, x) else None | None => None end) params)).

(** The same where empty strings are kept, as [getAnnouncements] writes it. *)
Definition present_params (params : list (str * option str)) : str :=
  question (params_toString (omap (λ '(k, v), (λ x, (k, x)) <$> v) params)).

(** Sessions, announcements, notifications, workspaces and messages. *)
Inductive MessagingCall :=
| createSession
| updatePresence
| getDashboard
| getWeeklyPlan
| getRecordings
| getResources
| getAnnouncements (params : option (list (str * option str)))
| getAnnouncement (id : Z)
| createAnnouncement (data : json)
| updateAnnouncement (id : Z) (data : json)
| archiveAnnouncement (id : Z)
| getNotifications (params : list (str * option str))
| markNotificationRead (id : Z)
| markAllNotificationsRead (notificationType : option str)
| getPushConfig
| updateMessageNotifications (notificationsEnabled : bool)
| createPushSubscription (subscription : json)
| deletePushSubscription (endpoint_ : option str) (all_ : bool)
| createCableToken
| getWorkspaces
| getWorkspace (id : Z)
| createWorkspace (data : json)
| updateWorkspace (id : Z) (data : json)
| addWorkspaceMembers (workspaceId : Z) (user_ids : list Z)
| removeWorkspaceMember (workspaceId : Z) (userId : Z)
| getChannels
| getChannel (id : Z) (params : option (list (str * option str)))
| createChannel (data : json)
| markChannelRead (id : Z)
| createMessage (channelId : Z) (data : json)
| getDirectConversations
| getAvailableDirectUsers (workspaceId : Z)
| getDirectConversation (id : Z) (params : option (list (str * option str)))
| createDirectConversation (data : json)
| markDirectConversationRead (id : Z)
| createDirectMessage (conversationId : Z) (data : json)
| updateMessage (id : Z) (data : json)
| deleteMessage (id : Z)
| pinMessage (id : Z)
| unpinMessage (id : Z).

Definition messaging (c : MessagingCall) : Request :=
  match c with
  | createSession => POST (js "/api/v1/sessions") None
  | updatePresence => POST (js "/api/v1/presence") None
  | getDashboard => GET (js "/api/v1/dashboard")
  | getWeeklyPlan => GET (js "/api/v1/weekly_plan")
  | getRecordings => GET (js "/api/v1/recordings")
  | getResources => GET (js "/api/v1/resources")
  | getAnnouncements params =>
      GETQ (js "/api/v1/announcements")
        (match params with Some p => present_params p | None => [] end)
  | getAnnouncement id => GET (js "/api/v1/announcements/" ++ str_of_Z id)
  | createAnnouncement data => POST (js "/api/v1/announcements") (Some data)
  | updateAnnouncement id data => PATCH (js "/api/v1/announcements/" ++ str_of_Z id) (Some data)
  | archiveAnnouncement id => DELETE (js "/api/v1/announcements/" ++ str_of_Z id) None
  | getNotifications params =>
      GETQ (js "/api/v1/notifications")
        (queryString params)
  | markNotificationRead id =>
      PATCH (js "/api/v1/notifications/" ++ str_of_Z id ++ js "/read") None
  | markAllNotificationsRead notificationType =>
      PATCHQ (js "/api/v1/notifications/mark_all_read")
        (when_truthy notificationType (λ t, js "?notification_type=" ++ t))
  | getPushConfig => GET (js "/api/v1/push_subscriptions/config")
  | updateMessageNotifications notificationsEnabled =>
      PATCH (js "/api/v1/push_subscriptions/preferences")
        (Some (obj [(js "notifications_enabled", Some (JBool notificationsEnabled))]))
  | createPushSubscription subscription =>
      POST (js "/api/v1/push_subscriptions") (Some subscription)
  | deletePushSubscription endpoint_ all_ =>
      DELETE (js "/api/v1/push_subscriptions")
        (Some (obj [(js "endpoint", JStr <$> endpoint_); (js "all", Some (JBool all_))]))
  | createCableToken => POST (js "/api/v1/cable_token") None
  | getWorkspaces => GET (js "/api/v1/workspaces")
  | getWorkspace id => GET (js "/api/v1/workspaces/" ++ str_of_Z id)
  | createWorkspace data => POST (js "/api/v1/workspaces") (Some data)
  | updateWorkspace id data => PATCH (js "/api/v1/workspaces/" ++ str_of_Z id) (Some data)
  | addWorkspaceMembers workspaceId user_ids =>
      POST (js "/api/v1/workspaces/" ++ str_of_Z workspaceId ++ js "/memberships")
        (Some (obj [(js "user_ids", Some (JArr (map JNum user_ids)))]))
  | removeWorkspaceMember workspaceId userId =>
      DELETE (js "/api/v1/workspaces/" ++ str_of_Z workspaceId ++ js "/memberships/" ++ str_of_Z userId)
        None
  | getChannels => GET (js "/api/v1/channels")
  | getChannel id params =>
      GETQ (js "/api/v1/channels/" ++ str_of_Z id)
        (queryString (default [] params))
  | createChannel data => POST (js "/api/v1/channels") (Some data)
  | markChannelRead id => PATCH (js "/api/v1/channels/" ++ str_of_Z id ++ js "/read") None
  | createMessage channelId data =>
      POST (js "/api/v1/channels/" ++ str_of_Z channelId ++ js "/messages") (Some data)
  | getDirectConversations => GET (js "/api/v1/direct_conversations")
  | getAvailableDirectUsers workspaceId =>
      GETQ (js "/api/v1/direct_conversations/available_users")
        (js "?workspace_id=" ++ str_of_Z workspaceId)
  | getDirectConversation id params =>
      GETQ (js "/api/v1/direct_conversations/" ++ str_of_Z id)
        (queryString (default [] params))
  | createDirectConversation data => POST (js "/api/v1/direct_conversations") (Some data)
  | markDirectConversationRead id =>
      PATCH (js "/api/v1/direct_conversations/" ++ str_of_Z id ++ js "/read") None
  | createDirectMessage conversationId data =>
      POST (js "/api/v1/direct_conversations/" ++ str_of_Z conversationId ++ js "/messages")
        (Some data)
  | updateMessage id data => PATCH (js "/api/v1/messages/" ++ str_of_Z id) (Some data)
  | deleteMessage id => DELETE (js "/api/v1/messages/" ++ str_of_Z id) None
  | pinMessage id => PATCH (js "/api/v1/messages/" ++ str_of_Z id ++ js "/pin") None
  | unpinMessage id => DELETE (js "/api/v1/messages/" ++ str_of_Z id ++ js "/pin") None
  end.

(** Community safety, support, submissions and progress. *)
Inductive LearningCall :=
| reactMessage (id : Z) (emoji : str)
| unreactMessage (id : Z) (emoji : str)
| updateMessagePreference (targetType : str) (targetId : Z) (muted : bool)
| presignMessageAttachment (data : json)
| searchMessages (q : str) (limit : Z)
| acceptCommunityPolicy (version : str)
| reportContent (data : json)
| getContentReports (status_ : option str)
| updateContentReport (id : Z) (status_ : str)
| blockUser (blockedUserId : Z)
| getBlockedUsers
| unblockUser (blockedUserId : Z)
| requestDataDeletion
| getDataDeletionRequests
| updateDataDeletionRequest (id : Z) (data : json)
| getProfile
| updateProfile (data : json)
| getModule (id : Z)
| getLesson (id : Z)
| getHelpRequests (params : list (str * option str))
| getHelpRequest (id : Z)
| createHelpRequest (data : json)
| updateHelpRequest (id : Z) (data : json)
| getSupportQueue
| getInterventions (params : list (str * option str))
| getIntervention (id : Z)
| createIntervention (data : json)
| updateIntervention (id : Z) (data : json)
| createInterventionNote (id : Z) (body_ : str)
| getRecoveryPlans (params : list (str * option str))
| getRecoveryPlan (id : Z)
| createRecoveryPlan (data : json)
| updateRecoveryPlan (id : Z) (data : json)
| createRecoveryPlanCheckIn (id : Z) (data : json)
| updateProgress (contentBlockId : Z) (status_ : str)
| getSubmissions (params : option (list (str * str)))
| getSubmission (id : Z)
| getSubmissionGithubChecks (id : Z)
| refreshSubmissionGithubChecks (id : Z)
| createSubmission (data : json)
| gradeSubmission (id : Z) (data : json)
| getFeedbackSnippets
| createFeedbackSnippet (body_ : str)
| useFeedbackSnippet (id : Z)
| attemptKnowledgeCheck (id : Z) (selectedOption : Z)
| getSubmissionGithubIssue (id : Z)
| getStudentProgress (userId : Z) (cohortId : option Z)
| getLearningInsights (cohortId : Z) (userId : option Z).

Definition learning (c : LearningCall) : Request :=
  match c with
  | reactMessage id emoji =>
      POST (js "/api/v1/messages/" ++ str_of_Z id ++ js "/reactions")
        (Some (obj [(js "emoji", Some (JStr emoji))]))
  | unreactMessage id emoji =>
      DELETE (js "/api/v1/messages/" ++ str_of_Z id ++ js "/reactions")
        (Some (obj [(js "emoji", Some (JStr emoji))]))
  | updateMessagePreference targetType targetId muted =>
      PATCH (js "/api/v1/message_preferences")
        (Some (obj [(js "target_type", Some (JStr targetType)); (js "target_id", Some (JNum targetId)); (js "muted", Some (JBool muted))]))
  | presignMessageAttachment data => POST (js "/api/v1/message_attachments/presign") (Some data)
  | searchMessages q limit =>
      GETQ (js "/api/v1/messages/search")
        (js "?q=" ++ encodeURIComponent q ++ js "&limit=" ++ str_of_Z limit)
  | acceptCommunityPolicy version =>
      POST (js "/api/v1/community_policy/accept")
        (Some (obj [(js "version", Some (JStr version)); (js "accepted", Some (JBool true))]))
  | reportContent data =>
      POST (js "/api/v1/content_reports") (Some (obj [(js "content_report", Some data)]))
  | getContentReports status_ =>
      GETQ (js "/api/v1/content_reports")
        (when_truthy status_ (λ s, js "?status=" ++ encodeURIComponent s))
  | updateContentReport id status_ =>
      PATCH (js "/api/v1/content_reports/" ++ str_of_Z id)
        (Some (obj [(js "content_report", Some (obj [(js "status", Some (JStr status_))]))]))
  | blockUser blockedUserId =>
      POST (js "/api/v1/user_blocks")
        (Some (obj [(js "blocked_user_id", Some (JNum blockedUserId))]))
  | getBlockedUsers => GET (js "/api/v1/user_blocks")
  | unblockUser blockedUserId => DELETE (js "/api/v1/user_blocks/" ++ str_of_Z blockedUserId) None
  | requestDataDeletion => POST (js "/api/v1/data_deletion_requests") None
  | getDataDeletionRequests => GET (js "/api/v1/data_deletion_requests")
  | updateDataDeletionRequest id data =>
      PATCH (js "/api/v1/data_deletion_requests/" ++ str_of_Z id)
        (Some (obj [(js "data_deletion_request", Some data)]))
  | getProfile => GET (js "/api/v1/profile")
  | updateProfile data => PATCH (js "/api/v1/profile") (Some data)
  | getModule id => GET (js "/api/v1/modules/" ++ str_of_Z id)
  | getLesson id => GET (js "/api/v1/lessons/" ++ str_of_Z id)
  | getHelpRequests params =>
      GETQ (js "/api/v1/help_requests")
        (queryString params)
  | getHelpRequest id => GET (js "/api/v1/help_requests/" ++ str_of_Z id)
  | createHelpRequest data =>
      POST (js "/api/v1/help_requests") (Some (obj [(js "help_request", Some data)]))
  | updateHelpRequest id data =>
      PATCH (js "/api/v1/help_requests/" ++ str_of_Z id)
        (Some (obj [(js "help_request", Some data)]))
  | getSupportQueue => GET (js "/api/v1/support_queue")
  | getInterventions params =>
      GETQ (js "/api/v1/interventions")
        (queryString params)
  | getIntervention id => GET (js "/api/v1/interventions/" ++ str_of_Z id)
  | createIntervention data =>
      POST (js "/api/v1/interventions") (Some (obj [(js "intervention", Some data)]))
  | updateIntervention id data =>
      PATCH (js "/api/v1/interventions/" ++ str_of_Z id)
        (Some (obj [(js "intervention", Some data)]))
  | createInterventionNote id body_ =>
      POST (js "/api/v1/interventions/" ++ str_of_Z id ++ js "/notes")
        (Some (obj [(js "note", Some (obj [(js "body", Some (JStr body_))]))]))
  | getRecoveryPlans params =>
      GETQ (js "/api/v1/recovery_plans")
        (queryString params)
  | getRecoveryPlan id => GET (js "/api/v1/recovery_plans/" ++ str_of_Z id)
  | createRecoveryPlan data =>
      POST (js "/api/v1/recovery_plans") (Some (obj [(js "recovery_plan", Some data)]))
  | updateRecoveryPlan id data =>
      PATCH (js "/api/v1/recovery_plans/" ++ str_of_Z id)
        (Some (obj [(js "recovery_plan", Some data)]))
  | createRecoveryPlanCheckIn id data =>
      POST (js "/api/v1/recovery_plans/" ++ str_of_Z id ++ js "/check_ins")
        (Some (obj [(js "check_in", Some data)]))
  | updateProgress contentBlockId status_ =>
      PATCH (js "/api/v1/progress")
        (Some (obj [(js "content_block_id", Some (JNum contentBlockId)); (js "status", Some (JStr status_))]))
  | getSubmissions params =>
      GETQ (js "/api/v1/submissions")
        (match params with Some p => js "?" ++ params_toString p | None => [] end)
  | getSubmission id => GET (js "/api/v1/submissions/" ++ str_of_Z id)
  | getSubmissionGithubChecks id =>
      GET (js "/api/v1/submissions/" ++ str_of_Z id ++ js "/github_checks")
  | refreshSubmissionGithubChecks id =>
      POST (js "/api/v1/submissions/" ++ str_of_Z id ++ js "/github_checks") None
  | createSubmission data => POST (js "/api/v1/submissions") (Some data)
  | gradeSubmission id data =>
      PATCH (js "/api/v1/submissions/" ++ str_of_Z id ++ js "/grade") (Some data)
  | getFeedbackSnippets => GET (js "/api/v1/feedback_snippets")
  | createFeedbackSnippet body_ =>
      POST (js "/api/v1/feedback_snippets")
        (Some (obj [(js "feedback_snippet", Some (obj [(js "body", Some (JStr body_))]))]))
  | useFeedbackSnippet id =>
      POST (js "/api/v1/feedback_snippets/" ++ str_of_Z id ++ js "/use") None
  | attemptKnowledgeCheck id selectedOption =>
      POST (js "/api/v1/knowledge_checks/" ++ str_of_Z id ++ js "/attempts")
        (Some (obj [(js "selected_option", Some (JNum selectedOption))]))
  | getSubmissionGithubIssue id =>
      GET (js "/api/v1/submissions/" ++ str_of_Z id ++ js "/github_issue")
  | getStudentProgress userId cohortId =>
      GETQ (js "/api/v1/progress/student/" ++ str_of_Z userId)
        (queryString [(js "cohort_id", str_of_Z <$> cohortId)])
  | getLearningInsights cohortId userId =>
      GETQ (js "/api/v1/cohorts/" ++ str_of_Z cohortId ++ js "/learning_insights")
        (queryString [(js "user_id", str_of_Z <$> userId)])
  end.

(** Users, cohorts, enrollments and assignments. *)
Inductive AdminCall :=
| restartEnrollment (enrollmentId : Z) (confirmation : str) (reason : option str)
| getUsers (params : option (list (str * str)))
| createUser (data : json)
| resendInvite (userId : Z)
| getUser (id : Z)
| updateUser (id : Z) (data : json)
| deleteUser (id : Z)
| unarchiveUser (id : Z)
| getCurricula
| getCurriculum (id : Z)
| getCohorts
| getCohort (id : Z)
| getCohortStudentView (id : Z)
| createCohort (data : json)
| updateCohort (id : Z) (data : json)
| deleteCohort (id : Z)
| updateCohortModuleAccess (cohortId : Z) (data : json)
| updateCohortRecordings (cohortId : Z) (recordings : json)
| updateCohortClassResources (cohortId : Z) (classResources : json)
| updateCohortModuleSubmissionWindows (cohortId : Z) (moduleId : Z) (submissionWindows : json)
| getOfficeHours (cohortId : Z)
| createOfficeHour (cohortId : Z) (data : json)
| updateOfficeHour (cohortId : Z) (officeHourId : Z) (data : json)
| deleteOfficeHour (cohortId : Z) (officeHourId : Z)
| createEnrollment (cohortId : Z) (userId : Z)
| getEnrollment (id : Z)
| getModuleAssignments (enrollmentId : Z)
| createModuleAssignment (enrollmentId : Z) (data : json)
| updateModuleAssignment (id : Z) (data : json)
| deleteModuleAssignment (id : Z)
| getLessonAssignments (enrollmentId : Z)
| createLessonAssignment (enrollmentId : Z) (data : json)
| updateLessonAssignment (id : Z) (data : json)
| deleteLessonAssignment (id : Z).

Definition administration (c : AdminCall) : Request :=
  match c with
  | restartEnrollment enrollmentId confirmation reason =>
      POST (js "/api/v1/enrollments/" ++ str_of_Z enrollmentId ++ js "/restart")
        (Some (obj [(js "confirmation", Some (JStr confirmation)); (js "reason", JStr <$> reason)]))
  | getUsers params =>
      GETQ (js "/api/v1/users")
        (match params with Some p => js "?" ++ params_toString p | None => [] end)
  | createUser data => POST (js "/api/v1/users") (Some data)
  | resendInvite userId =>
      POST (js "/api/v1/users/" ++ str_of_Z userId ++ js "/resend_invite") None
  | getUser id => GET (js "/api/v1/users/" ++ str_of_Z id)
  | updateUser id data => PATCH (js "/api/v1/users/" ++ str_of_Z id) (Some data)
  | deleteUser id => DELETE (js "/api/v1/users/" ++ str_of_Z id) None
  | unarchiveUser id => PATCH (js "/api/v1/users/" ++ str_of_Z id ++ js "/unarchive") None
  | getCurricula => GET (js "/api/v1/curricula")
  | getCurriculum id => GET (js "/api/v1/curricula/" ++ str_of_Z id)
  | getCohorts => GET (js "/api/v1/cohorts")
  | getCohort id => GET (js "/api/v1/cohorts/" ++ str_of_Z id)
  | getCohortStudentView id => GET (js "/api/v1/cohorts/" ++ str_of_Z id ++ js "/student_view")
  | createCohort data => POST (js "/api/v1/cohorts") (Some data)
  | updateCohort id data => PATCH (js "/api/v1/cohorts/" ++ str_of_Z id) (Some data)
  | deleteCohort id => DELETE (js "/api/v1/cohorts/" ++ str_of_Z id) None
  | updateCohortModuleAccess cohortId data =>
      PATCH (js "/api/v1/cohorts/" ++ str_of_Z cohortId ++ js "/module_access") (Some data)
  | updateCohortRecordings cohortId recordings =>
      PATCH (js "/api/v1/cohorts/" ++ str_of_Z cohortId ++ js "/recordings")
        (Some (obj [(js "recordings", Some recordings)]))
  | updateCohortClassResources cohortId classResources =>
      PATCH (js "/api/v1/cohorts/" ++ str_of_Z cohortId ++ js "/class_resources")
        (Some (obj [(js "class_resources", Some classResources)]))
  | updateCohortModuleSubmissionWindows cohortId moduleId submissionWindows =>
      PATCH (js "/api/v1/cohorts/" ++ str_of_Z cohortId ++ js "/modules/" ++ str_of_Z moduleId ++ js "/submission_windows")
        (Some (obj [(js "submission_windows", Some submissionWindows)]))
  | getOfficeHours cohortId =>
      GET (js "/api/v1/cohorts/" ++ str_of_Z cohortId ++ js "/office_hours")
  | createOfficeHour cohortId data =>
      POST (js "/api/v1/cohorts/" ++ str_of_Z cohortId ++ js "/office_hours") (Some data)
  | updateOfficeHour cohortId officeHourId data =>
      PATCH (js "/api/v1/cohorts/" ++ str_of_Z cohortId ++ js "/office_hours/" ++ str_of_Z officeHourId)
        (Some data)
  | deleteOfficeHour cohortId officeHourId =>
      DELETE (js "/api/v1/cohorts/" ++ str_of_Z cohortId ++ js "/office_hours/" ++ str_of_Z officeHourId)
        None
  | createEnrollment cohortId userId =>
      POST (js "/api/v1/cohorts/" ++ str_of_Z cohortId ++ js "/enrollments")
        (Some (obj [(js "user_id", Some (JNum userId))]))
  | getEnrollment id => GET (js "/api/v1/enrollments/" ++ str_of_Z id)
  | getModuleAssignments enrollmentId =>
      GET (js "/api/v1/enrollments/" ++ str_of_Z enrollmentId ++ js "/module_assignments")
  | createModuleAssignment enrollmentId data =>
      POST (js "/api/v1/enrollments/" ++ str_of_Z enrollmentId ++ js "/module_assignments")
        (Some data)
  | updateModuleAssignment id data =>
      PATCH (js "/api/v1/module_assignments/" ++ str_of_Z id) (Some data)
  | deleteModuleAssignment id => DELETE (js "/api/v1/module_assignments/" ++ str_of_Z id) None
  | getLessonAssignments enrollmentId =>
      GET (js "/api/v1/enrollments/" ++ str_of_Z enrollmentId ++ js "/lesson_assignments")
  | createLessonAssignment enrollmentId data =>
      POST (js "/api/v1/enrollments/" ++ str_of_Z enrollmentId ++ js "/lesson_assignments")
        (Some data)
  | updateLessonAssignment id data =>
      PATCH (js "/api/v1/lesson_assignments/" ++ str_of_Z id) (Some data)
  | deleteLessonAssignment id => DELETE (js "/api/v1/lesson_assignments/" ++ str_of_Z id) None
  end.

(** Lessons, objectives, content blocks and grading. *)
Inductive ContentCall :=
| updateContentBlock (id : Z) (data : json)
| createLesson (moduleId : Z) (data : json)
| updateLesson (id : Z) (data : json)
| updateLessonEditor (id : Z) (data : json)
| archiveLesson (id : Z)
| restoreLesson (id : Z)
| deleteLesson (id : Z)
| getLearningObjectives (curriculumId : Z)
| getRubrics (curriculumId : Z)
| createRubric (data : json)
| createLearningObjective (data : json)
| updateLearningObjective (id : Z) (data : json)
| updateObjectiveAlignments (lessonId : Z) (alignments : json)
| createExercise (moduleId : Z) (data : json)
| createModule (curriculumId : Z) (data : json)
| updateModule (id : Z) (data : json)
| createContentBlock (lessonId : Z) (data : json)
| deleteContentBlock (id : Z)
| getContentBlocks (lessonId : Z)
| presignGenericVideo (filename : str) (contentType : str)
| presignContentBlockVideo (blockId : Z) (filename : str) (contentType : str)
| getContentBlockVideoStream (blockId : Z)
| updateContentBlockVideoProgress (blockId : Z) (data : json)
| getCohortModuleSubmissions (cohortId : Z) (moduleId : Z)
| syncCohortModuleGithub (cohortId : Z) (moduleId : Z)
| syncStudentGithub (cohortId : Z) (moduleId : Z) (userId : Z).

Definition content (c : ContentCall) : Request :=
  match c with
  | updateContentBlock id data => PATCH (js "/api/v1/content_blocks/" ++ str_of_Z id) (Some data)
  | createLesson moduleId data =>
      POST (js "/api/v1/modules/" ++ str_of_Z moduleId ++ js "/lessons") (Some data)
  | updateLesson id data => PATCH (js "/api/v1/lessons/" ++ str_of_Z id) (Some data)
  | updateLessonEditor id data =>
      PATCH (js "/api/v1/lessons/" ++ str_of_Z id ++ js "/editor")
        (Some (obj [(js "editor", Some data)]))
  | archiveLesson id => PATCH (js "/api/v1/lessons/" ++ str_of_Z id ++ js "/archive") None
  | restoreLesson id => PATCH (js "/api/v1/lessons/" ++ str_of_Z id ++ js "/restore") None
  | deleteLesson id => DELETE (js "/api/v1/lessons/" ++ str_of_Z id) None
  | getLearningObjectives curriculumId =>
      GETQ (js "/api/v1/learning_objectives")
        (js "?curriculum_id=" ++ str_of_Z curriculumId)
  | getRubrics curriculumId =>
      GETQ (js "/api/v1/rubrics")
        (js "?curriculum_id=" ++ str_of_Z curriculumId)
  | createRubric data => POST (js "/api/v1/rubrics") (Some (obj [(js "rubric", Some data)]))
  | createLearningObjective data =>
      POST (js "/api/v1/learning_objectives")
        (Some (obj [(js "learning_objective", Some (without_field (js "lesson_id") data)); (js "lesson_id", get (js "lesson_id") data)]))
  | updateLearningObjective id data =>
      PATCH (js "/api/v1/learning_objectives/" ++ str_of_Z id)
        (Some (obj [(js "learning_objective", Some data)]))
  | updateObjectiveAlignments lessonId alignments =>
      PUT (js "/api/v1/lessons/" ++ str_of_Z lessonId ++ js "/objective_alignments")
        (Some (obj [(js "alignments", Some alignments)]))
  | createExercise moduleId data =>
      POST (js "/api/v1/modules/" ++ str_of_Z moduleId ++ js "/exercises") (Some data)
  | createModule curriculumId data =>
      POST (js "/api/v1/curricula/" ++ str_of_Z curriculumId ++ js "/modules") (Some data)
  | updateModule id data => PATCH (js "/api/v1/modules/" ++ str_of_Z id) (Some data)
  | createContentBlock lessonId data =>
      POST (js "/api/v1/lessons/" ++ str_of_Z lessonId ++ js "/content_blocks") (Some data)
  | deleteContentBlock id => DELETE (js "/api/v1/content_blocks/" ++ str_of_Z id) None
  | getContentBlocks lessonId =>
      GET (js "/api/v1/lessons/" ++ str_of_Z lessonId ++ js "/content_blocks")
  | presignGenericVideo filename contentType =>
      POST (js "/api/v1/video_presign")
        (Some (obj [(js "filename", Some (JStr filename)); (js "content_type", Some (JStr contentType))]))
  | presignContentBlockVideo blockId filename contentType =>
      POST (js "/api/v1/content_blocks/" ++ str_of_Z blockId ++ js "/video_presign")
        (Some (obj [(js "filename", Some (JStr filename)); (js "content_type", Some (JStr contentType))]))
  | getContentBlockVideoStream blockId =>
      GET (js "/api/v1/content_blocks/" ++ str_of_Z blockId ++ js "/video_stream")
  | updateContentBlockVideoProgress blockId data =>
      PATCH (js "/api/v1/content_blocks/" ++ str_of_Z blockId ++ js "/video_progress")
        (Some data)
  | getCohortModuleSubmissions cohortId moduleId =>
      GET (js "/api/v1/cohorts/" ++ str_of_Z cohortId ++ js "/modules/" ++ str_of_Z moduleId ++ js "/submissions")
  | syncCohortModuleGithub cohortId moduleId =>
      POST (js "/api/v1/cohorts/" ++ str_of_Z cohortId ++ js "/modules/" ++ str_of_Z moduleId ++ js "/sync_github")
        None
  | syncStudentGithub cohortId moduleId userId =>
      POST (js "/api/v1/cohorts/" ++ str_of_Z cohortId ++ js "/modules/" ++ str_of_Z moduleId ++ js "/sync_github/" ++ str_of_Z userId)
        None
  end.

(** Recordings, uploads and watch progress. *)
Inductive MediaCall :=
| getCohortRecordings (cohortId : Z)
| presignRecordingUpload (cohortId : Z) (filename : str) (contentType : str)
| createRecording (cohortId : Z) (data : json)
| updateRecording (cohortId : Z) (id : Z) (data : json)
| deleteRecording (cohortId : Z) (id : Z)
| getRecordingStreamUrl (cohortId : Z) (id : Z)
| reorderRecordings (cohortId : Z) (recordingIds : list Z)
| abandonUpload (s3Key : str)
| initiateMultipartUpload (data : json)
| getMultipartUploadPartUrl (data : json)
| completeMultipartUpload (data : json)
| abortMultipartUpload (data : json)
| updateWatchProgress (data : json)
| getCohortWatchProgress (cohortId : Z)
| getCohortLessonVideoProgress (cohortId : Z)
| getStudentWatchProgress (userId : Z) (cohortId : option Z)
| getStudentLessonVideoProgress (userId : Z) (cohortId : option Z).

Definition media (c : MediaCall) : Request :=
  match c with
  | getCohortRecordings cohortId =>
      GET (js "/api/v1/cohorts/" ++ str_of_Z cohortId ++ js "/recordings")
  | presignRecordingUpload cohortId filename contentType =>
      POST (js "/api/v1/cohorts/" ++ str_of_Z cohortId ++ js "/recordings_presign")
        (Some (obj [(js "filename", Some (JStr filename)); (js "content_type", Some (JStr contentType))]))
  | createRecording cohortId data =>
      POST (js "/api/v1/cohorts/" ++ str_of_Z cohortId ++ js "/recordings") (Some data)
  | updateRecording cohortId id data =>
      PATCH (js "/api/v1/cohorts/" ++ str_of_Z cohortId ++ js "/recordings/" ++ str_of_Z id)
        (Some data)
  | deleteRecording cohortId id =>
      DELETE (js "/api/v1/cohorts/" ++ str_of_Z cohortId ++ js "/recordings/" ++ str_of_Z id)
        None
  | getRecordingStreamUrl cohortId id =>
      GET (js "/api/v1/cohorts/" ++ str_of_Z cohortId ++ js "/recordings/" ++ str_of_Z id ++ js "/stream_url")
  | reorderRecordings cohortId recordingIds =>
      PATCH (js "/api/v1/cohorts/" ++ str_of_Z cohortId ++ js "/recordings_reorder")
        (Some (obj [(js "recording_ids", Some (JArr (map JNum recordingIds)))]))
  | abandonUpload s3Key =>
      DELETE (js "/api/v1/uploads/abandon") (Some (obj [(js "s3_key", Some (JStr s3Key))]))
  | initiateMultipartUpload data => POST (js "/api/v1/uploads/multipart/initiate") (Some data)
  | getMultipartUploadPartUrl data => POST (js "/api/v1/uploads/multipart/part_url") (Some data)
  | completeMultipartUpload data => POST (js "/api/v1/uploads/multipart/complete") (Some data)
  | abortMultipartUpload data => DELETE (js "/api/v1/uploads/multipart/abort") (Some data)
  | updateWatchProgress data => PATCH (js "/api/v1/watch_progress") (Some data)
  | getCohortWatchProgress cohortId =>
      GET (js "/api/v1/cohorts/" ++ str_of_Z cohortId ++ js "/watch_progress")
  | getCohortLessonVideoProgress cohortId =>
      GET (js "/api/v1/cohorts/" ++ str_of_Z cohortId ++ js "/lesson_video_progress")
  | getStudentWatchProgress userId cohortId =>
      GETQ (js "/api/v1/watch_progress/student/" ++ str_of_Z userId)
        (queryString [(js "cohort_id", str_of_Z <$> cohortId)])
  | getStudentLessonVideoProgress userId cohortId =>
      GETQ (js "/api/v1/watch_progress/student/" ++ str_of_Z userId ++ js "/lesson_videos")
        (queryString [(js "cohort_id", str_of_Z <$> cohortId)])
  end.

(** ** Any call *)

Inductive ApiCall :=
| Messaging (c : MessagingCall)
| Learning (c : LearningCall)
| Administration (c : AdminCall)
| Content (c : ContentCall)
| Media (c : MediaCall).

Definition request (c : ApiCall) : Request :=
  match c with
  | Messaging c => messaging c
  | Learning c => learning c
  | Administration c => administration c
  | Content c => content c
  | Media c => media c
  end.

(** The call as [fetchApi] receives it. *)
Definition call (c : ApiCall) : Web.Call :=
  {| Web.endpoint := path (request c) ++ query (request c); Web.method := method (request c);
     Web.requireAuth := true |}.

(** ** Paths *)

Definition path_char (ch : ascii) : bool := is_word ch || has ["/"%char; "-"%char] ch.

Definition well_formed (r : Request) : Prop :=
  startsWith (path r) (js "/api/v1/") = true
  ∧ Forall (λ ch, path_char ch = true) (path r)
  ∧ (query r = [] ∨ ∃ q, query r = "?"%char :: q)
  ∧ (method r = js "GET" → body r = None).

Lemma literal_ok s : forallb path_char (js s) = true → Forall (λ ch, path_char ch = true) (js s).
Proof. intros H. apply Forall_forall. intros x Hx%list_elem_of_In. by eapply forallb_forall in H. Qed.

Lemma digit_path_char ch : is_digit ch = true → path_char ch = true.
Proof.
  intros H. unfold path_char, is_word, is_alnum. by rewrite H, orb_true_r.
Qed.

Lemma id_ok n : Forall (λ ch, path_char ch = true) (str_of_Z n).
Proof.
  assert (P : ∀ m, 0 <= m → Forall (λ ch, path_char ch = true) (str_of_Z m)).
  { intros m Hm. eapply Forall_impl; [by apply str_of_Z_digits|]. apply digit_path_char. }
  destruct n as [|p|p]; [apply P; lia|apply P; lia|].
  rewrite str_of_Z_neg. constructor; [reflexivity|apply P; lia].
Qed.

Lemma question_shape q : question q = [] ∨ ∃ r, question q = "?"%char :: r.
Proof. unfold question. destruct (truthy q); [right; by eexists|by left]. Qed.

Lemma when_truthy_shape v f :
  (∀ s, ∃ r, f s = "?"%char :: r) → when_truthy v f = [] ∨ ∃ r, when_truthy v f = "?"%char :: r.
Proof. intros H. destruct v as [s|]; [|by left]. simpl. destruct (truthy s); auto. Qed.

Ltac path_tac :=
  repeat first
    [ apply id_ok
    | apply literal_ok; reflexivity
    | apply Forall_app; split ].

Ltac query_tac :=
  first
    [ left; reflexivity
    | apply question_shape
    | apply when_truthy_shape; intros; eexists; reflexivity
    | right; eexists; reflexivity
    | cbv [messaging learning administration content media GETQ PATCHQ query];
      match goal with |- context [match ?p with Some _ => _ | None => _ end] =>
        destruct p; [first [apply question_shape | right; eexists; reflexivity] | by left] end ].

Ltac request_tac :=
  split; [reflexivity
    |split; [path_tac|split; [query_tac|intros H; first [reflexivity | discriminate H]]]].

Lemma messaging_ok c : well_formed (messaging c).
Proof. destruct c; request_tac. Qed.

Lemma learning_ok c : well_formed (learning c).
Proof. destruct c; request_tac. Qed.

Lemma administration_ok c : well_formed (administration c).
Proof. destruct c; request_tac. Qed.

Lemma content_ok c : well_formed (content c).
Proof. destruct c; request_tac. Qed.

Lemma media_ok c : well_formed (media c).
Proof. destruct c; request_tac. Qed.

Lemma request_ok c : well_formed (request c).
Proof. destruct c; eauto using messaging_ok, learning_ok, administration_ok, content_ok, media_ok. Qed.

(** Whatever the arguments of an API call, its path stays below [/api/v1/] and
    is made of letters, digits, underscores, hyphens and slashes only, so that no
    argument can add a path segment, a query or a fragment; what follows the path
    is empty or a query string; and a GET carries no body. *)
Theorem api_calls_well_formed (c : ApiCall) : well_formed (request c).
Proof. apply request_ok. Qed.

(** ** Help requests are not cached *)

(** The calls that return help requests or the support queue. *)
Definition support_call (c : ApiCall) : bool :=
  match c with
  | Learning (getHelpRequests _) | Learning (getHelpRequest _) | Learning getSupportQueue => true
  | _ => false
  end.

Lemma support_endpoint c d :
  support_call c = true → Web.shouldCacheResponse (Web.endpoint (call c)) d = false.
Proof.
  assert (P : ∀ p q, startsWith p (js "/api/v1/help_requests") = true →
    Web.shouldCacheResponse (p ++ q) d = false).
  { intros p q H. unfold Web.shouldCacheResponse.
    assert (startsWith (p ++ q) (js "/api/v1/help_requests") = true) as ->.
    { apply startsWith_spec in H as [r ->]. rewrite <- (assoc_L (++)). apply startsWith_app. }
    by destruct d as [[]|]. }
  destruct c as [c|c|c|c|c]; try discriminate. destruct c; try discriminate; intros _.
  - by apply P.
  - by apply P.
  - by destruct d as [[]|].
Qed.

(** No answer about a help request or the support queue is written to the
    response cache, and no call that changes data writes to it either. *)
Theorem support_and_changes_not_cached (c : ApiCall) (w : Web.World) (scope : option str)
    (store : gmap str str) :
  support_call c = true ∨ method (request c) ≠ js "GET" →
  (Web.fetchApi w (call c) scope store).2 = store.
Proof.
  intros H. destruct (Web.fetchApi w (call c) scope store) as [[r log] store'] eqn:E.
  destruct (Web.attempts_writes _ _ _ _ _ _ _ _ _ _ _ _ E) as [->|(d & G & S)]; [done|].
  destruct H as [H|H]; [|by rewrite eqs_true in G].
  by rewrite (support_endpoint c (Some d) H) in S.
Qed.

Lemma support_and_changes_not_cached_witness :
  (Web.fetchApi WebExamples.online_world (call (Learning (getHelpRequest 7)))
     (Some WebExamples.ana) ∅).2 = ∅.
Proof. apply support_and_changes_not_cached. left. reflexivity. Defined.

(** The type in [markAllNotificationsRead] is the one argument that reaches a
    query string without [encodeURIComponent]: text with an ampersand adds
    parameters of its own. *)
Theorem mark_all_read_not_encoded :
  search_params (drop 1 (query (request (Messaging
    (markAllNotificationsRead (Some (js "x&notification_type=y")))))))
  = [(js "notification_type", js "x"); (js "notification_type", js "y")].
Proof. vm_compute. reflexivity. Qed.
