(* ===== verification/Upload.v ===== *)
(** * Uploads

    - [Parts]: the byte ranges of a multipart upload, [buildParts] of
      [web/src/lib/uploadToS3.ts] and the loop of [uploadMultipart] of
      [mobile/src/lib/recording-upload.ts];
    - [Retry]: [uploadPartWithRetry] of both clients;
    - [Pool]: the three concurrent workers of [uploadMultipartToS3], as a step
      relation on their interleavings;
    - [Recording]: [uploadRecording] of the mobile client with its clean-up;
    - [Attachment]: [mobile/src/lib/attachments.ts];
    - [Sizes]: the two [formatFileSize]. *)

From S2P Require Import Prelude.
From S2P Require Regex.

(** ** Byte ranges *)

Module Parts.

Definition MULTIPART_PART_SIZE : Z := 16 * 1024 * 1024.

Record Part := { number : Z; start : Z; end_ : Z }.

(** [for (let start = 0, number = 1; start < size; start += PART_SIZE, number += 1)];
    [fuel] bounds the iterations. *)
Fixpoint build_loop (fuel : nat) (size start number : Z) : list Part :=
  match fuel with
  | O => []
  | S fuel =>
      if start <? size then
        {| number := number; start := start;
           end_ := Z.min (start + MULTIPART_PART_SIZE) size |}
        :: build_loop fuel size (start + MULTIPART_PART_SIZE) (number + 1)
      else []
  end.

(** The loop runs once per started part. *)
Definition part_count (size : Z) : Z := (size + MULTIPART_PART_SIZE - 1) / MULTIPART_PART_SIZE.

Definition buildParts (size : Z) : list Part := build_loop (Z.to_nat (part_count size)) size 0 1.

(** The mobile loop over part indices, where [totalParts] is
    [Math.ceil(size / PART_SIZE)]. *)
Definition mobile_part (size : Z) (index : nat) : Part :=
  let s := Z.of_nat index * MULTIPART_PART_SIZE in
  {| number := Z.of_nat index + 1; start := s; end_ := Z.min (s + MULTIPART_PART_SIZE) size |}.

Definition mobile_parts (size : Z) : list Part :=
  map (mobile_part size) (seq 0 (Z.to_nat (part_count size))).

Lemma part_count_spec size k :
  0 <= size → k < part_count size ↔ k * MULTIPART_PART_SIZE < size.
Proof.
  intros Hs. unfold part_count. generalize (eq_refl : MULTIPART_PART_SIZE = 16777216).
  generalize MULTIPART_PART_SIZE. intros P HP.
  pose proof (Z.div_mod (size + P - 1) P ltac:(lia)). 
  pose proof (Z.mod_pos_bound (size + P - 1) P ltac:(lia)). split; nia.
Qed.

Lemma part_count_nonneg size : 0 <= size → 0 <= part_count size.
Proof. intros H. unfold part_count. apply Z.div_pos; [|done]. unfold MULTIPART_PART_SIZE. lia. Qed.

(** More fuel than started parts changes nothing, and the loop is the map. *)
Lemma build_loop_map size n k :
  0 <= size →
  (∀ j, (j < n)%nat → Z.of_nat (k + j) * MULTIPART_PART_SIZE < size) →
  build_loop n size (Z.of_nat k * MULTIPART_PART_SIZE) (Z.of_nat k + 1)
  = map (mobile_part size) (seq k n).
Proof.
  intros Hs. revert k. induction n as [|n IH]; intros k H; [done|]. cbn [build_loop seq map].
  pose proof (H 0%nat ltac:(lia)) as H0. rewrite Nat.add_0_r in H0.
  rewrite (proj2 (Z.ltb_lt _ _) H0). f_equal.
  replace (Z.of_nat k * MULTIPART_PART_SIZE + MULTIPART_PART_SIZE)
    with (Z.of_nat (S k) * MULTIPART_PART_SIZE) by lia.
  replace (Z.of_nat k + 1 + 1) with (Z.of_nat (S k) + 1) by lia. apply IH.
  intros j Hj. replace (S k + j)%nat with (k + S j)%nat by lia. apply H. lia.
Qed.

Lemma buildParts_mobile size : 0 <= size → buildParts size = mobile_parts size.
Proof.
  intros Hs. apply (build_loop_map size _ 0); [done|]. intros j Hj. simpl.
  apply (part_count_spec size); [done|]. lia.
Qed.

(** The loop of the source has ended after [part_count] rounds. *)
Lemma build_loop_stops size fuel :
  0 <= size → (Z.to_nat (part_count size) <= fuel)%nat → build_loop fuel size 0 1 = buildParts size.
Proof.
  intros Hs Hf.
  assert (G : ∀ n k, (∀ j, (j < n)%nat → Z.of_nat (k + j) * MULTIPART_PART_SIZE < size) →
    size <= Z.of_nat (k + n) * MULTIPART_PART_SIZE → ∀ extra,
    build_loop (n + extra) size (Z.of_nat k * MULTIPART_PART_SIZE) (Z.of_nat k + 1)
    = build_loop n size (Z.of_nat k * MULTIPART_PART_SIZE) (Z.of_nat k + 1)).
  { induction n as [|n IH]; intros k H1 H2 extra.
    - simpl. rewrite Nat.add_0_r in H2. destruct extra; [done|]. cbn [build_loop].
      by rewrite (proj2 (Z.ltb_ge _ _) H2).
    - cbn [build_loop Nat.add]. destruct (_ <? size); [|done]. f_equal.
      replace (Z.of_nat k * MULTIPART_PART_SIZE + MULTIPART_PART_SIZE)
        with (Z.of_nat (S k) * MULTIPART_PART_SIZE) by lia.
      replace (Z.of_nat k + 1 + 1) with (Z.of_nat (S k) + 1) by lia. apply IH.
      + intros j Hj. replace (S k + j)%nat with (k + S j)%nat by lia. apply H1. lia.
      + by replace (S k + n)%nat with (k + S n)%nat by lia. }
  unfold buildParts. replace fuel with (Z.to_nat (part_count size) + (fuel - Z.to_nat (part_count size)))%nat by lia.
  apply (G _ 0%nat).
  - intros j Hj. apply (part_count_spec size); [done|]. lia.
  - apply Z.nlt_ge. rewrite <- (part_count_spec size) by done.
    pose proof (part_count_nonneg size Hs). simpl. lia.
Qed.

(** Consecutive ranges: each part starts where the one before it ends. *)
Fixpoint tiles (from to : Z) (l : list Part) : Prop :=
  match l with
  | [] => from = to
  | p :: r => start p = from ∧ 0 < end_ p - start p <= MULTIPART_PART_SIZE ∧ tiles (end_ p) to r
  end.

Lemma mobile_tiles size n k :
  0 <= size → (∀ j, (j < n)%nat → Z.of_nat (k + j) * MULTIPART_PART_SIZE < size) →
  size <= Z.of_nat (k + n) * MULTIPART_PART_SIZE →
  tiles (Z.min (Z.of_nat k * MULTIPART_PART_SIZE) size) size (map (mobile_part size) (seq k n)).
Proof.
  intros Hs. revert k. induction n as [|n IH]; intros k H1 H2; cbn [seq map tiles].
  - rewrite Nat.add_0_r in H2. lia.
  - pose proof (H1 0%nat ltac:(lia)) as H0. rewrite Nat.add_0_r in H0.
    cbn [mobile_part start end_ number]. unfold MULTIPART_PART_SIZE in *.
    split; [lia|]. split; [lia|].
    replace (Z.of_nat k * (16 * 1024 * 1024) + 16 * 1024 * 1024)
      with (Z.of_nat (S k) * (16 * 1024 * 1024)) by lia.
    apply IH; [|by replace (S k + n)%nat with (k + S n)%nat by lia].
    intros j Hj. replace (S k + j)%nat with (k + S j)%nat by lia. apply H1. lia.
Qed.

(** Both clients cut a file into the same parts, numbered from one in order,
    whose byte ranges tile the file exactly: no byte is missing or sent twice,
    and every part is at most 16 MiB. The loop ends for every size. *)
Theorem parts_tile_the_file (size : Z) (fuel : nat) :
  0 <= size → (Z.to_nat (part_count size) <= fuel)%nat →
  let parts := build_loop fuel size 0 1 in
  tiles 0 size parts
  ∧ map number parts = map (λ i, Z.of_nat i + 1) (seq 0 (length parts))
  ∧ parts = mobile_parts size.
Proof.
  intros Hs Hf parts. unfold parts. rewrite build_loop_stops, buildParts_mobile by done.
  unfold mobile_parts. split_and!.
  - replace 0 with (Z.min (Z.of_nat 0 * MULTIPART_PART_SIZE) size) at 1 by (simpl; lia).
    apply mobile_tiles; [done| |].
    + intros j Hj. apply (part_count_spec size); [done|]. lia.
    + apply Z.nlt_ge. rewrite <- (part_count_spec size) by done.
      pose proof (part_count_nonneg size Hs). simpl. lia.
  - rewrite map_map, length_map, length_seq. done.
  - done.
Qed.

Lemma parts_tile_the_file_witness :
  tiles 0 40000000 (build_loop 3 40000000 0 1) ∧ length (build_loop 3 40000000 0 1) = 3%nat.
Proof.
  split; [|vm_compute; reflexivity].
  apply (parts_tile_the_file 40000000 3); [lia|vm_compute; lia].
Defined.

End Parts.

(** ** Retries of a part *)

Module Retry.

Definition MULTIPART_MAX_ATTEMPTS : nat := 4.

(** What one try of a part gives: an ETag, an error, or (web only) the signal was
    aborted while it failed. *)
Inductive Try := Etag (e : str) | Error (m : str) | Cancelled.

Inductive Result := Uploaded (e : str) | Failed (m : str) | Stopped.

(** The loop of [uploadPartWithRetry]: its result and the waits between tries. *)
Fixpoint retry_loop (fuel attempt : nat) (base : Z) (tries : nat → Try) (last : str)
    : Result * list Z :=
  match fuel with
  | O => (Failed last, [])
  | S fuel =>
      match tries attempt with
      | Etag e => (Uploaded e, [])
      | Cancelled => (Stopped, [])
      | Error m =>
          if (attempt <? MULTIPART_MAX_ATTEMPTS)%nat then
            let '(r, waits) := retry_loop fuel (S attempt) base tries m in
            (r, base * Z.of_nat attempt * Z.of_nat attempt :: waits)
          else retry_loop fuel (S attempt) base tries m
      end
  end.

Definition web_failure (partNumber : Z) (r : Result) : Result :=
  match r with
  | Failed m => Failed (js "Part " ++ str_of_Z partNumber ++ js " failed after 4 attempts: " ++ m)
  | _ => r
  end.

Definition uploadPartWithRetry (partNumber : Z) (tries : nat → Try) : Result * list Z :=
  let '(r, waits) := retry_loop MULTIPART_MAX_ATTEMPTS 1 750 tries [] in
  (web_failure partNumber r, waits).

Definition uploadPartWithRetry_mobile (tries : nat → Try) : Result * list Z :=
  retry_loop MULTIPART_MAX_ATTEMPTS 1 700 tries [].

Lemma retry_uploaded fuel attempt base tries last e :
  (retry_loop fuel attempt base tries last).1 = Uploaded e ↔
  ∃ k, (attempt <= k < attempt + fuel)%nat ∧ tries k = Etag e
    ∧ ∀ j, (attempt <= j < k)%nat → ∃ m, tries j = Error m.
Proof.
  revert attempt last. induction fuel as [|fuel IH]; intros attempt last; cbn [retry_loop].
  { split; [done|]. intros (k & Hk & _). lia. }
  assert (Step : ∀ m, tries attempt = Error m →
    (retry_loop fuel (S attempt) base tries m).1 = Uploaded e ↔
    ∃ k, (attempt <= k < attempt + S fuel)%nat ∧ tries k = Etag e
      ∧ ∀ j, (attempt <= j < k)%nat → ∃ m, tries j = Error m).
  { intros m T. rewrite IH. split.
    - intros (k & Hk & E & Hj). exists k. split_and!; [lia|lia|done|]. intros j Hj'.
      destruct (decide (j = attempt)) as [->|]; [by exists m|]. apply Hj. lia.
    - intros (k & Hk & E & Hj). exists k. assert (k ≠ attempt) by (intros ->; congruence).
      split_and!; [lia|lia|done|]. intros j Hj'. apply Hj. lia. }
  destruct (tries attempt) as [e'|m|] eqn:T.
  - split.
    + intros [= <-]. exists attempt. split_and!; [lia|lia|done|]. intros j Hj. lia.
    + intros (k & Hk & E & Hj). destruct (decide (k = attempt)) as [->|]; [simpl; congruence|].
      destruct (Hj attempt ltac:(lia)) as [m Hm]. congruence.
  - destruct (attempt <? MULTIPART_MAX_ATTEMPTS)%nat; [|by apply Step].
    destruct (retry_loop fuel (S attempt) base tries m) as [r w] eqn:E. simpl.
    change r with (r, w).1. rewrite <- E. by apply Step.
  - split; [done|]. intros (k & Hk & E & Hj). destruct (decide (k = attempt)) as [->|]; [congruence|].
    destruct (Hj attempt ltac:(lia)) as [m Hm]. congruence.
Qed.

Lemma retry_waits base tries last :
  0 < base →
  let waits := (retry_loop MULTIPART_MAX_ATTEMPTS 1 base tries last).2 in
  (length waits <= 3)%nat ∧ Forall (λ w, 0 < w) waits ∧ foldr Z.add 0 waits <= base * 14.
Proof.
  intros Hb. unfold MULTIPART_MAX_ATTEMPTS. cbn [retry_loop].
  destruct (tries 1%nat); [|destruct (tries 2%nat); [|destruct (tries 3%nat);
    [|destruct (tries 4%nat)|]|]|]; cbn; (split; [lia|]); (split; [repeat constructor; lia|lia]).
Qed.

(** A part is tried at most four times, in either client. It is uploaded
    exactly when one of the first four tries succeeds with only failures (and no
    cancellation) before it, with the ETag of that try; the pauses between tries
    are at most three and add up to at most 14 times the base of 750 or 700 ms. *)
Theorem part_retry_correct (partNumber : Z) (tries : nat → Try) :
  let '(r, waits) := uploadPartWithRetry partNumber tries in
  let '(r', waits') := uploadPartWithRetry_mobile tries in
  (length waits <= 3)%nat ∧ foldr Z.add 0 waits <= 750 * 14 ∧ foldr Z.add 0 waits' <= 700 * 14
  ∧ ∀ e, (r = Uploaded e ↔ r' = Uploaded e)
    ∧ (r = Uploaded e ↔ ∃ k, (1 <= k <= 4)%nat ∧ tries k = Etag e
         ∧ ∀ j, (1 <= j < k)%nat → ∃ m, tries j = Error m).
Proof.
  unfold uploadPartWithRetry, uploadPartWithRetry_mobile.
  destruct (retry_loop MULTIPART_MAX_ATTEMPTS 1 750 tries []) as [r w] eqn:E.
  destruct (retry_loop MULTIPART_MAX_ATTEMPTS 1 700 tries []) as [r' w'] eqn:E'.
  pose proof (retry_waits 750 tries [] ltac:(lia)) as (L & _ & S).
  pose proof (retry_waits 700 tries [] ltac:(lia)) as (_ & _ & S').
  rewrite E in L, S. rewrite E' in S'. split_and!; [done..|]. intros e.
  assert (U : web_failure partNumber r = Uploaded e ↔ r = Uploaded e) by (by destruct r).
  assert (B : ∀ base rr ww, retry_loop MULTIPART_MAX_ATTEMPTS 1 base tries [] = (rr, ww) →
    rr = Uploaded e ↔ ∃ k, (1 <= k <= 4)%nat ∧ tries k = Etag e
         ∧ ∀ j, (1 <= j < k)%nat → ∃ m, tries j = Error m).
  { intros base rr ww Er. change rr with (rr, ww).1. rewrite <- Er, retry_uploaded.
    unfold MULTIPART_MAX_ATTEMPTS.
    split; intros (k & Hk & ?); exists k; (split; [lia|done]). }
  rewrite U, (B _ _ _ E), (B _ _ _ E'). done.
Qed.

End Retry.

(** ** The worker pool of [uploadMultipartToS3]

    The workers share [cursor] and [completedParts]; between two [await]s each
    runs alone, so an execution is a sequence of the steps below. *)

Module Pool.

Definition MULTIPART_CONCURRENCY : nat := 3.

Inductive Worker :=
| Looping                 (* at the head of [while (cursor < parts.length)] *)
| Sending (part : nat)    (* awaiting [uploadPartWithRetry] of that part *)
| Finished                (* its loop has ended *)
| Rejected.               (* its promise was rejected *)

Inductive Phase :=
| Running                 (* awaiting [Promise.all] *)
| Completing              (* awaiting [handlers.complete(completedParts)] *)
| Done
| Aborted.                (* in the [catch] clause, after [handlers.abort] *)

Record State := {
  cursor : nat;
  workers : list Worker;
  completedParts : list (nat * str);
  signalAborted : bool;
  phase : Phase;
  completeCalls : list (list (nat * str));
  abortCalls : nat;
}.

Section Steps.
(** The number of parts; part [i] has the number [i + 1]. *)
Context (parts : nat).

Definition init : State := {|
  cursor := 0; workers := replicate (MULTIPART_CONCURRENCY `min` parts)%nat Looping;
  completedParts := []; signalAborted := false; phase := Running; completeCalls := [];
  abortCalls := 0 |}.

Definition with_workers (st : State) c ws done : State := {|
  cursor := c; workers := ws; completedParts := done; signalAborted := signalAborted st;
  phase := phase st; completeCalls := completeCalls st; abortCalls := abortCalls st |}.

Definition with_phase (st : State) aborted ph calls aborts : State := {|
  cursor := cursor st; workers := workers st; completedParts := completedParts st;
  signalAborted := aborted; phase := ph; completeCalls := calls; abortCalls := aborts |}.

Inductive step : State → State → Prop :=
| step_take st i :
    workers st !! i = Some Looping → (cursor st < parts)%nat →
    step st (with_workers st (S (cursor st)) (<[i := Sending (cursor st)]> (workers st))
               (completedParts st))
| step_exit st i :
    workers st !! i = Some Looping → (parts <= cursor st)%nat →
    step st (with_workers st (cursor st) (<[i := Finished]> (workers st)) (completedParts st))
| step_sent st i p etag :
    workers st !! i = Some (Sending p) →
    step st (with_workers st (cursor st) (<[i := Looping]> (workers st))
               (completedParts st ++ [(p, etag)]))
| step_rejected st i p :
    workers st !! i = Some (Sending p) →
    step st (with_workers st (cursor st) (<[i := Rejected]> (workers st)) (completedParts st))
| step_cancel st :
    (** The caller's signal aborts the internal one, at any time but once. *)
    signalAborted st = false →
    step st (with_phase st true (phase st) (completeCalls st) (abortCalls st))
| step_failed st :
    (** [Promise.all] rejects with the first rejected worker. *)
    phase st = Running → Rejected ∈ workers st →
    step st (with_phase st true Aborted (completeCalls st) (S (abortCalls st)))
| step_cancelled st :
    (** All workers have finished, but the signal is aborted. *)
    phase st = Running → Forall (λ w, w = Finished) (workers st) → signalAborted st = true →
    step st (with_phase st true Aborted (completeCalls st) (S (abortCalls st)))
| step_complete st :
    phase st = Running → Forall (λ w, w = Finished) (workers st) → signalAborted st = false →
    step st (with_phase st false Completing (completeCalls st ++ [completedParts st])
               (abortCalls st))
| step_completed st :
    phase st = Completing →
    step st (with_phase st (signalAborted st) Done (completeCalls st) (abortCalls st))
| step_complete_failed st :
    phase st = Completing →
    step st (with_phase st true Aborted (completeCalls st) (S (abortCalls st))).

Inductive reachable : State → Prop :=
| reachable_init : reachable init
| reachable_step st st' : reachable st → step st st' → reachable st'.

(** *** Invariant *)

Definition sending (ws : list Worker) : list nat :=
  omap (λ w, match w with Sending p => Some p | _ => None end) ws.

(** Every part taken so far was uploaded, is being sent, or was lost with a
    rejected worker; no part is taken twice. *)
Definition Inv (st : State) : Prop :=
  (cursor st <= parts)%nat
  ∧ length (workers st) = (MULTIPART_CONCURRENCY `min` parts)%nat
  ∧ (∃ lost, map fst (completedParts st) ++ sending (workers st) ++ lost ≡ₚ seq 0 (cursor st)
      ∧ (lost ≠ [] → Rejected ∈ workers st))
  ∧ ((cursor st < parts)%nat → Finished ∉ workers st)
  ∧ (completeCalls st ≠ [] → phase st ≠ Running)
  ∧ (∀ l, l ∈ completeCalls st → map fst l ≡ₚ seq 0 parts)
  ∧ (length (completeCalls st) <= 1)%nat
  ∧ (abortCalls st <= 1)%nat ∧ (abortCalls st = 1%nat ↔ phase st = Aborted).

Lemma sending_insert ws i w w' :
  ws !! i = Some w →
  sending (<[i := w']> ws) ++ (match w with Sending p => [p] | _ => [] end)
  ≡ₚ (match w' with Sending p => [p] | _ => [] end) ++ sending ws.
Proof.
  revert i. induction ws as [|x ws IH]; intros [|i] H; simpl in H; try done.
  - injection H as ->. change (sending (<[0%nat := w']> (w :: ws))) with (sending (w' :: ws)).
    assert (C : ∀ x, sending (x :: ws) = match x with Sending p => [p] | _ => [] end ++ sending ws)
      by (by intros []).
    rewrite !C. solve_Permutation.
  - specialize (IH i H).
    assert (C : ∀ l, sending (x :: l) = match x with Sending p => [p] | _ => [] end ++ sending l)
      by (by intros l; destruct x).
    change (<[S i := w']> (x :: ws)) with (x :: <[i := w']> ws). rewrite !C.
    rewrite <- (assoc_L (++)), IH. solve_Permutation.
Qed.

Lemma sending_finished ws : Forall (λ w, w = Finished) ws → sending ws = [].
Proof. induction 1 as [|w ws -> _ IH]; [done|]. exact IH. Qed.

Lemma sending_length ws : (length (sending ws) <= length ws)%nat.
Proof. induction ws as [|[] ws IH]; simpl; lia. Qed.

Lemma insert_other (ws : list Worker) i w x :
  ws !! i ≠ Some x → x ∈ ws → x ∈ <[i := w]> ws.
Proof.
  intros Hi (j & Hj)%list_elem_of_lookup_1. apply list_elem_of_lookup_2 with j.
  rewrite list_lookup_insert_ne; [done|]. intros <-. done.
Qed.

Lemma insert_new (ws : list Worker) i w x : x ∈ <[i := w]> ws → x = w ∨ x ∈ ws.
Proof.
  intros [j Hj]%list_elem_of_lookup_1.
  destruct (decide (i = j)) as [<-|Hne].
  - apply list_lookup_insert_Some in Hj as [(_ & -> & _)|(? & _)]; auto. done.
  - rewrite list_lookup_insert_ne in Hj by done. right. by apply list_elem_of_lookup_2 in Hj.
Qed.

Lemma sending_looping n : sending (replicate n Looping) = [].
Proof. by induction n. Qed.

Lemma init_Inv : Inv init.
Proof.
  unfold Inv, init.
  cbn [cursor workers completedParts phase completeCalls abortCalls signalAborted].
  split_and!; try done; try lia.
  - by rewrite length_replicate.
  - exists []. by rewrite sending_looping.
  - intros _ [H _]%elem_of_replicate. done.
  - by intros l ?%not_elem_of_nil.
  - simpl. lia.
Qed.

(** A worker step: the taken parts stay accounted for. *)
Lemma account st i w w' c (done : list (nat * str)) lost :
  workers st !! i = Some w →
  map fst (completedParts st) ++ sending (workers st) ++ lost ≡ₚ seq 0 (cursor st) →
  ∀ lost', map fst done ++ (match w' with Sending p => [p] | _ => [] end) ++ lost'
    ≡ₚ map fst (completedParts st) ++ (match w with Sending p => [p] | _ => [] end) ++ lost
       ++ seq (cursor st) (c - cursor st) →
  (cursor st <= c)%nat →
  map fst done ++ sending (<[i := w']> (workers st)) ++ lost' ≡ₚ seq 0 c.
Proof.
  intros Hi P lost' Q Hc. pose proof (sending_insert (workers st) i w w' Hi) as S.
  set (a := match w with Sending p => [p] | _ => [] end) in *.
  set (b := match w' with Sending p => [p] | _ => [] end) in *.
  apply (Permutation_app_inv_l a).
  replace (seq 0 c) with (seq 0 (cursor st) ++ seq (cursor st) (c - cursor st)).
  2: { rewrite <- seq_app. f_equal. lia. }
  rewrite <- P.
  assert (E1 : a ++ map fst done ++ sending (<[i := w']> (workers st)) ++ lost'
             ≡ₚ (map fst done ++ b ++ lost') ++ sending (workers st)).
  { transitivity ((sending (<[i := w']> (workers st)) ++ a) ++ map fst done ++ lost'); [solve_Permutation|].
    rewrite S. solve_Permutation. }
  rewrite E1, Q. solve_Permutation.
Qed.

(** The parts of the invariant that a worker's step touches. *)
Lemma worker_step_Inv st i w w' c done :
  Inv st → workers st !! i = Some w → (cursor st <= c <= parts)%nat →
  w ≠ Rejected → w ≠ Finished →
  (w' = Finished → (parts <= c)%nat) →
  (∀ lost, ∃ lost',
    map fst done ++ (match w' with Sending p => [p] | _ => [] end) ++ lost'
    ≡ₚ map fst (completedParts st) ++ (match w with Sending p => [p] | _ => [] end) ++ lost
       ++ seq (cursor st) (c - cursor st)
    ∧ (lost' ≠ [] → w' = Rejected ∨ lost ≠ [])) →
  Inv (with_workers st c (<[i := w']> (workers st)) done).
Proof.
  intros (Hc & Hl & (lost & P & HR) & HF & HC & HL & H1 & HA) Hi Hcc Hw1 Hw2 Hw' Hq.
  unfold Inv. cbn [cursor workers completedParts phase completeCalls abortCalls with_workers].
  destruct (Hq lost) as (lost' & Q & Hlost').
  split; [lia|]. split; [by rewrite length_insert|]. split.
  { exists lost'. split; [by eapply account; [done|done|exact Q|lia]|]. intros Hne.
    destruct (Hlost' Hne) as [->|Hl'].
    - apply list_elem_of_lookup_2 with i. apply list_lookup_insert_eq. by eapply lookup_lt_Some.
    - apply insert_other; [|by apply HR]. rewrite Hi. congruence. }
  split; [|done]. intros Hlt Hin. apply insert_new in Hin as [E|Hin].
  - symmetry in E. apply Hw' in E. lia.
  - apply HF; [lia|done].
Qed.

Lemma finished_complete st :
  Inv st → Forall (λ w, w = Finished) (workers st) → map fst (completedParts st) ≡ₚ seq 0 parts.
Proof.
  intros (Hc & Hl & (lost & P & HR) & HF & _) F.
  rewrite (sending_finished _ F) in P. simpl in P.
  assert (lost = []) as ->.
  { destruct lost as [|x l]; [done|]. specialize (HR ltac:(done)).
    rewrite Forall_forall in F. specialize (F _ HR). done. }
  rewrite app_nil_r in P. rewrite P.
  destruct (decide (cursor st = parts)) as [->|Hne]; [done|]. exfalso.
  destruct (workers st) as [|w ws] eqn:E.
  - cbn [length] in Hl. unfold MULTIPART_CONCURRENCY in Hl. lia.
  - apply Forall_cons in F as [-> _]. apply HF; [lia|]. by left.
Qed.

Lemma not_aborted st : Inv st → phase st ≠ Aborted → abortCalls st = 0%nat.
Proof.
  intros (_ & _ & _ & _ & _ & _ & _ & HA & HB) Hp.
  assert (abortCalls st ≠ 1%nat) by (intros E%HB; done). lia.
Qed.

Lemma pool_step_Inv st st' : Inv st → step st st' → Inv st'.
Proof.
  intros HI Hs. pose proof HI as (Hc & Hl & HP & HF & HC & HL & H1 & HA & HB).
  destruct Hs as [st i Hi Hlt|st i Hi Hge|st i p etag Hi|st i p Hi|st|st Hp Hr|st Hp F Ha
                 |st Hp F Ha|st Hp|st Hp].
  - eapply worker_step_Inv; [done|done|lia|done|done|first [done|by intros _]|]. intros lost. exists lost. simpl. split; [|auto].
    replace (S (cursor st) - cursor st)%nat with 1%nat by lia. simpl. solve_Permutation.
  - eapply worker_step_Inv; [done|done|lia|done|done|first [done|by intros _]|]. intros lost. exists lost. simpl. split; [|auto].
    rewrite Nat.sub_diag. simpl. by rewrite app_nil_r.
  - eapply worker_step_Inv; [done|done|lia|done|done|first [done|by intros _]|]. intros lost. exists lost. simpl. split; [|auto].
    rewrite Nat.sub_diag, map_app. simpl. rewrite app_nil_r. solve_Permutation.
  - eapply worker_step_Inv; [done|done|lia|done|done|done|]. intros lost. exists (p :: lost). simpl.
    split; [|auto]. rewrite Nat.sub_diag. simpl. by rewrite app_nil_r.
  - done.
  - unfold Inv. cbn. rewrite (not_aborted st HI) by congruence. by split_and!.
  - unfold Inv. cbn. rewrite (not_aborted st HI) by congruence. by split_and!.
  - assert (completeCalls st = []) as E0.
    { destruct (completeCalls st); [done|]. by destruct (HC ltac:(done)). }
    pose proof (not_aborted st HI ltac:(congruence)) as E1.
    unfold Inv. cbn. rewrite E0, E1. split_and!; try done; try lia.
    intros l ->%list_elem_of_singleton. by apply finished_complete.
  - pose proof (not_aborted st HI ltac:(congruence)) as E1.
    unfold Inv. cbn. rewrite E1. split_and!; try done; lia.
  - unfold Inv. cbn. rewrite (not_aborted st HI) by congruence. by split_and!.
Qed.

Lemma pool_reachable_Inv st : reachable st → Inv st.
Proof. induction 1; eauto using init_Inv, pool_step_Inv. Qed.

(** C5: Under every interleaving of the workers, with failures and cancellation at
    any point: at most three parts are in flight; the upload is completed at most
    once, and then with every part of the file exactly once; it is aborted at
    most once, and an aborted upload was not completed unless the completion
    request itself failed. *)
Theorem pool_completes_every_part (st : State) :
  reachable st →
  (length (sending (workers st)) <= MULTIPART_CONCURRENCY)%nat
  ∧ (length (completeCalls st) <= 1)%nat
  ∧ (∀ l, l ∈ completeCalls st → map fst l ≡ₚ seq 0 parts)
  ∧ (abortCalls st <= 1)%nat ∧ (abortCalls st = 1%nat ↔ phase st = Aborted)
  ∧ (phase st = Running → completeCalls st = []).
Proof.
  intros (Hc & Hl & HP & HF & HC & HL & H1 & HA & HB)%pool_reachable_Inv.
  split_and!; try done; try apply HB.
  - pose proof (sending_length (workers st)). lia.
  - intros Hp. destruct (completeCalls st); [done|]. by destruct (HC ltac:(done)).
Qed.

(** *** Termination *)

Definition weight (w : Worker) : nat :=
  match w with Looping => 1 | Sending _ => 2 | Finished | Rejected => 0 end.

Definition phase_weight (p : Phase) : nat :=
  match p with Running => 2 | Completing => 1 | Done | Aborted => 0 end.

Definition measure (st : State) : nat :=
  (2 * (parts - cursor st) + list_sum (map weight (workers st)) + phase_weight (phase st)
   + (if signalAborted st then 0 else 1))%nat.

Lemma weight_insert ws i w w' :
  ws !! i = Some w →
  (list_sum (map weight (<[i := w']> ws)) + weight w
   = list_sum (map weight ws) + weight w')%nat.
Proof.
  revert i. induction ws as [|x ws IH]; intros [|i] H; simpl in H; try done.
  - injection H as ->. simpl. lia.
  - specialize (IH i H). simpl in *. lia.
Qed.

Lemma step_measure st st' : step st st' → (measure st' < measure st)%nat.
Proof.
  intros Hs. unfold measure. destruct Hs as [st i Hi Hlt|st i Hi Hge|st i p etag Hi|st i p Hi|st Ha
    |st Hp Hr|st Hp F Ha|st Hp F Ha|st Hp|st Hp]; cbn [cursor workers phase signalAborted with_workers with_phase].
  - pose proof (weight_insert _ _ _ (Sending (cursor st)) Hi). simpl in *. lia.
  - pose proof (weight_insert _ _ _ Finished Hi). simpl in *. lia.
  - pose proof (weight_insert _ _ _ Looping Hi). simpl in *. lia.
  - pose proof (weight_insert _ _ _ Rejected Hi). simpl in *. lia.
  - rewrite Ha. lia.
  - rewrite Hp. simpl. destruct (signalAborted st); lia.
  - rewrite Hp. simpl. destruct (signalAborted st); lia.
  - rewrite Hp, Ha. simpl. lia.
  - rewrite Hp. simpl. destruct (signalAborted st); lia.
  - rewrite Hp. simpl. destruct (signalAborted st); lia.
Qed.

Inductive steps : nat → State → State → Prop :=
| steps_O st : steps 0 st st
| steps_S n st st' st'' : step st st' → steps n st' st'' → steps (S n) st st''.

Lemma steps_bound n st st' : steps n st st' → (n + measure st' <= measure st)%nat.
Proof. induction 1 as [|n st st' st'' H _ IH]; [lia|]. apply step_measure in H. lia. Qed.

(** C39: A multipart upload always ends: no execution of the pool takes more than
    twice the number of parts plus six steps, whatever the interleaving, the
    failures and the cancellation. *)
Theorem pool_terminates (n : nat) (st : State) : steps n init st → (n <= 2 * parts + 6)%nat.
Proof.
  intros H%steps_bound. unfold measure at 2 in H. unfold init in H.
  cbn [cursor workers phase signalAborted phase_weight] in H.
  assert (E : ∀ k, list_sum (map weight (replicate k Looping)) = k)
    by (induction k; simpl in *; lia).
  rewrite E in H. unfold MULTIPART_CONCURRENCY in H. lia.
Qed.

End Steps.

(** A file of two parts: the second worker finishes first. *)
Definition sample_done : State := {|
  cursor := 2; workers := [Finished; Finished];
  completedParts := [(1%nat, js "b"); (0%nat, js "a")]; signalAborted := false;
  phase := Completing; completeCalls := [[(1%nat, js "b"); (0%nat, js "a")]]; abortCalls := 0 |}.

Lemma sample_reachable : reachable 2 sample_done.
Proof.
  assert (R : ∀ st st', reachable 2 st → step 2 st st' → ∀ st'', st' = st'' → reachable 2 st'').
  { intros st st' Hr Hs ? <-. by eapply reachable_step. }
  eapply R; [eapply reachable_step; [eapply reachable_step; [eapply reachable_step;
    [eapply reachable_step; [eapply reachable_step; [eapply reachable_step;
    [apply reachable_init|]|]|]|]|]|]| |].
  - by apply (step_take _ _ 0%nat); [|simpl; lia].
  - by apply (step_take _ _ 1%nat); [|simpl; lia].
  - by apply (step_sent _ _ 1%nat 1%nat (js "b")).
  - by apply (step_sent _ _ 0%nat 0%nat (js "a")).
  - by apply (step_exit _ _ 0%nat); [|simpl; lia].
  - by apply (step_exit _ _ 1%nat); [|simpl; lia].
  - apply step_complete; [reflexivity|by repeat constructor|reflexivity].
  - reflexivity.
Qed.

Lemma pool_completes_every_part_witness :
  (length (completeCalls sample_done) <= 1)%nat
  ∧ map fst [(1%nat, js "b"); (0%nat, js "a")] ≡ₚ seq 0 2.
Proof.
  split; [simpl; lia|].
  apply (pool_completes_every_part 2 sample_done sample_reachable). by left.
Defined.

Lemma pool_terminates_witness : (1 <= 2 * 1 + 6)%nat.
Proof.
  eapply (pool_terminates 1 1). eapply steps_S; [apply (step_take _ _ 0%nat)|apply steps_O].
  - reflexivity.
  - simpl. lia.
Defined.

End Pool.

(** ** Publishing a recording from the mobile app *)

Module Recording.
Import Parts Retry.

Definition MULTIPART_THRESHOLD : Z := 100 * 1024 * 1024.
Definition MAX_RECORDING_SIZE : Z := 5 * 1024 * 1024 * 1024.

Record Asset := { name : str; size : Z; mimeType : str }.

Inductive res (A : Type) := Ok (a : A) | Throws (message : str).
Arguments Ok {A} a.
Arguments Throws {A} message.

(** The requests the upload makes. *)
Inductive Call :=
| Presign
| Post
| Initiate
| PutPart (partNumber : Z)
| Complete (s3_key upload_id : str) (parts : list (Z * str))
| AbortMultipart (s3_key upload_id : str)
| CreateRecording (s3_key : str)
| AbandonUpload (s3_key : str).

(** How the API and the storage answer. *)
Record Backend := {
  presign : res str;
  post : res unit;
  initiate : res (str * str);
  putPart : Z → nat → Try;
  complete : res unit;
  createRecording : res Z;
}.

(** [storageError]: the S3 error code of an XML body. *)
Definition code_pattern : Regex.matcher :=
  Regex.seq (Regex.lit (js "<Code>")) (Regex.seq
    (Regex.group 1 (Regex.plus (λ c, negb (bool_decide (c = "<"%char))))) (Regex.lit (js "</Code>"))).

Definition storageError (body : str) (status : Z) (fallback : str) : str :=
  let code := match Regex.exec code_pattern body with Some x => Regex.cap 1 x.2 | None => [] end in
  if truthy code then fallback ++ js " (" ++ code ++ js ")"
  else fallback ++ js " (" ++ str_of_Z status ++ js ")".

Section Upload.
Context (b : Backend).

Definition uploadPresignedPost : res str * list Call :=
  match presign b with
  | Throws m => (Throws m, [Presign])
  | Ok key =>
      match post b with
      | Throws m => (Throws m, [Presign; Post])
      | Ok _ => (Ok key, [Presign; Post])
      end
  end.

(** The loop over the parts: each is uploaded after the one before it. *)
Fixpoint send_parts (l : list Part) (sent : list (Z * str)) : res (list (Z * str)) * list Call :=
  match l with
  | [] => (Ok sent, [])
  | p :: r =>
      match (uploadPartWithRetry_mobile (putPart b (number p))).1 with
      | Uploaded etag =>
          let '(o, log) := send_parts r (sent ++ [(number p, etag)]) in
          (o, PutPart (number p) :: log)
      | Failed m => (Throws m, [PutPart (number p)])
      | Stopped => (Throws [], [PutPart (number p)])
      end
  end.

Definition uploadMultipart (size : Z) : res str * list Call :=
  match initiate b with
  | Throws m => (Throws m, [Initiate])
  | Ok (key, upload_id) =>
      let '(sent, log) := send_parts (mobile_parts size) [] in
      match sent with
      | Throws m => (Throws m, Initiate :: log ++ [AbortMultipart key upload_id])
      | Ok parts =>
          let log := Initiate :: log ++ [Complete key upload_id parts] in
          match complete b with
          | Throws m => (Throws m, log ++ [AbortMultipart key upload_id])
          | Ok _ => (Ok key, log)
          end
      end
  end.

Definition uploadRecording (asset : Asset) : res Z * list Call :=
  if size asset <=? 0 then (Throws (js "The selected video is empty."), [])
  else if MAX_RECORDING_SIZE <? size asset then
    (Throws (js "Recordings must be 5 GB or smaller."), [])
  else if negb (startsWith (mimeType asset) (js "video/")) then
    (Throws (js "Choose a video file."), [])
  else
    let '(uploaded, log) :=
      if MULTIPART_THRESHOLD <=? size asset then uploadMultipart (size asset)
      else uploadPresignedPost in
    match uploaded with
    | Throws m => (Throws m, log)
    | Ok key =>
        match createRecording b with
        | Ok r => (Ok r, log ++ [CreateRecording key])
        | Throws m =>
            (Throws m, log ++ CreateRecording key :: if truthy key then [AbandonUpload key] else [])
        end
    end.

(** *** What is left behind *)

(** The parts that were put, each with the tag the storage gave it. *)
Definition part_stored (x : Z * str) : Prop := (uploadPartWithRetry_mobile (putPart b x.1)).1 = Uploaded x.2.

(** After the object [key] is stored: the recording is made from it, or it is abandoned. *)
Definition after_storing (key : str) (o : res Z) (log : list Call) : Prop :=
  match createRecording b with
  | Ok r => o = Ok r ∧ log = [CreateRecording key]
  | Throws m => o = Throws m ∧ log = [CreateRecording key; AbandonUpload key]
  end.

(** The requests of a multipart upload that was initiated as [key] and [u]: parts in their
    order, until one fails and the upload is aborted; or all of them, and the completion,
    which may fail too. *)
Definition multipart_requests (size : Z) (key u : str) (o : res Z) (log : list Call) : Prop :=
  let numbers := map number (mobile_parts size) in
  (∃ m n, o = Throws m ∧ (n <= length numbers)%nat
          ∧ log = Initiate :: map PutPart (take n numbers) ++ [AbortMultipart key u])
  ∨ (∃ q rest, map fst q = numbers ∧ Forall part_stored q
          ∧ log = Initiate :: map PutPart numbers ++ Complete key u q :: rest
          ∧ match complete b with
            | Throws m => o = Throws m ∧ rest = [AbortMultipart key u]
            | Ok _ => after_storing key o rest
            end).

Definition single_requests (o : res Z) (log : list Call) : Prop :=
  match presign b, post b with
  | Throws m, _ => o = Throws m ∧ log = [Presign]
  | Ok _, Throws m => o = Throws m ∧ log = [Presign; Post]
  | Ok key, Ok _ => ∃ rest, log = Presign :: Post :: rest ∧ after_storing key o rest
  end.

Lemma send_parts_spec l sent o log :
  send_parts l sent = (o, log) →
  (∃ m n, o = Throws m ∧ (n <= length l)%nat ∧ log = map PutPart (take n (map number l)))
  ∨ (∃ q, o = Ok (sent ++ q) ∧ map fst q = map number l ∧ Forall part_stored q
          ∧ log = map PutPart (map number l)).
Proof.
  revert sent o log. induction l as [|p l IH]; intros sent o log; cbn [send_parts].
  { intros [= <- <-]. right. exists []. by rewrite app_nil_r. }
  destruct (uploadPartWithRetry_mobile (putPart b (number p))).1 as [etag|m|] eqn:E.
  - destruct (send_parts l _) as [o' log'] eqn:F. intros [= <- <-].
    destruct (IH _ _ _ F) as [(m & n & -> & N & ->)|(q & -> & Q1 & Q2 & ->)].
    + left. exists m, (S n). split_and!; [done|cbn; lia|done].
    + right. exists ((number p, etag) :: q). rewrite <- (assoc_L (++)). cbn. rewrite Q1.
      split_and!; try done. by constructor.
  - intros [= <- <-]. left. exists m, 1%nat. split_and!; [done|cbn; lia|]. cbn. by rewrite take_0.
  - intros [= <- <-]. left. exists [], 1%nat. split_and!; [done|cbn; lia|]. cbn. by rewrite take_0.
Qed.

(** The end of [uploadRecording], for an object with a key. *)
Lemma stored_then key log : key ≠ [] →
  let r := match createRecording b with
    | Ok r => (Ok r, log ++ [CreateRecording key])
    | Throws m => (Throws m, log ++ CreateRecording key :: if truthy key then [AbandonUpload key] else [])
    end in ∃ rest, r.2 = log ++ rest ∧ after_storing key r.1 rest.
Proof. intros K. unfold after_storing. destruct (createRecording b); [by eexists|]. destruct key; [done|by eexists]. Qed.

(** C31: what publishing a recording from the phone leaves behind. A file that is empty, over
    5 GB or not a video makes no request. A file of less than 100 MB is posted with one
    presigned request; a larger one as a multipart upload: its parts in order, each tried as
    [uploadPartWithRetry] does, and then the completion of this very upload, which lists every
    part of the file in order with the tag the storage gave it. When a part or the completion
    fails, the last request aborts the upload that was initiated, with its key and identifier.
    When the object is stored the recording is created from its key; when that fails, the last
    request abandons that key. A success is the created recording, with no clean-up request.
    When the presigning, the post or the initiation itself fails, nothing follows. (The keys
    the server gives are not empty.) *)
Theorem recording_upload_cleans_up (asset : Asset) :
  (∀ key, presign b = Ok key → key ≠ []) → (∀ key u, initiate b = Ok (key, u) → key ≠ []) →
  let o := (uploadRecording asset).1 in
  let log := (uploadRecording asset).2 in
  if decide (0 < size asset <= 5 * 2 ^ 30 ∧ startsWith (mimeType asset) (js "video/") = true) then
    if decide (size asset < 100 * 2 ^ 20) then single_requests o log
    else match initiate b with
         | Throws m => o = Throws m ∧ log = [Initiate]
         | Ok (key, u) => multipart_requests (size asset) key u o log
         end
  else (∃ m, o = Throws m) ∧ log = [].
Proof.
  intros Hp Hi. cbv zeta. unfold uploadRecording, MAX_RECORDING_SIZE, MULTIPART_THRESHOLD.
  change (5 * 2 ^ 30) with 5368709120. change (100 * 2 ^ 20) with 104857600.
  change (5 * 1024 * 1024 * 1024) with 5368709120. change (100 * 1024 * 1024) with 104857600.
  destruct (Z.leb_spec (size asset) 0); [rewrite decide_False by lia; cbn; eauto|].
  destruct (Z.ltb_spec 5368709120 (size asset)); [rewrite decide_False by lia; cbn; eauto|].
  destruct (startsWith (mimeType asset) (js "video/")) eqn:V;
    cbn [negb]; [rewrite decide_True by done|rewrite decide_False by (by intros [_ ?]); cbn; eauto].
  destruct (Z.leb_spec 104857600 (size asset)); [rewrite decide_False by lia|rewrite decide_True by lia].
  - unfold uploadMultipart. destruct (initiate b) as [[key u]|m] eqn:I; [|done].
    destruct (send_parts (mobile_parts (size asset)) []) as [sent log] eqn:S.
    destruct (send_parts_spec _ _ _ _ S) as [(m & n & -> & N & ->)|(q & -> & Q1 & Q2 & ->)].
    + left. exists m, n. rewrite length_map. done.
    + cbn [app]. right. destruct (complete b) as [[]|m].
      * destruct (stored_then key (Initiate :: map PutPart (map number (mobile_parts (size asset))) ++ [Complete key u q])
          (Hi key u eq_refl)) as (rest & T1 & T2).
        exists q, rest. split_and!; [done|done| |exact T2]. rewrite T1. cbn. by rewrite <- (assoc_L (++)).
      * eexists q, _. split_and!; [done|done| |done|reflexivity]. cbn. by rewrite <- (assoc_L (++)).
  - unfold uploadPresignedPost, single_requests. destruct (presign b) as [key|m] eqn:P; [|done].
    destruct (post b) as [[]|m]; [|done].
    destruct (stored_then key [Presign; Post] (Hp key eq_refl)) as (rest & T1 & T2). exists rest. done.
Qed.

End Upload.

Definition flaky : Backend := {|
  presign := Throws []; post := Ok tt; initiate := Ok (js "videos/1.mp4", js "u1");
  putPart := λ n k, if (k =? 1)%nat then Error (js "reset") else Etag (js "e");
  complete := Ok tt; createRecording := Throws (js "Title is taken") |}.

Lemma recording_upload_cleans_up_witness :
  let r := uploadRecording flaky {| name := js "a.mp4"; size := 104857600; mimeType := js "video/mp4" |} in
  multipart_requests flaky 104857600 (js "videos/1.mp4") (js "u1") r.1 r.2
  ∧ last r.2 = Some (AbandonUpload (js "videos/1.mp4")).
Proof.
  split; [|vm_compute; reflexivity].
  pose proof (recording_upload_cleans_up flaky
    {| name := js "a.mp4"; size := 104857600; mimeType := js "video/mp4" |}
    ltac:(discriminate) ltac:(intros key u [= <- <-]; discriminate)) as H.
  exact H.
Defined.

End Recording.

(** ** Message attachments in the mobile app *)

Module Attachment.
Import Recording.

Definition MAX_ATTACHMENT_SIZE : Z := 25 * 1024 * 1024.

Definition ALLOWED_ATTACHMENT_TYPES : list str := map js
  ["image/jpeg"; "image/png"; "image/webp"; "image/gif"; "application/pdf"; "text/plain";
   "application/zip"; "application/x-zip-compressed"]%string.

(** An asset the picker returns: name, size and type may be missing. *)
Record LocalAttachmentAsset := {
  uri : str; asset_name : option str; asset_size : option Z; asset_type : option str;
}.

Definition validateAttachment (a : LocalAttachmentAsset) : res (str * str * Z) :=
  let filename := str_or (trim (default [] (asset_name a))) (js "attachment") in
  let contentType := trim (toLowerCase (default [] (asset_type a))) in
  let byteSize := default 0 (asset_size a) in
  if negb (has ALLOWED_ATTACHMENT_TYPES contentType) then
    Throws (filename ++ js " is not a supported file type.")
  else if byteSize <=? 0 then
    Throws (js "We could not determine the size of " ++ filename ++ js ".")
  else if MAX_ATTACHMENT_SIZE <? byteSize then
    Throws (filename ++ js " is larger than the 25 MB limit.")
  else Ok (filename, contentType, byteSize).

Inductive AttachmentStatus := queued | uploading | uploaded_ | failed.

Record UploadAttachmentInput := {
  s3_key : str; in_filename : str; in_content_type : str; in_byte_size : Z;
}.

Record PendingAttachment := {
  local_id : str; p_uri : str; filename : str; content_type : str; byte_size : Z; image : bool;
  status : AttachmentStatus; progress : Q; uploaded : option UploadAttachmentInput;
}.

(** [localId] is the time and a random suffix. *)
Definition pendingAttachment (localId : str) (a : LocalAttachmentAsset) : res PendingAttachment :=
  match validateAttachment a with
  | Throws m => Throws m
  | Ok (filename, contentType, byteSize) => Ok {|
      local_id := localId; p_uri := uri a; filename := filename; content_type := contentType;
      byte_size := byteSize; image := startsWith contentType (js "image/"); status := queued;
      progress := 0; uploaded := None |}
  end.

Record PresignedAttachment := { p_s3_key : str; max_size : Z }.

(** The requests an upload makes. *)
Inductive AttachmentCall := PresignAttachment | PostForm (bytes : Z).

Definition uploadAttachment (presign : res PresignedAttachment) (post : res unit)
    (a : PendingAttachment) : res UploadAttachmentInput * list AttachmentCall :=
  match uploaded a with
  | Some u => (Ok u, [])
  | None =>
      match presign with
      | Throws m => (Throws m, [PresignAttachment])
      | Ok p =>
          if max_size p <? byte_size a then
            (Throws (filename a ++ js " is larger than the server upload limit."),
             [PresignAttachment])
          else
            match post with
            | Throws m => (Throws m, [PresignAttachment; PostForm (byte_size a)])
            | Ok _ => (Ok {| s3_key := p_s3_key p; in_filename := filename a;
                             in_content_type := content_type a; in_byte_size := byte_size a |},
                       [PresignAttachment; PostForm (byte_size a)])
            end
      end
  end.

(** [Math.max(0, Math.min(1, event.loaded / event.total))] *)
Definition upload_progress (loaded total : Z) : Q :=
  let ratio := (inject_Z loaded / inject_Z total)%Q in
  let below := if Qle_bool ratio 1 then ratio else 1%Q in
  if Qle_bool 0 below then below else 0%Q.

(** How the request of [postPresignedForm] settles. *)
Inductive PostEvent := onerror | ontimeout | onabort | onload (code : Z).

Definition postPresignedForm (a : PendingAttachment) (e : PostEvent) : res unit :=
  match e with
  | onerror =>
      Throws (js "Could not upload " ++ filename a ++ js ". Check your connection and try again.")
  | ontimeout => Throws (filename a ++ js " took too long to upload.")
  | onabort => Throws (filename a ++ js " upload was cancelled.")
  | onload code =>
      if (200 <=? code) && (code <? 300) then Ok tt
      else Throws (js "Could not upload " ++ filename a ++ js " (" ++ str_of_Z code ++ js ").")
  end.

(** Only attachments of an allowed type and of at most 25 MB are ever queued,
    with a name that is not empty; when one is uploaded, its bytes are posted at
    most once and only below the limit of the server, and an attachment that was
    uploaded before is not sent again. *)
Theorem attachment_policy (localId : str) (asset : LocalAttachmentAsset) (a : PendingAttachment)
    (presign : res PresignedAttachment) (e : PostEvent) :
  pendingAttachment localId asset = Ok a →
  content_type a ∈ ALLOWED_ATTACHMENT_TYPES ∧ 0 < byte_size a <= MAX_ATTACHMENT_SIZE
  ∧ filename a ≠ []
  ∧ let '(o, calls) := uploadAttachment presign (postPresignedForm a e) a in
    (∀ n, PostForm n ∈ calls →
       n = byte_size a ∧ calls = [PresignAttachment; PostForm n]
       ∧ ∃ p, presign = Ok p ∧ byte_size a <= max_size p)
    ∧ (∀ u, o = Ok u → in_byte_size u = byte_size a ∧ in_content_type u = content_type a
         ∧ ∃ code, e = onload code ∧ 200 <= code < 300).
Proof.
  unfold pendingAttachment, validateAttachment.
  set (fname := str_or _ _). set (ctype := trim _). set (bsize := default 0 _).
  destruct (has ALLOWED_ATTACHMENT_TYPES ctype) eqn:T; simpl; [|done].
  destruct (Z.leb_spec bsize 0); [done|].
  destruct (Z.ltb_spec MAX_ATTACHMENT_SIZE bsize); [done|].
  intros [= <-]. cbn [content_type byte_size filename].
  split; [by apply has_true|]. split; [lia|]. split.
  { unfold fname, str_or. destruct (trim _); done. }
  unfold uploadAttachment. cbn [uploaded byte_size filename content_type].
  destruct presign as [p|m].
  2: { split; [|done]. intros n [?|?%not_elem_of_nil]%elem_of_cons; done. }
  destruct (Z.ltb_spec (max_size p) bsize) as [Hp|Hp].
  { split; [|done]. intros n [?|?%not_elem_of_nil]%elem_of_cons; done. }
  assert (C : ∀ n, PostForm n ∈ [PresignAttachment; PostForm bsize] →
    n = bsize ∧ [PresignAttachment; PostForm bsize] = [PresignAttachment; PostForm n]
    ∧ ∃ q, Ok p = Ok q ∧ bsize <= max_size q).
  { intros n [?|[[= ->]|?%not_elem_of_nil]%elem_of_cons]%elem_of_cons; [done| |done].
    split_and!; [done..|]. by exists p. }
  unfold postPresignedForm. destruct e as [| | |code]; try (by split).
  destruct ((200 <=? code) && (code <? 300)) eqn:S; (split; [exact C|]); [|done].
  intros u [= <-]. apply andb_true_iff in S as [?%Z.leb_le ?%Z.ltb_lt].
  split_and!; [done..|]. exists code. split; [done|lia].
Qed.

Lemma attachment_policy_witness :
  ∃ a, pendingAttachment (js "1-x")
    {| uri := js "file:///a.png"; asset_name := Some (js " a.png "); asset_size := Some 2048;
       asset_type := Some (js "IMAGE/PNG") |} = Ok a ∧ content_type a ∈ ALLOWED_ATTACHMENT_TYPES.
Proof.
  eexists. split; [vm_compute; reflexivity|].
  eapply (attachment_policy (js "1-x")
    {| uri := js "file:///a.png"; asset_name := Some (js " a.png "); asset_size := Some 2048;
       asset_type := Some (js "IMAGE/PNG") |} _ (Throws []) onabort).
  vm_compute. reflexivity.
Defined.

End Attachment.

(** ** Sizes shown to the user *)

Module Sizes.

(** [x.toFixed(d)] for a non-negative [x]: the nearest multiple of [10^-d], the
    larger of two. *)
Definition zero_pad (n : nat) (s : str) : str := replicate (n - length s) "0"%char ++ s.

Definition toFixed (x : Q) (d : nat) : str :=
  let scale := 10 ^ Z.of_nat d in
  let n := Qfloor (x * inject_Z scale + (1 # 2))%Q in
  match d with
  | O => str_of_Z n
  | _ => str_of_Z (n / scale) ++ js "." ++ zero_pad d (str_of_Z (n mod scale))
  end.

(** [Math.round] *)
Definition round (x : Q) : Z := Qfloor (x + (1 # 2))%Q.

Definition KB : Z := 1024.
Definition MB : Z := 1024 * 1024.
Definition GB : Z := 1024 * 1024 * 1024.

Definition over_unit (bytes unit : Z) : Q := (inject_Z bytes / inject_Z unit)%Q.

Definition formatFileSize (bytes : Z) : str :=
  if bytes <? KB then str_of_Z bytes ++ js " B"
  else if bytes <? MB then toFixed (over_unit bytes KB) 1 ++ js " KB"
  else if bytes <? GB then toFixed (over_unit bytes MB) 1 ++ js " MB"
  else toFixed (over_unit bytes GB) 2 ++ js " GB".

Definition formatFileSize_mobile (bytes : Z) : str :=
  if bytes <? KB then str_of_Z bytes ++ js " B"
  else if bytes <? MB then str_of_Z (round (over_unit bytes KB)) ++ js " KB"
  else toFixed (over_unit bytes MB) (if bytes <? 10 * MB then 1 else 0) ++ js " MB".

Example web_size : formatFileSize 1572864 = js "1.5 MB".
Proof. vm_compute. reflexivity. Qed.

Example mobile_size : formatFileSize_mobile 26214400 = js "25 MB".
Proof. vm_compute. reflexivity. Qed.

End Sizes.
