(* ===== verification/UploadQueue.v ===== *)
(** * The upload queue of the web app

    [UploadProvider] of [web/src/contexts/UploadContext.tsx]: the list of active
    uploads, and the asynchronous processes of [startVideoUpload] and
    [attachUpload], split at their [await]s into the transitions below. The world
    the queue acts on is part of the state: which objects are in the bucket, which
    a record points to, and which the server was asked to abandon. *)

From S2P Require Import Prelude.
From S2P Require Import Keyed.

(** ** Data *)

Inductive Status := presigning | uploading | waiting | saving | done | error.

#[export] Instance Status_eq_dec : EqDecision Status.
Proof. solve_decision. Defined.

Record CohortRecording := {
  cohortId : Z; title : str; description : option str; recordedDate : option str;
}.

(** Upload identifiers ([crypto.randomUUID()]) are compared only: integers. *)
Record ActiveUpload := {
  id : Z;
  fileName : str;
  fileSize : Z;
  contentType : str;
  progress : Z;
  status : Status;
  error_text : option str;
  s3Key : option str;
  contentBlockId : option Z;
  deferPersistence : option bool;
  cohortRecording : option CohortRecording;
  linkTo : option str;
  linkLabel : option str;
}.

Record UploadStartOpts := {
  o_contentBlockId : option Z;
  o_deferPersistence : option bool;
  o_cohortRecording : option CohortRecording;
  o_linkTo : option str;
  o_linkLabel : option str;
}.

(** *** Patches *)

Definition with_status (s : Status) (e : option str) (u : ActiveUpload) : ActiveUpload := {|
  id := id u; fileName := fileName u; fileSize := fileSize u; contentType := contentType u;
  progress := progress u; status := s; error_text := e; s3Key := s3Key u;
  contentBlockId := contentBlockId u; deferPersistence := deferPersistence u;
  cohortRecording := cohortRecording u; linkTo := linkTo u; linkLabel := linkLabel u |}.

Definition with_key (k : str) (u : ActiveUpload) : ActiveUpload := {|
  id := id u; fileName := fileName u; fileSize := fileSize u; contentType := contentType u;
  progress := progress u; status := uploading; error_text := error_text u; s3Key := Some k;
  contentBlockId := contentBlockId u; deferPersistence := deferPersistence u;
  cohortRecording := cohortRecording u; linkTo := linkTo u; linkLabel := linkLabel u |}.

Definition with_progress (p : Z) (s : Status) (u : ActiveUpload) : ActiveUpload := {|
  id := id u; fileName := fileName u; fileSize := fileSize u; contentType := contentType u;
  progress := p; status := s; error_text := error_text u; s3Key := s3Key u;
  contentBlockId := contentBlockId u; deferPersistence := deferPersistence u;
  cohortRecording := cohortRecording u; linkTo := linkTo u; linkLabel := linkLabel u |}.

(** [{ ...current, ...patch }] of [attachUpload]. *)
Definition with_target (block : option Z) (to_ label : option str) (u : ActiveUpload)
    : ActiveUpload := {|
  id := id u; fileName := fileName u; fileSize := fileSize u; contentType := contentType u;
  progress := progress u; status := status u; error_text := error_text u; s3Key := s3Key u;
  contentBlockId := match block with Some b => Some b | None => contentBlockId u end;
  deferPersistence := deferPersistence u; cohortRecording := cohortRecording u;
  linkTo := match to_ with Some t => Some t | None => linkTo u end;
  linkLabel := match label with Some t => Some t | None => linkLabel u end |}.

Definition updateUpload (i : Z) (f : ActiveUpload → ActiveUpload) (l : list ActiveUpload)
    : list ActiveUpload := map_key id i f l.

Definition removeUpload (i : Z) (l : list ActiveUpload) : list ActiveUpload := without_key id i l.

Definition hasActiveUploads (l : list ActiveUpload) : bool :=
  existsb (λ u, has [presigning; uploading; saving; waiting] (status u)) l.

Definition new_upload (i : Z) (name : str) (size : Z) (type : str) (o : UploadStartOpts)
    : ActiveUpload := {|
  id := i; fileName := name; fileSize := size; contentType := str_or type (js "video/mp4");
  progress := 0; status := presigning; error_text := None; s3Key := None;
  contentBlockId := o_contentBlockId o; deferPersistence := o_deferPersistence o;
  cohortRecording := o_cohortRecording o; linkTo := o_linkTo o; linkLabel := o_linkLabel o |}.

(** ** Where an upload is recorded *)

Inductive Plan :=
| NoTarget                                  (* returns [false]: nothing to attach to yet *)
| SaveBlock (block : Z)                     (* [updateContentBlock] *)
| SaveRecording (r : CohortRecording).      (* [createRecording] *)

Definition or_else {A} (a b : option A) : option A := match a with Some x => Some x | None => b end.

Definition truthy_id (o : option Z) : bool :=
  match o with Some i => negb (i =? 0) | None => false end.

(** The decision of [persistUploadTarget]; [live] is the upload it finds in the
    list, if it is still there. *)
Definition persistUploadTarget (live : option ActiveUpload) (fallback : UploadStartOpts) : Plan :=
  let block := or_else (u ← live; contentBlockId u) (o_contentBlockId fallback) in
  let defer := or_else (u ← live; deferPersistence u) (o_deferPersistence fallback) in
  let recording := or_else (u ← live; cohortRecording u) (o_cohortRecording fallback) in
  match block with
  | Some b => if b =? 0 then match recording with Some r => SaveRecording r | None => NoTarget end
              else if default false defer then NoTarget else SaveBlock b
  | None => match recording with Some r => SaveRecording r | None => NoTarget end
  end.

(** ** The queue and its world *)

(** Where the process of an upload is: before its object is stored, or waiting for
    the record to be written. *)
Inductive Flow :=
| Preparing
| Sending (key : str)
| Saving (key : str) (plan : Plan)
| Ended.

Record State := {
  uploads : list ActiveUpload;
  aborted : list Z;
  flows : gmap Z Flow;
  opts : gmap Z UploadStartOpts;
  bucket : list str;
  recorded : list str;
  abandoned : list str;
  late : list str;      (* stored for an upload that had already been cancelled *)
}.

Definition init : State := {|
  uploads := []; aborted := []; flows := ∅; opts := ∅; bucket := []; recorded := [];
  abandoned := []; late := [] |}.

Definition find_upload (i : Z) (l : list ActiveUpload) : option ActiveUpload :=
  List.find (λ u, id u =? i) l.

Inductive action :=
| Start (i : Z) (name : str) (size : Z) (type : str) (o : UploadStartOpts)
| Prepared (i : Z) (key : str)
| Progress (i : Z) (percent : Z)
| Failed (i : Z) (message : str)       (* before the object is stored *)
| Stored (i : Z)                       (* the object is in the bucket *)
| Saved (i : Z)                        (* the record was written *)
| SaveFailed (i : Z) (message : str)
| Cancel (i : Z)
| Attach (i : Z) (block : option Z) (to_ label : option str)
| PageRecords (key : str)              (* the page wrote a record of the object itself *)
| CompleteDeferred (i : Z)             (* ... and says so: [completeDeferredUpload] *)
| Dismiss (i : Z).                     (* also the timer after completion *)

Definition set_uploads l (st : State) : State := {|
  uploads := l; aborted := aborted st; flows := flows st; opts := opts st; bucket := bucket st;
  recorded := recorded st; abandoned := abandoned st; late := late st |}.

Definition set_flow i f (st : State) : State := {|
  uploads := uploads st; aborted := aborted st; flows := <[i := f]> (flows st); opts := opts st;
  bucket := bucket st; recorded := recorded st; abandoned := abandoned st; late := late st |}.

Definition set_world b r a (st : State) : State := {|
  uploads := uploads st; aborted := aborted st; flows := flows st; opts := opts st;
  bucket := b; recorded := r; abandoned := a; late := late st |}.

(** The object is in the bucket. *)
Definition store (i : Z) (k : str) (st : State) : State := {|
  uploads := uploads st; aborted := aborted st; flows := flows st; opts := opts st;
  bucket := k :: bucket st; recorded := recorded st; abandoned := abandoned st;
  late := if has (aborted st) i then k :: late st else late st |}.

Definition abandon (k : str) (st : State) : State :=
  set_world (bucket st) (recorded st) (k :: abandoned st) st.

Definition record (k : str) (st : State) : State :=
  set_world (bucket st) (k :: recorded st) (abandoned st) st.

(** The [catch] clause of [startVideoUpload], after its clean-up. *)
Definition fail (i : Z) (m : str) (st : State) : State :=
  if has (aborted st) i then set_uploads (removeUpload i (uploads st)) st
  else set_uploads (updateUpload i (with_status error (Some m)) (uploads st)) st.

(** After the object is stored: decide where to record it. *)
Definition after_stored (i : Z) (key : str) (st : State) : State :=
  let fallback := default {| o_contentBlockId := None; o_deferPersistence := None;
    o_cohortRecording := None; o_linkTo := None; o_linkLabel := None |} (opts st !! i) in
  match persistUploadTarget (find_upload i (uploads st)) fallback with
  | NoTarget =>
      set_flow i Ended (set_uploads (updateUpload i (with_progress 100 waiting) (uploads st)) st)
  | plan =>
      set_flow i (Saving key plan)
        (set_uploads (updateUpload i (λ u, with_status saving (error_text u) u) (uploads st)) st)
  end.

Definition completeUpload (i : Z) (st : State) : State :=
  set_uploads (updateUpload i (λ u, with_status done (error_text u) u) (uploads st)) st.

Definition cancelUpload (i : Z) (st : State) : State :=
  let u := find_upload i (uploads st) in
  let st := match u with
            | Some _ => {| uploads := uploads st; aborted := i :: aborted st; flows := flows st;
                           opts := opts st; bucket := bucket st; recorded := recorded st;
                           abandoned := abandoned st; late := late st |}
            | None => st end in
  let st := match u with
            | Some v => match status v, s3Key v with
                        | waiting, Some k => if truthy k then abandon k st else st
                        | _, _ => st end
            | None => st end in
  set_uploads (removeUpload i (uploads st)) st.

(** [attachUpload]: the live upload [persistUploadTarget] reads is the one before
    the patch, which is applied at the next render. *)
Definition attachUpload (i : Z) (block : option Z) (to_ label : option str) (st : State)
    : State :=
  let current := find_upload i (uploads st) in
  let st := set_uploads (updateUpload i (with_target block to_ label) (uploads st)) st in
  match with_target block to_ label <$> current with
  | Some next =>
      match s3Key next, status next with
      | Some k, waiting =>
          if truthy_id (contentBlockId next) && truthy k then
            match persistUploadTarget current {| o_contentBlockId := contentBlockId next;
                    o_deferPersistence := None; o_cohortRecording := None;
                    o_linkTo := linkTo next; o_linkLabel := linkLabel next |} with
            | NoTarget => st
            | plan =>
                set_flow i (Saving k plan)
                  (set_uploads (updateUpload i (λ u, with_status saving (error_text u) u)
                     (uploads st)) st)
            end
          else st
      | _, _ => st
      end
  | None => st
  end.

Definition step (a : action) (st : State) : State :=
  match a with
  | Start i name size type o =>
      let st := set_uploads (uploads st ++ [new_upload i name size type o]) st in
      let st := set_flow i Preparing st in
      {| uploads := uploads st; aborted := aborted st; flows := flows st;
         opts := <[i := o]> (opts st); bucket := bucket st; recorded := recorded st;
         abandoned := abandoned st; late := late st |}
  | Prepared i key =>
      match flows st !! i with
      | Some Preparing =>
          set_flow i (Sending key) (set_uploads (updateUpload i (with_key key) (uploads st)) st)
      | _ => st end
  | Progress i p =>
      match flows st !! i with
      | Some (Sending _) =>
          set_uploads (updateUpload i (λ u, with_progress p (status u) u) (uploads st)) st
      | _ => st end
  | Failed i m =>
      match flows st !! i with
      | Some Preparing | Some (Sending _) => set_flow i Ended (fail i m st)
      | _ => st end
  | Stored i =>
      match flows st !! i with
      | Some (Sending key) =>
          after_stored i key (store i key st)
      | _ => st end
  | Saved i =>
      match flows st !! i with
      | Some (Saving key _) => set_flow i Ended (completeUpload i (record key st))
      | _ => st end
  | SaveFailed i m =>
      match flows st !! i with
      | Some (Saving key _) => set_flow i Ended (fail i m (abandon key st))
      | _ => st end
  | Cancel i => cancelUpload i st
  | Attach i b t l => attachUpload i b t l st
  | PageRecords k => record k st
  | CompleteDeferred i => completeUpload i st
  | Dismiss i =>
      match find_upload i (uploads st) with
      | Some u => if has [done; error] (status u)
                  then set_uploads (removeUpload i (uploads st)) st else st
      | None => st
      end
  end.

(** When an action can happen: [crypto.randomUUID()] is fresh and the server's key is
    not empty. A storage request may succeed although its upload was cancelled:
    [uploadToS3] listens for an abort but does not look whether the signal is aborted
    already, and the completion of a multipart upload takes no signal. The page calls
    [completeDeferredUpload] for an upload that waits, once it has written the record of
    its object; the queue does not check this. *)
Definition allowed (st : State) (a : action) : Prop :=
  match a with
  | Start i _ _ _ _ => flows st !! i = None ∧ i ∉ map id (uploads st) ∧ i ∉ aborted st
  | Prepared i k => k ≠ []
  | CompleteDeferred i =>
      ∀ u, u ∈ uploads st → id u = i →
        status u = done ∨ (status u = waiting ∧ ∃ k, s3Key u = Some k ∧ k ∈ recorded st)
  | _ => True
  end.

Inductive reachable : State → Prop :=
| reachable_init : reachable init
| reachable_step st a : reachable st → allowed st a → reachable (step a st).

(** ** Invariant *)

(** What the process of an upload says about its entry. *)
Definition entry_ok (f : Flow) (u : ActiveUpload) : Prop :=
  match f with
  | Preparing => status u = presigning
  | Sending k => status u = uploading ∧ s3Key u = Some k
  | Saving k _ => status u = saving ∧ s3Key u = Some k
  | Ended => (status u = waiting ∧ ∃ k, s3Key u = Some k ∧ k ≠ [])
             ∨ status u = done ∨ status u = error
  end.

Definition listed (st : State) : Prop :=
  NoDup (map id (uploads st))
  ∧ (∀ u, u ∈ uploads st → ∃ f, flows st !! id u = Some f ∧ entry_ok f u)
  ∧ (∀ i f, flows st !! i = Some f →
       match f with
       | Preparing => i ∉ aborted st → i ∈ map id (uploads st)
       | Sending k => k ≠ [] ∧ (i ∉ aborted st → i ∈ map id (uploads st))
       | Saving k _ => k ≠ []
       | Ended => True
       end).

(** Nothing is lost: a stored object has a record, was abandoned, waits in the list,
    or is about to be recorded. *)
Definition accounted (st : State) (k : str) : Prop :=
  k ∈ recorded st ∨ k ∈ abandoned st
  ∨ (∃ u, u ∈ uploads st ∧ status u = waiting ∧ s3Key u = Some k)
  ∨ (∃ i p, flows st !! i = Some (Saving k p)).

Definition Inv (st : State) : Prop :=
  listed st ∧ ∀ k, k ∈ bucket st → k ∉ late st → accounted st k.

Lemma elem_of_update i f l u :
  u ∈ updateUpload i f l ↔ ∃ v, v ∈ l ∧ u = if id v =? i then f v else v.
Proof. unfold updateUpload, map_key. rewrite list_elem_of_fmap. firstorder. Qed.

Lemma update_ids i f l : (∀ u, id (f u) = id u) → map id (updateUpload i f l) = map id l.
Proof.
  intros H. unfold updateUpload, map_key. rewrite map_map. apply map_ext. intros u.
  by destruct (id u =? i).
Qed.

Lemma elem_of_remove i l u : u ∈ removeUpload i l ↔ u ∈ l ∧ id u ≠ i.
Proof.
  unfold removeUpload, without_key. rewrite elem_of_bfilter, negb_true_iff, Z.eqb_neq. done.
Qed.

Lemma find_upload_spec i l u :
  find_upload i l = Some u → u ∈ l ∧ id u = i.
Proof. intros [H1 H2]%find_some. rewrite list_elem_of_In. by apply Z.eqb_eq in H2. Qed.

Lemma find_upload_elem i l u :
  NoDup (map id l) → u ∈ l → id u = i → find_upload i l = Some u.
Proof.
  intros N Hu <-. destruct (find_upload (id u) l) as [v|] eqn:E.
  - apply find_upload_spec in E as [Hv Ei]. f_equal.
    induction l as [|x l IH]; [by apply not_elem_of_nil in Hu|].
    apply NoDup_cons in N as [Hx N].
    apply elem_of_cons in Hu as [->|Hu], Hv as [->|Hv]; auto.
    + destruct Hx. apply list_elem_of_fmap. eauto.
    + destruct Hx. apply list_elem_of_fmap. eauto.
  - apply list_elem_of_In in Hu. pose proof (find_none _ _ E _ Hu) as F. simpl in F.
    by rewrite Z.eqb_refl in F.
Qed.

(** One entry and its process change together. *)
Lemma listed_update st i g f :
  listed st → (∀ u, id (g u) = id u) →
  (∀ u, u ∈ uploads st → id u = i → entry_ok f (g u)) →
  match f with
  | Preparing => i ∉ aborted st → i ∈ map id (uploads st)
  | Sending k => k ≠ [] ∧ (i ∉ aborted st → i ∈ map id (uploads st))
  | Saving k _ => k ≠ []
  | Ended => True end →
  listed (set_flow i f (set_uploads (updateUpload i g (uploads st)) st)).
Proof.
  intros (N & E & A) Hg Hu Hf. split_and!; simpl.
  - by rewrite update_ids.
  - intros u (v & Hv & ->)%elem_of_update. destruct (Z.eqb_spec (id v) i) as [<-|Hne].
    + exists f. rewrite Hg, lookup_insert_eq. auto.
    + destruct (E v Hv) as (f' & Hf' & Ho). exists f'. by rewrite lookup_insert_ne.
  - intros j f' [[<- <-]|[Hne Hj]]%lookup_insert_Some; rewrite update_ids by done; [done|].
    by apply (A j).
Qed.

(** The same when the process does not change. *)
Lemma listed_update_same st i g f :
  listed st → flows st !! i = Some f → (∀ u, id (g u) = id u) →
  (∀ u, u ∈ uploads st → id u = i → entry_ok f u → entry_ok f (g u)) →
  listed (set_uploads (updateUpload i g (uploads st)) st).
Proof.
  intros (N & E & A) Hi Hg Hu. split_and!; simpl.
  - by rewrite update_ids.
  - intros u (v & Hv & ->)%elem_of_update. destruct (E v Hv) as (f' & Hf' & Ho).
    destruct (Z.eqb_spec (id v) i) as [<-|Hne]; [|by exists f'].
    exists f'. rewrite Hg. split; [done|]. assert (f' = f) as -> by congruence. auto.
  - intros j f' Hj. rewrite update_ids by done. by apply (A j).
Qed.

Lemma listed_remove st i :
  listed st → (∀ f, flows st !! i = Some f → f = Ended ∨ i ∈ aborted st ∨ ∃ k p, f = Saving k p) →
  listed (set_uploads (removeUpload i (uploads st)) st).
Proof.
  intros (N & E & A) Hi. split_and!; simpl.
  - unfold removeUpload, without_key. by apply NoDup_map_bfilter.
  - intros u [Hu _]%elem_of_remove. auto.
  - intros j f Hj. specialize (A j f Hj).
    assert (K : (j ∉ aborted st → j ∈ map id (uploads st)) → f ≠ Ended → (∀ k p, f ≠ Saving k p) →
      j ∉ aborted st → j ∈ map id (removeUpload i (uploads st))).
    { intros HA Hn1 Hn2 Hja. destruct (decide (j = i)) as [->|Hne].
      - destruct (Hi f Hj) as [->|[?|(k & p & ->)]]; [done|done|by destruct (Hn2 k p)].
      - destruct (proj1 (list_elem_of_fmap _ _ _) (HA Hja)) as (u & -> & Hu).
        apply list_elem_of_fmap. exists u. split; [done|]. by apply elem_of_remove. }
    destruct f; [by apply K|split; [apply A|by apply K; [apply A|..]]|done|done].
Qed.

(** An object stays accounted for when entries that do not wait for it change. *)
Lemma accounted_update st i g k (f : option Flow) :
  accounted st k →
  (∀ u, u ∈ uploads st → id u = i → status u = waiting → s3Key u = Some k →
     status (g u) = waiting ∧ s3Key (g u) = Some k ∨ ∃ p, f = Some (Saving k p)) →
  (∀ k' p, flows st !! i = Some (Saving k' p) → f = None ∨ k' ≠ k) →
  accounted (match f with
             | Some f => set_flow i f (set_uploads (updateUpload i g (uploads st)) st)
             | None => set_uploads (updateUpload i g (uploads st)) st end) k.
Proof.
  intros [H|[H|[(u & Hu & Hs & Hk)|(j & p & Hj)]]] Hw Hf.
  - left. by destruct f.
  - right. left. by destruct f.
  - destruct (decide (id u = i)) as [Ei|Hne].
    + destruct (Hw u Hu Ei Hs Hk) as [[Hs' Hk']|[p ->]].
      * right. right. left. exists (g u). split; [|done].
        destruct f; simpl; apply elem_of_update; exists u; by rewrite Ei, Z.eqb_refl.
      * right. right. right. exists i, p. simpl. by rewrite lookup_insert_eq.
    + right. right. left. exists u. split; [|done].
      destruct f; simpl; apply elem_of_update; exists u; by rewrite (proj2 (Z.eqb_neq _ _) Hne).
  - right. right. right. destruct f as [f|]; [|by exists j, p].
    destruct (decide (i = j)) as [<-|Hne].
    + destruct (Hf k p Hj) as [?|?]; done.
    + exists j, p. simpl. by rewrite lookup_insert_ne.
Qed.

Lemma accounted_remove st i k :
  accounted st k →
  (∀ u, u ∈ uploads st → id u = i → status u = waiting → s3Key u = Some k → k ∈ abandoned st) →
  accounted (set_uploads (removeUpload i (uploads st)) st) k.
Proof.
  intros [H|[H|[(u & Hu & Hs & Hk)|H]]] Hw.
  - by left.
  - by right; left.
  - destruct (decide (id u = i)) as [Ei|Hne]; [right; left; by apply (Hw u)|].
    right. right. left. exists u. split; [|done]. by apply elem_of_remove.
  - by right; right; right.
Qed.

Lemma accounted_world st b r a k :
  accounted st k → (∀ x, x ∈ recorded st → x ∈ r) → (∀ x, x ∈ abandoned st → x ∈ a) →
  accounted (set_world b r a st) k.
Proof. intros [H|[H|[H|H]]] Hr Ha; unfold accounted; simpl; auto. Qed.

(** The entry of an upload whose process is known. *)
Lemma entry_of st i f u :
  listed st → flows st !! i = Some f → u ∈ uploads st → id u = i → entry_ok f u.
Proof. intros (_ & E & _) Hf Hu <-. destruct (E u Hu) as (f' & Hf' & Ho). congruence. Qed.

(** ** Every action preserves it *)

(** An entry whose process is at [f] is not waiting unless the process has ended. *)
Lemma not_waiting st i f u :
  listed st → flows st !! i = Some f → f ≠ Ended → u ∈ uploads st → id u = i → status u ≠ waiting.
Proof.
  intros L Hf Hne Hu Hi Hw. pose proof (entry_of st i f u L Hf Hu Hi) as Ho.
  destruct f; simpl in Ho; [congruence|destruct Ho; congruence|destruct Ho; congruence|done].
Qed.

(** Changing the entry and the process of an upload that does not wait. *)
Lemma Inv_change st i g f f' :
  Inv st → flows st !! i = Some f → f ≠ Ended → (∀ u, id (g u) = id u) →
  (∀ u, u ∈ uploads st → id u = i → entry_ok f u → entry_ok f' (g u)) →
  match f' with
  | Preparing => i ∉ aborted st → i ∈ map id (uploads st)
  | Sending k => k ≠ [] ∧ (i ∉ aborted st → i ∈ map id (uploads st))
  | Saving k _ => k ≠ []
  | Ended => True end →
  (∀ k p, f = Saving k p → accounted (set_flow i f' (set_uploads (updateUpload i g (uploads st)) st)) k) →
  Inv (set_flow i f' (set_uploads (updateUpload i g (uploads st)) st)).
Proof.
  intros [L B] Hf Hne Hg Hu Hf' Hk. split.
  - apply listed_update; [done..| |done]. intros u Hin Hi. apply Hu; [done..|]. by eapply entry_of.
  - intros k Hb Hl. simpl in Hb, Hl.
    assert (HA : accounted st k) by auto. destruct f as [|k0|k0 p0|].
    + apply (accounted_update st i g k (Some f')); [done| |].
      * intros u Hin Hi Hw. by destruct (not_waiting st i _ u L Hf Hne Hin Hi).
      * intros k' p' E. congruence.
    + apply (accounted_update st i g k (Some f')); [done| |].
      * intros u Hin Hi Hw. by destruct (not_waiting st i _ u L Hf Hne Hin Hi).
      * intros k' p' E. congruence.
    + destruct (decide (k = k0)) as [->|Hkk]; [by eapply Hk|].
      apply (accounted_update st i g k (Some f')); [done| |].
      * intros u Hin Hi Hw. by destruct (not_waiting st i _ u L Hf Hne Hin Hi).
      * intros k' p' E. right. congruence.
    + done.
Qed.

Lemma Inv_world st b r a :
  Inv st → (∀ x, x ∈ b → x ∈ bucket st) →
  (∀ x, x ∈ recorded st → x ∈ r) → (∀ x, x ∈ abandoned st → x ∈ a) →
  Inv (set_world b r a st).
Proof.
  intros [L B] Hb Hr Ha. split; [exact L|]. simpl. intros k Hk Hl.
  apply accounted_world; auto.
Qed.

Lemma start_Inv st i name size type o :
  Inv st → allowed st (Start i name size type o) → Inv (step (Start i name size type o) st).
Proof.
  intros [(N & E & A) B] (Hf & Hi & Ha). split; [split_and!|]; simpl.
  - rewrite map_app. apply NoDup_app. split_and!; [done| |apply NoDup_singleton].
    by intros x Hx ->%list_elem_of_singleton.
  - intros u [Hu| ->%list_elem_of_singleton]%elem_of_app.
    + destruct (E u Hu) as (f & Hf' & Ho). exists f. split; [|done].
      rewrite lookup_insert_ne; [done|]. intros Ei. rewrite <- Ei in Hf'. congruence.
    + exists Preparing. simpl. by rewrite lookup_insert_eq.
  - assert (M : ∀ j, j ∈ map id (uploads st) →
      j ∈ map id (uploads st ++ [new_upload i name size type o])).
    { intros j Hj. rewrite map_app. apply elem_of_app. by left. }
    intros j f [[<- <-]|[Hne Hj]]%lookup_insert_Some.
    + intros _. rewrite map_app. apply elem_of_app. right. by left.
    + specialize (A j f Hj). destruct f; [auto|destruct A; auto|done|done].
  - intros k Hk Hl. destruct (B k Hk Hl) as [H|[H|[(u & Hu & H)|(j & p & H)]]].
    + by left.
    + by right; left.
    + right. right. left. exists u. split; [|done]. simpl. apply elem_of_app. by left.
    + right. right. right. exists j, p. simpl. rewrite lookup_insert_ne; [done|].
      intros <-. congruence.
Qed.

Lemma prepared_Inv st i key : Inv st → key ≠ [] → Inv (step (Prepared i key) st).
Proof.
  intros HI Hk. simpl. destruct (flows st !! i) as [[| | |]|] eqn:F; try done.
  destruct HI as [L B]. pose proof (proj2 (proj2 L) i _ F) as A. simpl in A.
  eapply Inv_change; try done.
Qed.

Lemma progress_Inv st i p : Inv st → Inv (step (Progress i p) st).
Proof.
  intros [L B]. simpl. destruct (flows st !! i) as [[|k0| |]|] eqn:F; try done. split.
  - eapply listed_update_same; [done|done|done|]. done.
  - intros k Hk Hl. apply (accounted_update st i _ k None); [auto| |].
    + intros u Hu Hi Hw. by destruct (not_waiting st i _ u L F ltac:(done) Hu Hi).
    + auto.
Qed.

(** The [catch] clause, from a process at [f]. *)
Lemma fail_Inv st i m f :
  Inv st → flows st !! i = Some f → f ≠ Ended →
  (∀ k p, f = Saving k p → k ∈ abandoned st) → Inv (set_flow i Ended (fail i m st)).
Proof.
  intros HI F Hne Hk. unfold fail. destruct (has (aborted st) i) eqn:Ha.
  - destruct HI as [L B].
    assert (L' : listed (set_uploads (removeUpload i (uploads st)) st)).
    { apply listed_remove; [done|]. intros f' _. right. left. by apply has_true. }
    split.
    + destruct L' as (N' & E' & A'). split_and!; simpl in *.
      * done.
      * intros u Hu. destruct (E' u Hu) as (f' & Hf' & Ho). exists f'. split; [|done].
        apply elem_of_remove in Hu as [_ Hne']. by rewrite lookup_insert_ne.
      * intros j f' [[<- <-]|[_ Hj]]%lookup_insert_Some; [done|]. by apply (A' j).
    + intros k Hb Hl. simpl in Hb, Hl.
      destruct (accounted_remove st i k (B k Hb Hl)) as [H|[H|[H|(j & p & H)]]].
      * intros u Hu Hi Hw. by destruct (not_waiting st i _ u L F Hne Hu Hi).
      * by left.
      * by right; left.
      * right. right. left. exact H.
      * destruct (decide (i = j)) as [<-|Hij].
        -- right. left. simpl in H. apply (Hk k p). congruence.
        -- right. right. right. exists j, p. simpl in *. by rewrite lookup_insert_ne.
  - eapply Inv_change; try done.
    + intros u _ _ _. simpl. auto.
    + intros k p E. right. left. by apply (Hk k p).
Qed.

(** Storing an object and moving the process on. *)
Lemma store_change st i key g f' :
  Inv st → flows st !! i = Some (Sending key) → (∀ v, id (g v) = id v) →
  (∀ v, v ∈ uploads st → id v = i → entry_ok (Sending key) v → entry_ok f' (g v)) →
  match f' with Saving k _ => k ≠ [] | Ended => True | _ => False end →
  let st' := set_flow i f' (set_uploads (updateUpload i g (uploads st)) (store i key st)) in
  (i ∉ aborted st → accounted st' key) → Inv st'.
Proof.
  intros [L B] F Hg He Hf' st' Hkk. subst st'. split.
  - apply (listed_update (store i key st)); [exact L|done| |by destruct f'].
    intros v Hv Hvi. apply He; [done..|]. exact (entry_of st i _ v L F Hv Hvi).
  - simpl. intros k Hk Hl.
    destruct (has (aborted st) i) eqn:Ha.
    + rewrite not_elem_of_cons in Hl. destruct Hl as [Hne Hl].
      apply elem_of_cons in Hk as [->|Hk]; [done|].
      apply (accounted_update (store i key st) i g k (Some f')).
      * exact (B k Hk Hl).
      * intros v Hv Hvi Hw. by destruct (not_waiting st i _ v L F ltac:(done) Hv Hvi).
      * intros k' p' E. simpl in E. congruence.
    + apply has_false in Ha. destruct (decide (k = key)) as [->|Hne]; [auto|].
      apply elem_of_cons in Hk as [->|Hk]; [done|].
      apply (accounted_update (store i key st) i g k (Some f')).
      * exact (B k Hk Hl).
      * intros v Hv Hvi Hw. by destruct (not_waiting st i _ v L F ltac:(done) Hv Hvi).
      * intros k' p' E. simpl in E. congruence.
Qed.

Lemma stored_Inv st i : Inv st → Inv (step (Stored i) st).
Proof.
  intros HI. simpl. destruct (flows st !! i) as [[|key| |]|] eqn:F; try done.
  pose proof HI as [L _]. destruct (proj2 (proj2 L) i _ F) as [Hkey Hin].
  unfold after_stored. destruct (persistUploadTarget _ _) as [|blk|r].
  - apply (store_change st); try done.
    + intros v Hv Hvi [_ Hk]. left. split; [done|]. exists key. by split.
    + intros Ha. destruct (proj1 (list_elem_of_fmap _ _ _) (Hin Ha)) as (u & -> & Hu).
      pose proof (entry_of st _ _ u L F Hu eq_refl) as [_ Hsk].
      right. right. left. exists (with_progress 100 waiting u). split; [|by split].
      simpl. apply elem_of_update. exists u. by rewrite Z.eqb_refl.
  - apply (store_change st); try done.
    + intros v Hv Hvi [_ Hk]. by split.
    + intros _. right. right. right. exists i, (SaveBlock blk). simpl. by rewrite lookup_insert_eq.
  - apply (store_change st); try done.
    + intros v Hv Hvi [_ Hk]. by split.
    + intros _. right. right. right. exists i, (SaveRecording r). simpl.
      by rewrite lookup_insert_eq.
Qed.

Lemma saved_Inv st i : Inv st → Inv (step (Saved i) st).
Proof.
  intros HI. simpl. destruct (flows st !! i) as [[| |key p|]|] eqn:F; try done.
  assert (HI1 : Inv (record key st)) by (apply Inv_world; [done|done|by right|done]).
  unfold completeUpload. eapply (Inv_change (record key st)); try done.
  - intros u _ _ _. simpl. auto.
  - intros k p' [= -> ->]. left. simpl. by left.
Qed.

Lemma save_failed_Inv st i m : Inv st → Inv (step (SaveFailed i m) st).
Proof.
  intros HI. simpl. destruct (flows st !! i) as [[| |key p|]|] eqn:F; try done.
  eapply fail_Inv; [|exact F|done|].
  - apply Inv_world; [done|done|done|by right].
  - intros k p' [= -> ->]. simpl. by left.
Qed.

(** A patch that keeps the identifier, the status and the key of an entry. *)
Lemma Inv_patch st i g :
  Inv st → (∀ u, id (g u) = id u ∧ status (g u) = status u ∧ s3Key (g u) = s3Key u) →
  Inv (set_uploads (updateUpload i g (uploads st)) st).
Proof.
  intros [(N & E & A) B] Hg.
  assert (Hid : ∀ u, id (g u) = id u) by (intros u; apply Hg).
  split; [split_and!|]; simpl.
  - by rewrite update_ids.
  - intros u (v & Hv & ->)%elem_of_update. destruct (E v Hv) as (f & Hf & Ho).
    destruct (id v =? i); [|by exists f]. exists f. destruct (Hg v) as (-> & Hs & Hk).
    split; [done|]. destruct f; simpl in *; by rewrite ?Hs, ?Hk.
  - intros j f Hj. rewrite update_ids by done. by apply (A j).
  - intros k Hk Hl. apply (accounted_update st i g k None); [auto| |auto].
    intros u _ _ Hw Hk'. left. destruct (Hg u) as (_ & -> & ->). done.
Qed.

Lemma waiting_ended st u :
  listed st → u ∈ uploads st → status u = waiting →
  flows st !! id u = Some Ended ∧ ∃ k, s3Key u = Some k ∧ k ≠ [].
Proof.
  intros (_ & E & _) Hu Hw. destruct (E u Hu) as (f & Hf & Ho).
  destruct f; simpl in Ho; [congruence|destruct Ho; congruence|destruct Ho; congruence|].
  split; [done|]. destruct Ho as [[_ Hk]|[?|?]]; [done|congruence|congruence].
Qed.

(** At most one entry has a given identifier. *)
Lemma listed_unique st u v :
  listed st → u ∈ uploads st → v ∈ uploads st → id u = id v → u = v.
Proof.
  intros (N & _) Hu Hv Hi.
  pose proof (find_upload_elem (id u) _ u N Hu eq_refl) as E1.
  pose proof (find_upload_elem (id u) _ v N Hv (eq_sym Hi)) as E2. congruence.
Qed.

Lemma remove_absent i l : find_upload i l = None → removeUpload i l = l.
Proof.
  intros H. induction l as [|u l IH]; [done|]. unfold find_upload in H. simpl in H.
  unfold removeUpload, without_key in *. simpl.
  destruct (id u =? i) eqn:Ei; [done|]. simpl. by rewrite IH.
Qed.

Lemma cancel_Inv st i : Inv st → Inv (cancelUpload i st).
Proof.
  intros [L B]. unfold cancelUpload. destruct (find_upload i (uploads st)) as [v|] eqn:Fv.
  2: { rewrite remove_absent by done. by destruct st. }
  apply find_upload_spec in Fv as [Hv Hi].
  set (st1 := Build_State _ _ _ _ _ _ _ _).
  assert (I1 : Inv st1).
  { split; [|exact B]. destruct L as (N & E & A). split_and!; [done|done|].
    intros j f Hj. simpl. specialize (A j f Hj).
    assert (M : (j ∉ aborted st → j ∈ map id (uploads st)) →
      j ∉ i :: aborted st → j ∈ map id (uploads st)) by (rewrite not_elem_of_cons; tauto).
    destruct f; [auto|destruct A; auto|done|done]. }
  set (st2 := match status v with presigning => _ | _ => _ end).
  assert (I2 : Inv st2 ∧ uploads st2 = uploads st1 ∧ aborted st2 = aborted st1
               ∧ (status v = waiting → ∀ k, s3Key v = Some k → k ∈ abandoned st2)).
  { subst st2. destruct (status v) eqn:Sv; try (split_and!; [done|done|done|congruence]).
    destruct (waiting_ended st v L Hv Sv) as (_ & k & Hk & Hne). rewrite Hk.
    destruct k as [|c k]; [done|]. simpl. split_and!; [|done|done|].
    - apply Inv_world; [done|done|done|by right].
    - intros _ k' [= <-]. by left. }
  clearbody st2. destruct I2 as ([L2 B2] & Hu & Ha & Hw). split.
  - apply listed_remove; [done|]. intros f _. right. left. rewrite Ha. by left.
  - intros k Hk Hl. apply accounted_remove; [by apply B2|].
    intros u Hin Hiu Hs Hku. rewrite Hu in Hin.
    assert (u = v) as -> by (apply (listed_unique st); [done..|congruence]). by apply Hw.
Qed.

Lemma attach_saving_Inv st i u k plan :
  Inv st → u ∈ uploads st → id u = i → status u = waiting → s3Key u = Some k →
  Inv (set_flow i (Saving k plan)
        (set_uploads (updateUpload i (λ u, with_status saving (error_text u) u) (uploads st)) st)).
Proof.
  intros [L B] Hu Hi Hs Hk. destruct (waiting_ended st u L Hu Hs) as (F & k' & Hk' & Hne).
  assert (k' = k) as -> by congruence. rewrite Hi in F. split.
  - apply listed_update; [done|done| |done]. intros v Hv Hvi.
    assert (v = u) as -> by (apply (listed_unique st); [done..|congruence]). by split.
  - intros x Hx Hl. apply (accounted_update st i _ x (Some (Saving k plan))); [auto| |].
    + intros v Hv Hvi _ Hvk. right. exists plan.
      assert (v = u) as -> by (apply (listed_unique st); [done..|congruence]). congruence.
    + intros k0 p0 E. congruence.
Qed.

Lemma attach_Inv st i b t l : Inv st → Inv (attachUpload i b t l st).
Proof.
  intros HI. unfold attachUpload.
  assert (I1 : Inv (set_uploads (updateUpload i (with_target b t l) (uploads st)) st))
    by (by apply Inv_patch).
  destruct (find_upload i (uploads st)) as [u|] eqn:Fu; simpl; [|done].
  apply find_upload_spec in Fu as [Hu Hi].
  destruct (s3Key u) as [k|] eqn:Hk; [|done]. destruct (status u) eqn:Hs; try done.
  destruct (_ && _); [|done].
  assert (In1 : with_target b t l u ∈ updateUpload i (with_target b t l) (uploads st)).
  { apply elem_of_update. exists u. by rewrite Hi, Z.eqb_refl. }
  destruct (persistUploadTarget _ _) as [|blk|r]; [done| |].
  - exact (attach_saving_Inv _ i (with_target b t l u) k (SaveBlock blk) I1 In1 Hi Hs Hk).
  - exact (attach_saving_Inv _ i (with_target b t l u) k (SaveRecording r) I1 In1 Hi Hs Hk).
Qed.

Lemma complete_deferred_Inv st i :
  Inv st → allowed st (CompleteDeferred i) → Inv (step (CompleteDeferred i) st).
Proof.
  intros [L B] Ha. cbn [allowed step] in *. split.
  - destruct (flows st !! i) as [f|] eqn:F.
    + apply (listed_update_same st i _ f); [done|done|done|]. intros u Hu Hi Ho.
      destruct (Ha u Hu Hi) as [Hs|[Hs _]]; destruct f; simpl in *; intuition congruence.
    + destruct L as (N & E & A). split_and!; simpl.
      * by rewrite update_ids.
      * intros u (v & Hv & ->)%elem_of_update. destruct (E v Hv) as (f & Hf & Ho).
        destruct (Z.eqb_spec (id v) i) as [<-|Hne]; [congruence|by exists f].
      * intros j f Hj. rewrite update_ids by done. by apply (A j).
  - intros k Hk Hl. specialize (B k Hk Hl).
    destruct (decide (k ∈ recorded st)) as [?|Hr]; [by left|].
    apply (accounted_update st i _ k None); [done| |auto]. intros u Hu Hi Hs Hu'.
    destruct (Ha u Hu Hi) as [?|(_ & k' & Hk' & R)]; [congruence|]. exfalso. apply Hr. congruence.
Qed.

Lemma dismiss_Inv st i : Inv st → Inv (step (Dismiss i) st).
Proof.
  intros HI. simpl. destruct (find_upload i (uploads st)) as [u|] eqn:Fu; [|done].
  apply find_upload_spec in Fu as [Hu Hi].
  destruct (has [done; error] (status u)) eqn:Hs; [|done]. apply has_true in Hs.
  destruct HI as [L B]. split.
  - apply listed_remove; [done|]. intros f Hf. left.
    pose proof (entry_of st i f u L Hf Hu Hi) as Ho. rewrite !elem_of_cons in Hs.
    destruct f; simpl in Ho; destruct Hs as [Hs|[Hs|Hs%not_elem_of_nil]];
      intuition congruence.
  - intros k Hk Hl. apply accounted_remove; [by apply B|].
    intros v Hv Hvi Hw _. assert (v = u) as -> by (apply (listed_unique st); [done..|congruence]).
    rewrite Hw, !elem_of_cons in Hs. by destruct Hs as [?|[?|?%not_elem_of_nil]].
Qed.

Lemma failed_Inv st i m : Inv st → Inv (step (Failed i m) st).
Proof.
  intros HI. simpl. destruct (flows st !! i) as [[| | |]|] eqn:F; try done; by eapply fail_Inv.
Qed.

Lemma queue_step_Inv st a : Inv st → allowed st a → Inv (step a st).
Proof.
  intros HI Ha. destruct a.
  - by apply start_Inv.
  - by apply prepared_Inv.
  - by apply progress_Inv.
  - by apply failed_Inv.
  - by apply stored_Inv.
  - by apply saved_Inv.
  - by apply save_failed_Inv.
  - by apply cancel_Inv.
  - by apply attach_Inv.
  - by apply Inv_world; [..|right|].
  - by apply complete_deferred_Inv.
  - by apply dismiss_Inv.
Qed.

Lemma queue_reachable_Inv st : reachable st → Inv st.
Proof.
  induction 1 as [|st a _ IH Ha]; [|by apply queue_step_Inv].
  split; [split_and!; simpl|].
  - constructor.
  - intros u Hu. by apply not_elem_of_nil in Hu.
  - intros i f Hf. by rewrite lookup_empty in Hf.
  - intros k Hk. by apply not_elem_of_nil in Hk.
Qed.

(** ** What the queue promises *)

(** C4: whatever the interleaving of uploads, failures, cancellations, attachments and
    dismissals, every object that reaches the bucket (other than one that arrives after
    its upload was cancelled) has a record pointing to it, or the server was asked to
    abandon it, or it waits in the list the user sees, or its record is being written;
    and while an object waits or its record is being written for a listed entry, the
    page warns before it is closed. ([allowed]: identifiers of uploads are new, keys are not
    empty, and a page reports a waiting upload as complete only after it wrote its record.) *)
Theorem stored_objects_accounted (st : State) :
  reachable st →
  (∀ k, k ∈ bucket st → k ∉ late st →
     k ∈ recorded st ∨ k ∈ abandoned st
     ∨ (∃ u, u ∈ uploads st ∧ status u = waiting ∧ s3Key u = Some k)
     ∨ (∃ i p, flows st !! i = Some (Saving k p)))
  ∧ NoDup (map id (uploads st))
  ∧ (∀ u, u ∈ uploads st → flows st !! id u ≠ Some Ended ∨ status u = waiting →
       hasActiveUploads (uploads st) = true).
Proof.
  intros R. destruct (queue_reachable_Inv st R) as [L B]. split; [exact B|]. split; [apply L|].
  intros u Hu Hor. unfold hasActiveUploads. apply existsb_exists. exists u.
  split; [by apply list_elem_of_In|]. apply has_true. rewrite !elem_of_cons.
  destruct L as (_ & E & _). destruct (E u Hu) as (f & Hf & Ho).
  destruct Hor as [Hne| ->]; [|tauto].
  destruct f; simpl in Ho; [tauto|tauto|tauto|congruence].
Qed.

Definition plain : UploadStartOpts := {|
  o_contentBlockId := None; o_deferPersistence := None; o_cohortRecording := None;
  o_linkTo := None; o_linkLabel := None |}.

(** A run: an upload is stored, waits, is attached to a block, and its save fails. *)
Definition run_attach : State :=
  step (SaveFailed 1 (js "no")) (step (Attach 1 (Some 9) None None) (step (Stored 1)
    (step (Prepared 1 (js "k")) (step (Start 1 (js "a.mp4") 10 [] plain) init)))).

Lemma stored_objects_accounted_witness :
  reachable run_attach ∧ bucket run_attach = [js "k"] ∧ js "k" ∉ late run_attach ∧
  (js "k" ∈ recorded run_attach ∨ js "k" ∈ abandoned run_attach
   ∨ (∃ u, u ∈ uploads run_attach ∧ status u = waiting ∧ s3Key u = Some (js "k"))
   ∨ (∃ i p, flows run_attach !! i = Some (Saving (js "k") p))).
Proof.
  assert (R : reachable run_attach).
  { repeat (apply reachable_step; [|try done]); [apply reachable_init|].
    simpl. rewrite lookup_empty. split; [done|]. split; apply not_elem_of_nil. }
  split; [exact R|]. split; [vm_compute; reflexivity|]. split; [apply not_elem_of_nil|].
  apply (stored_objects_accounted run_attach R); [by left|apply not_elem_of_nil].
Defined.

(** The same upload, cancelled while its storage request is being prepared: the object
    still reaches the bucket, and nothing accounts for it. *)
Lemma cancelled_while_preparing_leaves_object :
  let st := step (Stored 1) (step (Prepared 1 (js "k")) (step (Cancel 1)
    (step (Start 1 (js "a.mp4") 10 [] plain) init))) in
  reachable st ∧ bucket st = [js "k"] ∧ uploads st = [] ∧ recorded st = [] ∧ abandoned st = []
  ∧ flows st !! 1 = Some Ended.
Proof.
  intros st. split; [|vm_compute; done].
  repeat (apply reachable_step; [|try done]); [apply reachable_init|].
  simpl. rewrite lookup_empty. split; [done|]. split; apply not_elem_of_nil.
Qed.

(** Cancelling while the record is being written does not stop it: the entry leaves the
    list and the record is written all the same. *)
Lemma cancelled_while_saving_is_recorded :
  let o := {| o_contentBlockId := Some 9; o_deferPersistence := None; o_cohortRecording := None;
              o_linkTo := None; o_linkLabel := None |} in
  let st := step (Saved 1) (step (Cancel 1) (step (Stored 1) (step (Prepared 1 (js "k"))
    (step (Start 1 (js "a.mp4") 10 [] o) init)))) in
  uploads st = [] ∧ recorded st = [js "k"] ∧ abandoned st = [].
Proof. vm_compute. done. Qed.
