(* ===== verification/MessageFormat.v ===== *)
(** * Message text: blocks, markdown, links and previews

    [web/src/lib/messageFormat.ts] and [mobile/src/lib/message-format.ts] (their
    block parsers are the same): the parser that turns a message body into
    blocks, the serializer that turns an editor document into the markdown that
    is sent, the normalization of a body before it is sent, and the mobile app's
    plain text, previews and links. Shown: the blocks are well formed for every
    body, a document survives serialization and parsing, links are web or mail
    links only. *)

From S2P Require Import Prelude.
From S2P Require Import Regex.
From S2P Require Import Url.

(** ** Blocks *)

Inductive MessageBlock :=
| paragraph (text : str)
| bulletList (items : list str)
| orderedList (items : list str)
| blockquote (text : str)
| code (code language : str)
| spacer.

#[export] Instance MessageBlock_eq_dec : EqDecision MessageBlock.
Proof. solve_decision. Defined.

(** [.replace(/^\n+|\n+$/g, '')] *)
Definition is_LF (c : ascii) : bool := bool_decide (c = LF).
Definition strip_newlines (s : str) : str :=
  reverse (drop_while is_LF (reverse (drop_while is_LF s))).

(** The class [.]: no line terminator. *)
Definition dot (c : ascii) : bool := negb (is_LF c) && negb (bool_decide (c = "013"%char)).

Definition is_char (l : list ascii) (c : ascii) : bool := has l c.

(** [/^\s*[-*]\s+(.+)$/] *)
Definition bullet_pattern : matcher :=
  seq bol (seq (star is_space) (seq (chr (is_char ["-"; "*"]%char))
    (seq (plus is_space) (seq (group 1 (plus dot)) eol)))).

(** [/^\s*\d+[.)]\s+(.+)$/] *)
Definition ordered_pattern : matcher :=
  seq bol (seq (star is_space) (seq (plus is_digit) (seq (chr (is_char ["."; ")"]%char))
    (seq (plus is_space) (seq (group 1 (plus dot)) eol))))).

(** [/^\s*>\s?(.* )$/] (without the space) *)
Definition quote_pattern : matcher :=
  seq bol (seq (star is_space) (seq (chr (is_char [">"]%char))
    (seq (opt (chr is_space)) (seq (group 1 (star dot)) eol)))).

Definition match1 (m : matcher) (s : str) : option str :=
  match exec m s with Some x => Some (cap 1 x.2) | None => None end.

(** The variables of [appendTextBlocks]; [bullets] is [listType]. *)
Record TextState := {
  blocks : list MessageBlock;
  para : list str;
  listType : option bool;          (* [Some false]: bullets, [Some true]: ordered *)
  listItems : list str;
  quoteLines : list str;
}.

Definition clean (bs : list MessageBlock) : TextState := {|
  blocks := bs; para := []; listType := None; listItems := []; quoteLines := [] |}.

Definition push (b : MessageBlock) (st : TextState) : TextState := {|
  blocks := blocks st ++ [b]; para := para st; listType := listType st;
  listItems := listItems st; quoteLines := quoteLines st |}.

Definition flushParagraph (st : TextState) : TextState :=
  let value := trim (join [LF] (para st)) in
  let st := if truthy value then push (paragraph value) st else st in
  {| blocks := blocks st; para := []; listType := listType st; listItems := listItems st;
     quoteLines := quoteLines st |}.

Definition list_block (ordered : bool) (items : list str) : MessageBlock :=
  if ordered then orderedList items else bulletList items.

Definition flushList (st : TextState) : TextState :=
  let st := match listType st with
            | Some o => if bool_decide (listItems st = []) then st
                        else push (list_block o (listItems st)) st
            | None => st end in
  {| blocks := blocks st; para := para st; listType := None; listItems := [];
     quoteLines := quoteLines st |}.

Definition flushQuote (st : TextState) : TextState :=
  let value := trim (join [LF] (quoteLines st)) in
  let st := if truthy value then push (blockquote value) st else st in
  {| blocks := blocks st; para := para st; listType := listType st; listItems := listItems st;
     quoteLines := [] |}.

Definition flushAll (st : TextState) : TextState := flushQuote (flushList (flushParagraph st)).

Definition push_spacer (st : TextState) : TextState :=
  match last (blocks st) with
  | Some spacer | None => st
  | Some _ => push spacer st
  end.

(** A list item of either kind. *)
Definition add_item (ordered : bool) (item : str) (st : TextState) : TextState :=
  let st := flushQuote (flushParagraph st) in
  let st := match listType st with
            | Some o => if Bool.eqb o ordered then st else flushList st
            | None => st end in
  {| blocks := blocks st; para := para st; listType := Some ordered;
     listItems := listItems st ++ [trim item]; quoteLines := quoteLines st |}.

Definition text_line (st : TextState) (line : str) : TextState :=
  if negb (truthy (trim line)) then push_spacer (flushAll st)
  else match match1 bullet_pattern line with
  | Some item => add_item false item st
  | None =>
  match match1 ordered_pattern line with
  | Some item => add_item true item st
  | None =>
  match match1 quote_pattern line with
  | Some q =>
      let st := flushList (flushParagraph st) in
      {| blocks := blocks st; para := para st; listType := listType st;
         listItems := listItems st; quoteLines := quoteLines st ++ [q] |}
  | None =>
      let st := flushQuote (flushList st) in
      {| blocks := blocks st; para := para st ++ [line]; listType := listType st;
         listItems := listItems st; quoteLines := quoteLines st |}
  end end end.

Definition appendTextBlocks (bs : list MessageBlock) (text : str) : list MessageBlock :=
  blocks (flushAll (fold_left text_line (split_on LF (strip_newlines text)) (clean bs))).

(** [/```([^\n`]* )\n?([\s\S]*?)(?:```|$)/g] (without the space) *)
Definition BACKTICK : ascii := "096"%char.
Definition fence : str := [BACKTICK; BACKTICK; BACKTICK].
Definition fence_pattern : matcher :=
  seq (lit fence)
    (seq (group 1 (star (λ c, negb (is_LF c) && negb (bool_decide (c = BACKTICK)))))
      (seq (opt (chr is_LF))
        (seq (group 2 (lazy_star (λ _, true))) (alt (lit fence) eol)))).

(** The [while] loop of [parseMessageBlocks] from [lastIndex]: [b] is the text before
    it, reversed, and [r] the text after it. Every match consumes three characters at
    least, so the length of the text bounds the iterations. Returns the blocks and the
    text after the last fence. *)
Fixpoint parse_fences (fuel : nat) (b r : str) (bs : list MessageBlock)
    : list MessageBlock * str :=
  match fuel with
  | O => (bs, r)
  | S fuel =>
      match search fence_pattern b r with
      | None => (bs, r)
      | Some (s0, e) =>
          let before_it := take (length r - length (rest s0)) r in
          let bs := if truthy before_it then appendTextBlocks bs before_it else bs in
          parse_fences fuel (before e) (rest e)
            (bs ++ [code (strip_newlines (cap 2 e)) (trim (cap 1 e))])
      end
  end.

Fixpoint pop_spacers (rev_blocks : list MessageBlock) : list MessageBlock :=
  match rev_blocks with
  | spacer :: l => pop_spacers l
  | l => l
  end.

Definition parseMessageBlocks (body : str) : list MessageBlock :=
  let '(bs, tail) := parse_fences (S (length body)) [] body [] in
  let bs := if truthy tail then appendTextBlocks bs tail else bs in
  let bs := reverse (pop_spacers (reverse bs)) in
  if bool_decide (bs = []) then [paragraph body] else bs.

(** ** Editor documents *)

Inductive Mark :=
| bold | italic | underline | strike | code_mark | link (href : option str) | other_mark.

(** [JSONContent] of the editor. *)
Inductive NodeType :=
| Doc | Text | Paragraph | HardBreak | CodeBlock | Blockquote | BulletList | OrderedList
| OtherNode (name : str).

Inductive Node := MkNode (type : NodeType) (text : option str) (marks : list Mark)
  (content : list Node).

Definition wrap (l : string) (v : str) (r : string) : str := js l ++ v ++ js r.

Definition applyMarks (text : str) (marks : list Mark) : str :=
  fold_left (λ value mark,
    match mark with
    | bold => wrap "**" value "**"
    | italic => wrap "_" value "_"
    | underline => wrap "++" value "++"
    | strike => wrap "~~" value "~~"
    | code_mark => wrap "`" value "`"
    | link href => wrap "[" value "](" ++ str_or (default [] href) value ++ js ")"
    | other_mark => value
    end) marks text.

Definition indent (prefix : string) (value : str) : str :=
  join [LF] (map (λ line, js prefix ++ line) (split_on LF value)).

(** One item of a list, with the recursive calls made already. *)
Definition list_item (children : list str) : str :=
  match children with
  | [] => []
  | firstLine :: remaining =>
      let continuation := join [LF] (map (indent "  ") (List.filter truthy remaining)) in
      if truthy continuation then trimEnd (firstLine ++ [LF] ++ continuation)
      else trimEnd firstLine
  end.

Definition number_items (ordered : bool) (items : list str) : str :=
  join [LF] (imap (λ index item,
    (if ordered then str_of_Z (Z.of_nat index + 1) ++ js "." else js "-") ++ js " " ++ item) items).

Definition serializeList (ordered : bool) (items : list (list str)) : str :=
  number_items ordered (List.filter (λ item, truthy (trim item)) (map list_item items)).

Fixpoint editorJsonToMarkdown (node : Node) : str :=
  match node with
  | MkNode type text marks content =>
      let children := map editorJsonToMarkdown content in
      let items := map (λ item, match item with
                                | MkNode _ _ _ c => map editorJsonToMarkdown c end) content in
      match type with
      | Text => applyMarks (default [] text) marks
      | BulletList => serializeList false items
      | OrderedList => serializeList true items
      | Doc => trim (join [LF; LF] children)
      | Paragraph => concat children
      | HardBreak => [LF]
      | CodeBlock => fence ++ [LF] ++ concat children ++ [LF] ++ fence
      | Blockquote => indent "> " (join [LF] children)
      | OtherNode _ => concat children
      end
  end.

(** ** Every body has well-formed blocks *)

Definition block_ok (b : MessageBlock) : Prop :=
  match b with
  | paragraph t | blockquote t => t ≠ [] ∧ trim t = t
  | bulletList l | orderedList l => l ≠ [] ∧ Forall (λ x, trim x = x) l
  | code c lang => strip_newlines c = c ∧ trim lang = lang
  | spacer => True
  end.

(** A spacer follows a block that is not one. *)
Definition spaced (bs : list MessageBlock) : Prop :=
  ∀ l r, bs = l ++ spacer :: r → ∃ b, last l = Some b ∧ b ≠ spacer.

Lemma spaced_snoc bs b :
  spaced bs → (b = spacer → ∃ b', last bs = Some b' ∧ b' ≠ spacer) → spaced (bs ++ [b]).
Proof.
  intros Hs Hb l r E. destruct r as [|x r _] using rev_ind.
  - apply app_inj_tail in E as [-> ->]. auto.
  - change (l ++ spacer :: r ++ [x]) with (l ++ (spacer :: r) ++ [x]) in E.
    rewrite app_assoc in E. apply app_inj_tail in E as [E _]. by apply (Hs l r).
Qed.

Lemma strip_newlines_idem s : strip_newlines (strip_newlines s) = strip_newlines s.
Proof.
  unfold strip_newlines.
  assert (H : ∀ l, drop_while is_LF (reverse (drop_while is_LF (reverse (drop_while is_LF l))))
              = reverse (drop_while is_LF (reverse (drop_while is_LF l)))).
  { intros l. destruct (drop_while is_LF l) as [|c r] eqn:E; [done|].
    pose proof (drop_while_head _ _ _ _ E) as Hc.
    destruct (drop_while_suffix is_LF (reverse (c :: r))) as (k & Hk & Fk).
    destruct (drop_while is_LF (reverse (c :: r))) as [|d t] eqn:E2; [done|].
    rewrite <- (reverse_involutive (c :: r)), Hk, reverse_app in E.
    assert (∃ t', reverse (d :: t) = c :: t') as [t' Ht].
    { apply (f_equal reverse) in Hk. rewrite reverse_involutive, reverse_app in Hk.
      destruct (reverse (d :: t)) as [|x t'] eqn:E3.
      - apply (f_equal length) in E3. rewrite length_reverse in E3. done.
      - injection Hk as <- _. eauto. }
    rewrite Ht. by apply drop_while_id. }
  rewrite (H s), reverse_involutive. f_equal. apply drop_while_idem.
Qed.

Definition text_ok (st : TextState) : Prop :=
  Forall block_ok (blocks st) ∧ spaced (blocks st) ∧ Forall (λ x, trim x = x) (listItems st).

Lemma push_ok st b : text_ok st → block_ok b → b ≠ spacer → text_ok (push b st).
Proof.
  intros (F & S & L) Hb Hn. split_and!; simpl.
  - apply Forall_app. auto.
  - by apply spaced_snoc.
  - done.
Qed.

Lemma trimmed_ok s : truthy (trim s) = true → trim s ≠ [] ∧ trim (trim s) = trim s.
Proof. intros H. split; [by intros E; rewrite E in H|apply trim_idem]. Qed.

Lemma flushParagraph_ok st : text_ok st → text_ok (flushParagraph st).
Proof.
  intros H. unfold flushParagraph. destruct (truthy _) eqn:E; [|exact H].
  apply (push_ok st) with (b := paragraph (trim (join [LF] (para st)))); [done| |done].
  by apply trimmed_ok.
Qed.

Lemma flushQuote_ok st : text_ok st → text_ok (flushQuote st).
Proof.
  intros H. unfold flushQuote. destruct (truthy _) eqn:E; [|exact H].
  apply (push_ok st) with (b := blockquote (trim (join [LF] (quoteLines st)))); [done| |done].
  by apply trimmed_ok.
Qed.

Lemma flushList_ok st : text_ok st → text_ok (flushList st).
Proof.
  intros H. unfold flushList. destruct (listType st) as [o|].
  2: { destruct H as (F & S & _). by split_and!. }
  case_bool_decide as E; [destruct H as (F & S & _); by split_and!|].
  destruct (push_ok st (list_block o (listItems st))) as (F & S & _).
  - done.
  - destruct H as (_ & _ & L). by destruct o.
  - by destruct o.
  - by split_and!.
Qed.

Lemma flushAll_ok st : text_ok st → text_ok (flushAll st).
Proof. intros H. by apply flushQuote_ok, flushList_ok, flushParagraph_ok. Qed.

Lemma push_spacer_ok st : text_ok st → text_ok (push_spacer st).
Proof.
  intros (F & S & L). unfold push_spacer. destruct (last (blocks st)) as [b|] eqn:E; [|done].
  assert (G : b ≠ spacer → text_ok (push spacer st)).
  { intros Hb. split_and!; simpl; [apply Forall_app; split; [done|by repeat constructor]| |done].
    apply spaced_snoc; [done|eauto]. }
  destruct b; try (by apply G); done.
Qed.

Lemma add_item_ok o item st : text_ok st → text_ok (add_item o item st).
Proof.
  intros H. unfold add_item.
  assert (H1 : text_ok (flushQuote (flushParagraph st)))
    by (by apply flushQuote_ok, flushParagraph_ok).
  set (st1 := flushQuote (flushParagraph st)) in *. clearbody st1.
  assert (G : ∀ st2, text_ok st2 → text_ok {| blocks := blocks st2; para := para st2;
    listType := Some o; listItems := listItems st2 ++ [trim item]; quoteLines := quoteLines st2 |}).
  { intros st2 (F & S & L). split_and!; [done|done|]. simpl. apply Forall_app. split; [done|].
    constructor; [apply trim_idem|done]. }
  apply G. destruct (listType st1) as [o'|]; [|done]. destruct (Bool.eqb o' o); [done|].
  by apply flushList_ok.
Qed.

Lemma text_line_ok st line : text_ok st → text_ok (text_line st line).
Proof.
  intros H. unfold text_line. destruct (negb _); [by apply push_spacer_ok, flushAll_ok|].
  destruct (match1 bullet_pattern line); [by apply add_item_ok|].
  destruct (match1 ordered_pattern line); [by apply add_item_ok|].
  destruct (match1 quote_pattern line).
  - exact (flushList_ok _ (flushParagraph_ok _ H)).
  - exact (flushQuote_ok _ (flushList_ok _ H)).
Qed.

Lemma appendTextBlocks_ok bs text :
  Forall block_ok bs → spaced bs →
  Forall block_ok (appendTextBlocks bs text) ∧ spaced (appendTextBlocks bs text).
Proof.
  intros F S. unfold appendTextBlocks.
  assert (H : text_ok (clean bs)) by (split_and!; [done|done|constructor]).
  revert H. generalize (clean bs).
  induction (split_on LF (strip_newlines text)) as [|line l IH]; intros st H; simpl.
  - by destruct (flushAll_ok st H) as (? & ? & _).
  - apply IH. by apply text_line_ok.
Qed.

Lemma parse_fences_ok fuel b r bs :
  Forall block_ok bs → spaced bs →
  Forall block_ok (parse_fences fuel b r bs).1 ∧ spaced (parse_fences fuel b r bs).1.
Proof.
  revert b r bs. induction fuel as [|fuel IH]; intros b r bs F S; simpl; [done|].
  destruct (search fence_pattern b r) as [[s0 e]|]; [|done].
  set (bs' := if truthy _ then _ else _).
  assert (H : Forall block_ok bs' ∧ spaced bs').
  { subst bs'. destruct (truthy _); [|by split]. by apply appendTextBlocks_ok. }
  destruct H as [F' S']. apply IH; [|by apply spaced_snoc].
  apply Forall_app. split; [done|]. constructor; [|done].
  split; [apply strip_newlines_idem|apply trim_idem].
Qed.

Lemma pop_spacers_spec l :
  ∃ k, l = k ++ pop_spacers l ∧ head (pop_spacers l) ≠ Some spacer.
Proof.
  induction l as [|b l IH]; [by exists []|]. destruct b; try (by exists []).
  destruct IH as (k & E & H). exists (spacer :: k). split; [|done]. simpl. by f_equal.
Qed.

(** Every message body has blocks to show, in both apps: the whole body as one
    paragraph, or blocks in which every paragraph and quotation is trimmed text that is
    not empty, every list has trimmed items, code has no surrounding newlines, and
    spacers separate blocks: never first, last, or two in a row. *)
Theorem message_blocks_well_formed (body : str) :
  let bs := parseMessageBlocks body in
  bs ≠ [] ∧ (bs = [paragraph body]
             ∨ Forall block_ok bs ∧ head bs ≠ Some spacer ∧ last bs ≠ Some spacer
               ∧ ∀ l r, bs ≠ l ++ spacer :: spacer :: r).
Proof.
  simpl. unfold parseMessageBlocks.
  pose proof (parse_fences_ok (S (length body)) [] body [] (Forall_nil_2 _)) as H.
  destruct (parse_fences (S (length body)) [] body []) as [bs tail]. simpl in H.
  assert (H1 : Forall block_ok bs ∧ spaced bs).
  { apply H. intros l r E. by destruct l. }
  clear H. set (bs1 := if truthy tail then _ else _).
  assert (H2 : Forall block_ok bs1 ∧ spaced bs1).
  { subst bs1. destruct H1 as [F S]. destruct (truthy tail); [|done]. by apply appendTextBlocks_ok. }
  clearbody bs1. clear H1. destruct H2 as [F S].
  destruct (pop_spacers_spec (reverse bs1)) as (k & E & Hh).
  set (p := pop_spacers (reverse bs1)) in *. clearbody p.
  apply (f_equal reverse) in E. rewrite reverse_involutive, reverse_app in E. subst bs1.
  case_bool_decide as Hp; [by split; [|left]|]. split; [done|]. right.
  apply Forall_app in F as [F _]. split_and!; [done| | |].
  - intros E. destruct (reverse p) as [|b q]; [done|]. injection E as ->.
    by destruct (S [] (q ++ reverse k) eq_refl) as (b & ? & _).
  - by rewrite <- (reverse_involutive p), head_reverse in Hh.
  - intros l r E. rewrite E in S.
    destruct (S (l ++ [spacer]) (r ++ reverse k)) as (b & Hb & Hn).
    + rewrite <- !app_assoc. done.
    + rewrite last_snoc in Hb. by injection Hb as <-.
Qed.

(** ** A document survives serialization and parsing *)

(** *** How the patterns behave on the lines the serializer writes *)

Lemma star_go_greedy p b w r cs k x :
  Forall (λ c, p c = true) w → match r with [] => True | c :: _ => p c = false end →
  k (RState (reverse w ++ b) r cs) = Some x → star_go p b (w ++ r) cs k = Some x.
Proof.
  intros F. revert b. induction F as [|c w Hc F IH]; intros b Hr Hk.
  - rewrite app_nil_l. destruct r as [|c r]; simpl; [done|]. by rewrite Hr.
  - simpl. rewrite Hc. rewrite reverse_cons, <- app_assoc in Hk. by rewrite (IH (c :: b)).
Qed.

Definition dots (w : str) : Prop := Forall (λ c, dot c = true) w.

(** The first character of trimmed text is not a space. *)
Definition starts_solid (w : str) : Prop := ∃ c r, w = c :: r ∧ is_space c = false.

Lemma trimmed_solid w : w ≠ [] → trim w = w → starts_solid w.
Proof.
  intros Hn Ht. destruct w as [|c r]; [done|]. exists c, r. split; [done|].
  by apply (trim_head (c :: r) c r).
Qed.

(** A pattern that begins with [^\s*] and a class fails on a first character that is
    neither a space nor in the class. *)
Lemma exec_other_first p m c w :
  is_space c = false → p c = false →
  exec (seq bol (seq (star is_space) (seq (chr p) m))) (c :: w) = None.
Proof. intros H1 H2. rewrite exec_bol. unfold seq, star, chr. simpl. by rewrite H1; simpl; rewrite H2. Qed.

(** The end of the item patterns: a space, the item to the end of the line. *)
Lemma item_tail s w c :
  dots w → starts_solid w → rest s = c :: w → is_space c = true →
  ∃ e, seq (plus is_space) (seq (group 1 (plus dot)) eol) s Some = Some e ∧ cap 1 e = w.
Proof.
  intros Hd (d & r & -> & Hd1) Hr Hc.
  assert (Hdd : dot d = true) by (by inversion Hd). assert (Hdr : dots r) by (by inversion Hd).
  destruct s as [b0 r0 cs]. simpl in Hr. subst r0.
  unfold plus, group, star. unfold seq, chr. simpl. rewrite Hc. simpl. rewrite Hd1. simpl.
  rewrite Hdd. simpl. eexists. split.
  - rewrite <- (app_nil_r r) at 1. apply star_go_greedy; [done|done|]. simpl.
    unfold eol. simpl. reflexivity.
  - unfold cap. simpl. apply (consumed_word (RState (c :: b0) (d :: r) cs) _ (d :: r)). simpl.
    by rewrite reverse_cons, <- app_assoc.
Qed.

Lemma match1_bullet w : dots w → starts_solid w → match1 bullet_pattern (js "- " ++ w) = Some w.
Proof.
  intros Hd Hs. unfold match1, bullet_pattern. rewrite exec_bol.
  destruct (item_tail (RState ["-"%char] (" "%char :: w) []) w " "%char Hd Hs eq_refl eq_refl)
    as (e & He & Hc).
  change (seq (star is_space) _ (RState [] (js "- " ++ w) []) Some)
    with (seq (plus is_space) (seq (group 1 (plus dot)) eol)
            (RState ["-"%char] (" "%char :: w) []) Some).
  rewrite He. simpl. by rewrite Hc.
Qed.

Lemma digit_not_space c : is_digit c = true → is_space c = false.
Proof. destruct c as [[] [] [] [] [] [] [] []]; done. Qed.

Lemma match1_ordered n w :
  0 <= n → dots w → starts_solid w →
  match1 ordered_pattern (str_of_Z n ++ js ". " ++ w) = Some w.
Proof.
  intros Hn Hd Hs. unfold match1, ordered_pattern. rewrite exec_bol.
  pose proof (str_of_Z_digits n Hn) as F. pose proof (str_of_Z_nonempty n) as Hne.
  destruct (str_of_Z n) as [|c d]; [done|]. apply Forall_cons in F as [Fc F].
  destruct (item_tail (RState ("."%char :: reverse d ++ [c]) (" "%char :: w) []) w " "%char
    Hd Hs eq_refl eq_refl) as (e & He & Hcap).
  assert (E : seq (star is_space) (seq (plus is_digit) (seq (chr (is_char ["."; ")"]%char))
    (seq (plus is_space) (seq (group 1 (plus dot)) eol))))
    (RState [] ((c :: d) ++ js ". " ++ w) []) Some = Some e).
  { unfold seq at 1, star at 1. simpl. rewrite (digit_not_space c Fc).
    unfold plus at 1. unfold seq at 1. unfold seq at 1. unfold chr at 1. simpl. rewrite Fc.
    unfold star at 1. simpl. apply star_go_greedy; [done|done|]. exact He. }
  rewrite E. simpl. by rewrite Hcap.
Qed.

Lemma match1_quote w : dots w → match1 quote_pattern (js "> " ++ w) = Some w.
Proof.
  intros Hd. unfold match1, quote_pattern. rewrite exec_bol.
  set (s := RState [" "; ">"]%char w []).
  assert (E : seq (group 1 (star dot)) eol s Some
              = Some (RState (reverse w ++ [" "; ">"]%char) [] [(1%nat, w)])).
  { unfold seq, group, star. simpl. rewrite <- (app_nil_r w) at 1.
    apply star_go_greedy; [done|done|]. unfold eol. simpl. do 3 f_equal.
    rewrite (consumed_word s _ w); done. }
  change (seq (star is_space) _ (RState [] (js "> " ++ w) []) Some)
    with (match seq (group 1 (star dot)) eol s Some with
          | Some r => Some r
          | None => seq (group 1 (star dot)) eol (RState [">"%char] (" "%char :: w) []) Some end).
  rewrite E. done.
Qed.

(** *** Documents *)

(** A line of text runs, with their marks. *)
Abbreviation inline := (list (str * list Mark)).

Definition inline_text (l : inline) : str := concat (map (λ r, applyMarks r.1 r.2) l).

(** The blocks the composer can make: paragraphs with hard breaks, lists of one-line
    items, quotations and code. *)
Inductive Simple :=
| SParagraph (lines : list inline)
| SList (ordered : bool) (items : list inline)
| SQuote (lines : list inline)
| SCode (text : str).

Definition run_node (r : str * list Mark) : Node := MkNode Text (Some r.1) r.2 [].
Definition line_node (l : inline) : Node := MkNode Paragraph None [] (map run_node l).

Fixpoint with_breaks (lines : list inline) : list Node :=
  match lines with
  | [] => []
  | [l] => map run_node l
  | l :: ls => map run_node l ++ MkNode HardBreak None [] [] :: with_breaks ls
  end.

Definition node_of (s : Simple) : Node :=
  match s with
  | SParagraph lines => MkNode Paragraph None [] (with_breaks lines)
  | SList ordered items =>
      MkNode (if ordered then OrderedList else BulletList) None []
        (map (λ i, MkNode (OtherNode (js "listItem")) None [] [line_node i]) items)
  | SQuote lines => MkNode Blockquote None [] (map line_node lines)
  | SCode text => MkNode CodeBlock None [] [MkNode Text (Some text) [] []]
  end.

Definition document (l : list Simple) : Node := MkNode Doc None [] (map node_of l).

(** What they look like as blocks. *)
Definition block_of (s : Simple) : MessageBlock :=
  match s with
  | SParagraph lines => paragraph (join [LF] (map inline_text lines))
  | SList ordered items => list_block ordered (map inline_text items)
  | SQuote lines => blockquote (join [LF] (map inline_text lines))
  | SCode text => code text []
  end.

Definition is_code (s : Simple) : bool := match s with SCode _ => true | _ => false end.

(** A blank line between two blocks shows as a spacer, except next to code, where it
    takes another piece of code to see it. *)
Fixpoint layout (l : list Simple) : list MessageBlock :=
  match l with
  | [] => []
  | a :: t =>
      block_of a :: match t with
                    | [] => []
                    | b :: _ => if Bool.eqb (is_code a) (is_code b) then spacer :: layout t
                                else layout t
                    end
  end.

(** Text that the block syntax does not take for something else. *)
Definition no_fence (w : str) : bool := negb (includes w fence).
Definition solid (w : str) : bool := truthy w && eqs (trim w) w && forallb dot w && no_fence w.
Definition plain (w : str) : bool :=
  solid w && negb (bool_decide (is_Some (match1 bullet_pattern w)))
  && negb (bool_decide (is_Some (match1 ordered_pattern w)))
  && negb (bool_decide (is_Some (match1 quote_pattern w))).

Definition simple_ok (s : Simple) : bool :=
  match s with
  | SParagraph lines => negb (bool_decide (lines = [])) && forallb plain (map inline_text lines)
  | SList _ items => negb (bool_decide (items = [])) && forallb solid (map inline_text items)
  | SQuote lines =>
      let text := join [LF] (map inline_text lines) in
      truthy text && eqs (trim text) text
      && forallb (λ w, forallb dot w && no_fence w) (map inline_text lines)
  | SCode text => eqs (strip_newlines text) text && no_fence text
  end.

(** The lines of a block other than code. *)
Definition lines_of (s : Simple) : list str :=
  match s with
  | SParagraph lines => map inline_text lines
  | SList ordered items =>
      imap (λ index item, (if ordered then str_of_Z (Z.of_nat index + 1) ++ js "." else js "-")
                          ++ js " " ++ item) (map inline_text items)
  | SQuote lines => map (λ w, js "> " ++ w) (map inline_text lines)
  | SCode _ => []
  end.

Example document_text :
  let t s := [(js s, [])] in
  let d := [SParagraph [t "hi"; [(js "you", [bold])]]; SList true [t "a"; t "b"]; SQuote [t "q"; t ""; t "r"];
            SCode (js "x = 1"); SCode (js "y"); SParagraph [t "end"]] in
  forallb simple_ok d = true ∧ parseMessageBlocks (editorJsonToMarkdown (document d)) = layout d.
Proof. vm_compute. done. Qed.

(** *** Serialization *)

Lemma runs_text l : concat (map editorJsonToMarkdown (map run_node l)) = inline_text l.
Proof. unfold inline_text. by rewrite map_map. Qed.

Lemma line_node_text l : editorJsonToMarkdown (line_node l) = inline_text l.
Proof. exact (runs_text l). Qed.

Lemma breaks_text lines :
  concat (map editorJsonToMarkdown (with_breaks lines)) = join [LF] (map inline_text lines).
Proof.
  induction lines as [|l ls IH]; [done|]. destruct ls as [|l' ls]; [exact (runs_text l)|].
  change (with_breaks (l :: l' :: ls))
    with (map run_node l ++ MkNode HardBreak None [] [] :: with_breaks (l' :: ls)).
  rewrite map_app, concat_app, runs_text, map_cons, concat_cons, IH. done.
Qed.

Lemma trimEnd_trimmed w : trim w = w → trimEnd w = w.
Proof. intros H. rewrite <- H. unfold trim. apply trimEnd_idem. Qed.

Lemma solid_spec w :
  solid w = true ↔ w ≠ [] ∧ trim w = w ∧ dots w ∧ no_fence w = true.
Proof.
  unfold solid, dots. rewrite !andb_true_iff, eqs_true, forallb_forall, Forall_forall.
  setoid_rewrite list_elem_of_In.
  destruct w; [naive_solver|]. split; [naive_solver|]. naive_solver.
Qed.

Lemma plain_solid w : plain w = true → solid w = true.
Proof. unfold plain. rewrite !andb_true_iff. tauto. Qed.

Lemma list_items_text items :
  Forall (λ w, solid w = true) (map inline_text items) →
  List.filter (λ item, truthy (trim item))
    (map list_item (map (λ i, [editorJsonToMarkdown (line_node i)]) items))
  = map inline_text items.
Proof.
  induction items as [|i items IH]; [done|]. intros [H F]%Forall_cons.
  apply solid_spec in H as (H1 & H2 & _). rewrite !map_cons. unfold list_item at 1.
  cbn [List.filter map]. rewrite line_node_text, IH by done. cbn [join truthy].
  rewrite (trimEnd_trimmed (inline_text i)), H2 by done. by destruct (inline_text i).
Qed.

Lemma Forall_forallb {A} (f : A → bool) l : forallb f l = true ↔ Forall (λ x, f x = true) l.
Proof. rewrite forallb_forall, Forall_forall. by setoid_rewrite list_elem_of_In. Qed.

(** What is written for one block. *)
Definition piece (s : Simple) : str :=
  match s with
  | SCode text => fence ++ LF :: text ++ LF :: fence
  | _ => join [LF] (lines_of s)
  end.

Lemma dots_no_LF w : dots w → LF ∉ w.
Proof. intros H Hin. pose proof (proj1 (Forall_forall _ _) H _ Hin) as F. done. Qed.

Lemma piece_text s : simple_ok s = true → editorJsonToMarkdown (node_of s) = piece s.
Proof.
  destruct s as [lines|o items|lines|text]; intros H; simpl in H.
  - exact (breaks_text lines).
  - apply andb_true_iff in H as [_ H%Forall_forallb].
    pose proof (list_items_text items H) as E.
    transitivity (serializeList o (map (λ i, [editorJsonToMarkdown (line_node i)]) items)).
    + destruct o; cbn [node_of editorJsonToMarkdown]; by rewrite map_map.
    + unfold serializeList. by rewrite E.
  - apply andb_true_iff in H as [H1 H%Forall_forallb].
    cbn [node_of editorJsonToMarkdown]. unfold indent. rewrite map_map.
    rewrite (map_ext _ inline_text) by apply line_node_text.
    rewrite split_join; [done| |].
    + destruct lines; [done|done].
    + eapply Forall_impl; [exact H|]. intros w [Hw _]%andb_true_iff.
      apply dots_no_LF. by apply Forall_forallb.
  - simpl. by rewrite app_nil_r.
Qed.

(** *** Parsing the lines of one block *)

(** The state after the lines of a block, before the next blank line. *)
Definition pending (s : Simple) (bs : list MessageBlock) : TextState :=
  match s with
  | SParagraph lines => {| blocks := bs; para := map inline_text lines; listType := None;
                           listItems := []; quoteLines := [] |}
  | SList o items => {| blocks := bs; para := []; listType := Some o;
                        listItems := map inline_text items; quoteLines := [] |}
  | SQuote lines => {| blocks := bs; para := []; listType := None; listItems := [];
                       quoteLines := map inline_text lines |}
  | SCode _ => clean bs
  end.

Lemma para_line bs acc w :
  plain w = true →
  text_line {| blocks := bs; para := acc; listType := None; listItems := []; quoteLines := [] |} w
  = {| blocks := bs; para := acc ++ [w]; listType := None; listItems := []; quoteLines := [] |}.
Proof.
  intros H. pose proof (plain_solid w H) as (Hn & Ht & _)%solid_spec.
  unfold plain in H. rewrite !andb_true_iff, !negb_true_iff, !bool_decide_eq_false in H.
  destruct H as [[[_ H1] H2] H3]. unfold text_line. rewrite Ht.
  destruct w as [|c w]; [done|]. simpl (negb _).
  destruct (match1 bullet_pattern _); [by destruct H1; eauto|].
  destruct (match1 ordered_pattern _); [by destruct H2; eauto|].
  destruct (match1 quote_pattern _); [by destruct H3; eauto|]. done.
Qed.

Lemma marked_not_blank c w : is_space c = false → truthy (trim (c :: w)) = true.
Proof.
  intros H. unfold trim, trimStart. rewrite drop_while_id by done.
  destruct (trimEnd_head c w H) as [r ->]. done.
Qed.

Lemma match1_none m s : exec m s = None → match1 m s = None.
Proof. unfold match1. by intros ->. Qed.

Lemma item_line bs (o : bool) (lt : option bool) acc n w :
  0 <= n → solid w = true → (lt = None ∨ lt = Some o) →
  text_line {| blocks := bs; para := []; listType := lt; listItems := acc; quoteLines := [] |}
    ((if o then str_of_Z n ++ js "." else js "-") ++ js " " ++ w)
  = {| blocks := bs; para := []; listType := Some o; listItems := acc ++ [w]; quoteLines := [] |}.
Proof.
  intros Hn (H1 & H2 & H3 & _)%solid_spec Hlt. pose proof (trimmed_solid w H1 H2) as Hs.
  assert (G : add_item o w {| blocks := bs; para := []; listType := lt; listItems := acc;
                              quoteLines := [] |}
    = {| blocks := bs; para := []; listType := Some o; listItems := acc ++ [w]; quoteLines := [] |}).
  { unfold add_item. simpl. destruct Hlt as [-> | ->]; simpl; [|rewrite eqb_reflx; simpl];
      by rewrite H2. }
  unfold text_line. destruct o.
  - replace ((str_of_Z n ++ js ".") ++ js " " ++ w) with (str_of_Z n ++ js ". " ++ w)
      by (by rewrite <- app_assoc).
    rewrite (match1_ordered n w) by done.
    pose proof (str_of_Z_digits n Hn) as F. pose proof (str_of_Z_nonempty n) as Hne.
    destruct (str_of_Z n) as [|c d]; [done|]. apply Forall_cons in F as [Fc _].
    rewrite <- app_comm_cons, marked_not_blank by (by apply digit_not_space). simpl negb.
    rewrite match1_none; [exact G|]. apply exec_other_first; [by apply digit_not_space|].
    clear -Fc. by destruct c as [[] [] [] [] [] [] [] []].
  - change (js "-" ++ js " " ++ w) with (js "- " ++ w). rewrite (match1_bullet w) by done.
    replace (truthy (trim (js "- " ++ w))) with true
      by (symmetry; exact (marked_not_blank "-"%char (js " " ++ w) eq_refl)).
    exact G.
Qed.

Lemma quote_line bs acc w :
  dots w →
  text_line {| blocks := bs; para := []; listType := None; listItems := []; quoteLines := acc |}
    (js "> " ++ w)
  = {| blocks := bs; para := []; listType := None; listItems := []; quoteLines := acc ++ [w] |}.
Proof.
  intros H. unfold text_line. rewrite (match1_quote w) by done.
  replace (truthy (trim (js "> " ++ w))) with true
    by (symmetry; exact (marked_not_blank ">"%char (js " " ++ w) eq_refl)).
  simpl negb.
  rewrite (match1_none bullet_pattern); [|exact (exec_other_first _ _ ">"%char (js " " ++ w) eq_refl eq_refl)].
  rewrite (match1_none ordered_pattern); [done|].
  unfold ordered_pattern. rewrite exec_bol. done.
Qed.

Lemma fold_line st w l : fold_left text_line (w :: l) st = fold_left text_line l (text_line st w).
Proof. done. Qed.

Lemma para_lines bs acc l :
  Forall (λ w, plain w = true) l →
  fold_left text_line l
    {| blocks := bs; para := acc; listType := None; listItems := []; quoteLines := [] |}
  = {| blocks := bs; para := acc ++ l; listType := None; listItems := []; quoteLines := [] |}.
Proof.
  intros F. revert acc. induction F as [|w l Hw F IH]; intros acc; [by rewrite app_nil_r|].
  rewrite fold_line, para_line, IH by done. by rewrite <- app_assoc.
Qed.

Lemma item_lines bs (o : bool) lt acc (l : list str) k :
  Forall (λ w, solid w = true) l → l ≠ [] ∨ lt = Some o → (lt = None ∨ lt = Some o) →
  fold_left text_line
    (imap (λ index (item : str), (if o then str_of_Z (Z.of_nat (k + index) + 1) ++ js "." else js "-")
                         ++ js " " ++ item) l)
    {| blocks := bs; para := []; listType := lt; listItems := acc; quoteLines := [] |}
  = {| blocks := bs; para := []; listType := Some o; listItems := acc ++ l; quoteLines := [] |}.
Proof.
  intros F. revert acc lt k. induction F as [|w l Hw F IH]; intros acc lt k Hne Hlt.
  - destruct Hne as [? | ->]; [done|]. by rewrite app_nil_r.
  - rewrite imap_cons.
    rewrite fold_line, item_line by (done || lia).
    rewrite (imap_ext _ (λ index (item : str),
      (if o then str_of_Z (Z.of_nat (S k + index) + 1) ++ js "." else js "-") ++ js " " ++ item)).
    + rewrite IH by auto. by rewrite <- app_assoc.
    + intros i x _. unfold compose. by replace (k + S i)%nat with (S k + i)%nat by lia.
Qed.

Lemma quote_lines bs acc l :
  Forall dots l →
  fold_left text_line (map (λ w, js "> " ++ w) l)
    {| blocks := bs; para := []; listType := None; listItems := []; quoteLines := acc |}
  = {| blocks := bs; para := []; listType := None; listItems := []; quoteLines := acc ++ l |}.
Proof.
  intros F. revert acc. induction F as [|w l Hw F IH]; intros acc; [by rewrite app_nil_r|].
  rewrite map_cons.
  rewrite fold_line, quote_line, IH by done. by rewrite <- app_assoc.
Qed.

Lemma block_lines s bs :
  simple_ok s = true → fold_left text_line (lines_of s) (clean bs) = pending s bs.
Proof.
  destruct s as [lines|o items|lines|text]; intros H; simpl in H; [..|done];
    apply andb_true_iff in H as [H1 H%Forall_forallb]; simpl.
  - apply (para_lines bs [] _ H).
  - apply (item_lines bs o None [] _ 0); [done| |by left].
    left. destruct items; [|done]. done.
  - apply (quote_lines bs []). eapply Forall_impl; [exact H|].
    intros w [Hw _]%andb_true_iff. by apply Forall_forallb.
Qed.

(** *** Trimmed text *)

Definition ends_solid (w : str) : Prop := ∃ c r, w = r ++ [c] ∧ is_space c = false.

Lemma trim_solid w : starts_solid w → ends_solid w → trim w = w.
Proof.
  intros (c & r & -> & Hc) (d & t & E & Hd). unfold trim, trimStart, trimEnd.
  rewrite drop_while_id by done. rewrite E, reverse_app. simpl. rewrite Hd.
  by rewrite reverse_cons, reverse_involutive.
Qed.

Lemma trimmed_ends w : w ≠ [] → trim w = w → ends_solid w.
Proof.
  intros Hn Ht. apply trimEnd_trimmed in Ht. unfold trimEnd in Ht.
  apply (f_equal reverse) in Ht. rewrite reverse_involutive in Ht.
  destruct (reverse w) as [|c r] eqn:E.
  - apply (f_equal reverse) in E. by rewrite reverse_involutive in E.
  - exists c, (reverse r). split; [|by apply (drop_while_head is_space (c :: r) c r)].
    apply (f_equal reverse) in E. by rewrite reverse_involutive, reverse_cons in E.
Qed.

Lemma join_starts sep w l : starts_solid w → starts_solid (join sep (w :: l)).
Proof.
  intros (c & r & -> & Hc). destruct l as [|v l]; [by exists c, r|].
  exists c, (r ++ sep ++ join sep (v :: l)). done.
Qed.

Lemma join_ends sep l w : ends_solid w → ends_solid (join sep (l ++ [w])).
Proof.
  intros (c & r & -> & Hc). induction l as [|v l IH]; [by exists c, r|].
  destruct IH as (d & t & E & Hd). exists d, (v ++ sep ++ t). split; [|done].
  rewrite <- !app_assoc, <- E. simpl. by destruct l.
Qed.

Lemma join_solid sep l :
  l ≠ [] → Forall starts_solid l → Forall ends_solid l →
  starts_solid (join sep l) ∧ ends_solid (join sep l).
Proof.
  intros Hn F1 F2. split.
  - destruct l as [|w l]; [done|]. apply join_starts. by inversion F1.
  - destruct l as [|w l _] using rev_ind; [done|]. apply join_ends.
    by apply Forall_app in F2 as [_ [F2 _]%Forall_cons].
Qed.

Lemma solid_trims w : solid w = true → trim w = w.
Proof. by intros (_ & H & _)%solid_spec. Qed.

Lemma pending_flush s bs :
  simple_ok s = true → is_code s = false → flushAll (pending s bs) = clean (bs ++ [block_of s]).
Proof.
  destruct s as [lines|o items|lines|text]; intros H Hc; [..|done]; simpl in H.
  - apply andb_true_iff in H as [H1 H%Forall_forallb].
    assert (T : trim (join [LF] (map inline_text lines)) = join [LF] (map inline_text lines)
                ∧ join [LF] (map inline_text lines) ≠ []).
    { destruct (join_solid [LF] (map inline_text lines)) as [S1 S2].
      - by destruct lines.
      - eapply Forall_impl; [exact H|]. intros w (Hn & Ht & _)%plain_solid%solid_spec.
        by apply trimmed_solid.
      - eapply Forall_impl; [exact H|]. intros w (Hn & Ht & _)%plain_solid%solid_spec.
        by apply trimmed_ends.
      - split; [by apply trim_solid|]. by destruct S1 as (c & r & -> & _). }
    destruct T as [T Hne]. unfold flushAll, flushParagraph, pending. cbn [para].
    rewrite T. cbn [block_of]. by destruct (join [LF] (map inline_text lines)).
  - apply andb_true_iff in H as [H1 _]. destruct items as [|i items]; [done|].
    destruct o; done.
  - apply andb_true_iff in H as [[H1 H2]%andb_true_iff _]. apply eqs_true in H2.
    change (flushAll (pending (SQuote lines) bs)) with (flushQuote (pending (SQuote lines) bs)).
    unfold flushQuote, pending. cbn [quoteLines]. rewrite H2. cbn [block_of].
    by destruct (join [LF] (map inline_text lines)).
Qed.

(** *** A run of blocks without code *)

Fixpoint seg_lines (l : list Simple) : list str :=
  match l with
  | [] => []
  | [s] => lines_of s
  | s :: t => lines_of s ++ [] :: seg_lines t
  end.

Fixpoint seg_blocks (l : list Simple) : list MessageBlock :=
  match l with
  | [] => []
  | [s] => [block_of s]
  | s :: t => block_of s :: spacer :: seg_blocks t
  end.

Definition text_ok_block (s : Simple) : Prop := simple_ok s = true ∧ is_code s = false.

Lemma block_not_spacer s : block_of s ≠ spacer.
Proof. by destruct s as [|[]| |]. Qed.

Lemma seg_parse l bs :
  l ≠ [] → Forall text_ok_block l →
  flushAll (fold_left text_line (seg_lines l) (clean bs)) = clean (bs ++ seg_blocks l).
Proof.
  intros Hn F. revert bs Hn. induction F as [|s l [Hs Hc] F IH]; intros bs Hn; [done|].
  destruct l as [|s' l].
  - simpl. rewrite block_lines by done. by apply pending_flush.
  - change (seg_lines (s :: s' :: l)) with (lines_of s ++ [] :: seg_lines (s' :: l)).
    change (seg_blocks (s :: s' :: l)) with ([block_of s] ++ [spacer] ++ seg_blocks (s' :: l)).
    rewrite fold_left_app, block_lines, fold_line by done.
    change (text_line (pending s bs) []) with (push_spacer (flushAll (pending s bs))).
    rewrite pending_flush by done. unfold push_spacer. cbn [blocks clean]. rewrite last_snoc.
    replace (match block_of s with
             | spacer => clean (bs ++ [block_of s])
             | _ => push spacer (clean (bs ++ [block_of s])) end)
      with (clean ((bs ++ [block_of s]) ++ [spacer])).
    + rewrite IH by done. by rewrite <- !app_assoc.
    + pose proof (block_not_spacer s). by destruct (block_of s).
Qed.

(** *** Facts about what is written for a block *)

Lemma space_LF c : is_space c = false → is_LF c = false.
Proof. destruct c as [[] [] [] [] [] [] [] []]; done. Qed.

Lemma strip_around a w b :
  Forall (λ c, is_LF c = true) a → Forall (λ c, is_LF c = true) b →
  starts_solid w → ends_solid w → strip_newlines (a ++ w ++ b) = w.
Proof.
  intros Fa Fb (c & r & E & Hc) (d & t & E2 & Hd). unfold strip_newlines.
  rewrite E at 1. rewrite <- app_comm_cons.
  rewrite (drop_while_app is_LF a (r ++ b) c) by (done || by apply space_LF).
  rewrite app_comm_cons, <- E, E2, <- app_assoc, !reverse_app. simpl.
  rewrite <- app_assoc. simpl.
  rewrite (drop_while_app is_LF (reverse b) (reverse t) d).
  - by rewrite reverse_cons, reverse_involutive.
  - by apply Forall_reverse.
  - by apply space_LF.
Qed.

Lemma includes_skip p w :
  Forall (λ c, c ≠ BACKTICK) p → includes (p ++ w) fence = includes w fence.
Proof.
  intros F. induction F as [|c p Hc F IH]; [done|]. simpl.
  rewrite bool_decide_eq_false_2 by congruence. done.
Qed.

Lemma fence_then_LF a b :
  includes a fence = false → includes b fence = false → includes (a ++ LF :: b) fence = false.
Proof.
  intros Ha Hb. induction a as [|c a IH]; [exact Hb|].
  assert (Ha' : includes a fence = false ∧ startsWith (c :: a) fence = false).
  { unfold includes in Ha. fold includes in Ha. by apply orb_false_iff in Ha as [? ?]. }
  destruct Ha' as [Ha1 Ha2]. rewrite <- app_comm_cons.
  change (includes (c :: a ++ LF :: b) fence)
    with (startsWith (c :: a ++ LF :: b) fence || includes (a ++ LF :: b) fence).
  rewrite IH by done. rewrite orb_false_r.
  destruct a as [|d [|e a]]; simpl in *; repeat case_bool_decide; done.
Qed.

Lemma join_no_fence l :
  Forall (λ w, includes w fence = false) l → includes (join [LF] l) fence = false.
Proof.
  intros F. induction F as [|w l Hw F IH]; [done|]. destruct l as [|v l]; [done|].
  change (join [LF] (w :: v :: l)) with (w ++ LF :: join [LF] (v :: l)).
  by apply fence_then_LF.
Qed.

(** A fence is found after text without one that ends its line. *)
Lemma not_at_text v t :
  includes v fence = false → v ≠ [] → last v = Some LF → startsWith (v ++ t) fence = false.
Proof.
  intros Hi Hn Hl. destruct v as [|c v]; [done|].
  assert (Hs : startsWith (c :: v) fence = false).
  { unfold includes in Hi. fold includes in Hi. by apply orb_false_iff in Hi as [? ?]. }
  destruct v as [|d [|e v]]; simpl in *; simplify_eq; repeat case_bool_decide; done.
Qed.

Lemma lit_fails w s k : startsWith (rest s) w = false → lit w s k = None.
Proof.
  revert s. induction w as [|c w IH]; intros s H; [by destruct (rest s)|].
  simpl. unfold seq, chr. destruct (rest s) as [|d r] eqn:E; [done|]. simpl in H.
  case_bool_decide as Hd; case_bool_decide as Hd'; try congruence.
  apply IH. done.
Qed.

Lemma suffix_no_fence u v : includes (u ++ v) fence = false → includes v fence = false.
Proof.
  induction u as [|c u IH]; [done|]. rewrite <- app_comm_cons. intros H.
  change (includes (c :: u ++ v) fence)
    with (startsWith (c :: u ++ v) fence || includes (u ++ v) fence) in H.
  apply orb_false_iff in H as [_ H]. auto.
Qed.

Lemma search_skip m b pre t :
  includes pre fence = false → (pre = [] ∨ last pre = Some LF) →
  search (seq (lit fence) m) b (pre ++ t) = search (seq (lit fence) m) (reverse pre ++ b) t.
Proof.
  revert b. induction pre as [|c pre IH]; intros b Hi Hl; [done|].
  destruct Hl as [?|Hl]; [done|].
  assert (N : seq (lit fence) m (RState b (c :: pre ++ t) []) Some = None).
  { unfold seq. apply lit_fails. cbn [rest]. rewrite app_comm_cons. by apply not_at_text. }
  rewrite <- app_comm_cons. cbn [search]. rewrite N, IH.
  - by rewrite reverse_cons, <- app_assoc.
  - by apply (suffix_no_fence [c]).
  - destruct pre as [|d pre]; [by left|]. right. by rewrite last_cons_cons in Hl.
Qed.

Lemma search_no_fence m b w :
  includes w fence = false → search (seq (lit fence) m) b w = None.
Proof.
  revert b. induction w as [|c w IH]; intros b Hi; [done|].
  assert (Hs : startsWith (c :: w) fence = false ∧ includes w fence = false).
  { unfold includes in Hi. fold includes in Hi. by apply orb_false_iff in Hi as [? ?]. }
  cbn [search]. unfold seq at 1. rewrite lit_fails by apply Hs. apply IH, Hs.
Qed.

Lemma lazy_go_first b w t cs k x :
  (∀ u v, w = u ++ v → v ≠ [] → k (RState (reverse u ++ b) (v ++ t) cs) = None) →
  k (RState (reverse w ++ b) t cs) = Some x →
  lazy_go (λ _, true) b (w ++ t) cs k = Some x.
Proof.
  revert b. induction w as [|c w IH]; intros b Hf Hk.
  - simpl in *. destruct t; simpl; by rewrite Hk.
  - assert (N : k (RState b (c :: w ++ t) cs) = None) by (by apply (Hf [] (c :: w))).
    simpl. rewrite N. apply IH.
    + intros u v -> Hv. rewrite <- (Hf (c :: u) v eq_refl Hv).
      by rewrite reverse_cons, <- app_assoc.
    + by rewrite reverse_cons, <- app_assoc in Hk.
Qed.

(** The match of a code block. *)
Lemma fence_match b text t :
  includes text fence = false →
  ∃ e, fence_pattern (RState b (fence ++ LF :: text ++ LF :: fence ++ t) []) Some = Some e
       ∧ rest e = t ∧ cap 1 e = [] ∧ cap 2 e = text ++ [LF].
Proof.
  intros Hi.
  set (b1 := BACKTICK :: BACKTICK :: BACKTICK :: b).
  set (k := λ s' : rstate, alt (lit fence) eol
    (RState (before s') (rest s')
       ((2%nat, consumed (RState (LF :: b1) (text ++ LF :: fence ++ t) [(1%nat, [])]) s')
        :: caps s')) Some).
  set (e := RState (rev fence ++ reverse (text ++ [LF]) ++ LF :: b1) t
              [(2%nat, text ++ [LF]); (1%nat, [])]).
  assert (K : lazy_go (λ _, true) (LF :: b1) ((text ++ [LF]) ++ fence ++ t) [(1%nat, [])] k
              = Some e).
  { apply lazy_go_first.
    - intros u v E Hv. unfold k, alt. cbn [rest before caps].
      rewrite lit_fails; cbn [rest].
      + unfold eol. simpl. by destruct v.
      + apply not_at_text; [|done|].
        * apply (suffix_no_fence u). rewrite <- E. by apply fence_then_LF.
        * destruct v as [|c v _] using rev_ind; [done|]. rewrite app_assoc in E.
          apply app_inj_tail in E as [_ <-]. apply last_snoc.
    - unfold k. cbn [rest before caps].
      rewrite (consumed_word _ _ (text ++ [LF])) by done. done. }
  exists e. split; [|done].
  rewrite <- app_assoc in K. change ([LF] ++ fence ++ t) with (LF :: fence ++ t) in K.
  set (R := text ++ LF :: fence ++ t) in *. set (s1 := RState b1 (LF :: R) []).
  set (tail_pattern := seq (opt (chr is_LF))
    (seq (group 2 (lazy_star (λ _, true))) (alt (lit fence) eol))).
  transitivity (tail_pattern (RState b1 (LF :: R) [(1%nat, consumed s1 s1)]) Some); [reflexivity|].
  rewrite (consumed_word s1 s1 []) by done.
  transitivity (match lazy_go (λ _, true) (LF :: b1) R [(1%nat, [])] k with
    | Some r => Some r
    | None => seq (group 2 (lazy_star (λ _, true))) (alt (lit fence) eol)
                (RState b1 (LF :: R) [(1%nat, [])]) Some end); [reflexivity|].
  by rewrite K.
Qed.

Lemma cap_code text : strip_newlines text = text → strip_newlines (text ++ [LF]) = text.
Proof.
  intros H. unfold strip_newlines in *.
  destruct (drop_while is_LF text) as [|c r] eqn:E.
  - simpl in H. by subst text.
  - destruct (drop_while_suffix is_LF text) as (k & Ek & Fk). rewrite E in Ek.
    pose proof (drop_while_head _ _ _ _ E) as Hc.
    rewrite Ek, <- app_assoc, <- app_comm_cons, (drop_while_app is_LF k (r ++ [LF]) c) by done.
    rewrite app_comm_cons, reverse_app. simpl. rewrite H. done.
Qed.

(** What the parser needs of the lines of a block. *)
Definition line_ok (w : str) : Prop := LF ∉ w ∧ includes w fence = false.

Definition writable (s : Simple) : Prop :=
  lines_of s ≠ [] ∧ Forall line_ok (lines_of s) ∧ starts_solid (piece s) ∧ ends_solid (piece s).

Lemma solid_lines_writable s :
  is_code s = false → lines_of s ≠ [] →
  Forall (λ w, line_ok w ∧ starts_solid w ∧ ends_solid w) (lines_of s) → writable s.
Proof.
  intros Hc Hn F. split; [done|]. split; [eapply Forall_impl; [exact F|by intros ? (? & ? & ?)]|].
  assert (E : piece s = join [LF] (lines_of s)) by (by destruct s). rewrite E.
  apply join_solid; [done|eapply Forall_impl; [exact F|by intros ? (? & ? & ?)]..].
Qed.

Lemma solid_line w : solid w = true → line_ok w ∧ starts_solid w ∧ ends_solid w.
Proof.
  intros (H1 & H2 & H3 & H4)%solid_spec. split_and!; [split|..].
  - by apply dots_no_LF.
  - by apply negb_true_iff.
  - by apply trimmed_solid.
  - by apply trimmed_ends.
Qed.

Lemma paragraph_writable lines : simple_ok (SParagraph lines) = true → writable (SParagraph lines).
Proof.
  simpl. intros [H1 H%Forall_forallb]%andb_true_iff. apply solid_lines_writable; [done| |].
  - by destruct lines.
  - eapply Forall_impl; [exact H|]. intros w Hw. by apply solid_line, plain_solid.
Qed.

(** The marker of a list item. *)
Lemma marker_ok (o : bool) (i : nat) :
  let m := if o then str_of_Z (Z.of_nat i + 1) ++ js "." else js "-" in
  Forall (λ c, c ≠ BACKTICK ∧ c ≠ LF) (m ++ js " ") ∧ starts_solid m.
Proof.
  destruct o; simpl; [|split; [by repeat constructor|by exists "-"%char, []]].
  pose proof (str_of_Z_digits (Z.of_nat i + 1) ltac:(lia)) as D.
  pose proof (str_of_Z_nonempty (Z.of_nat i + 1)) as Hn. split.
  - rewrite <- app_assoc. apply Forall_app. split; [|by repeat constructor].
    eapply Forall_impl; [exact D|]. intros c Hd. by split; intros ->.
  - destruct (str_of_Z (Z.of_nat i + 1)) as [|c d]; [done|]. exists c, (d ++ js ".").
    split; [done|]. apply digit_not_space. by inversion D.
Qed.

Lemma list_writable o items : simple_ok (SList o items) = true → writable (SList o items).
Proof.
  simpl. intros [H1 H%Forall_forallb]%andb_true_iff. apply solid_lines_writable; [done| |].
  - intros E%(f_equal length). simpl in E. rewrite length_imap in E. by destruct items.
  - apply Forall_forall. intros w Hw. cbn [lines_of] in Hw.
    apply elem_of_lookup_imap in Hw as (i & x & -> & Hx).
    apply (list_elem_of_lookup_2 _ i) in Hx. rewrite Forall_forall in H.
    apply H, solid_line in Hx as ([Hx1 Hx2] & _ & (d & t & -> & Hd)).
    destruct (marker_ok o i) as [M (c & r & Er & Hc)]. cbv beta. rewrite Er in M |- *.
    rewrite app_assoc. split_and!; [split|..].
    + apply not_elem_of_app. split; [|done]. intros Hin. rewrite Forall_forall in M.
      by destruct (M _ Hin).
    + rewrite includes_skip; [done|]. eapply Forall_impl; [exact M|]. by intros ? [? ?].
    + by exists c, ((r ++ js " ") ++ t ++ [d]).
    + exists d, (((c :: r) ++ js " ") ++ t). by rewrite !app_assoc.
Qed.

(** The last line of text that ends solid ends solid, and is not empty. *)
Lemma join_last_ends l w : ends_solid (join [LF] (l ++ [w])) → ends_solid w.
Proof.
  intros (c & t & E & Hc).
  assert (J : ∃ p, join [LF] (l ++ [w]) = p ++ w ∧ (w = [] → p = [] ∨ ∃ q, p = q ++ [LF])).
  { clear. induction l as [|v l (p & E & Hp)]; [exists []; by split; [|left]|].
    exists (v ++ LF :: p). split.
    - transitivity (v ++ LF :: (p ++ w)); [|by rewrite <- app_assoc].
      rewrite <- E. by destruct l.
    - intros Hw. right. destruct (Hp Hw) as [-> |[q ->]]; [by exists v|].
      exists (v ++ LF :: q). by rewrite <- app_assoc. }
  destruct J as (p & J & Hp). rewrite E in J.
  destruct w as [|x w _] using rev_ind.
  - rewrite app_nil_r in J. destruct (Hp eq_refl) as [-> |[q ->]]; [by destruct t|].
    apply app_inj_tail in J as [_ ->]. done.
  - exists x, w. split; [done|]. rewrite app_assoc in J. by apply app_inj_tail in J as [_ <-].
Qed.

Lemma quote_writable lines : simple_ok (SQuote lines) = true → writable (SQuote lines).
Proof.
  simpl. intros [[H1 H2]%andb_true_iff H%Forall_forallb]%andb_true_iff. apply eqs_true in H2.
  assert (Hj : join [LF] (map inline_text lines) ≠ []) by (by intros E; rewrite E in H1).
  pose proof (trimmed_ends _ Hj H2) as He. clear H1 H2.
  destruct lines as [|l lines _] using rev_ind; [done|].
  split; [|split]; simpl.
  - by destruct lines.
  - apply Forall_map. eapply Forall_impl; [exact H|]. intros w [Hw Hf]%andb_true_iff.
    apply Forall_forallb, dots_no_LF in Hw. apply negb_true_iff in Hf.
    split; [simpl; set_solver|done].
  - split.
    + destruct lines as [|l0 ls]; [by apply join_starts; exists ">"%char, (" "%char :: inline_text l)|].
      by apply join_starts; exists ">"%char, (" "%char :: inline_text l0).
    + rewrite !map_app. apply join_ends. rewrite map_app in He.
      apply join_last_ends in He as (x & w & E & Hx). exists x, (js "> " ++ w).
      split; [|done]. by rewrite E.
Qed.

Lemma text_writable s : text_ok_block s → writable s.
Proof.
  intros [H Hc]. destruct s; [by apply paragraph_writable|by apply list_writable|
    by apply quote_writable|done].
Qed.

(** *** The whole document *)

Lemma join_app sep (a b : list str) :
  a ≠ [] → b ≠ [] → join sep (a ++ b) = join sep a ++ sep ++ join sep b.
Proof.
  intros Ha Hb. induction a as [|x a IH]; [done|]. destruct a as [|y a].
  - simpl. by destruct b.
  - change (join sep ((x :: y :: a) ++ b)) with (x ++ sep ++ join sep ((y :: a) ++ b)).
    change (join sep (x :: y :: a)) with (x ++ sep ++ join sep (y :: a)).
    rewrite IH by done. by rewrite <- !app_assoc.
Qed.

Definition markdown (l : list Simple) : str := join [LF; LF] (map piece l).

Lemma seg_lines_facts l :
  l ≠ [] → Forall text_ok_block l → seg_lines l ≠ [] ∧ Forall line_ok (seg_lines l).
Proof.
  intros Hn F. induction F as [|s l H F IH]; [done|].
  destruct (text_writable s H) as (H1 & H2 & _). destruct l as [|s' l]; [done|].
  change (seg_lines (s :: s' :: l)) with (lines_of s ++ [] :: seg_lines (s' :: l)).
  split; [by destruct (lines_of s)|]. apply Forall_app. split; [done|]. constructor.
  - split; [apply not_elem_of_nil|done].
  - by apply IH.
Qed.

Lemma seg_markdown l : l ≠ [] → Forall text_ok_block l → markdown l = join [LF] (seg_lines l).
Proof.
  intros Hn F. induction F as [|s l H F IH]; [done|].
  assert (E : piece s = join [LF] (lines_of s)) by (destruct H; by destruct s).
  destruct l as [|s' l]; [exact E|].
  change (seg_lines (s :: s' :: l)) with (lines_of s ++ [] :: seg_lines (s' :: l)).
  change (markdown (s :: s' :: l)) with (piece s ++ [LF; LF] ++ markdown (s' :: l)).
  destruct (text_writable s H) as (H1 & _). destruct (seg_lines_facts (s' :: l)) as [H2 _]; [done..|].
  rewrite join_app, E, IH by done. destruct (seg_lines (s' :: l)); done.
Qed.

Lemma seg_solid l :
  l ≠ [] → Forall text_ok_block l →
  starts_solid (markdown l) ∧ ends_solid (markdown l) ∧ includes (markdown l) fence = false.
Proof.
  intros Hn F. assert (W : Forall writable l)
    by (eapply Forall_impl; [exact F|]; intros s; apply text_writable).
  assert (S : starts_solid (markdown l) ∧ ends_solid (markdown l)).
  { apply join_solid; [by destruct l|apply Forall_map; eapply Forall_impl; [exact W|]..];
      intros s (_ & _ & ? & ?); done. }
  split_and!; [apply S|apply S|]. rewrite seg_markdown by done. apply join_no_fence.
  eapply Forall_impl; [by apply seg_lines_facts|]. by intros w [_ ?].
Qed.

Lemma append_segment bs l a b :
  l ≠ [] → Forall text_ok_block l →
  Forall (λ c, is_LF c = true) a → Forall (λ c, is_LF c = true) b →
  appendTextBlocks bs (a ++ markdown l ++ b) = bs ++ seg_blocks l.
Proof.
  intros Hn F Fa Fb. destruct (seg_solid l Hn F) as (S1 & S2 & _). unfold appendTextBlocks.
  rewrite strip_around by done. rewrite seg_markdown by done.
  destruct (seg_lines_facts l Hn F) as [L1 L2]. rewrite split_join; [|done|].
  - by rewrite seg_parse.
  - eapply Forall_impl; [exact L2|]. by intros w [? _].
Qed.

Lemma append_blank bs b :
  last bs = Some b → b ≠ spacer → appendTextBlocks bs [LF; LF] = bs ++ [spacer].
Proof.
  intros Hl Hb. change (appendTextBlocks bs [LF; LF])
    with (blocks (flushAll (push_spacer (clean bs)))).
  unfold push_spacer. cbn [blocks clean]. rewrite Hl. by destruct b.
Qed.

(** The text from a block on, after the code that precedes it. *)
Definition from_block (first : bool) (l : list Simple) : str :=
  match l with
  | [] => []
  | _ => (if first then [] else [LF; LF]) ++ markdown l
  end.

Definition layout_from (first : bool) (l : list Simple) : list MessageBlock :=
  match l with
  | [] => []
  | s :: _ => (if negb first && is_code s then [spacer] else []) ++ layout l
  end.

Lemma layout_segment l :
  l ≠ [] → Forall text_ok_block l → layout l = seg_blocks l.
Proof.
  intros Hn F. induction F as [|s l [_ Hc] F IH]; [done|]. destruct l as [|s' l]; [done|].
  apply Forall_cons in F as [[_ Hc'] _].
  change (layout (s :: s' :: l)) with (block_of s ::
    if Bool.eqb (is_code s) (is_code s') then spacer :: layout (s' :: l) else layout (s' :: l)).
  rewrite Hc, Hc', IH by done. done.
Qed.

Lemma layout_code text l : layout (SCode text :: l) = code text [] :: layout_from false l.
Proof. destruct l as [|s l]; [done|]. simpl. by destruct (is_code s). Qed.

Lemma layout_segment_code l text t :
  l ≠ [] → Forall text_ok_block l →
  layout (l ++ SCode text :: t) = seg_blocks l ++ code text [] :: layout_from false t.
Proof.
  intros Hn F. induction F as [|s l [_ Hc] F IH]; [done|]. destruct l as [|s' l].
  - rewrite <- layout_code. simpl. rewrite Hc. done.
  - apply Forall_cons in F as [[_ Hc'] _].
    change (layout ((s :: s' :: l) ++ SCode text :: t)) with (block_of s ::
      if Bool.eqb (is_code s) (is_code s') then spacer :: layout ((s' :: l) ++ SCode text :: t)
      else layout ((s' :: l) ++ SCode text :: t)).
    rewrite Hc, Hc', IH by done. done.
Qed.

(** The blocks before the first piece of code. *)
Lemma split_code l :
  Forall (λ s, simple_ok s = true) l →
  ∃ seg r, l = seg ++ r ∧ Forall text_ok_block seg
           ∧ (r = [] ∨ ∃ text t, r = SCode text :: t).
Proof.
  intros F. induction F as [|s l H F (seg & r & -> & Fs & Hr)].
  - exists [], []. by split_and!; [| |left].
  - destruct (is_code s) eqn:Hc.
    + exists [], (s :: seg ++ r). split_and!; [done..|]. right. destruct s; try done. eauto.
    + exists (s :: seg), r. split_and!; [done|by constructor|done].
Qed.

Definition parsed (fuel : nat) (b r : str) (bs : list MessageBlock) : list MessageBlock :=
  let '(bs, tail) := parse_fences fuel b r bs in
  if truthy tail then appendTextBlocks bs tail else bs.

(** One turn of the loop: the text before a piece of code, and the code. *)
Lemma parsed_code fuel b pre text t bs :
  includes pre fence = false → (pre = [] ∨ last pre = Some LF) → simple_ok (SCode text) = true →
  ∃ b', parsed (S fuel) b (pre ++ piece (SCode text) ++ t) bs
        = parsed fuel b' t ((if truthy pre then appendTextBlocks bs pre else bs) ++ [code text []]).
Proof.
  intros Hi Hl H. cbn [simple_ok] in H. apply andb_true_iff in H as [H1%eqs_true H2%negb_true_iff].
  cbn [piece].
  destruct (fence_match (reverse pre ++ b) text t H2) as (e & He & Hr & C1 & C2).
  exists (before e). unfold parsed. cbn [parse_fences].
  unfold fence_pattern at 1. rewrite search_skip by done.
  replace ((fence ++ LF :: text ++ LF :: fence) ++ t)
    with (fence ++ LF :: text ++ LF :: fence ++ t)
    by (by rewrite <- !app_assoc, <- app_comm_cons, <- app_assoc).
  fold fence_pattern.
  assert (S : search fence_pattern (reverse pre ++ b) (fence ++ LF :: text ++ LF :: fence ++ t)
    = Some (RState (reverse pre ++ b) (fence ++ LF :: text ++ LF :: fence ++ t) [], e)).
  { change (fence ++ LF :: text ++ LF :: fence ++ t)
      with (BACKTICK :: BACKTICK :: BACKTICK :: LF :: text ++ LF :: fence ++ t) in He |- *.
    cbn [search]. by rewrite He. }
  rewrite S. cbn [rest]. rewrite C1, C2, Hr, cap_code by done.
  rewrite length_app, Nat.add_sub, take_app_length. done.
Qed.

Lemma parsed_end fuel b bs : parsed fuel b [] bs = bs.
Proof. destruct fuel; done. Qed.

Lemma parsed_text fuel b w bs :
  includes w fence = false → w ≠ [] → parsed (S fuel) b w bs = appendTextBlocks bs w.
Proof.
  intros Hi Hn. unfold parsed. cbn [parse_fences]. unfold fence_pattern.
  rewrite search_no_fence by done. by destruct w.
Qed.

Lemma from_block_code (first : bool) seg text t :
  from_block first (seg ++ SCode text :: t)
  = ((if first then [] else [LF; LF]) ++ match seg with [] => [] | _ => markdown seg ++ [LF; LF] end)
    ++ piece (SCode text) ++ from_block false t.
Proof.
  assert (E : markdown (SCode text :: t) = piece (SCode text) ++ from_block false t).
  { destruct t; [by rewrite app_nil_r|done]. }
  destruct seg as [|s seg].
  - rewrite app_nil_l. unfold from_block at 1. rewrite E. by rewrite app_nil_r.
  - change (from_block first ((s :: seg) ++ SCode text :: t))
      with ((if first then [] else [LF; LF]) ++ markdown ((s :: seg) ++ SCode text :: t)).
    unfold markdown at 1. rewrite map_app, join_app by done.
    change (join [LF; LF] (map piece (SCode text :: t))) with (markdown (SCode text :: t)).
    rewrite E. by rewrite <- !app_assoc.
Qed.

Lemma before_code_ok (first : bool) seg :
  Forall text_ok_block seg →
  let pre := (if first then [] else [LF; LF])
             ++ match seg with [] => [] | _ => markdown seg ++ [LF; LF] end in
  includes pre fence = false ∧ (pre = [] ∨ last pre = Some LF).
Proof.
  intros F pre. destruct seg as [|s seg].
  - subst pre. destruct first; [by split; [|left]|by split; [|right]].
  - destruct (seg_solid (s :: seg)) as (_ & _ & Hi); [done..|]. subst pre. split.
    + assert (H : includes (markdown (s :: seg) ++ [LF; LF]) fence = false)
        by (by apply fence_then_LF). destruct first; [exact H|]. exact H.
    + right. destruct first; rewrite ?app_assoc, last_app; done.
Qed.

Lemma newlines_only (first : bool) :
  Forall (λ c, is_LF c = true) (if first then [] else [LF; LF]).
Proof. destruct first; by repeat constructor. Qed.

(** The loop and the text after it, from a block on. When code precedes, [bs] ends with
    a block. *)
Lemma parse_blocks n l first fuel b bs :
  (length l <= n)%nat → (n < fuel)%nat → Forall (λ s, simple_ok s = true) l →
  (first = false → ∃ x, last bs = Some x ∧ x ≠ spacer) →
  parsed fuel b (from_block first l) bs = bs ++ layout_from first l.
Proof.
  revert l first fuel b bs. induction n as [|n IH]; intros l first fuel b bs Hn Hf F Hb.
  { destruct l; [|simpl in Hn; lia]. simpl. by rewrite parsed_end, app_nil_r. }
  destruct fuel as [|fuel]; [lia|].
  destruct (split_code l F) as (seg & r & -> & Fs & [-> |(text & t & ->)]).
  - rewrite app_nil_r in *. destruct seg as [|s seg].
    { simpl. by rewrite parsed_end, app_nil_r. }
    destruct (seg_solid (s :: seg)) as (S1 & _ & Hi); [done..|].
    assert (Hc : is_code s = false) by (apply Forall_cons in Fs as [[_ ?] _]; done).
    unfold layout_from. rewrite Hc, andb_false_r, app_nil_l, layout_segment by done.
    unfold from_block. rewrite parsed_text.
    + rewrite <- (app_nil_r (markdown (s :: seg))).
      apply append_segment; [done|done|apply newlines_only|constructor].
    + destruct first; exact Hi.
    + destruct S1 as (c & w & -> & _). by destruct first.
  - rewrite from_block_code. destruct (before_code_ok first seg Fs) as [P1 P2].
    apply Forall_app in F as [_ [Ft F]%Forall_cons].
    destruct (parsed_code fuel b _ text (from_block false t) bs P1 P2 Ft) as [b' ->].
    rewrite length_app in Hn. simpl in Hn.
    rewrite IH; [|lia|lia|done|intros _; rewrite last_snoc; by eexists].
    rewrite <- app_assoc. destruct seg as [|s seg].
    + rewrite app_nil_r. unfold layout_from at 2. cbn [app]. rewrite layout_code.
      destruct first; [done|]. destruct (Hb eq_refl) as (x & Hx & Hx').
      cbn [truthy]. rewrite (append_blank bs x) by done. by rewrite <- app_assoc.
    + assert (Hc : is_code s = false) by (apply Forall_cons in Fs as [[_ ?] _]; done).
      unfold layout_from at 2. cbn [app]. rewrite Hc, andb_false_r, app_nil_l.
      change (s :: seg ++ SCode text :: t) with ((s :: seg) ++ SCode text :: t).
      rewrite layout_segment_code by done.
      destruct (seg_solid (s :: seg)) as ((c & w & E & _) & _ & _); [done..|].
      pose proof (append_segment bs (s :: seg) (if first then [] else [LF; LF]) [LF; LF]
        ltac:(done) Fs (newlines_only first) (newlines_only false)) as A.
      assert (T : truthy ((if first then [] else [LF; LF]) ++ markdown (s :: seg) ++ [LF; LF]) = true)
        by (rewrite E; by destruct first).
      rewrite T, A. by rewrite <- app_assoc.
Qed.

Lemma layout_last l : l ≠ [] → ∃ b, last (layout l) = Some b ∧ b ≠ spacer.
Proof.
  intros Hn. induction l as [|s l IH]; [done|]. destruct l as [|s' l].
  - exists (block_of s). split; [done|apply block_not_spacer].
  - destruct IH as (b & Hb & Hs); [done|]. exists b. split; [|done].
    change (layout (s :: s' :: l)) with (block_of s ::
      if Bool.eqb (is_code s) (is_code s') then spacer :: layout (s' :: l) else layout (s' :: l)).
    destruct (Bool.eqb _ _); by rewrite !last_cons, Hb.
Qed.

Lemma pop_nothing l b : last l = Some b → b ≠ spacer → reverse (pop_spacers (reverse l)) = l.
Proof.
  intros Hl Hb. destruct l as [|x l _] using rev_ind; [done|]. rewrite last_snoc in Hl.
  injection Hl as ->. rewrite reverse_snoc.
  replace (pop_spacers (b :: reverse l)) with (b :: reverse l) by (by destruct b).
  by rewrite reverse_cons, reverse_involutive.
Qed.

Lemma piece_solid s : simple_ok s = true → starts_solid (piece s) ∧ ends_solid (piece s).
Proof.
  intros H. destruct (is_code s) eqn:Hc.
  - destruct s as [| | |text]; try done. split.
    + by exists BACKTICK, ([BACKTICK; BACKTICK] ++ LF :: text ++ LF :: fence).
    + exists BACKTICK, (fence ++ LF :: text ++ LF :: [BACKTICK; BACKTICK]). split; [|done].
      simpl. by rewrite <- !app_assoc.
  - by destruct (text_writable s) as (_ & _ & ? & ?).
Qed.

Lemma document_markdown l :
  l ≠ [] → Forall (λ s, simple_ok s = true) l → editorJsonToMarkdown (document l) = markdown l.
Proof.
  intros Hn F. cbn [document editorJsonToMarkdown]. rewrite map_map.
  rewrite (map_ext_Forall _ piece) by
    (eapply Forall_impl; [exact F|]; intros s; apply piece_text).
  apply trim_solid; apply join_solid; try (by destruct l); apply Forall_map;
    (eapply Forall_impl; [exact F|]; intros s Hs; by apply piece_solid).
Qed.

(** What is written in the composer is what readers see. A document of paragraphs
    (with line breaks and marked text), lists, quotations and code is sent as
    markdown, and the blocks parsed from it are those of the document, in order, with
    a spacer between two blocks of text (and two pieces of code); text that itself
    looks like block syntax is excluded by [simple_ok]. *)
Theorem document_roundtrip (l : list Simple) :
  l ≠ [] → forallb simple_ok l = true →
  parseMessageBlocks (editorJsonToMarkdown (document l)) = layout l.
Proof.
  intros Hn F%Forall_forallb. rewrite document_markdown by done.
  assert (Hlen : (length l <= length (markdown l))%nat).
  { clear Hn. induction F as [|s l H F IH]; [done|]. destruct (piece_solid s H) as [(c & r & E & _) _].
    unfold markdown in *. cbn [map]. destruct l as [|s' l]; [cbn [join map]; rewrite E; simpl; lia|].
    change (join [LF; LF] (piece s :: map piece (s' :: l)))
      with (piece s ++ [LF; LF] ++ join [LF; LF] (map piece (s' :: l))).
    rewrite E, !length_app. simpl length at 1. simpl length in IH |- *. lia. }
  pose proof (parse_blocks (length l) l true (S (length (markdown l))) [] [] (Nat.le_refl _)
    ltac:(lia) F ltac:(done)) as P.
  replace (from_block true l) with (markdown l) in P by (by destruct l).
  replace (layout_from true l) with (layout l) in P by (by destruct l).
  unfold parsed in P. unfold parseMessageBlocks.
  destruct (parse_fences _ _ _ _) as [bs tail]. rewrite P. cbn [app].
  destruct (layout_last l Hn) as (b & Hb & Hs). rewrite (pop_nothing _ b) by done.
  rewrite bool_decide_eq_false_2; [done|]. by intros E; rewrite E in Hb.
Qed.

Definition sample_document : list Simple :=
  let t s := [(js s, [])] in
  [SParagraph [t "hi"; [(js "you", [bold])]]; SList true [t "a"; t "b"]; SCode (js "x = 1");
   SQuote [t "q"; t "r"]].

Lemma document_roundtrip_witness :
  forallb simple_ok sample_document = true
  ∧ parseMessageBlocks (editorJsonToMarkdown (document sample_document)) = layout sample_document.
Proof. split; [vm_compute; reflexivity|]. apply document_roundtrip; [done|vm_compute; reflexivity]. Defined.
