(* ===== verification/MessageText.v ===== *)
(** * Plain text, previews and normalization of messages

    [plainMessageText] and [messagePreview] of [mobile/src/lib/message-format.ts]
    (notifications, inbox rows, replies), and [normalizeMessageMarkdown] of
    [web/src/lib/messageFormat.ts] (what the composer sends). *)

From S2P Require Import Prelude.
From S2P Require Import Regex.
From S2P Require Import Url.
From S2P Require Import MessageFormat.

(** ** Plain text *)

Definition not_char (l : list ascii) (c : ascii) : bool := negb (is_char l c).

(** [open([^close]+)close], which is replaced by its contents. *)
Definition delimited (left : str) (stop : ascii) (right : str) : matcher :=
  seq (lit left) (seq (group 1 (plus (not_char [stop]))) (lit right)).

Definition keep1 (_ : str) (e : rstate) : str := cap 1 e.
Definition erase (_ : str) (_ : rstate) : str := [].

(** [/```[\w-]*\n?/g] *)
Definition fence_open : matcher :=
  seq (lit fence) (seq (star (λ c, is_word c || bool_decide (c = "-"%char))) (opt (chr is_LF))).

(** [/\[([^\]]+)\]\(([^)]+)\)/g] *)
Definition markdown_link : matcher :=
  seq (lit (js "[")) (seq (group 1 (plus (not_char ["]"%char])))
    (seq (lit (js "](")) (seq (group 2 (plus (not_char [")"%char]))) (lit (js ")"))))).

(** [/^\s*>\s?/gm], [/^\s*[-*]\s+/gm] and [/^\s*\d+[.)]\s+/gm] *)
Definition quote_marker : matcher :=
  seq mbol (seq (star is_space) (seq (lit (js ">")) (opt (chr is_space)))).
Definition bullet_marker : matcher :=
  seq mbol (seq (star is_space) (seq (chr (is_char ["-"; "*"]%char)) (plus is_space))).
Definition number_marker : matcher :=
  seq mbol (seq (star is_space) (seq (plus is_digit) (seq (chr (is_char ["."; ")"]%char))
    (plus is_space)))).

Definition collapse_spaces (s : str) : str := replace_all (plus is_space) (λ _ _, js " ") s.

Definition plainMessageText (body fallback : str) : str :=
  let v := str_or body fallback in
  let v := replace_all fence_open erase v in
  let v := replace_all (lit fence) erase v in
  let v := replace_all markdown_link keep1 v in
  let v := replace_all (delimited [BACKTICK] BACKTICK [BACKTICK]) keep1 v in
  let v := replace_all (seq (lit [BACKTICK]) (upto 2 (lit [BACKTICK]))) erase v in
  let v := replace_all (delimited (js "**") "*" (js "**")) keep1 v in
  let v := replace_all (delimited (js "_") "_" (js "_")) keep1 v in
  let v := replace_all (delimited (js "~~") "~" (js "~~")) keep1 v in
  let v := replace_all (delimited (js "++") "+" (js "++")) keep1 v in
  let v := replace_all quote_marker erase v in
  let v := replace_all bullet_marker erase v in
  let v := replace_all number_marker erase v in
  let v := trim (collapse_spaces v) in
  str_or v fallback.

Definition messagePreview (body : str) (maxLength : Z) (fallback : str) : str :=
  let value := plainMessageText body fallback in
  if (maxLength <=? 0) || (Z.of_nat (length value) <=? maxLength) then value
  else trimEnd (slice value 0 (Z.max 0 (maxLength - 3))) ++ js "...".

Example preview_plain :
  messagePreview (js "**Hi** [there](https://x.y)" ++ [LF] ++ js "- one `two`") 80 (js "Attachment")
  = js "Hi there one two".
Proof. vm_compute. reflexivity. Qed.

(** ** Normalization before sending *)

Definition starts_fence (line : str) : bool := test (seq bol (seq (star is_space) (lit fence))) line.

(** [/^\s*(?:[-*]|\d+[.)])\s*$/] *)
Definition empty_marker (line : str) : bool :=
  test (seq bol (seq (star is_space)
    (seq (alt (chr (is_char ["-"; "*"]%char)) (seq (plus is_digit) (chr (is_char ["."; ")"]%char))))
      (seq (star is_space) eol)))) line.

(** The filter with its variable [insideCodeFence]. *)
Fixpoint keep_lines (inside : bool) (lines : list str) : list str :=
  match lines with
  | [] => []
  | line :: rest =>
      if starts_fence line then line :: keep_lines (negb inside) rest
      else if inside || negb (empty_marker line) then line :: keep_lines inside rest
      else keep_lines inside rest
  end.

Definition normalizeMessageMarkdown (body : str) : str :=
  let unix := replace_all (lit ["013"%char; LF]) (λ _ _, [LF]) body in
  let lines := keep_lines false (split_on LF unix) in
  trim (replace_all (seq (lit [LF; LF; LF]) (star is_LF)) (λ _ _, [LF; LF]) (join [LF] lines)).

Example normalize_drops_empty_items :
  normalizeMessageMarkdown (js "a" ++ [LF] ++ js "- " ++ [LF] ++ js "2." ++ [LF] ++ js "b")
  = js "a" ++ [LF] ++ js "b".
Proof. vm_compute. reflexivity. Qed.

(** Lines inside a code fence are kept, but runs of blank lines there are shortened. *)
Lemma blank_lines_in_code_collapse :
  let body := fence ++ [LF] ++ js "x" ++ [LF; LF; LF] ++ js "y" ++ [LF] ++ fence in
  normalizeMessageMarkdown body = fence ++ [LF] ++ js "x" ++ [LF; LF] ++ js "y" ++ [LF] ++ fence.
Proof. vm_compute. reflexivity. Qed.

(** ** Previews fit on one line *)

Definition no_class (p : ascii → bool) (s : str) : Prop := Forall (λ c, p c = false) s.

(** The leftmost run of a class. *)
Lemma search_plus p b r :
  match search (plus p) b r with
  | None => no_class p r
  | Some (s0, e) => ∃ skipped w, r = skipped ++ rest s0 ∧ no_class p skipped
                                 ∧ rest s0 = w ++ rest e ∧ w ≠ []
  end.
Proof.
  revert b. induction r as [|c r IH]; intros b; [constructor|]. cbn [search].
  destruct (plus p (RState b (c :: r) []) Some) as [e|] eqn:E.
  - apply (re_sound _ _ (plus_spec p)) in E as (s' & (w & [Hw _] & Hr & _) & [= <-]).
    exists [], w. split_and!; [done|constructor|exact Hr|done].
  - assert (Hc : p c = false).
    { destruct (p c) eqn:Hc; [|done].
      destruct (re_complete _ _ (plus_spec p) (RState b (c :: r) []) Some
        (RState (c :: b) r [])) as [x Hx]; [|by eexists|congruence].
      exists [c]. split; [|done]. split; [done|by constructor]. }
    specialize (IH (c :: b)). destruct (search (plus p) (c :: b) r) as [[s0 e]|].
    + destruct IH as (sk & w & -> & Hn & Hr & Hw). exists (c :: sk), w.
      split_and!; [done|by constructor|done|done].
    + by constructor.
Qed.

(** Only single spaces are left of the white space. *)
Definition one_line (s : str) : Prop := Forall (λ c, is_space c = true → c = " "%char) s.

Lemma no_space_one_line s : no_class is_space s → one_line s.
Proof. intros H. eapply Forall_impl; [exact H|]. simpl. congruence. Qed.

Lemma collapse_go fuel b r :
  (length r < fuel)%nat → one_line (replace_go fuel (plus is_space) (λ _ _, js " ") b r).
Proof.
  revert b r. induction fuel as [|fuel IH]; intros b r Hf; [lia|]. cbn [replace_go].
  pose proof (search_plus is_space b r) as S.
  destruct (search (plus is_space) b r) as [[s0 e]|]; [|by apply no_space_one_line].
  destruct S as (sk & w & -> & Hn & Hr & Hw).
  assert (Hlt : (length (rest e) < length (rest s0))%nat)
    by (rewrite Hr, length_app; destruct w; [done|simpl; lia]).
  rewrite bool_decide_eq_false_2 by lia.
  rewrite length_app, Nat.add_sub, take_app_length. rewrite length_app in Hf.
  apply Forall_app. split; [by apply no_space_one_line|]. apply Forall_app. split.
  - by repeat constructor.
  - apply IH. lia.
Qed.

Lemma trimEnd_prefix s : ∃ k, s = trimEnd s ++ k.
Proof.
  unfold trimEnd. destruct (drop_while_suffix is_space (reverse s)) as (k & E & _).
  exists (reverse k). rewrite <- reverse_app, <- E. by rewrite reverse_involutive.
Qed.

Lemma trim_part s (P : ascii → Prop) : Forall P s → Forall P (trim s).
Proof.
  intros F. unfold trim, trimStart. destruct (drop_while_suffix is_space s) as (k & E & _).
  rewrite E in F. apply Forall_app in F as [_ F].
  destruct (trimEnd_prefix (drop_while is_space s)) as [k' E']. rewrite E' in F.
  by apply Forall_app in F as [F _].
Qed.

Lemma plain_one_line body fallback :
  fallback ≠ [] →
  plainMessageText body fallback ≠ [] ∧
  (plainMessageText body fallback = fallback ∨ one_line (plainMessageText body fallback)).
Proof.
  intros Hf. unfold plainMessageText. cbv zeta.
  set (v := replace_all number_marker erase _). clearbody v.
  assert (O : one_line (trim (collapse_spaces v))) by (apply trim_part, collapse_go; lia).
  unfold str_or. destruct (trim (collapse_spaces v)) as [|c r]; simpl; [by split; [|left]|].
  split; [done|by right].
Qed.

(** A preview fits. A message always has one (the fallback when nothing is left of
    the text); it is at most [maxLength] characters long when that is three or more;
    and unless it is taken from the fallback it is on one line, white space collapsed
    to single space characters. *)
Theorem preview_fits (body fallback : str) (maxLength : Z) :
  fallback ≠ [] →
  let preview := messagePreview body maxLength fallback in
  preview ≠ []
  ∧ (3 <= maxLength → Z.of_nat (length preview) <= maxLength)
  ∧ (plainMessageText body fallback = fallback ∨ one_line preview).
Proof.
  intros Hf. cbv zeta. unfold messagePreview.
  destruct (plain_one_line body fallback Hf) as [Hne Hl].
  set (value := plainMessageText body fallback) in *. clearbody value.
  destruct (_ || _) eqn:B.
  - split_and!; [done| |done]. intros H3. apply orb_true_iff in B. lia.
  - apply orb_false_iff in B as [B1%Z.leb_gt B2%Z.leb_gt]. rewrite slice_take by lia.
    destruct (trimEnd_prefix (take (Z.to_nat (Z.max 0 (maxLength - 3))) value)) as [k E].
    split_and!.
    + by destruct (trimEnd _).
    + intros H3. apply (f_equal length) in E. rewrite length_app, length_take in E.
      rewrite length_app. simpl length at 2. lia.
    + destruct Hl as [->|Hl]; [by left|]. right. apply Forall_app. split; [|by repeat constructor].
      apply (Forall_take _ (Z.to_nat (Z.max 0 (maxLength - 3)))) in Hl. rewrite E in Hl.
      by apply Forall_app in Hl as [Hl _].
Qed.

Lemma preview_fits_witness :
  messagePreview (js "one two three four") 10 (js "Attachment") = js "one two..."
  ∧ Z.of_nat (length (messagePreview (js "one two three four") 10 (js "Attachment"))) <= 10.
Proof.
  split; [vm_compute; reflexivity|].
  apply (preview_fits (js "one two three four") (js "Attachment") 10); [done|lia].
Defined.

(** ** What is sent of a document *)

(** No two empty lines after each other. *)
Fixpoint calm (lines : list str) : bool :=
  match lines with
  | a :: (b :: _) as rest => (truthy a || truthy b) && calm rest
  | _ => true
  end.

Definition CR : ascii := "013"%char.

(** What the normalization leaves alone: text without carriage returns, no line of a paragraph
    that is only the mark of a list, and no two empty lines after each other in code. *)
Definition sendable (s : Simple) : bool :=
  negb (bool_decide (CR ∈ piece s))
  && match s with
     | SParagraph lines => forallb (λ w, negb (empty_marker w)) (map inline_text lines)
     | SCode text => calm (split_on LF text)
     | _ => true
     end.

(** *** Replacing what is not there *)

Lemma search_none m b r :
  (∀ b' r' a, r = a ++ r' → m (RState b' r' []) Some = None) → search m b r = None.
Proof.
  revert b. induction r as [|c r IH]; intros b H; cbn [search]; rewrite (H b _ []) by done; [done|].
  apply IH. intros b' r' a E. apply (H b' r' (c :: a)). by rewrite E.
Qed.

Lemma replace_none m f s :
  (∀ b r a, s = a ++ r → m (RState b r []) Some = None) → replace_all m f s = s.
Proof. intros H. unfold replace_all. cbn [replace_go]. by rewrite (search_none m [] s). Qed.

Lemma lit_none w m b r k : startsWith r w = false → seq (lit w) m (RState b r []) k = None.
Proof.
  intros H. unfold seq. destruct (lit w _ _) eqn:E; [|done].
  apply (re_sound _ _ (lit_spec w)) in E as (s' & (u & -> & R & _) & _). cbn in R. subst r.
  by rewrite startsWith_app in H.
Qed.

Lemma lit_only_none w b r k : startsWith r w = false → lit w (RState b r []) k = None.
Proof.
  intros H. destruct (lit w _ _) eqn:E; [|done].
  apply (re_sound _ _ (lit_spec w)) in E as (s' & (u & -> & R & _) & _). cbn in R. subst r.
  by rewrite startsWith_app in H.
Qed.

(** *** Lines *)

Definition block_lines (s : Simple) : list str :=
  match s with SCode text => fence :: split_on LF text ++ [fence] | _ => lines_of s end.

Fixpoint doc_lines (l : list Simple) : list str :=
  match l with
  | [] => []
  | s :: t => block_lines s ++ match t with [] => [] | _ => [] :: doc_lines t end
  end.

Lemma block_lines_ok s :
  simple_ok s = true → block_lines s ≠ [] ∧ Forall (λ w, LF ∉ w) (block_lines s) ∧ join [LF] (block_lines s) = piece s.
Proof.
  intros H. destruct (is_code s) eqn:C.
  - destruct s as [| | |text]; try done. cbn [block_lines piece]. split; [done|]. split.
    + constructor; [by vm_compute; set_solver|]. apply Forall_app. split; [|repeat constructor; by vm_compute; set_solver].
      apply Forall_forall. intros w W. by eapply split_on_no_sep.
    + assert (N : split_on LF text ≠ []) by (destruct text as [|c t]; cbn; [done|]; destruct (bool_decide _), (split_on LF t); done).
      destruct (split_on LF text) as [|x r] eqn:E; [done|].
      change (join [LF] (fence :: (x :: r) ++ [fence])) with (fence ++ [LF] ++ join [LF] ((x :: r) ++ [fence])).
      rewrite join_app by done. rewrite <- E, join_split_on. done.
  - destruct (text_writable s (conj H C)) as (W1 & W2 & _). split; [by destruct s|]. split.
    + destruct s; try done; (eapply Forall_impl; [exact W2|]); by intros w [? _].
    + by destruct s.
Qed.

Lemma doc_lines_ok l :
  l ≠ [] → Forall (λ s, simple_ok s = true) l →
  doc_lines l ≠ [] ∧ Forall (λ w, LF ∉ w) (doc_lines l) ∧ join [LF] (doc_lines l) = markdown l.
Proof.
  intros Hn F. induction F as [|s l H F IH]; [done|]. destruct (block_lines_ok s H) as (N & L & J).
  destruct l as [|s' l]; [cbn [doc_lines]; rewrite app_nil_r; split_and!; [exact N|exact L|exact J]|].
  destruct IH as (N' & L' & J'); [done|].
  change (doc_lines (s :: s' :: l)) with (block_lines s ++ [] :: doc_lines (s' :: l)).
  split; [by destruct (block_lines s)|]. split; [apply Forall_app; split; [done|]; constructor; [by apply not_elem_of_nil|exact L']|].
  rewrite join_app by done. rewrite J. change (markdown (s :: s' :: l)) with (piece s ++ [LF; LF] ++ markdown (s' :: l)).
  f_equal. destruct (doc_lines (s' :: l)) as [|x r] eqn:E; [done|]. rewrite <- J'. reflexivity.
Qed.

Definition filled (w : str) : Prop := w ≠ [].

Lemma calm_filled l : Forall filled l → calm l = true.
Proof.
  intros F. induction F as [|w l W F IH]; [done|]. destruct l as [|x l]; [done|]. cbn [calm] in *. rewrite IH.
  unfold filled in W. by destruct w.
Qed.

(** Two calm lists with an end that is filled where they meet. *)
Lemma calm_app a w b : filled w → calm (a ++ [w]) = true → calm b = true → calm (a ++ w :: b) = true.
Proof.
  intros W. induction a as [|x a IH]; intros A B.
  - destruct b as [|y b]; [done|]. cbn [app calm]. cbn [calm] in B. rewrite B. unfold filled in W. by destruct w.
  - destruct a as [|y a]; cbn [app] in *.
    + cbn [calm] in A |- *. apply andb_true_iff in A as [A _]. rewrite A. by apply IH.
    + change (calm (x :: y :: a ++ [w])) with ((truthy x || truthy y) && calm (y :: a ++ [w])) in A.
      change (calm (x :: y :: a ++ w :: b)) with ((truthy x || truthy y) && calm (y :: a ++ w :: b)).
      apply andb_true_iff in A as [A1 A2]. rewrite A1. by apply IH.
Qed.

Lemma calm_cons w b : filled w → calm b = true → calm (w :: b) = true.
Proof. intros W B. by apply (calm_app [] w b). Qed.

Lemma calm_snoc a w : filled w → calm a = true → calm (a ++ [w]) = true.
Proof.
  intros W. induction a as [|x a IH]; intros A; [done|]. destruct a as [|y a].
  - cbn. unfold filled in W. destruct w; [done|]. by rewrite orb_true_r.
  - change (calm ((x :: y :: a) ++ [w])) with ((truthy x || truthy y) && calm ((y :: a) ++ [w])).
    change (calm (x :: y :: a)) with ((truthy x || truthy y) && calm (y :: a)) in A.
    apply andb_true_iff in A as [A1 A2]. rewrite A1. by apply IH.
Qed.

(** The lines of a block other than code are filled. *)
Lemma block_filled s : simple_ok s = true → is_code s = false → Forall filled (lines_of s).
Proof.
  intros H C. destruct s as [lines|o items|lines|]; try done; cbn [simple_ok] in H; apply andb_true_iff in H as [_ H%Forall_forallb].
  - cbn. eapply Forall_impl; [exact H|]. intros w P. by apply plain_solid, solid_spec in P as (? & _).
  - cbn. apply Forall_forall. intros w (i & x & -> & _)%elem_of_lookup_imap. unfold filled. destruct o; [|done].
    by destruct (str_of_Z (Z.of_nat i + 1)).
  - cbn. rewrite map_map. apply Forall_forall. intros w (x & -> & _)%list_elem_of_fmap. done.
Qed.

(** The first and the last line of a block are filled, and the lines are calm. *)
Lemma block_calm s :
  simple_ok s = true → sendable s = true →
  calm (block_lines s) = true ∧ ∃ a w, block_lines s = a ++ [w] ∧ filled w ∧ ∃ v b, block_lines s = v :: b ∧ filled v.
Proof.
  intros H S. destruct (is_code s) eqn:C.
  - destruct s as [| | |text]; try done. cbn [block_lines]. unfold sendable in S. apply andb_true_iff in S as [_ S]. split.
    + apply calm_cons; [done|]. by apply calm_snoc.
    + exists (fence :: split_on LF text), fence. split_and!; [done|done|]. by exists fence, (split_on LF text ++ [fence]).
  - pose proof (block_filled s H C) as F. destruct (block_lines_ok s H) as (N & _ & _).
    assert (E : block_lines s = lines_of s) by (by destruct s). rewrite E in *. split; [by apply calm_filled|].
    destruct (lines_of s) as [|v b] eqn:L; [done|]. destruct (exists_last N) as (a & w & A). exists a, w. split; [exact A|].
    split; [|exists v, b; split; [done|by inversion F]]. rewrite A in F. apply Forall_app in F as [_ F]. by inversion F.
Qed.

Lemma doc_calm l :
  Forall (λ s, simple_ok s = true) l → Forall (λ s, sendable s = true) l →
  calm (doc_lines l) = true ∧ (l ≠ [] → ∃ v b, doc_lines l = v :: b ∧ filled v).
Proof.
  induction l as [|s l IH]; intros F S; [done|]. inversion F; inversion S; subst.
  destruct (block_calm s) as (B & a & w & A & W & v & b & V & Fv); [done..|]. destruct l as [|s' l].
  - cbn [doc_lines]. rewrite app_nil_r. split; [done|]. intros _. eauto.
  - destruct IH as (D & (v' & b' & E & Fv')); [done..|]. 
    change (doc_lines (s :: s' :: l)) with (block_lines s ++ [] :: doc_lines (s' :: l)). rewrite A in B. split.
    + rewrite A, <- app_assoc. apply calm_app; [done|done|]. rewrite E in *.
      change (calm ([] :: v' :: b')) with (truthy v' && calm (v' :: b')). rewrite D. by destruct v'.
    + intros _. rewrite V. by exists v, (b ++ [] :: doc_lines (s' :: l)).
Qed.

(** Calm lines have no three line feeds after each other. *)
Lemma calm_no_run ls :
  Forall (λ w, LF ∉ w) ls → calm ls = true → ∀ a r, join [LF] ls = a ++ r → startsWith r [LF; LF; LF] = false.
Proof.
  assert (NL : ∀ c r, c ≠ LF → startsWith (c :: r) [LF; LF; LF] = false).
  { intros c r H. cbn [startsWith]. rewrite bool_decide_eq_false_2; [done|]. congruence. }
  induction ls as [|w ls IH]; intros F C a r E.
  { cbn in E. symmetry in E. apply app_eq_nil in E as [_ ->]. done. }
  inversion F as [|? ? Hw Fl]; subst. destruct ls as [|x ls].
  { cbn in E. destruct r as [|c r]; [done|]. apply NL. intros ->. apply Hw. rewrite E. set_solver. }
  change (calm (w :: x :: ls)) with ((truthy w || truthy x) && calm (x :: ls)) in C. apply andb_true_iff in C as [C1 C2].
  change (join [LF] (w :: x :: ls)) with (w ++ LF :: join [LF] (x :: ls)) in E.
  assert (J : startsWith (LF :: join [LF] (x :: ls)) [LF; LF; LF] = false).
  { destruct x as [|c x].
    - destruct w as [|d w]; [done|]. destruct ls as [|y ls]; [done|].
      change (join [LF] ([] :: y :: ls)) with (LF :: join [LF] (y :: ls)).
      change (calm ([] :: y :: ls)) with (truthy y && calm (y :: ls)) in C2. apply andb_true_iff in C2 as [C2 _].
      destruct y as [|e y]; [done|]. inversion Fl as [|? ? _ Fl2]; subst. inversion Fl2 as [|? ? Hy _]; subst.
      assert (e ≠ LF) by set_solver. destruct ls; cbn [join app startsWith]; rewrite (bool_decide_eq_false_2 (LF = e)) by congruence;
        by rewrite !andb_false_r.
    - inversion Fl as [|? ? Hx _]; subst. assert (c ≠ LF) by set_solver.
      destruct ls; cbn [join app startsWith]; rewrite (bool_decide_eq_false_2 (LF = c)) by congruence; by rewrite andb_false_r. }
  destruct (app_eq_inv _ _ _ _ E) as [(k & -> & K)|(k & -> & K)].
  - destruct k as [|c k]; [by rewrite K|]. rewrite K. apply NL. intros ->. apply Hw. set_solver.
  - destruct k as [|c k]; [cbn [app] in K; by rewrite <- K|]. injection K as <- K. by apply (IH Fl C2 k r).
Qed.

(** *** The lines that are kept *)

Lemma includes_app a w b : includes (a ++ w ++ b) w = true.
Proof.
  induction a as [|c a IH]; cbn [app].
  - destruct (w ++ b) eqn:E; cbn [includes]; rewrite <- E, startsWith_app; done.
  - cbn [includes]. rewrite IH. by rewrite orb_true_r.
Qed.

Lemma includes_split s w : includes s w = true → ∃ a b, s = a ++ w ++ b.
Proof.
  induction s as [|c s IH]; cbn [includes]; intros [H|H]%orb_true_iff.
  - apply startsWith_spec in H as [r ->]. by exists [], r.
  - done.
  - apply startsWith_spec in H as [r ->]. by exists [], r.
  - destruct (IH H) as (a & b & ->). by exists (c :: a), b.
Qed.

Lemma no_fence_start w : includes w fence = false → starts_fence w = false.
Proof.
  intros H. unfold starts_fence. rewrite test_bol. destruct (seq (star is_space) (lit fence) _ _) eqn:E; [|done].
  apply (re_sound _ _ (seq_consumes _ _ _ _ (star_spec is_space) (lit_spec fence))) in E as (s' & (u & (a & b & -> & _ & ->) & R & _) & _).
  cbn in R. rewrite R, <- app_assoc, includes_app in H. done.
Qed.

(** A line that is only the mark of a list is the mark between spaces. *)
Lemma empty_marker_sound w :
  empty_marker w = true →
  ∃ sp mark sp', w = sp ++ mark ++ sp' ∧ Forall (λ c, is_space c = true) sp ∧ Forall (λ c, is_space c = true) sp'
    ∧ mark ≠ [] ∧ Forall (λ c, c = "-"%char ∨ c = "*"%char ∨ is_digit c = true ∨ c = "."%char ∨ c = ")"%char) mark.
Proof.
  intros H. unfold empty_marker in H. rewrite test_bol in H. destruct (seq (star is_space) _ _ _) eqn:E; [|done]. clear H.
  assert (K := seq_consumes _ _ _ _ (star_spec is_space)
    (seq_consumes _ _ _ _ (alt_consumes _ _ _ _ (chr_spec (is_char ["-"; "*"]%char))
       (seq_consumes _ _ _ _ (plus_spec is_digit) (chr_spec (is_char ["."; ")"]%char)))) (star_spec is_space))).
  assert (M : ∀ m1 m2 m3 m4 s k, seq m1 (seq m2 (seq m3 m4)) s k = seq (seq m1 (seq m2 m3)) m4 s k) by done.
  rewrite M in E. apply (re_sound _ _ (seq_spec _ _ _ _ K eol_spec)) in E as (s' & (s1 & (u & U & R & _) & Re & ->) & _).
  cbn in R. rewrite Re, app_nil_r in R. subst w. destruct U as (sp & v & -> & F & (mark & sp' & -> & Mk & F')).
  exists sp, mark, sp'. split_and!; try done.
  - destruct Mk as [(c & -> & _)|(ds & z & -> & (D & _) & _)]; [done|]. by destruct ds.
  - assert (T : ∀ l c, is_char l c = true → c ∈ l) by (intros l c Hc; by apply has_true).
    destruct Mk as [(c & -> & Hc)|(ds & z & -> & (_ & D) & (c & -> & Hc))].
    + apply T in Hc. rewrite !elem_of_cons, elem_of_nil in Hc. constructor; [tauto|constructor].
    + apply T in Hc. rewrite !elem_of_cons, elem_of_nil in Hc. apply Forall_app. split; [|constructor; [tauto|constructor]]. eapply Forall_impl; [exact D|]. cbn. tauto.
Qed.

(** A trimmed line with a space in it is not only a mark. *)
Lemma spaced_not_marker w : starts_solid w → ends_solid w → " "%char ∈ w → empty_marker w = false.
Proof.
  intros (c & r & E & Hc) (d & t & E2 & Hd) S. destruct (empty_marker w) eqn:M; [|done]. exfalso.
  apply empty_marker_sound in M as (sp & mark & sp' & W & F & F' & N & K).
  assert (sp = []) as ->. { destruct sp as [|x sp]; [done|]. inversion F; subst. injection W as ->. congruence. }
  assert (sp' = []) as ->.
  { destruct sp' as [|y sp' _] using rev_ind; [done|]. apply Forall_app in F' as [_ F']. inversion F'; subst.
    rewrite !app_assoc in W. rewrite W in E2. apply app_inj_tail in E2 as [_ ->]. congruence. }
  rewrite app_nil_r in W. cbn in W. rewrite W in S. rewrite Forall_forall in K. specialize (K _ S).
  destruct K as [K|[K|[K|[K|K]]]]; done.
Qed.

Lemma quote_not_marker w : empty_marker (js "> " ++ w) = false.
Proof.
  destruct (empty_marker _) eqn:M; [|done]. exfalso. apply empty_marker_sound in M as (sp & mark & sp' & W & F & _ & N & K).
  destruct sp as [|x sp].
  - destruct mark as [|x mark]; [done|]. injection W as <- _. inversion K as [|? ? K' _]; subst. by destruct K' as [K'|[K'|[K'|[K'|K']]]].
  - injection W as <- _. by inversion F.
Qed.

Lemma line_includes l1 l2 a b : includes (join [LF] (l1 ++ (a ++ fence ++ b) :: l2)) fence = true.
Proof.
  induction l1 as [|x l1 IH]; cbn [app].
  - destruct l2 as [|y l2]; cbn [join]; [apply includes_app|]. rewrite <- !app_assoc. apply includes_app.
  - assert (E : ∃ y r, l1 ++ (a ++ fence ++ b) :: l2 = y :: r) by (destruct l1; cbn; eauto). destruct E as (y & r & E). rewrite E in *.
    change (join [LF] (x :: y :: r)) with (x ++ [LF] ++ join [LF] (y :: r)). apply includes_split in IH as (p & q & ->).
    rewrite !app_assoc, <- (app_assoc _ fence q). apply includes_app.
Qed.

(** Outside of code every line is kept, *)
Lemma keep_plain ls rest :
  Forall (λ w, includes w fence = false ∧ empty_marker w = false) ls → keep_lines false (ls ++ rest) = ls ++ keep_lines false rest.
Proof.
  intros F. induction F as [|w ls (H1 & H2) F IH]; [done|]. cbn [app keep_lines]. rewrite no_fence_start, H2, IH by done. done.
Qed.

(** and inside of it. *)
Lemma keep_inside ls rest :
  Forall (λ w, includes w fence = false) ls → keep_lines true (ls ++ rest) = ls ++ keep_lines true rest.
Proof. intros F. induction F as [|w ls H F IH]; [done|]. cbn [app keep_lines]. rewrite no_fence_start, IH by done. done. Qed.

Lemma list_line_kept (o : bool) (index : nat) item :
  solid item = true →
  let w := (if o then str_of_Z (Z.of_nat index + 1) ++ js "." else js "-") ++ js " " ++ item in
  empty_marker w = false.
Proof.
  intros H w. destruct (solid_line item H) as (_ & _ & (d & t & E & Hd)). apply spaced_not_marker.
  - subst w. destruct (marker_ok o index) as [_ (c & r & -> & Hc)]. by exists c, (r ++ js " " ++ item).
  - subst w. rewrite E, !app_assoc. by eexists _, _.
  - subst w. rewrite !elem_of_app. right; left. by left.
Qed.

Lemma block_kept s rest :
  simple_ok s = true → sendable s = true → keep_lines false (block_lines s ++ rest) = block_lines s ++ keep_lines false rest.
Proof.
  intros H S. unfold sendable in S. apply andb_true_iff in S as [_ S]. destruct (is_code s) eqn:C.
  - destruct s as [| | |text]; try done. cbn [block_lines app]. cbn [simple_ok] in H. apply andb_true_iff in H as [_ H].
    apply negb_true_iff in H.
    assert (F : Forall (λ w, includes w fence = false) (split_on LF text)).
    { apply Forall_forall. intros w W. destruct (includes w fence) eqn:I; [|done]. apply includes_split in I as (a & b & ->).
      rewrite <- H. apply list_elem_of_In, in_split in W as (l1 & l2 & W). rewrite <- (join_split_on LF text), W.
      symmetry. apply line_includes. }
    change (keep_lines false (fence :: (split_on LF text ++ [fence]) ++ rest))
      with (fence :: keep_lines true ((split_on LF text ++ [fence]) ++ rest)).
    rewrite <- app_assoc, keep_inside by done.
    change (keep_lines true ([fence] ++ rest)) with (fence :: keep_lines false rest). by rewrite <- app_assoc.
  - destruct (text_writable s (conj H C)) as (_ & W & _). assert (E : block_lines s = lines_of s) by (by destruct s). rewrite E.
    apply keep_plain. apply Forall_forall. intros w Hw. split; [rewrite Forall_forall in W; by apply W|].
    destruct s as [lines|o items|lines|]; try done; cbn [lines_of] in Hw.
    + rewrite forallb_forall in S. apply negb_true_iff, S. by apply list_elem_of_In.
    + cbn [simple_ok] in H. apply andb_true_iff in H as [_ H%Forall_forallb]. apply elem_of_lookup_imap in Hw as (i & x & -> & X).
      apply list_line_kept. rewrite Forall_forall in H. apply H. by eapply list_elem_of_lookup_2.
    + apply list_elem_of_fmap in Hw as (x & -> & _). apply quote_not_marker.
Qed.

Lemma doc_kept l :
  Forall (λ s, simple_ok s = true) l → Forall (λ s, sendable s = true) l → keep_lines false (doc_lines l) = doc_lines l.
Proof.
  induction l as [|s l IH]; intros F S; [done|]. inversion F; inversion S; subst. cbn [doc_lines]. rewrite block_kept by done.
  f_equal. destruct l as [|s' l]; [done|].
  change (keep_lines false ([] :: doc_lines (s' :: l))) with ([] :: keep_lines false (doc_lines (s' :: l))). by rewrite IH.
Qed.

Lemma markdown_no_CR l : Forall (λ s, sendable s = true) l → CR ∉ markdown l.
Proof.
  intros F. induction F as [|s l S F IH]; [by apply not_elem_of_nil|]. unfold sendable in S. apply andb_true_iff in S as [S _].
  apply negb_true_iff, bool_decide_eq_false in S. destruct l as [|s' l]; [done|].
  change (markdown (s :: s' :: l)) with (piece s ++ [LF; LF] ++ markdown (s' :: l)). rewrite !elem_of_app. intros [K|[K|K]]; [done| |done].
  apply elem_of_cons in K as [K|K]; [done|]. by apply list_elem_of_singleton in K.
Qed.

(** The normalization changes nothing in the markdown of such a document. *)
Lemma normalize_markdown l :
  l ≠ [] → Forall (λ s, simple_ok s = true) l → Forall (λ s, sendable s = true) l → normalizeMessageMarkdown (markdown l) = markdown l.
Proof.
  intros N F S. unfold normalizeMessageMarkdown. destruct (doc_lines_ok l N F) as (N' & L & J).
  rewrite (replace_none (lit ["013"%char; LF])).
  2: { intros b r a E. apply lit_only_none. destruct r as [|c r]; [done|]. cbn [startsWith]. rewrite bool_decide_eq_false_2; [done|].
       intros <-. apply (markdown_no_CR l S). rewrite E. apply elem_of_app. right. by left. }
  rewrite <- J, split_join, doc_kept by done. rewrite (replace_none (seq (lit [LF; LF; LF]) (star is_LF))).
  2: { intros b r a E. apply lit_none. apply (calm_no_run (doc_lines l) L (proj1 (doc_calm l F S)) a r E). }
  rewrite J. apply trim_solid; apply join_solid; try (by destruct l); apply Forall_map;
    (eapply Forall_impl; [exact F|]; intros s Hs; by apply piece_solid).
Qed.

(** C6: what is written in the composer is what readers see. A document of paragraphs (with line
    breaks and marked text), lists, quotations and code is sent as its markdown after the
    normalization, and the blocks parsed from what was sent are those of the document, in order,
    with a spacer between two blocks of text and between two pieces of code. This holds for
    documents whose text does not look like block syntax ([simple_ok]: trimmed lines without
    a code fence, no paragraph line that begins like a list or a quotation), and which the
    normalization leaves alone ([sendable]: no carriage return, no paragraph line that is only the
    mark of a list, no two empty lines after each other in code). *)
Theorem sent_document_roundtrip (l : list Simple) :
  l ≠ [] → forallb simple_ok l = true → forallb sendable l = true →
  let sent := normalizeMessageMarkdown (editorJsonToMarkdown (document l)) in
  sent = markdown l ∧ parseMessageBlocks sent = layout l.
Proof.
  intros N F S sent. assert (E : sent = markdown l).
  { subst sent. rewrite document_markdown by (done || by apply Forall_forallb).
    apply normalize_markdown; [done|by apply Forall_forallb..]. }
  split; [done|]. rewrite E, <- document_markdown by (done || by apply Forall_forallb). by apply document_roundtrip.
Qed.

Lemma sent_document_roundtrip_witness :
  let sent := normalizeMessageMarkdown (editorJsonToMarkdown (document sample_document)) in
  sent = markdown sample_document ∧ parseMessageBlocks sent = layout sample_document.
Proof. apply (sent_document_roundtrip sample_document); [done|vm_compute; reflexivity..]. Defined.
