(* ===== verification/Links.v ===== *)
(** * Links, previews and HTML escaping

    Which addresses the apps turn into links: [normalizeLinkHref] and
    [splitTrailingUrlPunctuation] of [web/src/pages/shared/Messages.tsx],
    [normalizeMessageLink] of [mobile/src/lib/message-format.ts], [sanitizeUrl] of
    [web/src/lib/sanitizeUrl.ts], [safeExternalUrl] of [mobile/src/lib/learning.ts]
    with [openExternalPage], and the renderers of [mobile/src/lib/lesson-markdown.ts].
    Also the plain text and the previews of messages in the mobile app. The URL
    parser of the platform is a parameter. *)

From S2P Require Import Prelude.
From S2P Require Import Regex.
From S2P Require Import MessageFormat.

(** ** Patterns *)

(** A literal with the flag [i]. *)
Fixpoint lit_i (w : str) : matcher :=
  match w with
  | [] => eps
  | c :: w' => seq (chr (λ d, bool_decide (char_lower d = c))) (lit_i w')
  end.

(** [/^(https?:\/\/|mailto:)/i] *)
Definition scheme_pattern : matcher :=
  seq bol (alt (seq (lit_i (js "http")) (seq (opt (lit_i (js "s"))) (lit_i (js "://"))))
               (lit_i (js "mailto:"))).

(** [/^https?:\/\//i] and [/^www\./i] *)
Definition http_pattern : matcher :=
  seq bol (seq (lit_i (js "http")) (seq (opt (lit_i (js "s"))) (lit_i (js "://")))).
Definition www_pattern : matcher := seq bol (lit_i (js "www.")).

(** [/^mailto:[^\s@]+@[^\s@]+$/i] *)
Definition not_space_at (c : ascii) : bool := negb (is_space c) && negb (bool_decide (c = "@"%char)).
Definition mailto_pattern : matcher :=
  seq bol (seq (lit_i (js "mailto:")) (seq (plus not_space_at)
    (seq (lit (js "@")) (seq (plus not_space_at) eol)))).

(** A host name label and the pattern of a bare domain; [n] bounds the labels, and the
    length of the text is enough. *)
Definition label : matcher :=
  seq (chr is_alnum)
    (opt (seq (upto 61 (chr (λ c, is_alnum c || bool_decide (c = "-"%char)))) (chr is_alnum))).

Definition domain_pattern (n : nat) : matcher :=
  seq bol (seq (group 1 (seq label (seq (seq (lit (js ".")) label) (upto n (seq (lit (js ".")) label)))))
    (seq (opt (group 2 (seq (chr (is_char ["/"; "?"; "#"]%char)) (star dot)))) eol)).

(** The web app's file extensions, and the mobile app's, which has more. *)
Definition COMMON_FILE_EXTENSIONS : list str := map js
  ["css"; "gif"; "htm"; "html"; "jpeg"; "jpg"; "js"; "json"; "md"; "pdf"; "php"; "png"; "py";
   "rb"; "svg"; "ts"; "tsx"; "txt"; "webp"; "yaml"; "yml"; "zip"].

Definition COMMON_FILE_EXTENSIONS_mobile : list str := map js
  ["css"; "csv"; "doc"; "docx"; "gif"; "html"; "jpeg"; "jpg"; "js"; "json"; "md";
   "pdf"; "php"; "png"; "py"; "rb"; "svg"; "ts"; "tsx"; "txt"; "webp"; "yaml";
   "yml"; "zip"].

(** [/^[a-z]{2,24}$/] *)
Definition tld_pattern : matcher :=
  seq bol (seq (chr is_lower) (seq (chr is_lower) (seq (upto 22 (chr is_lower)) eol))).

(** Whether text that has no scheme looks like a domain. *)
Definition bare_domain (extensions : list str) (trimmed : str) : bool :=
  match exec (domain_pattern (length trimmed)) trimmed with
  | None => false
  | Some x =>
      let tld := toLowerCase (default [] (last (split_on "." (cap 1 x.2)))) in
      test tld_pattern tld && negb (has extensions tld)
  end.

Definition https (s : str) : str := js "https://" ++ s.

(** ** Links in messages *)

Definition normalizeLinkHref (value : str) : str :=
  let trimmed := trim value in
  if negb (truthy trimmed) then []
  else if test scheme_pattern trimmed then trimmed
  else if test www_pattern trimmed then https trimmed
  else if bare_domain COMMON_FILE_EXTENSIONS trimmed then https trimmed else [].

(** The loop that moves trailing punctuation out of a link. *)
Definition is_punctuation : ascii → bool := is_char ["."; ","; "!"; "?"; ";"; ":"]%char.

Definition splitTrailingUrlPunctuation (value : str) : str * str :=
  let href := reverse (drop_while is_punctuation (reverse value)) in
  let trailing := reverse (take_while is_punctuation (reverse value)) in
  if endsWith href (js ")") && negb (includes href (js "("))
  then (slice href 0 (-1), js ")" ++ trailing)
  else (href, trailing).

Record URL := { protocol : str; href : str }.

Section Platform.

(** [new URL(s)]: [None] when it throws. *)
Context (parseUrl : str → option URL).

Definition web_url (value : str) : option str :=
  match parseUrl value with
  | Some u => if eqs (protocol u) (js "https:") || eqs (protocol u) (js "http:")
              then Some (href u) else None
  | None => None
  end.

(** [normalizeMessageLink], which calls itself at most once (on text that then begins
    with [https://]): two levels of fuel are enough. *)
Fixpoint normalize_go (fuel : nat) (value : str) : option str :=
  match fuel with
  | O => None
  | S fuel =>
      let trimmed := trim value in
      if negb (truthy trimmed) then None
      else if test mailto_pattern trimmed then Some trimmed
      else if test http_pattern trimmed then web_url trimmed
      else if test www_pattern trimmed then normalize_go fuel (https trimmed)
      else if bare_domain COMMON_FILE_EXTENSIONS_mobile trimmed then normalize_go fuel (https trimmed)
      else None
  end.

Definition normalizeMessageLink (value : str) : option str := normalize_go 2 value.

Definition ALLOWED_PROTOCOLS : list str := map js ["http:"; "https:"; "mailto:"].

Definition sanitizeUrl (url : str) : str :=
  match parseUrl url with
  | Some u => if has ALLOWED_PROTOCOLS (protocol u) then url else js "#"
  | None => js "#"
  end.

Definition safeExternalUrl (value : option str) : option str :=
  match value with
  | Some v => if truthy v then web_url v else None
  | None => None
  end.

(** [openExternalPage]: the page opened in the browser, or the error. *)
Definition openExternalPage (value : option str) : str + str :=
  match safeExternalUrl value with
  | Some url => inl url
  | None => inr (js "This link is not a valid web address.")
  end.

(** ** Lessons *)

Definition QUOTE : ascii := "034"%char.

Definition escape_char (c : ascii) : str :=
  if bool_decide (c = "&"%char) then js "&amp;"
  else if bool_decide (c = "<"%char) then js "&lt;"
  else if bool_decide (c = ">"%char) then js "&gt;"
  else if bool_decide (c = QUOTE) then js "&quot;"
  else if bool_decide (c = "'"%char) then js "&#39;"
  else [c].

Definition escapeHtml (value : str) : str := concat (map escape_char value).

(** The renderers of links and images; [label] is the rendered text of the link. *)
Definition render_link (href : str) (label : str) : str :=
  match safeExternalUrl (Some href) with
  | Some safe => js "<a href=" ++ [QUOTE] ++ escapeHtml safe ++ [QUOTE] ++ js ">" ++ label ++ js "</a>"
  | None => label
  end.

Definition render_image (href text : str) : str :=
  match safeExternalUrl (Some href) with
  | Some safe => js "<img src=" ++ [QUOTE] ++ escapeHtml safe ++ [QUOTE] ++ js " alt=" ++ [QUOTE]
                 ++ escapeHtml text ++ [QUOTE] ++ js ">"
  | None => escapeHtml text
  end.

(** ** Which links are made *)

Definition safe_link (s : str) : Prop :=
  startsWith (toLowerCase s) (js "http:") = true ∨ startsWith (toLowerCase s) (js "https:") = true
  ∨ startsWith (toLowerCase s) (js "mailto:") = true.

Lemma lower_prefix s p r : s = p ++ r → startsWith (toLowerCase s) (toLowerCase p) = true.
Proof. intros ->. unfold toLowerCase. rewrite map_app. apply startsWith_app. Qed.

Lemma lit_i_spec w : re_spec (lit_i w) (consumes (λ u, toLowerCase u = w)).
Proof.
  induction w as [|c w IH].
  - eapply re_spec_ext; [apply eps_spec|]. intros s s'. split.
    + intros ->. exists []. done.
    + intros (u & Hu & H1 & H2 & H3). destruct u; [|done]. destruct s, s'; simpl in *; congruence.
  - eapply re_spec_ext; [apply seq_consumes; [apply chr_spec|exact IH]|].
    intros s s'. unfold consumes. split.
    + intros (u & (u1 & u2 & -> & (d & -> & Hd) & Hu) & H). exists (d :: u2). split; [|done].
      apply bool_decide_eq_true in Hd. simpl. by f_equal.
    + intros (u & Hu & H). destruct u as [|d u]; [done|]. injection Hu as Hd Hu.
      exists (d :: u). split; [|done]. exists [d], u. split_and!; [done| |done].
      exists d. split; [done|]. by apply bool_decide_eq_true.
Qed.

(** A match of a pattern that starts with [^] consumes a prefix. *)
Lemma test_bol_prefix m L s :
  re_spec m (consumes L) → test (seq bol m) s = true → ∃ w r, s = w ++ r ∧ L w.
Proof.
  intros HR. rewrite test_bol. destruct (m _ _) as [e|] eqn:E; [intros _|done].
  apply (re_sound _ _ HR) in E as (s' & (w & Lw & H & _) & _). simpl in H. eauto.
Qed.

Lemma opt_spec m L : re_spec m (consumes L) → re_spec (opt m) (consumes (λ u, L u ∨ u = [])).
Proof.
  intros H. apply alt_consumes; [done|]. eapply re_spec_ext; [apply eps_spec|].
  intros s s'. split.
  - intros ->. by exists [].
  - intros (u & -> & H1 & H2 & H3). destruct s, s'; simpl in *; congruence.
Qed.

Definition http_language (u : str) : Prop :=
  ∃ a b c, u = a ++ b ++ c ∧ toLowerCase a = js "http"
           ∧ (toLowerCase b = js "s" ∨ b = []) ∧ toLowerCase c = js "://".

Lemma http_spec :
  re_spec (seq (lit_i (js "http")) (seq (opt (lit_i (js "s"))) (lit_i (js "://"))))
    (consumes http_language).
Proof.
  eapply re_spec_ext; [apply seq_consumes; [apply lit_i_spec|
    apply seq_consumes; [apply opt_spec, lit_i_spec|apply lit_i_spec]]|].
  intros s s'. unfold consumes, http_language. split.
  - intros (u & (a & r & -> & Ha & (b & c & -> & Hb & Hc)) & H). exists (a ++ b ++ c).
    split; [|done]. by exists a, b, c.
  - intros (u & (a & b & c & -> & Ha & Hb & Hc) & H). exists (a ++ b ++ c). split; [|done].
    exists a, (b ++ c). split_and!; [done..|]. by exists b, c.
Qed.

Lemma http_language_safe w r : http_language w → safe_link (w ++ r).
Proof.
  intros (a & b & c & -> & Ha & Hb & Hc). unfold safe_link, toLowerCase in *.
  rewrite !map_app, Ha, Hc. destruct Hb as [-> | ->]; [right; left|left]; done.
Qed.

Lemma mailto_prefix_safe w r : toLowerCase w = js "mailto:" → safe_link (w ++ r).
Proof.
  intros H. right. right. unfold toLowerCase in *. rewrite map_app, H. apply startsWith_app.
Qed.

Lemma https_safe s : safe_link (https s).
Proof. right. left. done. Qed.

Lemma scheme_safe s : test scheme_pattern s = true → safe_link s.
Proof.
  intros (w & r & -> & [H|H])%(test_bol_prefix _ _ _
    (alt_consumes _ _ _ _ http_spec (lit_i_spec _))).
  - by apply http_language_safe.
  - by apply mailto_prefix_safe.
Qed.

Lemma normalizeLinkHref_safe v : normalizeLinkHref v = [] ∨ safe_link (normalizeLinkHref v).
Proof.
  unfold normalizeLinkHref. destruct (truthy (trim v)); simpl; [|by left].
  destruct (test scheme_pattern (trim v)) eqn:E; [right; by apply scheme_safe|].
  destruct (test www_pattern (trim v)); [right; apply https_safe|].
  destruct (bare_domain _ (trim v)); [right; apply https_safe|by left].
Qed.

(** The serialization of a URL begins with its scheme. *)
Context (href_protocol : ∀ s u, parseUrl s = Some u → startsWith (href u) (protocol u) = true).

Lemma web_url_safe v u : web_url v = Some u → safe_link u.
Proof.
  unfold web_url. destruct (parseUrl v) as [p|] eqn:E; [|done].
  apply href_protocol in E. apply startsWith_spec in E as [r E].
  destruct (eqs (protocol p) (js "https:")) eqn:E1.
  - intros [= <-]. apply eqs_true in E1. right. left. rewrite E, E1. done.
  - destruct (eqs (protocol p) (js "http:")) eqn:E2; [|done].
    intros [= <-]. apply eqs_true in E2. left. rewrite E, E2. done.
Qed.

Lemma mailto_safe s : test mailto_pattern s = true → safe_link s.
Proof.
  intros H. unfold mailto_pattern in H. rewrite test_bol in H.
  destruct (seq _ _ _ _) as [e|] eqn:E; [|done]. unfold seq at 1 in E.
  apply (re_sound _ _ (lit_i_spec _)) in E as (s' & (w & Hw & Hr & _) & _).
  cbn [rest] in Hr. rewrite Hr. by apply mailto_prefix_safe.
Qed.

Lemma normalize_step fuel value :
  normalize_go (S fuel) value =
  let trimmed := trim value in
  if negb (truthy trimmed) then None
  else if test mailto_pattern trimmed then Some trimmed
  else if test http_pattern trimmed then web_url trimmed
  else if test www_pattern trimmed then normalize_go fuel (https trimmed)
  else if bare_domain COMMON_FILE_EXTENSIONS_mobile trimmed then normalize_go fuel (https trimmed)
      else None.
Proof. done. Qed.

(** The recursive call takes the branch of web addresses at once. *)
Lemma normalize_https n t :
  t ≠ [] → trim t = t → normalize_go (S n) (https t) = web_url (https t).
Proof.
  intros Hn Ht.
  assert (E : trim (https t) = https t).
  { apply trim_solid; [by exists "h"%char, (js "ttps://" ++ t)|].
    destruct (trimmed_ends t Hn Ht) as (c & r & -> & Hc). exists c, (https r).
    split; [|done]. unfold https. by rewrite app_assoc. }
  rewrite normalize_step. cbv zeta. rewrite E. unfold mailto_pattern, http_pattern.
  rewrite !test_bol. done.
Qed.

Lemma normalize_fuel n v : normalize_go (2 + n) v = normalizeMessageLink v.
Proof.
  unfold normalizeMessageLink. change (2 + n)%nat with (S (S n)).
  rewrite (normalize_step (S n) v), (normalize_step 1 v). cbv zeta.
  destruct (trim v) as [|c t] eqn:E; [done|].
  assert (Ht : trim (c :: t) = c :: t) by (rewrite <- E; apply trim_idem).
  cbn [truthy negb]. destruct (test mailto_pattern _); [done|].
  destruct (test http_pattern _); [done|].
  destruct (test www_pattern _); [by rewrite !(normalize_https _ (c :: t))|].
  destruct (bare_domain _ _); [by rewrite !(normalize_https _ (c :: t))|done].
Qed.

Lemma normalizeMessageLink_safe v u : normalizeMessageLink v = Some u → safe_link u.
Proof.
  unfold normalizeMessageLink. rewrite (normalize_step 1 v). cbv zeta.
  destruct (trim v) as [|c t] eqn:E; [done|].
  assert (Ht : trim (c :: t) = c :: t) by (rewrite <- E; apply trim_idem).
  cbn [truthy negb]. destruct (test mailto_pattern _) eqn:M.
  { intros [= <-]. by apply mailto_safe. }
  destruct (test http_pattern _); [apply web_url_safe|].
  destruct (test www_pattern _); [rewrite (normalize_https _ (c :: t)) by done; apply web_url_safe|].
  destruct (bare_domain _ _); [|done].
  rewrite (normalize_https _ (c :: t)) by done. apply web_url_safe.
Qed.

Lemma split_punctuation v :
  (splitTrailingUrlPunctuation v).1 ++ (splitTrailingUrlPunctuation v).2 = v.
Proof.
  unfold splitTrailingUrlPunctuation.
  assert (E : reverse (drop_while is_punctuation (reverse v))
    ++ reverse (take_while is_punctuation (reverse v)) = v).
  { rewrite <- reverse_app, take_drop_while. apply reverse_involutive. }
  destruct (_ && _) eqn:B; [|exact E]. apply andb_true_iff in B as [B _].
  apply endsWith_spec in B as [r Hr]. rewrite Hr in E |- *. cbn [fst snd].
  rewrite (slice_drop_last r ")"%char : slice (r ++ js ")") 0 (-1) = r).
  rewrite <- E at 2. by rewrite <- app_assoc.
Qed.

Lemma escape_safe v c :
  c ∈ escapeHtml v → c ≠ "<"%char ∧ c ≠ ">"%char ∧ c ≠ QUOTE ∧ c ≠ "'"%char.
Proof.
  unfold escapeHtml. intros Hc.
  apply list_elem_of_In, in_concat in Hc as (w & Hw & Hc).
  apply in_map_iff in Hw as (d & <- & _). unfold escape_char in Hc.
  repeat case_bool_decide; simpl in Hc; repeat destruct Hc as [<- |Hc]; done.
Qed.

(** C10: no address becomes a link unless it is a web or mail address. Whatever text
    a message or a lesson contains, the web app's message links, the mobile app's
    message links and the pages it opens begin with [http:], [https:] or [mailto:];
    [sanitizeUrl] lets only those protocols through; punctuation is only moved out of
    a link, never lost; the recursion of [normalizeMessageLink] ends; and escaped text
    cannot end an attribute or open a tag. *)
Theorem links_are_safe (v : str) :
  (normalizeLinkHref v = [] ∨ safe_link (normalizeLinkHref v))
  ∧ (∀ u, normalizeMessageLink v = Some u → safe_link u)
  ∧ (∀ n, normalize_go (2 + n) v = normalizeMessageLink v)
  ∧ (∀ u, openExternalPage (Some v) = inl u → safe_link u)
  ∧ (sanitizeUrl v = js "#"
     ∨ ∃ u, parseUrl v = Some u ∧ sanitizeUrl v = v ∧ protocol u ∈ ALLOWED_PROTOCOLS)
  ∧ (splitTrailingUrlPunctuation v).1 ++ (splitTrailingUrlPunctuation v).2 = v
  ∧ (∀ c, c ∈ escapeHtml v → c ≠ "<"%char ∧ c ≠ ">"%char ∧ c ≠ QUOTE ∧ c ≠ "'"%char).
Proof.
  split_and!.
  - apply normalizeLinkHref_safe.
  - apply normalizeMessageLink_safe.
  - intros n. apply normalize_fuel.
  - intros u. unfold openExternalPage, safeExternalUrl.
    destruct (truthy v); [|done]. destruct (web_url v) as [x|] eqn:E; [|done].
    intros [= <-]. by apply (web_url_safe v).
  - unfold sanitizeUrl. destruct (parseUrl v) as [u|]; [|by left].
    destruct (has _ _) eqn:E; [right|by left]. exists u. split_and!; [done..|]. by apply has_true.
  - apply split_punctuation.
  - apply escape_safe.
Qed.

End Platform.

(** A URL parser for the example: the scheme up to the colon. *)
Definition sample_parser (s : str) : option URL :=
  if includes s (js ":")
  then Some {| protocol := take_while (λ c, negb (bool_decide (c = ":"%char))) s ++ js ":";
               href := take_while (λ c, negb (bool_decide (c = ":"%char))) s ++ js ":"
                       ++ drop_while (λ c, negb (bool_decide (c = ":"%char))) s |}
  else None.

Lemma links_are_safe_witness :
  normalizeLinkHref (js " csg.org/a?b. ") = js "https://csg.org/a?b."
  ∧ normalizeLinkHref (js "javascript:alert(1)") = []
  ∧ safe_link (normalizeLinkHref (js "www.csg.org"))
  ∧ (∀ u, normalizeMessageLink sample_parser (js "csg.org") = Some u → safe_link u).
Proof.
  split; [vm_compute; reflexivity|]. split; [vm_compute; reflexivity|].
  assert (P : ∀ s u, sample_parser s = Some u → startsWith (href u) (protocol u) = true).
  { intros s u. unfold sample_parser. destruct (includes _ _); [|done]. intros [= <-].
    apply startsWith_spec. simpl. eexists. by rewrite <- app_assoc. }
  split.
  - destruct (links_are_safe sample_parser P (js "www.csg.org")) as ([H|H] & _); [|exact H].
    vm_compute in H. discriminate H.
  - apply (links_are_safe sample_parser P (js "csg.org")).
Defined.
