(* ===== verification/Mentions.v ===== *)
(** * Mentions

    The web composer and message list ([web/src/pages/shared/Messages.tsx]):
    [buildMentionPatterns], [findMentionMatches], [renderTextWithMentions],
    [messageContainsMention], [resolveMentionedUserIds] and the suggestions; and
    [mobile/src/lib/mentions.ts]: [mentionTriggerAt], [mentionSuggestions],
    [insertMention], [resolveMentionUserIds] and [messageSegments]. Text is Latin-1, so the curly quotes of the boundary classes
    have no counterpart here. *)

From S2P Require Import Prelude.
From S2P Require Import Regex.
From S2P Require Import MessageFormat.

Definition AT : ascii := "@"%char.
Definition DQUOTE : ascii := "034"%char.
Definition SQUOTE : ascii := "'"%char.

(** ** Patterns *)

Inductive MentionKind := user_mention | channel_mention.

#[export] Instance MentionKind_eq_dec : EqDecision MentionKind.
Proof. solve_decision. Defined.

Record MentionPattern := { label : str; normalized : str; kind : MentionKind }.

Record MentionableUser := { id : Z; full_name : str; email : str }.

Definition CHANNEL_MENTION_ALIASES : list (str * str) :=
  [(js "@everyone", js "Notify everyone in this channel")].

Definition channel_patterns : list MentionPattern :=
  map (λ m, {| label := m.1; normalized := toLowerCase m.1; kind := channel_mention |})
    CHANNEL_MENTION_ALIASES.

(** The [forEach] over the names, with its set [seen]. *)
Fixpoint user_patterns (names : list str) (seen : list str) : list MentionPattern :=
  match names with
  | [] => []
  | name :: rest =>
      let l := AT :: name in
      let n := toLowerCase l in
      if has seen n then user_patterns rest seen
      else {| label := l; normalized := n; kind := user_mention |} :: user_patterns rest (n :: seen)
  end.

Definition longest_first (left right : MentionPattern) : Z :=
  Z.of_nat (length (label right)) - Z.of_nat (length (label left)).

Definition buildMentionPatterns (names : list str) (includeChannel : bool) : list MentionPattern :=
  let channels := if includeChannel then channel_patterns else [] in
  js_sort longest_first
    (channels ++ user_patterns (List.filter truthy (map trim names)) (map normalized channels)).

(** ** Finding and rendering them *)

Definition isMentionStartBoundary (text : str) (index : nat) : bool :=
  match index with
  | O => true
  | S i => match text !! i with
           | Some c => is_space c || is_char ["("; "["; "{"; SQUOTE; DQUOTE; ">"]%char c
           | None => false
           end
  end.

Definition isMentionEndBoundary (c : option ascii) : bool :=
  match c with
  | None => true
  | Some c => is_space c
              || is_char [")"; "]"; "}"; "."; ","; "!"; "?"; ";"; ":"; SQUOTE; DQUOTE]%char c
  end.

Record Match := { from : nat; to_ : nat; mkind : MentionKind; mtext : str }.

(** [text.slice(index, index + n)] *)
Definition slice_at (text : str) (index n : nat) : str := take n (drop index text).

Definition matches_at (text : str) (index : nat) (p : MentionPattern) : bool :=
  eqs (toLowerCase (slice_at text index (length (label p)))) (normalized p)
  && isMentionEndBoundary (text !! (index + length (label p))%nat).

(** The [while] loop; its index grows by one at least, so the length of the text
    bounds the iterations. *)
Fixpoint find_loop (fuel : nat) (text : str) (patterns : list MentionPattern) (index : nat)
    : list Match :=
  match fuel with
  | O => []
  | S fuel =>
      if (index <? length text)%nat then
        if negb (bool_decide (text !! index = Some AT)) || negb (isMentionStartBoundary text index)
        then find_loop fuel text patterns (S index)
        else match List.find (matches_at text index) patterns with
        | None => find_loop fuel text patterns (S index)
        | Some p =>
            let n := length (label p) in
            {| from := index; to_ := index + n; mkind := kind p; mtext := slice_at text index n |}
              :: find_loop fuel text patterns (index + n)
        end
      else []
  end.

Definition findMentionMatches (text : str) (patterns : list MentionPattern) : list Match :=
  find_loop (length text) text patterns 0.

(** What is shown: plain text and highlighted mentions. *)
Inductive TextNode := Plain (s : str) | Mention (k : MentionKind) (s : str).

Definition node_text (n : TextNode) : str := match n with Plain s | Mention _ s => s end.

Fixpoint render_loop (text : str) (matches : list Match) (cursor : nat) : list TextNode :=
  match matches with
  | [] => if (cursor <? length text)%nat then [Plain (drop cursor text)] else []
  | m :: rest =>
      (if (cursor <? from m)%nat then [Plain (slice_at text cursor (from m - cursor))] else [])
      ++ Mention (mkind m) (mtext m) :: render_loop text rest (to_ m)
  end.

Definition renderTextWithMentions (text : str) (patterns : list MentionPattern) : list TextNode :=
  match findMentionMatches text patterns with
  | [] => [Plain text]
  | matches => render_loop text matches 0
  end.

(** ** Who is mentioned *)

(** A literal with the flag [i]: [lower] is its text in lower case. *)
Fixpoint lit_lower (lower : str) : matcher :=
  match lower with
  | [] => eps
  | c :: w => seq (chr (λ d, bool_decide (char_lower d = c))) (lit_lower w)
  end.

(** [(^|[^\w])@name(?=$|[...])] with the flag [i]; the name is escaped. *)
Definition mention_pattern (name : str) : matcher :=
  seq (group 1 (alt bol (chr (λ c, negb (is_word c)))))
    (seq (lit [AT]) (seq (lit_lower (toLowerCase name))
      (look (alt eol (chr (λ c, isMentionEndBoundary (Some c))))))).

Definition messageContainsMention (body fullName : str) : bool :=
  let trimmed := trim fullName in
  truthy trimmed && test (mention_pattern trimmed) body.

Definition usersById (users : list MentionableUser) (i : Z) : option MentionableUser :=
  List.find (λ u, id u =? i) (reverse users).

Definition name_key (u : MentionableUser) : str := toLowerCase (trim (full_name u)).

Definition nameCount (users : list MentionableUser) (n : str) : nat :=
  length (List.filter (λ u, eqs (name_key u) n) users).

Definition selected_resolves (body : str) (users : list MentionableUser) (i : Z) : bool :=
  match usersById users i with
  | Some u => truthy (full_name u) && messageContainsMention body (full_name u)
  | None => false
  end.

Definition named_unambiguously (body : str) (users : list MentionableUser) (u : MentionableUser)
    : bool :=
  truthy (name_key u) && (nameCount users (name_key u) <=? 1)%nat
  && messageContainsMention body (full_name u).

Definition resolveMentionedUserIds (body : str) (users : list MentionableUser)
    (selectedIds : list Z) : list Z :=
  if negb (truthy (trim body)) then []
  else
    fold_left (λ resolved u,
        if named_unambiguously body users u && negb (has resolved (id u))
        then resolved ++ [id u] else resolved)
      users (List.filter (selected_resolves body users) selectedIds).

(** ** Suggestions *)

Definition stripMentionLabel (value : str) : str :=
  toLowerCase (trim (match value with c :: r => if bool_decide (c = AT) then r else value | [] => [] end)).

Record MentionSuggestion := { s_id : str; s_label : str; subtitle : str; s_kind : MentionKind }.

Definition web_suggestions (token : option str) (in_channel : bool) (users : list MentionableUser)
    : list MentionSuggestion :=
  match token with
  | None => []
  | Some t =>
      let n := stripMentionLabel t in
      (if in_channel
       then map (λ m, {| s_id := m.1; s_label := m.1; subtitle := m.2; s_kind := channel_mention |})
              (List.filter (λ m, startsWith (stripMentionLabel m.1) n) CHANNEL_MENTION_ALIASES)
       else [])
      ++ map (λ u, {| s_id := str_of_Z (id u); s_label := AT :: full_name u; subtitle := email u;
                      s_kind := user_mention |})
           (take 8 (List.filter (λ u, includes (toLowerCase (full_name u)) n
                                      || includes (toLowerCase (email u)) n) users))
  end.

(** *** The mobile composer *)

Record MentionTrigger := { t_start : nat; t_end : nat; query : str }.

(** [/(?:^|\s)@([^@\n]* )$/] (without the space) *)
Definition trigger_pattern : matcher :=
  seq (alt bol (chr is_space))
    (seq (lit [AT]) (seq (group 1 (star (λ c, negb (bool_decide (c = AT)) && negb (is_LF c)))) eol)).

Definition mentionTriggerAt (body : str) (cursor : nat) : option MentionTrigger :=
  match exec trigger_pattern (take cursor body) with
  | None => None
  | Some x =>
      let q := cap 1 x.2 in
      if (60 <? length q)%nat then None
      else Some {| t_start := cursor - length q - 1; t_end := cursor; query := q |}
  end.

Definition mobile_suggestions (users : list MentionableUser) (q : str) (limit : nat)
    : list MentionableUser :=
  let n := toLowerCase (trim q) in
  take limit (List.filter (λ u, negb (truthy n)
                                || includes (toLowerCase (full_name u ++ js " " ++ email u)) n) users).

Definition insertMention (body : str) (trigger : MentionTrigger) (u : MentionableUser) : str * nat :=
  (take (t_start trigger) body ++ AT :: full_name u ++ js " " ++ drop (t_end trigger) body,
   t_start trigger + length (full_name u) + 2)%nat.

(** The class [[\p{L}\p{N}_'-]] below U+0100: what cannot follow a name. *)
Definition name_goes_on (c : ascii) : bool :=
  is_word c || is_char [SQUOTE; "-"]%char c
  || has [170; 181; 186; 178; 179; 185; 188; 189; 190]%N (Prelude.code c)
  || ((192 <=? Prelude.code c)%N && negb (has [215; 247]%N (Prelude.code c))).

(** [users.map(full_name).filter(Boolean).sort(longest first)] *)
Definition member_names (users : list MentionableUser) : list str :=
  js_sort (λ left right, Z.of_nat (length right) - Z.of_nat (length left))
    (List.filter truthy (map full_name users)).

(** The name stands at the head of the text, with the flags [iu], and does not go on. *)
Definition names_head (s name : str) : bool :=
  eqs (toLowerCase (take (length name) s)) (toLowerCase name)
  && match drop (length name) s with c :: _ => negb (name_goes_on c) | [] => true end.

(** [@(name1|name2|...)] with its look-ahead: the name as it is written and what follows it. *)
Definition at_name (names : list str) (s : str) : option (str * str) :=
  match s with
  | c :: r =>
      if bool_decide (c = AT) then
        (λ n, (take (length n) r, drop (length n) r)) <$> List.find (names_head r) names
      else None
  | [] => None
  end.

(** [(?:^|[\s([{])@(name1|...)]: the start of the text, or a separator before the name. *)
Definition mention_here (names : list str) (first : bool) (s : str) : option (str * str) :=
  match (if first then at_name names s else None) with
  | Some x => Some x
  | None =>
      match s with
      | c :: r => if is_space c || is_char ["("; "["; "{"]%char c then at_name names r else None
      | [] => None
      end
  end.

(** [body.matchAll(pattern)]: every match takes a character at least, so the length of the
    text bounds the iterations. *)
Fixpoint mention_scan (fuel : nat) (names : list str) (first : bool) (s : str) : list str :=
  match fuel with
  | O => []
  | S fuel =>
      match mention_here names first s with
      | Some (t, rest) => t :: mention_scan fuel names false rest
      | None => match s with [] => [] | _ :: r => mention_scan fuel names false r end
      end
  end.

Definition resolveMentionUserIds (body : str) (users : list MentionableUser) : list Z :=
  let names := member_names users in
  match names with
  | [] => []
  | _ =>
      let mentionedNames := map toLowerCase (mention_scan (length body) names true body) in
      map id (List.filter (λ u, has mentionedNames (toLowerCase (full_name u))) users)
  end.

(** [body.split(pattern)], whose pattern captures the whole match; [acc] is the text since
    the last one. *)
Fixpoint split_mentions (fuel : nat) (names : list str) (acc s : str) : list str :=
  match fuel, s with
  | O, _ | _, [] => [acc ++ s]
  | S fuel, c :: r =>
      match at_name names s with
      | Some (t, rest) => acc :: (AT :: t) :: split_mentions fuel names [] rest
      | None => split_mentions fuel names (acc ++ [c]) r
      end
  end.

Definition messageSegments (body : str) (users : list MentionableUser) : list (str * bool) :=
  match member_names users with
  | [] => [(body, false)]
  | names => map (λ t, (t, startsWith t [AT]))
               (List.filter truthy (split_mentions (length body) names [] body))
  end.

Example mobile_mentions_example :
  let users := [{| id := 1; full_name := js "Maya Santos"; email := [] |};
                {| id := 2; full_name := js "Maya"; email := [] |};
                {| id := 4; full_name := js "Noah-Cruz"; email := [] |}] in
  resolveMentionUserIds (js "@Maya Santos, please ask @Noah-Cruz.") users = [1; 4]
  ∧ resolveMentionUserIds (js "x@Maya (@maya's, @mayan @MAYA") users = [2]
  ∧ messageSegments (js "Thanks @Maya Santos!") users
    = [(js "Thanks ", false); (js "@Maya Santos", true); (js "!", false)].
Proof. vm_compute. done. Qed.

Example mentions_example :
  let ps := buildMentionPatterns [js "Ana"; js " Ana Cruz "; []] true in
  map label ps = [js "@everyone"; js "@Ana Cruz"; js "@Ana"]
  ∧ renderTextWithMentions (js "hi @ana cruz, @Anab (@ANA)") ps
    = [Plain (js "hi "); Mention user_mention (js "@ana cruz"); Plain (js ", @Anab (");
       Mention user_mention (js "@ANA"); Plain (js ")")].
Proof. vm_compute. done. Qed.

(** ** Highlighting loses no text *)

Definition pattern_ok (p : MentionPattern) : Prop :=
  label p ≠ [] ∧ normalized p = toLowerCase (label p).

Lemma user_patterns_ok names seen p : p ∈ user_patterns names seen → pattern_ok p.
Proof.
  revert seen. induction names as [|n names IH]; intros seen Hp; simpl in Hp.
  - by apply not_elem_of_nil in Hp.
  - destruct (has seen _); [by apply (IH seen)|].
    apply elem_of_cons in Hp as [->|Hp]; [done|by eapply IH].
Qed.

Lemma patterns_ok names b p : p ∈ buildMentionPatterns names b → pattern_ok p.
Proof.
  intros Hp%js_sort_elem. apply elem_of_app in Hp as [Hp|Hp]; [|by eapply user_patterns_ok].
  destruct b; [|by apply not_elem_of_nil in Hp].
  apply list_elem_of_fmap in Hp as (m & -> & Hm).
  apply elem_of_cons in Hm as [->|Hm]; [done|by apply not_elem_of_nil in Hm].
Qed.

Lemma lower_length s : length (toLowerCase s) = length s.
Proof. apply length_map. Qed.

Lemma matches_at_spec text i p :
  pattern_ok p → matches_at text i p = true →
  toLowerCase (slice_at text i (length (label p))) = normalized p
  ∧ (0 < length (label p))%nat ∧ (i + length (label p) <= length text)%nat.
Proof.
  intros [Hn Hl] [H _]%andb_true_iff. apply eqs_true in H. split; [done|].
  assert (L : (0 < length (label p))%nat) by (destruct (label p); [done|simpl; lia]).
  split; [done|]. apply (f_equal length) in H. rewrite Hl, !lower_length in H.
  unfold slice_at in H. rewrite length_take, length_drop in H. lia.
Qed.

(** Matches in order, from [i] on, within the text. *)
Fixpoint ordered (text : str) (i : nat) (ms : list Match) : Prop :=
  match ms with
  | [] => True
  | m :: r => (i <= from m)%nat ∧ (from m < to_ m <= length text)%nat
              ∧ mtext m = slice_at text (from m) (to_ m - from m) ∧ ordered text (to_ m) r
  end.

Lemma ordered_later text i j ms : (i <= j)%nat → ordered text j ms → ordered text i ms.
Proof. destruct ms as [|m r]; [done|]. simpl. intros Hij (H1 & H). split; [lia|done]. Qed.

(** What is known of a match: it is at a boundary, and no pattern that matches there is
    longer. *)
Definition match_ok (text : str) (ps : list MentionPattern) (m : Match) : Prop :=
  text !! from m = Some AT ∧ isMentionStartBoundary text (from m) = true
  ∧ isMentionEndBoundary (text !! to_ m) = true
  ∧ ∃ p, p ∈ ps ∧ kind p = mkind m ∧ toLowerCase (mtext m) = normalized p
         ∧ (to_ m - from m)%nat = length (label p)
         ∧ ∀ q, q ∈ ps → matches_at text (from m) q = true →
             (length (label q) <= length (label p))%nat.

Definition longest_sorted (ps : list MentionPattern) : Prop :=
  StronglySorted (λ p q, longest_first p q <= 0) ps.

Lemma patterns_sorted names b : longest_sorted (buildMentionPatterns names b).
Proof.
  apply (js_sort_sorted longest_first (λ _, True)); [|by apply Forall_forall].
  unfold longest_first. split; intros; lia.
Qed.

Lemma find_longest f ps p :
  longest_sorted ps → List.find f ps = Some p →
  p ∈ ps ∧ f p = true ∧ ∀ q, q ∈ ps → f q = true → (length (label q) <= length (label p))%nat.
Proof.
  intros S. induction S as [|x ps S IH F]; [done|]. simpl. destruct (f x) eqn:E.
  - intros [= <-]. split_and!; [by left|done|]. intros q Hq _.
    apply elem_of_cons in Hq as [->|Hq]; [done|].
    rewrite Forall_forall in F. specialize (F q Hq). unfold longest_first in F. lia.
  - intros H. destruct (IH H) as (H1 & H2 & H3). split_and!; [by right|done|].
    intros q Hq Hf. apply elem_of_cons in Hq as [->|Hq]; [congruence|auto].
Qed.

Lemma find_loop_ok fuel text ps i :
  Forall pattern_ok ps → longest_sorted ps →
  ordered text i (find_loop fuel text ps i)
  ∧ Forall (match_ok text ps) (find_loop fuel text ps i).
Proof.
  intros F S. revert i. induction fuel as [|fuel IH]; intros i; [done|]. simpl.
  destruct (Nat.ltb_spec i (length text)) as [Hi|Hi]; [|done].
  assert (G : ordered text i (find_loop fuel text ps (Datatypes.S i))
    ∧ Forall (match_ok text ps) (find_loop fuel text ps (Datatypes.S i))).
  { destruct (IH (Datatypes.S i)) as [H1 H2]. split; [|done].
    apply (ordered_later text i (Datatypes.S i)); [lia|done]. }
  destruct (_ || _) eqn:B; [exact G|].
  apply orb_false_iff in B as [B1%negb_false_iff%bool_decide_eq_true B2%negb_false_iff].
  destruct (List.find (matches_at text i) ps) as [p|] eqn:E; [|exact G].
  destruct (find_longest _ _ _ S E) as (Hp & Hm & Hq). rewrite Forall_forall in F.
  destruct (matches_at_spec text i p (F p Hp) Hm) as (M1 & M2 & M3).
  destruct (IH (i + length (label p))%nat) as [H1 H2]. split.
  - simpl. split_and!; [lia|lia|lia| |done]. f_equal. lia.
  - constructor; [|done]. unfold match_ok. cbn [from to_ mkind mtext].
    split_and!; [done|done|by apply andb_true_iff in Hm as [_ ?]|].
    exists p. split_and!; [done|done|done|lia|done].
Qed.

(** The fuel does not matter once it covers the rest of the text. *)
Lemma find_loop_fuel text ps i n m :
  Forall pattern_ok ps → (length text - i <= n)%nat → (length text - i <= m)%nat →
  find_loop n text ps i = find_loop m text ps i.
Proof.
  intros F. revert i m. induction n as [|n IH]; intros i m Hn Hm.
  - destruct m as [|m]; [done|]. simpl. destruct (Nat.ltb_spec i (length text)); [lia|done].
  - destruct m as [|m]; simpl.
    + destruct (Nat.ltb_spec i (length text)); [lia|done].
    + destruct (Nat.ltb_spec i (length text)); [|done].
      assert (G : find_loop n text ps (S i) = find_loop m text ps (S i)) by (apply IH; lia).
      destruct (_ || _); [exact G|]. destruct (List.find _ ps) as [p|] eqn:E; [|exact G].
      apply find_some in E as [Hp Hm']. rewrite Forall_forall in F.
      destruct (matches_at_spec text i p) as (_ & ? & _);
        [apply F; by apply list_elem_of_In|done|].
      f_equal. apply IH; lia.
Qed.

Lemma render_loop_text text ms c :
  ordered text c ms → (c <= length text)%nat →
  concat (map node_text (render_loop text ms c)) = drop c text.
Proof.
  revert c. induction ms as [|m ms IH]; intros c O Hc; simpl.
  - destruct (Nat.ltb_spec c (length text)) as [H|H]; simpl; [by rewrite app_nil_r|].
    by rewrite drop_ge by lia.
  - simpl in O. destruct O as (H1 & H2 & H3 & O).
    rewrite map_app, concat_app. simpl. rewrite (IH (to_ m)) by (done || lia). rewrite H3.
    unfold slice_at.
    replace (concat (map node_text (if (c <? from m)%nat then _ else _)))
      with (take (from m - c) (drop c text)).
    + rewrite <- (take_drop (from m - c) (drop c text)) at 2. f_equal.
      rewrite drop_drop. replace (c + (from m - c))%nat with (from m) by lia.
      rewrite <- (take_drop (to_ m - from m) (drop (from m) text)) at 2. f_equal.
      rewrite drop_drop. f_equal. lia.
    + destruct (Nat.ltb_spec c (from m)); simpl; [by rewrite app_nil_r|].
      by replace (from m - c)%nat with 0%nat by lia.
Qed.

(** Highlighting mentions shows the whole text and only the text: the pieces put
    together are the message. Every highlighted piece is the name of a member (or
    [@everyone]) up to case, stands between boundaries, and is the longest name that
    fits at its place; and the scan ends within as many steps as the text is long. *)
Theorem mentions_highlighted (names : list str) (includeChannel : bool) (text : str) :
  let ps := buildMentionPatterns names includeChannel in
  concat (map node_text (renderTextWithMentions text ps)) = text
  ∧ Forall (match_ok text ps) (findMentionMatches text ps)
  ∧ (∀ k s, Mention k s ∈ renderTextWithMentions text ps →
       ∃ p, p ∈ ps ∧ kind p = k ∧ toLowerCase s = normalized p)
  ∧ (∀ n, find_loop (length text + n) text ps 0 = findMentionMatches text ps).
Proof.
  intros ps.
  assert (F : Forall pattern_ok ps) by (apply Forall_forall; intros p; apply patterns_ok).
  pose proof (patterns_sorted names includeChannel) as S.
  destruct (find_loop_ok (length text) text ps 0 F S) as [O M].
  fold (findMentionMatches text ps) in O, M. split_and!.
  - unfold renderTextWithMentions. destruct (findMentionMatches text ps) as [|m ms] eqn:E.
    + simpl. by rewrite app_nil_r.
    + rewrite (render_loop_text text (m :: ms) 0); [done|done|lia].
  - done.
  - unfold renderTextWithMentions. destruct (findMentionMatches text ps) as [|m0 ms0].
    { intros k s Hk. by apply list_elem_of_singleton in Hk. }
    revert M. generalize (m0 :: ms0), 0%nat. clear. intros ms c M k s.
    revert c. induction M as [|m ms Hm M IH]; intros c Hk; simpl in Hk.
    + destruct (_ <? _)%nat; [by apply list_elem_of_singleton in Hk|by apply not_elem_of_nil in Hk].
    + apply elem_of_app in Hk as [Hk|Hk].
      * destruct (_ <? _)%nat; [by apply list_elem_of_singleton in Hk|by apply not_elem_of_nil in Hk].
      * apply elem_of_cons in Hk as [[= -> ->]|Hk]; [|by apply (IH (to_ m))].
        destruct Hm as (_ & _ & _ & p & ? & ? & ? & _). eauto.
  - intros n. apply find_loop_fuel; [done|lia|lia].
Qed.

(** ** Who is notified *)

Lemma resolve_fold f (users : list MentionableUser) acc i :
  i ∈ fold_left (λ resolved u, if f u && negb (has resolved (id u)) then resolved ++ [id u]
                                else resolved) users acc
  ↔ i ∈ acc ∨ ∃ u, u ∈ users ∧ id u = i ∧ f u = true.
Proof.
  revert acc. induction users as [|u users IH]; intros acc; simpl.
  - split; [by left|]. intros [?|(u & Hu & _)]; [done|]. by apply not_elem_of_nil in Hu.
  - rewrite IH. setoid_rewrite elem_of_cons. destruct (f u) eqn:E; simpl.
    + destruct (has acc (id u)) eqn:Ha; simpl.
      * apply has_true in Ha. split; [naive_solver|].
        intros [?|(v & [->|?] & <- & ?)]; [by left|by left|eauto].
      * rewrite elem_of_app, list_elem_of_singleton. naive_solver.
    + naive_solver congruence.
Qed.

Lemma resolve_nodup f (users : list MentionableUser) acc :
  NoDup acc →
  NoDup (fold_left (λ resolved u, if f u && negb (has resolved (id u)) then resolved ++ [id u]
                                  else resolved) users acc).
Proof.
  revert acc. induction users as [|u users IH]; intros acc N; simpl; [done|]. apply IH.
  destruct (_ && _) eqn:E; [|done]. apply andb_true_iff in E as [_ E%negb_true_iff%has_false].
  apply NoDup_app. split_and!; [done| |apply NoDup_singleton].
  by intros x Hx ->%list_elem_of_singleton.
Qed.

(** A message notifies the members it names. Someone is among the mentioned users
    exactly when they were picked from the suggestions and their name is still in the
    text, or the text names them and no other member shares the name; nobody is listed
    twice. *)
Theorem mentioned_users_exact (body : str) (users : list MentionableUser) (selectedIds : list Z) :
  truthy (trim body) = true →
  let resolved := resolveMentionedUserIds body users selectedIds in
  (∀ i, i ∈ resolved ↔
     (i ∈ selectedIds ∧ ∃ u, usersById users i = Some u ∧ full_name u ≠ []
                             ∧ messageContainsMention body (full_name u) = true)
     ∨ ∃ u, u ∈ users ∧ id u = i ∧ name_key u ≠ [] ∧ (nameCount users (name_key u) <= 1)%nat
            ∧ messageContainsMention body (full_name u) = true)
  ∧ (NoDup selectedIds → NoDup resolved).
Proof.
  intros Hb resolved. subst resolved. unfold resolveMentionedUserIds. rewrite Hb. simpl negb.
  cbv iota. split.
  - intros i. rewrite resolve_fold.
    assert (E1 : i ∈ List.filter (selected_resolves body users) selectedIds ↔
      i ∈ selectedIds ∧ ∃ u, usersById users i = Some u ∧ full_name u ≠ []
                             ∧ messageContainsMention body (full_name u) = true).
    { rewrite !list_elem_of_In, filter_In. unfold selected_resolves.
      destruct (usersById users i) as [u|]; [|naive_solver].
      rewrite andb_true_iff. destruct (full_name u) eqn:N; simpl; naive_solver congruence. }
    assert (E2 : ∀ u, named_unambiguously body users u = true ↔
      name_key u ≠ [] ∧ (nameCount users (name_key u) <= 1)%nat
      ∧ messageContainsMention body (full_name u) = true).
    { intros u. unfold named_unambiguously. rewrite !andb_true_iff, Nat.leb_le.
      destruct (name_key u); simpl; naive_solver. }
    rewrite E1. setoid_rewrite E2. done.
  - intros N%NoDup_ListNoDup. apply resolve_nodup, NoDup_ListNoDup. by apply List.NoDup_filter.
Qed.

Definition sample_members : list MentionableUser :=
  [{| id := 1; full_name := js "Ana Cruz"; email := js "a@x" |};
   {| id := 2; full_name := js "Ben"; email := js "b@x" |};
   {| id := 3; full_name := js "ben "; email := js "c@x" |}].

Lemma mentioned_users_exact_witness :
  resolveMentionedUserIds (js "hi @ana cruz and @Ben!") sample_members [3] = [3; 1]
  ∧ NoDup (resolveMentionedUserIds (js "hi @ana cruz and @Ben!") sample_members [3]).
Proof.
  split; [vm_compute; reflexivity|].
  apply (mentioned_users_exact (js "hi @ana cruz and @Ben!") sample_members [3]);
    [vm_compute; reflexivity|apply NoDup_singleton].
Defined.

(** ** Mentions in the mobile app *)

Definition separates (c : ascii) : bool := is_space c || is_char ["("; "["; "{"]%char c.

(** [t] is written where a member is named: after [before] and before [after], it is the
    longest name that fits there. *)
Definition named_here (names : list str) (t after : str) : Prop :=
  match after with c :: _ => name_goes_on c = false | [] => True end
  ∧ ∃ n, n ∈ names ∧ toLowerCase t = toLowerCase n
         ∧ ∀ n', n' ∈ names → names_head (t ++ after) n' = true → (length n' <= length n)%nat.

Definition longest_names (names : list str) : Prop :=
  StronglySorted (λ a b, (length b <= length a)%nat) names.

Lemma member_names_sorted users : longest_names (member_names users).
Proof.
  assert (S : StronglySorted (λ a b : str, Z.of_nat (length b) - Z.of_nat (length a) <= 0)
                (member_names users)).
  { apply (js_sort_sorted _ (λ _, True)); [|by apply Forall_forall]. split; intros; lia. }
  unfold longest_names. induction S as [|x l S IH F]; constructor; [done|].
  eapply Forall_impl; [exact F|]. cbn. intros; lia.
Qed.

Lemma at_name_spec names s t rest :
  longest_names names → at_name names s = Some (t, rest) → s = AT :: t ++ rest ∧ named_here names t rest.
Proof.
  intros S. unfold at_name. destruct s as [|c r]; [done|]. case_bool_decide as C; [|done]. subst c.
  destruct (List.find (names_head r) names) as [n|] eqn:F; [|done]. cbn. intros [= <- <-].
  rewrite take_drop. split; [done|].
  assert (L : n ∈ names ∧ names_head r n = true
              ∧ ∀ n', n' ∈ names → names_head r n' = true → (length n' <= length n)%nat).
  { clear -S F. induction S as [|x l S IH Fx]; [done|]. simpl in F. destruct (names_head r x) eqn:E.
    - injection F as <-. split_and!; [by left|done|]. intros n' [->|H]%elem_of_cons _; [done|].
      by rewrite Forall_forall in Fx; apply Fx.
    - destruct (IH F) as (H1 & H2 & H3). split_and!; [by right|done|].
      intros n' [->|H]%elem_of_cons Hn; [congruence|auto]. }
  destruct L as (L1 & L2 & L3). unfold names_head in L2. apply andb_true_iff in L2 as [E%eqs_true G].
  split.
  - destruct (drop (length n) r); [done|]. by apply negb_true_iff in G.
  - exists n. split_and!; [done|done|]. intros n' H1 H2. apply L3; [done|]. by rewrite take_drop in H2.
Qed.

Lemma mention_here_spec names first s t rest :
  longest_names names → mention_here names first s = Some (t, rest) →
  ∃ p, s = p ++ AT :: t ++ rest ∧ named_here names t rest
       ∧ (p = [] ∧ first = true ∨ ∃ c, p = [c] ∧ separates c = true).
Proof.
  intros S. unfold mention_here.
  destruct (if first then at_name names s else None) as [x|] eqn:E.
  - intros [= ->]. destruct first; [|done]. apply at_name_spec in E as [-> N]; [|done].
    exists []. split_and!; auto.
  - destruct s as [|c r]; [done|]. fold (separates c). destruct (separates c) eqn:C; [|done].
    intros [-> N]%at_name_spec; [|done]. exists [c]. split_and!; eauto.
Qed.

Definition boundary (p : str) : Prop := p = [] ∨ ∃ q c, p = q ++ [c] ∧ separates c = true.

Lemma mention_scan_spec fuel names first pre s t :
  longest_names names → (first = true → pre = []) → t ∈ mention_scan fuel names first s →
  ∃ p q, pre ++ s = p ++ AT :: t ++ q ∧ boundary p ∧ named_here names t q.
Proof.
  intros S. revert first pre s. induction fuel as [|fuel IH]; intros first pre s F H.
  { by apply not_elem_of_nil in H. }
  cbn [mention_scan] in H. destruct (mention_here names first s) as [[t' rest]|] eqn:E.
  - apply mention_here_spec in E as (p & -> & N & B); [|done]. apply elem_of_cons in H as [->|H].
    + exists (pre ++ p), rest. split_and!; [by rewrite <- app_assoc| |done].
      destruct B as [[-> Hf]|(c & -> & C)]; [left; by rewrite (F Hf)|right; eauto].
    + destruct (IH false (pre ++ p ++ AT :: t') rest ltac:(done) H) as (p' & q & E & B' & N').
      exists p', q. split_and!; [|done|done]. rewrite <- E. by rewrite <- !app_assoc.
  - destruct s as [|c r]; [by apply not_elem_of_nil in H|].
    destruct (IH false (pre ++ [c]) r ltac:(done) H) as (p & q & E' & B & N).
    exists p, q. split_and!; [|done|done]. rewrite <- E'. by rewrite <- app_assoc.
Qed.

Lemma split_mentions_text fuel names acc s :
  longest_names names → concat (split_mentions fuel names acc s) = acc ++ s.
Proof.
  intros S. revert acc s. induction fuel as [|fuel IH]; intros acc [|c r]; cbn [split_mentions];
    try (by rewrite concat_cons, app_nil_r).
  destruct (at_name names (c :: r)) as [[t rest]|] eqn:E.
  - apply at_name_spec in E as [E _]; [|done]. rewrite E, !concat_cons, IH. done.
  - by rewrite IH, <- app_assoc.
Qed.

Lemma concat_truthy (l : list str) : concat (List.filter truthy l) = concat l.
Proof. induction l as [|x l IH]; [done|]. destruct x; simpl; by rewrite ?IH. Qed.

(** A message of the mobile app notifies exactly the members whose name stands in it: after
    the start of the text or a separator, not followed by a letter, a digit or a dash, and
    the longest member name that fits there. Its segments put together are the message. *)
Theorem mobile_mentions_named (body : str) (users : list MentionableUser) :
  (∀ i, i ∈ resolveMentionUserIds body users →
     ∃ u p t q, u ∈ users ∧ id u = i ∧ body = p ++ AT :: t ++ q ∧ boundary p
       ∧ toLowerCase t = toLowerCase (full_name u) ∧ named_here (member_names users) t q)
  ∧ concat (map fst (messageSegments body users)) = body.
Proof.
  pose proof (member_names_sorted users) as S. split.
  - intros i H. unfold resolveMentionUserIds in H.
    destruct (member_names users) as [|n ns]; [by apply not_elem_of_nil in H|].
    apply list_elem_of_fmap in H as (u & -> & Hu). apply list_elem_of_In, filter_In in Hu as [Hu Hm].
    apply list_elem_of_In in Hu. apply has_true, list_elem_of_fmap in Hm as (t & Ht & Hs).
    apply (mention_scan_spec _ _ true []) in Hs as (p & q & E & B & N); [|done|done].
    exists u, p, t, q. split_and!; try done; by apply N.
  - unfold messageSegments. destruct (member_names users) as [|n ns] eqn:E.
    + cbn. apply app_nil_r.
    + rewrite map_map. cbn [fst]. rewrite map_id, concat_truthy. by apply split_mentions_text.
Qed.

(** Text that only begins with an at sign is shown as a mention, whatever follows. *)
Lemma at_sign_shown_as_mention :
  messageSegments (js "@home today, back tomorrow") sample_members
  = [(js "@home today, back tomorrow", true)]
  ∧ resolveMentionUserIds (js "@home today, back tomorrow") sample_members = [].
Proof. vm_compute. done. Qed.
