(* ===== verification/WebComposer.v ===== *)
(** * Mentions in the composer of the web

    The part of [web/src/pages/shared/Messages.tsx] between the editor and the list of
    suggestions: the token before the cursor, the suggestion that is highlighted, the keys,
    and putting a mention into the text. The document of the editor is the text before and
    after the cursor, its blocks separated by newlines. *)

From S2P Require Import Prelude.
From S2P Require Import Keyed.
From S2P Require Import Regex.
From S2P Require Import Mentions.

(** ** The token *)

(** [editorTextBeforeCursor]: at most 80 characters. *)
Definition textBeforeCursor (before : str) : str := drop (length before - 80) before.

Definition not_LF (c : ascii) : bool := negb (bool_decide (c = LF)).

(** [/(^|\s)@([^\s@]* )$/] (without the space) *)
Definition token_pattern : matcher :=
  seq (alt bol (chr is_space))
    (seq (lit [AT]) (seq (group 2 (star (λ c, negb (is_space c) && negb (bool_decide (c = AT))))) eol)).

Definition mentionToken (trigger : str) : option str :=
  match exec token_pattern trigger with Some x => Some (cap 2 x.2) | None => None end.

(** [/(^|\s)@[^\n]*$/], what a chosen mention replaces. *)
Definition replace_pattern : matcher :=
  seq (alt bol (chr is_space)) (seq (lit [AT]) (seq (star not_LF) eol)).

(** ** The composer *)

Record Composer := {
  before : str; after : str;              (* the document around the cursor *)
  composerTriggerText : str; activeMentionIndex : Z; composerMentionUserIds : list Z;
  submitted : nat;                        (* how often the form was submitted by a key *)
  crashed : bool;                         (* a handler threw *)
}.

Definition set_text (b a t : str) (s : Composer) : Composer := {|
  before := b; after := a; composerTriggerText := t; activeMentionIndex := activeMentionIndex s;
  composerMentionUserIds := composerMentionUserIds s; submitted := submitted s; crashed := crashed s |}.
Definition set_mention (i : Z) (l : list Z) (s : Composer) : Composer := {|
  before := before s; after := after s; composerTriggerText := composerTriggerText s; activeMentionIndex := i;
  composerMentionUserIds := l; submitted := submitted s; crashed := crashed s |}.
Definition set_done (n : nat) (c : bool) (s : Composer) : Composer := {|
  before := before s; after := after s; composerTriggerText := composerTriggerText s;
  activeMentionIndex := activeMentionIndex s; composerMentionUserIds := composerMentionUserIds s;
  submitted := n; crashed := c |}.

(** The editor reports a change of the text or of the cursor. *)
Definition edited (b a : str) (s : Composer) : Composer := set_text b a (textBeforeCursor b) s.

(** The effect on the token: the first suggestion is highlighted. *)
Definition on_token (old : option str) (s : Composer) : Composer :=
  if decide (old = mentionToken (composerTriggerText s)) then s
  else set_mention 0 (composerMentionUserIds s) s.

(** [insertIntoComposer]: [match[0].trimStart()] characters before the cursor are replaced. *)
Definition insertIntoComposer (insert : str) (s : Composer) : Composer :=
  match exec replace_pattern (composerTriggerText s) with
  | Some (m0, m1) =>
      let from := (length (before s) - length (trimStart (consumed m0 m1)))%nat in
      edited (take from (before s) ++ insert) (after s) s
  | None => edited (before s ++ insert) (after s) s
  end.

Section Keys.
(** The people that can be mentioned, and whether the conversation is a channel. *)
Context (users : list MentionableUser) (in_channel : bool).
(** [Number(mention.id)] of a user's suggestion. *)
Context (Number : str → Z).

Definition mentionSuggestions (s : Composer) : list MentionSuggestion :=
  web_suggestions (mentionToken (composerTriggerText s)) in_channel users.

Definition selectMention (m : MentionSuggestion) (s : Composer) : Composer :=
  let ids := composerMentionUserIds s in
  let s1 := match s_kind m with
            | user_mention => set_mention (activeMentionIndex s)
                                (if has ids (Number (s_id m)) then ids else ids ++ [Number (s_id m)]) s
            | channel_mention => s end in
  insertIntoComposer (s_label m ++ js " ") s1.

Inductive Key := ArrowDown | ArrowUp | Enter | Tab | Escape.

(** [handleComposerKeyDown] without the shortcuts of the toolbar; [modifier] is the control
    or the command key. *)
Definition handleComposerKeyDown (key : Key) (modifier : bool) (s : Composer) : Composer :=
  let l := mentionSuggestions s in
  let n := Z.of_nat (length l) in
  if 0 <? n then
    match key with
    | ArrowDown => set_mention (Z.rem (activeMentionIndex s + 1) n) (composerMentionUserIds s) s
    | ArrowUp => set_mention (Z.rem (activeMentionIndex s - 1 + n) n) (composerMentionUserIds s) s
    | Enter | Tab =>
        match (if activeMentionIndex s <? 0 then None else l !! Z.to_nat (activeMentionIndex s)) with
        | Some m => selectMention m s
        | None => set_done (submitted s) true s       (* [mention.kind] of [undefined] *)
        end
    | Escape => set_text (before s) (after s) [] s
    end
  else match key with
       | Enter => if modifier then set_done (S (submitted s)) (crashed s) s else s
       | _ => s
       end.

Inductive event_ := Edits (b a : str) | Presses (k : Key) (modifier : bool) | Clicks (m : MentionSuggestion).

Definition composer_step (s : Composer) (e : event_) : Composer :=
  on_token (mentionToken (composerTriggerText s))
    match e with
    | Edits b a => edited b a s
    | Presses k m => handleComposerKeyDown k m s
    | Clicks m => selectMention m s
    end.

Definition run_composer (es : list event_) (s : Composer) : Composer := fold_left composer_step es s.

Definition empty_composer : Composer := {|
  before := []; after := []; composerTriggerText := []; activeMentionIndex := 0;
  composerMentionUserIds := []; submitted := 0; crashed := false |}.

(** ** The highlighted suggestion exists *)

Definition highlighted_ok (s : Composer) : Prop :=
  crashed s = false ∧ 0 <= activeMentionIndex s
  ∧ (mentionSuggestions s ≠ [] → activeMentionIndex s < Z.of_nat (length (mentionSuggestions s))).

Lemma token_highlighted old s :
  crashed s = false → 0 <= activeMentionIndex s → (old = mentionToken (composerTriggerText s) →
    mentionSuggestions s ≠ [] → activeMentionIndex s < Z.of_nat (length (mentionSuggestions s))) →
  highlighted_ok (on_token old s).
Proof.
  intros C P H. unfold on_token. destruct (decide _) as [E|E]; [split_and!; [done|done|by apply H]|].
  split_and!; [done|done|]. cbn. intros N. change (mentionSuggestions (set_mention _ _ s)) with (mentionSuggestions s) in *.
  destruct (mentionSuggestions s); [done|]. cbn. lia.
Qed.

Lemma insert_frame x s :
  crashed (insertIntoComposer x s) = crashed s
  ∧ activeMentionIndex (insertIntoComposer x s) = activeMentionIndex s.
Proof. unfold insertIntoComposer. by destruct (exec _ _) as [[]|]. Qed.

Lemma select_frame m s :
  crashed (selectMention m s) = crashed s ∧ activeMentionIndex (selectMention m s) = activeMentionIndex s.
Proof.
  unfold selectMention.
  match goal with |- context [insertIntoComposer ?x ?t] => destruct (insert_frame x t) as [-> ->] end.
  by destruct (s_kind m).
Qed.

Lemma same_token s s' :
  highlighted_ok s → crashed s' = crashed s → activeMentionIndex s' = activeMentionIndex s →
  highlighted_ok (on_token (mentionToken (composerTriggerText s)) s').
Proof.
  intros (C & P & H) E I. apply token_highlighted; [by rewrite E|by rewrite I|]. intros T. rewrite I.
  unfold mentionSuggestions in *. by rewrite <- T.
Qed.

Lemma composer_step_ok s e : highlighted_ok s → highlighted_ok (composer_step s e).
Proof.
  intros O. pose proof O as (C & P & H). unfold composer_step. destruct e as [b a|k m|m].
  - by apply same_token.
  - unfold handleComposerKeyDown. set (n := Z.of_nat (length (mentionSuggestions s))) in *.
    destruct (Z.ltb_spec 0 n) as [L|L].
    + assert (N : mentionSuggestions s ≠ []) by (intros E; unfold n in L; rewrite E in L; cbn in L; lia).
      specialize (H N). destruct k; [| | | |by apply same_token].
      * pose proof (Z.rem_bound_pos (activeMentionIndex s + 1) n). apply token_highlighted; cbn; [done|lia|].
        intros _ _. change (mentionSuggestions (set_mention _ _ s)) with (mentionSuggestions s). lia.
      * pose proof (Z.rem_bound_pos (activeMentionIndex s - 1 + n) n). apply token_highlighted; cbn; [done|lia|].
        intros _ _. change (mentionSuggestions (set_mention _ _ s)) with (mentionSuggestions s). lia.
      * destruct (Z.ltb_spec (activeMentionIndex s) 0); [lia|].
        destruct (mentionSuggestions s !! _) as [x|] eqn:X; [|apply lookup_ge_None_1 in X; unfold n in H; lia].
        by apply same_token; try apply select_frame.
      * destruct (Z.ltb_spec (activeMentionIndex s) 0); [lia|].
        destruct (mentionSuggestions s !! _) as [x|] eqn:X; [|apply lookup_ge_None_1 in X; unfold n in H; lia].
        by apply same_token; try apply select_frame.
    + destruct k; try (by apply same_token). destruct m; by apply same_token.
  - by apply same_token; try apply select_frame.
Qed.

(** Whatever is typed and pressed, as long as the people stay the same, the highlighted
    suggestion is one of the list: the arrows go round, and choosing it never fails. *)
Theorem highlighted_suggestion_exists (es : list event_) : highlighted_ok (run_composer es empty_composer).
Proof.
  assert (G : highlighted_ok empty_composer) by (by split_and!).
  revert G. unfold run_composer. generalize empty_composer. induction es as [|e es IH]; intros s G; [done|].
  by apply IH, composer_step_ok.
Qed.

End Keys.

(** ** A mention replaces its token *)

(** Every at sign of [w] has a newline behind it: none begins a mention on the last line. *)
Definition no_mention_before (w : str) : Prop := ∀ a z, w = a ++ AT :: z → LF ∈ z.

Lemma no_mention_tail c w : no_mention_before (c :: w) → no_mention_before w.
Proof. intros H a z ->. by apply (H (c :: a)). Qed.

Lemma line_to_end b t cs :
  star_go not_LF b t cs (λ s, eol s Some) = if has t LF then None else Some (RState (reverse t ++ b) [] cs).
Proof.
  revert b. induction t as [|c t IH]; intros b; cbn [star_go]; [done|].
  unfold not_LF at 1. destruct (bool_decide_reflect (c = LF)) as [->|N]; cbn [negb].
  - replace (has (LF :: t) LF) with true; [done|]. symmetry. apply has_true. by left.
  - rewrite IH. replace (has (c :: t) LF) with (has t LF).
    + destruct (has t LF); [done|]. by rewrite reverse_cons, <- app_assoc.
    + apply eq_true_iff_eq. rewrite !has_true, elem_of_cons. split; [by right|]. intros [E|?]; [congruence|done].
Qed.

(** From an at sign on. *)
Definition at_rest : matcher := seq (lit [AT]) (seq (star not_LF) eol).

Lemma at_rest_spec b c t cs :
  at_rest (RState b (c :: t) cs) Some
  = if bool_decide (c = AT) then if has t LF then None else Some (RState (reverse t ++ c :: b) [] cs) else None.
Proof.
  unfold at_rest, lit, seq, chr, eps. cbn [rest]. destruct (bool_decide_reflect (c = AT)) as [->|N]; [|done].
  unfold star. cbn [Regex.before rest caps step]. by rewrite line_to_end.
Qed.

Lemma replace_here b c t :
  replace_pattern (RState b (c :: t) []) Some
  = match (if b is [] then at_rest (RState b (c :: t) []) Some else None) with
    | Some x => Some x
    | None => if is_space c then at_rest (RState (c :: b) t []) Some else None
    end.
Proof. unfold replace_pattern, at_rest, seq, alt, bol, chr. by destruct b. Qed.

Lemma at_rest_later b w q :
  w ≠ [] → no_mention_before w → at_rest (RState b (w ++ AT :: q) []) Some = None.
Proof.
  intros N H. destruct w as [|c w]; [done|]. cbn [app]. rewrite at_rest_spec.
  destruct (bool_decide_reflect (c = AT)) as [->|_]; [|done].
  replace (has (w ++ AT :: q) LF) with true; [done|]. symmetry. apply has_true, elem_of_app. left. by apply (H []).
Qed.

Lemma trimStart_at c q : is_space c = true → trimStart (c :: AT :: q) = AT :: q.
Proof. intros H. unfold trimStart. cbn. by rewrite H. Qed.

(** The leftmost match begins at the token. *)
Lemma replace_found b w q :
  LF ∉ q → no_mention_before w → (w = [] ∧ b = []) ∨ (∃ v c, w = v ++ [c] ∧ is_space c = true) →
  ∃ m0 m1, search replace_pattern b (w ++ AT :: q) = Some (m0, m1) ∧ trimStart (consumed m0 m1) = AT :: q.
Proof.
  intros L. assert (Lq : has q LF = false) by (by apply has_false). revert b.
  induction w as [|c w IH]; intros b H B.
  - destruct B as [[_ ->]|(v & c & E & _)]; [|by destruct v]. cbn [app search]. rewrite replace_here, at_rest_spec.
    rewrite bool_decide_eq_true_2 by done. rewrite Lq. eexists _, _. split; [done|].
    rewrite (consumed_word _ _ (AT :: q)); [done|]. cbn [Regex.before]. by rewrite reverse_cons, <- app_assoc.
  - destruct w as [|d w].
    + assert (S : is_space c = true).
      { destruct B as [[[=] _]|(v & e & E & S)]. destruct v as [|? [|]]; by injection E as ->. }
      assert (A : bool_decide (c = AT) = false) by (apply bool_decide_eq_false_2; intros ->; by vm_compute in S).
      cbn [app search]. rewrite replace_here, !at_rest_spec, A, S.
      rewrite bool_decide_eq_true_2 by done. rewrite Lq.
      assert (M : ∀ x : option rstate, (if b is [] then None else None) = (None : option rstate)) by (by destruct b).
      rewrite (M None). eexists _, _. split; [done|].
      rewrite (consumed_word _ _ (c :: AT :: q)); [by apply trimStart_at|]. cbn [Regex.before]. by rewrite !reverse_cons, <- !app_assoc.
    + destruct (IH (c :: b)) as (m0 & m1 & F & T); [by apply no_mention_tail in H| |].
      { right. destruct B as [[[=] _]|(v & e & E & S)]. destruct v as [|? v]; [done|]. injection E as -> E. eauto. }
      exists m0, m1. split; [|done]. rewrite <- F.
      change ((c :: d :: w) ++ AT :: q) with (c :: ((d :: w) ++ AT :: q)). cbn [search].
      rewrite replace_here. rewrite (at_rest_later _ (d :: w)) by (try done; by apply no_mention_tail in H).
      change (c :: (d :: w) ++ AT :: q) with ((c :: d :: w) ++ AT :: q). rewrite at_rest_later by done.
      by destruct b, (is_space c).
Qed.

Lemma no_mention_drop k w : no_mention_before w → no_mention_before (drop k w).
Proof.
  revert w. induction k as [|k IH]; intros [|c w] H; try done. by apply IH, (no_mention_tail c).
Qed.

(** A mention that is chosen replaces what was typed for it. If no other mention begins
    earlier on the line, choosing a suggestion replaces the at sign before the cursor and
    what follows it by the name and a space, and leaves the rest of the text, before and
    after, as it was; a user that is chosen is remembered once. *)
Theorem mention_replaces_token (Number : str → Z) (m : MentionSuggestion) (s : Composer) (p q : str) :
  before s = p ++ AT :: q → composerTriggerText s = textBeforeCursor (before s) →
  LF ∉ q → (length q < 80)%nat → p = [] ∨ (∃ v c, p = v ++ [c] ∧ is_space c = true) → no_mention_before p →
  let s' := selectMention Number m s in
  before s' = p ++ s_label m ++ js " " ∧ after s' = after s
  ∧ (NoDup (composerMentionUserIds s) → NoDup (composerMentionUserIds s'))
  ∧ (s_kind m = user_mention → Number (s_id m) ∈ composerMentionUserIds s').
Proof.
  intros B T L Q P N s'.
  assert (W : ∃ k, composerTriggerText s = drop k p ++ AT :: q).
  { rewrite T, B. unfold textBeforeCursor. rewrite length_app. cbn [length].
    exists (length p + S (length q) - 80)%nat. rewrite drop_app_le by lia. done. }
  destruct W as [k W].
  destruct (replace_found [] (drop k p) q L) as (m0 & m1 & F & M).
  { by apply no_mention_drop. }
  { destruct (decide (k < length p)%nat) as [K|K]; [|left; split; [apply drop_ge; lia|done]].
    destruct P as [->|(v & c & -> & S)]; [cbn in K; lia|]. right. rewrite length_app in K. cbn in K.
    exists (drop k v), c. split; [|done]. apply drop_app_le. lia. }
  assert (I : ∀ x s1, before s1 = before s → after s1 = after s → composerTriggerText s1 = composerTriggerText s →
    before (insertIntoComposer x s1) = p ++ x ∧ after (insertIntoComposer x s1) = after s
    ∧ composerMentionUserIds (insertIntoComposer x s1) = composerMentionUserIds s1).
  { intros x s1 B1 A1 T1. unfold insertIntoComposer. rewrite T1, W. unfold exec. rewrite F, M, B1, B.
    rewrite length_app. replace (length p + length (AT :: q) - length (AT :: q))%nat with (length p) by lia.
    rewrite take_app_length. split_and!; [done|exact A1|done]. }
  unfold s', selectMention. destruct (s_kind m).
  - match goal with |- context [insertIntoComposer ?x ?t] => destruct (I x t) as (-> & -> & ->) end; try done.
    cbn. split_and!; [done|done| |].
    + intros D. destruct (has _ _) eqn:H; [done|]. apply has_false in H. apply NoDup_app.
      split_and!; [done|by intros y Hy ->%list_elem_of_singleton|apply NoDup_singleton].
    + intros _. destruct (has _ _) eqn:H; [by apply has_true in H|]. apply elem_of_app. right. by left.
  - destruct (I (s_label m ++ js " ") s) as (-> & -> & ->); done.
Qed.

(** ** Examples *)

Definition ana : MentionableUser := {| id := 5; full_name := js "Ana Cruz"; email := js "ana@csg" |}.
Definition sample_suggestion : MentionSuggestion :=
  {| s_id := js "5"; s_label := js "@Ana Cruz"; subtitle := js "ana@csg"; s_kind := user_mention |}.
Definition at_cursor (t : string) : Composer := edited (js t) (js " bye") empty_composer.

Lemma mention_replaces_token_witness :
  before (selectMention (λ _, 5) sample_suggestion (at_cursor "hello @an")) = js "hello @Ana Cruz ".
Proof.
  apply (mention_replaces_token (λ _, 5) sample_suggestion (at_cursor "hello @an") (js "hello ") (js "an")).
  - reflexivity.
  - reflexivity.
  - apply (bool_decide_unpack _). vm_compute. exact I.
  - cbn. lia.
  - right. exists (js "hello"), " "%char. split; reflexivity.
  - intros a z E. assert (H : AT ∈ js "hello ") by (rewrite E; apply elem_of_app; right; by left).
    exfalso. revert H. apply (bool_decide_unpack _). vm_compute. exact I.
Defined.

(** The pattern that is replaced allows spaces and at signs, and the leftmost match is taken:
    a second mention on a line erases everything from the first on. *)
Lemma second_mention_erases :
  mentionToken (composerTriggerText (at_cursor "@Ana Cruz please ask @be")) = Some (js "be")
  ∧ before (selectMention (λ _, 7) {| s_id := js "7"; s_label := js "@Ben"; subtitle := []; s_kind := user_mention |}
      (at_cursor "@Ana Cruz please ask @be")) = js "@Ben ".
Proof. split; vm_compute; reflexivity. Qed.

(** When the people change while a token is typed (the panel of the workspace arrives), the
    highlighted suggestion may be beyond the list, and choosing it fails. *)
Lemma shrunk_suggestions_crash :
  let two := [ana; {| id := 6; full_name := js "Andy"; email := js "andy@csg" |}] in
  let s := run_composer two false (λ _, 5) [Edits (js "@an") []; Presses ArrowDown false] empty_composer in
  crashed s = false ∧ crashed (composer_step [ana] false (λ _, 5) s (Presses Enter false)) = true.
Proof. split; vm_compute; reflexivity. Qed.
