(* ===== verification/Storage.v ===== *)
(** * What the apps keep on the device

    [mobile/src/lib/conversation-storage.ts], [mobile/src/lib/submission-storage.ts] and
    [mobile/src/lib/learning-cache.ts]: drafts, messages that failed to send and the
    learning cache, under one key per user and place; the scroll positions of
    [web/src/pages/shared/Messages.tsx]. [AsyncStorage] and the table of the learning
    cache are maps from keys to text. *)

From S2P Require Import Prelude.
From S2P Require Import Json.

(** The store: [AsyncStorage] (or [sessionStorage] in the browser). *)
Abbreviation Store := (gmap str str).

(** ** Keys *)

Inductive Kind := channel | dm.

#[export] Instance Kind_eq_dec : EqDecision Kind.
Proof. solve_decision. Defined.

Definition kind_name (k : Kind) : str := match k with channel => js "channel" | dm => js "dm" end.

Definition num (n : Z) : str := str_of_Z n.
Definition DOT : ascii := "."%char.

Definition conversationDraftKey (userId : Z) (kind : Kind) (id : Z) : str :=
  js "csg.message-draft." ++ num userId ++ [DOT] ++ kind_name kind ++ [DOT] ++ num id.

Definition failedMessagesKey (userId : Z) (kind : Kind) (id : Z) : str :=
  js "csg.failed-messages." ++ num userId ++ [DOT] ++ kind_name kind ++ [DOT] ++ num id.

Definition threadDraftKey (userId rootMessageId : Z) : str :=
  js "csg.thread-draft." ++ num userId ++ [DOT] ++ num rootMessageId.

Definition submissionDraftKey (userId contentBlockId : Z) : str :=
  js "csg.submission-draft." ++ num userId ++ [DOT] ++ num contentBlockId.

(** The keys of the other providers; [subject] is the identity of the sign-in. *)
Definition PUSH_TOKEN_KEY : str := js "csg.push.token".
Definition userCacheKey (subject : str) : str := js "csg.session.user." ++ subject.
Definition inboxKey (userId : Z) : str := js "csg.inbox." ++ num userId.
Definition workspaceCacheKey (userId : Z) : str := js "csg.workspaces." ++ num userId.
Definition activeWorkspaceCacheKey (userId : Z) : str := js "csg.workspace.active." ++ num userId.

(** ** Drafts of messages and threads *)

Definition getItem (key : str) (st : Store) : option str := st !! key.

Definition load_text (key : str) (st : Store) : str := default [] (getItem key st).

Definition save_text (key body : str) (st : Store) : Store :=
  if truthy (trim body) then <[key := body]> st else delete key st.

Definition loadConversationDraft (u : Z) (k : Kind) (i : Z) (st : Store) : str :=
  load_text (conversationDraftKey u k i) st.
Definition saveConversationDraft (u : Z) (k : Kind) (i : Z) (body : str) (st : Store) : Store :=
  save_text (conversationDraftKey u k i) body st.
Definition loadThreadDraft (u root : Z) (st : Store) : str := load_text (threadDraftKey u root) st.
Definition saveThreadDraft (u root : Z) (body : str) (st : Store) : Store :=
  save_text (threadDraftKey u root) body st.

(** ** Messages that failed to send *)

Definition field (name : string) (j : json) : option json :=
  match j with
  | JObj l => snd <$> List.find (λ p, eqs p.1 (js name)) (reverse l)
  | _ => None
  end.

(** [message.client_status === 'failed']; reading a property of [null] throws. *)
Definition is_failed (message : json) : bool :=
  match field "client_status" message with Some (JStr s) => eqs s (js "failed") | _ => false end.

Definition is_null (j : json) : bool := match j with JNull => true | _ => false end.

(** The messages, and the store: text that cannot be read is removed. *)
Definition loadFailedMessages (u : Z) (k : Kind) (i : Z) (st : Store) : list json * Store :=
  let key := failedMessagesKey u k i in
  match getItem key st with
  | None | Some [] => ([], st)
  | Some value =>
      match parse value with
      | Some (JArr messages) =>
          if existsb is_null messages then ([], delete key st)
          else (List.filter is_failed messages, st)
      | _ => ([], delete key st)
      end
  end.

Definition saveFailedMessages (u : Z) (k : Kind) (i : Z) (messages : list json) (st : Store)
    : Store :=
  let failed := List.filter is_failed messages in
  let key := failedMessagesKey u k i in
  match failed with
  | [] => delete key st
  | _ => <[key := print (JArr failed)]> st
  end.

Definition conversation_prefixes (u : Z) : list str :=
  [js "csg.message-draft." ++ num u ++ [DOT]; js "csg.thread-draft." ++ num u ++ [DOT];
   js "csg.failed-messages." ++ num u ++ [DOT]].

Definition remove_prefixed (prefixes : list str) (st : Store) : Store :=
  filter (λ kv, existsb (startsWith kv.1) prefixes = false) st.

Definition clearUserConversationStorage (u : Z) (st : Store) : Store :=
  remove_prefixed (conversation_prefixes u) st.

(** ** Drafts of submissions *)

Record SubmissionDraft := {
  text : str;
  base_submission_id : option Z;
  base_submission_updated_at : option str;
  saved_at : str;
}.

#[export] Instance SubmissionDraft_eq_dec : EqDecision SubmissionDraft.
Proof. solve_decision. Defined.

Definition submissionDraftMatches (d : SubmissionDraft) (submissionId : option Z)
    (submissionUpdatedAt : option str) : bool :=
  bool_decide (base_submission_id d = submissionId)
  && bool_decide (base_submission_updated_at d = submissionUpdatedAt).

Definition draft_json (d : SubmissionDraft) : json := JObj [
  (js "text", JStr (text d));
  (js "base_submission_id", match base_submission_id d with Some i => JNum i | None => JNull end);
  (js "base_submission_updated_at",
    match base_submission_updated_at d with Some s => JStr s | None => JNull end);
  (js "saved_at", JStr (saved_at d))].

(** The checks of [loadSubmissionDraft]. *)
Definition draft_of_json (j : json) : option SubmissionDraft :=
  match field "text" j, field "base_submission_id" j, field "saved_at" j with
  | Some (JStr t), Some id, Some (JStr saved) =>
      match (match id with JNull => Some None | JNum i => Some (Some i) | _ => None end) with
      | None => None
      | Some base =>
          match field "base_submission_updated_at" j with
          | None | Some JNull =>
              Some {| text := t; base_submission_id := base; base_submission_updated_at := None;
                      saved_at := saved |}
          | Some (JStr s) =>
              Some {| text := t; base_submission_id := base; base_submission_updated_at := Some s;
                      saved_at := saved |}
          | _ => None
          end
      end
  | _, _, _ => None
  end.

#[export] Instance draft_codec : JsonCodec SubmissionDraft.
Proof.
  refine {| to_json := draft_json; of_json := draft_of_json |}. by intros [t [b|] [u|] s].
Defined.

Definition loadSubmissionDraft (u b : Z) (st : Store) : option SubmissionDraft * Store :=
  let key := submissionDraftKey u b in
  match getItem key st with
  | None | Some [] => (None, st)
  | Some value =>
      match parse_as value with
      | Some d => (Some d, st)
      | None => (None, delete key st)
      end
  end.

(** [now] is [new Date().toISOString()]. *)
Definition saveSubmissionDraft (u b : Z) (t : str) (baseId : option Z) (baseAt : option str)
    (now : str) (st : Store) : Store :=
  let key := submissionDraftKey u b in
  if truthy (trim t)
  then <[key := stringify {| text := t; base_submission_id := baseId;
                             base_submission_updated_at := baseAt; saved_at := now |}]> st
  else delete key st.

Definition clearSubmissionDraft (u b : Z) (st : Store) : Store := delete (submissionDraftKey u b) st.

Definition clearUserSubmissionDrafts (u : Z) (st : Store) : Store :=
  remove_prefixed [js "csg.submission-draft." ++ num u ++ [DOT]] st.

(** ** The learning cache *)

Definition learningCacheKey (u : Z) : str := js "learning-v1:user:" ++ num u.

Definition persistClient (u : Z) (client : json) (db : Store) : Store :=
  <[learningCacheKey u := print client]> db.

Definition restoreClient (u : Z) (db : Store) : option json * Store :=
  match db !! learningCacheKey u with
  | None => (None, db)
  | Some payload => match parse payload with
                    | Some client => (Some client, db)
                    | None => (None, delete (learningCacheKey u) db)
                    end
  end.

Definition removeClient (u : Z) (db : Store) : Store := delete (learningCacheKey u) db.
Definition clearLearningCache (u : Z) (db : Store) : Store := delete (learningCacheKey u) db.

(** ** Scroll positions in the browser *)

Definition targetKey (k : Kind) (i : Z) : str := kind_name k ++ [":"%char] ++ num i.
Definition scrollStorageKey (u : Z) (k : Kind) (i : Z) : str :=
  js "csg-message-scroll:" ++ num u ++ [":"%char] ++ targetKey k i.

Record SavedScroll := { distanceFromBottom : Z; atBottom : bool }.

Definition readSavedConversationScroll (u : option Z) (k : Kind) (i : Z) (st : Store)
    : option SavedScroll :=
  match u with
  | None => None
  | Some u =>
      if u =? 0 then None
      else match st !! scrollStorageKey u k i with
      | None | Some [] => None
      | Some raw =>
          match parse raw with
          | Some j => match field "distanceFromBottom" j, field "atBottom" j with
                      | Some (JNum d), Some (JBool b) =>
                          Some {| distanceFromBottom := Z.max 0 d; atBottom := b |}
                      | _, _ => None end
          | None => None
          end
      end
  end.

Definition saveConversationScroll (u : option Z) (k : Kind) (i : Z)
    (scrollHeight scrollTop clientHeight : Z) (st : Store) : Store :=
  match u with
  | None => st
  | Some u =>
      if u =? 0 then st
      else
        let d := Z.max 0 (scrollHeight - scrollTop - clientHeight) in
        <[scrollStorageKey u k i :=
            print (JObj [(js "distanceFromBottom", JNum d); (js "atBottom", JBool (d <? 96))])]> st
  end.

(** ** Every place has its own key *)

Inductive Slot :=
| Conversation (u : Z) (k : Kind) (i : Z)
| Thread (u root : Z)
| Failed (u : Z) (k : Kind) (i : Z)
| SubmissionOf (u b : Z).

Definition slot_key (s : Slot) : str :=
  match s with
  | Conversation u k i => conversationDraftKey u k i
  | Thread u r => threadDraftKey u r
  | Failed u k i => failedMessagesKey u k i
  | SubmissionOf u b => submissionDraftKey u b
  end.

Definition slot_user (s : Slot) : Z :=
  match s with Conversation u _ _ | Thread u _ | Failed u _ _ | SubmissionOf u _ => u end.

Lemma num_dot_inj a b r s : num a ++ DOT :: r = num b ++ DOT :: s → a = b ∧ r = s.
Proof.
  intros E. apply (run_sep_inj (λ x, negb (bool_decide (x = DOT)))) in E as [E ->];
    [|done|by apply str_of_Z_chars..].
  by apply str_of_Z_inj in E.
Qed.

Lemma kind_num_inj k l i j :
  kind_name k ++ DOT :: num i = kind_name l ++ DOT :: num j → k = l ∧ i = j.
Proof. destruct k, l; simpl; intros [= E]; try done; by apply str_of_Z_inj in E. Qed.

Lemma slot_key_inj s t : slot_key s = slot_key t → s = t.
Proof.
  destruct s, t; simpl; intros E; try discriminate E; apply app_inv_head in E;
    apply num_dot_inj in E as [-> E].
  - by apply kind_num_inj in E as [-> ->].
  - by apply str_of_Z_inj in E as ->.
  - by apply kind_num_inj in E as [-> ->].
  - by apply str_of_Z_inj in E as ->.
Qed.

Lemma lookup_write s t v st :
  t ≠ s → (<[slot_key s := v]> st : Store) !! slot_key t = st !! slot_key t.
Proof. intros H. rewrite lookup_insert_ne; [done|]. intros E%slot_key_inj. by subst. Qed.

Lemma lookup_erase s t st : t ≠ s → (delete (slot_key s) st : Store) !! slot_key t = st !! slot_key t.
Proof. intros H. rewrite lookup_delete_ne; [done|]. intros E%slot_key_inj. by subst. Qed.

(** *** What is saved is what is loaded *)

Lemma load_save_text key body st :
  load_text key (save_text key body st) = if truthy (trim body) then body else [].
Proof.
  unfold load_text, save_text, getItem. destruct (truthy (trim body)).
  - by rewrite lookup_insert_eq.
  - by rewrite lookup_delete_eq.
Qed.

Lemma failed_not_null messages : existsb is_null (List.filter is_failed messages) = false.
Proof.
  induction messages as [|m l IH]; [done|]. simpl. destruct (is_failed m) eqn:E; [|done].
  simpl. by destruct m.
Qed.

Lemma filter_idem {A} (f : A → bool) l : List.filter f (List.filter f l) = List.filter f l.
Proof.
  induction l as [|x l IH]; [done|]. simpl. destruct (f x) eqn:E; [simpl; by rewrite E, IH|done].
Qed.

Lemma load_save_failed u k i messages st :
  loadFailedMessages u k i (saveFailedMessages u k i messages st)
  = (List.filter is_failed messages, saveFailedMessages u k i messages st).
Proof.
  unfold loadFailedMessages, saveFailedMessages, getItem.
  pose proof (failed_not_null messages) as N. pose proof (filter_idem is_failed messages) as F.
  destruct (List.filter is_failed messages) as [|m l].
  - by rewrite lookup_delete_eq.
  - rewrite lookup_insert_eq. destruct (print (JArr (m :: l))) as [|c r] eqn:E; [done|].
    rewrite <- E, parse_print, N, F. done.
Qed.

Lemma stringify_nonempty (d : SubmissionDraft) : ∃ c r, stringify d = c :: r.
Proof. by eexists _, _. Qed.

Lemma load_save_submission u b t i a now st :
  (loadSubmissionDraft u b (saveSubmissionDraft u b t i a now st)).1
  = if truthy (trim t)
    then Some {| text := t; base_submission_id := i; base_submission_updated_at := a;
                 saved_at := now |}
    else None.
Proof.
  unfold loadSubmissionDraft, saveSubmissionDraft, getItem. destruct (truthy (trim t)).
  - rewrite lookup_insert_eq. set (d := {| text := t |}).
    destruct (stringify_nonempty d) as (c & r & E). rewrite E, <- E, parse_stringify. done.
  - by rewrite lookup_delete_eq.
Qed.

(** Drafts come back as they were left. What is saved for a conversation, a
    thread, a submission or the failed messages of a conversation is what is loaded
    there (nothing, for blank text), and saving in one place changes no other place,
    of this user or another. *)
Theorem drafts_kept (st : Store) :
  (∀ u k i body,
     loadConversationDraft u k i (saveConversationDraft u k i body st)
       = (if truthy (trim body) then body else [])
     ∧ ∀ s, s ≠ Conversation u k i → saveConversationDraft u k i body st !! slot_key s = st !! slot_key s)
  ∧ (∀ u r body,
     loadThreadDraft u r (saveThreadDraft u r body st) = (if truthy (trim body) then body else [])
     ∧ ∀ s, s ≠ Thread u r → saveThreadDraft u r body st !! slot_key s = st !! slot_key s)
  ∧ (∀ u k i ms,
     (loadFailedMessages u k i (saveFailedMessages u k i ms st)).1 = List.filter is_failed ms
     ∧ ∀ s, s ≠ Failed u k i → saveFailedMessages u k i ms st !! slot_key s = st !! slot_key s)
  ∧ (∀ u b t i a now,
     (loadSubmissionDraft u b (saveSubmissionDraft u b t i a now st)).1
       = (if truthy (trim t)
          then Some {| text := t; base_submission_id := i; base_submission_updated_at := a;
                       saved_at := now |} else None)
     ∧ ∀ s, s ≠ SubmissionOf u b →
         saveSubmissionDraft u b t i a now st !! slot_key s = st !! slot_key s).
Proof.
  split_and!; intros *; split.
  - apply load_save_text.
  - intros s Hs. unfold saveConversationDraft, save_text.
    destruct (truthy _); [by apply (lookup_write (Conversation u k i))|by apply (lookup_erase (Conversation u k i))].
  - apply load_save_text.
  - intros s Hs. unfold saveThreadDraft, save_text.
    destruct (truthy _); [by apply (lookup_write (Thread u r))|by apply (lookup_erase (Thread u r))].
  - by rewrite load_save_failed.
  - intros s Hs. unfold saveFailedMessages.
    destruct (List.filter _ _); [by apply (lookup_erase (Failed u k i))|by apply (lookup_write (Failed u k i))].
  - apply load_save_submission.
  - intros s Hs. unfold saveSubmissionDraft.
    destruct (truthy _); [by apply (lookup_write (SubmissionOf u b))|by apply (lookup_erase (SubmissionOf u b))].
Qed.

(** *** Clearing a user *)

Lemma remove_prefixed_lookup prefixes st key :
  remove_prefixed prefixes st !! key
  = if existsb (startsWith key) prefixes then None else st !! key.
Proof.
  unfold remove_prefixed. rewrite map_lookup_filter. destruct (st !! key) as [v|]; simpl.
  - destruct (existsb (startsWith key) prefixes) eqn:E.
    + by rewrite option_guard_False.
    + by rewrite option_guard_True.
  - by destruct (existsb _ _).
Qed.

Lemma user_prefix pre u v r :
  startsWith (pre ++ num u ++ [DOT] ++ r) (pre ++ num v ++ [DOT]) = bool_decide (u = v).
Proof.
  case_bool_decide as E.
  - subst. apply startsWith_spec. exists r. by rewrite <- !app_assoc.
  - destruct (startsWith _ _) eqn:S; [|done]. apply startsWith_spec in S as [t S].
    rewrite <- !app_assoc in S. apply app_inv_head, num_dot_inj in S as [-> _]. done.
Qed.

(** Clearing removes the places of that user and leaves those of others. *)
Lemma clear_slots u s st :
  clearUserSubmissionDrafts u (clearUserConversationStorage u st) !! slot_key s
  = if bool_decide (slot_user s = u) then None else st !! slot_key s.
Proof.
  unfold clearUserSubmissionDrafts, clearUserConversationStorage.
  rewrite !remove_prefixed_lookup. unfold conversation_prefixes.
  destruct s as [v k i|v r|v k i|v b]; cbn [slot_key slot_user existsb].
  - unfold conversationDraftKey. rewrite user_prefix. simpl. rewrite orb_false_r.
    by destruct (bool_decide _).
  - unfold threadDraftKey. rewrite user_prefix. simpl. by destruct (bool_decide _).
  - unfold failedMessagesKey. rewrite user_prefix. simpl. rewrite orb_false_r.
    by destruct (bool_decide _).
  - unfold submissionDraftKey. rewrite user_prefix. simpl. by destruct (bool_decide _).
Qed.
