(* ===== verification/MessageJson.v ===== *)
(** * Messages as they are stored

    [JSON.stringify] and [JSON.parse] on the [Message] of [mobile/src/lib/types.ts], as
    [mobile/src/lib/conversation-storage.ts] stores the messages that failed to send: a
    property that is [undefined] is not written, one that is [null] is. [message_codec]
    is the instance of the storage interface, with its round trip. *)

From S2P Require Import Prelude.
From S2P Require Import Json.
From S2P Require Import MessageState.
From S2P Require Import Storage.
Import Mobile.

(** ** Objects with optional properties *)

Definition present (l : list (string * option json)) : list (str * json) :=
  omap (λ p, (λ v, (js p.1, v)) <$> p.2) l.

(** [JSON.stringify] leaves the [undefined] properties out. *)
Definition obj (l : list (string * option json)) : json := JObj (present l).

Lemma present_cons k v l :
  present ((k, v) :: l) = match v with Some v => (js k, v) :: present l | None => present l end.
Proof. by destruct v. Qed.

Fixpoint property (n : string) (l : list (string * option json)) : option json :=
  match l with
  | [] => None
  | (k, v) :: l => if String.eqb k n then v else property n l
  end.

Lemma eqb_js k n : eqs (js k) (js n) = String.eqb k n.
Proof.
  destruct (String.eqb_spec k n) as [->|H]; [apply eqs_refl|]. apply eqs_false. by intros ?%js_inj.
Qed.

Lemma property_absent n (l : list (string * option json)) :
  n ∉ map fst l → List.find (λ p, eqs p.1 (js n)) (present l) = None.
Proof.
  induction l as [|[k v] l IH]; [done|]. cbn [map fst]. intros [N H]%not_elem_of_cons.
  rewrite present_cons. destruct v as [v|]; [|auto]. cbn [List.find fst].
  rewrite eqb_js. destruct (String.eqb_spec k n); [congruence|auto].
Qed.

Lemma find_app {A} (p : A → bool) l k :
  List.find p (l ++ k) = match List.find p l with Some x => Some x | None => List.find p k end.
Proof. induction l as [|x l IH]; [done|]. simpl. by destruct (p x). Qed.

(** A property of the object is what was written there. *)
Lemma field_obj n (l : list (string * option json)) :
  NoDup (map fst l) → field n (obj l) = property n l.
Proof.
  unfold field, obj. induction l as [|[k v] l IH]; [done|]. cbn [map fst property].
  intros [N H]%NoDup_cons. specialize (IH H). rewrite present_cons.
  destruct (String.eqb_spec k n) as [->|E].
  - apply property_absent in N.
    assert (R : List.find (λ p : str * json, eqs p.1 (js n)) (reverse (present l)) = None).
    { destruct (List.find _ (reverse _)) as [q|] eqn:Q; [|done].
      apply List.find_some in Q as [Q1 Q2].
      apply list_elem_of_In in Q1. rewrite elem_of_reverse in Q1. apply list_elem_of_In in Q1.
      pose proof (List.find_none _ _ N q Q1). simpl in *. congruence. }
    destruct v as [v|]; [|by rewrite R].
    rewrite reverse_cons, find_app, R. cbn. by rewrite eqs_refl.
  - destruct v as [v|]; [|exact IH].
    rewrite reverse_cons, find_app. cbn [List.find fst]. rewrite eqb_js.
    apply String.eqb_neq in E. rewrite E, <- IH. by destruct (List.find _ (reverse _)).
Qed.

(** ** Reading *)

Definition as_str (j : json) : option str := match j with JStr s => Some s | _ => None end.
Definition as_num (j : json) : option Z := match j with JNum n => Some n | _ => None end.
Definition as_bool (j : json) : option bool := match j with JBool b => Some b | _ => None end.
Definition as_list {A} (f : json → option A) (j : json) : option (list A) :=
  match j with JArr l => mapM f l | _ => None end.
Definition nullable {A} (f : json → option A) (j : json) : option (option A) :=
  match j with JNull => Some None | _ => Some <$> f j end.

Definition required {A} (n : string) (f : json → option A) (j : json) : option A :=
  v ← field n j; f v.
Definition optional {A} (n : string) (f : json → option A) (j : json) : option (option A) :=
  match field n j with Some v => Some <$> f v | None => Some None end.

Definition or_null {A} (f : A → json) (o : option A) : json :=
  match o with Some x => f x | None => JNull end.

Lemma mapM_map {A} (f : A → json) (g : json → option A) l :
  (∀ x, g (f x) = Some x) → mapM g (map f l) = Some l.
Proof. intros H. induction l as [|x l IH]; [done|]. simpl. by rewrite H, IH. Qed.

(** ** The parts of a message *)

Definition person_json (p : Person) : json := obj [
  ("id"%string, Some (JNum (person_id p))); ("full_name"%string, Some (JStr (person_name p)));
  ("avatar_url"%string, Some (or_null JStr (person_avatar p)))].
Definition person_of_json (j : json) : option Person :=
  i ← required "id" as_num j; n ← required "full_name" as_str j;
  a ← required "avatar_url" (nullable as_str) j;
  Some {| person_id := i; person_name := n; person_avatar := a |}.

Definition author_json (a : Author) : json := obj [
  ("id"%string, Some (JNum (author_id a))); ("full_name"%string, Some (JStr (author_name a)));
  ("email"%string, Some (JStr (email a))); ("role"%string, Some (JStr (role a)));
  ("avatar_url"%string, Some (or_null JStr (author_avatar a)))].
Definition author_of_json (j : json) : option Author :=
  i ← required "id" as_num j; n ← required "full_name" as_str j; e ← required "email" as_str j;
  r ← required "role" as_str j; a ← required "avatar_url" (nullable as_str) j;
  Some {| author_id := i; author_name := n; email := e; role := r; author_avatar := a |}.

Definition reaction_json (r : MessageReaction) : json := obj [
  ("emoji"%string, Some (JStr (emoji r))); ("count"%string, Some (JNum (count r)));
  ("reacted"%string, Some (JBool (reacted r)));
  ("users"%string, Some (JArr (map person_json (users r))))].
Definition reaction_of_json (j : json) : option MessageReaction :=
  e ← required "emoji" as_str j; c ← required "count" as_num j; r ← required "reacted" as_bool j;
  u ← required "users" (as_list person_of_json) j;
  Some {| emoji := e; count := c; reacted := r; users := u |}.

Definition attachment_json (a : Attachment) : json := obj [
  ("id"%string, Some (JNum (attachment_id a))); ("filename"%string, Some (JStr (filename a)));
  ("content_type"%string, Some (JStr (content_type a)));
  ("byte_size"%string, Some (JNum (byte_size a))); ("image"%string, Some (JBool (image a)));
  ("url"%string, JStr <$> url a)].
Definition attachment_of_json (j : json) : option Attachment :=
  i ← required "id" as_num j; f ← required "filename" as_str j;
  c ← required "content_type" as_str j; b ← required "byte_size" as_num j;
  g ← required "image" as_bool j; u ← optional "url" as_str j;
  Some {| attachment_id := i; filename := f; content_type := c; byte_size := b; image := g; url := u |}.

Definition upload_json (u : UploadAttachmentInput) : json := obj [
  ("s3_key"%string, Some (JStr (up_s3_key u))); ("filename"%string, Some (JStr (up_filename u)));
  ("content_type"%string, Some (JStr (up_content_type u)));
  ("byte_size"%string, Some (JNum (up_byte_size u)))].
Definition upload_of_json (j : json) : option UploadAttachmentInput :=
  k ← required "s3_key" as_str j; f ← required "filename" as_str j;
  c ← required "content_type" as_str j; b ← required "byte_size" as_num j;
  Some {| up_s3_key := k; up_filename := f; up_content_type := c; up_byte_size := b |}.

Definition receipts_json (r : Z * list Person) : json := obj [
  ("count"%string, Some (JNum r.1)); ("users"%string, Some (JArr (map person_json r.2)))].
Definition receipts_of_json (j : json) : option (Z * list Person) :=
  c ← required "count" as_num j; u ← required "users" (as_list person_of_json) j; Some (c, u).

Definition status_json (s : ClientStatus) : json :=
  JStr match s with sending => js "sending" | failed => js "failed" end.
Definition status_of_json (j : json) : option ClientStatus :=
  s ← as_str j;
  if eqs s (js "sending") then Some sending else if eqs s (js "failed") then Some failed else None.

(** ** Messages *)

Definition message_json (m : Message) : json := obj [
  ("id"%string, Some (JNum (id m)));
  ("channel_id"%string, Some (or_null JNum (channel_id m)));
  ("direct_conversation_id"%string, Some (or_null JNum (direct_conversation_id m)));
  ("parent_message_id"%string, Some (or_null JNum (parent_message_id m)));
  ("body"%string, Some (JStr (body m)));
  ("mention_user_ids"%string, Some (JArr (map JNum (mention_user_ids m))));
  ("edited_at"%string, Some (or_null JStr (edited_at m)));
  ("deleted_at"%string, Some (or_null JStr (deleted_at m)));
  ("pinned_at"%string, Some (or_null JStr (pinned_at m)));
  ("pinned_by_id"%string, or_null JNum <$> pinned_by_id m);
  ("created_at"%string, Some (JStr (created_at m)));
  ("updated_at"%string, Some (JStr (updated_at m)));
  ("mine"%string, Some (JBool (mine m)));
  ("blocked"%string, JBool <$> blocked m);
  ("reactions"%string, Some (JArr (map reaction_json (reactions m))));
  ("attachments"%string, Some (JArr (map attachment_json (attachments m))));
  ("read_receipts"%string, receipts_json <$> read_receipts m);
  ("client_status"%string, status_json <$> client_status m);
  ("client_error"%string, JStr <$> client_error m);
  ("client_uploads"%string, (λ us, JArr (map upload_json us)) <$> client_uploads m);
  ("reply_count"%string, JNum <$> reply_count m);
  ("author"%string, Some (author_json (author m)))].

Definition message_of_json (j : json) : option Message :=
  i ← required "id" as_num j;
  ch ← required "channel_id" (nullable as_num) j;
  dc ← required "direct_conversation_id" (nullable as_num) j;
  pa ← required "parent_message_id" (nullable as_num) j;
  b ← required "body" as_str j;
  mu ← required "mention_user_ids" (as_list as_num) j;
  ea ← required "edited_at" (nullable as_str) j;
  da ← required "deleted_at" (nullable as_str) j;
  pi ← required "pinned_at" (nullable as_str) j;
  pb ← optional "pinned_by_id" (nullable as_num) j;
  ca ← required "created_at" as_str j;
  ua ← required "updated_at" as_str j;
  mi ← required "mine" as_bool j;
  bl ← optional "blocked" as_bool j;
  rs ← required "reactions" (as_list reaction_of_json) j;
  at_ ← required "attachments" (as_list attachment_of_json) j;
  rr ← optional "read_receipts" receipts_of_json j;
  cs ← optional "client_status" status_of_json j;
  ce ← optional "client_error" as_str j;
  cu ← optional "client_uploads" (as_list upload_of_json) j;
  rc ← optional "reply_count" as_num j;
  au ← required "author" author_of_json j;
  Some {| id := i; channel_id := ch; direct_conversation_id := dc; parent_message_id := pa; body := b;
          mention_user_ids := mu; edited_at := ea; deleted_at := da; pinned_at := pi;
          pinned_by_id := pb; created_at := ca; updated_at := ua; mine := mi; blocked := bl;
          reactions := rs; attachments := at_; read_receipts := rr; client_status := cs;
          client_error := ce; client_uploads := cu; reply_count := rc; author := au |}.

(** ** Reading what was written *)

#[local] Arguments js : simpl never.
#[local] Arguments eqs : simpl never.

#[local] Ltac read_back :=
  unfold required, optional;
  rewrite !field_obj by (apply (bool_decide_unpack _); vm_compute; exact I);
  cbn [property String.eqb Ascii.eqb Bool.eqb].

Lemma person_read p : person_of_json (person_json p) = Some p.
Proof. destruct p as [i n [a|]]; unfold person_of_json, person_json; read_back; done. Qed.

Lemma author_read a : author_of_json (author_json a) = Some a.
Proof. destruct a as [i n e r [a|]]; unfold author_of_json, author_json; read_back; done. Qed.

Lemma reaction_read r : reaction_of_json (reaction_json r) = Some r.
Proof.
  destruct r as [e c b u]; unfold reaction_of_json, reaction_json; read_back. simpl.
  by rewrite (mapM_map _ _ _ person_read).
Qed.

Lemma attachment_read a : attachment_of_json (attachment_json a) = Some a.
Proof. destruct a as [i f c b g [u|]]; unfold attachment_of_json, attachment_json; read_back; done. Qed.

Lemma upload_read u : upload_of_json (upload_json u) = Some u.
Proof. destruct u; unfold upload_of_json, upload_json; read_back; done. Qed.

Lemma receipts_read r : receipts_of_json (receipts_json r) = Some r.
Proof.
  destruct r as [c u]; unfold receipts_of_json, receipts_json; read_back. simpl.
  by rewrite (mapM_map _ _ _ person_read).
Qed.

Lemma status_read s : status_of_json (status_json s) = Some s.
Proof. by destruct s. Qed.

Lemma nullable_read {A} (f : A → json) (g : json → option A) o :
  (∀ x, g (f x) = Some x) → (∀ x, f x ≠ JNull) → nullable g (or_null f o) = Some o.
Proof.
  intros R N. destruct o as [x|]; [|done]. simpl. unfold nullable. specialize (N x). rewrite R.
  by destruct (f x).
Qed.

Lemma message_read m : message_of_json (message_json m) = Some m.
Proof.
  destruct m as [i ch dc pa b mu ea da pi pb ca ua mi bl rs at_ rr cs ce cu rc au].
  unfold message_of_json, message_json. cbn [id channel_id direct_conversation_id parent_message_id
    body mention_user_ids edited_at deleted_at pinned_at pinned_by_id created_at updated_at mine
    blocked reactions attachments read_receipts client_status client_error client_uploads
    reply_count author].
  read_back. cbn [mbind option_bind as_num as_str as_bool as_list].
  rewrite !(nullable_read JNum as_num), !(nullable_read JStr as_str) by done.
  cbn [mbind option_bind].
  rewrite (mapM_map JNum as_num) by done. rewrite (mapM_map _ _ _ reaction_read).
  rewrite (mapM_map _ _ _ attachment_read). cbn [mbind option_bind].
  assert (P : (match or_null JNum <$> pb with Some v => Some <$> nullable as_num v | None => Some None end)
              = Some pb).
  { destruct pb as [pb|]; [|done]. simpl. by rewrite (nullable_read JNum as_num). }
  rewrite P. cbn [mbind option_bind].
  assert (G : ∀ A (f : A → json) (g : json → option A) o, (∀ x, g (f x) = Some x) →
    (match f <$> o with Some v => Some <$> g v | None => Some None end) = Some o).
  { intros A f g [x|] H; [|done]. simpl. by rewrite H. }
  rewrite !(G _ JBool as_bool) by done. cbn [mbind option_bind].
  rewrite !(G _ receipts_json receipts_of_json) by apply receipts_read. cbn [mbind option_bind].
  rewrite !(G _ status_json status_of_json) by apply status_read. cbn [mbind option_bind].
  rewrite !(G _ JStr as_str) by done. cbn [mbind option_bind].
  rewrite !(G _ (λ us, JArr (map upload_json us)) (as_list upload_of_json))
    by (intros x; apply (mapM_map _ _ _ upload_read)).
  cbn [mbind option_bind]. rewrite !(G _ JNum as_num) by done. cbn [mbind option_bind].
  by rewrite author_read.
Qed.

#[export] Instance message_codec : JsonCodec Message :=
  {| to_json := message_json; of_json := message_of_json; of_to_json := message_read |}.

(** [message.client_status === 'failed'] on the message itself. *)
Definition is_failed_message (m : Message) : bool :=
  match client_status m with Some failed => true | _ => false end.

Lemma is_failed_json m : is_failed (message_json m) = is_failed_message m.
Proof.
  unfold is_failed, message_json. rewrite field_obj by (apply (bool_decide_unpack _); vm_compute; exact I).
  cbn [property String.eqb Ascii.eqb Bool.eqb].
  unfold is_failed_message. by destruct (client_status m) as [[]|].
Qed.

(** What the conversation keeps: the failed messages, and they come back as they were. *)
Lemma failed_kept u k i (ms : list Message) st :
  omap message_of_json (loadFailedMessages u k i (saveFailedMessages u k i (map message_json ms) st)).1
  = List.filter is_failed_message ms.
Proof.
  rewrite load_save_failed. cbn [fst]. induction ms as [|m ms IH]; [done|]. cbn [map List.filter].
  rewrite is_failed_json. destruct (is_failed_message m); [|exact IH].
  cbn [omap list_omap]. rewrite message_read. by f_equal.
Qed.
