(* ===== verification/Autosave.v ===== *)
(** * Drafts saved while the user types

    The effects that keep the text of a composer on the device, written the same way in
    [mobile/src/app/(app)/conversation/[kind]/[id].tsx] and in
    [mobile/src/app/(app)/thread/[id].tsx]: every change of the text arms a timer of 300 ms
    that saves it; what is not saved yet is in [pendingDraftRef] and is saved when the
    screen goes away.

    The objects put in [pendingDraftRef] are compared by identity, so each has a number.
    [fire] is the timer going off; the save it starts settles later ([settle]). *)

From S2P Require Import Prelude.
From S2P Require Import Storage.

Record Pending := { pid : nat; ptext : str }.

Record Saver := {
  draft : str;
  loading : bool;
  timer : option Pending;                      (* [draftTimerRef], and what it will save *)
  pending : option Pending;                    (* [pendingDraftRef] *)
  settling : list nat;                         (* the saves that have been started *)
  fresh : nat;
}.

Definition with_draft (d : str) (s : Saver) : Saver :=
  {| draft := d; loading := loading s; timer := timer s; pending := pending s;
     settling := settling s; fresh := fresh s |}.
Definition with_loading (b : bool) (s : Saver) : Saver :=
  {| draft := draft s; loading := b; timer := timer s; pending := pending s;
     settling := settling s; fresh := fresh s |}.
Definition with_refs (t p : option Pending) (l : list nat) (n : nat) (s : Saver) : Saver :=
  {| draft := draft s; loading := loading s; timer := t; pending := p; settling := l; fresh := n |}.

(** The screen when it opens: it loads, and nothing has been typed. *)
Definition opened : Saver :=
  {| draft := []; loading := true; timer := None; pending := None; settling := []; fresh := 0 |}.

Section Keyed.
(** Where the draft is stored, and whether there is a user to store it for. *)
Context (key : str) (user : bool).

(** The effect on [draft] and [loading]: the cleanup of the last one clears its timer. *)
Definition effect (s : Saver) : Saver :=
  if negb user || loading s then with_refs None (pending s) (settling s) (fresh s) s
  else let p := {| pid := fresh s; ptext := draft s |} in
       with_refs (Some p) (Some p) (settling s) (S (fresh s)) s.

(** [setDraft] and [setLoading]: the effect runs when the value has changed. *)
Definition setDraft (d : str) (s : Saver) : Saver :=
  if eqs d (draft s) then s else effect (with_draft d s).
Definition setLoading (b : bool) (s : Saver) : Saver :=
  if Bool.eqb b (loading s) then s else effect (with_loading b s).

(** The timer goes off; [ok] is whether the store takes the text. *)
Definition fire (ok : bool) (x : Saver * Store) : Saver * Store :=
  let '(s, st) := x in
  match timer s with
  | None => x
  | Some p =>
      if ok then (with_refs None (pending s) (settling s ++ [pid p]) (fresh s) s, save_text key (ptext p) st)
      else (with_refs None (pending s) (settling s) (fresh s) s, st)
  end.

(** [.then(() => { if (pendingDraftRef.current === pending) pendingDraftRef.current = null; })] *)
Definition settle (i : nat) (s : Saver) : Saver :=
  if has (settling s) i then
    with_refs (timer s)
      (match pending s with Some p => if bool_decide (pid p = i) then None else Some p | None => None end)
      (filter (λ j, j ≠ i) (settling s)) (fresh s) s
  else s.

(** After a message was sent: the timer is cleared, nothing is pending and the stored
    draft is removed. *)
Definition forget (x : Saver * Store) : Saver * Store :=
  if user then (with_refs None None (settling x.1) (fresh x.1) x.1, save_text key [] x.2) else x.

(** The effect of the unmount. *)
Definition leave (x : Saver * Store) : Store :=
  match pending x.1 with Some p => save_text key (ptext p) x.2 | None => x.2 end.

(** ** What is kept *)

(** The text as the store gives it back: blank text is not kept. *)
Definition kept (t : str) : str := if truthy (trim t) then t else [].

Record saver_ok (s : Saver) (st : Store) : Prop := {
  ok_timer : ∀ p, timer s = Some p → pending s = Some p ∧ ptext p = draft s ∧ loading s = false
    ∧ pid p ∉ settling s;
  ok_fresh : (∀ p, pending s = Some p → (pid p < fresh s)%nat) ∧ Forall (λ i, (i < fresh s)%nat) (settling s);
  ok_settling : ∀ p, pending s = Some p → pid p ∈ settling s → load_text key st = kept (ptext p);
  ok_pending : user = true → loading s = false →
    match pending s with
    | Some p => ptext p = draft s
    | None => load_text key st = kept (draft s)
    end;
}.

Lemma load_saved t st : load_text key (save_text key t st) = kept t.
Proof. apply load_save_text. Qed.

Lemma opened_ok st : saver_ok opened st.
Proof. by repeat split. Qed.

Lemma effect_ok s st :
  (∀ p, pending s = Some p → (pid p < fresh s)%nat) ∧ Forall (λ i, (i < fresh s)%nat) (settling s) →
  (∀ p, pending s = Some p → pid p ∈ settling s → load_text key st = kept (ptext p)) →
  saver_ok (effect s) st.
Proof.
  intros [F1 F2] E. unfold effect. destruct (negb user || loading s) eqn:B.
  - split; try done. intros U L. exfalso. simpl in L. rewrite U, L in B. done.
  - apply orb_false_iff in B as [_ L]. split; cbn.
    + intros p [= <-]. split_and!; try done. cbn. intros H. rewrite Forall_forall in F2.
      specialize (F2 _ H). lia.
    + split; [intros p [= <-]; cbn; lia|]. eapply Forall_impl; [exact F2|]. cbn. intros; lia.
    + intros p [= <-]. cbn. intros H. rewrite Forall_forall in F2. specialize (F2 _ H). lia.
    + done.
Qed.

Lemma setDraft_ok d s st : saver_ok s st → saver_ok (setDraft d s) st.
Proof.
  intros O. unfold setDraft. destruct (eqs d (draft s)); [done|].
  apply effect_ok; [apply O|apply O].
Qed.

Lemma setLoading_ok b s st : saver_ok s st → saver_ok (setLoading b s) st.
Proof.
  intros O. unfold setLoading. destruct (Bool.eqb b (loading s)); [done|].
  apply effect_ok; [apply O|apply O].
Qed.

Lemma setDraft_draft d s : draft (setDraft d s) = d.
Proof.
  unfold setDraft, effect. destruct (eqs d (draft s)) eqn:E; [by apply eqs_true in E|].
  by destruct (negb user || _).
Qed.

Lemma setDraft_loading d s : loading (setDraft d s) = loading s.
Proof. unfold setDraft, effect. destruct (eqs _ _); [done|]. by destruct (negb user || _). Qed.

Lemma setLoading_loading b s : loading (setLoading b s) = b.
Proof.
  unfold setLoading, effect. destruct (Bool.eqb b (loading s)) eqn:E; [by apply eqb_prop in E|].
  by destruct (negb user || _).
Qed.

Lemma setLoading_draft b s : draft (setLoading b s) = draft s.
Proof. unfold setLoading, effect. destruct (Bool.eqb _ _); [done|]. by destruct (negb user || _). Qed.

Lemma fire_ok b s st : saver_ok s st → saver_ok (fire b (s, st)).1 (fire b (s, st)).2.
Proof.
  intros O. unfold fire. destruct (timer s) as [p|] eqn:Ht; [|exact O].
  destruct O as [T [F1 F2] E P]. rewrite Ht in T. destruct (T p eq_refl) as (Hp & Ht' & Hl & _). destruct b; split; cbn; try done.
  - split; [done|]. apply Forall_app. split; [done|]. repeat constructor. by apply F1.
  - intros q Hq _. rewrite Hp in Hq. injection Hq as <-. apply load_saved.
  - intros U _. specialize (P U Hl). by rewrite Hp in P |- *.
Qed.

Lemma settle_ok i s st : saver_ok s st → saver_ok (settle i s) st.
Proof.
  intros O. unfold settle. destruct (has (settling s) i) eqn:Hi; [|exact O].
  destruct O as [T [F1 F2] E P].
  apply has_true in Hi. split; cbn.
  - intros p Ht. destruct (T p Ht) as (Hp & Hd & Hl & Hn). split_and!; try done.
    + rewrite Hp, bool_decide_eq_false_2; [done|]. intros E1. by rewrite E1 in Hn.
    + intros H%list_elem_of_filter. tauto.
  - split.
    + intros p Hp. apply F1. destruct (pending s); [|done]. by case_bool_decide.
    + apply Forall_forall. intros j [_ Hj]%list_elem_of_filter. by rewrite Forall_forall in F2; apply F2.
  - intros p Hp [_ Hs]%list_elem_of_filter. apply E; [|done]. destruct (pending s); [|done].
    by case_bool_decide.
  - intros U L. specialize (P U L). destruct (pending s) as [p|] eqn:Hp; [|done].
    case_bool_decide as H; [|done]. subst i. by rewrite (E p eq_refl Hi), P.
Qed.

(** Sending removes the draft: right when nothing was typed since. *)
Lemma forget_ok s st :
  loading s = true ∨ kept (draft s) = [] → saver_ok s st →
  saver_ok (forget (s, st)).1 (forget (s, st)).2.
Proof.
  intros B O. unfold forget. destruct user; [|exact O]. destruct O as [T [F1 F2] E P]. split; cbn; try done.
  intros _ L. destruct B as [B | ->]; [congruence|]. apply (load_saved []).
Qed.

(** Writes elsewhere leave the draft. *)
Lemma saver_frame s st st' : load_text key st' = load_text key st → saver_ok s st → saver_ok s st'.
Proof. intros H [T F E P]. split; rewrite ?H; done. Qed.

Lemma leave_keeps s st :
  user = true → loading s = false → saver_ok s st → load_text key (leave (s, st)) = kept (draft s).
Proof.
  intros U L [T F E P]. unfold leave. specialize (P U L). cbn. destruct (pending s) as [p|]; [|done].
  by rewrite load_saved, P.
Qed.

(** ** A life of a composer *)

Inductive op := Types (d : str) | Loads (b : bool) | Fires (ok : bool) | Settles (i : nat) | Sent.

Definition step (x : Saver * Store) (o : op) : Saver * Store :=
  match o with
  | Types d => (setDraft d x.1, x.2)
  | Loads b => (setLoading b x.1, x.2)
  | Fires ok => fire ok x
  | Settles i => (settle i x.1, x.2)
  | Sent => forget x
  end.

Definition run (os : list op) (x : Saver * Store) : Saver * Store := fold_left step os x.

(** A message is acknowledged over text that the composer still shows: it removes the
    stored draft and what is pending, and only the next change of the text (or the next
    load) saves again. *)
Definition overtaken (b : bool) (x : Saver * Store) (o : op) : bool :=
  match o with
  | Sent => b || (negb (loading x.1) && truthy (trim (draft x.1)))
  | Types d => b && eqs d (draft x.1)
  | Loads l => b && Bool.eqb l (loading x.1)
  | Fires _ | Settles _ => b
  end.

Fixpoint acknowledged_over (b : bool) (os : list op) (x : Saver * Store) : bool :=
  match os with
  | [] => b
  | o :: os => acknowledged_over (overtaken b x o) os (step x o)
  end.

(** The draft was removed under the text. *)
Record removed_ok (s : Saver) (st : Store) : Prop := {
  rm_timer : timer s = None;
  rm_pending : pending s = None;
  rm_fresh : Forall (λ i, (i < fresh s)%nat) (settling s);
  rm_store : load_text key st = [];
}.

Lemma removed_effect_ok (g : Saver → Saver) s st :
  pending (g s) = pending s → settling (g s) = settling s → fresh (g s) = fresh s →
  removed_ok s st → saver_ok (effect (g s)) st.
Proof.
  intros P S F [_ Rp Rf _]. apply effect_ok; rewrite P, ?S, ?F, Rp; [|by intros ? [=]].
  split; [by intros ? [=]|done].
Qed.

Lemma saver_step_ok x o :
  (o = Sent → loading x.1 = true ∨ kept (draft x.1) = []) →
  saver_ok x.1 x.2 → saver_ok (step x o).1 (step x o).2.
Proof.
  destruct x as [s st]. intros Q O. destruct o; cbn [step fst snd].
  - by apply setDraft_ok.
  - by apply setLoading_ok.
  - by apply fire_ok.
  - by apply settle_ok.
  - apply forget_ok; auto.
Qed.

Lemma removed_step_ok x o :
  user = true → removed_ok x.1 x.2 →
  if overtaken true x o then removed_ok (step x o).1 (step x o).2 else saver_ok (step x o).1 (step x o).2.
Proof.
  destruct x as [s st]. intros U R. cbn [fst snd] in R. destruct o as [d|b|ok|i|]; cbn [step fst snd overtaken andb orb].
  - unfold setDraft. destruct (eqs d (draft s)); [done|]. by apply (removed_effect_ok (with_draft d)).
  - unfold setLoading. destruct (Bool.eqb b (loading s)); [done|]. by apply (removed_effect_ok (with_loading b)).
  - unfold fire. by rewrite (rm_timer s st R).
  - unfold settle. destruct (has (settling s) i); [|done]. destruct R as [T P F L]. split; cbn; try done.
    + by rewrite P.
    + apply Forall_forall. intros j [_ Hj]%list_elem_of_filter. rewrite Forall_forall in F. by apply F.
  - unfold forget. rewrite U. destruct R as [T P F L]. split; cbn; try done. apply (load_saved []).
Qed.

Lemma life_step_ok (b : bool) x o :
  user = true → (if b then removed_ok x.1 x.2 else saver_ok x.1 x.2) →
  if overtaken b x o then removed_ok (step x o).1 (step x o).2 else saver_ok (step x o).1 (step x o).2.
Proof.
  intros U O. destruct b; [by apply removed_step_ok|].
  destruct o as [d|l|ok|i|]; cbn [overtaken andb orb]; try (by apply saver_step_ok).
  destruct (negb (loading x.1) && truthy (trim (draft x.1))) eqn:B.
  - cbn [step]. unfold forget. rewrite U. split; cbn; try done; [apply O|apply (load_saved [])].
  - apply saver_step_ok; [|done]. intros _. unfold kept. destruct (loading x.1); [by left|]. right.
    by destruct (truthy (trim (draft x.1))).
Qed.

Lemma life_ok os (b : bool) x :
  user = true → (if b then removed_ok x.1 x.2 else saver_ok x.1 x.2) →
  if acknowledged_over b os x then removed_ok (run os x).1 (run os x).2 else saver_ok (run os x).1 (run os x).2.
Proof.
  intros U. revert b x. induction os as [|o os IH]; [done|]. intros b x O. cbn [acknowledged_over run fold_left].
  apply IH. by apply life_step_ok.
Qed.


End Keyed.

(** The writes fail, a message is sent, and the user leaves before the last timer. *)
Definition sample_ops : list op :=
  [Types (js "old"); Loads false; Fires true; Types []; Sent; Settles 0; Types (js "he");
   Fires false; Types (js "hello")].


(** Text typed between sending and the acknowledgement is in the composer only: the
    acknowledgement removes the stored draft and forgets what was pending, so the text is
    gone when the screen goes away. *)
Lemma typed_while_sending_forgotten key :
  let x := run key true [Loads false; Types (js "next"); Sent] (opened, ∅) in
  draft x.1 = js "next" ∧ load_text key (leave key x) = [].
Proof.
  cbn [run fold_left step fst snd]. split; [reflexivity|].
  unfold leave, forget. cbn. unfold load_text, save_text, getItem. cbn. by rewrite lookup_delete_eq.
Qed.
