(* ===== verification/ConversationScreen.v ===== *)
(** * The conversation screen (mobile)

    [mobile/src/app/(app)/conversation/[kind]/[id].tsx]: the state of the screen and its
    handlers, over the pieces it is made of: the messages ([MessageState]), the stored
    drafts and failed messages ([Storage], [MessageJson]), the draft that is saved while the
    user types ([Autosave]), mentions and attachments ([Mentions], [Upload]).

    A handler runs up to its next [await]; what it waits for is kept in [loads] and [sends]
    and goes on with an event of its own, so that events interleave freely. A call to the
    store takes effect when it is made. State updates are functions of the state, as React
    runs them; an updater that throws does so while rendering, where no [catch] of the
    handler is ([crashed]). What happens to a request after the screen has gone is React's
    to decide and is not modelled: [leave] is the last event.

    [posted] and [delivered] record the requests of the screen and the answers to them. *)

From S2P Require Import Prelude.
From S2P Require Import Keyed.
From S2P Require Import Json.
From S2P Require Import MessageState.
From S2P Require Import Upload.
From S2P Require Import Mentions.
From S2P Require Import Storage.
From S2P Require Import MessageJson.
From S2P Require Import Autosave.
Import Mobile.
Import Upload.Recording.

Abbreviation PendingAttachment := Upload.Attachment.PendingAttachment.
Abbreviation local_id := Upload.Attachment.local_id.

(** ** State *)

Record Meta := {
  oldest_message_id : option Z; newest_message_id : option Z; has_older : bool; has_newer : bool;
}.

(** What the screen reads of a channel or a direct conversation. *)
Record Summary := { workspace_id : Z; title : str; muted : bool }.

(** The answer of [api.channel] and [api.directConversation]. *)
Record Window := {
  w_summary : Summary; w_messages : list Message; w_pinned : list Message; w_meta : Meta;
}.

Record Data := {
  messages : list Message; pinnedMessages : list Message; meta : Meta;
  mentionUsers : list MentionableUser; summary : option Summary;
}.

Record Composer := {
  files : list PendingAttachment;              (* [attachments] *)
  isSending : bool;
  editingMessage : option Message;
}.

Record View := {
  nearBottom : bool; pendingScroll : bool; showScrollToLatest : bool; newMessagesBelow : Z;
  anchor : option Z;                           (* [anchorMessageId] *)
  selectedMessage : option Message;
}.

(** Where [load] waits. *)
Inductive LoadPoint := AtDraft | AtConversation | AtWorkspace (w : Window) | AtMarkRead.
Record Load := { l_anchor : option Z; l_at : LoadPoint }.

(** Where [send] waits: for an upload (the head of the rest), for the request of the message,
    for the store. *)
Inductive SendPoint :=
| Uploading (rest : list PendingAttachment) (uploaded : list UploadAttachmentInput)
| Posting (optimisticId : Z) (optimistic : Message)
| Forgetting (optimistic : Message) (written : bool).

(** The values the handler has read. *)
Record Sending := {
  s_retry : option Message; s_body : str; s_files : list PendingAttachment;
  s_mentions : list MentionableUser; s_at : SendPoint;
}.

(** A request for a message: [api.sendMessage]. *)
Record Post := { post_body : str; post_mentions : list Z; post_uploads : list UploadAttachmentInput }.

Record Work := {
  loads : list Load; sends : list Sending; posted : list (Z * Post); delivered : list Z;
}.

Record Screen := {
  saver : Saver; store : Store; data : Data; composer : Composer; view : View; work : Work;
  loadingOlder : bool; error : option str; crashed : bool;
}.

Definition set_saver (f : Saver) (s : Screen) : Screen :=
  {| saver := f; store := store s; data := data s; composer := composer s; view := view s;
     work := work s; loadingOlder := loadingOlder s; error := error s; crashed := crashed s |}.
Definition set_store (f : Store) (s : Screen) : Screen :=
  {| saver := saver s; store := f; data := data s; composer := composer s; view := view s;
     work := work s; loadingOlder := loadingOlder s; error := error s; crashed := crashed s |}.
Definition set_data (f : Data) (s : Screen) : Screen :=
  {| saver := saver s; store := store s; data := f; composer := composer s; view := view s;
     work := work s; loadingOlder := loadingOlder s; error := error s; crashed := crashed s |}.
Definition set_composer (f : Composer) (s : Screen) : Screen :=
  {| saver := saver s; store := store s; data := data s; composer := f; view := view s;
     work := work s; loadingOlder := loadingOlder s; error := error s; crashed := crashed s |}.
Definition set_view (f : View) (s : Screen) : Screen :=
  {| saver := saver s; store := store s; data := data s; composer := composer s; view := f;
     work := work s; loadingOlder := loadingOlder s; error := error s; crashed := crashed s |}.
Definition set_work (f : Work) (s : Screen) : Screen :=
  {| saver := saver s; store := store s; data := data s; composer := composer s; view := view s;
     work := f; loadingOlder := loadingOlder s; error := error s; crashed := crashed s |}.
Definition set_older (b : bool) (s : Screen) : Screen :=
  {| saver := saver s; store := store s; data := data s; composer := composer s; view := view s;
     work := work s; loadingOlder := b; error := error s; crashed := crashed s |}.
Definition set_error (e : option str) (s : Screen) : Screen :=
  {| saver := saver s; store := store s; data := data s; composer := composer s; view := view s;
     work := work s; loadingOlder := loadingOlder s; error := e; crashed := crashed s |}.
Definition set_crashed (b : bool) (s : Screen) : Screen :=
  {| saver := saver s; store := store s; data := data s; composer := composer s; view := view s;
     work := work s; loadingOlder := loadingOlder s; error := error s; crashed := b |}.

Definition set_messages (l : list Message) (s : Screen) : Screen :=
  set_data {| messages := l; pinnedMessages := pinnedMessages (data s); meta := meta (data s);
              mentionUsers := mentionUsers (data s); summary := summary (data s) |} s.
Definition set_pinned (l : list Message) (s : Screen) : Screen :=
  set_data {| messages := messages (data s); pinnedMessages := l; meta := meta (data s);
              mentionUsers := mentionUsers (data s); summary := summary (data s) |} s.
Definition set_meta (m : Meta) (s : Screen) : Screen :=
  set_data {| messages := messages (data s); pinnedMessages := pinnedMessages (data s); meta := m;
              mentionUsers := mentionUsers (data s); summary := summary (data s) |} s.
Definition set_summary (x : option Summary) (s : Screen) : Screen :=
  set_data {| messages := messages (data s); pinnedMessages := pinnedMessages (data s);
              meta := meta (data s); mentionUsers := mentionUsers (data s); summary := x |} s.
Definition set_files (l : list PendingAttachment) (s : Screen) : Screen :=
  set_composer {| files := l; isSending := isSending (composer s);
                  editingMessage := editingMessage (composer s) |} s.
Definition set_sending (b : bool) (s : Screen) : Screen :=
  set_composer {| files := files (composer s); isSending := b;
                  editingMessage := editingMessage (composer s) |} s.
Definition set_editing (m : option Message) (s : Screen) : Screen :=
  set_composer {| files := files (composer s); isSending := isSending (composer s);
                  editingMessage := m |} s.
Definition set_selected (m : option Message) (s : Screen) : Screen :=
  set_view {| nearBottom := nearBottom (view s); pendingScroll := pendingScroll (view s);
              showScrollToLatest := showScrollToLatest (view s);
              newMessagesBelow := newMessagesBelow (view s); anchor := anchor (view s);
              selectedMessage := m |} s.
Definition set_scroll (near pend show : bool) (below : Z) (s : Screen) : Screen :=
  set_view {| nearBottom := near; pendingScroll := pend; showScrollToLatest := show;
              newMessagesBelow := below; anchor := anchor (view s);
              selectedMessage := selectedMessage (view s) |} s.
Definition set_loads (l : list Load) (s : Screen) : Screen :=
  set_work {| loads := l; sends := sends (work s); posted := posted (work s);
              delivered := delivered (work s) |} s.
Definition set_sends (l : list Sending) (s : Screen) : Screen :=
  set_work {| loads := loads (work s); sends := l; posted := posted (work s);
              delivered := delivered (work s) |} s.
Definition add_post (o : Z) (p : Post) (s : Screen) : Screen :=
  set_work {| loads := loads (work s); sends := sends (work s); posted := posted (work s) ++ [(o, p)];
              delivered := delivered (work s) |} s.
Definition add_delivered (o : Z) (s : Screen) : Screen :=
  set_work {| loads := loads (work s); sends := sends (work s); posted := posted (work s);
              delivered := delivered (work s) ++ [o] |} s.

(** [{ ...m, client_status, client_error }] *)
Definition with_status (st : option ClientStatus) (e : option str) (m : Message) : Message := {|
  id := id m; channel_id := channel_id m; direct_conversation_id := direct_conversation_id m;
  parent_message_id := parent_message_id m; body := body m;
  mention_user_ids := mention_user_ids m; edited_at := edited_at m; deleted_at := deleted_at m;
  pinned_at := pinned_at m; pinned_by_id := pinned_by_id m; created_at := created_at m;
  updated_at := updated_at m; mine := mine m; blocked := blocked m; reactions := reactions m;
  attachments := attachments m; read_receipts := read_receipts m;
  client_status := st; client_error := e;
  client_uploads := client_uploads m; reply_count := reply_count m; author := author m;
|}.

(** [{ ...m, blocked: true, body: '', attachments: [], reactions: [] }] *)
Definition hidden (m : Message) : Message := {|
  id := id m; channel_id := channel_id m; direct_conversation_id := direct_conversation_id m;
  parent_message_id := parent_message_id m; body := [];
  mention_user_ids := mention_user_ids m; edited_at := edited_at m; deleted_at := deleted_at m;
  pinned_at := pinned_at m; pinned_by_id := pinned_by_id m; created_at := created_at m;
  updated_at := updated_at m; mine := mine m; blocked := Some true; reactions := [];
  attachments := []; read_receipts := read_receipts m;
  client_status := client_status m; client_error := client_error m;
  client_uploads := client_uploads m; reply_count := reply_count m; author := author m;
|}.

Definition with_file (st : Upload.Attachment.AttachmentStatus) (p : Q) (a : PendingAttachment)
    : PendingAttachment := {|
  Upload.Attachment.local_id := local_id a; Upload.Attachment.p_uri := Upload.Attachment.p_uri a;
  Upload.Attachment.filename := Upload.Attachment.filename a;
  Upload.Attachment.content_type := Upload.Attachment.content_type a;
  Upload.Attachment.byte_size := Upload.Attachment.byte_size a;
  Upload.Attachment.image := Upload.Attachment.image a; Upload.Attachment.status := st;
  Upload.Attachment.progress := p; Upload.Attachment.uploaded := Upload.Attachment.uploaded a;
|}.

Definition input_of (u : Upload.Attachment.UploadAttachmentInput) : UploadAttachmentInput := {|
  up_s3_key := Upload.Attachment.s3_key u; up_filename := Upload.Attachment.in_filename u;
  up_content_type := Upload.Attachment.in_content_type u;
  up_byte_size := Upload.Attachment.in_byte_size u |}.

Definition z_or (a b : Z) : Z := if a =? 0 then b else a.
Definition set_id (o : option Z) : bool := match o with Some n => negb (n =? 0) | None => false end.

(** ** Handlers *)

(** What the screen is opened with: the parser of dates, the demo mode and its data, the
    user, the conversation. *)
Record Env := {
  Date_parse : str → option Z;
  demo : bool;
  demo_summary : option Summary; demo_messages : list Message; demo_user : MentionableUser;
  userId : option Z;
  kind : Kind; cid : Z;
  me : Author;                                 (* [user || demoUser] *)
  is_staff : bool;
}.

Section Handlers.
Context (env : Env).

Definition sorted : list Message → list Message := sortMessages (Date_parse env).
Definition uid : Z := default 0 (userId env).
Definition signed_in : bool := set_id (userId env).
Definition key : str := conversationDraftKey uid (kind env) (cid env).

Definition draft_of (s : Screen) : str := draft (saver s).
Definition setDraft (d : str) (s : Screen) : Screen :=
  set_saver (Autosave.setDraft signed_in d (saver s)) s.
Definition setLoading (b : bool) (s : Screen) : Screen :=
  set_saver (Autosave.setLoading signed_in b (saver s)) s.

Definition opened_screen (a : option Z) (st : Store) : Screen := {|
  saver := opened; store := st;
  data := {| messages := []; pinnedMessages := [];
             meta := {| oldest_message_id := None; newest_message_id := None; has_older := false;
                        has_newer := false |};
             mentionUsers := []; summary := None |};
  composer := {| files := []; isSending := false; editingMessage := None |};
  view := {| nearBottom := true; pendingScroll := negb (set_id a); showScrollToLatest := set_id a;
             newMessagesBelow := 0; anchor := a; selectedMessage := None |};
  work := {| loads := []; sends := []; posted := []; delivered := [] |};
  loadingOlder := false; error := None; crashed := false |}.

Definition scrollToLatest (s : Screen) : Screen := set_scroll true true false 0 s.

(** *** Loading *)

(** The messages that failed, as they are read; text that cannot be read is removed. *)
Definition read_failed (st : Store) : list Message * Store :=
  if signed_in then
    let r := loadFailedMessages uid (kind env) (cid env) st in (omap message_of_json r.1, r.2)
  else ([], st).

(** The end of [load], when nothing was thrown. *)
Definition load_done (a : option Z) (s : Screen) : Screen :=
  setLoading false (set_error None
    (set_scroll (negb (set_id a)) (negb (set_id a)) (set_id a) (newMessagesBelow (view s)) s)).

Definition load (s : Screen) : Screen :=
  let s1 := setLoading true s in
  if demo env then
    load_done (anchor (view s))
      (set_data {| messages := demo_messages env; pinnedMessages := pinnedMessages (data s1);
                   meta := meta (data s1); mentionUsers := [demo_user env];
                   summary := demo_summary env |} s1)
  else set_loads (loads (work s1) ++ [{| l_anchor := anchor (view s); l_at := AtDraft |}]) s1.

(** What an [await] of [load] gives. *)
Inductive LoadAnswer :=
| TheDraft
| TheWindow (r : res Window)
| TheMembers (r : res (list MentionableUser))
| TheRead (r : res unit).

Definition load_fails (i : nat) (m : str) (s : Screen) : Screen :=
  setLoading false (set_error (Some m) (set_loads (delete i (loads (work s))) s)).

Definition load_at (i : nat) (l : Load) (p : LoadPoint) (s : Screen) : Screen :=
  set_loads (<[i := {| l_anchor := l_anchor l; l_at := p |}]> (loads (work s))) s.

Definition load_shows (w : Window) (members : list MentionableUser) (s : Screen) : Screen :=
  let r := read_failed (store s) in
  set_store r.2 (set_data {| messages := sorted (w_messages w ++ r.1); pinnedMessages := w_pinned w;
    meta := w_meta w; mentionUsers := members; summary := Some (w_summary w) |} s).

Definition load_resumes (i : nat) (ans : LoadAnswer) (s : Screen) : Screen :=
  match loads (work s) !! i with
  | None => s
  | Some l =>
      match l_at l, ans with
      | AtDraft, TheDraft =>
          load_at i l AtConversation (if signed_in then setDraft (load_text key (store s)) s else s)
      | AtConversation, TheWindow (Ok w) => load_at i l (AtWorkspace w) s
      | AtWorkspace w, TheMembers (Ok members) => load_at i l AtMarkRead (load_shows w members s)
      | AtMarkRead, TheRead (Ok _) =>
          load_done (l_anchor l) (set_loads (delete i (loads (work s))) s)
      | AtConversation, TheWindow (Throws m) | AtWorkspace _, TheMembers (Throws m)
      | AtMarkRead, TheRead (Throws m) => load_fails i m s
      | _, _ => s
      end
  end.

(** *** Realtime *)

Definition subscribed (s : Screen) : bool :=
  negb (demo env) && negb (loading (saver s)) && bool_decide (error s = None).

Definition for_here (p : MessageEvent) : bool :=
  match kind env with
  | channel => bool_decide (event_channel_id p = Some (cid env))
  | dm => bool_decide (event_direct_conversation_id p = Some (cid env))
  end.

Definition is_created (p : MessageEvent) : bool := match event p with created => true | _ => false end.

Definition receive (p : MessageEvent) (s : Screen) : Screen :=
  if negb (subscribed s) || negb (for_here p)
     || set_id (parent_message_id (message p)) && is_created p then s
  else
    let follow := mine (message p) || nearBottom (view s) in
    let s1 := if is_created p && negb follow
              then set_scroll (nearBottom (view s)) (pendingScroll (view s)) true
                     (newMessagesBelow (view s) + if mine (message p) then 0 else 1) s
              else s in
    let s2 := set_pinned (mergePinnedMessageEvent (pinnedMessages (data s1)) p)
                (set_messages (Mobile.mergeMessageEvent (Date_parse env) (messages (data s1)) p) s1) in
    if follow then scrollToLatest s2 else s2.

(** *** Sending *)

Definition persistFailed (next : list Message) (s : Screen) : Screen :=
  if signed_in
  then set_store (saveFailedMessages uid (kind env) (cid env) (map message_json next) (store s)) s
  else s.

Definition send_at (i : nat) (x : Sending) (p : SendPoint) (s : Screen) : Screen :=
  set_sends (<[i := {| s_retry := s_retry x; s_body := s_body x; s_files := s_files x;
                       s_mentions := s_mentions x; s_at := p |}]> (sends (work s))) s.

Definition send_returns (i : nat) (s : Screen) : Screen :=
  set_sending false (set_sends (delete i (sends (work s))) s).

(** The message that is shown while it is sent; [now] is [Date.now()] and [iso] the date. *)
Definition optimistic_message (now : Z) (iso : str) (x : Sending)
    (uploaded : list UploadAttachmentInput) : Message := {|
  id := - now;
  channel_id := match kind env with channel => Some (cid env) | dm => None end;
  direct_conversation_id := match kind env with dm => Some (cid env) | channel => None end;
  parent_message_id := None; body := s_body x;
  mention_user_ids := resolveMentionUserIds (s_body x) (s_mentions x);
  edited_at := None; deleted_at := None; pinned_at := None; pinned_by_id := None;
  created_at := iso; updated_at := iso; mine := true; blocked := None; reactions := [];
  attachments := imap (λ i u, {|
    attachment_id := - (Z.of_nat i + 1); filename := up_filename u;
    content_type := up_content_type u; byte_size := up_byte_size u;
    image := startsWith (up_content_type u) (js "image/");
    url := Upload.Attachment.p_uri <$> s_files x !! i |}) uploaded;
  read_receipts := None; client_status := None; client_error := None;
  client_uploads := Some uploaded; reply_count := Some 0; author := me env;
|}.

(** After the uploads: the message is shown as being sent, the composer is emptied and the
    request goes out. *)
Definition hand_over (i : nat) (now : Z) (iso : str) (x : Sending)
    (uploaded : list UploadAttachmentInput) (s : Screen) : Screen :=
  let optimisticId := z_or (match s_retry x with Some m => id m | None => 0 end) (- now) in
  let optimistic := match s_retry x with
                    | Some m => m | None => optimistic_message now iso x uploaded end in
  let sendingMessage := with_status (Some sending) None optimistic in
  let s1 := set_messages (sorted (List.filter (λ m, negb (id m =? optimisticId)) (messages (data s))
                                  ++ [sendingMessage])) s in
  let s2 := scrollToLatest s1 in
  let s3 := match s_retry x with
            | None => set_files [] (setDraft [] s2)
            | Some _ => s2 end in
  if demo env then
    send_returns i (set_messages (map (λ m, if id m =? optimisticId then with_status None (client_error m) m
                                            else m) (messages (data s3))) s3)
  else
    add_post optimisticId
      {| post_body := s_body x; post_mentions := resolveMentionUserIds (s_body x) (s_mentions x);
         post_uploads := uploaded |}
      (send_at i x (Posting optimisticId optimistic) s3).

(** The next attachment is uploaded, or the message is handed over. *)
Definition send_goes_on (i : nat) (now : Z) (iso : str) (x : Sending) (rest : list PendingAttachment)
    (uploaded : list UploadAttachmentInput) (s : Screen) : Screen :=
  match rest with
  | [] => hand_over i now iso x uploaded s
  | a :: _ =>
      send_at i x (Uploading rest uploaded)
        (set_files (map (λ b, if eqs (local_id b) (local_id a)
                              then with_file Upload.Attachment.uploading (Upload.Attachment.progress b) b
                              else b) (files (composer s))) s)
  end.

Definition send (now : Z) (iso : str) (retry : option Message) (s : Screen) : Screen :=
  let text := trim (str_or (match retry with Some m => body m | None => [] end) (draft_of s)) in
  let kept_uploads := match retry with
                      | Some m => default [] (client_uploads m) | None => [] end in
  if negb (truthy text) && bool_decide (files (composer s) = []) && bool_decide (kept_uploads = [])
     || isSending (composer s) then s
  else
    let rest := match retry with Some _ => [] | None => files (composer s) end in
    let x := {| s_retry := retry; s_body := text; s_files := files (composer s);
                s_mentions := mentionUsers (data s); s_at := Uploading rest kept_uploads |} in
    let s1 := set_sends (sends (work s) ++ [x]) (set_sending true s) in
    send_goes_on (length (sends (work s))) now iso x rest kept_uploads s1.

(** The [catch] of [send] once there is an optimistic message. *)
Definition send_fails (i : nat) (optimistic : Message) (msg : str) (s : Screen) : Screen :=
  let failedMessage := with_status (Some failed) (Some msg) optimistic in
  let next := sorted (List.filter (λ m, negb (id m =? id failedMessage)) (messages (data s))
                      ++ [failedMessage]) in
  send_returns i (persistFailed next (set_messages next s)).

(** Where there is none yet: an attachment could not be uploaded. *)
Definition upload_fails (i : nat) (s : Screen) : Screen :=
  send_returns i
    (set_files (map (λ b, match Upload.Attachment.status b with
                          | Upload.Attachment.uploading =>
                              with_file Upload.Attachment.failed (Upload.Attachment.progress b) b
                          | _ => b end) (files (composer s))) s).

(** What an [await] of [send] gives; [written] is whether the store takes the empty draft. *)
Inductive SendAnswer :=
| TheUpload (presign : res Upload.Attachment.PresignedAttachment) (post : res unit) (now : Z) (iso : str)
| TheMessage (r : res Message) (written : bool)
| TheStore (msg : str).

Definition send_resumes (i : nat) (ans : SendAnswer) (s : Screen) : Screen :=
  match sends (work s) !! i with
  | None => s
  | Some x =>
      match s_at x, ans with
      | Uploading (a :: rest) uploaded, TheUpload presign post now iso =>
          match (Upload.Attachment.uploadAttachment presign post a).1 with
          | Ok value => send_goes_on i now iso x rest (uploaded ++ [input_of value]) s
          | Throws msg =>
              match s_retry x with
              | None => upload_fails i s
              | Some m => send_fails i m msg s
              end
          end
      | Posting optimisticId optimistic, TheMessage (Ok canonical) written =>
          let next := reconcileOptimistic (Date_parse env) (messages (data s)) optimisticId canonical in
          let s1 := add_delivered optimisticId (persistFailed next (set_messages next s)) in
          if signed_in then
            let r := forget key signed_in (saver s1, store s1) in
            send_at i x (Forgetting optimistic written)
              (set_store (if written then r.2 else store s1) (set_saver r.1 s1))
          else send_returns i s1
      | Posting _ optimistic, TheMessage (Throws msg) _ => send_fails i optimistic msg s
      | Forgetting optimistic written, TheStore msg =>
          if written then send_returns i s else send_fails i optimistic msg s
      | _, _ => s
      end
  end.

(** *** The other actions *)

(** [saveEdit]: the request goes out when there is text; [r] is its answer. *)
Definition may_save_edit (s : Screen) : bool :=
  bool_decide (is_Some (editingMessage (composer s))) && truthy (trim (draft_of s)).

Definition replace_message (i : Z) (m : Message) (l : list Message) : list Message :=
  map (λ x, if id x =? i then m else x) l.

Definition edit_answered (r : res Message) (s : Screen) : Screen :=
  match r with
  | Ok m => setDraft [] (set_editing None (set_messages (replace_message (id m) m (messages (data s))) s))
  | Throws _ => s
  end.

Definition delete_answered (m : Message) (r : res unit) (s : Screen) : Screen :=
  match r with
  | Ok _ => set_messages (List.filter (λ x, negb (id x =? id m)) (messages (data s))) s
  | Throws _ => s
  end.

Definition block_answered (m : Message) (r : res unit) (s : Screen) : Screen :=
  match r with
  | Ok _ => set_messages (map (λ x, if author_id (author x) =? author_id (author m) then hidden x else x)
                            (messages (data s))) s
  | Throws _ => s
  end.

Definition pin_answered (m : Message) (r : res Message) (s : Screen) : Screen :=
  match r with
  | Ok n =>
      let others := List.filter (λ x, negb (id x =? id m)) (pinnedMessages (data s)) in
      set_selected None
        (set_pinned (match pinned_at n with
                     | Some p => if truthy p then n :: others else others
                     | None => others end)
           (set_messages (replace_message (id m) n (messages (data s))) s))
  | Throws _ => s
  end.

(** [toggleReaction] in the demo changes the message; otherwise [remove] is asked of the server. *)
Definition react_demo (m : Message) (value : str) (s : Screen) : Screen :=
  set_messages (map (λ x, if id x =? id m then toggleOwnReaction x value (me env) else x)
                  (messages (data s))) s.
Definition react_removes (m : Message) (value : str) : bool :=
  match List.find (λ r, eqs (emoji r) value) (reactions m) with Some r => reacted r | None => false end.
Definition react_answered (m : Message) (r : res Message) (s : Screen) : Screen :=
  match r with
  | Ok n => set_messages (replace_message (id m) n (messages (data s))) s
  | Throws _ => s
  end.

(** [pickDocument] and [pickImage]: the updater validates the assets, so what it throws is
    thrown while rendering. *)
Fixpoint pending_all (assets : list (str * Upload.Attachment.LocalAttachmentAsset))
    : res (list PendingAttachment) :=
  match assets with
  | [] => Ok []
  | (localId, a) :: rest =>
      match Upload.Attachment.pendingAttachment localId a with
      | Throws m => Throws m
      | Ok p => match pending_all rest with Ok l => Ok (p :: l) | Throws m => Throws m end
      end
  end.

Definition pick (assets : list (str * Upload.Attachment.LocalAttachmentAsset)) (s : Screen) : Screen :=
  match pending_all assets with
  | Ok l => set_files (take 10 (files (composer s) ++ l)) s
  | Throws _ => set_crashed true s
  end.

Definition remove_file (localId : str) (s : Screen) : Screen :=
  set_files (List.filter (λ b, negb (eqs (local_id b) localId)) (files (composer s))) s.

Definition with_muted (b : bool) (x : Summary) : Summary :=
  {| workspace_id := workspace_id x; title := title x; muted := b |}.
(** [toggleMute]: shown at once, and taken back when the request fails. *)
Definition toggleMute (s : Screen) : Screen :=
  match summary (data s) with
  | Some x => set_summary (Some (with_muted (negb (muted x)) x)) s
  | None => s
  end.
Definition mute_answered (x : Summary) (r : res unit) (s : Screen) : Screen :=
  match r with
  | Ok _ => s
  | Throws _ => set_summary (Some (with_muted (muted x) x)) s
  end.

Definition may_load_older (s : Screen) : bool :=
  negb (demo env || loadingOlder s || negb (has_older (meta (data s)))
        || negb (set_id (oldest_message_id (meta (data s))))).
Definition loadOlder (s : Screen) : Screen := if may_load_older s then set_older true s else s.
Definition older_answered (r : res (list Message * Meta)) (s : Screen) : Screen :=
  set_older false
    match r with
    | Ok (older, m) =>
        set_meta {| oldest_message_id := oldest_message_id m;
                    newest_message_id := newest_message_id (meta (data s)); has_older := has_older m;
                    has_newer := has_newer (meta (data s)) |}
          (set_messages (prependOlderMessages (Date_parse env) (messages (data s)) older) s)
    | Throws _ => s
    end.

(** The list is scrolled: [y] is [contentOffset.y] of the inverted list. *)
Definition isNearConversationBottom (y content layout threshold : Z) (inverted : bool) : bool :=
  if inverted then y <=? threshold else content - layout - y <=? threshold.

Definition onScroll (y : Z) (s : Screen) : Screen :=
  let near := isNearConversationBottom y 0 0 96 true in
  set_scroll near (pendingScroll (view s)) (negb near) (if near then 0 else newMessagesBelow (view s)) s.

(** A pinned message is opened: [router.setParams] changes the anchor, and [load] runs again. *)
Definition open_pin (i : Z) (s : Screen) : Screen :=
  load (set_view {| nearBottom := nearBottom (view s); pendingScroll := pendingScroll (view s);
                    showScrollToLatest := showScrollToLatest (view s);
                    newMessagesBelow := newMessagesBelow (view s); anchor := Some i;
                    selectedMessage := selectedMessage (view s) |} s).

(** *** The sheet of a message *)

Inductive Action := AReact | AReply | ACopy | APin | AReport | AReportUser | ABlock | AEdit | ARemove.

#[export] Instance Action_eq_dec : EqDecision Action.
Proof. solve_decision. Defined.

Definition actions (m : Message) : list Action :=
  let isBlocked := bool_decide (blocked m = Some true) in
  let other := negb (mine m) && (0 <? id m) in
  (if negb (bool_decide (is_Some (deleted_at m))) && negb isBlocked then [AReact] else [])
  ++ (if negb isBlocked then [AReply] else [])
  ++ (if truthy (body m) then [ACopy] else [])
  ++ (if is_staff env then [APin] else [])
  ++ (if other then [AReport; AReportUser] else [])
  ++ (if other && negb isBlocked then [ABlock] else [])
  ++ (if mine m && negb (bool_decide (is_Some (deleted_at m))) && (0 <? id m) then [AEdit] else [])
  ++ (if mine m && (0 <? id m) then [ARemove] else []).

Definition start_edit (m : Message) (s : Screen) : Screen :=
  set_selected None (setDraft (body m) (set_editing (Some m) s)).
Definition cancel_edit (s : Screen) : Screen := setDraft [] (set_editing None s).

(** ** Events *)

Inductive event_ :=
| Opens
| LoadGoesOn (i : nat) (ans : LoadAnswer)
| Receives (p : MessageEvent)
| TypesText (d : str)
| TimerGoesOff (ok : bool)
| SaveSettles (i : nat)
| PressesSend (now : Z) (iso : str)
| PressesRetry (now : Z) (iso : str) (m : Message)
| SendGoesOn (i : nat) (ans : SendAnswer)
| Selects (m : option Message)
| StartsEdit (m : Message)
| CancelsEdit
| EditAnswered (r : res Message)
| DeleteAnswered (m : Message) (r : res unit)
| BlockAnswered (m : Message) (r : res unit)
| PinAnswered (m : Message) (r : res Message)
| ReactsDemo (m : Message) (value : str)
| ReactAnswered (m : Message) (r : res Message)
| Picks (assets : list (str * Upload.Attachment.LocalAttachmentAsset))
| RemovesFile (localId : str)
| TogglesMute
| MuteAnswered (x : Summary) (r : res unit)
| ReachesEnd
| OlderAnswered (r : res (list Message * Meta))
| Scrolls (y : Z)
| JumpsToLatest
| OpensPin (i : Z).

Definition screen_step (s : Screen) (e : event_) : Screen :=
  match e with
  | Opens => load s
  | LoadGoesOn i ans => load_resumes i ans s
  | Receives p => receive p s
  | TypesText d => setDraft d s
  | TimerGoesOff ok => let r := fire key ok (saver s, store s) in set_store r.2 (set_saver r.1 s)
  | SaveSettles i => set_saver (settle i (saver s)) s
  | PressesSend now iso => send now iso None s
  | PressesRetry now iso m => send now iso (Some m) s
  | SendGoesOn i ans => send_resumes i ans s
  | Selects m => set_selected m s
  | StartsEdit m => start_edit m s
  | CancelsEdit => cancel_edit s
  | EditAnswered r => edit_answered r s
  | DeleteAnswered m r => delete_answered m r s
  | BlockAnswered m r => block_answered m r s
  | PinAnswered m r => pin_answered m r s
  | ReactsDemo m value => react_demo m value s
  | ReactAnswered m r => react_answered m r s
  | Picks assets => pick assets s
  | RemovesFile i => remove_file i s
  | TogglesMute => toggleMute s
  | MuteAnswered x r => mute_answered x r s
  | ReachesEnd => loadOlder s
  | OlderAnswered r => older_answered r s
  | Scrolls y => onScroll y s
  | JumpsToLatest => scrollToLatest s
  | OpensPin i => open_pin i s
  end.

Definition run_screen (es : list event_) (s : Screen) : Screen := fold_left screen_step es s.

Definition leave_screen (s : Screen) : Store := leave key (saver s, store s).

End Handlers.

(** ** No message is lost *)

Definition isf (m : Message) : Prop := is_failed_message m = true.

(** A message as the server sends it. *)
Definition canonical (m : Message) : Prop := 0 < id m ∧ client_status m = None.

Lemma canonical_not_failed m : canonical m → is_failed_message m = false.
Proof. unfold is_failed_message. by intros [_ ->]. Qed.

Section NoLoss.
Context (env : Env).
Context (Hdemo : demo env = false) (Huser : signed_in env = true).

Definition stored (st : Store) : list Message := (read_failed env st).1.

Definition own_id (m : Message) : Prop := id m < 0 ∧ author_id (author m) = author_id (me env).

(** A send that waits. *)
Definition sending_ok (w : Work) (x : Sending) : Prop :=
  match s_at x with
  | Uploading _ _ => s_retry x = None
  | Posting o m => o = id m ∧ own_id m ∧ (∀ r, s_retry x = Some r → r = m)
  | Forgetting m _ => own_id m ∧ id m ∈ delivered w
  end.

Definition in_flight (w : Work) (o : Z) : Prop := ∃ x m, x ∈ sends w ∧ s_at x = Posting o m.

Definition retried (w : Work) (m : Message) : Prop :=
  ∃ x o, x ∈ sends w ∧ s_at x = Posting o m ∧ s_retry x = Some m.

Record screen_ok (s : Screen) : Prop := {
  so_one : match sends (work s) with
           | [] => isSending (composer s) = false
           | [_] => isSending (composer s) = true
           | _ => False
           end;
  so_sends : Forall (sending_ok (work s)) (sends (work s));
  so_loads : Forall (λ l, match l_at l with AtWorkspace w => Forall canonical (w_messages w) | _ => True end)
               (loads (work s));
  so_own : ∀ m, m ∈ messages (data s) → isf m → own_id m;
  so_keep : ∀ m, m ∈ messages (data s) → isf m → m ∈ stored (store s);
  so_back : ∀ m, m ∈ stored (store s) → isf m ∧ (m ∈ messages (data s) ∨ retried (work s) m);
  so_uniq : ∀ m m', m ∈ stored (store s) → m' ∈ stored (store s) → id m = id m' → m = m';
  so_account : ∀ o, o ∈ map fst (posted (work s)) →
    o ∈ delivered (work s) ∨ in_flight (work s) o ∨ ∃ m, m ∈ messages (data s) ∧ id m = o ∧ isf m;
}.

(** What changes nothing of this. *)
Record same_core (s s' : Screen) : Prop := {
  sc_messages : messages (data s') = messages (data s);
  sc_stored : stored (store s') = stored (store s);
  sc_work : work s' = work s;
  sc_sending : isSending (composer s') = isSending (composer s);
}.

Lemma core_ok s s' : same_core s s' → screen_ok s → screen_ok s'.
Proof. intros [M S W C] []. by split; rewrite ?M, ?S, ?W, ?C. Qed.

(** The messages change, but not those that failed. *)
Lemma messages_updated l s :
  (∀ m, isf m → m ∈ l ↔ m ∈ messages (data s)) → screen_ok s → screen_ok (set_messages l s).
Proof.
  intros H [O S L W K B U A]. split; try done; cbn.
  - intros m Hm Hf. apply W; [|done]. by apply H.
  - intros m Hm Hf. apply K; [|done]. by apply H.
  - intros m Hm. destruct (B m Hm) as [Hf [?|?]]; [|tauto]. split; [done|]. left. by apply H.
  - intros o Ho. destruct (A o Ho) as [?|[?|(m & Hm & Hi & Hf)]]; [tauto|tauto|].
    right; right. exists m. split_and!; try done. by apply H.
Qed.

Lemma failed_map (c : Message → bool) (g : Message → Message) l m :
  (∀ x, x ∈ l → isf x → c x = false) → (∀ x, x ∈ l → c x = true → is_failed_message (g x) = false) →
  isf m → m ∈ map (λ x, if c x then g x else x) l ↔ m ∈ l.
Proof.
  intros H1 H2 Hf. split.
  - intros (x & -> & Hx)%list_elem_of_fmap. destruct (c x) eqn:E; [|done].
    unfold isf in Hf. rewrite (H2 x Hx E) in Hf. done.
  - intros Hm. apply list_elem_of_fmap. exists m. by rewrite (H1 m Hm Hf).
Qed.

Lemma failed_snoc l c m : is_failed_message c = false → isf m → m ∈ l ++ [c] ↔ m ∈ l.
Proof.
  intros Hc Hf. rewrite elem_of_app, list_elem_of_singleton. split; [|tauto].
  intros [? | ->]; [done|]. unfold isf in Hf. congruence.
Qed.

(** Replacing, merging or removing a message of the server leaves those that failed. *)
Lemma replaced_ok i n s :
  0 < i → canonical n → screen_ok s → screen_ok (set_messages (replace_message i n (messages (data s))) s).
Proof.
  intros Hi Hn O. apply messages_updated; [|done]. intros m Hf.
  apply (failed_map (λ x, id x =? i) (λ _, n)); [| |done].
  - intros x Hx Hxf. destruct (so_own s O x Hx Hxf) as [? _]. apply Z.eqb_neq. lia.
  - intros. by apply canonical_not_failed.
Qed.

Lemma removed_ok i s :
  0 < i → screen_ok s → screen_ok (set_messages (List.filter (λ x, negb (id x =? i)) (messages (data s))) s).
Proof.
  intros Hi O. apply messages_updated; [|done]. intros m Hf. rewrite elem_of_bfilter. split; [tauto|].
  intros Hm. split; [done|]. destruct (so_own s O m Hm Hf) as [? _].
  apply negb_true_iff, Z.eqb_neq. lia.
Qed.

Lemma merged_ok p s :
  canonical (message p) → screen_ok s →
  screen_ok (set_messages (Mobile.mergeMessageEvent (Date_parse env) (messages (data s)) p) s).
Proof.
  intros C O. assert (S : screen_ok (set_messages (spread_in (messages (data s)) (message p)) s)).
  { apply messages_updated; [|done]. intros m Hf.
    apply (failed_map (λ x, id x =? id (message p)) (λ x, spread x (message p))); [| |done].
    - intros x Hx Hxf. destruct (so_own s O x Hx Hxf), C. apply Z.eqb_neq. lia.
    - intros x Hx E%Z.eqb_eq. unfold is_failed_message. cbn. destruct C as [C ->]. cbn.
      destruct (client_status x) as [[]|] eqn:Ec; try done.
      destruct (so_own s O x Hx) as [? _]; [|lia]. unfold isf, is_failed_message. by rewrite Ec. }
  unfold Mobile.mergeMessageEvent. destruct (event p).
  - destruct (existsb _ _); [exact S|]. apply messages_updated; [|done]. intros m Hf.
    unfold sortMessages. rewrite js_sort_elem. apply failed_snoc; [by apply canonical_not_failed|done].
  - exact S.
  - apply removed_ok; [apply C|done].
Qed.

Lemma older_ok l s :
  Forall canonical l → screen_ok s →
  screen_ok (set_messages (prependOlderMessages (Date_parse env) (messages (data s)) l) s).
Proof.
  intros C O. apply messages_updated; [|done]. intros m Hf. unfold prependOlderMessages, sortMessages.
  rewrite js_sort_elem, elem_of_app, elem_of_bfilter. split; [|tauto]. intros [[Hm _]|?]; [|done].
  rewrite Forall_forall in C. specialize (C m Hm). apply canonical_not_failed in C.
  unfold isf in Hf. congruence.
Qed.

(** *** The store *)

Lemma stored_lookup st st' :
  st !! failedMessagesKey (uid env) (kind env) (cid env)
  = st' !! failedMessagesKey (uid env) (kind env) (cid env) → stored st = stored st'.
Proof.
  intros H. unfold stored, read_failed. rewrite Huser. cbn. f_equal.
  unfold loadFailedMessages, getItem. rewrite H. by repeat case_match.
Qed.

Lemma stored_read st : stored (read_failed env st).2 = stored st.
Proof.
  unfold stored, read_failed. rewrite Huser. cbn [fst snd].
  unfold loadFailedMessages, getItem.
  destruct (st !! _) as [[|c v]|] eqn:E; cbn [fst snd]; [by rewrite E| |by rewrite E].
  destruct (parse (c :: v)) as [[]|] eqn:P; cbn [fst snd]; try by rewrite lookup_delete_eq.
  destruct (existsb _ _) eqn:X; cbn [fst snd]; [by rewrite lookup_delete_eq|].
  by rewrite E, P, X.
Qed.

Lemma stored_draft t st : stored (save_text (key env) t st) = stored st.
Proof.
  apply stored_lookup. unfold save_text, key.
  pose proof (lookup_write (Conversation (uid env) (kind env) (cid env))
    (Failed (uid env) (kind env) (cid env)) t st ltac:(done)) as W.
  pose proof (lookup_erase (Conversation (uid env) (kind env) (cid env))
    (Failed (uid env) (kind env) (cid env)) st ltac:(done)) as E.
  cbn [slot_key] in W, E. by destruct (truthy _).
Qed.

Lemma stored_persist next s :
  stored (store (persistFailed env next s)) = List.filter is_failed_message next.
Proof.
  unfold persistFailed, stored, read_failed. rewrite Huser. cbn [fst snd store set_store].
  apply failed_kept.
Qed.

(** *** Sending *)

Lemma one_send s i x :
  screen_ok s → sends (work s) !! i = Some x →
  i = 0%nat ∧ sends (work s) = [x] ∧ isSending (composer s) = true ∧ sending_ok (work s) x.
Proof.
  intros O H. pose proof (so_one s O) as One. pose proof (so_sends s O) as F.
  destruct (sends (work s)) as [|y [|? ?]]; [done| |done].
  destruct i as [|i]; [|done]. injection H as ->. by apply Forall_cons in F as [F _].
Qed.

Lemma no_send s : screen_ok s → isSending (composer s) = false → sends (work s) = [].
Proof.
  intros O H. pose proof (so_one s O) as One. destruct (sends (work s)) as [|y [|? ?]]; [done| |done].
  congruence.
Qed.

Lemma sorted_elem l m : m ∈ sorted env l ↔ m ∈ l.
Proof. apply js_sort_elem. Qed.

(** The state of a send that is being handled: everything but the send is in order. *)
Definition handling (x : Sending) (s : Screen) : Prop :=
  sends (work s) = [x] ∧ isSending (composer s) = true
  ∧ screen_ok (set_sending false (set_sends [] s)).

Lemma handling_of s i x opt :
  screen_ok s → sends (work s) !! i = Some x → s_at x = opt →
  match opt with Posting _ _ => False | _ => True end → handling x s.
Proof.
  intros O H E N. destruct (one_send s i x O H) as (-> & Hs & Hb & _). split_and!; [done|done|].
  destruct O as [One S L W K B U A]. split; try done; cbn.
  - intros m Hm. destruct (B m Hm) as [Hf [?|(y & o & Hy & Hp & _)]]; [auto|].
    rewrite Hs in Hy. apply list_elem_of_singleton in Hy as ->. rewrite Hp in E. by subst opt.
  - intros o Ho. destruct (A o Ho) as [?|[(y & m & Hy & Hp)|?]]; [auto| |auto].
    rewrite Hs in Hy. apply list_elem_of_singleton in Hy as ->. rewrite Hp in E. by subst opt.
Qed.

Lemma handling_returns x s : handling x s → screen_ok (send_returns 0 s).
Proof.
  intros (Hs & Hb & O). unfold send_returns. rewrite Hs. exact O.
Qed.

Lemma handling_frame x s s' :
  messages (data s') = messages (data s) → stored (store s') = stored (store s) → work s' = work s →
  isSending (composer s') = isSending (composer s) → handling x s → handling x s'.
Proof.
  intros M S W C (Hs & Hb & O). split_and!; [by rewrite W|by rewrite C|].
  eapply core_ok; [|exact O]. split; cbn; rewrite ?M, ?S, ?W; done.
Qed.

(** The message that the send is about. *)
Definition about_ok (now : Z) (x : Sending) (s : Screen) : Prop :=
  match s_retry x with
  | Some m => m ∈ messages (data s) ∧ isf m
  | None => 0 < now ∧ ∀ m, m ∈ messages (data s) → id m ≠ - now
  end.

Lemma posting_ok o opt x p s :
  (∃ y, handling y s) → o = id opt → own_id opt → (∀ r, s_retry x = Some r → r = opt) →
  match s_retry x with
  | Some m => m ∈ messages (data s) ∧ isf m
  | None => ∀ m, m ∈ messages (data s) → id m ≠ o
  end →
  let next := sorted env (List.filter (λ m, negb (id m =? o)) (messages (data s))
                          ++ [with_status (Some sending) None opt]) in
  screen_ok (add_post o p (send_at 0 x (Posting o opt) (set_messages next s))).
Proof.
  intros (y & Hs & Hb & [One S L W K B U A]) Ho Own Hr Hx next. cbn in L, W, K, B, U, A.
  assert (E : ∀ m, isf m → m ∈ next ↔ m ∈ messages (data s) ∧ id m ≠ o).
  { intros m Hf. unfold next. rewrite sorted_elem, failed_snoc, elem_of_bfilter by done.
    by rewrite negb_true_iff, Z.eqb_neq. }
  unfold add_post, send_at. cbn. rewrite Hs. cbn.
  split; cbn; try done.
  - repeat constructor; [done|apply Own|apply Own|done].
  - intros m Hm Hf. apply E in Hm as [Hm _]; [|done]. by apply W.
  - intros m Hm Hf. apply E in Hm as [Hm _]; [|done]. by apply K.
  - intros m Hm. destruct (B m Hm) as [Hf [Hin|(z & ? & Hz & _)]]; [|by apply not_elem_of_nil in Hz].
    split; [done|]. destruct (decide (id m = o)) as [Hi|Hi]; [|left; by apply E].
    right. destruct (s_retry x) as [r|] eqn:R; [|by destruct (Hx m Hin)]. destruct Hx as [Hrm Hrf].
    assert (m = r) as -> by (apply U; [done|by apply K|by rewrite Hi, (Hr r eq_refl)]).
    exists {| s_retry := Some r; s_body := s_body x; s_files := s_files x; s_mentions := s_mentions x;
              s_at := Posting o opt |}, o. rewrite (Hr r eq_refl). split_and!; [by left|done|done].
  - intros o' Ho'. rewrite map_app, elem_of_app in Ho'. destruct Ho' as [Ho'|Ho'].
    + destruct (A o' Ho') as [?|[(z & ? & Hz & _)|(m & Hm & Hi & Hf)]];
        [auto|by apply not_elem_of_nil in Hz|].
      destruct (decide (id m = o)) as [Hio|Hio].
      * right; left. eexists _, opt. split; [by left|]. cbn. by rewrite <- Hio, Hi.
      * right; right. exists m. split_and!; try done. by apply E.
    + apply list_elem_of_singleton in Ho' as ->. right; left. eexists _, opt. by split; [left|].
Qed.

(** The failed message is kept in place of the one that was sent. *)
Lemma send_fails_ok opt msg s x :
  sends (work s) = [x] →
  (∃ o, s_at x = Posting o opt ∧ o = id opt) ∨ (∃ w, s_at x = Forgetting opt w) →
  screen_ok s → own_id opt → screen_ok (send_fails env 0 opt msg s).
Proof.
  intros Hs Hx [One S L W K B U A] Own. unfold send_fails.
  set (fm := with_status (Some failed) (Some msg) opt).
  set (next := sorted env (List.filter (λ m, negb (id m =? id fm)) (messages (data s)) ++ [fm])).
  assert (E : ∀ m, m ∈ next ↔ m ∈ messages (data s) ∧ id m ≠ id opt ∨ m = fm).
  { intros m. unfold next. rewrite sorted_elem, elem_of_app, elem_of_bfilter, list_elem_of_singleton.
    by rewrite negb_true_iff, Z.eqb_neq. }
  pose proof (stored_persist next (set_messages next s)) as P.
  unfold send_returns, persistFailed in *. rewrite Huser in *. cbn in *. rewrite Hs. cbn.
  assert (Q : ∀ m, m ∈ List.filter is_failed_message next ↔ m ∈ next ∧ isf m)
    by (intros; apply elem_of_bfilter).
  split; cbn; try done; rewrite ?P.
  - intros m [[Hm _]| ->]%E Hf; [by apply W|apply Own].
  - intros m Hm Hf. by apply Q.
  - intros m [? ?]%Q. tauto.
  - intros m m' [[[H1 H2]| ->]%E Hf]%Q [[[H3 H4]| ->]%E Hf']%Q Hi; try done.
    apply U; [by apply K|by apply K|done].
  - intros o Ho. destruct (A o Ho) as [D|[(z & m & Hz & Hp)|(m & Hm & Hi & Hf)]]; [by left| |].
    + right; right. exists fm. rewrite Hs in Hz. apply list_elem_of_singleton in Hz as ->.
      assert (o = id opt) as ->; [|split_and!; [apply E; by right|done|done]].
      destruct Hx as [(o' & Hx & ->)|[o' Hx]]; rewrite Hp in Hx; [by injection Hx|done].
    + right; right. destruct (decide (id m = id opt)) as [Hio|Hio].
      * exists fm. split_and!; [apply E; by right|by rewrite <- Hi, Hio|done].
      * exists m. split_and!; [apply E; by left|done|done].
Qed.

(** The message was delivered. *)
Lemma send_delivered_ok o opt c x s :
  sends (work s) = [x] → s_at x = Posting o opt → canonical c → screen_ok s → sending_ok (work s) x →
  let next := reconcileOptimistic (Date_parse env) (messages (data s)) o c in
  handling x (add_delivered o (persistFailed env next (set_messages next s))).
Proof.
  intros Hs Hx C [One S L W K B U A] Hok next.
  assert (E : ∀ m, isf m → m ∈ next ↔ m ∈ messages (data s) ∧ id m ≠ o).
  { intros m Hf. unfold next, reconcileOptimistic, sortMessages.
    rewrite js_sort_elem, failed_snoc, elem_of_bfilter by (done || by apply canonical_not_failed).
    rewrite andb_true_iff, !negb_true_iff, !Z.eqb_neq. split; [tauto|]. intros [Hm Hi].
    split_and!; try done. destruct (W m Hm Hf), C. lia. }
  pose proof (stored_persist next (set_messages next s)) as P.
  unfold persistFailed in *. rewrite Huser in *. cbn in P.
  assert (Q : ∀ m, m ∈ List.filter is_failed_message next ↔ m ∈ next ∧ isf m)
    by (intros; apply elem_of_bfilter).
  split_and!; cbn; [done|by rewrite Hs in One|].
  split; cbn; try done; rewrite ?P.
  - intros m Hm Hf. apply W; [|done]. by apply E.
  - intros m Hm Hf. by apply Q.
  - intros m [? ?]%Q. auto.
  - intros m m' [Hm Hf]%Q [Hm' Hf']%Q. apply E in Hm as [Hm _]; [|done].
    apply E in Hm' as [Hm' _]; [|done]. apply U; by apply K.
  - intros o' Ho'. setoid_rewrite elem_of_app. setoid_rewrite list_elem_of_singleton.
    destruct (A o' Ho') as [?|[(z & m & Hz & Hp)|(m & Hm & Hi & Hf)]]; [auto| |].
    + rewrite Hs in Hz. apply list_elem_of_singleton in Hz as ->. rewrite Hp in Hx. injection Hx as ->. auto.
    + destruct (decide (id m = o)) as [Hio|Hio]; [left; right; congruence|].
      right; right. exists m. split_and!; try done. by apply E.
Qed.

(** *** Loading *)

Lemma load_shows_ok w members s :
  Forall canonical (w_messages w) → screen_ok s → screen_ok (load_shows env w members s).
Proof.
  intros C [One S L W K B U A].
  assert (E : ∀ m, isf m → m ∈ sorted env (w_messages w ++ stored (store s)) ↔ m ∈ stored (store s)).
  { intros m Hf. rewrite sorted_elem, elem_of_app. split; [|tauto]. intros [Hm|?]; [|done].
    rewrite Forall_forall in C. specialize (C m Hm). apply canonical_not_failed in C.
    unfold isf in Hf. congruence. }
  unfold load_shows. fold (stored (store s)).
  split; cbn; try done; rewrite ?stored_read.
  - intros m Hm Hf. apply E in Hm; [|done]. destruct (B m Hm) as [_ [?|(x & o & Hx & Hp & Hr)]]; [by apply W|].
    rewrite Forall_forall in S. specialize (S x Hx). unfold sending_ok in S. rewrite Hp in S. tauto.
  - intros m Hm Hf. by apply E in Hm.
  - intros m Hm. destruct (B m Hm) as [Hf _]. split; [done|]. left. by apply E.
  - done.
  - intros o Ho. destruct (A o Ho) as [?|[?|(m & Hm & Hi & Hf)]]; [auto|auto|].
    right; right. exists m. split_and!; try done. apply E; [done|]. by apply K.
Qed.

(** *** Every event *)

Lemma saver_core f s : same_core s (set_saver f s).
Proof. by split. Qed.

Lemma composer_core c s : isSending c = isSending (composer s) → same_core s (set_composer c s).
Proof. by split. Qed.

Lemma view_core v s : same_core s (set_view v s).
Proof. by split. Qed.

Lemma core_trans s1 s2 s3 : same_core s1 s2 → same_core s2 s3 → same_core s1 s3.
Proof. intros [] []. split; congruence. Qed.

Lemma hand_over_ok now iso x ups s :
  handling x s → about_ok now x s → (∀ m, m ∈ messages (data s) → isf m → own_id m) →
  screen_ok (hand_over env 0 now iso x ups s).
Proof.
  intros H Ab W. unfold hand_over. rewrite Hdemo. unfold about_ok in Ab.
  set (o := z_or _ _). set (opt := match s_retry x with Some m => m | None => _ end).
  set (next := sorted env _). set (p := {| post_body := _ |}).
  assert (G : o = id opt ∧ own_id opt ∧ (∀ r, s_retry x = Some r → r = opt)
    ∧ match s_retry x with
      | Some m => m ∈ messages (data s) ∧ isf m
      | None => ∀ m, m ∈ messages (data s) → id m ≠ o
      end).
  { subst o opt. unfold z_or. destruct (s_retry x) as [r|].
    - destruct (W r (proj1 Ab) (proj2 Ab)) as [Hi Ha].
      destruct (Z.eqb_spec (id r) 0); [lia|]. split_and!; try done; [by intros ? [= <-]|apply Ab..].
    - destruct Ab as [Hn Hf]. cbn [Z.eqb]. split_and!; try done. split; [|done]. cbn [id optimistic_message]. lia. }
  destruct G as (G1 & G2 & G3 & G4).
  pose proof (posting_ok o opt x p s (ex_intro _ x H) G1 G2 G3 G4) as O. fold next in O.
  eapply core_ok; [|exact O]. destruct (s_retry x); by split.
Qed.

Lemma uploading_ok x rest ups fs s :
  handling x s → s_retry x = None → screen_ok (send_at 0 x (Uploading rest ups) (set_files fs s)).
Proof.
  intros (Hs & Hb & [One S L W K B U A]) Hr. unfold send_at. cbn. rewrite Hs. cbn.
  cbn in L, W, K, B, U, A.
  split; cbn; try done.
  - by repeat constructor.
  - intros m Hm. destruct (B m Hm) as [? [?|(z & ? & Hz & _)]]; [auto|by apply not_elem_of_nil in Hz].
  - intros o Ho. destruct (A o Ho) as [?|[(z & ? & Hz & _)|?]]; [auto|by apply not_elem_of_nil in Hz|auto].
Qed.

Lemma forgetting_ok x opt wr s :
  handling x s → own_id opt → id opt ∈ delivered (work s) →
  screen_ok (send_at 0 x (Forgetting opt wr) s).
Proof.
  intros (Hs & Hb & [One S L W K B U A]) Own Od. unfold send_at. cbn. rewrite Hs. cbn.
  cbn in L, W, K, B, U, A.
  split; cbn; try done.
  - repeat constructor; cbn; [apply Own|apply Own|done].
  - intros m Hm. destruct (B m Hm) as [? [?|(z & ? & Hz & _)]]; [auto|by apply not_elem_of_nil in Hz].
  - intros o Ho. destruct (A o Ho) as [?|[(z & ? & Hz & _)|?]]; [auto|by apply not_elem_of_nil in Hz|auto].
Qed.

Lemma goes_on_ok now iso x rest ups s :
  handling x s → about_ok now x s → (∀ m, m ∈ messages (data s) → isf m → own_id m) →
  (s_retry x = None ∨ rest = []) → screen_ok (send_goes_on env 0 now iso x rest ups s).
Proof.
  intros H Ab W R. destruct rest as [|a rest]; cbn [send_goes_on]; [by apply hand_over_ok|].
  destruct R as [R|R]; [|done]. by apply uploading_ok.
Qed.

Lemma send_ok now iso retry s :
  match retry with
  | Some m => m ∈ messages (data s) ∧ isf m
  | None => 0 < now ∧ ∀ m, m ∈ messages (data s) → id m ≠ - now
  end → screen_ok s → screen_ok (send env now iso retry s).
Proof.
  intros Ab O. unfold send.
  destruct (negb _ && _ && _ || isSending (composer s)) eqn:G; [done|].
  apply orb_false_iff in G as [_ Hb]. pose proof (no_send s O Hb) as Hs. rewrite Hs. cbn [app length].
  apply goes_on_ok.
  - split_and!; [done|done|]. eapply core_ok; [|exact O].
    split; cbn; [done|done| |done]. destruct (work s) eqn:Hw. cbn in Hs. by subst.
  - done.
  - apply (so_own s O).
  - destruct retry; auto.
Qed.

(** What the environment gives: messages of the server, a clock that has moved on. *)
Definition fresh_id (now : Z) (s : Screen) : Prop := 0 < now ∧ ∀ m, m ∈ messages (data s) → id m ≠ - now.

Definition ev_ok (s : Screen) (e : event_) : Prop :=
  match e with
  | LoadGoesOn _ (TheWindow (Ok w)) => Forall canonical (w_messages w)
  | Receives p => canonical (message p)
  | PressesSend now _ | SendGoesOn _ (TheUpload _ _ now _) => fresh_id now s
  | PressesRetry _ _ m => m ∈ messages (data s) ∧ isf m
  | SendGoesOn _ (TheMessage (Ok m) _) | EditAnswered (Ok m) => canonical m
  | DeleteAnswered m _ => 0 < id m
  | BlockAnswered m _ => author_id (author m) ≠ author_id (me env)
  | PinAnswered m (Ok n) | ReactAnswered m (Ok n) => 0 < id m ∧ canonical n
  | OlderAnswered (Ok (l, _)) => Forall canonical l
  | ReactsDemo _ _ => False
  | _ => True
  end.

Lemma send_resumes_ok i ans s :
  ev_ok s (SendGoesOn i ans) → screen_ok s → screen_ok (send_resumes env i ans s).
Proof.
  intros Ev O. unfold send_resumes. destruct (sends (work s) !! i) as [x|] eqn:Hi; [|done].
  destruct (one_send s i x O Hi) as (-> & Hs & Hb & Hok). pose proof Hok as Hok'.
  unfold sending_ok in Hok. destruct (s_at x) as [rest ups|o opt|opt w] eqn:Hx, ans as [pr po now iso|r wr|msg];
    try done; try (destruct rest; done).
  - destruct rest as [|a rest]; [done|]. pose proof (handling_of s 0 x _ O Hi Hx I) as H.
    destruct (Upload.Attachment.uploadAttachment pr po a).1.
    + apply goes_on_ok; [done| |apply (so_own s O)|by left]. unfold about_ok. by rewrite Hok.
    + rewrite Hok. unfold upload_fails. apply handling_returns with x.
      by eapply handling_frame; [..|exact H].
  - destruct Hok as (Ho & Own & _). destruct r as [c|msg].
    + pose proof (send_delivered_ok o opt c x s Hs Hx Ev O Hok') as H. cbn zeta in H. rewrite Huser.
      set (s1 := add_delivered _ _) in *. unfold forget.
      assert (Od : id opt ∈ delivered (work s1)).
      { subst s1. cbn. rewrite elem_of_app, list_elem_of_singleton. right. by rewrite Ho. }
      eapply core_ok; [|apply (forgetting_ok x opt wr s1 H Own Od)]. split; try done. cbn [store send_at set_sends set_work set_store].
      destruct wr; [apply stored_draft|done].
    + apply (send_fails_ok opt msg s x); eauto.
  - destruct w.
    + apply handling_returns with x. by eapply handling_of.
    + apply (send_fails_ok opt msg s x); [done| |done|tauto]. right; eauto.
Qed.

Lemma load_resumes_ok i ans s :
  ev_ok s (LoadGoesOn i ans) → screen_ok s → screen_ok (load_resumes env i ans s).
Proof.
  intros Ev O. unfold load_resumes. destruct (loads (work s) !! i) as [l|] eqn:Hi; [|done].
  assert (L : ∀ p s', screen_ok s' → loads (work s') = loads (work s) →
    match p with AtWorkspace w => Forall canonical (w_messages w) | _ => True end →
    screen_ok (load_at i l p s')).
  { intros p s' [One S L W K B U A] E Hp. split; try done. cbn. apply Forall_insert; [done|]. by destruct p. }
  assert (D : ∀ s', screen_ok s' → screen_ok (set_loads (delete i (loads (work s'))) s')).
  { intros s' [One S L0 W K B U A]. split; try done. cbn. by apply Forall_delete. }
  assert (F : ∀ m, screen_ok (load_fails env i m s)).
  { intros m. eapply core_ok; [|apply (D s O)]. by split. }
  assert (Hl := so_loads s O). rewrite Forall_forall in Hl.
  specialize (Hl l (list_elem_of_lookup_2 _ _ _ Hi)).
  destruct (l_at l) as [| |w|] eqn:El, ans as [|[w'|m]|[ms|m]|[[]|m]]; try done.
  - apply L; [|by destruct (signed_in env)|done]. destruct (signed_in env); [|done].
    eapply core_ok; [apply saver_core|done].
  - by apply L.
  - apply L; [by apply load_shows_ok|done|done].
  - unfold load_done. eapply core_ok; [|apply (D s O)]. by split.
Qed.

Lemma screen_step_ok s e : ev_ok s e → screen_ok s → screen_ok (screen_step env s e).
Proof.
  intros Ev O. destruct e; cbn [screen_step]; cbn [ev_ok] in Ev.
  - unfold load. rewrite Hdemo. destruct O as [One S L W K B U A]. split; try done. cbn.
    apply Forall_app. split; [done|]. by repeat constructor.
  - by apply load_resumes_ok.
  - unfold receive. destruct (negb _ || _ || _); [done|].
    pose proof (merged_ok p s Ev O) as M.
    eapply core_ok; [|exact M]. destruct (is_created p && _), (mine (message p) || _); by split.
  - eapply core_ok; [apply saver_core|done].
  - eapply core_ok; [|exact O]. unfold fire. destruct (timer (saver s)), ok; split; try done.
    apply stored_draft.
  - eapply core_ok; [apply saver_core|done].
  - by apply send_ok.
  - by apply send_ok.
  - by apply send_resumes_ok.
  - eapply core_ok; [apply view_core|done].
  - eapply core_ok; [|exact O]. by split.
  - eapply core_ok; [|exact O]. by split.
  - destruct r as [m|]; [|done]. cbn [edit_answered].
    eapply core_ok; [|apply (replaced_ok (id m) m s); [apply Ev|done|done]]. by split.
  - destruct r; [|done]. by apply removed_ok.
  - destruct r; [|done]. cbn [block_answered]. apply messages_updated; [|done]. intros x Hf.
    apply (failed_map (λ x, author_id (author x) =? author_id (author m)) hidden); [| |done].
    + intros y Hy Hyf. destruct (so_own s O y Hy Hyf). apply Z.eqb_neq. congruence.
    + intros y Hy E%Z.eqb_eq. destruct (is_failed_message (hidden y)) eqn:F; [|done].
      destruct (so_own s O y Hy F). congruence.
  - destruct r as [n|]; [|done]. cbn [pin_answered].
    eapply core_ok; [|apply (replaced_ok (id m) n s); [apply Ev|apply Ev|done]]. by split.
  - done.
  - destruct r as [n|]; [|done]. apply replaced_ok; [apply Ev|apply Ev|done].
  - eapply core_ok; [|exact O]. unfold pick. destruct (pending_all assets); by split.
  - eapply core_ok; [|exact O]. by split.
  - eapply core_ok; [|exact O]. unfold toggleMute. destruct (summary (data s)); by split.
  - eapply core_ok; [|exact O]. destruct r; by split.
  - eapply core_ok; [|exact O]. unfold loadOlder. destruct (may_load_older env s); by split.
  - destruct r as [[l m]|]; cbn [older_answered].
    + eapply core_ok; [|apply (older_ok l s); done]. by split.
    + eapply core_ok; [|exact O]. by split.
  - eapply core_ok; [apply view_core|done].
  - eapply core_ok; [apply view_core|done].
  - unfold open_pin, load. rewrite Hdemo. destruct O as [One S L W K B U A]. split; try done. cbn.
    apply Forall_app. split; [done|]. by repeat constructor.
Qed.

Fixpoint events_ok (es : list event_) (s : Screen) : Prop :=
  match es with
  | [] => True
  | e :: es => ev_ok s e ∧ events_ok es (screen_step env s e)
  end.

Lemma run_screen_ok es s : events_ok es s → screen_ok s → screen_ok (run_screen env es s).
Proof.
  revert s. induction es as [|e es IH]; [done|]. intros s [E H] O. apply IH; [done|].
  by apply screen_step_ok.
Qed.

(** *** The screen is opened *)

Definition first_load (w : Window) (members : list MentionableUser) : list event_ :=
  [Opens; LoadGoesOn 0 TheDraft; LoadGoesOn 0 (TheWindow (Ok w)); LoadGoesOn 0 (TheMembers (Ok members));
   LoadGoesOn 0 (TheRead (Ok tt))].

Definition loaded (a : option Z) (st : Store) (w : Window) (members : list MentionableUser) : Screen :=
  run_screen env (first_load w members) (opened_screen a st).

Lemma loaded_core a st w members :
  messages (data (loaded a st w members)) = sorted env (w_messages w ++ stored st)
  ∧ store (loaded a st w members) = (read_failed env st).2
  ∧ work (loaded a st w members) = {| loads := []; sends := []; posted := []; delivered := [] |}
  ∧ isSending (composer (loaded a st w members)) = false.
Proof.
  unfold loaded, run_screen, first_load. cbn [fold_left screen_step].
  assert (E : load env (opened_screen a st)
    = set_loads [{| l_anchor := a; l_at := AtDraft |}] (setLoading env true (opened_screen a st))).
  { unfold load. by rewrite Hdemo. }
  rewrite E. unfold load_resumes. cbn. rewrite Huser. cbn. by split_and!.
Qed.

(** What earlier visits left: the user's own messages, each once. *)
Definition stored_own (st : Store) : Prop :=
  (∀ m, m ∈ stored st → isf m ∧ own_id m) ∧ (∀ m m', m ∈ stored st → m' ∈ stored st → id m = id m' → m = m').

Lemma loaded_ok a st w members :
  Forall canonical (w_messages w) → stored_own st → screen_ok (loaded a st w members).
Proof.
  intros C [Own Uniq]. destruct (loaded_core a st w members) as (M & S & W & B).
  assert (E : ∀ m, isf m → m ∈ messages (data (loaded a st w members)) ↔ m ∈ stored st).
  { intros m Hf. rewrite M, sorted_elem, elem_of_app. split; [|tauto]. intros [Hm|?]; [|done].
    rewrite Forall_forall in C. specialize (C m Hm). apply canonical_not_failed in C.
    unfold isf in Hf. congruence. }
  split; rewrite ?W, ?S, ?stored_read; try done.
  - intros m Hm Hf. apply E in Hm; [|done]. by apply Own.
  - intros m Hm Hf. by apply E.
  - intros m Hm. destruct (Own m Hm) as [Hf _]. split; [done|]. left. by apply E.
  - intros o Ho. by apply not_elem_of_nil in Ho.
Qed.

Lemma stored_leave s : stored (leave_screen env s) = stored (store s).
Proof. unfold leave_screen, leave. cbn. destruct (pending (saver s)); [apply stored_draft|done]. Qed.

(** *** What a step does with a message *)

(** The messages with an identifier that are on the screen. *)
Definition shown_as (i : Z) (s : Screen) : list Message := List.filter (λ m, id m =? i) (messages (data s)).

(** The message with that identifier is being sent, or its draft is being forgotten. *)
Definition being_sent (w : Work) (i : Z) : Prop :=
  ∃ x, x ∈ sends w ∧ match s_at x with Posting o _ => o = i | Forgetting m _ => id m = i | Uploading _ _ => False end.

Lemma filter_none {A} (f : A → bool) l : (∀ x, x ∈ l → f x = false) → List.filter f l = [].
Proof.
  intros H. destruct (List.filter f l) as [|x r] eqn:E; [done|].
  assert (X : x ∈ List.filter f l) by (rewrite E; by left). apply elem_of_bfilter in X as [X F]. by rewrite H in F.
Qed.

Lemma filter_perm {A} (f : A → bool) l k : l ≡ₚ k → List.filter f l ≡ₚ List.filter f k.
Proof.
  intros P. induction P as [|x l k P IH|x y l|l k j P1 IH1 P2 IH2]; cbn; [done|by destruct (f x); rewrite ?IH| |by rewrite IH1].
  destruct (f x), (f y); try done. constructor.
Qed.

(** One message, put in the place of those with its identifier, is the one with it. *)
Lemma placed_once l m : List.filter (λ x, id x =? id m) (sorted env (List.filter (λ x, negb (id x =? id m)) l ++ [m])) = [m].
Proof.
  apply Permutation_singleton_r. unfold sorted, sortMessages. rewrite (filter_perm _ _ _ (js_sort_perm _ _)), List.filter_app.
  cbn. rewrite Z.eqb_refl. rewrite filter_none; [done|]. intros x [_ H]%elem_of_bfilter. by apply negb_true_iff in H.
Qed.

Lemma send_fails_shows opt msg s :
  shown_as (id opt) (send_fails env 0 opt msg s) = [with_status (Some failed) (Some msg) opt].
Proof.
  unfold shown_as, send_fails, persistFailed. rewrite Huser. exact (placed_once (messages (data s)) (with_status (Some failed) (Some msg) opt)).
Qed.

Lemma delivered_shows o c l :
  o ≠ id c →
  List.filter (λ m, id m =? id c) (reconcileOptimistic (Date_parse env) l o c) = [c]
  ∧ List.filter (λ m, id m =? o) (reconcileOptimistic (Date_parse env) l o c) = [].
Proof.
  intros N. unfold reconcileOptimistic, sortMessages. split.
  - apply Permutation_singleton_r. rewrite (filter_perm _ _ _ (js_sort_perm _ _)), List.filter_app. cbn. rewrite Z.eqb_refl.
    rewrite filter_none; [done|]. intros x [_ H]%elem_of_bfilter. apply andb_true_iff in H as [H1 H2].
    by rewrite ?negb_true_iff in *.
  - apply filter_none. intros x. rewrite js_sort_elem, elem_of_app, elem_of_bfilter, list_elem_of_singleton.
    intros [[_ H]| ->]; [|by apply Z.eqb_neq]. apply andb_true_iff in H as [H1 H2]. by rewrite ?negb_true_iff in *.
Qed.

(** The answer to the request of a message, or to the store after it. *)
Definition ends_send (e : event_) : bool :=
  match e with SendGoesOn _ (TheMessage _ _) | SendGoesOn _ (TheStore _) => true | _ => false end.

(** Only the end of a send writes the failed messages. *)
Lemma stored_step s e :
  screen_ok s → ends_send e = false →
  stored (store (screen_step env s e)) = stored (store s).
Proof.
  assert (G : ∀ i now iso x rest ups s', stored (store (send_goes_on env i now iso x rest ups s')) = stored (store s')).
  { intros i now iso x rest ups s'. destruct rest; cbn [send_goes_on]; [|done]. unfold hand_over. rewrite Hdemo.
    by destruct (s_retry x). }
  intros O H. destruct e; cbn [screen_step]; try done.
  - unfold load. by rewrite Hdemo.
  - unfold load_resumes. destruct (loads (work s) !! i); [|done].
    destruct (l_at _), ans as [|[|]|[|]|[|]]; try done; cbn; try (by destruct (signed_in env)); apply stored_read.
  - unfold receive. destruct (negb _ || _ || _); [done|]. by destruct (is_created p && _), (mine (message p) || _).
  - unfold fire. destruct (timer (saver s)), ok; try done. apply stored_draft.
  - unfold send. destruct (_ || _); [done|]. by rewrite G.
  - unfold send. destruct (_ || _); [done|]. by rewrite G.
  - destruct ans as [pr po now iso|r w|msg]; try done. unfold send_resumes. destruct (sends (work s) !! i) as [x|] eqn:Hi; [|done].
    destruct (one_send s i x O Hi) as (_ & _ & _ & K). unfold sending_ok in K.
    destruct (s_at x) as [[|a rest] ups| |]; try done. destruct (Upload.Attachment.uploadAttachment pr po a).1; [by rewrite G|].
    by rewrite K.
  - by destruct r.
  - by destruct r.
  - by destruct r.
  - by destruct r.
  - by destruct r.
  - unfold pick. by destruct (pending_all assets).
  - unfold toggleMute. by destruct (summary (data s)).
  - by destruct r.
  - unfold loadOlder. by destruct (may_load_older env s).
  - by destruct r as [[]|].
  - unfold open_pin, load. by rewrite Hdemo.
Qed.

(** A send that is waiting was waiting before, sends the composer, or retries what was pressed. *)
Lemma sends_step s e x :
  screen_ok s → x ∈ sends (work (screen_step env s e)) →
  ends_send e = false →
  x ∈ sends (work s) ∨ s_retry x = None ∨ ∃ now iso r, e = PressesRetry now iso r ∧ s_retry x = Some r.
Proof.
  intros O. assert (G : ∀ now iso y rest ups s', sends (work s') = [y] → x ∈ sends (work (send_goes_on env 0 now iso y rest ups s')) →
    s_retry x = s_retry y).
  { intros now iso y rest ups s' E. assert (K : ∀ p s'', sends (work s'') = [y] → x ∈ sends (work (send_at 0 y p s'')) → s_retry x = s_retry y).
    { intros p s'' E'. unfold send_at. cbn. rewrite E'. cbn. by intros ->%list_elem_of_singleton. }
    destruct rest; cbn [send_goes_on]; [|by apply K]. unfold hand_over. rewrite Hdemo. cbn [add_post set_work sends work].
    apply K. by destruct (s_retry y). }
  assert (P : ∀ now iso r, x ∈ sends (work (send env now iso r s)) → x ∈ sends (work s) ∨ s_retry x = r).
  { intros now iso r. unfold send. destruct (_ || _) eqn:B; [by left|]. apply orb_false_iff in B as [_ B].
    rewrite (no_send s O B). cbn [app length]. intros H. right. by apply G in H. }
  destruct e; cbn [screen_step]; intros H T; try (by left).
  - unfold load in H. rewrite Hdemo in H. by left.
  - left. revert H. unfold load_resumes. destruct (loads (work s) !! i); [|done].
    destruct (l_at _), ans as [|[|]|[|]|[|]]; try done; cbn; by destruct (signed_in env).
  - left. revert H. unfold receive. destruct (negb _ || _ || _); [done|].
    by destruct (is_created p && _), (mine (message p) || _).
  - apply P in H as [H|H]; auto.
  - apply P in H as [H|H]; [auto|]. right; right. eauto.
  - destruct ans as [pr po now iso|r w|msg]; try done. revert H. unfold send_resumes.
    destruct (sends (work s) !! i) as [y|] eqn:Hi; [|by left].
    destruct (one_send s i y O Hi) as (-> & Hs & _ & K). unfold sending_ok in K.
    destruct (s_at y) as [[|a rest] ups| |]; try (by left). destruct (Upload.Attachment.uploadAttachment pr po a).1.
    + intros H. right; left. rewrite <- K. by eapply G.
    + rewrite K. unfold upload_fails, send_returns. cbn. rewrite Hs. cbn. by intros H%not_elem_of_nil.
  - left. by destruct r.
  - left. by destruct r.
  - left. by destruct r.
  - left. by destruct r.
  - left. by destruct r.
  - left. revert H. unfold pick. by destruct (pending_all assets).
  - left. revert H. unfold toggleMute. by destruct (summary (data s)).
  - left. by destruct r.
  - left. revert H. unfold loadOlder. by destruct (may_load_older env s).
  - left. by destruct r as [[]|].
  - left. revert H. unfold open_pin, load. by rewrite Hdemo.
Qed.

(** A request is for a message that is shown as being sent. *)
Definition posts_shown (s s' : Screen) : Prop :=
  posted (work s') = posted (work s)
  ∨ ∃ o p m, posted (work s') = posted (work s) ++ [(o, p)] ∧ shown_as o s' = [m] ∧ client_status m = Some sending.

Lemma goes_on_posts i now iso x rest ups s :
  match s_retry x with Some m => id m ≠ 0 | None => True end → posts_shown s (send_goes_on env i now iso x rest ups s).
Proof.
  intros R. destruct rest; cbn [send_goes_on]; [|by left]. right. unfold hand_over. rewrite Hdemo.
  set (o := z_or _ _). set (opt := match s_retry x with Some m => m | None => _ end). eexists o, _, (with_status (Some sending) None opt).
  assert (Io : id (with_status (Some sending) None opt) = o).
  { subst o opt. unfold z_or. destruct (s_retry x) as [m|]; [|done]. by rewrite (proj2 (Z.eqb_neq _ _) R). }
  split; [by destruct (s_retry x)|]. split; [|done]. unfold shown_as. rewrite <- Io.
  replace (messages (data _)) with (sorted env (List.filter (λ m, negb (id m =? id (with_status (Some sending) None opt))) (messages (data s))
    ++ [with_status (Some sending) None opt])); [apply placed_once|]. rewrite Io. by destruct (s_retry x).
Qed.

Lemma step_posts s e : ev_ok s e → screen_ok s → posts_shown s (screen_step env s e).
Proof.
  intros Ev O. assert (P : ∀ now iso r, match r with Some m => m ∈ messages (data s) ∧ isf m | None => True end →
    posts_shown s (send env now iso r s)).
  { intros now iso r Hr. unfold send. destruct (_ || _); [by left|].
    match goal with |- posts_shown s (send_goes_on _ _ _ _ ?x ?rest ?ups ?s1) =>
      destruct (goes_on_posts (length (sends (work s))) now iso x rest ups s1) as [E|(o & p & m & E & K)] end.
    - destruct r as [m|]; [|done]. cbn. destruct (so_own s O m (proj1 Hr) (proj2 Hr)). lia.
    - left. by rewrite E.
    - right. exists o, p, m. by rewrite E. }
  destruct e; cbn [screen_step]; try (by left).
  - left. unfold load. by rewrite Hdemo.
  - left. unfold load_resumes. destruct (loads (work s) !! i); [|done].
    destruct (l_at _), ans as [|[|]|[|]|[|]]; try done; cbn; by destruct (signed_in env).
  - left. unfold receive. destruct (negb _ || _ || _); [done|]. by destruct (is_created p && _), (mine (message p) || _).
  - by apply P.
  - by apply P.
  - unfold send_resumes. destruct (sends (work s) !! i) as [x|] eqn:Hi; [|by left].
    destruct (one_send s i x O Hi) as (_ & _ & _ & K). unfold sending_ok in K.
    destruct (s_at x) as [[|f rest] ups|o opt|opt wr] eqn:Hx, ans as [pr po now iso|[c|msg] w|msg]; try (by left).
    + destruct (Upload.Attachment.uploadAttachment pr po f).1; [apply goes_on_posts; by rewrite K|rewrite K; by left].
    + left. rewrite Huser. unfold persistFailed. by rewrite Huser.
    + left. unfold send_fails, persistFailed. by rewrite Huser.
    + left. destruct wr; [done|]. unfold send_fails, persistFailed. by rewrite Huser.
  - left. by destruct r.
  - left. by destruct r.
  - left. by destruct r.
  - left. by destruct r.
  - left. by destruct r.
  - left. unfold pick. by destruct (pending_all assets).
  - left. unfold toggleMute. by destruct (summary (data s)).
  - left. by destruct r.
  - left. unfold loadOlder. by destruct (may_load_older env s).
  - left. by destruct r as [[]|].
  - left. unfold open_pin, load. by rewrite Hdemo.
Qed.

(** A message shown as failed stays until it is sent again. *)
Lemma failed_stays s e m :
  ev_ok s e → screen_ok s → m ∈ messages (data s) → isf m → ¬ being_sent (work s) (id m) →
  (∀ now iso r, e = PressesRetry now iso r → id r ≠ id m) → m ∈ messages (data (screen_step env s e)).
Proof.
  intros Ev O Hm Hf N R. pose proof (screen_step_ok s e Ev O) as O'.
  destruct (ends_send e) eqn:T; [|].
  2: { assert (St : m ∈ stored (store (screen_step env s e))) by (rewrite stored_step by done; by apply (so_keep s O)).
    destruct (so_back _ O' m St) as (_ & [?|(x & o & Hx & Hp & Hr)]); [done|]. exfalso.
    destruct (sends_step s e x O Hx T) as [Hs|[Hs|(now & iso & r & -> & Hs)]]; [|congruence|].
    + apply N. exists x. split; [done|]. rewrite Hp. pose proof (so_sends s O) as F. rewrite Forall_forall in F.
      specialize (F x Hs). unfold sending_ok in F. rewrite Hp in F. tauto.
    + apply (R now iso r eq_refl). congruence. }
  assert (F : ∀ opt text, id opt ≠ id m → m ∈ messages (data (send_fails env 0 opt text s))).
  { intros opt text Ne. unfold send_fails, persistFailed. rewrite Huser. cbn. rewrite sorted_elem, elem_of_app, elem_of_bfilter. left.
    split; [done|]. apply negb_true_iff, Z.eqb_neq. cbn. congruence. }
  destruct e as [| | | | | | | |i [|r w|msg]| | | | | | | | | | | | | | | | | |]; try done; cbn [screen_step]; unfold send_resumes;
    (destruct (sends (work s) !! i) as [x|] eqn:Hi; [|done]); destruct (one_send s i x O Hi) as (-> & Hs & _ & K);
    (assert (X : x ∈ sends (work s)) by (rewrite Hs; by left)); unfold sending_ok in K;
    destruct (s_at x) as [rest ups|o opt|opt wr] eqn:Hx; try done; try (by destruct rest).
  - assert (No : o ≠ id m) by (intros E; apply N; exists x; by rewrite Hx). destruct K as (Ko & _).
    destruct r as [c|text]; [|apply F; congruence]. rewrite Huser.
    assert (M : m ∈ reconcileOptimistic (Date_parse env) (messages (data s)) o c).
    { unfold reconcileOptimistic, sortMessages. rewrite js_sort_elem, elem_of_app, elem_of_bfilter. left. split; [done|].
      destruct (so_own s O m Hm Hf) as [Hneg _]. cbn in Ev. destruct Ev as [Hpos _].
      rewrite andb_true_iff, !negb_true_iff, !Z.eqb_neq. split; [congruence|lia]. }
    unfold persistFailed. rewrite Huser. unfold forget. cbn. done.
  - assert (No : id opt ≠ id m) by (intros E; apply N; exists x; by rewrite Hx).
    destruct wr; [done|]. by apply F.
Qed.

(** C3: no message is lost in a conversation. Take the screen of a conversation that has loaded, for
    a signed-in user (the store holding at first only failed messages of the user, each once), after
    any sequence of actions of the user, answers, realtime events, reloads and timers ([ev_ok]: the
    server sends messages with positive identifiers, two messages are not composed in the same
    millisecond, failed messages of the screen are what is sent again, messages of the server are
    what is deleted, pinned and reacted to, the user does not block the own account, and it is not
    the demonstration, which reacts without a server). Then:
    a message that is handed over is shown, once, as being sent; when its request succeeds, the
    message of the server is shown, once, and no longer the one that was being sent; when it
    fails, the message is shown, once, as failed, with its contents. A message that is shown as
    failed is in the store, also after the screen is left, and stays on the screen through
    everything but sending it again. While a message is being sent the buttons send nothing, and
    every request that went out was answered with success, is the one that is waiting, or its
    message is shown as failed. (The screen need not show a message during its request when it
    reloads meanwhile, and shows a delivered message as failed when the store refuses to
    forget its draft.) *)
Theorem sent_messages_kept a st w members (es : list event_) :
  Forall canonical (w_messages w) → stored_own st → events_ok es (loaded a st w members) →
  let s := run_screen env es (loaded a st w members) in
  (∀ e o p, ev_ok s e → posted (work (screen_step env s e)) = posted (work s) ++ [(o, p)] →
     ∃ m, shown_as o (screen_step env s e) = [m] ∧ client_status m = Some sending)
  ∧ (∀ i x o m c written, ev_ok s (SendGoesOn i (TheMessage (Ok c) written)) →
       sends (work s) !! i = Some x → s_at x = Posting o m →
       let s' := screen_step env s (SendGoesOn i (TheMessage (Ok c) written)) in shown_as (id c) s' = [c] ∧ shown_as o s' = [])
  ∧ (∀ i x o m msg written, sends (work s) !! i = Some x → s_at x = Posting o m →
       shown_as o (screen_step env s (SendGoesOn i (TheMessage (Throws msg) written))) = [with_status (Some failed) (Some msg) m])
  ∧ (∀ m, m ∈ messages (data s) → is_failed_message m = true →
       m ∈ stored (leave_screen env s)
       ∧ ∀ e, ev_ok s e → ¬ being_sent (work s) (id m) → (∀ now iso r, e = PressesRetry now iso r → id r ≠ id m) →
           m ∈ messages (data (screen_step env s e)))
  ∧ (sends (work s) ≠ [] → ∀ now iso r, send env now iso r s = s)
  ∧ (∀ o, o ∈ map fst (posted (work s)) →
       o ∈ delivered (work s) ∨ in_flight (work s) o
       ∨ ∃ m, m ∈ messages (data s) ∧ id m = o ∧ is_failed_message m = true).
Proof.
  intros C Own Ev s. pose proof (run_screen_ok es _ Ev (loaded_ok a st w members C Own)) as O.
  fold s in O. split_and!.
  - intros e o p Ee P. destruct (step_posts s e Ee O) as [E|(o' & p' & m & E & Sh & St)].
    + rewrite E in P. apply (f_equal length) in P. rewrite length_app in P. cbn in P. lia.
    + rewrite E in P. apply app_inv_head in P. injection P as <- <-. eauto.
  - intros i x o m c wr Ec Hi Hx. destruct (one_send s i x O Hi) as (-> & Hs & _ & K). unfold sending_ok in K. rewrite Hx in K.
    destruct K as (Ko & (Kn & _) & _). cbn [screen_step]. unfold send_resumes. rewrite Hi, Hx, Huser. unfold persistFailed. rewrite Huser.
    unfold forget, shown_as. cbn. apply delivered_shows. cbn in Ec. destruct Ec. lia.
  - intros i x o m msg wr Hi Hx. destruct (one_send s i x O Hi) as (-> & _ & _ & K). unfold sending_ok in K. rewrite Hx in K.
    destruct K as (-> & _). cbn [screen_step]. unfold send_resumes. rewrite Hi, Hx. apply send_fails_shows.
  - intros m Hm Hf. split; [rewrite stored_leave; by apply (so_keep s O)|]. intros e Ee N R. by apply failed_stays.
  - intros N now iso r. unfold send. pose proof (so_one s O) as One. destruct (sends (work s)) as [|x [|? ?]]; [done| |done].
    rewrite One, orb_true_r. done.
  - apply (so_account s O).
Qed.

End NoLoss.

(** *** A conversation *)

Definition sample_env : Env := {|
  Date_parse := sample_parse; demo := false; demo_summary := None; demo_messages := [];
  demo_user := {| Mentions.id := 1; full_name := []; Mentions.email := [] |};
  userId := Some 7; kind := channel; cid := 3; me := sample_author; is_staff := false |}.

Definition sample_window : Window := {|
  w_summary := {| workspace_id := 1; title := js "general"; muted := false |};
  w_messages := [sample_message 1 "100"]; w_pinned := [];
  w_meta := {| oldest_message_id := Some 1; newest_message_id := Some 1; has_older := false;
               has_newer := false |} |}.

(** A message is sent and fails; the user types on, retries it, and it is delivered. *)
Definition sample_events : list event_ :=
  [TypesText (js " hi "); PressesSend 500 (js "500"); TypesText (js "more");
   SendGoesOn 0 (TheMessage (Throws (js "offline")) true);
   Receives {| event := created; event_channel_id := Some 3; event_direct_conversation_id := None;
               message := sample_message 2 "200" |}].

Lemma sent_messages_kept_witness :
  let s := run_screen sample_env sample_events (loaded sample_env None ∅ sample_window []) in
  map fst (posted (work s)) = [-500]
  ∧ (∀ o, o ∈ map fst (posted (work s)) →
       (o ∈ delivered (work s)) ∨ in_flight (work s) o
       ∨ ∃ m, m ∈ messages (data s) ∧ id m = o ∧ is_failed_message m = true).
Proof.
  cbn zeta. split; [vm_compute; reflexivity|].
  apply (sent_messages_kept sample_env eq_refl eq_refl None ∅ sample_window [] sample_events).
  - by repeat constructor.
  - by split; intros *; intros H%not_elem_of_nil.
  - cbn [events_ok sample_events]. split_and!; try done.
    split; [done|]. apply Forall_forall, (bool_decide_unpack _). vm_compute. exact I.
Defined.

(** ** What is not kept *)

Definition offline : res Window := Throws (js "offline").

(** A message that failed on an earlier visit. *)
Definition left_behind : Message :=
  with_status (Some failed) (Some (js "offline")) (sample_message (-5) "100").
Definition store_left : Store :=
  saveFailedMessages 7 channel 3 [message_json left_behind] ∅.

(** The screen is opened without a connection, so the conversation does not load; the user
    sends a message, which fails: the failed messages of earlier visits are erased. *)
Lemma offline_send_erases_failed :
  stored sample_env store_left = [left_behind]
  ∧ map id (stored sample_env (store (run_screen sample_env
      [Opens; LoadGoesOn 0 TheDraft; LoadGoesOn 0 (TheWindow offline); TypesText (js "hi");
       PressesSend 500 (js "500"); SendGoesOn 0 (TheMessage (Throws (js "offline")) true)]
      (opened_screen None store_left)))) = [-500].
Proof. split; vm_compute; reflexivity. Qed.

Definition sample_file : PendingAttachment := {|
  Upload.Attachment.local_id := js "f"; Upload.Attachment.p_uri := js "file:f";
  Upload.Attachment.filename := js "f.png"; Upload.Attachment.content_type := js "image/png";
  Upload.Attachment.byte_size := 10; Upload.Attachment.image := true;
  Upload.Attachment.status := Upload.Attachment.queued; Upload.Attachment.progress := 0;
  Upload.Attachment.uploaded := None |}.

Definition ready (es : list event_) : Screen :=
  run_screen sample_env es (loaded sample_env None ∅ sample_window []).

(** What is typed while the attachments are uploaded is removed with the text that was sent. *)
Lemma typed_during_upload_lost :
  let s := run_screen sample_env
    [PressesSend 500 (js "500"); TypesText (js "see this, and that");
     SendGoesOn 0 (TheUpload (Ok {| Upload.Attachment.p_s3_key := js "k"; Upload.Attachment.max_size := 100 |})
                     (Ok tt) 501 (js "501"))]
    (set_files [sample_file] (ready [TypesText (js "see this")])) in
  map (λ p, post_body p.2) (posted (work s)) = [js "see this"] ∧ draft_of s = [].
Proof. split; vm_compute; reflexivity. Qed.

(** Retrying a failed message that has attachments and no text sends the text of the
    composer with it; and the text stays in the composer, but not in the store. *)
Lemma retry_takes_the_draft :
  let m := {| id := -5; channel_id := Some 3; direct_conversation_id := None; parent_message_id := None;
     body := []; mention_user_ids := []; edited_at := None; deleted_at := None; pinned_at := None;
     pinned_by_id := None; created_at := js "90"; updated_at := js "90"; mine := true; blocked := None;
     reactions := []; attachments := []; read_receipts := None; client_status := Some failed;
     client_error := None; reply_count := None; author := sample_author;
     client_uploads := Some [{| up_s3_key := js "k"; up_filename := js "f"; up_content_type := js "image/png";
                                up_byte_size := 10 |}] |} in
  let s := run_screen sample_env
    [TypesText (js "draft for later"); TimerGoesOff true; PressesRetry 500 (js "500") m;
     SendGoesOn 0 (TheMessage (Ok (sample_message 9 "900")) true)]
    (set_messages [m] (ready [])) in
  map (λ p, post_body p.2) (posted (work s)) = [js "draft for later"]
  ∧ draft_of s = js "draft for later" ∧ load_text (key sample_env) (leave_screen sample_env s) = [].
Proof. split_and!; vm_compute; reflexivity. Qed.

(** Editing a message replaces the draft, in the composer and in the store. *)
Lemma edit_replaces_draft :
  let s := ready [TypesText (js "long answer"); TimerGoesOff true; StartsEdit (sample_message 1 "100");
                  TimerGoesOff true] in
  load_text (key sample_env) (store s) = js "hi"
  ∧ load_text (key sample_env) (leave_screen sample_env (screen_step sample_env s CancelsEdit)) = [].
Proof. split; vm_compute; reflexivity. Qed.

(** A file that is not supported brings the screen down instead of being refused. *)
Lemma unsupported_file_crashes :
  crashed (ready [Picks [(js "a", {| Upload.Attachment.uri := js "u"; Upload.Attachment.asset_name := Some (js "a.mov");
                                      Upload.Attachment.asset_size := Some 10;
                                      Upload.Attachment.asset_type := Some (js "video/quicktime") |})]]) = true.
Proof. vm_compute. reflexivity. Qed.

(** A delivered message whose draft could not be removed from the store is shown as failed. *)
Lemma delivered_shown_as_failed :
  let s := ready [TypesText (js "hi"); PressesSend 500 (js "500");
                  SendGoesOn 0 (TheMessage (Ok (sample_message 9 "900")) false);
                  SendGoesOn 0 (TheStore (js "disk full"))] in
  delivered (work s) = [-500] ∧ map id (List.filter is_failed_message (messages (data s))) = [-500].
Proof. split; vm_compute; reflexivity. Qed.

(** ** Bounds of the screen *)

Section Bounds.
Context (env : Env).

(** At most ten files, none of which remembers its upload; the count of new messages. *)
Definition bounded (s : Screen) : Prop :=
  (length (files (composer s)) <= 10)%nat
  ∧ Forall (λ f, Upload.Attachment.uploaded f = None) (files (composer s))
  ∧ 0 <= newMessagesBelow (view s).

Lemma bounded_frame s s' :
  files (composer s') = files (composer s) → newMessagesBelow (view s') = newMessagesBelow (view s) →
  bounded s → bounded s'.
Proof. unfold bounded. by intros -> ->. Qed.

Lemma bounded_files l s :
  (length l <= 10)%nat → Forall (λ f, Upload.Attachment.uploaded f = None) l → bounded s → bounded (set_files l s).
Proof. intros H F (_ & _ & B). by split_and!. Qed.

(** Changing the status of some files. *)
Lemma bounded_map (c : PendingAttachment → bool) st s :
  bounded s →
  bounded (set_files (map (λ b, if c b then with_file st (Upload.Attachment.progress b) b else b)
                        (files (composer s))) s).
Proof.
  intros B. destruct B as (L & F & N). apply bounded_files; [by rewrite length_map| |done].
  apply Forall_forall. intros f (b & -> & Hb)%list_elem_of_fmap. rewrite Forall_forall in F.
  destruct (c b); exact (F b Hb).
Qed.

Lemma pending_all_ok assets l :
  pending_all assets = Ok l → Forall (λ f, Upload.Attachment.uploaded f = None) l.
Proof.
  revert l. induction assets as [|[i a] rest IH]; intros l; cbn [pending_all]; [by intros [= <-]|].
  unfold Upload.Attachment.pendingAttachment.
  destruct (Upload.Attachment.validateAttachment a) as [[[f c] b]|]; [|done].
  destruct (pending_all rest) as [k|]; [|done]. intros [= <-]. constructor; [done|]. by apply IH.
Qed.

Lemma hand_over_bounded i now iso x ups s : bounded s → bounded (hand_over env i now iso x ups s).
Proof.
  intros (L & F & N). unfold hand_over. destruct (demo env), (s_retry x);
    unfold bounded; cbn; split_and!; done || lia || by constructor.
Qed.

Lemma goes_on_bounded i now iso x rest ups s :
  bounded s → bounded (send_goes_on env i now iso x rest ups s).
Proof.
  intros B. destruct rest as [|a rest]; cbn [send_goes_on]; [by apply hand_over_bounded|].
  eapply bounded_frame; [| |apply (bounded_map (λ b, eqs (local_id b) (local_id a))
    Upload.Attachment.uploading s B)]; done.
Qed.

Lemma send_fails_bounded i m msg s : bounded s → bounded (send_fails env i m msg s).
Proof. apply bounded_frame; unfold send_fails, persistFailed; by destruct (signed_in env). Qed.

Lemma upload_fails_bounded i s : bounded s → bounded (upload_fails i s).
Proof.
  intros B. eapply bounded_frame; [| |apply (bounded_map (λ b, match Upload.Attachment.status b with
    Upload.Attachment.uploading => true | _ => false end) Upload.Attachment.failed s B)]; [|done].
  unfold upload_fails. cbn. apply map_ext. intros b. by destruct (Upload.Attachment.status b).
Qed.

Lemma send_resumes_bounded i ans s : bounded s → bounded (send_resumes env i ans s).
Proof.
  intros B. unfold send_resumes. destruct (sends (work s) !! i) as [x|] eqn:Hi; [|done]. 
  destruct (s_at x) as [[|a rest] ups|o opt|opt w], ans as [pr po now iso|[c|msg] wr|msg]; try done.
  - destruct (Upload.Attachment.uploadAttachment pr po a).1; [by apply goes_on_bounded|].
    destruct (s_retry x); [by apply send_fails_bounded|by apply upload_fails_bounded].
  - eapply bounded_frame; [| |exact B]; unfold persistFailed; by destruct (signed_in env).
  - by apply send_fails_bounded.
  - destruct w; [|by apply send_fails_bounded]. by eapply bounded_frame; [| |exact B].
Qed.

Lemma screen_step_bounded s e : bounded s → bounded (screen_step env s e).
Proof.
  intros B. destruct e; cbn [screen_step];
    try (by eapply bounded_frame; [| |exact B]);
    try (destruct r; (apply (bounded_frame s); [reflexivity|reflexivity|exact B])).
  - unfold load. destruct (demo env); by eapply bounded_frame; [| |exact B].
  - unfold load_resumes. destruct (loads (work s) !! i) as [l|]; [|done].
    destruct (l_at l), ans as [|[]|[]|[]]; try done; try (by eapply bounded_frame; [| |exact B]).
    destruct (signed_in env); by eapply bounded_frame; [| |exact B].
  - unfold receive. destruct (negb _ || _ || _); [done|]. destruct B as (L & F & N).
    destruct (is_created p && _), (mine (message p)), (nearBottom (view s)); split_and!; cbn; try done; lia.
  - unfold send. destruct (negb _ && _ && _ || _); [done|]. apply goes_on_bounded.
    by eapply bounded_frame; [| |exact B].
  - unfold send. destruct (negb _ && _ && _ || _); [done|]. apply goes_on_bounded.
    by eapply bounded_frame; [| |exact B].
  - by apply send_resumes_bounded.
  - unfold pick. destruct (pending_all assets) as [l|] eqn:E; [|by eapply bounded_frame; [| |exact B]].
    destruct B as (L & F & N). apply bounded_files; [rewrite length_take; lia| |done].
    apply Forall_take, Forall_app. split; [done|]. by eapply pending_all_ok.
  - destruct B as (L & F & N). apply bounded_files; [| |done].
    + etransitivity; [apply filter_length_le|done].
    + by apply Forall_bfilter.
  - unfold toggleMute. destruct (summary (data s)); by eapply bounded_frame; [| |exact B].
  - unfold loadOlder. destruct (may_load_older env s); by eapply bounded_frame; [| |exact B].
  - destruct r as [[l m]|]; by eapply bounded_frame; [| |exact B].
  - destruct B as (L & F & N). unfold onScroll. split_and!; cbn; try done. by destruct (_ <=? _).
  - by destruct B as (L & F & N).
  - unfold open_pin, load. destruct (demo env); by eapply bounded_frame; [| |exact B].
Qed.

(** Whatever happens on the screen, at most ten files wait to be sent, and none of them
    records that it was uploaded: a send that is tried again uploads every file again. *)
Theorem files_bounded a st (es : list event_) :
  let s := run_screen env es (opened_screen a st) in
  (length (files (composer s)) <= 10)%nat
  ∧ Forall (λ f, Upload.Attachment.uploaded f = None) (files (composer s))
  ∧ 0 <= newMessagesBelow (view s).
Proof.
  change (bounded (run_screen env es (opened_screen a st))). unfold run_screen.
  generalize (opened_screen a st) (ltac:(repeat constructor; cbn; lia) : bounded (opened_screen a st)).
  induction es as [|e es IH]; [done|]. intros s B. apply IH. by apply screen_step_bounded.
Qed.

End Bounds.
