(* ===== verification/ThreadScreen.v ===== *)
(** * The thread screen (mobile)

    [mobile/src/app/(app)/thread/[id].tsx]: a message, its replies and the composer of a
    reply, over [MessageState] and [Autosave]. As on the conversation screen, a handler runs
    up to its next [await] and goes on with an event of its own. *)

From S2P Require Import Prelude.
From S2P Require Import Keyed.
From S2P Require Import MessageState.
From S2P Require Import Upload.
From S2P Require Import Mentions.
From S2P Require Import Storage.
From S2P Require Import Autosave.
Import Mobile.
Import Upload.Recording.

Inductive LoadPoint := AtDraft | AtThread.

(** Where [send] waits: for the request, or for the store that removes the draft. *)
Inductive SendPoint := Posting | Forgetting (written : bool).
Record Sending := { s_body : str; s_at : SendPoint }.

Record Thread := {
  saver : Saver; store : Store;
  root : option Message; replies : list Message; users : list MentionableUser;
  isSending : bool; error : option str;
  loads : list LoadPoint; sends : list Sending;
}.

Definition set_saver (f : Saver) (s : Thread) : Thread :=
  {| saver := f; store := store s; root := root s; replies := replies s; users := users s;
     isSending := isSending s; error := error s; loads := loads s; sends := sends s |}.
Definition set_store (f : Store) (s : Thread) : Thread :=
  {| saver := saver s; store := f; root := root s; replies := replies s; users := users s;
     isSending := isSending s; error := error s; loads := loads s; sends := sends s |}.
Definition set_thread (r : option Message) (l : list Message) (s : Thread) : Thread :=
  {| saver := saver s; store := store s; root := r; replies := l; users := users s;
     isSending := isSending s; error := error s; loads := loads s; sends := sends s |}.
Definition set_users (u : list MentionableUser) (s : Thread) : Thread :=
  {| saver := saver s; store := store s; root := root s; replies := replies s; users := u;
     isSending := isSending s; error := error s; loads := loads s; sends := sends s |}.
Definition set_error (e : option str) (s : Thread) : Thread :=
  {| saver := saver s; store := store s; root := root s; replies := replies s; users := users s;
     isSending := isSending s; error := e; loads := loads s; sends := sends s |}.
Definition set_loads (l : list LoadPoint) (s : Thread) : Thread :=
  {| saver := saver s; store := store s; root := root s; replies := replies s; users := users s;
     isSending := isSending s; error := error s; loads := l; sends := sends s |}.
Definition set_sends (b : bool) (l : list Sending) (s : Thread) : Thread :=
  {| saver := saver s; store := store s; root := root s; replies := replies s; users := users s;
     isSending := b; error := error s; loads := loads s; sends := l |}.

(** What the screen is opened with; [demo_thread] is the message and the reply of the demo. *)
Record Env := {
  Date_parse : str → option Z;
  demo : bool; demo_thread : option (Message * Message); demo_users : list MentionableUser;
  userId : option Z;
  rootId : Z;
  workspaceId : option Z;                      (* [None] when it is not an integer *)
}.

Section Handlers.
Context (env : Env).

Definition sorted : list Message → list Message := sortMessages (Date_parse env).
Definition uid : Z := default 0 (userId env).
Definition signed_in : bool := match userId env with Some n => negb (n =? 0) | None => false end.
Definition key : str := threadDraftKey uid (rootId env).

Definition draft_of (s : Thread) : str := draft (saver s).
Definition setDraft (d : str) (s : Thread) : Thread :=
  set_saver (Autosave.setDraft signed_in d (saver s)) s.
Definition setLoading (b : bool) (s : Thread) : Thread :=
  set_saver (Autosave.setLoading signed_in b (saver s)) s.

Definition opened_thread (st : Store) : Thread :=
  {| saver := opened; store := st; root := None; replies := []; users := []; isSending := false;
     error := None; loads := []; sends := [] |}.

(** [useMemo(() => sortMessages(replies))] *)
Definition visible (s : Thread) : list Message := sorted (replies s).

Definition INCOMPLETE : str := js "This thread link is incomplete. Open it again from the conversation.".
Definition NO_DEMO : str := js "This demo conversation has no message to open as a thread.".

Definition valid_workspace : bool := match workspaceId env with Some n => 0 <? n | None => false end.

(** What follows the stored draft: the link is checked and the requests go out; the demo
    has its thread at once. *)
Definition load_requests (i : nat) (s : Thread) : Thread :=
  let fails m := setLoading false (set_error (Some m) (set_loads (delete i (loads s)) s)) in
  if negb valid_workspace then fails INCOMPLETE
  else if demo env then
    match demo_thread env with
    | None => fails NO_DEMO
    | Some (r, reply) =>
        setLoading false (set_error None (set_users (demo_users env)
          (set_thread (Some r) [reply] (set_loads (delete i (loads s)) s))))
    end
  else set_loads (<[i := AtThread]> (loads s)) s.

Definition load (s : Thread) : Thread :=
  let s1 := set_loads (loads s ++ [AtDraft]) (setLoading true s) in
  if signed_in && negb (demo env) then s1 else load_requests (length (loads s)) s1.

Inductive LoadAnswer :=
| TheDraft
| TheThread (r : res (Message * list Message * list MentionableUser)).

Definition load_resumes (i : nat) (ans : LoadAnswer) (s : Thread) : Thread :=
  match loads s !! i, ans with
  | Some AtDraft, TheDraft => load_requests i (setDraft (load_text key (store s)) s)
  | Some AtThread, TheThread (Ok (r, l, us)) =>
      setLoading false (set_error None (set_users us (set_thread (Some r) l
        (set_loads (delete i (loads s)) s))))
  | Some AtThread, TheThread (Throws m) =>
      setLoading false (set_error (Some m) (set_loads (delete i (loads s)) s))
  | _, _ => s
  end.

Definition subscribed (s : Thread) : bool :=
  negb (demo env) && negb (loading (saver s)) && bool_decide (error s = None).

Definition receive (p : MessageEvent) (s : Thread) : Thread :=
  if negb (subscribed s) then s
  else if id (message p) =? rootId env then
    set_thread (match event p with deleted => None | _ => Some (message p) end) (replies s) s
  else if bool_decide (parent_message_id (message p) = Some (rootId env)) then
    set_thread (root s) (Mobile.mergeMessageEvent (Date_parse env) (replies s) p) s
  else s.

Definition send_returns (i : nat) (s : Thread) : Thread := set_sends false (delete i (sends s)) s.

(** [send]; in the demo the reply is shown at once, as [demo_reply]. *)
Definition send (demo_reply : str → Message) (s : Thread) : Thread :=
  let text := trim (draft_of s) in
  if negb (truthy text) || isSending s then s
  else
    let s1 := setDraft [] (set_sends true (sends s ++ [{| s_body := text; s_at := Posting |}]) s) in
    if demo env
    then send_returns (length (sends s)) (set_thread (root s1) (sorted (replies s1 ++ [demo_reply text])) s1)
    else s1.

(** The [catch] of [send]. *)
Definition send_fails (i : nat) (text : str) (s : Thread) : Thread := send_returns i (setDraft text s).

Inductive SendAnswer := TheReply (r : res Message) (written : bool) | TheStore.

Definition add_reply (m : Message) (l : list Message) : list Message :=
  sorted (List.filter (λ x, negb (id x =? id m)) l ++ [m]).

Definition send_resumes (i : nat) (ans : SendAnswer) (s : Thread) : Thread :=
  match sends s !! i with
  | None => s
  | Some x =>
      match s_at x, ans with
      | Posting, TheReply (Ok m) written =>
          let s1 := set_thread (root s) (add_reply m (replies s)) s in
          if signed_in then
            let r := forget key signed_in (saver s1, store s1) in
            set_sends true (<[i := {| s_body := s_body x; s_at := Forgetting written |}]> (sends s1))
              (set_store (if written then r.2 else store s1) (set_saver r.1 s1))
          else send_returns i s1
      | Posting, TheReply (Throws _) _ => send_fails i (s_body x) s
      | Forgetting written, TheStore => if written then send_returns i s else send_fails i (s_body x) s
      | _, _ => s
      end
  end.

(** [toggleReaction] is asked of the server, except in the demo. *)
Definition react_answered (m : Message) (r : res Message) (s : Thread) : Thread :=
  match r with
  | Ok n =>
      if id m =? rootId env then set_thread (Some n) (replies s) s
      else set_thread (root s) (map (λ x, if id x =? id m then n else x) (replies s)) s
  | Throws _ => s
  end.

(** The sheet of a message opens for the messages of others. *)
Definition safety_actions (m : Message) : bool := negb (mine m || (id m <=? 0)).

Inductive event_ :=
| Opens
| LoadGoesOn (i : nat) (ans : LoadAnswer)
| Receives (p : MessageEvent)
| TypesText (d : str)
| TimerGoesOff (ok : bool)
| SaveSettles (i : nat)
| PressesSend (demo_reply : str → Message)
| SendGoesOn (i : nat) (ans : SendAnswer)
| ReactAnswered (m : Message) (r : res Message).

Definition thread_step (s : Thread) (e : event_) : Thread :=
  match e with
  | Opens => load s
  | LoadGoesOn i ans => load_resumes i ans s
  | Receives p => receive p s
  | TypesText d => setDraft d s
  | TimerGoesOff ok => let r := fire key ok (saver s, store s) in set_store r.2 (set_saver r.1 s)
  | SaveSettles i => set_saver (settle i (saver s)) s
  | PressesSend f => send f s
  | SendGoesOn i ans => send_resumes i ans s
  | ReactAnswered m r => react_answered m r s
  end.

Definition run_thread (es : list event_) (s : Thread) : Thread := fold_left thread_step es s.

(** ** Replies *)

Definition reply_ok (m : Message) : Prop := parent_message_id m = Some (rootId env).

Record thread_ok (s : Thread) : Prop := {
  th_nodup : NoDup (map id (replies s));
  th_parent : Forall reply_ok (replies s);
  th_one : match sends s with
           | [] => isSending s = false
           | [x] => isSending s = true ∧ truthy (s_body x) = true
           | _ => False
           end;
}.

Lemma thread_frame s s' :
  replies s' = replies s → sends s' = sends s → isSending s' = isSending s → thread_ok s → thread_ok s'.
Proof. intros R S B [N P O]. split; rewrite ?R, ?S, ?B; done. Qed.

Lemma sorted_replies l k :
  k ≡ₚ l → NoDup (map id l) → Forall reply_ok l → NoDup (map id (sorted k)) ∧ Forall reply_ok (sorted k).
Proof.
  intros P N F. assert (Q : sorted k ≡ₚ l) by (unfold sorted, sortMessages; by rewrite js_sort_perm).
  split; by rewrite Q.
Qed.

(** A message is added under an identifier that is not there. *)
Lemma reply_added l m :
  NoDup (map id l) → Forall reply_ok l → reply_ok m → id m ∉ map id l →
  NoDup (map id (sorted (l ++ [m]))) ∧ Forall reply_ok (sorted (l ++ [m])).
Proof.
  intros N F R A. apply (sorted_replies (l ++ [m])); [done| |].
  - rewrite map_app. apply NoDup_app. split_and!; [done| |apply NoDup_singleton].
    by intros x Hx ->%list_elem_of_singleton.
  - apply Forall_app. by repeat constructor.
Qed.

Lemma removed_replies (f : Message → bool) l :
  NoDup (map id l) → Forall reply_ok l →
  NoDup (map id (List.filter f l)) ∧ Forall reply_ok (List.filter f l).
Proof. intros N F. split; [by apply NoDup_map_bfilter|by apply Forall_bfilter]. Qed.

(** Messages are replaced under their identifier. *)
Lemma replaced_replies i (g : Message → Message) l :
  (∀ x, x ∈ l → id x = i → id (g x) = i ∧ reply_ok (g x)) → NoDup (map id l) → Forall reply_ok l →
  let k := map (λ x, if id x =? i then g x else x) l in NoDup (map id k) ∧ Forall reply_ok k.
Proof.
  intros G N F k. assert (E : map id k = map id l).
  { unfold k. rewrite map_map. apply map_ext_in. intros x Hx%list_elem_of_In.
    destruct (Z.eqb_spec (id x) i) as [Hi|]; [|done]. by rewrite (proj1 (G x Hx Hi)). }
  split; [by rewrite E|]. apply Forall_forall. intros y (x & -> & Hx)%list_elem_of_fmap.
  destruct (Z.eqb_spec (id x) i) as [Hi|]; [by apply G|]. by rewrite Forall_forall in F; apply F.
Qed.

Lemma merged_replies p l :
  reply_ok (message p) → NoDup (map id l) → Forall reply_ok l →
  let k := Mobile.mergeMessageEvent (Date_parse env) l p in NoDup (map id k) ∧ Forall reply_ok k.
Proof.
  intros R N F. unfold Mobile.mergeMessageEvent.
  assert (S : let k := spread_in l (message p) in NoDup (map id k) ∧ Forall reply_ok k).
  { apply (replaced_replies (id (message p)) (λ m, spread m (message p))); try done. }
  destruct (event p); [|exact S|by apply removed_replies].
  destruct (existsb _ l) eqn:E; [exact S|]. apply reply_added; [done|done|done|].
  intros (x & Ex & Hx)%list_elem_of_fmap. assert (existsb (λ m, id m =? id (message p)) l = true); [|congruence].
  apply existsb_exists. exists x. split; [by apply list_elem_of_In|]. apply Z.eqb_eq. congruence.
Qed.

Lemma new_reply m l :
  reply_ok m → NoDup (map id l) → Forall reply_ok l →
  NoDup (map id (add_reply m l)) ∧ Forall reply_ok (add_reply m l).
Proof.
  intros R N F. destruct (removed_replies (λ x, negb (id x =? id m)) l N F) as [N' F'].
  apply reply_added; try done. intros (x & E & Hx)%list_elem_of_fmap.
  apply elem_of_bfilter in Hx as [_ H]. apply negb_true_iff, Z.eqb_neq in H. congruence.
Qed.

(** What the server gives for this thread. *)
Definition ev_ok (s : Thread) (e : event_) : Prop :=
  match e with
  | LoadGoesOn _ (TheThread (Ok (_, l, _))) => NoDup (map id l) ∧ Forall reply_ok l
  | SendGoesOn _ (TheReply (Ok m) _) => reply_ok m
  | ReactAnswered m (Ok n) => id n = id m ∧ (id m = rootId env ∨ reply_ok n)
  | _ => True
  end.

Lemma load_requests_ok i s : demo env = false → thread_ok s → thread_ok (load_requests i s).
Proof.
  intros D O. unfold load_requests. rewrite D. destruct (negb valid_workspace);
    by eapply thread_frame; [..|exact O].
Qed.

Lemma send_returns_ok s x :
  sends s = [x] → thread_ok s → thread_ok (send_returns 0 s).
Proof. intros E [N P O]. split; try done. cbn. by rewrite E. Qed.

Lemma thread_step_ok s e : demo env = false → ev_ok s e → thread_ok s → thread_ok (thread_step s e).
Proof.
  intros D Ev O. destruct e; cbn [thread_step]; try (by eapply thread_frame; [..|exact O]).
  - unfold load. destruct (signed_in && negb (demo env)); [by eapply thread_frame; [..|exact O]|].
    apply load_requests_ok; [done|]. by eapply thread_frame; [..|exact O].
  - unfold load_resumes. destruct (loads s !! i) as [[]|], ans as [|[[[r l] us]|m]]; try done.
    + apply load_requests_ok; [done|]. by eapply thread_frame; [..|exact O].
    + destruct O as [N P One]. by split; try apply Ev.
    + by eapply thread_frame; [..|exact O].
  - unfold receive. destruct (negb _); [done|]. destruct (id (message p) =? rootId env);
      [by eapply thread_frame; [..|exact O]|].
    case_bool_decide as R; [|done]. destruct O as [N P One].
    destruct (merged_replies p (replies s) R N P). by split.
  - unfold send. destruct (negb _ || isSending s) eqn:G; [done|].
    apply orb_false_iff in G as [G1%negb_false_iff G2]. rewrite D. destruct O as [N P One].
    split; try done. cbn. destruct (sends s) as [|x [|? ?]]; [done|by destruct One; congruence|done].
  - unfold send_resumes. destruct (sends s !! i) as [x|] eqn:Hi; [|done].
    assert (E : i = 0%nat ∧ sends s = [x] ∧ isSending s = true ∧ truthy (s_body x) = true).
    { destruct O as [_ _ One]. destruct (sends s) as [|y [|? ?]]; [done| |done].
      destruct i; [|done]. injection Hi as ->. tauto. }
    destruct E as (-> & E & B & T).
    assert (F : thread_ok (send_fails 0 (s_body x) s)).
    { apply send_returns_ok with x; [done|]. by eapply thread_frame; [..|exact O]. }
    destruct (s_at x), ans as [[m|m] w|]; try done.
    + destruct O as [N P One]. destruct (new_reply m (replies s) Ev N P) as [N' P'].
      destruct signed_in; split; try done; cbn; by rewrite E.
    + destruct written; [|done]. by apply send_returns_ok with x.
  - destruct r as [n|]; [|done]. cbn [react_answered]. destruct (Z.eqb_spec (id m) (rootId env)) as [|Hr].
    + by eapply thread_frame; [..|exact O].
    + destruct O as [N P One]. destruct Ev as [E [?|R]]; [done|].
      destruct (replaced_replies (id m) (λ _, n) (replies s)) as [N' P']; [done|done|done|]. by split.
Qed.

Fixpoint events_ok (es : list event_) (s : Thread) : Prop :=
  match es with
  | [] => True
  | e :: es => ev_ok s e ∧ events_ok es (thread_step s e)
  end.

Lemma run_thread_ok es s : demo env = false → events_ok es s → thread_ok s → thread_ok (run_thread es s).
Proof.
  intros D. revert s. induction es as [|e es IH]; [done|]. intros s [E H] O. apply IH; [done|].
  by apply thread_step_ok.
Qed.

(** However loads, events, reactions and sends interleave, every reply is shown once and
    belongs to the thread, one reply is sent at a time, and its outcome is one of two: it is
    among the replies, or its text is back in the composer. *)
Theorem thread_replies_kept (st : Store) (es : list event_) :
  demo env = false → events_ok es (opened_thread st) →
  let s := run_thread es (opened_thread st) in
  NoDup (map id (visible s)) ∧ Forall reply_ok (visible s) ∧ (length (sends s) <= 1)%nat
  ∧ ∀ x, sends s !! 0%nat = Some x → s_at x = Posting →
      (∀ m w, m ∈ replies (send_resumes 0 (TheReply (Ok m) w) s))
      ∧ (∀ m w, draft_of (send_resumes 0 (TheReply (Throws m) w) s) = s_body x
                ∧ replies (send_resumes 0 (TheReply (Throws m) w) s) = replies s).
Proof.
  intros D Ev s. assert (O : thread_ok s) by (apply run_thread_ok; [done|done|by repeat constructor]).
  destruct O as [N P One]. destruct (sorted_replies (replies s) (replies s) (reflexivity _) N P) as [N' P'].
  split_and!; [done|done|by destruct (sends s) as [|? [|? ?]]; cbn; try lia|].
  intros x Hx Hp. unfold send_resumes. rewrite Hx, Hp. split.
  - intros m w. destruct signed_in; cbn; unfold add_reply, sorted, sortMessages; rewrite js_sort_elem;
      rewrite elem_of_app, list_elem_of_singleton; by right.
  - intros m w. unfold send_fails, draft_of. cbn. by rewrite setDraft_draft.
Qed.

End Handlers.

Definition sample_env : Env := {|
  Date_parse := sample_parse; demo := false; demo_thread := None; demo_users := [];
  userId := Some 7; rootId := 1; workspaceId := Some 2 |}.

Definition sample_reply (i : Z) (at_ : string) : Message :=
  let m := sample_message i at_ in
  {| id := i; channel_id := channel_id m; direct_conversation_id := None; parent_message_id := Some 1;
     body := body m; mention_user_ids := []; edited_at := None; deleted_at := None; pinned_at := None;
     pinned_by_id := None; created_at := created_at m; updated_at := updated_at m; mine := false;
     blocked := None; reactions := []; attachments := []; read_receipts := None; client_status := None;
     client_error := None; client_uploads := None; reply_count := None; author := author m |}.

Definition sample_open : list event_ :=
  [Opens; LoadGoesOn 0 TheDraft;
   LoadGoesOn 0 (TheThread (Ok (sample_message 1 "100", [sample_reply 5 "500"; sample_reply 4 "400"], [])));
   TypesText (js "ok"); PressesSend (λ _, sample_message 0 "0")].

Lemma thread_replies_kept_witness :
  map id (visible sample_env (run_thread sample_env sample_open (opened_thread ∅))) = [4; 5]
  ∧ NoDup (map id (visible sample_env (run_thread sample_env sample_open (opened_thread ∅)))).
Proof.
  split; [vm_compute; reflexivity|].
  apply (thread_replies_kept sample_env ∅ sample_open eq_refl).
  cbn [events_ok sample_open]. split_and!; try done. cbn [ev_ok map id sample_reply].
  split; [apply (bool_decide_unpack _); vm_compute; exact I|by repeat constructor].
Defined.

(** A reply fails while the user has typed on: its text takes the place of the new text. *)
Lemma failed_reply_overwrites_text :
  draft_of (run_thread sample_env
    (sample_open ++ [TypesText (js "one more thing"); SendGoesOn 0 (TheReply (Throws (js "offline")) true)])
    (opened_thread ∅)) = js "ok".
Proof. vm_compute. reflexivity. Qed.
