(* ===== verification/Session.v ===== *)
(** * The mobile session and the active workspace

    [SessionProvider] of [mobile/src/providers/session-provider.tsx] and
    [WorkspaceProvider] of [mobile/src/providers/workspace-provider.tsx], with
    [resolveActiveWorkspaceId] and [buildWorkspaceCards] of
    [mobile/src/lib/workspaces.ts]. The answer of the server is an input of each
    refresh; the stores are those of [Storage]. *)

From S2P Require Import Prelude.
From S2P Require Import Json.
From S2P Require Import Routing.
From S2P Require Import Storage.

Module Account.
Import Access.

(** ** State *)

Section Session.

(** Session users: what the server sends, written to the store as JSON. *)
Context {SessionUser : Type} (user_id : SessionUser → Z) `{!JsonCodec SessionUser}.
Context (demoUser : SessionUser).

(** What the provider reads of the sign-in. *)
Record Auth := { signedIn : bool; demo : bool; subject : option str }.

Record State := {
  user : option SessionUser;
  loading : bool;
  error : option str;
  accessDenied : bool;
  userIdRef : option Z;
  lastUserIdRef : option Z;
  store : Store;
  db : Store;
}.

Definition cacheKey (auth : Auth) : option str :=
  match subject auth with
  | Some s => if truthy s then Some (userCacheKey s) else None
  | None => None
  end.

Definition truthy_id (o : option Z) : option Z :=
  match o with Some i => if i =? 0 then None else Some i | None => None end.

(** [a || b] on identifiers. *)
Definition or_id (a b : option Z) : option Z :=
  match truthy_id a with Some i => Some i | None => b end.

(** The effect that follows [user]. *)
Definition follow_user (st : State) : State := {|
  user := user st; loading := loading st; error := error st; accessDenied := accessDenied st;
  userIdRef := user_id <$> user st;
  lastUserIdRef := or_id (user_id <$> user st) (lastUserIdRef st);
  store := store st; db := db st |}.

Definition multiRemove (keys : list str) (st : Store) : Store :=
  foldr delete st keys.

(** The identifier read from the cached user, or nothing when it cannot be read. *)
Definition cached_id (cached : option str) : option Z :=
  match cached with
  | Some c => if truthy c then (u ← parse_as c; Some (user_id u)) else None
  | None => None
  end.

Definition session_keys (auth : Auth) (id : option Z) : list str :=
  PUSH_TOKEN_KEY :: option_list (cacheKey auth)
  ++ match id with
     | Some u => [inboxKey u; workspaceCacheKey u; activeWorkspaceCacheKey u]
     | None => []
     end.

(** The clean-up both ways out of a session share. *)
Definition erase_user (auth : Auth) (id : option Z) (st : State) : State :=
  let '(s, d) := match id with
                 | Some u => (clearUserSubmissionDrafts u (clearUserConversationStorage u (store st)),
                              clearLearningCache u (db st))
                 | None => (store st, db st)
                 end in
  {| user := user st; loading := loading st; error := error st; accessDenied := accessDenied st;
     userIdRef := userIdRef st; lastUserIdRef := lastUserIdRef st;
     store := multiRemove (session_keys auth id) s; db := d |}.

Definition with_user (u : option SessionUser) (e : option str) (denied : bool) (st : State)
    : State := {|
  user := u; loading := false; error := e; accessDenied := denied; userIdRef := userIdRef st;
  lastUserIdRef := lastUserIdRef st; store := store st; db := db st |}.

Definition with_store (s : Store) (st : State) : State := {|
  user := user st; loading := loading st; error := error st; accessDenied := accessDenied st;
  userIdRef := userIdRef st; lastUserIdRef := lastUserIdRef st; store := s; db := db st |}.

(** Whose data is erased when access is denied. *)
Definition denied_user (auth : Auth) (st : State) : option Z :=
  let cached := k ← cacheKey auth; store st !! k in
  truthy_id (or_id (cached_id cached) (or_id (userIdRef st) (lastUserIdRef st))).

(** [refresh]: [answer] is what [api.session()] returns or throws, with the message of
    the error. *)
Definition refresh (auth : Auth) (answer : SessionUser + thrown * str) (st : State) : State :=
  if negb (signedIn auth) then with_user None None false st
  else if demo auth then with_user (Some demoUser) None false st
  else match answer with
  | inl u =>
      let st := with_user (Some u) None false st in
      match cacheKey auth with
      | Some k => with_store (<[k := stringify u]> (store st)) st
      | None => st
      end
  | inr (e, message) =>
      let cached := k ← cacheKey auth; store st !! k in
      if isSessionAccessDenied e then
        with_user None (Some message) true (erase_user auth (denied_user auth st) st)
      else
        match cached with
        | Some c =>
            if truthy c && canUseCachedSession e then
              match parse_as c with
              | Some u => with_user (Some u) (Some message) (accessDenied st) st
              | None =>
                  let s := match cacheKey auth with Some k => delete k (store st) | None => store st end in
                  with_user None (Some message) (accessDenied st) (with_store s st)
              end
            else with_user None (Some message) (accessDenied st) st
        | None => with_user None (Some message) (accessDenied st) st
        end
  end.

(** Whose data is erased on sign-out. *)
Definition signed_out_user (auth : Auth) (st : State) : option Z :=
  let id := or_id (user_id <$> user st) (lastUserIdRef st) in
  match truthy_id id with
  | Some u => Some u
  | None => truthy_id (cached_id (k ← cacheKey auth; store st !! k))
  end.

(** [signOut]: the device token it unregisters, and the new state. *)
Definition signOut (auth : Auth) (st : State) : option str * State :=
  let token := store st !! PUSH_TOKEN_KEY in
  let call := match token with Some t => if truthy t && negb (demo auth) then Some t else None
                             | None => None end in
  let st := erase_user auth (signed_out_user auth st) st in
  (call, {| user := user st; loading := loading st; error := error st;
            accessDenied := accessDenied st; userIdRef := userIdRef st; lastUserIdRef := None;
            store := store st; db := db st |}).

(** ** Nothing is left behind *)

Lemma multiRemove_lookup keys st k :
  multiRemove keys st !! k = if has keys k then None else st !! k.
Proof.
  induction keys as [|x keys IH]; simpl; [done|].
  destruct (decide (k = x)) as [->|Hne].
  - rewrite lookup_delete_eq. rewrite (proj2 (has_true (x :: keys) x)) by (by left). done.
  - rewrite lookup_delete_ne by done. rewrite IH.
    destruct (has keys k) eqn:E.
    + rewrite (proj2 (has_true (x :: keys) k)); [done|]. right. by apply has_true.
    + rewrite (proj2 (has_false (x :: keys) k)); [done|]. apply not_elem_of_cons.
      split; [done|]. by apply has_false.
Qed.

(** What the stores hold after a user's data was erased, compared to before. *)
Definition erased (auth : Auth) (u : Z) (st st' : State) : Prop :=
  (∀ s, store st' !! slot_key s = if bool_decide (slot_user s = u) then None else store st !! slot_key s)
  ∧ (∀ v key, key ∈ [inboxKey v; workspaceCacheKey v; activeWorkspaceCacheKey v] →
       store st' !! key = if bool_decide (v = u) then None else store st !! key)
  ∧ store st' !! PUSH_TOKEN_KEY = None
  ∧ (∀ sub, truthy sub = true →
       store st' !! userCacheKey sub = if bool_decide (subject auth = Some sub) then None else store st !! userCacheKey sub)
  ∧ (∀ v, db st' !! learningCacheKey v = if bool_decide (v = u) then None else db st !! learningCacheKey v).

Lemma session_keys_spec auth u k :
  k ∈ session_keys auth (Some u) ↔
  k = PUSH_TOKEN_KEY ∨ cacheKey auth = Some k
  ∨ k ∈ [inboxKey u; workspaceCacheKey u; activeWorkspaceCacheKey u].
Proof.
  unfold session_keys. rewrite elem_of_cons, elem_of_app.
  destruct (cacheKey auth) as [c|]; simpl; [rewrite list_elem_of_singleton|rewrite elem_of_nil];
    naive_solver.
Qed.

Lemma cacheKey_shape auth k : cacheKey auth = Some k → ∃ s, k = userCacheKey s.
Proof. unfold cacheKey. destruct (subject auth) as [s|]; [|done]. destruct (truthy s); naive_solver. Qed.

Lemma slot_not_session auth u s : slot_key s ∉ session_keys auth (Some u).
Proof.
  rewrite session_keys_spec. intros [E|[E|E]].
  - by destruct s.
  - destruct (cacheKey_shape _ _ E) as [t Ht]. destruct s; discriminate Ht.
  - rewrite !elem_of_cons, elem_of_nil in E.
    destruct s; destruct E as [E|[E|[E|[]]]]; discriminate E.
Qed.

Lemma other_key_not_session auth u v k :
  v ≠ u → k ∈ [inboxKey v; workspaceCacheKey v; activeWorkspaceCacheKey v] →
  k ∉ session_keys auth (Some u).
Proof.
  intros Hv Hk. rewrite session_keys_spec. rewrite !elem_of_cons, elem_of_nil in Hk |- *.
  intros [E|[E|E]].
  - destruct Hk as [-> |[-> |[-> |[]]]]; discriminate E.
  - destruct (cacheKey_shape _ _ E) as [t ->]. destruct Hk as [H|[H|[H|[]]]]; discriminate H.
  - destruct Hk as [-> |[-> |[-> |[]]]]; destruct E as [E|[E|[E|[]]]]; try discriminate E;
      apply app_inv_head, str_of_Z_inj in E; done.
Qed.

Lemma user_keys_kept u v k st :
  k ∈ [inboxKey v; workspaceCacheKey v; activeWorkspaceCacheKey v] →
  clearUserSubmissionDrafts u (clearUserConversationStorage u st) !! k = st !! k.
Proof.
  intros Hk. unfold clearUserSubmissionDrafts, clearUserConversationStorage.
  rewrite !remove_prefixed_lookup. rewrite !elem_of_cons, elem_of_nil in Hk.
  destruct Hk as [-> |[-> |[-> |[]]]]; reflexivity.
Qed.

Lemma profile_kept u sub st :
  clearUserSubmissionDrafts u (clearUserConversationStorage u st) !! userCacheKey sub = st !! userCacheKey sub.
Proof.
  unfold clearUserSubmissionDrafts, clearUserConversationStorage. rewrite !remove_prefixed_lookup. reflexivity.
Qed.

Lemma erase_user_erased auth u st : erased auth u st (erase_user auth (Some u) st).
Proof.
  unfold erased, erase_user. cbn [store db]. split_and!.
  - intros s. rewrite multiRemove_lookup.
    rewrite (proj2 (has_false _ _) (slot_not_session auth u s)). apply clear_slots.
  - intros v k Hk. rewrite multiRemove_lookup. case_bool_decide as E.
    + subst v. rewrite (proj2 (has_true (session_keys auth (Some u)) k)); [done|].
      apply session_keys_spec. auto.
    + rewrite (proj2 (has_false (session_keys auth (Some u)) k)); [by apply (user_keys_kept u v)|].
      by apply (other_key_not_session auth u v).
  - rewrite multiRemove_lookup.
    rewrite (proj2 (has_true (session_keys auth (Some u)) _)); [done|]. apply session_keys_spec. auto.
  - intros sub Hs. rewrite multiRemove_lookup. case_bool_decide as E.
    + rewrite (proj2 (has_true (session_keys auth (Some u)) _)); [done|]. apply session_keys_spec.
      right; left. unfold cacheKey. by rewrite E, Hs.
    + rewrite (proj2 (has_false (session_keys auth (Some u)) _)); [by apply profile_kept|].
      rewrite session_keys_spec. intros [K|[K|K]].
      * discriminate K.
      * unfold cacheKey in K. destruct (subject auth) as [t|]; [|done]. destruct (truthy t); [|done].
        injection K as K. apply E. by f_equal.
      * rewrite !elem_of_cons, elem_of_nil in K. destruct K as [K|[K|[K|[]]]]; discriminate K.
  - intros v. unfold clearLearningCache. case_bool_decide as E.
    + subst. apply lookup_delete_eq.
    + rewrite lookup_delete_ne; [done|]. intros K. apply app_inv_head, str_of_Z_inj in K. congruence.
Qed.

(** *** A session *)

(** What happens while one account is signed in: an answer to [refresh], after which the effect
    follows the user, or the app writes to its stores, but not to the cached profile. *)
Inductive SessionEvent :=
  | Answers (a : SessionUser + thrown * str)
  | Writes (s d : Store).

Definition session_step (auth : Auth) (st : State) (e : SessionEvent) : State :=
  match e with
  | Answers a => follow_user (refresh auth a st)
  | Writes s d => {| user := user st; loading := loading st; error := error st; accessDenied := accessDenied st;
                     userIdRef := userIdRef st; lastUserIdRef := lastUserIdRef st; store := s; db := d |}
  end.

(** The account of the subject is the user [u]: the server answers with no other, and nothing
    else is written over the cached profile. *)
Fixpoint of_user (auth : Auth) (u : Z) (es : list SessionEvent) (st : State) : Prop :=
  match es with
  | [] => True
  | e :: es =>
      match e with
      | Answers (inl x) => user_id x = u
      | Answers (inr _) => True
      | Writes s _ => ∀ k, cacheKey auth = Some k → s !! k = store st !! k
      end ∧ of_user auth u es (session_step auth st e)
  end.

(** The app is started with a profile that is cached for that user, or none. *)
Definition app_started (auth : Auth) (u : Z) (st : State) : Prop :=
  user st = None ∧ userIdRef st = None ∧ lastUserIdRef st = None
  ∧ (∀ v, cached_id (k ← cacheKey auth; store st !! k) = Some v → v = u).

Definition accepts (e : SessionEvent) : bool := match e with Answers (inl _) => true | _ => false end.

(** Nobody but [u] is known in the session, and [u] is once the server has answered. *)
Record knows (auth : Auth) (u : Z) (accepted : bool) (st : State) : Prop := {
  kn_user : ∀ x, user st = Some x → user_id x = u;
  kn_ref : ∀ v, userIdRef st = Some v → v = u;
  kn_last : ∀ v, lastUserIdRef st = Some v → v = u;
  kn_cache : ∀ v, cached_id (k ← cacheKey auth; store st !! k) = Some v → v = u;
  kn_accepted : accepted = true → lastUserIdRef st = Some u;
}.

Lemma cached_id_stringify x : cached_id (Some (stringify x)) = Some (user_id x).
Proof.
  unfold cached_id. destruct (print_head (to_json x)) as (c & r & E & _).
  assert (T : truthy (stringify x) = true) by (unfold stringify; by rewrite E). rewrite T, parse_stringify. done.
Qed.

Lemma cached_id_parse c x : truthy c = true → parse_as c = Some x → cached_id (Some c) = Some (user_id x).
Proof. intros T P. unfold cached_id. by rewrite T, P. Qed.

Lemma truthy_id_nonzero u : u ≠ 0 → truthy_id (Some u) = Some u.
Proof. intros H. unfold truthy_id. by rewrite (proj2 (Z.eqb_neq _ _) H). Qed.

Lemma or_id_cases a b v : or_id a b = Some v → a = Some v ∨ b = Some v.
Proof. unfold or_id, truthy_id. destruct a as [i|]; [|auto]. destruct (i =? 0); auto. Qed.

(** What [refresh] does to the references before the effect: nothing; and to the rest: *)
Lemma refresh_user auth a st u :
  signedIn auth = true → demo auth = false →
  match a with inl x => user_id x = u | inr _ => True end →
  (∀ v, cached_id (k ← cacheKey auth; store st !! k) = Some v → v = u) →
  let st' := refresh auth a st in
  (∀ x, user st' = Some x → user_id x = u)
  ∧ (∀ v, cached_id (k ← cacheKey auth; store st' !! k) = Some v → v = u)
  ∧ userIdRef st' = userIdRef st ∧ lastUserIdRef st' = lastUserIdRef st
  ∧ match a with inl x => user st' = Some x | inr _ => True end.
Proof.
  intros H1 H2 Ha Hc. unfold refresh. rewrite H1, H2. cbn [negb].
  destruct a as [x|[e m]].
  - destruct (cacheKey auth) as [k|] eqn:K; cbn; split_and!; try done; try (by intros y [= <-]).
    rewrite lookup_insert_eq. intros v. rewrite cached_id_stringify. by intros [= <-].
  - destruct (isSessionAccessDenied e).
    + assert (Q : ∀ i, userIdRef (erase_user auth i st) = userIdRef st ∧ lastUserIdRef (erase_user auth i st) = lastUserIdRef st).
      { intros i. unfold erase_user. by destruct i. }
      split_and!; try done; try apply Q. cbn [with_user store]. unfold erase_user.
      destruct (cacheKey auth) as [k|] eqn:K; cbn [mbind option_bind]; [|done].
      assert (N : ∀ i s, multiRemove (session_keys auth i) s !! k = None).
      { intros i s. rewrite multiRemove_lookup. rewrite (proj2 (has_true _ _)); [done|]. unfold session_keys. rewrite K.
        right. by left. }
      destruct (denied_user auth st); cbn [store with_user]; by rewrite N.
    + destruct (cacheKey auth) as [k|] eqn:K; cbn [mbind option_bind] in *; [|by split_and!; rewrite ?K].
      destruct (store st !! k) as [c|] eqn:C; [|by split_and!; rewrite ?K; cbn; rewrite ?C].
      destruct (truthy c && canUseCachedSession e) eqn:T; [|by split_and!; rewrite ?K; cbn; rewrite ?C].
      apply andb_true_iff in T as [T _]. destruct (parse_as c) as [y|] eqn:P.
      * split_and!; try done; [|cbn; by rewrite C]. intros x [= <-]. apply Hc. by apply cached_id_parse.
      * split_and!; try done. cbn. by rewrite lookup_delete_eq.
Qed.

Lemma session_step_knows auth u b e st :
  signedIn auth = true → demo auth = false → u ≠ 0 →
  match e with
  | Answers (inl x) => user_id x = u
  | Answers (inr _) => True
  | Writes s _ => ∀ k, cacheKey auth = Some k → s !! k = store st !! k
  end →
  knows auth u b st → knows auth u (b || accepts e) (session_step auth st e).
Proof.
  intros H1 H2 Hu He [K1 K2 K3 K4 K5]. destruct e as [a|s d]; cbn [session_step accepts].
  - destruct (refresh_user auth a st u H1 H2) as (U & C & R & L & A); [by destruct a|done|].
    set (st' := refresh auth a st) in *. split; cbn; try done.
    + intros v. destruct (user st') as [x|] eqn:E; [|done]. intros [= <-]. by apply U.
    + intros v V. apply or_id_cases in V as [V|V]; [|rewrite L in V; by apply K3].
      destruct (user st') as [x|] eqn:E; [|done]. injection V as <-. by apply U.
    + intros B. destruct (user st') as [x|] eqn:E; cbn.
      * unfold or_id. rewrite (U x eq_refl), truthy_id_nonzero by done. done.
      * rewrite L. apply K5. destruct a; [by rewrite A in E|]. by rewrite orb_false_r in B.
  - split; cbn; try done; [|by rewrite orb_false_r]. destruct (cacheKey auth) as [k|] eqn:K; [|done]. cbn.
    by rewrite (He k eq_refl).
Qed.

Lemma session_run_knows auth u es b st :
  signedIn auth = true → demo auth = false → u ≠ 0 → of_user auth u es st → knows auth u b st →
  knows auth u (b || existsb accepts es) (fold_left (session_step auth) es st).
Proof.
  intros H1 H2 Hu. revert b st. induction es as [|e es IH]; intros b st; cbn [of_user fold_left existsb]; [by rewrite orb_false_r|].
  intros [He H] K. rewrite orb_assoc. apply IH; [done|]. by apply session_step_knows.
Qed.

Lemma knows_signed_out auth u st : u ≠ 0 → knows auth u true st → signed_out_user auth st = Some u.
Proof.
  intros Hu [K1 K2 K3 K4 K5]. unfold signed_out_user. rewrite (K5 eq_refl). unfold or_id.
  destruct (user st) as [x|]; cbn [fmap option_fmap option_map].
  - rewrite (K1 x eq_refl), !truthy_id_nonzero by done. done.
  - change (truthy_id None) with (@None Z). cbv iota. by rewrite truthy_id_nonzero.
Qed.

Lemma knows_denied auth u st : u ≠ 0 → knows auth u true st → denied_user auth st = Some u.
Proof.
  intros Hu [K1 K2 K3 K4 K5]. unfold denied_user. rewrite (K5 eq_refl).
  assert (R : or_id (userIdRef st) (Some u) = Some u).
  { unfold or_id. destruct (userIdRef st) as [v|]; [|done]. rewrite (K2 v eq_refl). by rewrite truthy_id_nonzero. }
  rewrite R. destruct (cached_id _) as [v|]; cbn [or_id]; unfold or_id; [rewrite (K4 v eq_refl), truthy_id_nonzero by done|cbn [truthy_id]];
    by apply truthy_id_nonzero.
Qed.

(** C9: leaving a session leaves nothing of the user on the device. The app is started with no
    profile cached for the subject, or one of the user [u]; while [u] is signed in the server
    answers refreshes with [u], fails or denies in any order, and the app writes to its stores.
    Once the server has answered with [u], signing out then erases every draft, failed message,
    cached list and learning cache of [u], the cached profile of the subject and the push token,
    and changes nothing that belongs to another user or another subject; a refresh that is denied
    access does the same, and takes the user off the screen. *)
Theorem leaving_erases_user (auth : Auth) (st0 : State) (u : Z) (es : list SessionEvent) :
  signedIn auth = true → demo auth = false → u ≠ 0 →
  app_started auth u st0 → of_user auth u es st0 → existsb accepts es = true →
  let st := fold_left (session_step auth) es st0 in
  erased auth u st (signOut auth st).2
  ∧ (∀ e m, isSessionAccessDenied e = true →
       erased auth u st (refresh auth (inr (e, m)) st) ∧ user (refresh auth (inr (e, m)) st) = None).
Proof.
  intros H1 H2 Hu (U & R & L & C) O A st.
  assert (K : knows auth u true st).
  { rewrite <- A. apply (session_run_knows auth u es false st0 H1 H2 Hu O). split; try done; intros; congruence. }
  split.
  - unfold signOut. rewrite (knows_signed_out auth u st Hu K). exact (erase_user_erased auth u st).
  - intros e m D. unfold refresh. rewrite H1, H2, D, (knows_denied auth u st Hu K). cbn [negb].
    split; [exact (erase_user_erased auth u st)|done].
Qed.

(** A user who was signed in stays signed in when the server cannot be reached. *)
Lemma offline_keeps_user auth st x e m k :
  signedIn auth = true → demo auth = false → cacheKey auth = Some k →
  canUseCachedSession e = true →
  user (refresh auth (inr (e, m)) (refresh auth (inl x) st)) = Some x.
Proof.
  intros H1 H2 H3 H4.
  assert (D : isSessionAccessDenied e = false).
  { destruct (isSessionAccessDenied e) eqn:D; [|done]. by rewrite denied_not_cached in H4. }
  unfold refresh. rewrite H1, H2, H3. simpl negb. cbv iota. rewrite D. cbn [mbind option_bind].
  change (store (with_store ?s ?st)) with s. rewrite lookup_insert_eq.
  destruct (print_head (to_json x)) as (c & r & E & _).
  assert (T : truthy (stringify x) = true) by (unfold stringify; by rewrite E).
  rewrite T, H4. simpl andb. cbv iota. by rewrite parse_stringify.
Qed.

End Session.

(** *** An example *)

#[export] Instance Z_codec : JsonCodec Z.
Proof.
  refine {| to_json := JNum; of_json := λ j, match j with JNum n => Some n | _ => None end |}. done.
Defined.

Definition sample_auth : Auth := {| signedIn := true; demo := false; subject := Some (js "sub") |}.

Definition sample_start : State (SessionUser := Z) := {|
  user := None; loading := true; error := None; accessDenied := false; userIdRef := None;
  lastUserIdRef := None; store := saveConversationDraft 70 channel 1 (js "yo") ∅; db := ∅ |}.

Definition sample_session : list SessionEvent :=
  [Answers (inl 7);
   Writes (saveConversationDraft 7 channel 1 (js "hi")
             (store (session_step (λ x : Z, x) 1 sample_auth sample_start (Answers (inl 7))))) (persistClient 7 JNull ∅)].

Definition sample_state : State (SessionUser := Z) :=
  fold_left (session_step (λ x : Z, x) 1 sample_auth) sample_session sample_start.

Lemma leaving_erases_user_witness :
  erased sample_auth 7 sample_state (signOut (λ x : Z, x) sample_auth sample_state).2
  ∧ store sample_state !! conversationDraftKey 7 channel 1 = Some (js "hi")
  ∧ (signOut (λ x : Z, x) sample_auth sample_state).2.(store) !! conversationDraftKey 70 channel 1
    = Some (js "yo").
Proof.
  split; [|vm_compute; by split].
  apply (leaving_erases_user (λ x : Z, x) 1 sample_auth sample_start 7 sample_session).
  - done.
  - done.
  - done.
  - by split_and!.
  - cbn [of_user sample_session]. split; [done|]. split; [|done]. intros k K. vm_compute in K. injection K as <-. vm_compute. done.
  - done.
Defined.

End Account.

Module Workspaces.

Record WorkspaceSummary := { id : Z; name : str }.

(** Conversations, as far as the cards read them. *)
Record Summary := { workspace_id : option Z; unread_count : Z }.

Record WorkspaceCard := {
  workspace : WorkspaceSummary; channelCount : nat; directMessageCount : nat; unreadCount : Z }.

Definition resolveActiveWorkspaceId (workspaces : list WorkspaceSummary) (preferredId : option Z)
    : option Z :=
  match preferredId with
  | Some p => if negb (p =? 0) && existsb (λ w, id w =? p) workspaces then Some p
              else id <$> head workspaces
  | None => id <$> head workspaces
  end.

Definition in_workspace (w : WorkspaceSummary) (s : Summary) : bool :=
  match workspace_id s with Some i => i =? id w | None => false end.

Definition buildWorkspaceCards (workspaces : list WorkspaceSummary)
    (channels dms : list Summary) : list WorkspaceCard :=
  map (λ w,
    let cs := List.filter (in_workspace w) channels in
    let ds := List.filter (in_workspace w) dms in
    {| workspace := w; channelCount := length cs; directMessageCount := length ds;
       unreadCount := fold_left (λ sum s, sum + unread_count s) (cs ++ ds) 0 |}) workspaces.

(** [Number(text) || null] for the decimal identifiers that are stored. *)
Definition stored_id (text : option str) : option Z :=
  match text with
  | Some t => match parse t with
              | Some (JNum n) => if n =? 0 then None else Some n
              | _ => None end
  | None => None
  end.

Section Provider.
Context `{!JsonCodec (list WorkspaceSummary)}.

Record State := {
  workspaces : list WorkspaceSummary;
  activeWorkspaceId : option Z;
  error : option str;
  store : Store;
}.

Definition chosen (l : list WorkspaceSummary) (a : option Z) (e : option str) (s : Store) : State :=
  {| workspaces := l; activeWorkspaceId := a; error := e; store := s |}.

(** [refresh] for a signed-in user, with the answer of [api.workspaces()]. *)
Definition refresh (userId : Z) (answer : list WorkspaceSummary + str) (st : State) : State :=
  if userId =? 0 then chosen [] None (error st) (store st)
  else
    let listKey := workspaceCacheKey userId in
    let activeKey := activeWorkspaceCacheKey userId in
    match answer with
    | inl next =>
        let active := resolveActiveWorkspaceId next (stored_id (store st !! activeKey)) in
        let s := <[listKey := stringify next]> (store st) in
        let s := match active with
                 | Some a => if a =? 0 then delete activeKey s else <[activeKey := num a]> s
                 | None => delete activeKey s end in
        chosen next active None s
    | inr message =>
        match store st !! listKey with
        | Some c =>
            if truthy c then
              match parse_as c with
              | Some l => chosen l (resolveActiveWorkspaceId l (stored_id (store st !! activeKey)))
                            (Some message) (store st)
              | None => chosen [] None (Some message) (delete activeKey (delete listKey (store st)))
              end
            else chosen (workspaces st) (activeWorkspaceId st) (Some message) (store st)
        | None => chosen (workspaces st) (activeWorkspaceId st) (Some message) (store st)
        end
    end.

(** The effect when another user signs in. *)
Definition change_user (st : State) : State := chosen [] None (error st) (store st).

Definition selectWorkspace (userId i : Z) (st : State) : State :=
  if (userId =? 0) || negb (existsb (λ w, id w =? i) (workspaces st)) then st
  else chosen (workspaces st) (Some i) (error st)
         (<[activeWorkspaceCacheKey userId := num i]> (store st)).

Definition valid (st : State) : Prop :=
  match activeWorkspaceId st with
  | Some a => a ∈ map id (workspaces st)
  | None => workspaces st = []
  end.

Lemma resolve_valid l p :
  match resolveActiveWorkspaceId l p with Some a => a ∈ map id l | None => l = [] end.
Proof.
  unfold resolveActiveWorkspaceId.
  assert (H : match id <$> head l with Some a => a ∈ map id l | None => l = [] end).
  { destruct l; [done|]. by left. }
  destruct p as [p|]; [|exact H]. destruct (_ && _) eqn:E; [|exact H].
  apply andb_true_iff in E as [_ E]. apply existsb_exists in E as (w & Hw & Ew%Z.eqb_eq).
  apply list_elem_of_fmap. exists w. split; [done|]. by apply list_elem_of_In.
Qed.

(** Whatever happens, the active workspace is one of the list. *)
Lemma workspace_steps_valid st userId i answer :
  valid st →
  valid (refresh userId answer st) ∧ valid (selectWorkspace userId i st) ∧ valid (change_user st).
Proof.
  intros V. split_and!.
  - unfold refresh. destruct (userId =? 0); [done|]. destruct answer as [next|m].
    + apply resolve_valid.
    + destruct (store st !! _) as [c|]; [|exact V]. destruct (truthy c); [|exact V].
      destruct (parse_as c); [apply resolve_valid|done].
  - unfold selectWorkspace. destruct (_ || _) eqn:E; [done|].
    apply orb_false_iff in E as [_ E%negb_false_iff].
    apply existsb_exists in E as (w & Hw & Ew%Z.eqb_eq).
    apply list_elem_of_fmap. exists w. split; [done|]. by apply list_elem_of_In.
  - done.
Qed.

(** A choice survives: the workspace the user selected is active again after the next
    refresh, as long as it is still in the list. *)
Lemma selection_survives st userId i next :
  userId ≠ 0 → i ≠ 0 → i ∈ map id (workspaces st) → i ∈ map id next →
  activeWorkspaceId (refresh userId (inl next) (selectWorkspace userId i st)) = Some i.
Proof.
  intros Hu Hi Hin Hn. unfold selectWorkspace. rewrite (proj2 (Z.eqb_neq _ _) Hu).
  assert (X : ∀ l, i ∈ map id l → existsb (λ w, id w =? i) l = true).
  { intros l Hl. apply list_elem_of_fmap in Hl as (w & -> & Hw). apply existsb_exists.
    exists w. split; [by apply list_elem_of_In|apply Z.eqb_refl]. }
  rewrite X by done. simpl orb. cbv iota. unfold refresh.
  rewrite (proj2 (Z.eqb_neq _ _) Hu). cbn [activeWorkspaceId store chosen].
  rewrite lookup_insert_eq. unfold stored_id. change (num i) with (print (JNum i)).
  rewrite parse_print. rewrite (proj2 (Z.eqb_neq _ _) Hi). unfold resolveActiveWorkspaceId.
  by rewrite (proj2 (Z.eqb_neq _ _) Hi), X.
Qed.

End Provider.
End Workspaces.
