(* ===== verification/Realtime.v ===== *)
(** * Realtime subscriptions

    [subscribe] of [web/src/lib/realtime.ts] and [subscribeToUserMessages] of
    [mobile/src/lib/cable.ts], as machines that react to the events of the platform:
    the cable token arrives, a socket opens, receives, fails or closes, a timer fires,
    the page unsubscribes. A socket that [close()] was called on receives nothing more
    and closes in time (the WebSocket standard). *)

From S2P Require Import Prelude.
From S2P Require Import Json.

(** ** What both share *)

Inductive Ready := Connecting | Open | Closing.

#[export] Instance Ready_eq_dec : EqDecision Ready.
Proof. solve_decision. Defined.

Inductive Status := connected | disconnected | error | connecting | offline.

Inductive Command := Subscribe | Unsubscribe.

Inductive Out :=
| OnStatus (s : Status)
| SendCommand (n : nat) (c : Command)
| OnMessage (payload : json)
| Opened (n : nat).

(** The contents of a cable frame, as far as they are read. *)
Inductive Frame :=
| Confirm (mine : bool)                (* [confirm_subscription]; for this identifier? *)
| Reject (mine : bool)
| Payload (message : json)             (* a message *)
| Other.                               (* no message, or not readable *)

Inductive event :=
| TokenArrives | TokenFails
| SocketOpens (n : nat)
| SocketReceives (n : nat) (f : Frame)
| SocketFails (n : nat)
| SocketCloses (n : nat)
| TimerFires
| PageUnsubscribes.

Record State := {
  closing : bool;
  attempts : nat;
  timer : option Z;
  pending : nat;                       (* calls of [connect] waiting for a token *)
  socket : option nat;                 (* the variable [socket] *)
  sockets : list (nat * Ready);        (* the sockets that have not closed *)
  next : nat;
}.

Definition set_ready (n : nat) (r : Ready) (l : list (nat * Ready)) : list (nat * Ready) :=
  map (λ s, if (s.1 =? n)%nat then (s.1, r) else s) l.

Definition ready (n : nat) (st : State) : option Ready :=
  snd <$> List.find (λ s, (s.1 =? n)%nat) (sockets st).

(** [socket?.close()] *)
Definition close_socket (st : State) : State :=
  {| closing := closing st; attempts := attempts st; timer := timer st; pending := pending st;
     socket := socket st;
     sockets := match socket st with Some n => set_ready n Closing (sockets st)
                                   | None => sockets st end;
     next := next st |}.

Definition with_pending (p : nat) (st : State) : State :=
  {| closing := closing st; attempts := attempts st; timer := timer st; pending := p;
     socket := socket st; sockets := sockets st; next := next st |}.

Definition with_timer (a : nat) (t : option Z) (st : State) : State :=
  {| closing := closing st; attempts := a; timer := t; pending := pending st;
     socket := socket st; sockets := sockets st; next := next st |}.

Definition with_sockets (l : list (nat * Ready)) (st : State) : State :=
  {| closing := closing st; attempts := attempts st; timer := timer st; pending := pending st;
     socket := socket st; sockets := l; next := next st |}.

Definition open_socket (st : State) : State :=
  {| closing := closing st; attempts := attempts st; timer := timer st; pending := pending st;
     socket := Some (next st); sockets := (next st, Connecting) :: sockets st; next := S (next st) |}.

Definition unsubscribed (st : State) : State :=
  {| closing := true; attempts := attempts st; timer := None; pending := pending st;
     socket := socket st; sockets := sockets st; next := next st |}.

Definition drop_socket (n : nat) (st : State) : State :=
  with_sockets (List.filter (λ s, negb (s.1 =? n)%nat) (sockets st)) st.

(** The first call of [connect]. *)
Definition init : State :=
  {| closing := false; attempts := 0; timer := None; pending := 1; socket := None; sockets := [];
     next := 0 |}.

(** Which events can happen. *)
Definition enabled (st : State) (e : event) : Prop :=
  match e with
  | TokenArrives | TokenFails => (0 < pending st)%nat
  | SocketOpens n => ready n st = Some Connecting
  | SocketReceives n _ => ready n st = Some Open
  | SocketFails n | SocketCloses n => is_Some (ready n st)
  | TimerFires => is_Some (timer st)
  | PageUnsubscribes => True
  end.

(** ** The web client *)

Module Web.

Definition RECONNECT_DELAYS : list Z := [1000; 2500; 5000; 10000].

Definition delay (attempts : nat) : Z :=
  default 0 (RECONNECT_DELAYS !! Nat.min attempts (length RECONNECT_DELAYS - 1)).

Definition scheduleReconnect (st : State) : State :=
  if closing st || bool_decide (is_Some (timer st)) then st
  else with_timer (S (attempts st)) (Some (delay (attempts st))) st.

(** [connect] once the token is there (or is not). *)
Definition connected_with (token : bool) (st : State) : State * list Out :=
  if negb token || closing st then (scheduleReconnect st, [OnStatus error])
  else (open_socket st, [Opened (next st)]).

Definition send (c : Command) (st : State) : list Out :=
  match socket st with Some n => [SendCommand n c] | None => [] end.

Definition step (e : event) (st : State) : State * list Out :=
  match e with
  | TokenArrives => connected_with true (with_pending (pred (pending st)) st)
  | TokenFails => connected_with false (with_pending (pred (pending st)) st)
  | SocketOpens n =>
      let st := with_sockets (set_ready n Open (sockets st)) st in
      if closing st then (close_socket st, []) else (st, send Subscribe st)
  | SocketReceives n f =>
      match f with
      | Confirm true => (with_timer 0 (timer st) st, [OnStatus connected])
      | Reject true => (st, [OnStatus error])
      | Payload m => (st, [OnMessage m])
      | _ => (st, [])
      end
  | SocketFails n => (st, [OnStatus error])
  | SocketCloses n =>
      let st := drop_socket n st in
      if closing st then (st, []) else (scheduleReconnect st, [OnStatus disconnected])
  | TimerFires => (with_pending (S (pending st)) (with_timer (attempts st) None st), [])
  | PageUnsubscribes =>
      let st := unsubscribed st in
      match n ← socket st; ready n st with
      | Some Open => (close_socket st, send Unsubscribe st)
      | _ => (close_socket st, [])
      end
  end.

End Web.

(** ** The mobile client *)

Module Mobile.

Definition delay (attempts : nat) : Z := Z.min (1000 * 2 ^ Z.of_nat attempts) 30000.

(** After a socket closed or a token could not be had. *)
Definition retry (st : State) : State * list Out :=
  if closing st then (st, [])
  else (with_timer (S (attempts st)) (Some (delay (S (attempts st)))) st, [OnStatus offline]).

Definition step (e : event) (st : State) : State * list Out :=
  match e with
  | TokenArrives =>
      let st := with_pending (pred (pending st)) st in
      if closing st then (st, []) else (open_socket st, [Opened (next st)])
  | TokenFails => retry (with_pending (pred (pending st)) st)
  | SocketOpens n =>
      let st := with_sockets (set_ready n Open (sockets st)) st in
      (st, match socket st with Some m => [SendCommand m Subscribe] | None => [] end)
  | SocketReceives n f =>
      match f with
      | Confirm _ => (with_timer 0 (timer st) st, [OnStatus connected])
      | Payload m => (st, [OnMessage m])
      | _ => (st, [])
      end
  | SocketFails n => (close_socket st, [])
  | SocketCloses n => retry (drop_socket n st)
  | TimerFires =>
      let st := with_timer (attempts st) None st in
      if closing st then (st, []) else (with_pending (S (pending st)) st, [OnStatus connecting])
  | PageUnsubscribes =>
      let st := unsubscribed st in
      (close_socket st,
       match n ← socket st; ready n st with
       | Some Open => match socket st with Some m => [SendCommand m Unsubscribe] | None => [] end
       | _ => [] end)
  end.

End Mobile.

(** ** One connection at a time *)

Inductive reachable (step : event → State → State * list Out) : State → Prop :=
| reachable_init : reachable step init
| reachable_event st e : reachable step st → enabled st e → reachable step (step e st).1.

Definition count_timer (st : State) : nat := if timer st then 1 else 0.

(** The live socket, if any, is the one the variable holds; while subscribed there is
    one timer, one call of [connect] or one socket; after that, at most the remains of
    one, and no timer. [bound] is the longest delay. *)
Definition Inv (bound : Z) (st : State) : Prop :=
  (sockets st = [] ∨ ∃ n r, sockets st = [(n, r)] ∧ socket st = Some n)
  ∧ (if closing st then
       timer st = None ∧ (pending st + length (sockets st) <= 1)%nat
       ∧ Forall (λ s, s.2 = Closing) (sockets st)
     else (count_timer st + pending st + length (sockets st) = 1)%nat)
  ∧ (∀ d, timer st = Some d → 0 < d <= bound).

Lemma web_delay_bound n : 0 < Web.delay n <= 10000.
Proof.
  unfold Web.delay. destruct n as [|[|[|n]]]; [simpl; lia..|].
  rewrite Nat.min_r by (simpl; lia). simpl. lia.
Qed.

Lemma mobile_delay_bound n : 0 < Mobile.delay n <= 30000.
Proof.
  unfold Mobile.delay. pose proof (Z.pow_pos_nonneg 2 (Z.of_nat n)). lia.
Qed.

Lemma web_step_inv st e : Inv 10000 st → enabled st e → Inv 10000 (Web.step e st).1.
Proof.
  destruct st as [cl at_ tm pe so sk nx]. intros (S & C & D) En.
  unfold Inv, count_timer in *. simpl in S, C, D. pose proof (web_delay_bound at_) as B.
  destruct e as [| |n|n f|n|n| |]; simpl in En |- *; unfold ready in En; simpl in En.
  - unfold Web.connected_with, Web.scheduleReconnect. simpl. destruct cl; simpl.
    + destruct C as (C1 & C2 & C3). split; [done|]. split; [|done].
      split; [done|]. split; [lia|done].
    + destruct tm; simpl in *; [lia|]. assert (sk = []) as -> by (destruct sk; simpl in *; [done|lia]).
      split; [naive_solver|]; split; [simpl; lia|done].
  - unfold Web.connected_with, Web.scheduleReconnect. simpl. destruct cl; simpl.
    + destruct C as (C1 & C2 & C3). split; [done|]. split; [|done].
      split; [done|]. split; [lia|done].
    + destruct tm; simpl in *; [lia|]. assert (sk = []) as -> by (destruct sk; simpl in *; [done|lia]).
      split; [by left|]; split; [simpl; lia|naive_solver lia].
  - destruct S as [-> |(m & r & -> & ->)]; [done|]. simpl in En.
    destruct (Nat.eqb_spec m n) as [<-|]; [|done]. injection En as ->. destruct cl; simpl in C.
    + destruct C as (_ & _ & [? _]%Forall_cons). done.
    + simpl. rewrite Nat.eqb_refl. simpl. split; [right; eauto|done].
  - destruct f as [[]|[]|p|]; done.
  - done.
  - destruct S as [-> |(m & r & -> & ->)]; simpl in En; [by destruct En|].
    destruct (Nat.eqb_spec m n) as [<-|]; [|by destruct En].
    unfold drop_socket, Web.scheduleReconnect. simpl. rewrite Nat.eqb_refl. simpl.
    destruct cl; simpl in *.
    + destruct C as (C1 & C2 & _). split; [by left|]. split; [|done].
      split; [done|]. split; [lia|constructor].
    + destruct tm; simpl in *; [lia|]. split; [by left|]. split; [lia|naive_solver lia].
  - destruct En as [d ->]. destruct cl; simpl in *; [by destruct C|].
    split; [done|]. split; [lia|done].
  - destruct S as [-> |(m & r & -> & ->)]; simpl.
    + destruct so as [m|]; (split; [by left|]); simpl;
        (split; [split; [done|]; split; [|constructor]|done]); destruct cl; simpl in *;
        try (destruct C as (_ & ? & _)); lia.
    + unfold ready. simpl. rewrite Nat.eqb_refl.
      assert (P : pe = 0%nat) by (destruct cl; simpl in *; [destruct C as (_ & ? & _)|]; lia). subst pe.
      destruct r; simpl; rewrite Nat.eqb_refl; simpl; (split; [right; eauto|]);
        (split; [|done]); (split; [done|]); (split; [lia|by repeat constructor]).
Qed.

Lemma mobile_step_inv st e : Inv 30000 st → enabled st e → Inv 30000 (Mobile.step e st).1.
Proof.
  destruct st as [cl at_ tm pe so sk nx]. intros (S & C & D) En.
  unfold Inv, count_timer in *. simpl in S, C, D.
  pose proof (mobile_delay_bound (Datatypes.S at_)) as B.
  destruct e as [| |n|n f|n|n| |]; simpl in En |- *; unfold ready in En; simpl in En.
  - destruct cl; simpl in *.
    + destruct C as (C1 & C2 & C3). split; [done|]. split; [|done].
      split; [done|]. split; [lia|done].
    + destruct tm; simpl in *; [lia|]. assert (sk = []) as -> by (destruct sk; simpl in *; [done|lia]).
      split; [naive_solver|]. split; [simpl; lia|done].
  - unfold Mobile.retry. simpl. destruct cl; simpl in *.
    + destruct C as (C1 & C2 & C3). split; [done|]. split; [|done].
      split; [done|]. split; [lia|done].
    + destruct tm; simpl in *; [lia|]. assert (sk = []) as -> by (destruct sk; simpl in *; [done|lia]).
      split; [by left|]. split; [simpl; lia|naive_solver lia].
  - destruct S as [-> |(m & r & -> & ->)]; [done|]. simpl in En.
    destruct (Nat.eqb_spec m n) as [<-|]; [|done]. injection En as ->. simpl. rewrite Nat.eqb_refl.
    destruct cl; simpl in C.
    + destruct C as (_ & _ & [? _]%Forall_cons). done.
    + simpl. split; [right; eauto|done].
  - destruct f as [[]|[]|p|]; done.
  - destruct S as [-> |(m & r & -> & ->)]; simpl in En; [by destruct En|].
    simpl. rewrite Nat.eqb_refl. simpl. split; [right; eauto|]. split; [|done].
    destruct cl; simpl in *; [|done]. destruct C as (? & ? & _).
    split; [done|]. split; [done|by repeat constructor].
  - destruct S as [-> |(m & r & -> & ->)]; simpl in En; [by destruct En|].
    destruct (Nat.eqb_spec m n) as [<-|]; [|by destruct En].
    unfold drop_socket, Mobile.retry. simpl. rewrite Nat.eqb_refl. simpl.
    destruct cl; simpl in *.
    + destruct C as (C1 & C2 & _). split; [by left|]. split; [|done].
      split; [done|]. split; [lia|constructor].
    + destruct tm; simpl in *; [lia|]. split; [by left|]. split; [lia|naive_solver lia].
  - destruct En as [d ->]. destruct cl; simpl in *; [by destruct C|].
    split; [done|]. split; [lia|done].
  - destruct S as [-> |(m & r & -> & ->)]; simpl.
    + destruct so as [m|]; (split; [by left|]); simpl;
        (split; [split; [done|]; split; [|constructor]|done]); destruct cl; simpl in *;
        try (destruct C as (_ & ? & _)); lia.
    + assert (P : pe = 0%nat) by (destruct cl; simpl in *; [destruct C as (_ & ? & _)|]; lia). subst pe.
      rewrite Nat.eqb_refl; simpl. split; [right; eauto|]. split; [|done].
      split; [done|]. split; [lia|by repeat constructor].
Qed.

Lemma reachable_one step bound st :
  Inv bound init → (∀ st e, Inv bound st → enabled st e → Inv bound (step e st).1) →
  reachable step st → Inv bound st.
Proof. intros H0 H R. induction R; auto. Qed.

(** Nothing is delivered and no socket is opened. *)
Definition quiet (out : list Out) : Prop :=
  ∀ o, o ∈ out → match o with OnMessage _ | Opened _ => False | _ => True end.

Lemma closing_ready l n r :
  Forall (λ s : nat * Ready, s.2 = Closing) l →
  snd <$> List.find (λ s, (s.1 =? n)%nat) l = Some r → r = Closing.
Proof.
  intros F H. destruct (List.find _ l) as [[m r']|] eqn:E; [|done]. injection H as <-.
  apply find_some in E as [E _]. rewrite Forall_forall in F. apply (F (m, r')).
  by apply list_elem_of_In.
Qed.

Ltac case_ready :=
  match goal with |- context [match ?x with Some _ => _ | None => _ end] => destruct x as [[]|] end.

Lemma web_quiet st e :
  closing st = true → Forall (λ s, s.2 = Closing) (sockets st) → enabled st e →
  quiet (Web.step e st).2 ∧ closing (Web.step e st).1 = true.
Proof.
  intros Hc C En. split.
  - destruct e as [| |n|n f|n|n| |]; simpl in En |- *; unfold Web.connected_with; simpl;
      rewrite ?Hc; simpl; try (by intros o Ho; set_solver).
    + by pose proof (closing_ready _ n Open C En).
    + case_ready; try (by intros o Ho; set_solver).
      unfold Web.send. simpl. destruct (socket st); intros o Ho; set_solver.
  - destruct e as [| |n|n [[]|[]|p|]|n|n| |]; simpl;
      unfold Web.connected_with, Web.scheduleReconnect; simpl; rewrite ?Hc; simpl; try done.
    by case_ready.
Qed.

Lemma mobile_quiet st e :
  closing st = true → Forall (λ s, s.2 = Closing) (sockets st) → enabled st e →
  quiet (Mobile.step e st).2 ∧ closing (Mobile.step e st).1 = true.
Proof.
  intros Hc C En. split.
  - destruct e as [| |n|n f|n|n| |]; simpl in En |- *; unfold Mobile.retry; simpl;
      rewrite ?Hc; simpl; try (by intros o Ho; set_solver).
    + by pose proof (closing_ready _ n Connecting C En).
    + by pose proof (closing_ready _ n Open C En).
    + case_ready; try (by intros o Ho; set_solver).
      destruct (socket st); intros o Ho; set_solver.
  - destruct e as [| |n|n [[]|[]|p|]|n|n| |]; simpl; unfold Mobile.retry; simpl;
      rewrite ?Hc; done.
Qed.

(** What a subscription promises, for delays up to [bound]. *)
Definition well_behaved (bound : Z) (step : event → State → State * list Out) : Prop :=
  ∀ st, reachable step st →
    (length (sockets st) <= 1)%nat
    ∧ (closing st = false →
         (count_timer st + pending st + length (sockets st) = 1)%nat)
    ∧ (∀ d, timer st = Some d → 0 < d <= bound)
    ∧ (closing st = true →
         timer st = None
         ∧ ∀ e, enabled st e → quiet (step e st).2 ∧ closing (step e st).1 = true).

(** C12: a subscription keeps exactly one connection going. In either client, under
    every order of events, there is at any time one pending reconnect, one connection
    attempt or one socket while the page is subscribed, never two; a reconnect comes
    within ten seconds (thirty on mobile); and once the page has unsubscribed no
    timer is left or set, no socket is opened and no message is delivered any more (an
    error status may still be reported, as [error_after_unsubscribe] shows). *)
Theorem realtime_one_connection :
  well_behaved 10000 Web.step ∧ well_behaved 30000 Mobile.step.
Proof.
  assert (I0 : ∀ b, Inv b init) by (intros b; split; [by left|by split]).
  split; intros st Hr.
  - destruct (reachable_one _ _ st (I0 10000) web_step_inv Hr) as (S & C & D).
    split; [destruct S as [-> |(? & ? & -> & _)]; simpl; lia|].
    split; [intros Hc; by rewrite Hc in C|]. split; [done|].
    intros Hc. rewrite Hc in C. destruct C as (C1 & C2 & C3). split; [done|].
    intros e. by apply web_quiet.
  - destruct (reachable_one _ _ st (I0 30000) mobile_step_inv Hr) as (S & C & D).
    split; [destruct S as [-> |(? & ? & -> & _)]; simpl; lia|].
    split; [intros Hc; by rewrite Hc in C|]. split; [done|].
    intros Hc. rewrite Hc in C. destruct C as (C1 & C2 & C3). split; [done|].
    intros e. by apply mobile_quiet.
Qed.

(** The web client reports an error to a page that has already unsubscribed, when the
    token it was waiting for arrives. *)
Lemma error_after_unsubscribe :
  let st := (Web.step PageUnsubscribes (Web.step TimerFires (Web.step TokenFails init).1).1).1 in
  closing st = true ∧ (Web.step TokenArrives st).2 = [OnStatus error].
Proof. done. Qed.
