(* ===== verification/VoiceDraft.v ===== *)
(** * Voice drafts

    [mobile/src/lib/voice-draft.ts]: inserting a transcription into the draft of a
    message, finding it again after edits, restoring the raw transcription, and
    measuring how much of it was edited. *)

From S2P Require Import Prelude.
From S2P Require Import Regex.
From S2P Require Import MessageFormat.

Record VoiceDraftReview := { rawText : str; suggestedText : str; prefix : str; suffix : str }.

Record Inserted := { value : str; cursor : nat; in_prefix : str; in_suffix : str }.

Definition blank_line : str := [LF; LF].

(** What separates the transcription from the text before and after it. *)
Definition leading_of (before : str) (multiline : bool) : str :=
  if truthy before then
    if multiline then (if endsWith before blank_line then [] else blank_line)
    else match last before with
         | Some c => if is_space c then [] else js " "
         | None => js " " end
  else [].

Definition trailing_of (after : str) (multiline : bool) : str :=
  if truthy after then
    if multiline then (if startsWith after blank_line then [] else blank_line)
    else match head after with
         | Some c => if is_space c then [] else js " "
         | None => js " " end
  else [].

Definition insertVoiceDraft (draft : str) (sel_start sel_end : Z) (text : str) : Inserted :=
  let len := Z.of_nat (length draft) in
  let start := Z.max 0 (Z.min sel_start len) in
  let end_ := Z.max start (Z.min sel_end len) in
  let before := slice draft 0 start in
  let after := slice_from draft end_ in
  let multiline := includes text [LF] in
  let leading := leading_of before multiline in
  let trailing := trailing_of after multiline in
  let inserted := leading ++ text ++ trailing in
  {| value := before ++ inserted ++ after; cursor := length before + length inserted;
     in_prefix := before ++ leading; in_suffix := trailing ++ after |}.

(** The end of [slice] is left out when it would be zero. *)
Definition voiceDraftSegment (draft : str) (review : VoiceDraftReview) : option str :=
  if negb (startsWith draft (prefix review)) || negb (endsWith draft (suffix review)) then None
  else
    let stop := Z.of_nat (length draft) - Z.of_nat (length (suffix review)) in
    Some (slice draft (Z.of_nat (length (prefix review)))
            (if stop =? 0 then Z.of_nat (length draft) else stop)).

Definition restoreRawVoiceDraft (draft : str) (review : VoiceDraftReview) : option (str * nat) :=
  match voiceDraftSegment draft review with
  | None => None
  | Some _ => Some (prefix review ++ rawText review ++ suffix review,
                    length (prefix review) + length (rawText review))%nat
  end.

Inductive Bucket := none | light | substantial.

(** [value.trim().toLowerCase().replace(/[^a-z0-9]+/g, ' ').trim()] *)
Definition normalize (v : str) : str :=
  trim (replace_all (plus (λ c, negb (is_lower c || is_digit c))) (λ _ _, js " ")
          (toLowerCase (trim v))).

Definition voiceEditDistanceBucket (review : VoiceDraftReview) (draft : str) : Bucket :=
  match voiceDraftSegment draft review with
  | None => substantial
  | Some current =>
      let original := normalize (suggestedText review) in
      let edited := normalize current in
      if eqs original edited then none
      else if negb (truthy original) || negb (truthy edited) then substantial
      else
        let originalWords := split_on " " original in
        let editedWords := split_on " " edited in
        let shared := length (List.filter (has editedWords) originalWords) in
        if (3 * Nat.max (length originalWords) (length editedWords) <=? 4 * shared)%nat
        then light else substantial
  end.

(** ** Facts *)

Lemma slice_middle {A} (a b c : list A) :
  slice (a ++ b ++ c) (Z.of_nat (length a)) (Z.of_nat (length (a ++ b ++ c)) - Z.of_nat (length c))
  = b.
Proof.
  unfold slice, slice_index. rewrite !length_app.
  rewrite (proj2 (Z.ltb_ge (Z.of_nat (length a)) 0)) by lia.
  rewrite (proj2 (Z.ltb_ge (_ - _) 0)) by lia.
  replace (Z.to_nat (Z.min (Z.of_nat (length a)) _)) with (length a) by lia.
  replace (Z.to_nat _ - length a)%nat with (length b) by lia.
  rewrite drop_app_length. apply take_app_length.
Qed.

Lemma segment_found p s seg raw sug :
  p ++ seg ≠ [] →
  voiceDraftSegment (p ++ seg ++ s) {| rawText := raw; suggestedText := sug; prefix := p; suffix := s |}
  = Some seg.
Proof.
  intros Hn. unfold voiceDraftSegment. cbn [prefix suffix].
  rewrite startsWith_app. rewrite app_assoc, endsWith_app, <- app_assoc. simpl negb. cbv iota.
  simpl orb. cbv iota. f_equal.
  destruct (Z.eqb_spec (Z.of_nat (length (p ++ seg ++ s)) - Z.of_nat (length s)) 0) as [E|E].
  - exfalso. rewrite !length_app in E. destruct p, seg; simpl in *; [done|lia..].
  - apply slice_middle.
Qed.

(** A transcription goes where the cursor is and can be found again. For any
    selection, in range or not, the new draft is the text before it, the separators
    and the transcription, and the text after it; the text outside the selection is
    kept; the cursor is after the transcription. As long as the text around it is
    not changed, whatever the user makes of the transcription is found again (unless
    nothing at all is left before the suffix), the raw transcription can be restored
    in its place, and an untouched one counts as not edited. *)
Theorem voice_draft_tracked (draft text raw : str) (sel_start sel_end : Z) :
  let i := insertVoiceDraft draft sel_start sel_end text in
  let review := {| rawText := raw; suggestedText := text; prefix := in_prefix i; suffix := in_suffix i |} in
  value i = in_prefix i ++ text ++ in_suffix i
  ∧ (∃ a b sep1 sep2, in_prefix i = take a draft ++ sep1 ∧ in_suffix i = sep2 ++ drop b draft
       ∧ (a <= b <= length draft)%nat
       ∧ (0 <= sel_start <= sel_end → sel_end <= Z.of_nat (length draft) →
          Z.of_nat a = sel_start ∧ Z.of_nat b = sel_end)
       ∧ Forall (λ c, is_space c = true) (sep1 ++ sep2))
  ∧ (∀ edited, in_prefix i ++ edited ≠ [] →
       voiceDraftSegment (in_prefix i ++ edited ++ in_suffix i) review = Some edited
       ∧ fst <$> restoreRawVoiceDraft (in_prefix i ++ edited ++ in_suffix i) review
         = Some (in_prefix i ++ raw ++ in_suffix i))
  ∧ (in_prefix i ++ text ≠ [] → voiceEditDistanceBucket review (value i) = none).
Proof.
  cbv zeta. set (i := insertVoiceDraft draft sel_start sel_end text).
  set (len := Z.of_nat (length draft)).
  set (start := Z.max 0 (Z.min sel_start len)). set (end_ := Z.max start (Z.min sel_end len)).
  assert (V : value i = in_prefix i ++ text ++ in_suffix i).
  { simpl. by rewrite <- !app_assoc. }
  split; [exact V|]. split; [|split].
  - exists (Z.to_nat start), (Z.to_nat end_),
      (leading_of (slice draft 0 start) (includes text [LF])),
      (trailing_of (slice_from draft end_) (includes text [LF])).
    split; [|split; [|split; [|split]]].
    + cbn [in_prefix i insertVoiceDraft]. fold len start. rewrite (slice_take draft start) by lia.
      done.
    + cbn [in_suffix i insertVoiceDraft]. fold len start end_.
      rewrite (slice_rest draft end_) by lia. done.
    + lia.
    + lia.
    + unfold leading_of, trailing_of. apply Forall_app.
      split; repeat case_match; by repeat constructor.
  - intros edited Hn. unfold restoreRawVoiceDraft. rewrite segment_found by done. done.
  - intros Hn. unfold voiceEditDistanceBucket. rewrite V, segment_found by done.
    by rewrite eqs_refl.
Qed.

(** When the draft had no text before the transcription and all of the transcription is
    deleted, the text after it is taken for the transcription. *)
Lemma deleted_transcription_misread :
  voiceDraftSegment (js " later")
    {| rawText := js "hi"; suggestedText := js "hi"; prefix := []; suffix := js " later" |}
  = Some (js " later").
Proof. vm_compute. reflexivity. Qed.
