(* ===== verification/Learning.v ===== *)
(** * Submissions and lessons

    [mobile/src/lib/learning.ts] (lesson completion, the state of a student's
    submissions, what can be handed in) and [web/src/lib/submissionQueue.ts] (the
    grading queue). [getTime] is [Date.parse], [None] for a date that cannot be read. *)

From S2P Require Import Prelude.
From S2P Require Import Json.
From S2P Require Import Upload.

(** ** Lessons *)

Record LessonContentBlock := {
  b_id : Z;
  block_type : str;
  completion_required : bool;
  progress_status : option str;          (* [block.progress?.status] *)
  submission_type : option str;
}.

Record Completion := { completed : nat; total : nat; percentage : Z }.

Definition is_completed (b : LessonContentBlock) : bool :=
  match progress_status b with Some s => eqs s (js "completed") | None => false end.

Definition completable (blocks : list LessonContentBlock) : list LessonContentBlock :=
  let required := List.filter completion_required blocks in
  match required with
  | [] => List.filter (λ b, negb (eqs (block_type b) (js "text"))
                            || bool_decide (is_Some (progress_status b))) blocks
  | _ => required
  end.

(** [Math.round((completed / n) * 100)] *)
Definition percent (part whole : nat) : Z :=
  Upload.Sizes.round (inject_Z (Z.of_nat part) / inject_Z (Z.of_nat whole) * inject_Z 100)%Q.

Definition lessonCompletion (blocks : list LessonContentBlock) : Completion :=
  let c := completable blocks in
  let n := length (List.filter is_completed c) in
  {| completed := n; total := length c;
     percentage := match c with [] => 0 | _ => percent n (length c) end |}.

Definition submissionTypeFor (b : LessonContentBlock) (requiresGithub : bool) : str :=
  match submission_type b with
  | Some (c :: s) => c :: s
  | _ => if requiresGithub then js "prework_github_sync"
         else if eqs (block_type b) (js "exercise") || eqs (block_type b) (js "code_challenge")
         then js "text_submission" else js "manual_complete"
  end.

(** ** Handing in *)

Record Values := {
  v_text : str; repoUrl : str; liveUrl : str; prUrl : str; branch : str; commitSha : str;
  notes : str;
}.

Record SubmissionInput := {
  content_block_id : Z;
  i_text : option str;
  repo_url : option str;
  live_url : option str;
  pr_url : option str;
  i_branch : option str;
  commit_sha : option str;
  i_notes : option str;
}.

Definition canSubmitWork (type : str) (v : Values) : bool :=
  if eqs type (js "text_submission") then truthy (trim (v_text v))
  else if eqs type (js "repo_url_submission") then truthy (trim (repoUrl v))
  else if eqs type (js "repo_and_live_url_submission")
  then truthy (trim (repoUrl v)) && truthy (trim (liveUrl v))
  else false.

Definition buildSubmissionInput (block : Z) (type : str) (v : Values) : SubmissionInput :=
  if eqs type (js "text_submission")
  then {| content_block_id := block; i_text := Some (trim (v_text v)); repo_url := None;
          live_url := None; pr_url := None; i_branch := None; commit_sha := None; i_notes := None |}
  else {| content_block_id := block; i_text := None; repo_url := Some (trim (repoUrl v));
          live_url := or_undefined (trim (liveUrl v)); pr_url := or_undefined (trim (prUrl v));
          i_branch := or_undefined (trim (branch v));
          commit_sha := or_undefined (trim (commitSha v));
          i_notes := or_undefined (trim (notes v)) |}.

(** ** Submissions *)

Record Submission := {
  id : Z; user_id : Z; block_id : Z; grade : option str; created_at : str;
}.

#[export] Instance Submission_eq_dec : EqDecision Submission.
Proof. solve_decision. Defined.

Section Times.
Context (getTime : str → option Z).

(** The reducer of [latestSubmission]. *)
Definition later (latest : option Submission) (s : Submission) : option Submission :=
  match latest with
  | None => Some s
  | Some l =>
      match getTime (created_at l), getTime (created_at s) with
      | Some lt, Some st =>
          if negb (st =? lt) then (if lt <? st then Some s else Some l)
          else if id l <? id s then Some s else Some l
      | _, _ => if id l <? id s then Some s else Some l
      end
  end.

Definition latestSubmission (l : list Submission) : option Submission := fold_left later l None.

Record SubmissionState := {
  latest : option Submission; passed : bool; redo : bool; editable : bool }.

Definition grade_is (g : option str) (x : string) : bool :=
  match g with Some s => eqs s (js x) | None => false end.

Definition submissionState (l : list Submission) : SubmissionState :=
  let latest := latestSubmission l in
  let g := s ← latest; grade s in
  {| latest := latest;
     passed := match g with Some s => truthy s && negb (eqs s (js "R")) | None => false end;
     redo := grade_is g "R";
     editable := match latest with Some s => bool_decide (grade s = None) | None => false end |}.

(** ** The grading queue *)

(** [a - b || b.id - a.id]; a difference that is not a number is falsy. *)
Definition compareNewestFirst (a b : Submission) : Z :=
  match getTime (created_at b), getTime (created_at a) with
  | Some tb, Some ta => lex_cmp (tb - ta) (id b - id a)
  | _, _ => id b - id a
  end.

Definition assignment_key (s : Submission) : str :=
  str_of_Z (user_id s) ++ js ":" ++ str_of_Z (block_id s).

Definition latest_step (m : gmap str Submission) (s : Submission) : gmap str Submission :=
  match m !! assignment_key s with
  | Some current => if compareNewestFirst s current <? 0 then <[assignment_key s := s]> m else m
  | None => <[assignment_key s := s]> m
  end.

Definition getLatestSubmissionIds (l : list Submission) : list Z :=
  map (λ kv, id kv.2) (map_to_list (fold_left latest_step l ∅)).

Inductive Filter := ungraded | redo_only | all.

Definition in_queue (f : Filter) (s : Submission) : bool :=
  match f with
  | ungraded => bool_decide (grade s = None)
  | redo_only => grade_is (grade s) "R"
  | all => true
  end.

Definition queue_order (latestIds : list Z) (a b : Submission) : Z :=
  let aLatest := has latestIds (id a) in
  let bLatest := has latestIds (id b) in
  if negb (Bool.eqb aLatest bLatest) then (if aLatest then -1 else 1)
  else compareNewestFirst a b.

Definition orderSubmissionQueue (l : list Submission) (f : Filter) : list Submission :=
  js_sort (queue_order (getLatestSubmissionIds l)) (List.filter (in_queue f) l).

(** ** The newest submission of each assignment *)

Definition time (s : Submission) : Z := default 0 (getTime (created_at s)).
Definition dated (s : Submission) : Prop := is_Some (getTime (created_at s)).

Lemma compare_dated a b :
  dated a → dated b →
  compareNewestFirst a b = lex_cmp (time b - time a) (id b - id a).
Proof. intros [x Hx] [y Hy]. unfold compareNewestFirst, time. by rewrite Hx, Hy. Qed.

(** [a] comes first: later, or at the same time with the greater identifier. *)
Lemma compare_le a b :
  dated a → dated b →
  compareNewestFirst a b <= 0 ↔ time b < time a ∨ time b = time a ∧ id b <= id a.
Proof.
  intros Ha Hb. rewrite compare_dated by done. unfold lex_cmp.
  destruct (Z.eqb_spec (time b - time a) 0); lia.
Qed.

Lemma compare_lt a b :
  dated a → dated b →
  compareNewestFirst a b < 0 ↔ time b < time a ∨ time b = time a ∧ id b < id a.
Proof.
  intros Ha Hb. rewrite compare_dated by done. unfold lex_cmp.
  destruct (Z.eqb_spec (time b - time a) 0); lia.
Qed.

(** [s] is the first of [l] in that order. *)
Definition newest (s : Submission) (l : list Submission) : Prop :=
  s ∈ l ∧ ∀ t, t ∈ l → compareNewestFirst s t <= 0.

Lemma newest_snoc s x l :
  Forall dated (l ++ [x]) → newest s l →
  (0 <= compareNewestFirst x s → newest s (l ++ [x]))
  ∧ (compareNewestFirst x s < 0 → newest x (l ++ [x])).
Proof.
  intros F [Hs Hn]. apply Forall_app in F as [F [Dx _]%Forall_cons].
  pose proof (proj1 (Forall_forall _ _) F) as D.
  split; intros Hc; (split; [set_solver|]); intros t [Ht| ->%list_elem_of_singleton]%elem_of_app.
  - auto.
  - apply compare_le; [auto..|]. rewrite <- Z.nlt_ge, compare_lt in Hc; [|auto..]. lia.
  - apply compare_lt in Hc; [|auto..]. specialize (Hn t Ht).
    apply compare_le in Hn; [|auto..]. apply compare_le; [auto..|]. lia.
  - apply compare_le; [auto..|]. lia.
Qed.

Lemma newest_unique s t l :
  Forall dated l → NoDup (map id l) → newest s l → newest t l → s = t.
Proof.
  intros F N [Hs Hsn] [Ht Htn]. pose proof (proj1 (Forall_forall _ _) F) as D.
  specialize (Hsn t Ht). specialize (Htn s Hs).
  apply compare_le in Hsn; [|auto..]. apply compare_le in Htn; [|auto..].
  assert (E : id s = id t) by lia. clear -Hs Ht N E.
  induction l as [|x l IH]; [by apply not_elem_of_nil in Hs|]. apply NoDup_cons in N as [Hx N].
  apply elem_of_cons in Hs as [->|Hs], Ht as [->|Ht]; auto.
  - destruct Hx. apply list_elem_of_fmap. eauto.
  - destruct Hx. apply list_elem_of_fmap. eauto.
Qed.

Lemma latestSubmission_newest l s :
  Forall dated l → latestSubmission l = Some s → newest s l.
Proof.
  revert s. unfold latestSubmission. induction l as [|x l IH] using rev_ind; intros s F; [done|].
  rewrite fold_left_app. cbn [fold_left].
  pose proof F as [F' [[tx Hx] _]%Forall_cons]%Forall_app.
  destruct (fold_left later l None) as [p|] eqn:E.
  - specialize (IH p F' eq_refl). destruct (newest_snoc p x l F IH) as [H1 H2].
    pose proof (proj1 (Forall_forall _ _) F' p (proj1 IH)) as [tp Hp].
    assert (C : compareNewestFirst x p = lex_cmp (tp - tx) (id p - id x))
      by (unfold compareNewestFirst; by rewrite Hx, Hp).
    unfold lex_cmp in C. unfold later. rewrite Hp, Hx.
    destruct (Z.eqb_spec tx tp); simpl.
    + destruct (Z.eqb_spec (tp - tx) 0); [|lia].
      destruct (Z.ltb_spec (id p) (id x)); intros [= <-]; [apply H2|apply H1]; lia.
    + destruct (Z.eqb_spec (tp - tx) 0); [lia|].
      destruct (Z.ltb_spec tp tx); intros [= <-]; [apply H2|apply H1]; lia.
  - intros [= <-].
    assert (l = []) as ->.
    { destruct l as [|y l _] using rev_ind; [done|]. rewrite fold_left_app in E. simpl in E.
      unfold later in E. repeat case_match; done. }
    split; [by left|]. intros t ->%list_elem_of_singleton.
    apply compare_le; [by eexists..|]. lia.
Qed.

Definition of_assignment (k : str) (l : list Submission) : list Submission :=
  List.filter (λ s, eqs (assignment_key s) k) l.

Lemma of_assignment_snoc k l x :
  of_assignment k (l ++ [x])
  = of_assignment k l ++ (if eqs (assignment_key x) k then [x] else []).
Proof. unfold of_assignment. rewrite List.filter_app. simpl. by destruct (eqs _ _). Qed.

Lemma of_assignment_dated k l : Forall dated l → Forall dated (of_assignment k l).
Proof.
  intros F. apply Forall_forall. intros s Hs. apply list_elem_of_In, filter_In in Hs as [Hs _].
  rewrite Forall_forall in F. apply F. by apply list_elem_of_In.
Qed.

(** The map holds the newest submission of every assignment that has one. *)
Lemma latest_map l k :
  Forall dated l →
  match fold_left latest_step l ∅ !! k with
  | Some s => newest s (of_assignment k l)
  | None => of_assignment k l = []
  end.
Proof.
  induction l as [|x l IH] using rev_ind; intros F; [done|].
  pose proof F as [F' _]%Forall_app. specialize (IH F').
  rewrite fold_left_app, of_assignment_snoc. cbn [fold_left].
  pose proof (of_assignment_dated k (l ++ [x]) F) as FD. rewrite of_assignment_snoc in FD.
  set (m := fold_left latest_step l ∅) in *. clearbody m. unfold latest_step.
  destruct (decide (assignment_key x = k)) as [<-|Hk].
  - rewrite eqs_refl in FD |- *. destruct (m !! assignment_key x) as [p|] eqn:E.
    + destruct (newest_snoc p x _ FD IH) as [H1 H2]. destruct (Z.ltb_spec (compareNewestFirst x p) 0).
      * rewrite lookup_insert_eq. auto.
      * rewrite E. auto.
    + rewrite lookup_insert_eq, IH. apply Forall_app in FD as [_ [Dx _]%Forall_cons].
      split; [by left|]. intros t ->%list_elem_of_singleton. apply compare_le; [done..|]. lia.
  - rewrite (proj2 (eqs_false _ _) Hk), app_nil_r.
    destruct (m !! assignment_key x) as [p|]; [destruct (_ <? 0)|]; by rewrite ?lookup_insert_ne.
Qed.

Lemma latest_ids_spec l i :
  Forall dated l →
  i ∈ getLatestSubmissionIds l ↔ ∃ s, id s = i ∧ newest s (of_assignment (assignment_key s) l).
Proof.
  intros F. unfold getLatestSubmissionIds. rewrite list_elem_of_fmap. split.
  - intros ([k s] & -> & Hk%elem_of_map_to_list). exists s. split; [done|].
    pose proof (latest_map l k F) as H. rewrite Hk in H.
    assert (assignment_key s = k) as ->; [|done].
    destruct H as [H _]. apply list_elem_of_In, filter_In in H as [_ H]. by apply eqs_true in H.
  - intros (s & <- & Hs). pose proof (latest_map l (assignment_key s) F) as H.
    destruct (fold_left latest_step l ∅ !! assignment_key s) as [t|] eqn:E.
    + exists (assignment_key s, t). split; [|by apply elem_of_map_to_list].
      destruct Hs as [H1 H2], H as [H3 H4]. specialize (H2 t H3). specialize (H4 s H1).
      pose proof (of_assignment_dated (assignment_key s) l F) as D. rewrite Forall_forall in D.
      apply compare_le in H2; [|auto..]. apply compare_le in H4; [|auto..]. simpl. lia.
    + destruct Hs as [Hs _]. rewrite H in Hs. by apply not_elem_of_nil in Hs.
Qed.

Lemma queue_order_consistent ids : cmp_consistent (queue_order ids) dated.
Proof.
  unfold queue_order. split.
  - intros x y z Dx Dy Dz.
    destruct (has ids (id x)), (has ids (id y)), (has ids (id z)); simpl; try lia;
      rewrite !compare_le by done; lia.
  - intros x y Dx Dy.
    destruct (has ids (id x)), (has ids (id y)); simpl; try lia;
      rewrite compare_le by done; rewrite compare_dated by done; unfold lex_cmp;
      destruct (Z.eqb_spec (time y - time x) 0); lia.
Qed.

(** The grading queue. For submissions with readable dates, an identifier is marked
    as latest exactly when its submission is the newest of its student for its
    assignment; the queue is the submissions the filter keeps, each once, with the
    latest first and the newest first among them; and the submission the mobile app
    takes for a student's latest is the one the web queue marks. *)
Theorem grading_queue_correct (l : list Submission) (f : Filter) :
  Forall dated l →
  (∀ i, i ∈ getLatestSubmissionIds l ↔
     ∃ s, id s = i ∧ newest s (of_assignment (assignment_key s) l))
  ∧ orderSubmissionQueue l f ≡ₚ List.filter (in_queue f) l
  ∧ StronglySorted (λ a b, queue_order (getLatestSubmissionIds l) a b <= 0)
      (orderSubmissionQueue l f)
  ∧ (∀ k s, latestSubmission (of_assignment k l) = Some s → id s ∈ getLatestSubmissionIds l).
Proof.
  intros F. split_and!.
  - intros i. by apply latest_ids_spec.
  - apply js_sort_perm.
  - apply (js_sort_sorted _ dated); [apply queue_order_consistent|].
    apply Forall_forall. intros s Hs. apply list_elem_of_In, filter_In in Hs as [Hs _].
    rewrite Forall_forall in F. apply F. by apply list_elem_of_In.
  - intros k s Hs. apply latestSubmission_newest in Hs; [|by apply of_assignment_dated].
    apply latest_ids_spec; [done|]. exists s. split; [done|].
    assert (assignment_key s = k) as ->; [|done].
    destruct Hs as [Hs _]. apply list_elem_of_In, filter_In in Hs as [_ Hs]. by apply eqs_true in Hs.
Qed.

End Times.

(** Keys of different assignments differ. *)
Lemma assignment_key_inj a b :
  assignment_key a = assignment_key b → user_id a = user_id b ∧ block_id a = block_id b.
Proof.
  unfold assignment_key. intros E.
  apply (run_sep_inj (λ x, negb (bool_decide (x = ":"%char))) ":"%char) in E as [E1 E2];
    [|done|by apply str_of_Z_chars..].
  by apply str_of_Z_inj in E1, E2.
Qed.

(** Dates for the example: their length. *)
Definition sample_time (s : str) : option Z := Some (Z.of_nat (length s)).

Definition sample_queue : list Submission :=
  [{| id := 1; user_id := 5; block_id := 2; grade := None; created_at := js "a" |};
   {| id := 2; user_id := 5; block_id := 2; grade := Some (js "R"); created_at := js "aaa" |};
   {| id := 3; user_id := 6; block_id := 2; grade := None; created_at := js "aa" |}].

Lemma grading_queue_correct_witness :
  map id (orderSubmissionQueue sample_time sample_queue all) = [2; 3; 1]
  ∧ orderSubmissionQueue sample_time sample_queue ungraded
    ≡ₚ List.filter (in_queue ungraded) sample_queue.
Proof.
  split; [vm_compute; reflexivity|].
  apply (grading_queue_correct sample_time sample_queue ungraded).
  repeat constructor; by eexists.
Defined.

(** ** What can be handed in *)

Lemma trimmed_nonempty s : truthy (trim s) = true → trim s ≠ [].
Proof. by destruct (trim s). Qed.

(** Work is only sent when the fields its kind requires are filled in, and no field is
    sent blank. *)
Lemma handed_in_complete block type v :
  canSubmitWork type v = true →
  let i := buildSubmissionInput block type v in
  content_block_id i = block
  ∧ (type = js "text_submission" → ∃ t, i_text i = Some t ∧ t ≠ [] ∧ trim t = t)
  ∧ (type ≠ js "text_submission" → ∃ r, repo_url i = Some r ∧ r ≠ [] ∧ trim r = r)
  ∧ (type = js "repo_and_live_url_submission" → ∃ u, live_url i = Some u ∧ u ≠ [] ∧ trim u = u)
  ∧ (∀ x, x ∈ [live_url i; pr_url i; i_branch i; commit_sha i; i_notes i] → x ≠ Some []).
Proof.
  unfold canSubmitWork, buildSubmissionInput.
  destruct (eqs type (js "text_submission")) eqn:E1.
  - apply eqs_true in E1 as ->. intros H. cbv zeta. split_and!; try done.
    + intros _. eexists. split; [done|]. split; [by apply trimmed_nonempty|apply trim_idem].
    + intros x Hx. rewrite !elem_of_cons, elem_of_nil in Hx. naive_solver.
  - apply eqs_false in E1. intros H. cbv zeta.
    assert (R : truthy (trim (repoUrl v)) = true).
    { repeat case_match; try done. by apply andb_true_iff in H as [? _]. }
    split_and!; [done|done| | |].
    + intros _. eexists. split; [done|]. split; [by apply trimmed_nonempty|apply trim_idem].
    + intros ->. vm_compute (eqs _ _) in H. apply andb_true_iff in H as [_ H].
      exists (trim (liveUrl v)). cbn [live_url]. unfold or_undefined. rewrite H.
      split; [done|]. split; [by apply trimmed_nonempty|apply trim_idem].
    + assert (U : ∀ s, or_undefined s ≠ Some []) by (by intros []).
      intros x Hx. rewrite !elem_of_cons, elem_of_nil in Hx. cbn in Hx.
      destruct Hx as [-> |[-> |[-> |[-> |[-> |[]]]]]]; apply U.
Qed.
