(* ===== verification/VideoProgress.v ===== *)
(** * Watching videos

    How much of a recording counts as watched, and what is reported.

    - [Web]: [VideoPlayer] of [web/src/components/shared/VideoPlayer.tsx], its media
      event handlers, its timer and its unmounting;
    - [Mobile]: [mobile/src/lib/video-progress.ts] and [NativeVideoPlayer] of
      [mobile/src/components/native-video-player.tsx], with its queue of saves.

    Times in seconds are rational numbers, and clocks rational numbers of
    milliseconds; a number that may be [NaN] is an [option Q]. *)

From S2P Require Import Prelude.
From S2P Require Import Json.

#[local] Open Scope Q_scope.

Definition qmax (a b : Q) : Q := if Qle_bool a b then b else a.
Definition qmin (a b : Q) : Q := if Qle_bool a b then a else b.

Lemma qle_spec a b : if Qle_bool a b then a <= b else b < a.
Proof.
  destruct (Qle_bool a b) eqn:E; [by apply Qle_bool_iff|].
  apply Qnot_le_lt. intros H%Qle_bool_iff. congruence.
Qed.

Lemma qmax_spec a b : a <= qmax a b ∧ b <= qmax a b ∧ (qmax a b = a ∨ qmax a b = b).
Proof.
  unfold qmax. pose proof (qle_spec a b) as H. destruct (Qle_bool a b).
  - split; [lra|]. split; [lra|by right].
  - split; [lra|]. split; [lra|by left].
Qed.

Lemma qmin_spec a b : qmin a b <= a ∧ qmin a b <= b ∧ (qmin a b = a ∨ qmin a b = b).
Proof.
  unfold qmin. pose proof (qle_spec a b) as H. destruct (Qle_bool a b).
  - split; [lra|]. split; [lra|by left].
  - split; [lra|]. split; [lra|by right].
Qed.

(** [Math.floor] *)
Definition floor (x : Q) : Z := Qfloor x.

Lemma floor_nonneg x : 0 <= x → (0 <= floor x)%Z.
Proof. intros H. apply Qfloor_resp_le in H. exact H. Qed.

(** ** The web player *)

Module Web.

Record VideoProgressData := {
  last_position_seconds : Z; total_watched_seconds : Z; duration_seconds : Z }.

Record Player := {
  totalWatched : Q;
  lastTime : Q;
  lastTickAt : option Q;
  restored : bool;
  playing : bool;
  failed : bool;                                   (* [error] is set *)
  completions : nat;                               (* calls of [onCompleted] *)
  reports : list (VideoProgressData * bool);       (* the latest first; with [ended] *)
}.

(** What the media element says when an event fires. *)
Record Video := { currentTime : Q; duration : Q; playbackRate : Q }.

Inductive event :=
| Loaded (now : Q)              (* [loadedmetadata]; [now] is [performance.now()] *)
| TimeUpdate (now : Q)
| Play (now : Q)
| Pause
| MediaError
| Seeked (now : Q)
| Ended
| Tick                          (* ten seconds passed *)
| Unmount.

Definition watched_report (ended : bool) (v : Video) (p : Player) : VideoProgressData :=
  let watched := if ended then qmax (totalWatched p) (inject_Z (floor (duration v)))
                 else totalWatched p in
  {| last_position_seconds := floor (if ended then duration v else currentTime v);
     total_watched_seconds := floor watched;
     duration_seconds := floor (duration v) |}.

Definition sendProgress (ended : bool) (v : Video) (p : Player) : Player :=
  if Qeq_bool (duration v) 0 then p
  else {| totalWatched := totalWatched p; lastTime := lastTime p; lastTickAt := lastTickAt p;
          restored := restored p; playing := playing p; failed := failed p;
          completions := completions p; reports := (watched_report ended v p, ended) :: reports p |}.

Definition setPlaying (b : bool) (p : Player) : Player :=
  {| totalWatched := totalWatched p; lastTime := lastTime p; lastTickAt := lastTickAt p;
     restored := restored p; playing := b; failed := failed p; completions := completions p;
     reports := reports p |}.

Definition setError (p : Player) : Player :=
  {| totalWatched := totalWatched p; lastTime := lastTime p; lastTickAt := lastTickAt p;
     restored := restored p; playing := playing p; failed := true; completions := completions p;
     reports := reports p |}.

Definition onCompleted (p : Player) : Player :=
  {| totalWatched := totalWatched p; lastTime := lastTime p; lastTickAt := lastTickAt p;
     restored := restored p; playing := playing p; failed := failed p;
     completions := S (completions p); reports := reports p |}.

(** [totalWatchedRef.current += c] *)
Definition credit (c : Q) (p : Player) : Player :=
  {| totalWatched := totalWatched p + c; lastTime := lastTime p; lastTickAt := lastTickAt p;
     restored := restored p; playing := playing p; failed := failed p;
     completions := completions p; reports := reports p |}.

Definition elapsed (now : Q) (p : Player) : Q :=
  match lastTickAt p with
  | Some t => if Qeq_bool t 0 then 0 else (now - t) / 1000
  | None => 0
  end.

Definition maxCreditableDelta (now : Q) (v : Video) (p : Player) : Q :=
  qmax 2 (elapsed now p * qmax (playbackRate v) 0 + (1 # 2)).

(** [lastTimeRef] and [lastTickAtRef] are set. *)
Definition rebase (time now : Q) (p : Player) : Player :=
  {| totalWatched := totalWatched p; lastTime := time; lastTickAt := Some now;
     restored := restored p; playing := playing p; failed := failed p;
     completions := completions p; reports := reports p |}.

Definition setRestored (p : Player) : Player :=
  {| totalWatched := totalWatched p; lastTime := lastTime p; lastTickAt := lastTickAt p;
     restored := true; playing := playing p; failed := failed p;
     completions := completions p; reports := reports p |}.

Definition handleTimeUpdate (now : Q) (v : Video) (p : Player) : Player :=
  let delta := currentTime v - lastTime p in
  let p1 := if negb (Qle_bool delta 0)
            then credit (qmin delta (maxCreditableDelta now v p)) p else p in
  rebase (currentTime v) now p1.

Definition step (initialPosition : Q) (e : event) (v : Video) (p : Player) : Player :=
  match e with
  | Loaded now =>
      if negb (restored p) && negb (Qle_bool initialPosition 0)
      then rebase initialPosition now (setRestored p)
      else rebase (currentTime v) now p
  | TimeUpdate now => handleTimeUpdate now v p
  | Play now => setPlaying true (rebase (lastTime p) now p)
  | Pause => sendProgress false v (setPlaying false p)
  | MediaError => setError (setPlaying false p)
  | Seeked now => rebase (currentTime v) now p
  | Ended => onCompleted (sendProgress true v (setPlaying false p))
  | Tick => if playing p then sendProgress false v p else p
  | Unmount => sendProgress false v p
  end.

Definition run (initialPosition : Q) (es : list (event * Video)) (p : Player) : Player :=
  fold_left (λ p ev, step initialPosition ev.1 ev.2 p) es p.

(** The clock an event reads. *)
Definition clock (e : event) : option Q :=
  match e with
  | Loaded now | TimeUpdate now | Play now | Seeked now => Some now
  | Pause | MediaError | Ended | Tick | Unmount => None
  end.

(** From the time [t] the clock does not go back, and the playback rate is at most [R]. *)
Fixpoint clocked (R t : Q) (es : list (event * Video)) : Prop :=
  match es with
  | [] => True
  | (e, v) :: r =>
      playbackRate v <= R
      ∧ match clock e with Some now => t <= now ∧ clocked R now r | None => clocked R t r end
  end.

Fixpoint last_clock (t : Q) (es : list (event * Video)) : Q :=
  match es with [] => t | (e, _) :: r => last_clock (default t (clock e)) r end.

Fixpoint updates (es : list (event * Video)) : Z :=
  match es with
  | [] => 0
  | (TimeUpdate _, _) :: r => 1 + updates r
  | _ :: r => updates r
  end.

(** An event of uninterrupted playback: the position moved by what passed on the clock
    at the playback rate. *)
Definition plays_on (e : event) (v : Video) (p : Player) : Prop :=
  match e with
  | TimeUpdate now =>
      0 <= currentTime v - lastTime p
      ∧ currentTime v - lastTime p <= elapsed now p * qmax (playbackRate v) 0
  | Pause | Tick => True
  | _ => False
  end.

Fixpoint playback (initialPosition : Q) (es : list (event * Video)) (p : Player) : Prop :=
  match es with
  | [] => True
  | (e, v) :: r => plays_on e v p ∧ playback initialPosition r (step initialPosition e v p)
  end.

Lemma send_total b v p :
  totalWatched (sendProgress b v p) = totalWatched p ∧ lastTime (sendProgress b v p) = lastTime p.
Proof. unfold sendProgress. by destruct (Qeq_bool _ _). Qed.

(** What an event adds to the watched time. *)
Definition credited (e : event) (v : Video) (p : Player) : Q :=
  match e with
  | TimeUpdate now =>
      if Qle_bool (currentTime v - lastTime p) 0 then 0
      else qmin (currentTime v - lastTime p) (maxCreditableDelta now v p)
  | _ => 0
  end.

Lemma step_total ip e v p : totalWatched (step ip e v p) == totalWatched p + credited e v p.
Proof.
  destruct e; simpl; rewrite ?(proj1 (send_total _ _ _)); simpl; try lra.
  - destruct (_ && _); simpl; lra.
  - unfold handleTimeUpdate. destruct (Qle_bool _ _); simpl; lra.
  - destruct (playing p); rewrite ?(proj1 (send_total _ _ _)); lra.
Qed.

Lemma max_delta_two now v p : 2 <= maxCreditableDelta now v p.
Proof. apply qmax_spec. Qed.

Lemma credited_nonneg e v p : 0 <= credited e v p.
Proof.
  destruct e; simpl; try lra.
  pose proof (max_delta_two now v p) as H.
  pose proof (qle_spec (currentTime v - lastTime p) 0) as D.
  destruct (Qle_bool (currentTime v - lastTime p) 0); [lra|].
  destruct (qmin_spec (currentTime v - lastTime p) (maxCreditableDelta now v p)) as (M1 & M2 & [M|M]);
    rewrite M in *; lra.
Qed.

(** One position update: at most the move, and at most two seconds or what passed on the
    clock at the playback rate and half a second. *)
Lemma update_credit now t v p :
  lastTickAt p = Some t → t <= now →
  credited (TimeUpdate now) v p <= qmax 0 (currentTime v - lastTime p)
  ∧ (credited (TimeUpdate now) v p <= 2
     ∨ credited (TimeUpdate now) v p <= (now - t) / 1000 * qmax (playbackRate v) 0 + (1 # 2)).
Proof.
  intros T N. simpl. destruct (qmax_spec 0 (currentTime v - lastTime p)) as (X1 & X2 & _).
  pose proof (qle_spec (currentTime v - lastTime p) 0) as D.
  destruct (Qle_bool (currentTime v - lastTime p) 0); [split; [lra|left; lra]|].
  destruct (qmin_spec (currentTime v - lastTime p) (maxCreditableDelta now v p)) as (M1 & M2 & _).
  split; [lra|]. unfold maxCreditableDelta, elapsed in *. rewrite T in *.
  assert (E : 0 <= (now - t) / 1000) by (apply Qle_shift_div_l; lra).
  destruct (qmax_spec (playbackRate v) 0) as (_ & R0 & _).
  pose proof (Qmult_le_0_compat _ _ E R0) as P.
  destruct (Qeq_bool t 0).
  - destruct (qmax_spec 2 (0 * qmax (playbackRate v) 0 + (1 # 2))) as (_ & _ & [K|K]); rewrite K in *; [left; lra|].
    left. lra.
  - destruct (qmax_spec 2 ((now - t) / 1000 * qmax (playbackRate v) 0 + (1 # 2))) as (_ & _ & [K|K]);
      rewrite K in *; [left; lra|right; lra].
Qed.

Lemma plays_on_credit ip e v p :
  plays_on e v p → credited e v p == lastTime (step ip e v p) - lastTime p.
Proof.
  destruct e; simpl; try done.
  - intros [H1 H2].
    assert (elapsed now p * qmax (playbackRate v) 0 + (1 # 2) <= maxCreditableDelta now v p) as H
      by apply qmax_spec.
    pose proof (qle_spec (currentTime v - lastTime p) 0) as D.
    unfold handleTimeUpdate. simpl.
    destruct (Qle_bool (currentTime v - lastTime p) 0); simpl; [lra|].
    destruct (qmin_spec (currentTime v - lastTime p) (maxCreditableDelta now v p)) as (M1 & M2 & [M|M]);
      rewrite M in *; lra.
  - intros _. rewrite (proj2 (send_total _ _ _)). simpl. lra.
  - intros _. destruct (playing p); rewrite ?(proj2 (send_total _ _ _)); lra.
Qed.

Lemma run_grows ip es p : totalWatched p <= totalWatched (run ip es p).
Proof.
  revert p. induction es as [|[e v] es IH]; intros p; simpl; [lra|].
  specialize (IH (step ip e v p)). pose proof (credited_nonneg e v p).
  pose proof (step_total ip e v p) as H5. unfold run in *. simpl. lra.
Qed.

Lemma step_clock ip e v p :
  lastTickAt (step ip e v p) = match clock e with Some now => Some now | None => lastTickAt p end.
Proof.
  destruct e; simpl; unfold sendProgress; try (by destruct (Qeq_bool _ _)); try done.
  - by destruct (_ && _).
  - destruct (playing p); [|done]. by destruct (Qeq_bool _ _).
Qed.

Lemma run_credit R t ip es p :
  0 <= R → lastTickAt p = Some t → clocked R t es →
  totalWatched (run ip es p)
  <= totalWatched p + (last_clock t es - t) / 1000 * R + 2 * inject_Z (updates es).
Proof.
  intros HR. revert t p. induction es as [|[e v] es IH]; intros t p T C.
  { cbn [run fold_left last_clock updates]. assert (Z : (t - t) / 1000 * R == 0) by field.
    assert (Y : inject_Z 0 == 0) by done. rewrite Z, Y. lra. }
  destruct C as [Rv C]. pose proof (step_clock ip e v p) as S. pose proof (step_total ip e v p) as W.
  assert (G : ∀ now, t <= now → (last_clock now es - t) / 1000 * R
    == (last_clock now es - now) / 1000 * R + (now - t) / 1000 * R) by (intros; field).
  assert (P : ∀ now, t <= now → 0 <= (now - t) / 1000 * R).
  { intros now H. apply Qmult_le_0_compat; [apply Qle_shift_div_l; lra|done]. }
  change (run ip ((e, v) :: es) p) with (run ip es (step ip e v p)). cbn [last_clock].
  destruct (clock e) as [now|] eqn:E; cbn [default]; unfold id in *.
  - destruct C as [N C]. specialize (IH now _ S C). specialize (G now N). specialize (P now N).
    destruct e; try discriminate; injection E as ->; cbn [updates]; try (cbn [credited] in W; lra).
    rewrite inject_Z_plus. change (inject_Z 1) with 1.
    destruct (update_credit now t v p T N) as [_ H].
    destruct (qmax_spec (playbackRate v) 0) as (_ & R0 & Rm).
    assert (M : (now - t) / 1000 * qmax (playbackRate v) 0 <= (now - t) / 1000 * R).
    { rewrite !(Qmult_comm ((now - t) / 1000)). apply Qmult_le_compat_r; [|apply Qle_shift_div_l; lra].
      destruct Rm as [-> | ->]; lra. }
    destruct H; lra.
  - specialize (IH t _ (eq_trans S T) C). destruct e; try discriminate; cbn [updates credited] in *; lra.
Qed.

Lemma playback_credit ip es p :
  playback ip es p →
  totalWatched (run ip es p) - totalWatched p == lastTime (run ip es p) - lastTime p.
Proof.
  revert p. induction es as [|[e v] es IH]; intros p; simpl; [lra|]. intros [H1 H2].
  specialize (IH _ H2). pose proof (plays_on_credit ip e v p H1).
  pose proof (step_total ip e v p). unfold run in *. simpl. lra.
Qed.


(** A jump forward with no time passing is still credited two seconds. *)
Lemma jump_credited_two_seconds :
  let v := {| currentTime := 600; duration := 3600; playbackRate := 1 |} in
  let p := {| totalWatched := 0; lastTime := 0; lastTickAt := Some 1000; restored := true;
              playing := true; failed := false; completions := 0; reports := [] |} in
  totalWatched (step 0 (TimeUpdate 1000) v p) == 2.
Proof. vm_compute. reflexivity. Qed.

End Web.

(** ** The mobile player *)

Module Mobile.

Definition PROGRESS_SAVE_INTERVAL_MS : Q := 10000.
Definition STREAM_REFRESH_LEAD_MS : Q := inject_Z (10 * 60 * 1000).

Record playback_input := {
  previousTime : Q; currentTime : Q; elapsedWallSeconds : Q; playbackRate : Q; playing : bool }.

Definition plausible (i : playback_input) : Q :=
  elapsedWallSeconds i * qmax (playbackRate i) 1 + (3 # 4).

Definition creditedPlaybackSeconds (i : playback_input) : Q :=
  if negb (playing i) || Qle_bool (elapsedWallSeconds i) 0 then 0
  else let mediaDelta := currentTime i - previousTime i in
       if Qle_bool mediaDelta 0 then 0
       else if Qle_bool mediaDelta (plausible i) then mediaDelta else 0.

Record VideoProgressInput := {
  last_position_seconds : Z; total_watched_seconds : Z; duration_seconds : Z }.

Definition normalizedProgress (position totalWatched : Q) (duration : option Q) (ended : bool)
    : option VideoProgressInput :=
  match duration with
  | None => None
  | Some d =>
      if Qle_bool d 0 then None
      else let safeDuration := floor d in
           Some {| last_position_seconds :=
                     Z.min safeDuration (Z.max 0 (floor (if ended then d else position)));
                   total_watched_seconds :=
                     Z.min safeDuration
                       (Z.max 0 (floor (if ended then qmax totalWatched d else totalWatched)));
                   duration_seconds := safeDuration |}
  end.

Definition resumePosition (position duration : option Q) : Q :=
  match position, duration with
  | Some p, Some d =>
      if Qle_bool p 0 || Qle_bool d 0 then 0 else qmin p (qmax 0 (d - (1 # 2)))
  | _, _ => 0
  end.

(** [expires] is [Date.parse(expiresAt)]. *)
Definition streamRefreshDelay (expires : option Q) (now : Q) : Q :=
  match expires with
  | None => inject_Z (60 * 60 * 1000)
  | Some e => qmax 15000 (e - now - STREAM_REFRESH_LEAD_MS)
  end.

(** [String(n).padStart(2, '0')] for a natural number *)
Definition pad2 (n : Z) : str :=
  let s := str_of_Z n in replicate (2 - length s) "0"%char ++ s.

Definition formatVideoTime (value : option Q) : str :=
  let total := Z.max 0 (floor (default 0%Q value)) in
  let hours := (total / 3600)%Z in
  let minutes := ((total mod 3600) / 60)%Z in
  let seconds := (total mod 60)%Z in
  if (0 <? hours)%Z
  then str_of_Z hours ++ js ":" ++ pad2 minutes ++ js ":" ++ pad2 seconds
  else str_of_Z minutes ++ js ":" ++ pad2 seconds.

(** *** The player *)

(** The refs that follow the playback. *)
Record Tracker := {
  totalWatched : Q;
  current : Q;
  duration : option Q;
  isPlaying : bool;
  rate : Q;
  lastTime : Q;
  lastTickAt : Q;
  lastSavedAt : Q;
}.

(** [pendingSaveRef], [savingRef] and the payloads whose save is awaited by a run of
    [drainSaves], in the order in which they were sent; with the history of what was queued, what was
    handed to [saveProgress] and what [onProgressSaved] was told, latest first; [direct]
    is what unmounting hands to [saveProgress] itself. *)
Record Saves := {
  pending : option VideoProgressInput;
  saving : bool;
  inflight : list VideoProgressInput;
  syncError : bool;
  queued : list VideoProgressInput;
  sent : list VideoProgressInput;
  acknowledged : list VideoProgressInput;
  direct : list VideoProgressInput;
}.

(** Calls of the native player. *)
Inductive command := CPlay | CPause | CSeek (position : Q) | CReplace.

Record Native := {
  tracker : Tracker;
  saves : Saves;
  pendingRestore : option (Q * bool);    (* position, shouldPlay *)
  recoveryAt : Q;
  lastPlayingAt : Q;
  pipActive : bool;
  mounted : bool;
  completed : bool;
  commands : list command;               (* latest first *)
}.

Definition set_tracker (t : Tracker) (n : Native) : Native :=
  {| tracker := t; saves := saves n; pendingRestore := pendingRestore n;
     recoveryAt := recoveryAt n; lastPlayingAt := lastPlayingAt n; pipActive := pipActive n;
     mounted := mounted n; completed := completed n; commands := commands n |}.

Definition set_saves (q : Saves) (n : Native) : Native :=
  {| tracker := tracker n; saves := q; pendingRestore := pendingRestore n;
     recoveryAt := recoveryAt n; lastPlayingAt := lastPlayingAt n; pipActive := pipActive n;
     mounted := mounted n; completed := completed n; commands := commands n |}.

Definition set_restore (r : option (Q * bool)) (n : Native) : Native :=
  {| tracker := tracker n; saves := saves n; pendingRestore := r;
     recoveryAt := recoveryAt n; lastPlayingAt := lastPlayingAt n; pipActive := pipActive n;
     mounted := mounted n; completed := completed n; commands := commands n |}.

Definition set_clocks (recovery lastPlaying : Q) (n : Native) : Native :=
  {| tracker := tracker n; saves := saves n; pendingRestore := pendingRestore n;
     recoveryAt := recovery; lastPlayingAt := lastPlaying; pipActive := pipActive n;
     mounted := mounted n; completed := completed n; commands := commands n |}.

Definition set_flags (pip alive complete : bool) (n : Native) : Native :=
  {| tracker := tracker n; saves := saves n; pendingRestore := pendingRestore n;
     recoveryAt := recoveryAt n; lastPlayingAt := lastPlayingAt n; pipActive := pip;
     mounted := alive; completed := complete; commands := commands n |}.

Definition do_command (c : command) (n : Native) : Native :=
  {| tracker := tracker n; saves := saves n; pendingRestore := pendingRestore n;
     recoveryAt := recoveryAt n; lastPlayingAt := lastPlayingAt n; pipActive := pipActive n;
     mounted := mounted n; completed := completed n; commands := c :: commands n |}.

(** [drainSaves] up to its next [await]: the pending payload is taken and handed to
    [saveProgress]; without one the loop ends. *)
Definition drain (q : Saves) : Saves :=
  match pending q with
  | Some next =>
      {| pending := None; saving := true; inflight := inflight q ++ [next]; syncError := syncError q;
         queued := queued q; sent := next :: sent q; acknowledged := acknowledged q; direct := direct q |}
  | None =>
      {| pending := None; saving := false; inflight := inflight q; syncError := syncError q; queued := queued q;
         sent := sent q; acknowledged := acknowledged q; direct := direct q |}
  end.

Definition drainSaves (q : Saves) : Saves := if saving q then q else drain q.

Definition queue_progress (payload : VideoProgressInput) (q : Saves) : Saves :=
  drainSaves {| pending := Some payload; saving := saving q; inflight := inflight q; syncError := syncError q;
                queued := payload :: queued q; sent := sent q; acknowledged := acknowledged q;
                direct := direct q |}.

(** An awaited save is done or has failed: the rest of the loop's body, and on. *)
Definition save_settled (ok alive : bool) (q : Saves) : Saves :=
  match inflight q with
  | [] => q
  | next :: others =>
      drain {| pending := pending q; saving := saving q; inflight := others;
               syncError := if alive then negb ok else syncError q;
               queued := queued q; sent := sent q;
               acknowledged := if ok then next :: acknowledged q else acknowledged q;
               direct := direct q |}
  end.

Definition save_directly (payload : option VideoProgressInput) (q : Saves) : Saves :=
  {| pending := pending q; saving := saving q; inflight := inflight q; syncError := syncError q;
     queued := queued q; sent := sent q; acknowledged := acknowledged q;
     direct := option_list payload ++ direct q |}.

Definition payload_of (ended : bool) (t : Tracker) : option VideoProgressInput :=
  normalizedProgress (current t) (totalWatched t) (duration t) ended.

Definition enqueueProgress (ended : bool) (n : Native) : Native :=
  match payload_of ended (tracker n) with
  | None => n
  | Some payload => set_saves (queue_progress payload (saves n)) n
  end.

(** [loadSource] up to its request; the stream that arrives replaces the source. *)
Definition loadSource (position : Q) (shouldPlay : bool) (n : Native) : Native :=
  set_restore (Some (position, shouldPlay)) n.

Inductive event :=
| StreamFetched                              (* [fetchStream] answered: [replaceAsync] *)
| SourceLoad (loadedDuration : option Q) (now : Q)
| PlayingChange (playing : bool) (now : Q)
| PlaybackRateChange (playbackRate : Q)
| TimeUpdate (nextTime now : Q)
| PlayToEnd
| StatusError (now : Q)
| PipStart
| PipStop
| Retry                                      (* the button of the error overlay *)
| RefreshTimer                               (* [streamRefreshDelay] has passed *)
| AppActive (now : Q)
| AppInactive
| SaveSettled (ok : bool)
| Unmount.

(** The base of the next credit is the current position and clock. *)
Definition rebase (t now : Q) (tr : Tracker) : Tracker :=
  {| totalWatched := totalWatched tr; current := current tr; duration := duration tr;
     isPlaying := isPlaying tr; rate := rate tr; lastTime := t; lastTickAt := now;
     lastSavedAt := lastSavedAt tr |}.

Definition set_playing (b : bool) (tr : Tracker) : Tracker :=
  {| totalWatched := totalWatched tr; current := current tr; duration := duration tr;
     isPlaying := b; rate := rate tr; lastTime := lastTime tr; lastTickAt := lastTickAt tr;
     lastSavedAt := lastSavedAt tr |}.

Definition set_rate (r : Q) (tr : Tracker) : Tracker :=
  {| totalWatched := totalWatched tr; current := current tr; duration := duration tr;
     isPlaying := isPlaying tr; rate := r; lastTime := lastTime tr; lastTickAt := lastTickAt tr;
     lastSavedAt := lastSavedAt tr |}.

Definition loaded (d : option Q) (position now : Q) (tr : Tracker) : Tracker :=
  {| totalWatched := totalWatched tr; current := position; duration := d;
     isPlaying := isPlaying tr; rate := rate tr; lastTime := position; lastTickAt := now;
     lastSavedAt := lastSavedAt tr |}.

Definition update_input (nextTime now : Q) (tr : Tracker) : playback_input :=
  {| previousTime := lastTime tr; currentTime := nextTime;
     elapsedWallSeconds := qmax 0 ((now - lastTickAt tr) / 1000);
     playbackRate := rate tr; playing := isPlaying tr |}.

Definition moved (nextTime now saved : Q) (tr : Tracker) : Tracker :=
  {| totalWatched := totalWatched tr + creditedPlaybackSeconds (update_input nextTime now tr);
     current := nextTime; duration := duration tr; isPlaying := isPlaying tr; rate := rate tr;
     lastTime := nextTime; lastTickAt := now; lastSavedAt := saved |}.

Definition timeUpdate (nextTime now : Q) (n : Native) : Native :=
  let tr := tracker n in
  if Qle_bool PROGRESS_SAVE_INTERVAL_MS (now - lastSavedAt tr)
  then enqueueProgress false (set_tracker (moved nextTime now now tr) n)
  else set_tracker (moved nextTime now (lastSavedAt tr) tr) n.

Definition step (initialPosition : Q) (e : event) (n : Native) : Native :=
  let tr := tracker n in
  match e with
  | StreamFetched => do_command CReplace n
  | SourceLoad d now =>
      let position := resumePosition (Some (default initialPosition (fst <$> pendingRestore n))) d in
      let shouldPlay := default false (snd <$> pendingRestore n) in
      let n1 := do_command (CSeek position)
                  (set_restore None (set_tracker (loaded d position now tr) n)) in
      if shouldPlay then do_command CPlay n1 else n1
  | PlayingChange b now =>
      let n1 := if b then set_clocks (recoveryAt n) now n else n in
      let n2 := set_tracker (rebase (current tr) now (set_playing b tr)) n1 in
      if b then n2 else enqueueProgress false n2
  | PlaybackRateChange r => set_tracker (set_rate r tr) n
  | TimeUpdate nextTime now => timeUpdate nextTime now n
  | PlayToEnd => enqueueProgress true (set_flags (pipActive n) (mounted n) true n)
  | StatusError now =>
      if negb (Qle_bool 5000 (now - recoveryAt n)) then n
      else loadSource (current tr)
             (isPlaying tr || negb (Qle_bool 5000 (now - lastPlayingAt n)))
             (set_clocks now (lastPlayingAt n) n)
  | PipStart => set_flags true (mounted n) (completed n) n
  | PipStop => enqueueProgress false (set_flags false (mounted n) (completed n) n)
  | Retry =>
      loadSource (match duration tr with
                  | Some d => if Qle_bool d 0 then initialPosition else current tr
                  | None => initialPosition
                  end) (isPlaying tr) n
  | RefreshTimer => loadSource (current tr) (isPlaying tr) n
  | AppActive now => set_tracker (rebase (current tr) now tr) n
  | AppInactive =>
      enqueueProgress false
        (if negb (pipActive n) && isPlaying tr then do_command CPause n else n)
  | SaveSettled ok => set_saves (save_settled ok (mounted n) (saves n)) n
  | Unmount =>
      set_saves (save_directly (payload_of false tr) (saves n))
        (set_flags (pipActive n) false (completed n) n)
  end.

(** The refs at the first render, after the effect that loads the recording. *)
Definition init (initialPosition initialTotalWatched : Q) : Native :=
  loadSource initialPosition false
    {| tracker := {| totalWatched := initialTotalWatched; current := initialPosition;
                     duration := Some 0; isPlaying := false; rate := 1;
                     lastTime := initialPosition; lastTickAt := 0; lastSavedAt := 0 |};
       saves := {| pending := None; saving := false; inflight := []; syncError := false; queued := [];
                   sent := []; acknowledged := []; direct := [] |};
       pendingRestore := None; recoveryAt := 0; lastPlayingAt := 0; pipActive := false;
       mounted := true; completed := false; commands := [] |}.

Definition run (initialPosition : Q) (es : list event) (n : Native) : Native :=
  fold_left (λ n e, step initialPosition e n) es n.

(** *** The queue of saves *)

Definition well_formed (v : VideoProgressInput) : Prop :=
  (0 <= last_position_seconds v <= duration_seconds v)%Z
  ∧ (0 <= total_watched_seconds v <= duration_seconds v)%Z.

Lemma normalized_well_formed p w d e v : normalizedProgress p w d e = Some v → well_formed v.
Proof.
  unfold normalizedProgress. destruct d as [d|]; [|done].
  pose proof (qle_spec d 0) as H. destruct (Qle_bool d 0); [done|]. intros [= <-].
  pose proof (floor_nonneg d ltac:(lra)). split; simpl; lia.
Qed.

(** The requests are a subsequence of the queued payloads, and only the newest payload
    can be waiting, for the request in flight. *)
Record saves_ok (q : Saves) : Prop := {
  ok_pending :
    match pending q with
    | Some p => saving q = true ∧ ∃ rest, queued q = p :: rest ∧ sent q `sublist_of` rest
    | None => sent q `sublist_of` queued q ∧ head (sent q) = head (queued q)
    end;
  ok_inflight :
    match inflight q with
    | [] => saving q = false ∧ acknowledged q `sublist_of` sent q
    | [x] => saving q = true ∧ ∃ rest, sent q = x :: rest ∧ acknowledged q `sublist_of` rest
    | _ => False
    end;
  ok_payloads : Forall well_formed (queued q ++ direct q);
}.

Lemma sent_sublist q : saves_ok q → sent q `sublist_of` queued q.
Proof.
  intros [H _ _]. destruct (pending q); [|tauto].
  destruct H as (_ & rest & -> & S). by apply sublist_cons.
Qed.

Lemma acknowledged_sublist q : saves_ok q → acknowledged q `sublist_of` sent q.
Proof.
  intros [_ H _]. destruct (inflight q) as [|x [|]]; [tauto| |done].
  destruct H as (_ & rest & -> & S). by apply sublist_cons.
Qed.

Lemma queue_progress_ok v q : well_formed v → saves_ok q → saves_ok (queue_progress v q).
Proof.
  intros Hv H. pose proof (sent_sublist q H) as S. destruct H as [Hp Hi Hw].
  unfold queue_progress, drainSaves. cbn [saving].
  destruct (saving q) eqn:E.
  - split; cbn; rewrite ?E; eauto.
  - unfold drain. cbn. destruct (inflight q) as [|x [|]] eqn:F; [|by destruct Hi|done].
    split; cbn; rewrite ?F; cbn; [split; [by apply sublist_skip|done]| |by constructor].
    split; [done|]. eexists. split; [done|]. apply Hi.
Qed.

Lemma save_settled_ok ok alive q : saves_ok q → saves_ok (save_settled ok alive q).
Proof.
  intros [Hp Hi Hw]. unfold save_settled. destruct (inflight q) as [|x [|]] eqn:E; [by split; rewrite ?E| |done].
  destruct Hi as (Sv & rest & Es & Ha).
  assert ((if ok then x :: acknowledged q else acknowledged q) `sublist_of` sent q) as Ha'.
  { rewrite Es. destruct ok; [by apply sublist_skip|by apply sublist_cons]. }
  unfold drain. cbn. destruct (pending q) as [p|].
  - destruct Hp as (_ & r & Eq & S). split; cbn; [|split; [done|by eauto]|done].
    rewrite Eq. split; [by apply sublist_skip|done].
  - by split; cbn.
Qed.

Lemma enqueue_ok b n : saves_ok (saves n) → saves_ok (saves (enqueueProgress b n)).
Proof.
  unfold enqueueProgress, payload_of. intros H.
  destruct (normalizedProgress _ _ _ _) eqn:E; [|done]. simpl.
  apply queue_progress_ok; [|done]. by eapply normalized_well_formed.
Qed.

Lemma save_directly_ok v q : Forall well_formed (option_list v) → saves_ok q → saves_ok (save_directly v q).
Proof.
  intros Hv [Hp Hi Hw]. split; cbn; [done|done|].
  apply Forall_app in Hw as [H1 H2]. by rewrite !Forall_app.
Qed.

Lemma step_ok ip e n : saves_ok (saves n) → saves_ok (saves (step ip e n)).
Proof.
  intros H. destruct e; simpl; try done.
  - by destruct (default false _).
  - destruct playing0; [done|]. by apply enqueue_ok.
  - unfold timeUpdate. destruct (Qle_bool _ _); [by apply enqueue_ok|done].
  - by apply enqueue_ok.
  - by destruct (Qle_bool 5000 (now - recoveryAt n)).
  - by apply enqueue_ok.
  - apply enqueue_ok. by destruct (_ && _).
  - by apply save_settled_ok.
  - apply save_directly_ok; [|done]. unfold payload_of.
    destruct (normalizedProgress _ _ _ _) eqn:E; [|constructor].
    constructor; [by eapply normalized_well_formed|constructor].
Qed.

Lemma run_ok ip es n : saves_ok (saves n) → saves_ok (saves (run ip es n)).
Proof. revert n. induction es as [|e es IH]; intros n H; [done|]. by apply IH, step_ok. Qed.

Lemma init_ok ip w : saves_ok (saves (init ip w)).
Proof. split; cbn; repeat constructor. Qed.

(** Nothing is waiting and no request is in flight. *)
Definition quiet (q : Saves) : Prop := pending q = None ∧ saving q = false ∧ inflight q = [].

Lemma settle_once ok alive q :
  saves_ok q → pending q = None → quiet (save_settled ok alive q)
    ∧ queued (save_settled ok alive q) = queued q.
Proof.
  intros [_ Hi _] Hp. unfold save_settled, quiet. destruct (inflight q) as [|x [|]] eqn:E; [by rewrite E; destruct Hi| |done].
  unfold drain. cbn. by rewrite Hp.
Qed.

Lemma settle_twice ok1 ok2 alive q :
  saves_ok q →
  let q2 := save_settled ok2 alive (save_settled ok1 alive q) in
  quiet q2 ∧ queued q2 = queued q ∧ head (sent q2) = head (queued q)
  ∧ (ok1 = true → ok2 = true → inflight q ≠ [] → head (acknowledged q2) = head (queued q)).
Proof.
  intros H q2. subst q2.
  pose proof (save_settled_ok ok1 alive q H) as H1.
  pose proof (save_settled_ok ok2 alive _ H1) as H2.
  destruct (pending q) as [p|] eqn:Ep.
  - destruct H as [Hp Hi _]. rewrite Ep in Hp. destruct Hp as (Sv & rest & Eq & S).
    unfold save_settled, drain, quiet. destruct (inflight q) as [|x [|]] eqn:Ex; [by destruct Hi; congruence| |done].
    cbn. rewrite Ep. cbn. rewrite Eq.
    split; [done|]. split; [done|]. split; [done|]. by intros -> ->.
  - pose proof (settle_once ok1 alive q H Ep) as [(Q1 & Q2 & Q3) Eq].
    assert (save_settled ok2 alive (save_settled ok1 alive q) = save_settled ok1 alive q) as ->.
    { unfold save_settled at 1. by rewrite Q3. }
    destruct H1 as [Hp1 _ _]. rewrite Q1 in Hp1. rewrite <- Eq.
    split; [done|]. split; [done|]. split; [tauto|]. intros -> _ Ne.
    destruct Hp1 as [_ <-]. destruct H as [_ Hi _]. destruct (inflight q) as [|x [|]] eqn:Ex; [done| |done].
    destruct Hi as (_ & rest & Es & _). unfold save_settled, drain. rewrite Ex. cbn. rewrite Ep. cbn.
    by rewrite Es.
Qed.

(** C27: the progress of a recording watched on a phone reaches the server. Whatever the
    order of the player's events, the progress that is reported is well formed (position
    and watched time between zero and the duration). What is queued while the recording
    plays is sent one request at a time, in the order in which it was queued, each at most
    once, a newer report replacing one that waits; and the newest is never stuck: once the
    request in flight and the one after it are answered, however they are answered, nothing
    waits and the newest queued progress has been sent; if both succeed it has been
    acknowledged. A request that fails is not repeated. Closing the recording reports once
    more outside of this queue, so that report can overlap with a request of it. *)
Theorem progress_reaches_server (initialPosition initialTotalWatched : Q) (es : list event)
    (ok1 ok2 : bool) :
  let n := run initialPosition es (init initialPosition initialTotalWatched) in
  let n2 := run initialPosition [SaveSettled ok1; SaveSettled ok2] n in
  Forall well_formed (queued (saves n) ++ direct (saves n))
  ∧ (length (inflight (saves n)) <= 1)%nat
  ∧ sent (saves n) `sublist_of` queued (saves n)
  ∧ acknowledged (saves n) `sublist_of` sent (saves n)
  ∧ quiet (saves n2) ∧ queued (saves n2) = queued (saves n)
  ∧ head (sent (saves n2)) = head (queued (saves n))
  ∧ (ok1 = true → ok2 = true → inflight (saves n) ≠ [] →
     head (acknowledged (saves n2)) = head (queued (saves n))).
Proof.
  intros n n2.
  assert (saves_ok (saves n)) as H by apply run_ok, init_ok.
  split; [apply H|]. split; [|split; [by apply sent_sublist|split; [by apply acknowledged_sublist|]]].
  - destruct H as [_ Hi _]. destruct (inflight (saves n)) as [|x [|]]; [cbn; lia|cbn; lia|done].
  - exact (settle_twice ok1 ok2 (mounted n) (saves n) H).
Qed.

(** *** Watched time *)

(** The most an event can credit. *)
Definition allowance (e : event) (t : Tracker) : Q :=
  match e with
  | TimeUpdate nextTime now => if isPlaying t then plausible (update_input nextTime now t) else 0
  | _ => 0
  end.

Fixpoint total_allowance (ip : Q) (es : list event) (n : Native) : Q :=
  match es with
  | [] => 0
  | e :: r => allowance e (tracker n) + total_allowance ip r (step ip e n)
  end.

(** Uninterrupted playback: time passes, and the position moves by at most the time that
    passed at the playback rate. *)
Definition plays_on (e : event) (t : Tracker) : Prop :=
  match e with
  | TimeUpdate nextTime now =>
      isPlaying t = true ∧ lastTickAt t < now ∧ 0 <= nextTime - lastTime t
      ∧ nextTime - lastTime t <= (now - lastTickAt t) / 1000 * qmax (rate t) 1
  | SaveSettled _ | PipStart | PipStop | StatusError _ | RefreshTimer | StreamFetched => True
  | _ => False
  end.

Fixpoint uninterrupted (ip : Q) (es : list event) (n : Native) : Prop :=
  match es with
  | [] => True
  | e :: r => plays_on e (tracker n) ∧ uninterrupted ip r (step ip e n)
  end.

Definition credit_of (e : event) (t : Tracker) : Q :=
  match e with
  | TimeUpdate nextTime now => creditedPlaybackSeconds (update_input nextTime now t)
  | _ => 0
  end.

Lemma native_credited_bounds i :
  0 <= elapsedWallSeconds i →
  0 <= creditedPlaybackSeconds i
  ∧ creditedPlaybackSeconds i <= (if playing i then plausible i else 0)
  ∧ (creditedPlaybackSeconds i == 0 ∨ creditedPlaybackSeconds i == currentTime i - previousTime i).
Proof.
  intros He. unfold creditedPlaybackSeconds.
  assert (0 <= plausible i) as Hp.
  { unfold plausible. destruct (qmax_spec (playbackRate i) 1) as (_ & H & _).
    pose proof (Qmult_le_0_compat _ _ He (Qle_trans 0 1 _ ltac:(lra) H)). lra. }
  destruct (playing i); simpl; [|lra].
  destruct (Qle_bool (elapsedWallSeconds i) 0); [lra|].
  pose proof (qle_spec (currentTime i - previousTime i) 0) as D.
  destruct (Qle_bool (currentTime i - previousTime i) 0); [lra|].
  pose proof (qle_spec (currentTime i - previousTime i) (plausible i)) as M.
  destruct (Qle_bool (currentTime i - previousTime i) (plausible i)); lra.
Qed.

Lemma enqueue_tracker b n : tracker (enqueueProgress b n) = tracker n.
Proof. unfold enqueueProgress. by destruct (payload_of _ _). Qed.

Lemma native_step_total ip e n :
  totalWatched (tracker (step ip e n)) == totalWatched (tracker n) + credit_of e (tracker n).
Proof.
  destruct e; simpl; rewrite ?enqueue_tracker; simpl; try lra.
  - destruct (default false _); simpl; lra.
  - destruct playing0; simpl; rewrite ?enqueue_tracker; simpl; lra.
  - unfold timeUpdate. destruct (Qle_bool _ _); rewrite ?enqueue_tracker; simpl; lra.
  - destruct (Qle_bool 5000 (now - recoveryAt n)); simpl; lra.
  - destruct (_ && _); simpl; lra.
Qed.

Lemma update_elapsed_nonneg nextTime now t : 0 <= elapsedWallSeconds (update_input nextTime now t).
Proof. apply qmax_spec. Qed.

Lemma credit_of_bounds e t : 0 <= credit_of e t ∧ credit_of e t <= allowance e t.
Proof.
  destruct e; simpl; try lra.
  destruct (native_credited_bounds _ (update_elapsed_nonneg nextTime now t)) as (H1 & H2 & _).
  split; [done|exact H2].
Qed.

Lemma native_plays_on_credit ip e n :
  plays_on e (tracker n) →
  credit_of e (tracker n) == lastTime (tracker (step ip e n)) - lastTime (tracker n).
Proof.
  destruct e; simpl; try done; intros H; rewrite ?enqueue_tracker; simpl; try lra.
  - destruct H as (Hp & Hc & H1 & H2).
    assert (lastTime (tracker (timeUpdate nextTime now n)) = nextTime) as ->.
    { unfold timeUpdate. destruct (Qle_bool _ _); rewrite ?enqueue_tracker; done. }
    set (i := update_input nextTime now (tracker n)).
    assert ((now - lastTickAt (tracker n)) / 1000 <= elapsedWallSeconds i) as He by apply qmax_spec.
    assert (0 < (now - lastTickAt (tracker n)) / 1000) as Hpos.
    { apply Qlt_shift_div_l; lra. }
    assert (nextTime - lastTime (tracker n) <= plausible i) as Hpl.
    { unfold plausible. change (playbackRate i) with (rate (tracker n)).
      destruct (qmax_spec (rate (tracker n)) 1) as (_ & Hr & _).
      pose proof (Qmult_le_compat_r _ _ (qmax (rate (tracker n)) 1) He ltac:(lra)). lra. }
    unfold creditedPlaybackSeconds. change (playing i) with (isPlaying (tracker n)). rewrite Hp. cbn [negb orb].
    pose proof (qle_spec (elapsedWallSeconds i) 0) as E.
    destruct (Qle_bool (elapsedWallSeconds i) 0); [lra|].
    change (currentTime i - previousTime i) with (nextTime - lastTime (tracker n)).
    pose proof (qle_spec (nextTime - lastTime (tracker n)) 0) as D.
    destruct (Qle_bool (nextTime - lastTime (tracker n)) 0); [lra|].
    pose proof (qle_spec (nextTime - lastTime (tracker n)) (plausible i)) as M.
    destruct (Qle_bool (nextTime - lastTime (tracker n)) (plausible i)); lra.
  - destruct (Qle_bool 5000 (now - recoveryAt n)); simpl; lra.
Qed.

Lemma native_run_credit ip es n :
  totalWatched (tracker n) <= totalWatched (tracker (run ip es n))
  ∧ totalWatched (tracker (run ip es n)) <= totalWatched (tracker n) + total_allowance ip es n
  ∧ (uninterrupted ip es n →
     totalWatched (tracker (run ip es n)) - totalWatched (tracker n)
     == lastTime (tracker (run ip es n)) - lastTime (tracker n)).
Proof.
  revert n. induction es as [|e es IH]; intros n; simpl; [split; [lra|split; intros; lra]|].
  destruct (IH (step ip e n)) as (H1 & H2 & H3). pose proof (credit_of_bounds e (tracker n)) as [H4 H5].
  pose proof (native_step_total ip e n) as H6. unfold run in *. simpl.
  split; [lra|]. split; [lra|]. intros [U1 U2]. specialize (H3 U2).
  pose proof (native_plays_on_credit ip e n U1). lra.
Qed.

(** The clock shown under the player, read back as hours, minutes and seconds. *)
Definition read_clock (s : str) : Z :=
  foldl (λ acc part, (60 * acc + digits_value part)%Z) 0%Z (split_on ":" s).

Lemma split_on_digits s r :
  Forall (λ c, is_digit c = true) s → split_on ":" (s ++ js ":" ++ r) = s :: split_on ":" r.
Proof.
  induction 1 as [|c s Hc _ IH]; [done|].
  change ((c :: s) ++ js ":" ++ r) with (c :: (s ++ js ":" ++ r)).
  cbn [split_on]. rewrite IH. rewrite bool_decide_eq_false_2; [done|]. by intros ->.
Qed.

Lemma split_on_digits_end s :
  Forall (λ c, is_digit c = true) s → split_on ":" s = [s].
Proof.
  induction 1 as [|c s Hc _ IH]; [done|]. simpl. rewrite IH.
  rewrite bool_decide_eq_false_2; [done|]. by intros ->.
Qed.

Lemma pad2_digits n : (0 <= n)%Z → Forall (λ c, is_digit c = true) (pad2 n).
Proof.
  intros H. unfold pad2. apply Forall_app. split; [by apply Forall_replicate|by apply str_of_Z_digits].
Qed.

Lemma digits_value_zeros k s : digits_value (replicate k "0"%char ++ s) = digits_value s.
Proof. induction k as [|k IH]; [done|]. rewrite <- IH. unfold digits_value. simpl. f_equal. Qed.

Lemma pad2_value n : (0 <= n)%Z → digits_value (pad2 n) = n.
Proof. intros H. unfold pad2. by rewrite digits_value_zeros, digits_value_str. Qed.

Lemma read_clock_format v :
  read_clock (formatVideoTime v) = Z.max 0 (floor (default 0 v)).
Proof.
  unfold formatVideoTime. set (total := Z.max 0 (floor (default 0 v))).
  assert (0 <= total)%Z as H0 by lia.
  pose proof (Z.div_mod total 3600 ltac:(lia)) as D1.
  pose proof (Z.mod_pos_bound total 3600 ltac:(lia)) as D2.
  pose proof (Z.div_pos total 3600 ltac:(lia) ltac:(lia)) as D3.
  pose proof (Z.div_pos (total mod 3600) 60 ltac:(lia) ltac:(lia)) as D4.
  pose proof (Z.mod_pos_bound total 60 ltac:(lia)) as D5.
  assert (total mod 3600 = 60 * (total mod 3600 / 60) + total mod 60)%Z as D6.
  { rewrite (Znumtheory.Zmod_div_mod 60 3600 total); [|lia|lia|by exists 60%Z].
    apply Z.div_mod. lia. }
  unfold read_clock. destruct (0 <? total / 3600)%Z eqn:E.
  - rewrite split_on_digits by (apply str_of_Z_digits; lia).
    rewrite split_on_digits by (apply pad2_digits; lia).
    rewrite split_on_digits_end by (apply pad2_digits; lia).
    cbn [foldl]. rewrite digits_value_str, !pad2_value by lia. lia.
  - rewrite split_on_digits by (apply str_of_Z_digits; lia).
    rewrite split_on_digits_end by (apply pad2_digits; lia).
    cbn [foldl]. rewrite digits_value_str, !pad2_value by lia. lia.
Qed.

Lemma resume_within p d :
  0 <= resumePosition p d ∧ (∀ x, d = Some x → 0 < x → resumePosition p d < x)
  ∧ (∀ x y, p = Some y → d = Some x → 0 <= y → y <= x - (1 # 2) → resumePosition p d == y).
Proof.
  unfold resumePosition. destruct p as [p|], d as [d|]; try (split; [lra|split; intros; simplify_eq; lra]).
  pose proof (qle_spec p 0) as P. destruct (Qle_bool p 0); simpl.
  { split; [lra|]. split; intros; simplify_eq; lra. }
  pose proof (qle_spec d 0) as D. destruct (Qle_bool d 0).
  { split; [lra|]. split; intros; simplify_eq; lra. }
  destruct (qmax_spec 0 (d - (1 # 2))) as (X1 & X2 & X3).
  destruct (qmin_spec p (qmax 0 (d - (1 # 2)))) as (M1 & M2 & M3).
  split; [destruct M3 as [-> | ->]; lra|]. split; intros; simplify_eq.
  - destruct X3 as [X3|X3]; rewrite X3 in *; lra.
  - destruct M3 as [M3|M3]; rewrite M3 in *; destruct X3 as [X3|X3]; rewrite X3 in *; lra.
Qed.

(** The mobile player counts what was watched. Over any sequence of events the
    watched time never decreases, and it grows only on position updates while playing,
    by no more than the time that passed at the playback rate (at least one) and three
    quarters of a second: a jump is not credited at all; uninterrupted playback is
    credited in full. A recording is resumed at a position inside it, the saved one if
    it is at least half a second before the end, and the clock shown reads back as the
    whole seconds played. *)
Theorem native_watch_correct (initialPosition : Q) (es : list event) (n : Native)
    (i : playback_input) (position dur : option Q) :
  totalWatched (tracker n) <= totalWatched (tracker (run initialPosition es n))
  ∧ totalWatched (tracker (run initialPosition es n))
    <= totalWatched (tracker n) + total_allowance initialPosition es n
  ∧ (uninterrupted initialPosition es n →
     totalWatched (tracker (run initialPosition es n)) - totalWatched (tracker n)
     == lastTime (tracker (run initialPosition es n)) - lastTime (tracker n))
  ∧ (plausible i < currentTime i - previousTime i → creditedPlaybackSeconds i == 0)
  ∧ (0 <= resumePosition position dur
     ∧ (∀ x, dur = Some x → 0 < x → resumePosition position dur < x)
     ∧ (∀ x y, position = Some y → dur = Some x → 0 <= y → y <= x - (1 # 2) →
        resumePosition position dur == y))
  ∧ read_clock (formatVideoTime position) = Z.max 0 (floor (default 0 position)).
Proof.
  destruct (native_run_credit initialPosition es n) as (H1 & H2 & H3).
  split; [done|]. split; [done|]. split; [done|].
  split; [|split; [apply resume_within|apply read_clock_format]].
  intros H. unfold creditedPlaybackSeconds. destruct (_ || _); [lra|].
  destruct (Qle_bool _ 0); [lra|].
  pose proof (qle_spec (currentTime i - previousTime i) (plausible i)) as M.
  destruct (Qle_bool (currentTime i - previousTime i) (plausible i)); lra.
Qed.

(** The report of a finished recording is replaced, before it is sent, by the report of
    the pause that follows it when a save is in flight. *)
Lemma ended_report_overwritten :
  let n := run 0 [SourceLoad (Some 100) 0; PlayingChange true 1; TimeUpdate 10 20000; PlayToEnd;
                  PlayingChange false 20001; SaveSettled true; SaveSettled true] (init 0 0) in
  total_watched_seconds <$> sent (saves n) = [10; 10]%Z
  ∧ total_watched_seconds <$> queued (saves n) = [10; 100; 10]%Z.
Proof. vm_compute. done. Qed.

(** A save that failed is not sent again by itself. *)
Lemma failed_save_not_retried ok alive q :
  pending q = None → sent (save_settled ok alive q) = sent q
  ∧ inflight (save_settled false alive q) = tail (inflight q).
Proof.
  intros H. unfold save_settled, drain. destruct (inflight q) eqn:E; [by rewrite E|].
  cbn. by rewrite H.
Qed.

End Mobile.
