(* ===== verification/Analytics.v ===== *)
(** * Product analytics

    [web/src/lib/analytics.ts] and [mobile/src/lib/analytics.ts]: what may leave the
    device. The two files have the same tables of keys; they differ in the platform they report,
    an argument here, and in the type of the length of a recording ([DurationBucket]).
    [ProductEventMap], a type in the source, is a table of fields. *)

From S2P Require Import Prelude Regex.

Inductive ProductEventName :=
| weekly_plan_viewed
| learning_step_started
| learning_step_completed
| submission_created
| feedback_viewed
| redo_submitted
| knowledge_check_attempted
| help_requested
| help_request_resolved
| intervention_opened
| intervention_resolved
| recording_engaged
| code_block_scrolled
| code_block_copied
| voice_draft_started
| voice_draft_recorded
| voice_draft_transcribed
| voice_draft_inserted
| voice_draft_restored
| voice_draft_sent
| voice_draft_discarded.

Definition event_name (e : ProductEventName) : str :=
  match e with
  | weekly_plan_viewed => js "weekly_plan_viewed"
  | learning_step_started => js "learning_step_started"
  | learning_step_completed => js "learning_step_completed"
  | submission_created => js "submission_created"
  | feedback_viewed => js "feedback_viewed"
  | redo_submitted => js "redo_submitted"
  | knowledge_check_attempted => js "knowledge_check_attempted"
  | help_requested => js "help_requested"
  | help_request_resolved => js "help_request_resolved"
  | intervention_opened => js "intervention_opened"
  | intervention_resolved => js "intervention_resolved"
  | recording_engaged => js "recording_engaged"
  | code_block_scrolled => js "code_block_scrolled"
  | code_block_copied => js "code_block_copied"
  | voice_draft_started => js "voice_draft_started"
  | voice_draft_recorded => js "voice_draft_recorded"
  | voice_draft_transcribed => js "voice_draft_transcribed"
  | voice_draft_inserted => js "voice_draft_inserted"
  | voice_draft_restored => js "voice_draft_restored"
  | voice_draft_sent => js "voice_draft_sent"
  | voice_draft_discarded => js "voice_draft_discarded"
  end.

Definition PROPERTY_KEYS (e : ProductEventName) : list str :=
  match e with
  | weekly_plan_viewed => map js ["cohort_id"; "week_number"; "role"; "required_count"]
  | learning_step_started => map js ["cohort_id"; "module_id"; "lesson_id"; "content_block_id"; "block_type"]
  | learning_step_completed => map js ["cohort_id"; "module_id"; "lesson_id"; "content_block_id"; "block_type"; "source"]
  | submission_created => map js ["cohort_id"; "content_block_id"; "submission_type"; "attempt"]
  | feedback_viewed => map js ["cohort_id"; "submission_id"; "grade_state"; "age_bucket"]
  | redo_submitted => map js ["cohort_id"; "submission_id"; "attempt"; "age_bucket"]
  | knowledge_check_attempted => map js ["knowledge_check_id"; "content_block_id"; "correct"; "attempt"]
  | help_requested => map js ["cohort_id"; "context_type"; "context_id"; "category"; "urgency"]
  | help_request_resolved => map js ["cohort_id"; "help_request_id"; "category"; "resolution_bucket"]
  | intervention_opened => map js ["cohort_id"; "intervention_id"; "trigger_type"; "severity"]
  | intervention_resolved => map js ["cohort_id"; "intervention_id"; "trigger_type"; "outcome"; "age_bucket"]
  | recording_engaged => map js ["cohort_id"; "recording_id"; "progress_bucket"; "captions_on"]
  | code_block_scrolled => map js ["surface"; "overflow_bucket"]
  | code_block_copied => map js ["surface"; "language"]
  | voice_draft_started => map js ["surface"; "permission_state"]
  | voice_draft_recorded => map js ["surface"; "duration_bucket"]
  | voice_draft_transcribed => map js ["surface"; "latency_bucket"; "outcome"]
  | voice_draft_inserted => map js ["surface"; "raw_or_cleaned"]
  | voice_draft_restored => map js ["surface"]
  | voice_draft_sent => map js ["surface"; "edit_distance_bucket"]
  | voice_draft_discarded => map js ["surface"; "stage"]
  end.

Definition OPTIONAL_KEYS (e : ProductEventName) : list str :=
  match e with
  | learning_step_started => map js ["cohort_id"; "content_block_id"]
  | learning_step_completed => map js ["cohort_id"]
  | submission_created => map js ["cohort_id"]
  | feedback_viewed => map js ["cohort_id"]
  | redo_submitted => map js ["cohort_id"]
  | _ => []
  end.

(** ** Values *)

(** A property value: a number ([None] when it is not finite), a boolean, a string,
    [undefined], or anything else ([null], an object, ...). *)
Inductive value :=
| VNumber (n : option Q) | VBoolean (b : bool) | VString (s : str) | VUndefined | VOther.

Definition category_head (c : ascii) : bool := is_lower c || is_digit c.
Definition category_char (c : ascii) : bool :=
  is_lower c || is_digit c || bool_decide (c = "_"%char) || bool_decide (c = "-"%char).

(** [/^[a-z0-9][a-z0-9_-]{0,39}$/] *)
Definition SAFE_CATEGORY : matcher :=
  anchored (seq (chr category_head) (upto 39 (chr category_char))).

(** ** Events *)

Definition entries : Type := list (str * value).

(** [o[key] = v] *)
Fixpoint set_key (k : str) (v : value) (o : entries) : entries :=
  match o with
  | [] => [(k, v)]
  | (k', v') :: r => if eqs k' k then (k, v) :: r else (k', v') :: set_key k v r
  end.

(** [key in o] *)
Definition has_key (k : str) (o : entries) : bool := existsb (λ kv, eqs kv.1 k) o.

Record SafeEvent := { event : ProductEventName; properties : entries }.

(** What the loop does with a value: skip it, keep it, or give the event up. *)
Inductive verdict := Skip | Keep | Reject.

Definition check (allowed : list str) (key : str) (v : value) : verdict :=
  if negb (has allowed key) then Skip
  else match v with
       | VUndefined => Skip
       | VNumber None => Reject
       | VNumber (Some n) => if Qle_bool 0 n then Keep else Reject
       | VBoolean _ => Keep
       | VString s => if test SAFE_CATEGORY s then Keep else Reject
       | VOther => Reject
       end.

Fixpoint collect (allowed : list str) (es : entries) (acc : entries) : option entries :=
  match es with
  | [] => Some acc
  | (k, v) :: r =>
      match check allowed k v with
      | Skip => collect allowed r acc
      | Keep => collect allowed r (set_key k v acc)
      | Reject => None
      end
  end.

Definition missingRequired (e : ProductEventName) (safe : entries) : bool :=
  existsb (λ key, negb (has (OPTIONAL_KEYS e) key) && negb (has_key key safe)) (PROPERTY_KEYS e).

Definition safeProductEvent (platform : str) (e : ProductEventName) (es : entries)
    : option SafeEvent :=
  safe ← collect (PROPERTY_KEYS e) es [(js "platform", VString platform)];
  if missingRequired e safe then None else Some {| event := e; properties := safe |}.

(** [captureProductEvent]: what is handed to PostHog, and the result. *)
Definition captureProductEvent (enabled : bool) (platform : str) (e : ProductEventName)
    (es : entries) : option (str * entries) * bool :=
  match safeProductEvent platform e es with
  | Some safe =>
      if enabled then (Some (event_name (event safe), properties safe), true) else (None, false)
  | None => (None, false)
  end.

Definition MOBILE_PLATFORM (os : str) : str :=
  if eqs os (js "ios") then js "ios"
  else if eqs os (js "android") then js "android" else js "other".

(** ** Buckets *)

Inductive AgeBucketName := same_day | one_day | two_to_three_days | four_to_seven_days | over_one_week.

Section Age.
Context (Date_parse : str → option Q).

Definition analyticsAgeBucket (timestamp : option str) (now : Q) : AgeBucketName :=
  let parsed := match timestamp with
                | Some t => if truthy t then Date_parse t else Some now
                | None => Some now
                end in
  let elapsedDays := match parsed with
                     | Some p => let d := ((now - p) / 86400000)%Q in
                                 if Qle_bool 0 d then d else 0%Q
                     | None => 0%Q
                     end in
  if negb (Qle_bool 1 elapsedDays) then same_day
  else if negb (Qle_bool 2 elapsedDays) then one_day
  else if negb (Qle_bool 4 elapsedDays) then two_to_three_days
  else if negb (Qle_bool 8 elapsedDays) then four_to_seven_days
  else over_one_week.

End Age.

Definition analyticsLanguage (v : option str) : str :=
  match v with
  | None => js "other"
  | Some v =>
      let normalized := filter (λ c, category_char c = true) (toLowerCase (trim v)) in
      if truthy normalized && (length normalized <=? 24)%nat then normalized else js "other"
  end.

Definition durationBucket (s : Q) : str :=
  if negb (Qle_bool 15 s) then js "under_15s"
  else if Qle_bool s 30 then js "15_to_30s"
  else if Qle_bool s 60 then js "31_to_60s"
  else if Qle_bool s 120 then js "61_to_120s"
  else js "over_120s".

Definition latencyBucket (ms : Q) : str :=
  if negb (Qle_bool 2000 ms) then js "under_2s"
  else if Qle_bool ms 5000 then js "2_to_5s"
  else if Qle_bool ms 10000 then js "6_to_10s"
  else js "over_10s".

(** ** The types of the events *)

Inductive field_type := TNumber | TBoolean | TString | TOneOf (l : list str).

Definition one_of (l : list string) : field_type := TOneOf (map js l).

Record field := { name : str; optional_field : bool; type : field_type }.

Definition required (n : string) (t : field_type) : field :=
  {| name := js n; optional_field := false; type := t |}.
Definition optional (n : string) (t : field_type) : field :=
  {| name := js n; optional_field := true; type := t |}.

Definition Role : field_type := one_of ["student"; "instructor"; "admin"].
Definition VoiceSurface : field_type := one_of ["message"; "thread"; "help_request"; "grading_feedback"].
Inductive App := WebApp | MobileApp.

Definition DurationBucket (a : App) : field_type :=
  match a with
  | WebApp => one_of ["under_15s"; "15_to_30s"; "31_to_60s"; "61_to_90s"]
  | MobileApp => one_of ["under_15s"; "15_to_30s"; "31_to_60s"; "61_to_120s"; "over_120s"]
  end.
Definition LatencyBucket : field_type := one_of ["under_2s"; "2_to_5s"; "6_to_10s"; "over_10s"].
Definition AgeBucket : field_type := one_of ["same_day"; "one_day"; "two_to_three_days"; "four_to_seven_days"; "over_one_week"].

Definition ProductEventMap (a : App) (e : ProductEventName) : list field :=
  match e with
  | weekly_plan_viewed =>
      [required "cohort_id" TNumber;
       required "week_number" TNumber;
       required "role" Role;
       required "required_count" TNumber]
  | learning_step_started =>
      [optional "cohort_id" TNumber;
       required "module_id" TNumber;
       required "lesson_id" TNumber;
       optional "content_block_id" TNumber;
       required "block_type" TString]
  | learning_step_completed =>
      [optional "cohort_id" TNumber;
       required "module_id" TNumber;
       required "lesson_id" TNumber;
       required "content_block_id" TNumber;
       required "block_type" TString;
       required "source" (one_of ["manual"; "video"; "submission"])]
  | submission_created =>
      [optional "cohort_id" TNumber;
       required "content_block_id" TNumber;
       required "submission_type" TString;
       required "attempt" TNumber]
  | feedback_viewed =>
      [optional "cohort_id" TNumber;
       required "submission_id" TNumber;
       required "grade_state" (one_of ["passed"; "redo"]);
       required "age_bucket" AgeBucket]
  | redo_submitted =>
      [optional "cohort_id" TNumber;
       required "submission_id" TNumber;
       required "attempt" TNumber;
       required "age_bucket" AgeBucket]
  | knowledge_check_attempted =>
      [required "knowledge_check_id" TNumber;
       required "content_block_id" TNumber;
       required "correct" TBoolean;
       required "attempt" TNumber]
  | help_requested =>
      [required "cohort_id" TNumber;
       required "context_type" (one_of ["lesson"; "exercise"; "recording"]);
       required "context_id" TNumber;
       required "category" TString;
       required "urgency" (one_of ["normal"; "urgent"])]
  | help_request_resolved =>
      [required "cohort_id" TNumber;
       required "help_request_id" TNumber;
       required "category" TString;
       required "resolution_bucket" AgeBucket]
  | intervention_opened =>
      [required "cohort_id" TNumber;
       required "intervention_id" TNumber;
       required "trigger_type" TString;
       required "severity" (one_of ["normal"; "urgent"])]
  | intervention_resolved =>
      [required "cohort_id" TNumber;
       required "intervention_id" TNumber;
       required "trigger_type" TString;
       required "outcome" TString;
       required "age_bucket" AgeBucket]
  | recording_engaged =>
      [required "cohort_id" TNumber;
       required "recording_id" TNumber;
       required "progress_bucket" (one_of ["started"; "quarter"; "half"; "three_quarters"; "complete"]);
       required "captions_on" TBoolean]
  | code_block_scrolled =>
      [required "surface" (one_of ["message"; "lesson"]);
       required "overflow_bucket" (one_of ["short"; "medium"; "long"])]
  | code_block_copied =>
      [required "surface" (one_of ["message"; "lesson"]);
       required "language" TString]
  | voice_draft_started =>
      [required "surface" VoiceSurface;
       required "permission_state" (one_of ["unknown"; "granted"; "denied"])]
  | voice_draft_recorded =>
      [required "surface" VoiceSurface;
       required "duration_bucket" (DurationBucket a)]
  | voice_draft_transcribed =>
      [required "surface" VoiceSurface;
       required "latency_bucket" LatencyBucket;
       required "outcome" (one_of ["success"; "empty"; "timeout"; "provider_error"; "network_error"])]
  | voice_draft_inserted =>
      [required "surface" VoiceSurface;
       required "raw_or_cleaned" (one_of ["raw"; "cleaned"])]
  | voice_draft_restored =>
      [required "surface" VoiceSurface]
  | voice_draft_sent =>
      [required "surface" VoiceSurface;
       required "edit_distance_bucket" (one_of ["none"; "light"; "substantial"])]
  | voice_draft_discarded =>
      [required "surface" VoiceSurface;
       required "stage" (one_of ["recording"; "transcribing"; "review"])]
  end.

(** ** What is sent *)

(** Text that is one short lower-case word. *)
Definition category (s : str) : Prop :=
  ∃ c r, s = c :: r ∧ category_head c = true ∧ (length r ≤ 39)%nat
         ∧ Forall (λ c, category_char c = true) r.

Lemma SAFE_CATEGORY_spec s : test SAFE_CATEGORY s = true ↔ category s.
Proof.
  unfold SAFE_CATEGORY.
  rewrite (test_anchored _ _ _ (seq_consumes _ _ _ _ (chr_spec _) (upto_spec 39 _))). split.
  - intros (u & v & -> & (c & -> & Hc) & Hl & F). by exists c, v.
  - intros (c & r & -> & Hc & Hl & F). exists [c], r. split; [done|]. split; [by exists c|done].
Qed.

(** A value that may be sent. *)
Definition safe_value (v : value) : Prop :=
  match v with
  | VNumber (Some n) => (0 <= n)%Q
  | VBoolean _ => True
  | VString s => category s
  | _ => False
  end.

Lemma check_spec allowed k v :
  match check allowed k v with
  | Keep => k ∈ allowed ∧ safe_value v
  | Skip => k ∉ allowed ∨ v = VUndefined
  | Reject => k ∈ allowed ∧ v ≠ VUndefined ∧ ¬ safe_value v
  end.
Proof.
  unfold check. destruct (has allowed k) eqn:E; simpl; [apply has_true in E|apply has_false in E; auto].
  destruct v as [[n|]|b|s| |]; simpl; auto 10.
  - destruct (Qle_bool 0 n) eqn:Q; [by apply Qle_bool_iff in Q|].
    split; [done|]. split; [done|]. intros H%Qle_bool_iff. congruence.
  - destruct (test SAFE_CATEGORY s) eqn:T; [by apply SAFE_CATEGORY_spec in T|].
    split; [done|]. split; [done|]. intros H%SAFE_CATEGORY_spec. congruence.
Qed.

Lemma set_key_elem k v o kv : kv ∈ set_key k v o → kv = (k, v) ∨ kv ∈ o.
Proof.
  induction o as [|[k' v'] o IH]; simpl; [rewrite list_elem_of_singleton; auto|].
  destruct (eqs k' k); rewrite !elem_of_cons; naive_solver.
Qed.

Lemma set_key_in k v o : (k, v) ∈ set_key k v o.
Proof.
  induction o as [|[k' v'] o IH]; simpl; [by apply list_elem_of_singleton|].
  destruct (eqs k' k); apply elem_of_cons; auto.
Qed.

Lemma set_key_keep k v o k' v' : k' ≠ k → (k', v') ∈ o → (k', v') ∈ set_key k v o.
Proof.
  intros Hk. induction o as [|[a b] o IH]; [by rewrite elem_of_nil|]. simpl.
  rewrite elem_of_cons. intros [[= -> ->]|H].
  - rewrite (proj2 (eqs_false a k)) by done. by left.
  - destruct (eqs a k); apply elem_of_cons; auto.
Qed.

(** What the loop collects from an object (its keys are distinct). *)
Lemma collect_spec allowed es acc out :
  NoDup es.*1 → (∀ k, k ∈ es.*1 → k ∈ allowed → k ∉ acc.*1) →
  collect allowed es acc = Some out →
  (∀ kv, kv ∈ out ↔ kv ∈ acc ∨ (kv ∈ es ∧ kv.1 ∈ allowed ∧ kv.2 ≠ VUndefined))
  ∧ (∀ kv, kv ∈ es → kv.1 ∈ allowed → kv.2 ≠ VUndefined → safe_value kv.2).
Proof.
  revert acc. induction es as [|[k v] es IH]; intros acc Hnd Hacc; cbn [collect].
  { intros [= ->]. split; [|by intros kv ?%elem_of_nil]. intros kv. rewrite elem_of_nil. naive_solver. }
  apply NoDup_cons in Hnd as [Hk Hnd].
  pose proof (check_spec allowed k v) as C. destruct (check allowed k v); [| |done].
  - intros H. apply IH in H as [H1 H2]; [|done|intros; apply Hacc; [by right|done]]. split.
    + intros kv. rewrite H1, elem_of_cons. split; [naive_solver|].
      intros [?|([-> | ?] & ? & ?)]; naive_solver.
    + intros kv [-> | ?]%elem_of_cons; [destruct C; naive_solver|auto].
  - destruct C as [Ha Hs]. intros H.
    assert (k ∉ acc.*1) as Hka by (apply Hacc; [by left|done]).
    apply IH in H as [H1 H2]; [|done|].
    2:{ intros k' Hk' Ha' ((k2 & v2) & E & Hin)%list_elem_of_fmap. simpl in E. subst k2.
        apply set_key_elem in Hin as [[= -> ->]|Hin]; [done|].
        apply (Hacc k'); [by right|done|]. apply list_elem_of_fmap. by exists (k', v2). }
    assert (v ≠ VUndefined) as Hv by (intros ->; done). split.
    + intros kv. rewrite H1, elem_of_cons. split.
      * intros [Hin|?]; [|naive_solver]. apply set_key_elem in Hin. naive_solver.
      * intros [Hin|([-> | Hin] & ? & ?)]; [|left; apply set_key_in|by auto].
        left. destruct kv as [k' v']. apply set_key_keep; [|done]. intros ->.
        apply Hka, list_elem_of_fmap. by exists (k, v').
    + intros kv [-> | ?]%elem_of_cons; auto.
Qed.

Lemma collect_total allowed es acc :
  (∀ kv, kv ∈ es → kv.1 ∈ allowed → kv.2 ≠ VUndefined → safe_value kv.2) →
  is_Some (collect allowed es acc).
Proof.
  revert acc. induction es as [|[k v] es IH]; intros acc H; simpl; [eauto|].
  pose proof (check_spec allowed k v) as C.
  destruct (check allowed k v); [apply IH|apply IH|]; try (intros kv ?; apply H; by right).
  exfalso. destruct C as (C1 & C2 & C3). apply C3, (H (k, v)); [by left|done|done].
Qed.

Lemma has_key_true k o : has_key k o = true ↔ k ∈ o.*1.
Proof.
  unfold has_key. rewrite existsb_exists, list_elem_of_fmap. split.
  - intros (kv & H1 & H2%eqs_true). exists kv. by rewrite list_elem_of_In.
  - intros (kv & -> & H). exists kv. rewrite <- list_elem_of_In. by rewrite eqs_refl.
Qed.

Lemma missing_false e safe :
  missingRequired e safe = false
  ↔ ∀ k, k ∈ PROPERTY_KEYS e → k ∉ OPTIONAL_KEYS e → k ∈ safe.*1.
Proof.
  unfold missingRequired. rewrite <- not_true_iff_false, existsb_exists. split.
  - intros H k H1 H2. destruct (has_key k safe) eqn:E; [by apply has_key_true|]. exfalso. apply H.
    exists k. rewrite <- list_elem_of_In, E, (proj2 (has_false _ _) H2). done.
  - intros H (k & H1%list_elem_of_In & [H2 H3]%andb_true_iff). apply negb_true_iff in H2, H3.
    apply has_false in H2. specialize (H k H1 H2). apply has_key_true in H. congruence.
Qed.

Lemma platform_not_a_key e : js "platform" ∉ PROPERTY_KEYS e.
Proof. apply has_false. by destruct e. Qed.

(** The properties of [es] that the event has. *)
Definition sendable (e : ProductEventName) (es : entries) (kv : str * value) : Prop :=
  kv ∈ es ∧ kv.1 ∈ PROPERTY_KEYS e ∧ kv.2 ≠ VUndefined.

(** C20: product events cannot leak. A product event ([captureProductEvent]; page views,
    identification and exceptions are other calls) is sent exactly when analytics is on, every
    property it is allowed to have, and was given, is a non-negative finite number, a boolean
    or one short lower-case word, and no required property is missing; what is sent is then
    exactly those properties and the platform: no other property, and no free text, leaves
    the device with it, whatever object the caller passes. *)
Theorem analytics_only_safe (enabled : bool) (platform : str) (e : ProductEventName) (es : entries)
    (Hobject : NoDup es.*1) :
  (is_Some (safeProductEvent platform e es)
   ↔ (∀ kv, sendable e es kv → safe_value kv.2)
     ∧ (∀ k, k ∈ PROPERTY_KEYS e → k ∉ OPTIONAL_KEYS e → ∃ v, sendable e es (k, v)))
  ∧ (∀ safe, safeProductEvent platform e es = Some safe →
     event safe = e
     ∧ ∀ kv, kv ∈ properties safe ↔ kv = (js "platform", VString platform) ∨ sendable e es kv)
  ∧ (captureProductEvent enabled platform e es
     = if enabled
       then match safeProductEvent platform e es with
            | Some safe => (Some (event_name e, properties safe), true)
            | None => (None, false)
            end
       else (None, false)).
Proof.
  assert (∀ k, k ∈ es.*1 → k ∈ PROPERTY_KEYS e → k ∉ [(js "platform", VString platform)].*1) as Hp.
  { intros k _ H Hk. apply list_elem_of_singleton in Hk. subst. by apply platform_not_a_key in H. }
  assert (∀ safe, safeProductEvent platform e es = Some safe →
     event safe = e
     ∧ ∀ kv, kv ∈ properties safe ↔ kv = (js "platform", VString platform) ∨ sendable e es kv) as HS.
  { unfold safeProductEvent. intros safe. destruct (collect _ _ _) as [o|] eqn:E; [|done]. simpl.
    destruct (missingRequired e o); [done|]. intros [= <-]. split; [done|]. simpl. intros kv.
    apply collect_spec in E as [E _]; [|done|done]. rewrite E, list_elem_of_singleton. done. }
  split; [|split; [done|]].
  - split.
    + intros [safe Hs]. pose proof Hs as Hs2. unfold safeProductEvent in Hs.
      destruct (collect _ _ _) as [o|] eqn:E; [|done]. simpl in Hs.
      destruct (missingRequired e o) eqn:M; [done|]. apply collect_spec in E as [E1 E2]; [|done|done].
      split; [intros kv (? & ? & ?); by apply E2|].
      intros k H1 H2. rewrite missing_false in M. specialize (M k H1 H2).
      apply list_elem_of_fmap in M as ((k' & v) & E & Hin). simpl in E. subst k'.
      apply E1 in Hin as [Hin|?]; [|by exists v].
      apply list_elem_of_singleton in Hin as [= -> _]. by apply platform_not_a_key in H1.
    + intros [H1 H2]. unfold safeProductEvent.
      destruct (collect_total (PROPERTY_KEYS e) es [(js "platform", VString platform)]) as [o E].
      { intros kv ???. by apply H1. }
      rewrite E. simpl. apply collect_spec in E as [E _]; [|done|done].
      assert (missingRequired e o = false) as ->; [|by eauto].
      apply missing_false. intros k Hk Ho. destruct (H2 k Hk Ho) as [v Hv].
      apply list_elem_of_fmap. exists (k, v). split; [done|]. apply E. by right.
  - unfold captureProductEvent. destruct (safeProductEvent platform e es) as [safe|] eqn:E; [|by destruct enabled].
    destruct (HS safe eq_refl) as [-> _]. done.
Qed.

(** The witness: a submission is reported without the text a caller added. *)
Definition example_entries : entries :=
  [(js "content_block_id", VNumber (Some 7%Q)); (js "text", VString (js "my answer, in full"));
   (js "submission_type", VString (js "text_submission")); (js "attempt", VNumber (Some 2%Q))].

Lemma analytics_only_safe_witness :
  ∃ safe, safeProductEvent (js "web") submission_created example_entries = Some safe
    ∧ (js "attempt", VNumber (Some 2%Q)) ∈ properties safe
    ∧ ∀ v, (js "text", v) ∉ properties safe.
Proof.
  assert (NoDup example_entries.*1) as Hnd by (apply (bool_decide_unpack _); vm_compute; exact I).
  pose proof (analytics_only_safe true (js "web") submission_created example_entries Hnd) as (_ & H & _).
  eexists. split; [vm_compute; reflexivity|].
  destruct (H _ eq_refl) as [_ K]. split.
  - apply K. right. split; [by do 3 right; left|]. split; [|done].
    apply has_true. vm_compute. reflexivity.
  - intros v Hv. apply K in Hv as [Hv|(_ & Hk & _)]; [done|]. apply has_true in Hk. vm_compute in Hk. done.
Defined.

(** ** Events of the declared types *)

Definition of_type (t : field_type) (v : value) : Prop :=
  match t, v with
  | TNumber, VNumber _ => True
  | TBoolean, VBoolean _ => True
  | TString, VString _ => True
  | TOneOf l, VString s => s ∈ l
  | _, _ => False
  end.

(** An object of the type that [ProductEventMap] gives the event: the optional fields may
    be left out or [undefined], and other keys may be there. *)
Definition typed (a : App) (e : ProductEventName) (es : entries) : Prop :=
  ∀ f, f ∈ ProductEventMap a e →
    (∃ v, (name f, v) ∈ es ∧ of_type (type f) v)
    ∨ (optional_field f = true ∧ ∀ v, (name f, v) ∈ es → v = VUndefined).

(** The values that the types leave open: numbers that are ids and counts, free strings
    that are categories. *)
Definition sane (v : value) : Prop :=
  match v with
  | VNumber n => ∃ q, n = Some q ∧ (0 <= q)%Q
  | VString s => category s
  | _ => True
  end.

(** The tables of keys agree with the types. *)
Definition tables_agree (a : App) (e : ProductEventName) : bool :=
  bool_decide (map name (ProductEventMap a e) = PROPERTY_KEYS e)
  && bool_decide (map name (filter (λ f, optional_field f = true) (ProductEventMap a e)) = OPTIONAL_KEYS e)
  && bool_decide (NoDup (map name (ProductEventMap a e))).

(** Every value a type names is a category. *)
Definition enums_safe (a : App) (e : ProductEventName) : bool :=
  forallb (λ f, match type f with TOneOf l => forallb (test SAFE_CATEGORY) l | _ => true end)
    (ProductEventMap a e).

Lemma tables_agree_true a e : tables_agree a e = true.
Proof. by destruct a, e; vm_compute. Qed.

Lemma enums_safe_true a e : enums_safe a e = true.
Proof. by destruct a, e; vm_compute. Qed.

Lemma enum_category a e f l s :
  f ∈ ProductEventMap a e → type f = TOneOf l → s ∈ l → category s.
Proof.
  intros Hf Hl Hs. pose proof (enums_safe_true a e) as H. unfold enums_safe in H.
  rewrite forallb_forall in H. specialize (H f ltac:(by apply list_elem_of_In)). rewrite Hl in H.
  rewrite forallb_forall in H. apply SAFE_CATEGORY_spec, H. by apply list_elem_of_In.
Qed.

Lemma key_field a e k : k ∈ PROPERTY_KEYS e → ∃ f, f ∈ ProductEventMap a e ∧ name f = k.
Proof.
  pose proof (tables_agree_true a e) as [[T _]%andb_true_iff _]%andb_true_iff.
  apply bool_decide_eq_true in T. rewrite <- T. intros (f & E & H)%list_elem_of_fmap. by exists f.
Qed.

Lemma optional_key a e f :
  f ∈ ProductEventMap a e → optional_field f = true → name f ∈ OPTIONAL_KEYS e.
Proof.
  pose proof (tables_agree_true a e) as [[_ T]%andb_true_iff _]%andb_true_iff.
  apply bool_decide_eq_true in T. rewrite <- T. intros H1 H2. apply list_elem_of_fmap. exists f.
  split; [done|]. by apply list_elem_of_filter.
Qed.

Lemma entries_unique (es : entries) k v w : NoDup es.*1 → (k, v) ∈ es → (k, w) ∈ es → v = w.
Proof.
  induction es as [|[a b] es IH]; [by rewrite elem_of_nil|]. simpl.
  intros [Hn Hd]%NoDup_cons. rewrite !elem_of_cons. intros [[= -> ->]|H1] [[= ->]|H2]; auto.
  - destruct Hn. apply list_elem_of_fmap. by exists (a, w).
  - destruct Hn. apply list_elem_of_fmap. by exists (a, v).
Qed.

(** C37: well-typed events arrive. For every event of the catalogue and either app, an object
    of the type that app declares for it is accepted, whatever other keys it has, as soon as its
    numbers are finite and not negative and its free strings are categories; every value
    the types enumerate is one: no event is lost because of the tables of allowed and
    optional keys or the pattern the strings must match. *)
Theorem typed_events_accepted (a : App) (platform : str) (e : ProductEventName) (es : entries)
    (Hobject : NoDup es.*1) (Htyped : typed a e es)
    (Hsane : ∀ f v, f ∈ ProductEventMap a e → (∀ l, type f ≠ TOneOf l) → (name f, v) ∈ es → sane v) :
  is_Some (safeProductEvent platform e es).
Proof.
  assert (∀ kv, sendable e es kv → safe_value kv.2) as H1.
  { intros [k v] (Hin & Hk & Hv). simpl in *. destruct (key_field a e k Hk) as (f & Hf & <-).
    destruct (Htyped f Hf) as [(w & Hw & Ht)|[_ Hu]]; [|by apply Hu in Hin].
    rewrite (entries_unique es (name f) v w) in * by done.
    destruct (type f) as [| | |l] eqn:T; destruct w as [n|b|s| |]; simpl in Ht; try done; simpl.
    - destruct (Hsane f (VNumber n) Hf ltac:(by rewrite T) Hw) as (q & -> & Hq). done.
    - exact (Hsane f (VString s) Hf ltac:(by rewrite T) Hw).
    - by eapply enum_category. }
  assert (∀ k, k ∈ PROPERTY_KEYS e → k ∉ OPTIONAL_KEYS e → ∃ v, sendable e es (k, v)) as H2.
  { intros k Hk Ho. destruct (key_field a e k Hk) as (f & Hf & <-).
    destruct (Htyped f Hf) as [(v & Hv & Ht)|[Hopt _]]; [|by destruct Ho; apply (optional_key a)].
    exists v. split; [done|]. split; [done|]. intros E. simpl in E. subst v. by destruct (type f). }
  unfold safeProductEvent.
  destruct (collect_total (PROPERTY_KEYS e) es [(js "platform", VString platform)]) as [o E].
  { intros kv ???. by apply H1. }
  rewrite E. simpl. apply collect_spec in E as [E _]; [|done|].
  2:{ intros k _ H Hk. apply list_elem_of_singleton in Hk. subst. by apply platform_not_a_key in H. }
  assert (missingRequired e o = false) as ->; [|by eauto].
  apply missing_false. intros k Hk Ho. destruct (H2 k Hk Ho) as [v Hv].
  apply list_elem_of_fmap. exists (k, v). split; [done|]. apply E. by right.
Qed.

Lemma typed_events_accepted_witness :
  is_Some (safeProductEvent (MOBILE_PLATFORM (js "ios")) voice_draft_restored
             [(js "surface", VString (js "thread"))]).
Proof.
  apply (typed_events_accepted MobileApp).
  - apply NoDup_singleton.
  - intros f Hf. apply list_elem_of_singleton in Hf as ->. left. eexists. split; [by left|].
    apply has_true. vm_compute. reflexivity.
  - intros f v Hf Hne _. apply list_elem_of_singleton in Hf as ->. by destruct (Hne _ eq_refl).
Defined.

(** A language that starts with a hyphen or an underscore is kept by [analyticsLanguage],
    and the event that reports it is not sent. *)
Lemma underscore_language_dropped :
  analyticsLanguage (Some (js " _Ruby ")) = js "_ruby"
  ∧ safeProductEvent (js "web") code_block_copied
      [(js "surface", VString (js "message"));
       (js "language", VString (analyticsLanguage (Some (js " _Ruby "))))] = None.
Proof. vm_compute. done. Qed.
