(* ===== verification/CodeRunner.v ===== *)
(** * Running the student's code in the browser

    - [Config]: [web/src/lib/codeRunner.ts];
    - [Worker]: [web/src/components/shared/codeRunner.worker.ts], what the worker posts
      for a request; the two virtual machines are arguments;
    - [Panel]: [CodeRunner] of [web/src/components/shared/CodeRunner.tsx], a machine whose
      events are clicks, messages and errors of the workers, and timers. *)

From S2P Require Import Prelude Json.

(** ** Configuration *)

Module Config.

Definition CODE_RUNNER_TIMEOUT_MS : Z := 3000.

Inductive CodeRunnerLanguage := ruby | javascript.

#[export] Instance CodeRunnerLanguage_eq : EqDecision CodeRunnerLanguage.
Proof. solve_decision. Defined.

Definition language_name (l : CodeRunnerLanguage) : str :=
  match l with ruby => js "ruby" | javascript => js "javascript" end.

(** The language of a configuration is read from JSON and only compared as a string. *)
Record CodeRunnerConfig := { enabled : bool; language : json }.

Definition isRunnableLanguage (l : str) : bool := eqs l (js "ruby") || eqs l (js "javascript").

Definition codeRunnerLanguageFromEditor (l : str) : option CodeRunnerLanguage :=
  if eqs l (js "ruby") then Some ruby
  else if eqs l (js "javascript") || eqs l (js "typescript") then Some javascript
  else None.

(** [Boolean(v)] *)
Definition to_boolean (v : option json) : bool :=
  match v with
  | None | Some JNull => false
  | Some (JBool b) => b
  | Some (JNum n) => negb (n =? 0)
  | Some (JStr s) => truthy s
  | Some (JArr _) | Some (JObj _) => true
  end.

(** [String(v)]; an array is its elements joined by commas, [null] there being empty. *)
Fixpoint to_string (v : json) : str :=
  match v with
  | JNull => js "null"
  | JBool b => js (if b then "true" else "false")
  | JNum n => str_of_Z n
  | JStr s => s
  | JArr l => join (js ",") (map (λ x, match x with JNull => [] | _ => to_string x end) l)
  | JObj _ => js "[object Object]"
  end.

Definition is_object (v : option json) : bool :=
  match v with Some (JObj _) | Some (JArr _) => true | _ => false end.

Definition disabled (fallback : CodeRunnerLanguage) : CodeRunnerConfig :=
  {| enabled := false; language := JStr (language_name fallback) |}.

Definition normalizeCodeRunnerConfig (config : option json) (fallback : CodeRunnerLanguage)
    : CodeRunnerConfig :=
  if negb (is_object config) then disabled fallback
  else
    let runner := config ≫= get (js "runner") in
    if negb (is_object runner) then disabled fallback
    else
      let l := runner ≫= get (js "language") in
      {| enabled := to_boolean (runner ≫= get (js "enabled"));
         language :=
           match l with
           | Some v => if isRunnableLanguage (to_string v) then v
                       else JStr (language_name fallback)
           | None => JStr (language_name fallback)
           end |}.

(** [{ ...o, key: v }] *)
Definition with_member (o : list (str * json)) (k : str) (v : json) : list (str * json) :=
  if existsb (λ kv, eqs kv.1 k) o
  then map (λ kv, if eqs kv.1 k then (k, v) else kv) o
  else o ++ [(k, v)].

Definition buildSubmissionConfigWithRunner (existing : option (list (str * json)))
    (runner : CodeRunnerConfig) : json :=
  JObj (with_member (default [] existing) (js "runner")
          (JObj [(js "enabled", JBool (enabled runner)); (js "language", language runner)])).

Lemma get_with_member o k v : get k (JObj (with_member o k v)) = Some v.
Proof.
  unfold get, with_member. destruct (existsb _ o) eqn:E.
  - assert (∀ acc, (existsb (λ kv, eqs kv.1 k) o = true ∨ acc = Some v) →
      foldl (λ acc '(k', v'), if eqs k' k then Some v' else acc) acc
        (map (λ kv, if eqs kv.1 k then (k, v) else kv) o) = Some v) as H; [|by apply H; left].
    clear E. induction o as [|[a b] o IH]; intros acc H; simpl.
    + by destruct H.
    + simpl in H. destruct (eqs a k) eqn:Ea.
      * apply IH. right. by rewrite eqs_refl.
      * rewrite Ea. apply IH. by destruct H; [left|right].
  - rewrite foldl_app. simpl. by rewrite eqs_refl.
Qed.

(** Runner settings survive being saved: a lesson's runner settings, written into its
    submission configuration, are read back as they were, whatever else the configuration
    holds, and the rest of the configuration is kept; and whatever was stored, the
    settings read from it name a language the runner has or a list whose text is one. *)
Theorem runner_config_roundtrip (existing : option (list (str * json))) (on : bool)
    (l fallback : CodeRunnerLanguage) (config : option json) (key : str)
    (Hkey : key ≠ js "runner") :
  let runner := {| enabled := on; language := JStr (language_name l) |} in
  normalizeCodeRunnerConfig (Some (buildSubmissionConfigWithRunner existing runner)) fallback = runner
  ∧ get key (buildSubmissionConfigWithRunner existing runner) = get key (JObj (default [] existing))
  ∧ isRunnableLanguage (to_string (language (normalizeCodeRunnerConfig config fallback))) = true.
Proof.
  intros runner. split; [|split].
  - unfold normalizeCodeRunnerConfig. unfold buildSubmissionConfigWithRunner at 1. cbn [is_object negb].
    unfold buildSubmissionConfigWithRunner. cbn [mbind option_bind]. rewrite get_with_member.
    by destruct on, l, fallback.
  - unfold buildSubmissionConfigWithRunner, with_member. unfold get.
    destruct (existsb _ _).
    + generalize (@None json). induction (default [] existing) as [|[a b] o IH]; intros acc; [done|].
      cbn [map foldl fst]. destruct (eqs a (js "runner")) eqn:E.
      * apply eqs_true in E as ->. rewrite (proj2 (eqs_false (js "runner") key)) by done. apply IH.
      * apply IH.
    + rewrite foldl_app. cbn [foldl]. by rewrite (proj2 (eqs_false (js "runner") key)).
  - assert (∀ f, isRunnableLanguage (to_string (JStr (language_name f))) = true) as Hf by by intros [].
    unfold normalizeCodeRunnerConfig. destruct (is_object config); [|apply Hf]. cbn [negb].
    destruct (is_object (config ≫= get (js "runner"))); [|apply Hf]. cbn [negb language].
    destruct (_ ≫= get (js "language")) as [v|]; [|apply Hf].
    destruct (isRunnableLanguage (to_string v)) eqn:E; [done|apply Hf].
Qed.

Lemma runner_config_roundtrip_witness :
  get (js "min") (buildSubmissionConfigWithRunner (Some [(js "min", JNum 3)])
    {| enabled := true; language := JStr (js "ruby") |}) = Some (JNum 3).
Proof.
  destruct (runner_config_roundtrip (Some [(js "min", JNum 3)]) true ruby javascript None (js "min"))
    as (_ & H & _); [done|]. exact H.
Defined.

(** A list of one language passes for the language. *)
Lemma language_list_accepted :
  language (normalizeCodeRunnerConfig
    (Some (JObj [(js "runner", JObj [(js "language", JArr [JStr (js "javascript")])])])) ruby)
  = JArr [JStr (js "javascript")].
Proof. reflexivity. Qed.

End Config.

(** ** The worker *)

Module Worker.

Inductive message :=
| Started (id : nat)
| Result (id : nat) (stdout stderr : str).

(** A value dumped by QuickJS: a string, [undefined], a value [JSON.stringify] writes, or
    one it refuses, with [String(value)]. *)
Inductive dumped := DString (s : str) | DUndefined | DJson (j : json) | DOpaque (text : str).

Definition stringifyQuickJsValue (v : dumped) : str :=
  match v with
  | DString s => s
  | DUndefined => js "undefined"
  | DJson j => print j
  | DOpaque text => text
  end.

Definition line_of (values : list dumped) : str :=
  join (js " ") (map stringifyQuickJsValue values) ++ [LF].

(** What evaluating a program did: its console calls, in order, and its error. *)
Inductive console_call := Out (values : list dumped) | Err (values : list dumped).
Record js_outcome := { calls : list console_call; uncaught : option dumped }.

Definition out_lines (l : list console_call) : list str :=
  omap (λ c, match c with Out v => Some (line_of v) | Err _ => None end) l.
Definition err_lines (l : list console_call) : list str :=
  omap (λ c, match c with Err v => Some (line_of v) | Out _ => None end) l.

(** The output of [runJavaScript]. *)
Definition javascript_output (o : js_outcome) : str * str :=
  (concat (out_lines (calls o)),
   concat (err_lines (calls o)
           ++ match uncaught o with
              | Some e => [stringifyQuickJsValue e ++ [LF]]
              | None => []
              end)).

(** [captureRubyOutput] *)
Definition ruby_line (args : list str) : str :=
  let text := join (js " ") args in if endsWith text [LF] then text else text ++ [LF].

Record ruby_outcome := {
  prints : list (bool * list str);           (* is it on [console.warn], and the arguments *)
  raised : option str;
}.

Definition ruby_output (o : ruby_outcome) : str * str :=
  (concat (map (λ p, ruby_line p.2) (filter (λ p, p.1 = false) (prints o))),
   concat (map (λ p, ruby_line p.2) (filter (λ p, p.1 = true) (prints o))
           ++ match raised o with Some m => [ruby_line [m]] | None => [] end)).

(** How a run ends: its machine could not be loaded or set up, it failed after it had
    said that it started, or the program was evaluated. *)
Inductive attempt (O : Type) := NotStarted (error : str) | Crashed (error : str) | Evaluated (o : O).
Arguments NotStarted {O}.
Arguments Crashed {O}.
Arguments Evaluated {O}.

Inductive run := RunRuby (a : attempt ruby_outcome) | RunJavaScript (a : attempt js_outcome).

Definition post {O} (id : nat) (output : O → str * str) (a : attempt O) : list message :=
  match a with
  | NotStarted e => [Result id [] e]
  | Crashed e => [Started id; Result id [] e]
  | Evaluated o => [Started id; Result id (output o).1 (output o).2]
  end.

(** [self.onmessage] *)
Definition onmessage (id : nat) (r : run) : list message :=
  match r with
  | RunRuby a => post id ruby_output a
  | RunJavaScript a => post id javascript_output a
  end.

Definition id_of (m : message) : nat := match m with Started i => i | Result i _ _ => i end.

End Worker.

(** ** The panel *)

Module Panel.
Import Worker.

Inductive status := idle | running | success | error | timeout.

#[export] Instance status_eq : EqDecision status.
Proof. solve_decision. Defined.

(** [RunState], with the run whose result it shows. *)
Record RunState := {
  st : status;
  stdout : str;
  stderr : str;
  durationMs : option Z;
  shown : option nat;
}.

Definition EMPTY_STATE : RunState :=
  {| st := idle; stdout := []; stderr := []; durationMs := None; shown := None |}.

(** The timer of a run: until it starts, and until it ends. *)
Inductive timer := StartTimer (delay : Z) | RunTimer (delay : Z).

Definition delay_of (t : timer) : Z := match t with StartTimer d => d | RunTimer d => d end.

(** The refs, and the world they speak of: the workers and timers that are alive. A timer
    and a worker have a number; [onerror] is the run the worker's handlers were made for. *)
Record Panel := {
  runState : RunState;
  workerRef : option nat;
  timeoutRef : option nat;
  runIdRef : option nat;
  workers : list (nat * nat);              (* worker, run of its handlers *)
  timers : list (nat * timer);
  posted : list (nat * nat);               (* worker, run: the requests *)
  next : nat;                              (* runs, workers and timers made so far *)
  mounted : bool;
}.

Definition init : Panel :=
  {| runState := EMPTY_STATE; workerRef := None; timeoutRef := None; runIdRef := None;
     workers := []; timers := []; posted := []; next := 0; mounted := true |}.

Definition set_state (s : RunState) (p : Panel) : Panel :=
  {| runState := s; workerRef := workerRef p; timeoutRef := timeoutRef p; runIdRef := runIdRef p;
     workers := workers p; timers := timers p; posted := posted p; next := next p; mounted := mounted p |}.

Definition clearTimeout (p : Panel) : Panel :=
  {| runState := runState p; workerRef := workerRef p; timeoutRef := None; runIdRef := runIdRef p;
     workers := workers p;
     timers := match timeoutRef p with
               | Some t => filter (λ x, x.1 ≠ t) (timers p)
               | None => timers p
               end;
     posted := posted p; next := next p; mounted := mounted p |}.

Definition terminate (p : Panel) : Panel :=
  {| runState := runState p; workerRef := None; timeoutRef := timeoutRef p; runIdRef := runIdRef p;
     workers := match workerRef p with
                | Some w => filter (λ x, x.1 ≠ w) (workers p)
                | None => workers p
                end;
     timers := timers p; posted := posted p; next := next p; mounted := mounted p |}.

Definition forget_run (p : Panel) : Panel :=
  {| runState := runState p; workerRef := workerRef p; timeoutRef := timeoutRef p; runIdRef := None;
     workers := workers p; timers := timers p; posted := posted p; next := next p; mounted := mounted p |}.

Definition stopWorker (p : Panel) : Panel := forget_run (terminate (clearTimeout p)).

(** [timeoutRef.current = setTimeout(...)] *)
Definition setTimeout (t : timer) (p : Panel) : Panel :=
  {| runState := runState p; workerRef := workerRef p; timeoutRef := Some (next p);
     runIdRef := runIdRef p; workers := workers p; timers := (next p, t) :: timers p;
     posted := posted p; next := S (next p); mounted := mounted p |}.

(** [workerRef.current || new Worker(...)], its handlers, and the request. *)
Definition start_run (p : Panel) : Panel :=
  let run := next p in
  let '(w, ws, n) := match workerRef p with
                     | Some w => (w, map (λ x, if bool_decide (x.1 = w) then (w, run) else x) (workers p), S run)
                     | None => (S run, (S run, run) :: workers p, S (S run))
                     end in
  {| runState := {| st := running; stdout := []; stderr := []; durationMs := None; shown := None |};
     workerRef := Some w; timeoutRef := timeoutRef p; runIdRef := Some run;
     workers := ws; timers := timers p; posted := (w, run) :: posted p; next := n; mounted := mounted p |}.

Definition is_running (p : Panel) : bool := bool_decide (st (runState p) = running).

Definition handleRun (p : Panel) : Panel :=
  setTimeout (StartTimer 30000) (start_run (if is_running p then stopWorker p else p)).

Definition handleStop (p : Panel) : Panel :=
  let p1 := stopWorker p in
  let s := runState p1 in
  set_state {| st := timeout; stdout := stdout s; stderr := str_or (stderr s) (js "Execution stopped.");
               durationMs := durationMs s; shown := shown s |} p1.

(** A timer fires: it is gone, and its callback runs. *)
Definition timed_out (limit : Z) (t : timer) (elapsed : Z) (p : Panel) : Panel :=
  set_state {| st := timeout; stdout := [];
               stderr := match t with
                         | StartTimer _ => js "Code runner did not start in time."
                         | RunTimer _ =>
                             js "Execution stopped after " ++ str_of_Z limit ++ js "ms."
                         end;
               durationMs := Some elapsed; shown := None |} (stopWorker p).

Definition drop_timer (i : nat) (p : Panel) : Panel :=
  {| runState := runState p; workerRef := workerRef p; timeoutRef := timeoutRef p;
     runIdRef := runIdRef p; workers := workers p; timers := filter (λ x, x.1 ≠ i) (timers p);
     posted := posted p; next := next p; mounted := mounted p |}.

(** [worker.onmessage] *)
Definition onmessage (limit : Z) (m : message) (dur : Z) (p : Panel) : Panel :=
  if negb (bool_decide (runIdRef p = Some (id_of m))) then p
  else match m with
       | Started _ => setTimeout (RunTimer (limit + 250)) (clearTimeout p)
       | Result i out err =>
           let hasError := truthy (trim err) in
           set_state {| st := if hasError then error else success; stdout := out; stderr := err;
                        durationMs := Some dur; shown := Some i |}
             (forget_run (clearTimeout p))
       end.

(** [worker.onerror] of a worker whose handlers were made for [run] *)
Definition onerror (run : nat) (msg : str) (elapsed : Z) (p : Panel) : Panel :=
  if negb (bool_decide (runIdRef p = Some run)) then p
  else set_state {| st := error; stdout := []; stderr := str_or msg (js "Code runner failed to start.");
                    durationMs := Some elapsed; shown := None |}
         (forget_run (terminate (clearTimeout p))).

Definition unmounted (p : Panel) : Panel :=
  {| runState := runState p; workerRef := workerRef p; timeoutRef := timeoutRef p;
     runIdRef := runIdRef p; workers := workers p; timers := timers p; posted := posted p;
     next := next p; mounted := false |}.

Inductive event :=
| Run | Stop
| Fires (i : nat) (elapsed : Z)                       (* the timer [i] *)
| Message (w : nat) (m : message) (dur : Z)           (* posted by the worker [w] *)
| WorkerError (w : nat) (msg : str) (elapsed : Z)
| Unmount.

(** What can happen: timers and workers that are gone do nothing, and a worker answers
    the requests it was sent. *)
Definition enabled (e : event) (p : Panel) : bool :=
  mounted p &&
  match e with
  | Fires i _ => existsb (λ x, bool_decide (x.1 = i)) (timers p)
  | Message w m _ => existsb (λ x, bool_decide (x.1 = w)) (workers p)
                     && existsb (λ x, bool_decide (x = (w, id_of m))) (posted p)
  | WorkerError w _ _ => existsb (λ x, bool_decide (x.1 = w)) (workers p)
  | _ => true
  end.

Definition lookup {A} (i : nat) (l : list (nat * A)) : option A :=
  snd <$> find (λ x, bool_decide (x.1 = i)) l.

Definition step (limit : Z) (e : event) (p : Panel) : Panel :=
  match e with
  | Run => handleRun p
  | Stop => handleStop p
  | Fires i elapsed =>
      match lookup i (timers p) with
      | Some t => timed_out limit t elapsed (drop_timer i p)
      | None => p
      end
  | Message w m dur => onmessage limit m dur p
  | WorkerError w msg elapsed =>
      match lookup w (workers p) with
      | Some run => onerror run msg elapsed p
      | None => p
      end
  | Unmount => unmounted (stopWorker p)
  end.

Inductive reachable (limit : Z) : Panel → Prop :=
| reach_init : reachable limit init
| reach_step p e : reachable limit p → enabled e p = true → reachable limit (step limit e p).

(** *** Invariant *)

(** The run that was asked for last. *)
Definition last_run (p : Panel) : option nat := snd <$> head (posted p).

(** A worker is alive only if it is the panel's, a timer only if it is the panel's and
    only during a run; and what is shown is the last run's. *)
Inductive panel_ok (p : Panel) : Prop :=
| ok_quiet :
    (workers p = [] ∧ workerRef p = None ∨ ∃ w run, workers p = [(w, run)] ∧ workerRef p = Some w) →
    timers p = [] → timeoutRef p = None → runIdRef p = None →
    (mounted p = true → st (runState p) ≠ running) →
    (∀ i, shown (runState p) = Some i → last_run p = Some i) →
    panel_ok p
| ok_busy w run t d :
    workers p = [(w, run)] → workerRef p = Some w →
    timers p = [(t, d)] → timeoutRef p = Some t → runIdRef p = Some run →
    last_run p = Some run → st (runState p) = running → shown (runState p) = None →
    panel_ok p.

Lemma filter_self {A} (i : nat) (x : A) : filter (λ y, y.1 ≠ i) [(i, x)] = [].
Proof. rewrite filter_cons_False; [done|]. simpl. auto. Qed.

(** [stopWorker] leaves nothing alive. *)
Lemma stopWorker_spec p :
  panel_ok p →
  workers (stopWorker p) = [] ∧ workerRef (stopWorker p) = None ∧ timers (stopWorker p) = []
  ∧ timeoutRef (stopWorker p) = None ∧ runIdRef (stopWorker p) = None
  ∧ runState (stopWorker p) = runState p ∧ posted (stopWorker p) = posted p
  ∧ mounted (stopWorker p) = mounted p.
Proof.
  intros [[[H1 H2]|(w & run & H1 & H2)] H3 H4 H5|w run t d H1 H2 H3 H4 H5]; cbn;
    rewrite H1, H2, H3, H4, ?filter_self; auto 10.
Qed.

Lemma stopped_ok p s :
  panel_ok p → st s ≠ running → (∀ i, shown s = Some i → last_run p = Some i) →
  panel_ok (set_state s (stopWorker p)).
Proof.
  intros H Hs Hl. destruct (stopWorker_spec p H) as (H1 & H2 & H3 & H4 & H5 & H6 & H7 & _).
  apply ok_quiet; cbn [workers workerRef timers timeoutRef runIdRef runState set_state mounted]; auto.
Qed.

Lemma shown_last p i : panel_ok p → shown (runState p) = Some i → last_run p = Some i.
Proof. intros [] ?; [auto|congruence]. Qed.

Lemma handleRun_ok p : panel_ok p → panel_ok (handleRun p).
Proof.
  intros H. unfold handleRun.
  assert (∃ q, (if is_running p then stopWorker p else p) = q
    ∧ timers q = [] ∧ (workers q = [] ∧ workerRef q = None
       ∨ ∃ w run, workers q = [(w, run)] ∧ workerRef q = Some w)) as (q & -> & Ht & Hw).
  { unfold is_running. case_bool_decide as E.
    - destruct (stopWorker_spec p H) as (H1 & H2 & H3 & _). eauto 10.
    - exists p. split; [done|]. destruct H; [auto|congruence]. }
  destruct Hw as [[H1 H2]|(w & run & H1 & H2)]; unfold start_run; rewrite H2; cbn.
  - eapply ok_busy; cbn; rewrite ?H1, ?Ht; reflexivity.
  - rewrite H1. cbn. rewrite bool_decide_eq_true_2 by done.
    eapply ok_busy; cbn; rewrite ?Ht; reflexivity.
Qed.

Lemma onmessage_ok limit m dur p : panel_ok p → panel_ok (onmessage limit m dur p).
Proof.
  intros H. unfold onmessage. case_bool_decide as E; [cbn [negb]|done].
  destruct H as [? ? ? ? ? ?|w run t d H1 H2 H3 H4 H5 H6 H7 H8]; [congruence|].
  rewrite H5 in E. injection E as E.
  destruct m as [i|i out err]; cbn in E; subst i.
  - eapply ok_busy; cbn; rewrite ?H3, ?H4, ?filter_self; try eassumption; reflexivity.
  - apply ok_quiet; cbn; rewrite ?H4, ?H3, ?filter_self; try done.
    + right. eauto.
    + intros _. by destruct (truthy (trim err)).
    + intros i [= <-]. exact H6.
Qed.

Lemma onerror_ok run msg elapsed p : panel_ok p → panel_ok (onerror run msg elapsed p).
Proof.
  intros H. unfold onerror. case_bool_decide as E; [cbn [negb]|done].
  change (forget_run (terminate (clearTimeout p))) with (stopWorker p). by apply stopped_ok.
Qed.

Lemma fires_ok limit i elapsed p : panel_ok p → panel_ok (step limit (Fires i elapsed) p).
Proof.
  intros H. cbn [step]. destruct (lookup i (timers p)) as [t|] eqn:E; [|done].
  destruct H as [? H ? ? ? ?|w run t' d H1 H2 H3 H4 H5 H6 H7 H8]; [by rewrite H in E|].
  rewrite H3 in E. unfold lookup in E. cbn in E. case_bool_decide as Ei; [|done]. subst i.
  unfold timed_out, stopWorker.
  apply ok_quiet; cbn; rewrite ?H1, ?H2, ?H3, ?H4, ?filter_self; try done; auto.
Qed.

Lemma reachable_ok limit p : reachable limit p → panel_ok p.
Proof.
  induction 1 as [|p e _ H He].
  { apply ok_quiet; cbn; auto; done. }
  destruct e as [| |i el|w m dur|w msg el|].
  - by apply handleRun_ok.
  - cbn [step]. unfold handleStop. apply stopped_ok; [done|done|]. cbn.
    intros i Hi. by apply shown_last.
  - by apply fires_ok.
  - by apply onmessage_ok.
  - cbn [step]. destruct (lookup w (workers p)); [by apply onerror_ok|done].
  - cbn [step]. destruct (stopWorker_spec p H) as (H1 & H2 & H3 & H4 & H5 & H6 & H7 & _).
    apply ok_quiet; cbn [unmounted workers workerRef timers timeoutRef runIdRef runState mounted]; auto; try done.
    intros i Hi. exact (shown_last p i H Hi).
Qed.

Lemma start_run_timers q : timers (start_run q) = timers q.
Proof. unfold start_run. by destruct (workerRef q). Qed.

(** The timer of a run is the one set when it was asked for, or when it started. *)
Lemma reachable_delay limit p i t :
  reachable limit p → (i, t) ∈ timers p → delay_of t = 30000 ∨ delay_of t = limit + 250.
Proof.
  intros H. revert i t. induction H as [|p e Hr IH He]; intros i t; [by rewrite elem_of_nil|].
  pose proof (reachable_ok limit p Hr) as Hok.
  destruct e as [| |j el|w m dur|w msg el|]; cbn [step].
  - unfold handleRun. cbn [timers setTimeout]. rewrite elem_of_cons. intros [[= -> ->]|Hin]; [by left|].
    apply (IH i). rewrite start_run_timers in Hin. destruct (is_running p); [|done].
    destruct (stopWorker_spec p Hok) as (_ & _ & T & _). rewrite T in Hin. by apply elem_of_nil in Hin.
  - unfold handleStop. cbn [timers set_state].
    destruct (stopWorker_spec p Hok) as (_ & _ & -> & _). by rewrite elem_of_nil.
  - destruct (lookup j (timers p)) eqn:E; [|apply IH]. unfold timed_out. cbn [timers set_state].
    destruct Hok as [? H ? ? ? ?|w run t' d H1 H2 H3 H4 H5 H6 H7 H8]; [by rewrite H in E|].
    cbn. rewrite H4, H3. destruct (decide (t' = j)) as [->|Hne].
    + rewrite filter_self. by rewrite elem_of_nil.
    + unfold lookup in E. rewrite H3 in E. cbn in E. case_bool_decide; [done|done].
  - unfold onmessage. case_bool_decide; [cbn [negb]|apply IH].
    destruct Hok as [? ? ? ? ? ?|w' run t' d H1 H2 H3 H4 H5 H6 H7 H8]; [congruence|].
    destruct m; cbn; rewrite H4, H3, filter_self; rewrite ?elem_of_nil; [|done].
    rewrite list_elem_of_singleton. intros [= -> ->]. by right.
  - destruct (lookup w (workers p)); [|apply IH]. unfold onerror.
    case_bool_decide; [cbn [negb]|apply IH]. cbn [timers set_state].
    change (forget_run (terminate (clearTimeout p))) with (stopWorker p).
    destruct (stopWorker_spec p Hok) as (_ & _ & -> & _). by rewrite elem_of_nil.
  - cbn [timers unmounted]. destruct (stopWorker_spec p Hok) as (_ & _ & -> & _). by rewrite elem_of_nil.
Qed.

(** C21: the code runner never hangs and never mixes runs up. In every reachable state at
    most one worker and at most one timer are alive, both the panel's own, and none are
    left when the panel is gone; a result that is shown is that of the run asked for
    last; and a run in progress always has a live timer, of 30 seconds until it starts
    and of the limit and a quarter of a second from then on, whose firing ends the run:
    the worker is terminated, and the panel says so. *)
Theorem code_runner_bounded (limit : Z) (p : Panel) (Hreach : reachable limit p) :
  (length (workers p) ≤ 1)%nat ∧ (length (timers p) ≤ 1)%nat
  ∧ (mounted p = false → timers p = [] ∧ runIdRef p = None)
  ∧ (∀ i, shown (runState p) = Some i → last_run p = Some i)
  ∧ (mounted p = true → st (runState p) = running →
     ∃ i t, timers p = [(i, t)] ∧ (delay_of t = 30000 ∨ delay_of t = limit + 250)
       ∧ enabled (Fires i (delay_of t)) p = true
       ∧ let q := step limit (Fires i (delay_of t)) p in
         st (runState q) = timeout ∧ workers q = [] ∧ timers q = [] ∧ runIdRef q = None).
Proof.
  pose proof (reachable_ok limit p Hreach) as H.
  split; [|split; [|split; [|split; [by intros; apply shown_last|]]]].
  - destruct H as [[[-> _]|(? & ? & -> & _)]|? ? ? ? ->]; simpl; lia.
  - destruct H as [? ->|? ? ? ? ? ? ->]; simpl; lia.
  - intros Hm. inversion Hreach as [E|q e Hq He E]; subst; [done|].
    pose proof (reachable_ok limit q Hq) as Hok. unfold enabled in He.
    apply andb_true_iff in He as [Hmq _].
    assert (e = Unmount) as ->.
    { destruct e; [| | | | |done]; exfalso; revert Hm.
      - cbn. unfold start_run. destruct (is_running q); destruct (workerRef _); cbn; congruence.
      - cbn. congruence.
      - cbn [step]. destruct (lookup i (timers q)); cbn; congruence.
      - cbn [step]. unfold onmessage. case_bool_decide; [|cbn; congruence]. destruct m; cbn; congruence.
      - cbn [step]. destruct (lookup w (workers q)); [|congruence].
        unfold onerror. case_bool_decide; cbn; congruence. }
    destruct (stopWorker_spec q Hok) as (_ & _ & H3 & _ & H5 & _). done.
  - intros Hm Hr. destruct H as [? ? ? ? H ?|w run t d H1 H2 H3 H4 H5 H6 H7 H8]; [by apply H in Hm|].
    exists t, d. split; [done|]. split; [apply (reachable_delay limit p t); [done|rewrite H3; by left]|].
    split.
    { unfold enabled. rewrite Hm, H3. cbn. by rewrite bool_decide_eq_true_2. }
    cbn [step]. unfold lookup. rewrite H3. cbn. rewrite bool_decide_eq_true_2 by done. cbn.
    rewrite H1, H2, H3, H4, !filter_self. done.
Qed.

(** The witness: two runs asked for in a row, the first of which answers too late. *)
Definition overtaken : Panel :=
  let p1 := step 3000 Run init in
  step 3000 Run p1.

Lemma code_runner_bounded_witness :
  (length (workers overtaken) ≤ 1)%nat ∧ st (runState overtaken) = running.
Proof.
  assert (reachable 3000 overtaken) as H.
  { apply (reach_step 3000 (step 3000 Run init) Run); [|done].
    apply (reach_step 3000 init Run); [constructor|done]. }
  split; [exact (proj1 (code_runner_bounded 3000 overtaken H))|reflexivity].
Defined.

End Panel.
