(* ===== verification/ContentBlock.v ===== *)
(** * A block of a lesson

    [ContentBlockRenderer] of [web/src/components/shared/ContentBlockRenderer.tsx]: what
    kind of work a block asks for, the draft of a submission, handing work in, marking a
    block complete, the knowledge check and the completion of embedded videos; and
    [detectLanguage] of [CodeEditor.tsx]. The calls of the API are recorded as requests
    whose answers are later events; toasts and analytics are not recorded. *)

From S2P Require Import Prelude Regex Json Learning CodeRunner.

(** ** The language of an exercise *)

Definition any_of (name : str) (l : list string) : bool := existsb (λ w, includes name (js w)) l.

Definition detectLanguageFromName (name : str) : option str :=
  if any_of name [".rb"; "ruby"; "rails"]%string then Some (js "ruby")
  else if any_of name [".py"; "python"]%string then Some (js "python")
  else if any_of name [".tsx"; ".ts"; "typescript"]%string then Some (js "typescript")
  else if any_of name [".jsx"]%string then Some (js "javascript")
  else if any_of name [".json"; "json"]%string then Some (js "json")
  else if any_of name [".js"; "javascript"]%string then Some (js "javascript")
  else if any_of name [".html"; "html"]%string then Some (js "html")
  else if any_of name [".css"; "css"]%string then Some (js "css")
  else if any_of name [".sql"; "sql"]%string then Some (js "sql")
  else if any_of name [".sh"; "bash"; "shell"]%string then Some (js "shell")
  else None.

Definition match_name (s : option str) : option str :=
  match s with
  | Some n => if truthy n then detectLanguageFromName (toLowerCase n) else None
  | None => None
  end.

Definition detectLanguage (filename hint : option str) : str :=
  match match_name filename with
  | Some l => l
  | None => default (js "ruby") (match_name hint)
  end.

(** ** Embedded videos *)

Definition id_char (c : ascii) : bool :=
  is_alnum c || bool_decide (c = "_"%char) || bool_decide (c = "-"%char).

(** [/(?:youtube\.com\/(?:watch\?v=|embed\/)|youtu\.be\/)([a-zA-Z0-9_-]+)/] *)
Definition YOUTUBE : matcher :=
  seq (alt (seq (lit (js "youtube.com/")) (alt (lit (js "watch?v=")) (lit (js "embed/"))))
           (lit (js "youtu.be/")))
      (group 1 (plus id_char)).

Definition getYouTubeId (url : str) : option str :=
  match exec YOUTUBE url with Some x => Some (cap 1 x.2) | None => None end.

(** [/vimeo\.com\/(\d+)(?:\/([a-zA-Z0-9]+))?/] *)
Definition VIMEO : matcher :=
  seq (lit (js "vimeo.com/"))
    (seq (group 1 (plus is_digit)) (opt (seq (lit (js "/")) (group 2 (plus is_alnum))))).

Definition getVimeoEmbed (url : str) : option (str * option str) :=
  match exec VIMEO url with
  | Some x => Some (cap 1 x.2, or_undefined (cap 2 x.2))
  | None => None
  end.

(** ** The block *)

Record BlockSubmission := {
  s_id : Z;
  s_text : option str;
  s_grade : option str;
  s_repo_url : option str;
  s_pr_url : option str;
  s_live_url : option str;
  s_branch : option str;
  s_commit_sha : option str;
  s_notes : option str;
}.

Record KnowledgeCheckAttempt := {
  selected_option : Z; correct : bool; attempt_correct_option : Z; attempt_explanation : str }.

Record KnowledgeCheck := {
  check_id : Z;
  attempt_count : Z;
  latest_attempt : option KnowledgeCheckAttempt;
  correct_option : option Z;
  explanation : option str;
}.

Record ContentBlock := {
  b_id : Z;
  block_type : str;
  video_url : option str;
  filename : option str;
  language_hint : option str;
  submission_type : option str;
  knowledge_check : option KnowledgeCheck;
  progress_status : option str;
  submissions : list BlockSubmission;      (* [block.submissions ?? []], newest first *)
}.

Record Props := {
  block : ContentBlock;
  isStaff : bool;
  requiresGithub : bool;
  requiresSubmission : bool;
  submissionsLocked : bool;
  submissionWeekNumber : option Z;
}.

Definition latestSubmission (b : ContentBlock) : option BlockSubmission := head (submissions b).
Definition redo_grade (g : option str) : bool := bool_decide (g = Some (js "R")).
Definition passing_grade (g : option str) : bool :=
  match g with Some g => negb (eqs g (js "R")) | None => false end.

Definition hasRedoRequest (b : ContentBlock) : bool :=
  match latestSubmission b with Some s => redo_grade (s_grade s) | None => false end.
Definition hasPassingGrade (b : ContentBlock) : bool :=
  existsb (λ s, passing_grade (s_grade s)) (submissions b).
Definition hasUngradedSubmission (b : ContentBlock) : bool :=
  negb (bool_decide (submissions b = [])) && negb (hasRedoRequest b) && negb (hasPassingGrade b).

Definition isExerciseType (b : ContentBlock) : bool :=
  eqs (block_type b) (js "exercise") || eqs (block_type b) (js "code_challenge").

Definition submissionType (p : Props) : str :=
  match submission_type (block p) with
  | Some t => if truthy t then t else
      if requiresSubmission p
      then js (if requiresGithub p then "prework_github_sync" else "text_submission")
      else js "manual_complete"
  | None =>
      if requiresSubmission p
      then js (if requiresGithub p then "prework_github_sync" else "text_submission")
      else js "manual_complete"
  end.

Definition uses (p : Props) (t : string) : bool :=
  isExerciseType (block p) && eqs (submissionType p) (js t).
Definition usesManualExerciseCompletion (p : Props) : bool := uses p "manual_complete".
Definition usesGithubSyncSubmission (p : Props) : bool := uses p "prework_github_sync".
Definition usesTextSubmission (p : Props) : bool := uses p "text_submission".
Definition usesRepoArtifactSubmission (p : Props) : bool :=
  uses p "repo_url_submission" || uses p "repo_and_live_url_submission".
Definition requiresLiveUrl (p : Props) : bool :=
  eqs (submissionType p) (js "repo_and_live_url_submission").

(** ** State *)

Record Draft := {
  submissionText : str;
  d_repoUrl : str;
  d_prUrl : str;
  d_liveUrl : str;
  branchName : str;
  d_commitSha : str;
  submissionNotes : str;
  showAdvancedRepoFields : bool;
}.

Inductive field := FText | FRepo | FPr | FLive | FBranch | FSha | FNotes.

Definition set_field (f : field) (v : str) (d : Draft) : Draft :=
  {| submissionText := if f is FText then v else submissionText d;
     d_repoUrl := if f is FRepo then v else d_repoUrl d;
     d_prUrl := if f is FPr then v else d_prUrl d;
     d_liveUrl := if f is FLive then v else d_liveUrl d;
     branchName := if f is FBranch then v else branchName d;
     d_commitSha := if f is FSha then v else d_commitSha d;
     submissionNotes := if f is FNotes then v else submissionNotes d;
     showAdvancedRepoFields := showAdvancedRepoFields d |}.

(** What is sent to the API. *)
Inductive request :=
| CreateSubmission (i : SubmissionInput)
| UpdateProgress (block_id : Z) (completed : bool)
| AttemptKnowledgeCheck (check : Z) (option : Z).

Record View := {
  isCompleted : bool;
  draft : Draft;
  hasEditedSubmissionDraft : bool;
  submitting : list bool;               (* the submissions in flight: was there an earlier one *)
  submissionError : option str;
  submissionSuccess : option str;
  toggles : list bool;                  (* the progress updates in flight: the status sent *)
  videoUpdates : nat;                   (* completions of embedded videos in flight *)
  knowledgeCheckDraft : option (Z * KnowledgeCheck);
  selectedCheckOption : option Z;
  checking : list Z;                    (* the answers in flight, with the block they are for *)
  checkError : option str;
  requests : list request;              (* latest first *)
}.

Definition isSubmitting (v : View) : bool := negb (bool_decide (submitting v = [])).

Definition knowledgeCheck (p : Props) (v : View) : option KnowledgeCheck :=
  match knowledgeCheckDraft v with
  | Some (i, k) => if i =? b_id (block p) then Some k else knowledge_check (block p)
  | None => knowledge_check (block p)
  end.

Definition workLocked (p : Props) (v : View) : bool :=
  submissionsLocked p
  && (isExerciseType (block p)
      || (eqs (block_type (block p)) (js "checkpoint")
          && bool_decide (knowledgeCheck p v = None))).

Definition completed_status (b : ContentBlock) : bool :=
  bool_decide (progress_status b = Some (js "completed")).

(** The draft that the latest submission fills in. *)
Definition draft_of (p : Props) : Draft :=
  let s := latestSubmission (block p) in
  let text_of (f : BlockSubmission → option str) (on : bool) : str :=
    if on then default [] (s ≫= f) else [] in
  let repo := usesRepoArtifactSubmission p in
  let given (f : BlockSubmission → option str) : bool := truthy (default [] (s ≫= f)) in
  {| submissionText := text_of s_text (usesTextSubmission p);
     d_repoUrl := text_of s_repo_url repo;
     d_prUrl := text_of s_pr_url repo;
     d_liveUrl := text_of s_live_url repo;
     branchName := text_of s_branch repo;
     d_commitSha := text_of s_commit_sha repo;
     submissionNotes := text_of s_notes repo;
     showAdvancedRepoFields :=
       repo && (given s_pr_url || given s_branch || given s_commit_sha || given s_notes
                || (negb (requiresLiveUrl p) && given s_live_url)) |}.

Definition set_draft (d : Draft) (edited : bool) (err ok : option str) (v : View) : View :=
  {| isCompleted := isCompleted v; draft := d; hasEditedSubmissionDraft := edited;
     submitting := submitting v; submissionError := err; submissionSuccess := ok;
     toggles := toggles v; videoUpdates := videoUpdates v;
     knowledgeCheckDraft := knowledgeCheckDraft v; selectedCheckOption := selectedCheckOption v;
     checking := checking v; checkError := checkError v; requests := requests v |}.

Definition set_submitting (l : list bool) (v : View) : View :=
  {| isCompleted := isCompleted v; draft := draft v;
     hasEditedSubmissionDraft := hasEditedSubmissionDraft v;
     submitting := l; submissionError := submissionError v; submissionSuccess := submissionSuccess v;
     toggles := toggles v; videoUpdates := videoUpdates v;
     knowledgeCheckDraft := knowledgeCheckDraft v; selectedCheckOption := selectedCheckOption v;
     checking := checking v; checkError := checkError v; requests := requests v |}.

Definition set_completed (b : bool) (ts : list bool) (n : nat) (v : View) : View :=
  {| isCompleted := b; draft := draft v; hasEditedSubmissionDraft := hasEditedSubmissionDraft v;
     submitting := submitting v; submissionError := submissionError v;
     submissionSuccess := submissionSuccess v; toggles := ts; videoUpdates := n;
     knowledgeCheckDraft := knowledgeCheckDraft v; selectedCheckOption := selectedCheckOption v;
     checking := checking v; checkError := checkError v; requests := requests v |}.

Definition set_check (k : option (Z * KnowledgeCheck)) (sel : option Z) (c : list Z)
    (e : option str) (v : View) : View :=
  {| isCompleted := isCompleted v; draft := draft v;
     hasEditedSubmissionDraft := hasEditedSubmissionDraft v;
     submitting := submitting v; submissionError := submissionError v;
     submissionSuccess := submissionSuccess v; toggles := toggles v; videoUpdates := videoUpdates v;
     knowledgeCheckDraft := k; selectedCheckOption := sel; checking := c; checkError := e;
     requests := requests v |}.

Definition send (r : request) (v : View) : View :=
  {| isCompleted := isCompleted v; draft := draft v;
     hasEditedSubmissionDraft := hasEditedSubmissionDraft v;
     submitting := submitting v; submissionError := submissionError v;
     submissionSuccess := submissionSuccess v; toggles := toggles v; videoUpdates := videoUpdates v;
     knowledgeCheckDraft := knowledgeCheckDraft v; selectedCheckOption := selectedCheckOption v;
     checking := checking v; checkError := checkError v; requests := r :: requests v |}.

(** ** Handlers *)

Definition handleDraftChange (f : field) (x : str) (v : View) : View :=
  set_draft (set_field f x (draft v)) true None None v.

(** The effect that fills the draft in, when one of its dependencies changed. *)
Definition fill_draft (p : Props) (v : View) : View :=
  if hasEditedSubmissionDraft v then v
  else set_draft (draft_of p) false (submissionError v) (submissionSuccess v) v.

(** The same block, for the effects that depend on it. *)
Definition same_submission (p q : Props) : bool :=
  bool_decide ((s_id <$> latestSubmission (block p)) = (s_id <$> latestSubmission (block q)))
  && eqb (requiresLiveUrl p) (requiresLiveUrl q)
  && eqb (usesRepoArtifactSubmission p) (usesRepoArtifactSubmission q)
  && eqb (usesTextSubmission p) (usesTextSubmission q).

(** New props: the effects, in the order of the code. *)
Definition refresh (p q : Props) (v : View) : View :=
  let changed := negb (b_id (block p) =? b_id (block q)) in
  let v1 := if changed || negb (bool_decide (progress_status (block p) = progress_status (block q)))
            then set_completed (completed_status (block q)) (toggles v) (videoUpdates v) v else v in
  let v2 := if changed || negb (same_submission p q) then fill_draft q v1 else v1 in
  if changed
  then fill_draft q (set_draft (draft v2) false None None v2)
  else v2.

(** [handleSubmit] up to its request. *)
Definition complete_input (p : Props) (d : Draft) : SubmissionInput :=
  let repo := usesRepoArtifactSubmission p in
  let opt_of (s : str) : option str := if repo then or_undefined (trim s) else None in
  {| content_block_id := b_id (block p);
     i_text := if usesTextSubmission p then Some (submissionText d) else None;
     repo_url := if repo then Some (trim (d_repoUrl d)) else None;
     live_url := opt_of (d_liveUrl d);
     pr_url := opt_of (d_prUrl d);
     i_branch := opt_of (branchName d);
     commit_sha := opt_of (d_commitSha d);
     i_notes := opt_of (submissionNotes d) |}.

Definition lockCopy (p : Props) : str :=
  match submissionWeekNumber p with
  | Some n => if n =? 0 then js "Submissions are closed"
              else js "Week " ++ str_of_Z n ++ js " submissions are closed"
  | None => js "Submissions are closed"
  end.

Definition refusal (p : Props) (v : View) : option str :=
  let d := draft v in
  if workLocked p v
  then Some (lockCopy p ++ js ". You can still review the lesson and existing feedback, but new submissions are disabled.")
  else if usesTextSubmission p && negb (truthy (trim (submissionText d)))
  then Some (js "Please enter your solution before submitting.")
  else if usesRepoArtifactSubmission p && negb (truthy (trim (d_repoUrl d)))
  then Some (js "Please provide a repository URL before submitting.")
  else if requiresLiveUrl p && negb (truthy (trim (d_liveUrl d)))
  then Some (js "Please provide a live URL before submitting.")
  else None.

Definition handleSubmit (p : Props) (v : View) : View :=
  match refusal p v with
  | Some e => set_draft (draft v) (hasEditedSubmissionDraft v) (Some e) None v
  | None =>
      send (CreateSubmission (complete_input p (draft v)))
        (set_submitting (submitting v ++ [bool_decide (is_Some (latestSubmission (block p)))])
           (set_draft (draft v) (hasEditedSubmissionDraft v) None None v))
  end.

(** The buttons that call it, for text and for links. *)
Definition submit_enabled (p : Props) (v : View) : bool :=
  let d := draft v in
  (usesTextSubmission p && negb (workLocked p v || isSubmitting v || negb (truthy (trim (submissionText d)))))
  || (usesRepoArtifactSubmission p
      && negb (workLocked p v || isSubmitting v || negb (truthy (trim (d_repoUrl d)))
               || (requiresLiveUrl p && negb (truthy (trim (d_liveUrl d)))))).

(** The answer to a submission: [None], or the error. *)
Definition submit_settled (p : Props) (answer : option str) (v : View) : View :=
  match submitting v with
  | [] => v
  | again :: r =>
      match answer with
      | Some e =>
          set_submitting r (set_draft (draft v) (hasEditedSubmissionDraft v) (Some e) (submissionSuccess v) v)
      | None =>
          let v1 := set_submitting r
            (set_draft (draft v) false (submissionError v)
               (Some (js (if again : bool then "Resubmission saved successfully."
                          else "Submission saved successfully."))) v) in
          if hasEditedSubmissionDraft v then fill_draft p v1 else v1
      end
  end.

Definition handleToggleComplete (p : Props) (v : View) : View :=
  if workLocked p v && negb (isCompleted v) then v
  else let newStatus := negb (isCompleted v) in
       send (UpdateProgress (b_id (block p)) newStatus)
         (set_completed (isCompleted v) (toggles v ++ [newStatus]) (videoUpdates v) v).

(** [setIsCompleted(!isCompleted)], the value of the render that made the request. *)
Definition toggle_settled (ok : bool) (v : View) : View :=
  match toggles v with
  | [] => v
  | s :: r => set_completed (if ok then s else isCompleted v) r (videoUpdates v) v
  end.

Definition markVideoCompleted (p : Props) (v : View) : View :=
  if isCompleted v then v
  else send (UpdateProgress (b_id (block p)) true)
         (set_completed (isCompleted v) (toggles v) (S (videoUpdates v)) v).

Definition video_settled (ok : bool) (v : View) : View :=
  match videoUpdates v with
  | O => v
  | S n => set_completed (ok || isCompleted v) (toggles v) n v
  end.

(** [handleMessage] of a YouTube player: [data] is a string or a value. *)
Definition youtube_completes (p : Props) (origin : str) (data : json) : bool :=
  let b := block p in
  (eqs (block_type b) (js "video") || eqs (block_type b) (js "recording"))
  && match video_url b with Some u => bool_decide (is_Some (getYouTubeId u)) | None => false end
  && eqs origin (js "https://www.youtube.com")
  && match (match data with JStr s => parse s | _ => Some data end) with
     | Some d =>
         match get (js "event") d with Some (JStr e) => eqs e (js "onStateChange") | _ => false end
         && match get (js "info") d with Some (JNum 0) => true | _ => false end
         && match get (js "id") d with
            | Some i => eqs (Config.to_string i) (str_of_Z (b_id b))
            | None => false
            end
     | None => false
     end.

Definition handleMessage (p : Props) (origin : str) (data : json) (v : View) : View :=
  if youtube_completes p origin data then markVideoCompleted p v else v.

(** [saveBlockProgress]'s answer, and [handleBlockCompleted]. *)
Definition block_completed (v : View) : View :=
  set_completed true (toggles v) (videoUpdates v) v.

Definition select_option (i : Z) (v : View) : View :=
  set_check (knowledgeCheckDraft v) (Some i) (checking v) None v.

Definition handleKnowledgeCheck (p : Props) (v : View) : View :=
  match knowledgeCheck p v, selectedCheckOption v with
  | Some k, Some sel =>
      match (if check_id k <? 0 then correct_option k else None) with
      | Some answer =>
          set_check
            (Some (b_id (block p),
                   {| check_id := check_id k; attempt_count := attempt_count k + 1;
                      latest_attempt :=
                        Some {| selected_option := sel; correct := sel =? answer;
                                attempt_correct_option := answer;
                                attempt_explanation := default [] (explanation k) |};
                      correct_option := correct_option k; explanation := explanation k |}))
            (selectedCheckOption v) (checking v) None v
      | None =>
          send (AttemptKnowledgeCheck (check_id k) sel)
            (set_check (knowledgeCheckDraft v) (selectedCheckOption v)
               (checking v ++ [b_id (block p)]) None v)
      end
  | _, _ => v
  end.

(** The answer: the error, or the check and whether the block is now complete. *)
Definition check_settled (answer : str + KnowledgeCheck * bool) (v : View) : View :=
  match checking v with
  | [] => v
  | i :: r =>
      match answer with
      | inl e => set_check (knowledgeCheckDraft v) (selectedCheckOption v) r
                   (Some (str_or e (js "Could not check this answer."))) v
      | inr (k, done) =>
          let v1 := set_check (Some (i, k)) (selectedCheckOption v) r (checkError v) v in
          if done : bool then block_completed v1 else v1
      end
  end.

(** The buttons: what is on the screen of a block. *)
Definition toggle_shown (p : Props) (v : View) : bool :=
  usesManualExerciseCompletion p
  || (negb (isExerciseType (block p)) && bool_decide (knowledgeCheck p v = None)).

Definition toggle_enabled (p : Props) (v : View) : bool :=
  toggle_shown p v && negb (workLocked p v && negb (isCompleted v)).

Definition answered_correctly (k : KnowledgeCheck) : bool :=
  match latest_attempt k with Some a => correct a | None => false end.

Definition check_enabled (p : Props) (v : View) : bool :=
  match knowledgeCheck p v with
  | Some k => negb (isStaff p) && negb (answered_correctly k)
              && negb (bool_decide (selectedCheckOption v = None) || negb (bool_decide (checking v = [])))
  | None => false
  end.

Definition option_enabled (p : Props) (v : View) : bool :=
  match knowledgeCheck p v with
  | Some k => negb (isStaff p || answered_correctly k)
  | None => false
  end.

Inductive event :=
| Edit (f : field) (x : str)
| Submit
| SubmitSettled (answer : option str)
| Toggle
| ToggleSettled (ok : bool)
| VimeoEnded
| YouTubeMessage (origin : str) (data : json)
| VideoSettled (ok : bool)
| BlockCompleted
| SelectOption (i : Z)
| CheckAnswer
| CheckSettled (answer : str + KnowledgeCheck * bool)
| Refresh (q : Props).

Definition step (e : event) (s : Props * View) : Props * View :=
  let '(p, v) := s in
  match e with
  | Edit f x => (p, if workLocked p v then v else handleDraftChange f x v)
  | Submit => (p, if submit_enabled p v then handleSubmit p v else v)
  | SubmitSettled a => (p, submit_settled p a v)
  | Toggle => (p, if toggle_enabled p v then handleToggleComplete p v else v)
  | ToggleSettled ok => (p, toggle_settled ok v)
  | VimeoEnded => (p, markVideoCompleted p v)
  | YouTubeMessage o d => (p, handleMessage p o d v)
  | VideoSettled ok => (p, video_settled ok v)
  | BlockCompleted => (p, block_completed v)
  | SelectOption i => (p, if option_enabled p v then select_option i v else v)
  | CheckAnswer => (p, if check_enabled p v then handleKnowledgeCheck p v else v)
  | CheckSettled a => (p, check_settled a v)
  | Refresh q => (q, refresh p q v)
  end.

Definition run (es : list event) (s : Props * View) : Props * View :=
  fold_left (λ s e, step e s) es s.

(** The first render and its effects. *)
Definition init (p : Props) : View :=
  {| isCompleted := completed_status (block p); draft := draft_of p;
     hasEditedSubmissionDraft := false; submitting := []; submissionError := None;
     submissionSuccess := None; toggles := []; videoUpdates := 0; knowledgeCheckDraft := None;
     selectedCheckOption := None; checking := []; checkError := None; requests := [] |}.

(** ** What may be sent *)

(** A submission that has what its type asks for, and nothing else. *)
Definition complete_for (p : Props) (i : SubmissionInput) : Prop :=
  content_block_id i = b_id (block p)
  ∧ (usesTextSubmission p = true →
     (∃ t, i_text i = Some t ∧ trim t ≠ []) ∧ repo_url i = None ∧ live_url i = None)
  ∧ (usesRepoArtifactSubmission p = true →
     i_text i = None ∧ (∃ u, repo_url i = Some u ∧ u ≠ [] ∧ trim u = u)
     ∧ (requiresLiveUrl p = true → ∃ u, live_url i = Some u ∧ u ≠ [] ∧ trim u = u))
  ∧ (∀ x, x ∈ [repo_url i; live_url i; pr_url i; i_branch i; commit_sha i; i_notes i] → x ≠ Some []).

Definition allowed (e : event) (p : Props) (v : View) (r : request) : Prop :=
  match r with
  | CreateSubmission i =>
      e = Submit ∧ workLocked p v = false ∧ submitting v = []
      ∧ (usesTextSubmission p = true ∨ usesRepoArtifactSubmission p = true) ∧ complete_for p i
  | UpdateProgress b done =>
      b = b_id (block p)
      ∧ (e = Toggle ∧ done = negb (isCompleted v) ∧ (done = true → workLocked p v = false)
         ∨ done = true ∧ isCompleted v = false
           ∧ (e = VimeoEnded ∨ ∃ d, e = YouTubeMessage (js "https://www.youtube.com") d))
  | AttemptKnowledgeCheck i sel =>
      e = CheckAnswer ∧ isStaff p = false ∧ checking v = [] ∧ selectedCheckOption v = Some sel
      ∧ (∃ k, knowledgeCheck p v = Some k ∧ check_id k = i ∧ answered_correctly k = false)
  end.

Lemma text_not_repo p : usesTextSubmission p = true → usesRepoArtifactSubmission p = false.
Proof.
  unfold usesTextSubmission, usesRepoArtifactSubmission, uses.
  intros [_ H%eqs_true]%andb_true_iff. rewrite H. by destruct (isExerciseType _).
Qed.

Lemma truthy_false s : truthy s = false ↔ s = [].
Proof. by destruct s. Qed.

Lemma not_undefined_blank s : or_undefined s ≠ Some [].
Proof. by destruct s. Qed.

Lemma submission_complete p v : refusal p v = None → complete_for p (complete_input p (draft v)).
Proof.
  unfold refusal. destruct (workLocked p v); [done|].
  destruct (usesTextSubmission p && negb (truthy (trim (submissionText (draft v))))) eqn:T; [done|].
  destruct (usesRepoArtifactSubmission p && negb (truthy (trim (d_repoUrl (draft v))))) eqn:R; [done|].
  destruct (requiresLiveUrl p && negb (truthy (trim (d_liveUrl (draft v))))) eqn:L; [done|]. intros _.
  split; [done|]. split; [|split].
  - intros Ht. rewrite Ht in T. cbn in T. apply negb_false_iff in T. cbn. rewrite Ht.
    rewrite (text_not_repo p Ht). split; [|done]. eexists. split; [done|]. intros E. by rewrite E in T.
  - intros Hr. rewrite Hr in R. cbn in R. apply negb_false_iff in R. cbn. rewrite Hr.
    destruct (usesTextSubmission p) eqn:Ht; [by rewrite (text_not_repo p Ht) in Hr|].
    split; [done|]. split.
    + eexists. split; [done|]. split; [by intros E; rewrite E in R|apply trim_idem].
    + intros Hl. rewrite Hl in L. cbn in L. apply negb_false_iff in L. unfold or_undefined. rewrite L.
      eexists. split; [done|]. split; [by intros E; rewrite E in L|apply trim_idem].
  - intros x. rewrite !elem_of_cons, elem_of_nil. cbn.
    destruct (usesRepoArtifactSubmission p) eqn:Hr; [|naive_solver].
    cbn in R. apply negb_false_iff in R.
    intros [-> |[-> |[-> |[-> |[-> |[-> |[]]]]]]]; try apply not_undefined_blank.
    intros [= E]. by rewrite E in R.
Qed.

Lemma fill_requests p v : requests (fill_draft p v) = requests v ∧ submitting (fill_draft p v) = submitting v.
Proof. unfold fill_draft. by destruct (hasEditedSubmissionDraft v). Qed.

Lemma refresh_requests p q v :
  requests (refresh p q v) = requests v ∧ submitting (refresh p q v) = submitting v.
Proof.
  unfold refresh. set (v1 := if _ : bool then set_completed _ _ _ v else v).
  assert (requests v1 = requests v ∧ submitting v1 = submitting v) as [E1 E2]
    by (subst v1; destruct (_ || _); done).
  set (v2 := if _ : bool then fill_draft q v1 else v1).
  assert (requests v2 = requests v ∧ submitting v2 = submitting v) as [F1 F2].
  { subst v2. destruct (_ || negb (same_submission p q)); [|done].
    by rewrite (proj1 (fill_requests q v1)), (proj2 (fill_requests q v1)). }
  destruct (negb _); [|done].
  rewrite (proj1 (fill_requests _ _)), (proj2 (fill_requests _ _)). done.
Qed.

Lemma submit_enabled_spec p v :
  submit_enabled p v = true →
  workLocked p v = false ∧ submitting v = []
  ∧ (usesTextSubmission p = true ∨ usesRepoArtifactSubmission p = true).
Proof.
  unfold submit_enabled, isSubmitting. destruct (workLocked p v); [by rewrite !andb_false_r|].
  case_bool_decide; [|by rewrite !andb_false_r].
  destruct (usesTextSubmission p); [auto|]. destruct (usesRepoArtifactSubmission p); [auto|done].
Qed.

(** The requests of a step. *)
Lemma step_requests e p v :
  ∃ new, requests (step e (p, v)).2 = new ++ requests v ∧ (length new ≤ 1)%nat
    ∧ Forall (allowed e p v) new.
Proof.
  assert (∀ w : View, requests w = requests v →
    ∃ new, requests w = new ++ requests v ∧ (length new ≤ 1)%nat ∧ Forall (allowed e p v) new) as Q.
  { intros w ->. exists []. split; [done|]. split; [simpl; lia|constructor]. }
  assert (∀ r, allowed e p v r →
    ∃ new, r :: requests v = new ++ requests v ∧ (length new ≤ 1)%nat ∧ Forall (allowed e p v) new) as N.
  { intros r Hr. exists [r]. split; [done|]. split; [simpl; lia|by constructor]. }
  destruct e as [f x| |a| |ok| |o d|ok| |i| |a|q]; cbn [step snd].
  - apply Q. by destruct (workLocked p v).
  - destruct (submit_enabled p v) eqn:E; [|by apply Q].
    unfold handleSubmit. destruct (refusal p v) eqn:R; [by apply Q|]. apply N.
    destruct (submit_enabled_spec p v E) as (H1 & H2 & H3).
    cbn. split; [done|]. split; [done|]. split; [done|]. split; [done|]. by apply submission_complete.
  - apply Q. unfold submit_settled. destruct (submitting v); [done|].
    destruct a; [done|]. destruct (hasEditedSubmissionDraft v); [|done].
    by rewrite (proj1 (fill_requests p _)).
  - destruct (toggle_enabled p v) eqn:E; [|by apply Q]. unfold handleToggleComplete.
    destruct (workLocked p v && negb (isCompleted v)) eqn:L; [by apply Q|]. apply N.
    cbn. split; [done|]. left. split; [done|]. split; [done|]. intros Hc. rewrite Hc in L.
    by rewrite andb_true_r in L.
  - apply Q. unfold toggle_settled. by destruct (toggles v).
  - unfold markVideoCompleted. destruct (isCompleted v) eqn:E; [by apply Q|]. apply N.
    cbn. split; [done|]. right. auto.
  - unfold handleMessage. destruct (youtube_completes p o d) eqn:Y; [|by apply Q].
    unfold markVideoCompleted. destruct (isCompleted v) eqn:E; [by apply Q|]. apply N.
    cbn. split; [done|]. right. split; [done|]. split; [done|]. right. exists d.
    unfold youtube_completes in Y. apply andb_true_iff in Y as [[_ Y%eqs_true]%andb_true_iff _].
    by rewrite Y.
  - apply Q. unfold video_settled. by destruct (videoUpdates v).
  - by apply Q.
  - apply Q. by destruct (option_enabled p v).
  - destruct (check_enabled p v) eqn:E; [|by apply Q]. unfold check_enabled in E.
    unfold handleKnowledgeCheck. destruct (knowledgeCheck p v) as [k|] eqn:K; [|done].
    destruct (selectedCheckOption v) as [sel|] eqn:S; [|by apply Q].
    destruct (if check_id k <? 0 then correct_option k else None) eqn:C; [by apply Q|]. apply N.
    apply andb_true_iff in E as [[E1%negb_true_iff E2%negb_true_iff]%andb_true_iff E3].
    apply negb_true_iff, orb_false_iff in E3 as [_ E3%negb_false_iff%bool_decide_eq_true].
    cbn. split_and!; try done. by exists k.
  - apply Q. unfold check_settled. destruct (checking v); [done|]. destruct a as [?|[k []]]; done.
  - apply Q. apply refresh_requests.
Qed.

Lemma step_submitting e p v : (length (submitting v) ≤ 1)%nat → (length (submitting (step e (p, v)).2) ≤ 1)%nat.
Proof.
  intros H. destruct e as [f x| |a| |ok| |o d|ok| |i| |a|q]; cbn [step snd].
  - by destruct (workLocked p v).
  - destruct (submit_enabled p v) eqn:E; [|done]. unfold handleSubmit. destruct (refusal p v); [done|].
    destruct (submit_enabled_spec p v E) as (_ & -> & _). simpl. lia.
  - unfold submit_settled. destruct (submitting v) as [|b l] eqn:E; [by rewrite E|]. simpl in H.
    destruct a; [simpl; lia|]. destruct (hasEditedSubmissionDraft v);
      rewrite ?(proj2 (fill_requests p _)); simpl; lia.
  - destruct (toggle_enabled p v); [|done]. unfold handleToggleComplete. by destruct (_ && _).
  - unfold toggle_settled. by destruct (toggles v).
  - unfold markVideoCompleted. by destruct (isCompleted v).
  - unfold handleMessage, markVideoCompleted. destruct (youtube_completes p o d); [|done]. by destruct (isCompleted v).
  - unfold video_settled. by destruct (videoUpdates v).
  - done.
  - by destruct (option_enabled p v).
  - destruct (check_enabled p v); [|done]. unfold handleKnowledgeCheck.
    destruct (knowledgeCheck p v); [|done]. destruct (selectedCheckOption v); [|done].
    by destruct (if check_id _ <? 0 then _ else None).
  - unfold check_settled. destruct (checking v); [done|]. destruct a as [?|[k []]]; done.
  - by rewrite (proj2 (refresh_requests p q v)).
Qed.

Lemma refresh_checking p q v : checking (refresh p q v) = checking v.
Proof.
  assert (F : ∀ q v, checking (fill_draft q v) = checking v) by (intros q' v'; unfold fill_draft; by destruct (hasEditedSubmissionDraft v')).
  unfold refresh. set (v1 := if _ : bool then set_completed _ _ _ v else v).
  assert (checking v1 = checking v) as E1 by (subst v1; by destruct (_ || _)).
  set (v2 := if _ : bool then fill_draft q v1 else v1).
  assert (checking v2 = checking v) as E2 by (subst v2; destruct (_ || negb (same_submission p q)); by rewrite ?F).
  destruct (negb _); [|done]. by rewrite F.
Qed.

Lemma step_checking e p v : (length (checking v) ≤ 1)%nat → (length (checking (step e (p, v)).2) ≤ 1)%nat.
Proof.
  assert (F : ∀ q v, checking (fill_draft q v) = checking v) by (intros q' v'; unfold fill_draft; by destruct (hasEditedSubmissionDraft v')).
  intros H. destruct e as [f x| |a| |ok| |o d|ok| |i| |a|q]; cbn [step snd].
  - by destruct (workLocked p v).
  - destruct (submit_enabled p v); [|done]. unfold handleSubmit. by destruct (refusal p v).
  - unfold submit_settled. destruct (submitting v); [done|]. destruct a; [done|]. destruct (hasEditedSubmissionDraft v); by rewrite ?F.
  - destruct (toggle_enabled p v); [|done]. unfold handleToggleComplete. by destruct (_ && _).
  - unfold toggle_settled. by destruct (toggles v).
  - unfold markVideoCompleted. by destruct (isCompleted v).
  - unfold handleMessage, markVideoCompleted. destruct (youtube_completes p o d); [|done]. by destruct (isCompleted v).
  - unfold video_settled. by destruct (videoUpdates v).
  - done.
  - by destruct (option_enabled p v).
  - destruct (check_enabled p v) eqn:E; [|done]. unfold check_enabled in E. unfold handleKnowledgeCheck.
    destruct (knowledgeCheck p v); [|done]. apply andb_true_iff in E as [_ E].
    apply negb_true_iff, orb_false_iff in E as [_ E%negb_false_iff%bool_decide_eq_true].
    destruct (selectedCheckOption v); [|done]. destruct (if check_id _ <? 0 then _ else None); [done|]. cbn. rewrite E. done.
  - unfold check_settled. destruct (checking v) as [|b l] eqn:E; [by rewrite E|]. cbn in H.
    destruct a as [?|[k []]]; cbn; lia.
  - by rewrite refresh_checking.
Qed.

(** Every request of a run, with the state and event it was made in. *)
Definition sends (e : event) (s : Props * View) (r : request) : Prop :=
  requests (step e s).2 = r :: requests s.2.

Lemma run_app es e s : run (es ++ [e]) s = step e (run es s).
Proof. unfold run. by rewrite fold_left_app. Qed.

Lemma run_submitting es p : (length (submitting (run es (p, init p)).2) ≤ 1)%nat.
Proof.
  induction es as [|e es IH] using rev_ind; [simpl; lia|]. rewrite run_app.
  destruct (run es (p, init p)) as [q v]. by apply step_submitting.
Qed.

Lemma run_checking es p : (length (checking (run es (p, init p)).2) ≤ 1)%nat.
Proof.
  induction es as [|e es IH] using rev_ind; [simpl; lia|]. rewrite run_app.
  destruct (run es (p, init p)) as [q v]. by apply step_checking.
Qed.


(** ** The draft *)

(** What leaves an edited draft alone: everything but the student's edits, the answer
    that the submission was saved, and another block. *)
Definition leaves_draft (e : event) (p : Props) : bool :=
  match e with
  | Edit _ _ => false
  | SubmitSettled None => false
  | Refresh q => b_id (block p) =? b_id (block q)
  | _ => true
  end.

Lemma edited_step e p v :
  hasEditedSubmissionDraft v = true → leaves_draft e p = true →
  draft (step e (p, v)).2 = draft v ∧ hasEditedSubmissionDraft (step e (p, v)).2 = true.
Proof.
  intros H L. destruct e as [f x| |a| |ok| |o d|ok| |i| |a|q]; cbn [step snd]; try done.
  - destruct (submit_enabled p v); [|done]. unfold handleSubmit. by destruct (refusal p v).
  - unfold submit_settled. destruct (submitting v); [done|]. by destruct a.
  - destruct (toggle_enabled p v); [|done]. unfold handleToggleComplete. by destruct (_ && _).
  - unfold toggle_settled. by destruct (toggles v).
  - unfold markVideoCompleted. by destruct (isCompleted v).
  - unfold handleMessage, markVideoCompleted. destruct (youtube_completes p o d); [|done]. by destruct (isCompleted v).
  - unfold video_settled. by destruct (videoUpdates v).
  - by destruct (option_enabled p v).
  - destruct (check_enabled p v); [|done]. unfold handleKnowledgeCheck.
    destruct (knowledgeCheck p v); [|done]. destruct (selectedCheckOption v); [|done].
    by destruct (if check_id _ <? 0 then _ else None).
  - unfold check_settled. destruct (checking v); [done|]. destruct a as [?|[k []]]; done.
  - cbn [leaves_draft] in L. unfold refresh. rewrite L. cbn [negb orb].
    set (v1 := if _ : bool then _ else v).
    assert (draft v1 = draft v ∧ hasEditedSubmissionDraft v1 = true) as [E1 E2]
      by (subst v1; destruct (negb _); done).
    unfold fill_draft. rewrite E2. by destruct (negb (same_submission p q)).
Qed.

Fixpoint all_leave (es : list event) (p : Props) : bool :=
  match es with
  | [] => true
  | e :: r => leaves_draft e p && all_leave r (match e with Refresh q => q | _ => p end)
  end.

Lemma step_props e p v : (step e (p, v)).1 = match e with Refresh q => q | _ => p end.
Proof. by destruct e. Qed.

Lemma edited_run es p v :
  hasEditedSubmissionDraft v = true → all_leave es p = true →
  draft (run es (p, v)).2 = draft v ∧ hasEditedSubmissionDraft (run es (p, v)).2 = true.
Proof.
  revert p v. induction es as [|e es IH]; intros p v H L; [done|].
  cbn [all_leave] in L. apply andb_true_iff in L as [L1 L2].
  destruct (edited_step e p v H L1) as [E1 E2].
  unfold run. cbn [fold_left]. fold (run es (step e (p, v))).
  pose proof (step_props e p v) as P. destruct (step e (p, v)) as [q w]. simpl in *. subst q.
  destruct (IH _ w E2 L2) as [-> ->]. done.
Qed.

(** What a student typed is not lost. Once a draft was edited, no refresh of the
    block from the server, no failed submission and no other event changes it, until it
    is edited again, saved, or another block is shown; when the block changes, or new
    data of the server arrives before the draft is edited, the draft is that of the
    latest submission; and a failed submission shows the error and can be sent again as
    it is. *)
Theorem draft_not_lost (p q : Props) (v : View) (es : list event) (f : field) (x error : str)
    (Hopen : workLocked p v = false) (Hes : all_leave es p = true) :
  draft (run (Edit f x :: es) (p, v)).2 = set_field f x (draft v)
  ∧ (b_id (block p) ≠ b_id (block q) → draft (refresh p q v) = draft_of q)
  ∧ (same_submission p q = false → hasEditedSubmissionDraft v = false →
     draft (refresh p q v) = draft_of q)
  ∧ (submitting v ≠ [] →
     draft (submit_settled p (Some error) v) = draft v
     ∧ submissionError (submit_settled p (Some error) v) = Some error).
Proof.
  split; [|split; [|split]].
  - unfold run. cbn [fold_left]. cbn [step]. rewrite Hopen.
    destruct (edited_run es p (handleDraftChange f x v)) as [E _]; [done|done|].
    unfold run in E. rewrite E. done.
  - intros Hne. unfold refresh. rewrite (proj2 (Z.eqb_neq _ _) Hne). cbn [negb orb].
    unfold fill_draft at 1. cbn. done.
  - intros Hs He. unfold refresh. rewrite Hs. destruct (b_id (block p) =? b_id (block q)); cbn [negb orb].
    + set (v1 := if _ : bool then _ else v).
      assert (hasEditedSubmissionDraft v1 = false) as E by (subst v1; destruct (negb _); done).
      unfold fill_draft. by rewrite E.
    + done.
  - intros H. unfold submit_settled. destruct (submitting v); done.
Qed.

(** The witness: a text exercise that is refreshed while the student writes. *)
Definition sample_block (status : option str) : ContentBlock :=
  {| b_id := 4; block_type := js "exercise"; video_url := None; filename := None;
     language_hint := None; submission_type := Some (js "text_submission"); knowledge_check := None;
     progress_status := status; submissions := [] |}.
Definition sample_props (status : option str) : Props :=
  {| block := sample_block status; isStaff := false; requiresGithub := false;
     requiresSubmission := true; submissionsLocked := false; submissionWeekNumber := None |}.

Lemma draft_not_lost_witness :
  let p := sample_props None in
  submissionText (draft (run [Edit FText (js "puts 1"); Submit; SubmitSettled (Some (js "offline"));
                               Refresh (sample_props (Some (js "completed")))] (p, init p)).2)
  = js "puts 1".
Proof.
  intros p. destruct (draft_not_lost p p (init p)
    [Submit; SubmitSettled (Some (js "offline")); Refresh (sample_props (Some (js "completed")))]
    FText (js "puts 1") []) as [H _]; [reflexivity|reflexivity|].
  change (submissionText (draft (run (Edit FText (js "puts 1") ::
    [Submit; SubmitSettled (Some (js "offline")); Refresh (sample_props (Some (js "completed")))])
    (p, init p)).2) = js "puts 1"). rewrite H. reflexivity.
Defined.

(** ** The badge of a block is one of three, or none *)

Lemma badges_exclusive b :
  (hasRedoRequest b = true → hasUngradedSubmission b = false)
  ∧ (hasUngradedSubmission b = true →
     hasPassingGrade b = false ∧ Forall (λ s, s_grade s = None ∨ s_grade s = Some (js "R")) (submissions b)).
Proof.
  unfold hasUngradedSubmission. split.
  - intros ->. by rewrite andb_false_r.
  - intros [_ H%negb_true_iff]%andb_true_iff. split; [done|]. unfold hasPassingGrade in H.
    apply Forall_forall. intros s Hs. destruct (s_grade s) as [g|] eqn:G; [|by left]. right.
    destruct (eqs g (js "R")) eqn:E; [by apply eqs_true in E as ->|].
    assert (existsb (λ s, passing_grade (s_grade s)) (submissions b) = true); [|congruence].
    apply existsb_exists. exists s. split; [by apply list_elem_of_In|]. unfold passing_grade. by rewrite G, E.
Qed.

(** ** The id of an embedded video holds no character that could leave the URL *)

Lemma search_matches m b r x :
  search m b r = Some x → ∃ b' r', m (RState b' r' []) Some = Some x.2.
Proof.
  revert b. induction r as [|c r IH]; intros b; simpl.
  - destruct (m (RState b [] []) Some) eqn:E; [|done]. intros [= <-]. eauto.
  - destruct (m (RState b (c :: r) []) Some) eqn:E; [|apply IH]. intros [= <-]. eauto.
Qed.

Lemma youtube_id_chars url i :
  getYouTubeId url = Some i → i ≠ [] ∧ Forall (λ c, id_char c = true) i.
Proof.
  unfold getYouTubeId, exec. destruct (search YOUTUBE [] url) as [x|] eqn:E; [|done]. intros [= <-].
  apply search_matches in E as (b & r & E).
  apply (re_sound _ _ (seq_spec _ _ _ _
    (alt_consumes _ _ _ _ (seq_consumes _ _ _ _ (lit_spec _) (alt_consumes _ _ _ _ (lit_spec _) (lit_spec _)))
       (lit_spec _)) (group_spec 1 _ _ (plus_spec id_char)))) in E as (s' & (t & H1 & (t' & H2 & ->)) & [= Hx]).
  destruct H2 as (w & [Hw Fw] & _ & Hb & _). rewrite <- Hx. unfold cap. simpl.
  by rewrite (consumed_word t t' w).
Qed.
