(* ===== verification/Grading.v ===== *)
(** * Grading

    - [Table]: the tables of [web/src/pages/admin/CohortModuleGrading.tsx], what the page
      computes from the data of the server;
    - [Review]: the same page as a machine: selecting, grading, the keyboard shortcuts,
      the confirmation and the automatic advance;
    - [Rubrics]: grading with a rubric in [Grading.tsx] and [SubmissionDetail.tsx], and the
      loading of [SubmissionDetail.tsx].

    [getTime] is [Date.parse], [None] for a date that cannot be read. *)

From S2P Require Import Prelude Json Learning CodeRunner ContentBlock.

Module Table.

Record StudentSummary := { s_user_id : Z; full_name : str }.

Record SubmissionItem := {
  id : Z;
  content_block_id : Z;
  user_id : Z;
  grade : option str;
  feedback : option str;
  created_at : str;
  filename : option str;
  submission_config : option json;
  language_hint : option str;
}.

Record ExerciseInfo := {
  e_id : Z;
  e_filename : option str;
  e_title : str;
  release_day : Z;
  lesson_title : str;
  requires_submission : bool;
}.

Record ProgressItem := { p_user_id : Z; p_content_block_id : Z; status : str }.

Record GradingData := {
  students : list StudentSummary;
  exercises : list ExerciseInfo;
  progresses : list ProgressItem;
  submissions : list SubmissionItem;
}.

Inductive QueueFilter := ungraded | redo | all.
Inductive ViewMode := Vstudents | Vqueue | Vgrid.

#[export] Instance ViewMode_eq : EqDecision ViewMode.
Proof. solve_decision. Defined.

Definition is_redo (g : option str) : bool := match g with Some s => eqs s (js "R") | None => false end.
Definition is_ungraded (g : option str) : bool := match g with Some _ => false | None => true end.

(** [${user}:${block}] *)
Definition cell_key (user block : Z) : str := str_of_Z user ++ js ":" ++ str_of_Z block.
Definition key_of (s : SubmissionItem) : str := cell_key (user_id s) (content_block_id s).

Record Counts := { c_ungraded : nat; c_redo : nat; c_all : nat }.

Definition counts (d : GradingData) : Counts :=
  {| c_ungraded := length (List.filter (λ s, is_ungraded (grade s)) (submissions d));
     c_redo := length (List.filter (λ s, is_redo (grade s)) (submissions d));
     c_all := length (submissions d) |}.

(** [if (!m.has(key)) m.set(key, value)] *)
Definition set_first {A} (key : A → str) (m : gmap str A) (a : A) : gmap str A :=
  match m !! key a with Some _ => m | None => <[key a := a]> m end.

Definition submissionLookup (d : GradingData) : gmap str SubmissionItem :=
  fold_left (set_first key_of) (submissions d) ∅.

(** The set of the first submission of each cell. *)
Definition latestSubmissionIds (d : GradingData) : list Z :=
  map (λ kv, id kv.2) (map_to_list (fold_left (set_first key_of) (submissions d) ∅)).

Definition progressLookup (d : GradingData) : gmap str ProgressItem :=
  fold_left (λ m p, <[cell_key (p_user_id p) (p_content_block_id p) := p]> m) (progresses d) ∅.

Definition week_of (e : ExerciseInfo) : Z := release_day e / 7 + 1.

(** [groups.get(week).push(ex)], the group being made if there is none. *)
Definition push_group (m : gmap Z (list ExerciseInfo)) (e : ExerciseInfo) : gmap Z (list ExerciseInfo) :=
  <[week_of e := default [] (m !! week_of e) ++ [e]]> m.

Definition weekGroups (d : GradingData) : list (Z * list ExerciseInfo) :=
  js_sort (λ a b, a.1 - b.1) (map_to_list (fold_left push_group (exercises d) ∅)).

Record ExerciseRow := {
  row_exercise : ExerciseInfo; row_submission : option SubmissionItem; row_progress : option ProgressItem }.

Definition selectedStudentExercises (d : GradingData) (student : option Z) : list ExerciseRow :=
  match student with
  | None => []
  | Some u =>
      if u =? 0 then []
      else map (λ e, {| row_exercise := e; row_submission := submissionLookup d !! cell_key u (e_id e);
                        row_progress := progressLookup d !! cell_key u (e_id e) |}) (exercises d)
  end.

(** The header of a week. *)
Definition sum_cells (d : GradingData) (p : StudentSummary → ExerciseInfo → bool) (es : list ExerciseInfo) : nat :=
  fold_left (λ acc e, (acc + length (List.filter (λ s, p s e) (students d)))%nat) es 0%nat.

Definition cell (d : GradingData) (s : StudentSummary) (e : ExerciseInfo) : option SubmissionItem :=
  submissionLookup d !! cell_key (s_user_id s) (e_id e).

Definition pending_cell (d : GradingData) (s : StudentSummary) (e : ExerciseInfo) : bool :=
  match cell d s e with Some x => is_ungraded (grade x) | None => false end.
Definition redo_cell (d : GradingData) (s : StudentSummary) (e : ExerciseInfo) : bool :=
  match cell d s e with Some x => is_redo (grade x) | None => false end.
Definition completed_cell (d : GradingData) (s : StudentSummary) (e : ExerciseInfo) : bool :=
  match cell d s e with
  | Some x => match grade x with Some g => truthy g && negb (eqs g (js "R")) | None => false end
  | None => false
  end
  || (negb (requires_submission e)
      && match progressLookup d !! cell_key (s_user_id s) (e_id e) with
         | Some p => eqs (status p) (js "completed")
         | None => false
         end).

Definition week_summary (d : GradingData) (es : list ExerciseInfo) : nat * nat * nat :=
  (sum_cells d (pending_cell d) es, sum_cells d (redo_cell d) es, sum_cells d (completed_cell d) es).

(** The look of a cell of the grid; [Graded] carries its label. *)
Inductive CellLook := Awaiting | RedoAsked | Graded (g : str) | DoneAlone | Started | NotDone | NotSubmitted.

Definition grid_cell (d : GradingData) (s : StudentSummary) (e : ExerciseInfo) : CellLook :=
  match cell d s e with
  | Some x =>
      match grade x with
      | None => Awaiting
      | Some g => if eqs g (js "R") then RedoAsked else Graded g
      end
  | None =>
      if requires_submission e then NotSubmitted
      else match progressLookup d !! cell_key (s_user_id s) (e_id e) with
           | Some p => if eqs (status p) (js "completed") then DoneAlone
                       else if eqs (status p) (js "in_progress") then Started else NotDone
           | None => NotDone
           end
  end.

Definition clickable (d : GradingData) (s : StudentSummary) (e : ExerciseInfo) : bool :=
  match cell d s e with Some _ => true | None => false end.

Definition runnerConfigForSubmission (s : SubmissionItem) : Config.CodeRunnerConfig :=
  let l := detectLanguage (filename s) (language_hint s) in
  Config.normalizeCodeRunnerConfig (submission_config s)
    (default Config.ruby (Config.codeRunnerLanguageFromEditor l)).

Section Times.
Context (getTime : str → option Z).

Definition queue_cmp (latest : list Z) (a b : SubmissionItem) : Z :=
  let aLatest := has latest (id a) in
  let bLatest := has latest (id b) in
  if negb (Bool.eqb aLatest bLatest) then (if aLatest then -1 else 1)
  else match getTime (created_at b), getTime (created_at a) with
       | Some tb, Some ta => tb - ta
       | _, _ => 0
       end.

(** [if (selectedStudentId) ...]: zero is no student. *)
Definition chosen (student : option Z) : option Z :=
  match student with Some u => if u =? 0 then None else Some u | None => None end.

Definition kept (f : QueueFilter) (student : option Z) (v : ViewMode) (s : SubmissionItem) : bool :=
  match chosen student with Some u => user_id s =? u | None => true end
  && (if bool_decide (v = Vqueue) || bool_decide (chosen student = None)
      then match f with
           | ungraded => is_ungraded (grade s)
           | redo => is_redo (grade s)
           | all => true
           end
      else true).

Definition filteredSubmissions (d : GradingData) (f : QueueFilter) (student : option Z) (v : ViewMode)
    : list SubmissionItem :=
  js_sort (queue_cmp (latestSubmissionIds d)) (List.filter (kept f student v) (submissions d)).

(** ** The tables are what they say *)

Lemma no_colon n : ":"%char ∉ str_of_Z n.
Proof.
  intros H. pose proof (str_of_Z_chars n ":"%char eq_refl ltac:(done)) as F.
  rewrite Forall_forall in F. apply F in H. by rewrite bool_decide_eq_true_2 in H.
Qed.

Lemma cell_key_inj u b u' b' : cell_key u b = cell_key u' b' → u = u' ∧ b = b'.
Proof.
  unfold cell_key. intros H.
  assert (∀ x y r s, ":"%char ∉ x → ":"%char ∉ y → x ++ js ":" ++ r = y ++ js ":" ++ s → x = y ∧ r = s) as G.
  { clear. induction x as [|c x IH]; intros [|c' y] r s Hx Hy E; cbn in E.
    - by injection E.
    - injection E as <- _. destruct Hy. by left.
    - injection E as -> _. destruct Hx. by left.
    - injection E as -> E. apply not_elem_of_cons in Hx as [_ Hx], Hy as [_ Hy].
      destruct (IH y r s Hx Hy E) as [-> ->]. done. }
  apply G in H as [H1 H2]; [|apply no_colon..]. split; by apply str_of_Z_inj.
Qed.

Lemma set_first_lookup {A} (key : A → str) l m k :
  fold_left (set_first key) l m !! k
  = match m !! k with Some a => Some a | None => find (λ a, eqs (key a) k) l end.
Proof.
  revert m. induction l as [|a l IH]; intros m; simpl; [by destruct (m !! k)|]. rewrite IH.
  unfold set_first. destruct (m !! key a) eqn:E.
  - destruct (m !! k) eqn:K; [done|]. destruct (eqs (key a) k) eqn:Q; [|done].
    apply eqs_true in Q. congruence.
  - destruct (eqs (key a) k) eqn:Q.
    + apply eqs_true in Q as <-. by rewrite lookup_insert_eq, E.
    + apply eqs_false in Q. by rewrite lookup_insert_ne.
Qed.

(** The first submission of a student for an exercise, in the order of the server. *)
Definition first_of (d : GradingData) (u e : Z) : option SubmissionItem :=
  find (λ s, (user_id s =? u) && (content_block_id s =? e)) (submissions d).

Lemma key_eqb s u e : eqs (key_of s) (cell_key u e) = (user_id s =? u) && (content_block_id s =? e).
Proof.
  destruct (eqs (key_of s) (cell_key u e)) eqn:E.
  - apply eqs_true, cell_key_inj in E as [-> ->]. by rewrite !Z.eqb_refl.
  - apply eqs_false in E. symmetry. apply andb_false_iff.
    destruct (Z.eqb_spec (user_id s) u), (Z.eqb_spec (content_block_id s) e); auto.
    subst. by destruct E.
Qed.

Lemma find_ext_eq {A} (p q : A → bool) l : (∀ x, p x = q x) → find p l = find q l.
Proof. intros H. induction l as [|x l IH]; [done|]. simpl. by rewrite H, IH. Qed.

Lemma submissionLookup_spec d u e : submissionLookup d !! cell_key u e = first_of d u e.
Proof.
  unfold submissionLookup. rewrite set_first_lookup, lookup_empty. apply find_ext_eq.
  intros s. apply key_eqb.
Qed.

Lemma latest_ids_first d i :
  i ∈ latestSubmissionIds d ↔ ∃ s, id s = i ∧ first_of d (user_id s) (content_block_id s) = Some s.
Proof.
  unfold latestSubmissionIds. rewrite list_elem_of_fmap. split.
  - intros ([k s] & -> & H%elem_of_map_to_list). exists s. split; [done|]. simpl.
    rewrite <- submissionLookup_spec. unfold submissionLookup. rewrite set_first_lookup in H |- *.
    rewrite lookup_empty in *. pose proof (find_some _ _ H) as [_ Hk%eqs_true]. by rewrite <- Hk in H.
  - intros (s & <- & H). rewrite <- submissionLookup_spec in H. exists (key_of s, s). split; [done|].
    apply elem_of_map_to_list. exact H.
Qed.

Lemma push_group_lookup l m w :
  fold_left push_group l m !! w
  = match m !! w, List.filter (λ e, week_of e =? w) l with
    | None, [] => None
    | g, r => Some (default [] g ++ r)
    end.
Proof.
  revert m. induction l as [|e l IH]; intros m; simpl.
  { destruct (m !! w); [by rewrite app_nil_r|done]. }
  rewrite IH. unfold push_group. destruct (Z.eqb_spec (week_of e) w) as [<-|Hne].
  - rewrite lookup_insert_eq. destruct (m !! week_of e); simpl; by rewrite <- ?(assoc_L (++)).
  - by rewrite lookup_insert_ne.
Qed.

Lemma weekGroups_elem d w es :
  (w, es) ∈ weekGroups d ↔ es = List.filter (λ e, week_of e =? w) (exercises d) ∧ es ≠ [].
Proof.
  unfold weekGroups. rewrite js_sort_elem, elem_of_map_to_list, push_group_lookup, lookup_empty.
  destruct (List.filter _ (exercises d)) as [|e r]; simpl; naive_solver.
Qed.

Lemma weekGroups_sorted d : StronglySorted (λ a b, a.1 < b.1) (weekGroups d).
Proof.
  unfold weekGroups. set (l := map_to_list _).
  assert (StronglySorted (λ a b : Z * list ExerciseInfo, a.1 - b.1 <= 0) (js_sort (λ a b, a.1 - b.1) l)) as S.
  { apply (js_sort_sorted _ (λ _, True)); [split; intros; lia|]. apply Forall_true. done. }
  assert (NoDup (js_sort (λ a b : Z * list ExerciseInfo, a.1 - b.1) l).*1) as N.
  { rewrite (js_sort_map_perm (λ a b : Z * list ExerciseInfo, a.1 - b.1) fst l). apply NoDup_fst_map_to_list. }
  revert S N. generalize (js_sort (λ a b : Z * list ExerciseInfo, a.1 - b.1) l) as r.
  induction 1 as [|x r S IH F]; intros N; constructor; simpl in N; apply NoDup_cons in N as [Hx N]; [auto|].
  apply Forall_forall. intros y Hy. rewrite Forall_forall in F. specialize (F y Hy).
  assert (x.1 ≠ y.1); [|lia]. intros E. apply Hx. rewrite E. apply list_elem_of_fmap. eauto.
Qed.

Definition dated (s : SubmissionItem) : Prop := is_Some (getTime (created_at s)).

Lemma queue_cmp_consistent ids : cmp_consistent (queue_cmp ids) dated.
Proof.
  unfold queue_cmp. split.
  - intros x y z [a Ha] [b Hb] [c Hc]. rewrite Ha, Hb, Hc.
    destruct (has ids (id x)), (has ids (id y)), (has ids (id z)); simpl; lia.
  - intros x y [a Ha] [b Hb]. rewrite Ha, Hb.
    destruct (has ids (id x)), (has ids (id y)); simpl; lia.
Qed.

(** *** What the tables should be *)

(** The last progress of a student on an exercise, in the order of the server. *)
Definition last_progress (d : GradingData) (u e : Z) : option ProgressItem :=
  find (λ p, (p_user_id p =? u) && (p_content_block_id p =? e)) (rev (progresses d)).

(** Whether the page shows a submission in the queue. *)
Definition wanted (f : QueueFilter) (student : option Z) (v : ViewMode) (s : SubmissionItem) : Prop :=
  (∀ u, student = Some u → u ≠ 0 → user_id s = u)
  ∧ (v = Vqueue ∨ student = None ∨ student = Some 0 →
     match f with ungraded => grade s = None | redo => grade s = Some (js "R") | all => True end).

(** [a] comes before [b]. *)
Definition before (d : GradingData) (a b : SubmissionItem) : Prop :=
  (id b ∈ latestSubmissionIds d → id a ∈ latestSubmissionIds d)
  ∧ ((id a ∈ latestSubmissionIds d ↔ id b ∈ latestSubmissionIds d) →
     ∀ ta tb, getTime (created_at a) = Some ta → getTime (created_at b) = Some tb → tb <= ta).

Definition look_of (sub : option SubmissionItem) (pr : option ProgressItem) (e : ExerciseInfo) : CellLook :=
  match sub, requires_submission e, pr with
  | Some x, _, _ => match grade x with
                    | None => Awaiting
                    | Some g => if decide (g = js "R") then RedoAsked else Graded g
                    end
  | None, true, _ => NotSubmitted
  | None, false, None => NotDone
  | None, false, Some p => if decide (status p = js "completed") then DoneAlone
                           else if decide (status p = js "in_progress") then Started else NotDone
  end.

(** A cell that counts as completed: graded and not to be redone, or done without a
    submission where none is asked for. *)
Definition counts_done (sub : option SubmissionItem) (pr : option ProgressItem) (e : ExerciseInfo) : bool :=
  match sub with
  | Some x => match grade x with Some g => bool_decide (g ≠ [] ∧ g ≠ js "R") | None => false end
  | None => false
  end
  || (negb (requires_submission e)
      && match pr with Some p => bool_decide (status p = js "completed") | None => false end).

(** How many of the cells of a week pass a test. *)
Definition number (d : GradingData) (es : list ExerciseInfo) (p : ExerciseInfo * StudentSummary → bool) : nat :=
  length (List.filter p (list_prod es (students d))).

Lemma eqs_decide (a b : str) : eqs a b = bool_decide (a = b).
Proof.
  destruct (eqs a b) eqn:E; [apply eqs_true in E as ->; by rewrite bool_decide_eq_true_2|].
  apply eqs_false in E. by rewrite bool_decide_eq_false_2.
Qed.

Lemma progress_lookup d u e : progressLookup d !! cell_key u e = last_progress d u e.
Proof.
  unfold progressLookup, last_progress. set (m0 := ∅).
  assert (G : ∀ l, fold_left (λ m p, <[cell_key (p_user_id p) (p_content_block_id p) := p]> m) l m0 !! cell_key u e
    = find (λ p, (p_user_id p =? u) && (p_content_block_id p =? e)) (rev l)); [|apply G].
  induction l as [|p l IH] using rev_ind; [done|]. rewrite fold_left_app, rev_app_distr. cbn.
  destruct (decide (p_user_id p = u ∧ p_content_block_id p = e)) as [[-> ->]|N].
  - by rewrite lookup_insert_eq, !Z.eqb_refl.
  - rewrite lookup_insert_ne by (intros [? ?]%cell_key_inj; by apply N).
    destruct (Z.eqb_spec (p_user_id p) u), (Z.eqb_spec (p_content_block_id p) e); cbn; try done. by destruct N.
Qed.

Lemma kept_wanted f student v s : kept f student v s = true ↔ wanted f student v s.
Proof.
  unfold kept, wanted, chosen. rewrite andb_true_iff.
  assert (F : (match f with ungraded => is_ungraded (grade s) | redo => is_redo (grade s) | all => true end) = true
    ↔ match f with ungraded => grade s = None | redo => grade s = Some (js "R") | all => True end).
  { destruct f; unfold is_ungraded, is_redo; destruct (grade s) as [g|]; try done.
    rewrite eqs_decide, bool_decide_eq_true. split; [by intros ->|by intros [= ->]]. }
  destruct student as [u|]; [destruct (Z.eqb_spec u 0) as [->|U]|].
  - rewrite (bool_decide_eq_true_2 (_ = None)), orb_true_r by done. rewrite F.
    split; [intros [_ H]; split; [by intros ? [= <-]|done]|]. intros [_ H]. split; [done|]. apply H. auto.
  - rewrite (bool_decide_eq_false_2 (_ = None)), orb_false_r by done. rewrite Z.eqb_eq.
    case_bool_decide as V; rewrite ?F.
    + split; [intros [H1 H2]; split; [by intros ? [= <-]|done]|]. intros [H1 H2]. split; [by apply H1|]. apply H2. by left.
    + split; [intros [H1 _]; split; [by intros ? [= <-]|]|intros [H1 _]; split; [by apply H1|done]].
      intros [?|[?|[=]]]; done.
  - rewrite (bool_decide_eq_true_2 (_ = None)), orb_true_r by done. rewrite F.
    split; [intros [_ H]; split; [by intros ? [=]|done]|]. intros [_ H]. split; [done|]. apply H. auto.
Qed.

Lemma queue_cmp_before d a b :
  dated a → dated b → queue_cmp (latestSubmissionIds d) a b <= 0 → before d a b.
Proof.
  intros [ta Ha] [tb Hb]. unfold queue_cmp, before. rewrite Ha, Hb, <- !has_true.
  destruct (has _ (id a)), (has _ (id b)); cbn; intros H; split; try done; try lia.
  - intros _ ? ? [= <-] [= <-]. lia.
  - intros _ ? ? [= <-] [= <-]. lia.
Qed.

Lemma queue_sorted d f student v :
  Forall dated (submissions d) → StronglySorted (before d) (filteredSubmissions d f student v).
Proof.
  intros F. unfold filteredSubmissions.
  assert (D : Forall dated (List.filter (kept f student v) (submissions d))).
  { apply Forall_forall. intros x [Hx _]%list_elem_of_In%filter_In. rewrite Forall_forall in F.
    by apply F, list_elem_of_In. }
  pose proof (js_sort_sorted _ dated _ (queue_cmp_consistent (latestSubmissionIds d)) D) as S.
  assert (D' : Forall dated (js_sort (queue_cmp (latestSubmissionIds d)) (List.filter (kept f student v) (submissions d)))).
  { apply Forall_forall. intros x Hx%js_sort_elem. rewrite Forall_forall in D. by apply D. }
  clear D. revert D'. induction S as [|x l S IH Fx]; intros D; constructor; apply Forall_cons in D as [Dx D]; [auto|].
  apply Forall_forall. intros y Hy. rewrite Forall_forall in Fx, D. apply queue_cmp_before; auto.
Qed.

Lemma week_of_days e w : (week_of e =? w) = bool_decide (7 * (w - 1) <= release_day e < 7 * w).
Proof.
  apply eq_true_iff_eq. rewrite Z.eqb_eq, bool_decide_eq_true. unfold week_of.
  pose proof (Z.div_mod (release_day e) 7 ltac:(lia)). pose proof (Z.mod_pos_bound (release_day e) 7 ltac:(lia)). lia.
Qed.

Lemma grid_cell_look d s e :
  grid_cell d s e = look_of (first_of d (s_user_id s) (e_id e)) (last_progress d (s_user_id s) (e_id e)) e.
Proof.
  unfold grid_cell, cell, look_of. rewrite submissionLookup_spec, progress_lookup.
  destruct (first_of _ _ _) as [x|].
  - destruct (grade x); [|done]. rewrite eqs_decide. by case_bool_decide; case_decide.
  - destruct (requires_submission e); [done|]. destruct (last_progress _ _ _) as [p|]; [|done].
    rewrite !eqs_decide. by repeat (case_bool_decide || case_decide).
Qed.

Lemma completed_done d s e :
  completed_cell d s e
  = counts_done (first_of d (s_user_id s) (e_id e)) (last_progress d (s_user_id s) (e_id e)) e.
Proof.
  unfold completed_cell, cell, counts_done. rewrite submissionLookup_spec, progress_lookup. f_equal.
  destruct (first_of _ _ _) as [x|]; [|done]. destruct (grade x) as [g|]; [|done]. rewrite eqs_decide.
  destruct g; cbn [truthy andb]; [by rewrite bool_decide_eq_false_2 by naive_solver|].
  rewrite <- bool_decide_not. apply bool_decide_ext. naive_solver.
Qed.

Lemma sum_cells_number d p es : sum_cells d p es = number d es (λ x, p x.2 x.1).
Proof.
  unfold sum_cells, number. enough (G : ∀ n, fold_left (λ acc e, (acc + length (List.filter (λ s, p s e) (students d)))%nat)
    es n = (n + length (List.filter (λ x, p x.2 x.1) (list_prod es (students d))))%nat) by exact (G 0%nat).
  induction es as [|e es IH]; intros n; cbn [fold_left list_prod]; [cbn; lia|].
  rewrite IH, List.filter_app, length_app. rewrite <- Nat.add_assoc.
  assert (E : length (List.filter (λ s, p s e) (students d))
    = length (List.filter (λ x, p x.2 x.1) (map (λ y, (e, y)) (students d)))); [|by rewrite E].
  clear IH. induction (students d) as [|s l IHl]; [done|]. cbn [List.filter map fst snd].
  destruct (p s e); cbn [length]; [by f_equal|exact IHl].
Qed.

Lemma number_ext d es p q : (∀ x, p x = q x) → number d es p = number d es q.
Proof. intros H. unfold number. by rewrite (List.filter_ext p q). Qed.

(** C33: the grading tables of a module. The cell of a student and an exercise holds the
    first submission the server lists for them and no other's (the keys of two cells are
    never confused), and its look follows from it and from their last progress: awaiting
    review without a grade, to be redone with R, else its grade; without a submission, not
    submitted where one is asked for, else done, started or not done. Exactly those first
    submissions are marked as latest. The weeks are in increasing order; week [w] has the
    exercises released on the days from 7 (w - 1) to 7 w - 1, all of them, in their order,
    and is shown exactly when there is one. The counters of a week are the numbers of its
    cells that await review, are to be redone and are completed. The queue is exactly the
    submissions of the chosen student (if any) that the filter keeps (the filter applies in
    the queue view or when no student is chosen: without a grade, with R, or all), and, when
    all dates can be read, the latest submissions come first, and the newest first among
    them and among the others. *)
Theorem grading_table_correct (d : GradingData) (f : QueueFilter) (student : option Z) (v : ViewMode) :
  (∀ u e, submissionLookup d !! cell_key u e = first_of d u e)
  ∧ (∀ s e, grid_cell d s e
            = look_of (first_of d (s_user_id s) (e_id e)) (last_progress d (s_user_id s) (e_id e)) e)
  ∧ (∀ i, i ∈ latestSubmissionIds d
          ↔ ∃ s, id s = i ∧ first_of d (user_id s) (content_block_id s) = Some s)
  ∧ StronglySorted (λ a b, a.1 < b.1) (weekGroups d)
  ∧ (∀ w es, (w, es) ∈ weekGroups d
             ↔ es = List.filter (λ e, bool_decide (7 * (w - 1) <= release_day e < 7 * w)) (exercises d) ∧ es ≠ [])
  ∧ (∀ es, week_summary d es
           = (number d es (λ x, match grid_cell d x.2 x.1 with Awaiting => true | _ => false end),
              number d es (λ x, match grid_cell d x.2 x.1 with RedoAsked => true | _ => false end),
              number d es (λ x, counts_done (first_of d (s_user_id x.2) (e_id x.1))
                                  (last_progress d (s_user_id x.2) (e_id x.1)) x.1)))
  ∧ (∃ rest, submissions d ≡ₚ filteredSubmissions d f student v ++ rest
             ∧ Forall (wanted f student v) (filteredSubmissions d f student v)
             ∧ Forall (λ s, ¬ wanted f student v s) rest)
  ∧ (Forall dated (submissions d) → StronglySorted (before d) (filteredSubmissions d f student v)).
Proof.
  split; [apply submissionLookup_spec|]. split; [apply grid_cell_look|]. split; [apply latest_ids_first|].
  split; [apply weekGroups_sorted|]. split; [|split; [|split; [|apply queue_sorted]]].
  - intros w es. rewrite weekGroups_elem. by rewrite (List.filter_ext _ _ (λ e, week_of_days e w)).
  - intros es. unfold week_summary. rewrite !sum_cells_number. f_equal; [f_equal|]; apply number_ext; intros [e s]; cbn.
    + unfold grid_cell, pending_cell. destruct (cell d s e) as [x|]; [destruct (grade x) as [g|]; [by destruct (eqs g _)|done]|].
      destruct (requires_submission e); [done|]. destruct (progressLookup d !! _) as [p|]; [|done].
      by destruct (eqs (status p) (js "completed")), (eqs (status p) (js "in_progress")).
    + unfold grid_cell, redo_cell. destruct (cell d s e) as [x|].
      * unfold is_redo. destruct (grade x) as [g|]; [|done]. by destruct (eqs g _).
      * destruct (requires_submission e); [done|]. destruct (progressLookup d !! _) as [p|]; [|done].
        by destruct (eqs (status p) (js "completed")), (eqs (status p) (js "in_progress")).
    + apply completed_done.
  - exists (List.filter (λ s, negb (kept f student v s)) (submissions d)). unfold filteredSubmissions. split_and!.
    + rewrite js_sort_perm. induction (submissions d) as [|x l IH]; [done|]. cbn [List.filter].
      destruct (kept f student v x); cbn [negb app]; [by rewrite <- IH|]. by rewrite <- Permutation_middle, <- IH.
    + apply Forall_forall. intros x [_ Hx]%js_sort_elem%list_elem_of_In%filter_In. by apply kept_wanted.
    + apply Forall_forall. intros x [_ Hx%negb_true_iff]%list_elem_of_In%filter_In. rewrite <- kept_wanted.
      by rewrite Hx.
Qed.

End Times.

End Table.

(** ** The grading page *)

Module Review.
Import Table.

Section Page.
Context (getTime : str → option Z).

(** A grading that was asked for: of a submission, with the feedback on the screen then. *)
Record Grading := { g_id : Z; g_grade : str; g_feedback : str }.

(** A redo without feedback that waits for the confirmation: of the grid's dialog or of the
    side panel, with what the handler captured. *)
Record Confirming := { in_grid : bool; captured : SubmissionItem; captured_feedback : str }.

Record Page := {
  data : option GradingData;
  viewMode : ViewMode;
  queueFilter : QueueFilter;
  selectedStudentId : option Z;
  selectedSubmission : option SubmissionItem;
  feedbackText : str;
  grading : bool;
  loadingDetail : bool;
  gridModalOpen : bool;
  gridModalSubmission : option SubmissionItem;
  gridFeedback : str;
  gradedSubmissionRef : option Z;
  confirming : list Confirming;
  details : list (bool * SubmissionItem);      (* in flight: for the grid?, and the item *)
  grades : list bool;                          (* in flight: of the grid? *)
  reloads : list bool;                         (* in flight: does it end a grading? *)
  sent : list Grading;                         (* latest first *)
}.

Definition set_selection (s : option SubmissionItem) (fb : str) (loading : bool)
    (ds : list (bool * SubmissionItem)) (p : Page) : Page :=
  {| data := data p; viewMode := viewMode p; queueFilter := queueFilter p;
     selectedStudentId := selectedStudentId p; selectedSubmission := s; feedbackText := fb;
     grading := grading p; loadingDetail := loading; gridModalOpen := gridModalOpen p;
     gridModalSubmission := gridModalSubmission p; gridFeedback := gridFeedback p;
     gradedSubmissionRef := gradedSubmissionRef p; confirming := confirming p; details := ds;
     grades := grades p; reloads := reloads p; sent := sent p |}.

Definition set_grid (o : bool) (s : option SubmissionItem) (fb : str)
    (ds : list (bool * SubmissionItem)) (p : Page) : Page :=
  {| data := data p; viewMode := viewMode p; queueFilter := queueFilter p;
     selectedStudentId := selectedStudentId p; selectedSubmission := selectedSubmission p;
     feedbackText := feedbackText p; grading := grading p; loadingDetail := loadingDetail p;
     gridModalOpen := o; gridModalSubmission := s; gridFeedback := fb;
     gradedSubmissionRef := gradedSubmissionRef p; confirming := confirming p; details := ds;
     grades := grades p; reloads := reloads p; sent := sent p |}.

Definition set_flow (g : bool) (gs rs : list bool) (cs : list Confirming) (r : option Z) (p : Page) : Page :=
  {| data := data p; viewMode := viewMode p; queueFilter := queueFilter p;
     selectedStudentId := selectedStudentId p; selectedSubmission := selectedSubmission p;
     feedbackText := feedbackText p; grading := g; loadingDetail := loadingDetail p;
     gridModalOpen := gridModalOpen p; gridModalSubmission := gridModalSubmission p;
     gridFeedback := gridFeedback p; gradedSubmissionRef := r; confirming := cs;
     details := details p; grades := gs; reloads := rs; sent := sent p |}.

Definition set_view (v : ViewMode) (f : QueueFilter) (u : option Z) (p : Page) : Page :=
  {| data := data p; viewMode := v; queueFilter := f; selectedStudentId := u;
     selectedSubmission := selectedSubmission p; feedbackText := feedbackText p;
     grading := grading p; loadingDetail := loadingDetail p; gridModalOpen := gridModalOpen p;
     gridModalSubmission := gridModalSubmission p; gridFeedback := gridFeedback p;
     gradedSubmissionRef := gradedSubmissionRef p; confirming := confirming p;
     details := details p; grades := grades p; reloads := reloads p; sent := sent p |}.

Definition set_data (d : GradingData) (p : Page) : Page :=
  {| data := Some d; viewMode := viewMode p; queueFilter := queueFilter p;
     selectedStudentId := selectedStudentId p; selectedSubmission := selectedSubmission p;
     feedbackText := feedbackText p; grading := grading p; loadingDetail := loadingDetail p;
     gridModalOpen := gridModalOpen p; gridModalSubmission := gridModalSubmission p;
     gridFeedback := gridFeedback p; gradedSubmissionRef := gradedSubmissionRef p;
     confirming := confirming p; details := details p; grades := grades p; reloads := reloads p;
     sent := sent p |}.

(** [api.gradeSubmission] *)
Definition send (g : Grading) (p : Page) : Page :=
  {| data := data p; viewMode := viewMode p; queueFilter := queueFilter p;
     selectedStudentId := selectedStudentId p; selectedSubmission := selectedSubmission p;
     feedbackText := feedbackText p; grading := grading p; loadingDetail := loadingDetail p;
     gridModalOpen := gridModalOpen p; gridModalSubmission := gridModalSubmission p;
     gridFeedback := gridFeedback p; gradedSubmissionRef := gradedSubmissionRef p;
     confirming := confirming p; details := details p; grades := grades p; reloads := reloads p;
     sent := g :: sent p |}.

(** [selectSubmission] up to its request, and its answer ([None]: the item itself). *)
Definition selectSubmission (s : SubmissionItem) (p : Page) : Page :=
  set_selection (selectedSubmission p) (feedbackText p) true (details p ++ [(false, s)]) p.

Definition openGridCell (u e : Z) (p : Page) : Page :=
  match data p ≫= λ d, submissionLookup d !! cell_key u e with
  | None => p
  | Some s => set_grid true None (gridFeedback p) (details p ++ [(true, s)]) p
  end.

(** The answer to the request number [i] in flight. *)
Definition detail_loaded (i : nat) (full : option SubmissionItem) (p : Page) : Page :=
  match details p !! i with
  | None => p
  | Some (grid, s) =>
      let shown := default s full in
      let fb := default [] (feedback shown) in
      let rest := delete i (details p) in
      if grid : bool then set_grid (gridModalOpen p) (Some shown) fb rest p
      else set_selection (Some shown) fb false rest p
  end.

(** [handleGrade] of the submission and feedback its closure captured. *)
Definition handleGrade (s : SubmissionItem) (fb g : str) (p : Page) : Page :=
  send {| g_id := id s; g_grade := g; g_feedback := fb |}
    (set_flow true (grades p ++ [false]) (reloads p) (confirming p) (Some (id s)) p).

Definition handleGridGrade (s : SubmissionItem) (fb g : str) (p : Page) : Page :=
  send {| g_id := id s; g_grade := g; g_feedback := fb |}
    (set_flow true (grades p ++ [true]) (reloads p) (confirming p) (gradedSubmissionRef p) p).

Definition grade_one (grid : bool) (s : SubmissionItem) (fb g : str) (p : Page) : Page :=
  if grid then handleGridGrade s fb g p else handleGrade s fb g p.

(** [api.gradeSubmission] answered. *)
Definition grade_settled (ok : bool) (p : Page) : Page :=
  match grades p with
  | [] => p
  | grid :: r =>
      if ok then
        let p1 := if grid : bool then set_grid false None [] (details p) p
                  else set_selection (selectedSubmission p) [] (loadingDetail p) (details p) p in
        set_flow (grading p) r (reloads p ++ [true]) (confirming p) (gradedSubmissionRef p) p1
      else set_flow false r (reloads p) (confirming p) (gradedSubmissionRef p) p
  end.

(** The effect that follows new data. *)
Definition next_ungraded (d : GradingData) (justGraded : Z) (p : Page) : option SubmissionItem :=
  find (λ s, negb (id s =? justGraded) && is_ungraded (grade s) && has (latestSubmissionIds d) (id s))
    (filteredSubmissions getTime d (queueFilter p) (selectedStudentId p) (viewMode p)).

Definition auto_advance (d : GradingData) (p : Page) : Page :=
  match gradedSubmissionRef p with
  | None => p
  | Some justGraded =>
      let p1 := set_flow (grading p) (grades p) (reloads p) (confirming p) None p in
      match next_ungraded d justGraded p with
      | Some s => selectSubmission s p1
      | None => set_selection None (feedbackText p1) (loadingDetail p1) (details p1) p1
      end
  end.

(** [loadData] answered; [ends]: the reload after a grading, which then is over. *)
Definition data_loaded (d : option GradingData) (p : Page) : Page :=
  match reloads p with
  | [] => p
  | ends :: r =>
      let p1 := set_flow (if ends : bool then false else grading p) (grades p) r (confirming p)
                  (gradedSubmissionRef p) p in
      match d with
      | Some d => auto_advance d (set_data d p1)
      | None => p1
      end
  end.

(** What the grade buttons and shortcuts do for a submission on the screen: a redo without
    feedback asks first. *)
Definition ask_or_grade (grid : bool) (s : SubmissionItem) (fb g : str) (p : Page) : Page :=
  if eqs g (js "R") && negb (truthy (trim fb))
  then set_flow (grading p) (grades p) (reloads p)
         (confirming p ++ [{| in_grid := grid; captured := s; captured_feedback := fb |}])
         (gradedSubmissionRef p) p
  else grade_one grid s fb g p.

Definition confirmed (ok : bool) (p : Page) : Page :=
  match confirming p with
  | [] => p
  | c :: r =>
      let p1 := set_flow (grading p) (grades p) (reloads p) r (gradedSubmissionRef p) p in
      if ok then grade_one (in_grid c) (captured c) (captured_feedback c) (js "R") p1 else p1
  end.

Definition GRADES : list str := map js ["A"; "B"; "C"; "R"]%string.

(** [toUpperCase] of a key. *)
Definition char_upper (c : ascii) : ascii :=
  if is_lower c then ascii_of_N (code c - 32) else c.

Definition handleKeyDown (key : str) (typing : bool) (p : Page) : Page :=
  let k := map char_upper key in
  if grading p || typing || negb (has GRADES k) then p
  else match gridModalSubmission p with
       | Some s => ask_or_grade true s (gridFeedback p) k p
       | None =>
           match selectedSubmission p with
           | Some s => if loadingDetail p then p else ask_or_grade false s (feedbackText p) k p
           | None => p
           end
       end.

(** The submission that is drawn with its feedback field: in the dialog of the grid when it is
    open, in the panel of the other views. *)
Definition shown (p : Page) : option (bool * SubmissionItem * str) :=
  match viewMode p with
  | Vgrid => if gridModalOpen p then (λ s, (true, s, gridFeedback p)) <$> gridModalSubmission p else None
  | _ => if loadingDetail p then None else (λ s, (false, s, feedbackText p)) <$> selectedSubmission p
  end.

(** The buttons under that submission. *)
Definition grade_button (g : str) (p : Page) : Page :=
  if grading p || negb (has GRADES g) then p
  else match shown p with Some (grid, s, fb) => ask_or_grade grid s fb g p | None => p end.

(** The card of the ungraded queue opens its first submission. *)
Definition show_ungraded (p : Page) : Page :=
  let p1 := set_view Vqueue ungraded None p in
  match data p ≫= λ d, find (λ s, is_ungraded (grade s) && has (latestSubmissionIds d) (id s)) (submissions d) with
  | Some s => selectSubmission s p1
  | None => set_selection None (feedbackText p) (loadingDetail p) (details p) p1
  end.

Inductive event :=
| Select (s : SubmissionItem)
| OpenCell (u e : Z)
| DetailLoaded (i : nat) (full : option SubmissionItem)
| EditFeedback (fb : str)
| EditGridFeedback (fb : str)
| KeyDown (key : str) (typing : bool)
| GradeButton (g : str)
| Confirmed (ok : bool)
| GradeSettled (ok : bool)
| DataLoaded (d : option GradingData)
| Reload                                       (* the page opens, or GitHub was synchronised *)
| Show (v : ViewMode) (f : QueueFilter) (u : option Z)
| CloseGrid
| ShowUngraded.

Definition step (e : event) (p : Page) : Page :=
  match e with
  | Select s => selectSubmission s p
  | OpenCell u x => openGridCell u x p
  | DetailLoaded i full => detail_loaded i full p
  | EditFeedback fb => set_selection (selectedSubmission p) fb (loadingDetail p) (details p) p
  | EditGridFeedback fb => set_grid (gridModalOpen p) (gridModalSubmission p) fb (details p) p
  | KeyDown k t => handleKeyDown k t p
  | GradeButton g => grade_button g p
  | Confirmed ok => confirmed ok p
  | GradeSettled ok => grade_settled ok p
  | DataLoaded d => data_loaded d p
  | Reload => set_flow (grading p) (grades p) (reloads p ++ [false]) (confirming p) (gradedSubmissionRef p) p
  | Show v f u => set_view v f u (set_selection None (feedbackText p) (loadingDetail p) (details p) p)
  | CloseGrid => set_grid false None [] (details p) p
  | ShowUngraded => show_ungraded p
  end.

Definition run (es : list event) (p : Page) : Page := fold_left (λ p e, step e p) es p.

Definition init : Page :=
  {| data := None; viewMode := Vgrid; queueFilter := ungraded; selectedStudentId := None;
     selectedSubmission := None; feedbackText := []; grading := false; loadingDetail := false;
     gridModalOpen := false; gridModalSubmission := None; gridFeedback := [];
     gradedSubmissionRef := None; confirming := []; details := []; grades := [];
     reloads := [false]; sent := [] |}.

(** *** What is sent *)

(** The submission that the page holds, which the shortcuts act on. *)
Definition held (p : Page) : option (bool * SubmissionItem * str) :=
  match gridModalSubmission p with
  | Some s => Some (true, s, gridFeedback p)
  | None => if loadingDetail p then None else (λ s, (false, s, feedbackText p)) <$> selectedSubmission p
  end.

(** Nothing is sent, and nothing waits for a confirmation that did not wait before. *)
Definition quiet (p q : Page) : Prop := sent q = sent p ∧ confirming q = confirming p.

(** A grade [g] is asked for [x]: it is sent with its feedback, or waits for a confirmation
    when it is a redo without feedback; nothing happens while a grading is in progress, or
    when [g] is not a grade. *)
Definition asked (g : str) (x : option (bool * SubmissionItem * str)) (p q : Page) : Prop :=
  match x with
  | Some (grid, s, fb) =>
      if decide (grading p = false ∧ g ∈ map js ["A"; "B"; "C"; "R"]%string) then
        if decide (g = js "R" ∧ trim fb = []) then
          sent q = sent p
          ∧ confirming q = confirming p ++ [{| in_grid := grid; captured := s; captured_feedback := fb |}]
        else sent q = {| g_id := id s; g_grade := g; g_feedback := fb |} :: sent p ∧ confirming q = confirming p
      else quiet p q
  | None => quiet p q
  end.

Definition deliberate (e : event) (p q : Page) : Prop :=
  match e with
  | KeyDown k typing => if typing then quiet p q else asked (map char_upper k) (held p) p q
  | GradeButton g => asked g (shown p) p q
  | Confirmed ok =>
      match confirming p with
      | [] => quiet p q
      | c :: r => confirming q = r
          ∧ sent q = (if ok then [{| g_id := id (captured c); g_grade := js "R"; g_feedback := captured_feedback c |}]
                      else []) ++ sent p
      end
  | _ => quiet p q
  end.

Lemma ask_or_grade_asked grid s fb g p :
  grading p = false → has GRADES g = true → asked g (Some (grid, s, fb)) p (ask_or_grade grid s fb g p).
Proof.
  intros G H%has_true. unfold asked. rewrite decide_True by done. unfold ask_or_grade.
  destruct (decide (g = js "R" ∧ trim fb = [])) as [[-> E]|N].
  - by rewrite eqs_refl, E.
  - destruct (eqs g (js "R") && negb (truthy (trim fb))) eqn:E; [|by destruct grid].
    exfalso. apply N. apply andb_true_iff in E as [E1%eqs_true E2%negb_true_iff]. split; [done|by apply truthy_false].
Qed.

Lemma not_asked g x p : grading p || negb (has GRADES g) = true → asked g x p p.
Proof.
  intros H. unfold asked. destruct x as [[[grid s] fb]|]; [|done]. rewrite decide_False; [done|].
  intros [G M]. assert (has GRADES g = true) as M' by (by apply has_true). by rewrite G, M' in H.
Qed.

Lemma step_sent e p : deliberate e p (step e p).
Proof.
  destruct e as [s|u x|i full|fb|fb|k t|g|ok|ok|d| |v f u| |]; cbn [step deliberate]; try done.
  - unfold openGridCell. by destruct (data p ≫= _).
  - unfold detail_loaded. destruct (details p !! i) as [[[] s]|]; done.
  - unfold handleKeyDown. destruct t; [by rewrite orb_true_r|]. rewrite orb_false_r.
    destruct (grading p || negb (has GRADES (map char_upper k))) eqn:C; [by apply not_asked|].
    apply orb_false_iff in C as [G H%negb_false_iff]. unfold held.
    destruct (gridModalSubmission p) as [s|]; [by apply ask_or_grade_asked|].
    destruct (selectedSubmission p) as [s|], (loadingDetail p); try done. by apply ask_or_grade_asked.
  - unfold grade_button. destruct (grading p || negb (has GRADES g)) eqn:C; [by apply not_asked|].
    apply orb_false_iff in C as [G H%negb_false_iff].
    destruct (shown p) as [[[grid s] fb]|]; [by apply ask_or_grade_asked|done].
  - unfold confirmed. destruct (confirming p) as [|c r] eqn:C; [done|]. destruct ok; [by destruct (in_grid c)|done].
  - unfold grade_settled. destruct (grades p) as [|g r]; [done|]. destruct ok; [by destruct g|done].
  - unfold data_loaded. destruct (reloads p) as [|b r]; [done|]. destruct d as [d|]; [|done].
    unfold auto_advance. destruct (gradedSubmissionRef _); [|done]. by destruct (next_ungraded _ _ _).
  - unfold show_ungraded. by destruct (data p ≫= _).
Qed.

(** *** What the shortcuts act on is on the screen *)

(** Details arrive while their dialog, or a view with the panel, is there; the views change
    while the dialog is closed. *)
Definition in_time (e : event) (p : Page) : bool :=
  match e with
  | DetailLoaded i _ =>
      match details p !! i with
      | Some (true, _) => gridModalOpen p && bool_decide (viewMode p = Vgrid)
      | Some (false, _) => negb (bool_decide (viewMode p = Vgrid))
      | None => true
      end
  | Show _ _ _ | ShowUngraded => negb (gridModalOpen p)
  | _ => true
  end.

Fixpoint all_in_time (es : list event) (p : Page) : bool :=
  match es with [] => true | e :: es => in_time e p && all_in_time es (step e p) end.

Definition in_place (p : Page) : Prop :=
  (gridModalSubmission p ≠ None → gridModalOpen p = true ∧ viewMode p = Vgrid)
  ∧ (viewMode p = Vgrid → selectedSubmission p = None).

Lemma ask_or_grade_place grid s fb g p : in_place p → in_place (ask_or_grade grid s fb g p).
Proof. intros H. unfold ask_or_grade. destruct (_ && _); [done|]. by destruct grid. Qed.

Lemma step_place e p : in_time e p = true → in_place p → in_place (step e p).
Proof.
  intros T H. destruct e as [s|u x|i full|fb|fb|k t|g|ok|ok|d| |v f u| |]; cbn [step in_time] in *; try done.
  - unfold openGridCell. destruct (data p ≫= _); [|done]. split; [done|apply H].
  - unfold detail_loaded. destruct (details p !! i) as [[[] s]|]; [| |done]; cbn in T.
    + apply andb_true_iff in T as [T1 T2%bool_decide_eq_true_1]. split; [done|apply H].
    + apply negb_true_iff, bool_decide_eq_false_1 in T. split; [apply H|done].
  - unfold handleKeyDown. destruct (_ || negb _); [done|].
    destruct (gridModalSubmission p); [by apply ask_or_grade_place|].
    destruct (selectedSubmission p); [|done]. destruct (loadingDetail p); [done|]. by apply ask_or_grade_place.
  - unfold grade_button. destruct (_ || negb _); [done|].
    destruct (shown p) as [[[grid s] fb]|]; [by apply ask_or_grade_place|done].
  - unfold confirmed. destruct (confirming p) as [|c r]; [done|]. destruct ok; [by destruct (in_grid c)|done].
  - unfold grade_settled. destruct (grades p) as [|g r]; [done|]. destruct ok; [|done].
    destruct g; [split; [done|apply H]|done].
  - unfold data_loaded. destruct (reloads p) as [|b r]; [done|]. destruct d as [d|]; [|done].
    unfold auto_advance. destruct (gradedSubmissionRef _); [|done].
    destruct (next_ungraded _ _ _); [done|]. split; [apply H|done].
  - apply negb_true_iff in T. destruct H as [H1 H2]. split; [|done]. cbn. intros G%H1. destruct G. congruence.
  - split; [done|apply H].
  - apply negb_true_iff in T. destruct H as [H1 H2]. unfold show_ungraded.
    destruct (data p ≫= _); (split; [|done]); cbn; intros G%H1; destruct G; congruence.
Qed.

Lemma run_place es p : all_in_time es p = true → in_place p → in_place (run es p).
Proof.
  revert p. induction es as [|e es IH]; [done|]. intros p [T A]%andb_true_iff H. apply IH; [done|]. by apply step_place.
Qed.

Lemma held_shown p x : in_place p → held p = Some x → shown p = Some x.
Proof.
  intros [H1 H2]. unfold held, shown. destruct (gridModalSubmission p) as [s|].
  - destruct (H1 ltac:(done)) as [-> ->]. done.
  - intros H. destruct (viewMode p) eqn:V; try done. rewrite (H2 eq_refl) in H. by destruct (loadingDetail p).
Qed.

(** What waits for a confirmation was on the screen, without feedback. *)
Definition confirming_ok (p : Page) : Prop :=
  Forall (λ c, trim (captured_feedback c) = []) (confirming p).

Lemma ask_or_grade_confirming grid s fb g p :
  confirming_ok p → confirming_ok (ask_or_grade grid s fb g p).
Proof.
  intros H. unfold ask_or_grade. destruct (eqs g (js "R") && negb (truthy (trim fb))) eqn:E.
  - apply Forall_app. split; [done|]. constructor; [|constructor].
    apply andb_true_iff in E as [_ E%negb_true_iff]. by apply truthy_false.
  - by destruct grid.
Qed.

Lemma step_confirming e p : confirming_ok p → confirming_ok (step e p).
Proof.
  intros H. destruct e as [s|u x|i full|fb|fb|k t|g|ok|ok|d| |v f u| |]; cbn [step]; try done.
  - unfold openGridCell. by destruct (data p ≫= _).
  - unfold detail_loaded. destruct (details p !! i) as [[[] s]|]; done.
  - unfold handleKeyDown. destruct (_ || negb _); [done|].
    destruct (gridModalSubmission p); [by apply ask_or_grade_confirming|].
    destruct (selectedSubmission p); [|done]. destruct (loadingDetail p); [done|].
    by apply ask_or_grade_confirming.
  - unfold grade_button. destruct (_ || negb _); [done|].
    destruct (shown p) as [[[grid s] fb]|]; [by apply ask_or_grade_confirming|done].
  - unfold confirmed. destruct (confirming p) as [|c r] eqn:C; [done|].
    assert (Forall (λ c, trim (captured_feedback c) = []) r) as Hr.
    { unfold confirming_ok in H. rewrite C in H. by inversion H. }
    destruct ok; [by destruct (in_grid c)|done].
  - unfold grade_settled. destruct (grades p) as [|g r]; [done|]. destruct ok; [by destruct g|done].
  - unfold data_loaded. destruct (reloads p) as [|b r]; [done|]. destruct d as [d|]; [|done].
    unfold auto_advance. destruct (gradedSubmissionRef _); [|done]. by destruct (next_ungraded _ _ _).
  - unfold show_ungraded. by destruct (data p ≫= _).
Qed.

Lemma run_confirming es p : confirming_ok p → confirming_ok (run es p).
Proof. revert p. induction es as [|e es IH]; intros p H; [done|]. by apply IH, step_confirming. Qed.

(** *** The automatic advance *)

Definition advances_to (d : GradingData) (just : Z) (p : Page) (s : SubmissionItem) : Prop :=
  s ∈ submissions d ∧ kept (queueFilter p) (selectedStudentId p) (viewMode p) s = true
  ∧ grade s = None ∧ id s ≠ just ∧ id s ∈ latestSubmissionIds d.

Lemma filtered_elem d f u v s :
  s ∈ filteredSubmissions getTime d f u v ↔ s ∈ submissions d ∧ kept f u v s = true.
Proof.
  unfold filteredSubmissions. rewrite js_sort_elem. rewrite list_elem_of_In, filter_In.
  by rewrite <- list_elem_of_In.
Qed.

Lemma next_ungraded_spec d just p :
  match next_ungraded d just p with
  | Some s => advances_to d just p s
  | None => ∀ s, ¬ advances_to d just p s
  end.
Proof.
  unfold next_ungraded, advances_to. destruct (find _ _) as [s|] eqn:E.
  - apply find_some in E as [Hin E]. apply list_elem_of_In, filtered_elem in Hin as [H1 H2].
    apply andb_true_iff in E as [[E1%negb_true_iff%Z.eqb_neq E2]%andb_true_iff E3%has_true].
    destruct (grade s) eqn:G; [done|]. done.
  - intros s (H1 & H2 & H3 & H4 & H5).
    pose proof (find_none _ _ E s ltac:(apply list_elem_of_In, filtered_elem; done)) as N.
    cbn in N. rewrite (proj2 (Z.eqb_neq _ _) H4), H3, (proj2 (has_true _ _) H5) in N. done.
Qed.


End Page.

(** *** What can go wrong *)

Definition item (i : Z) : SubmissionItem :=
  {| id := i; content_block_id := 1; user_id := i; grade := None; feedback := None;
     created_at := []; filename := None; submission_config := None; language_hint := None |}.

Definition no_time : str → option Z := λ _, None.

(** The answers for two submissions selected in a row arrive in the other order: the first
    is shown. *)
Lemma late_detail_wins :
  let p := run no_time [Select (item 1); Select (item 2); DetailLoaded 1 (Some (item 2));
                        DetailLoaded 0 (Some (item 1))] init in
  id <$> selectedSubmission p = Some 1.
Proof. reflexivity. Qed.

(** The details arrive after the dialog was closed: they are held all the same, and the next
    shortcut grades a submission that is not on the screen. *)
Lemma shortcut_grades_closed_dialog :
  let d := {| students := []; exercises := []; progresses := []; submissions := [item 1] |} in
  let p := run no_time [DataLoaded (Some d); OpenCell 1 1; CloseGrid; DetailLoaded 0 (Some (item 1))] init in
  shown p = None ∧ map (λ g, (g_id g, g_grade g)) (sent (step no_time (KeyDown (js "a") false) p)) = [(1, js "A")].
Proof. vm_compute. done. Qed.

(** The shortcuts stay alive under the confirmation: a submission is graded A and then,
    when the confirmation is given, R. *)
Lemma shortcut_under_confirmation :
  let p := run no_time [Select (item 1); DetailLoaded 0 (Some (item 1)); KeyDown (js "r") false;
                        KeyDown (js "a") false; Confirmed true] init in
  map (λ g, (g_id g, g_grade g)) (sent p) = [(1, js "R"); (1, js "A")].
Proof. reflexivity. Qed.

(** A grade that failed leaves its mark: the next reload closes the submission although it
    is still ungraded. *)
Lemma failed_grade_advances :
  let d := {| students := []; exercises := []; progresses := []; submissions := [item 1] |} in
  let p := run no_time [DataLoaded (Some d); Select (item 1); DetailLoaded 0 (Some (item 1));
                        KeyDown (js "a") false; GradeSettled false; Reload; DataLoaded (Some d)] init in
  selectedSubmission p = None ∧ gradedSubmissionRef p = None.
Proof. vm_compute. done. Qed.

End Review.

(** ** The grading queue and its rubrics *)

Module Rubrics.
Import Table.

Record Criterion := { c_id : Z; c_rating : option str; c_feedback : option str }.

(** [criterionResults] *)
Abbreviation results := (gmap Z (option str * str)).

(** [Object.fromEntries(criteria.map(...))]; an empty rating is none. *)
Definition init_results (cs : list Criterion) : results :=
  fold_left (λ m c, <[c_id c := (c_rating c ≫= or_undefined, default [] (c_feedback c))]> m) cs ∅.

Definition rating_of (r : results) (c : Criterion) : option str :=
  (r !! c_id c ≫= fst) ≫= or_undefined.

Definition all_rated (cs : list Criterion) (r : results) : bool :=
  forallb (λ c, bool_decide (is_Some (rating_of r c))) cs.

Record CriterionResult := { rubric_criterion_id : Z; rating : str; result_feedback : str }.

(** The payload of a grade, [None] when a criterion is not rated. *)
Definition criterion_results (cs : list Criterion) (r : results) : option (list CriterionResult) :=
  if negb (all_rated cs r) then None
  else Some (map (λ c, {| rubric_criterion_id := c_id c; rating := default [] (rating_of r c);
                          result_feedback := default [] (snd <$> r !! c_id c) |}) cs).

(** [appendFeedbackSnippet] *)
Definition appendFeedbackSnippet (current snippet : str) : str :=
  join [LF; LF] (List.filter truthy [trim current; trim snippet]).

(** Where a submission is in the queue. *)
Record QueueContext := { previousId : option Z; nextId : option Z; position : nat; total : nat }.

Fixpoint findIndex (p : SubmissionItem → bool) (l : list SubmissionItem) : option nat :=
  match l with
  | [] => None
  | x :: r => if p x then Some 0%nat else S <$> findIndex p r
  end.

(** [x?.id || null] *)
Definition id_or_null (o : option SubmissionItem) : option Z :=
  match o with Some s => if id s =? 0 then None else Some (id s) | None => None end.

Definition queue_context (queue : list SubmissionItem) (i : Z) : option QueueContext :=
  match findIndex (λ s, id s =? i) queue with
  | Some k => Some {| previousId := match k with O => None | S j => id_or_null (queue !! j) end;
                      nextId := id_or_null (queue !! S k);
                      position := S k; total := length queue |}
  | None => None
  end.

(** *** [Grading.tsx]: the selection follows the address *)

Record Page := {
  url : option Z;                              (* [searchParams.get('submission')] *)
  submissions : list SubmissionItem;
  loading : bool;
  selected : option SubmissionItem;
  feedbackText : str;
  grading : bool;
  loadingDetail : bool;
  details : list SubmissionItem;               (* the requests in flight *)
}.

Definition set_page (u : option Z) (s : option SubmissionItem) (fb : str) (ld : bool)
    (ds : list SubmissionItem) (p : Page) : Page :=
  {| url := u; submissions := submissions p; loading := loading p; selected := s;
     feedbackText := fb; grading := grading p; loadingDetail := ld; details := ds |}.

Definition set_grading (b : bool) (p : Page) : Page :=
  {| url := url p; submissions := submissions p; loading := loading p; selected := selected p;
     feedbackText := feedbackText p; grading := b; loadingDetail := loadingDetail p;
     details := details p |}.

Definition set_loading (b : bool) (l : list SubmissionItem) (p : Page) : Page :=
  {| url := url p; submissions := l; loading := b; selected := selected p;
     feedbackText := feedbackText p; grading := grading p; loadingDetail := loadingDetail p;
     details := details p |}.

Definition selectSubmission (s : SubmissionItem) (p : Page) : Page :=
  set_page (Some (id s)) (selected p) (feedbackText p) true (details p ++ [s]) p.

(** The effect that restores the selection of the address. *)
Definition restore (p : Page) : Page :=
  match url p with
  | None => p
  | Some i =>
      if (i =? 0) || bool_decide ((id <$> selected p) = Some i) || loading p || loadingDetail p then p
      else match find (λ s, id s =? i) (submissions p) with
           | Some s => selectSubmission s p
           | None => p
           end
  end.

(** An answer to the request number [k]; the server answers with the submission it was
    asked for, or fails. *)
Definition detail_answered (k : nat) (fb : option str) (p : Page) : Page :=
  match details p !! k with
  | None => p
  | Some s => set_page (url p) (Some s) (default (default [] (feedback s)) fb) false (delete k (details p)) p
  end.

Inductive event :=
| Select (s : SubmissionItem)
| Answered (k : nat) (fb : option str)
| Loaded (l : option (list SubmissionItem))
| ChooseFilter
| Grade (criteria : list Criterion) (r : results)   (* of the submission shown *)
| Graded (ok : bool)
| Edit (fb : str)
| Navigate (i : option Z).                     (* the address changes by itself *)

Definition handle (e : event) (p : Page) : Page :=
  match e with
  | Select s => selectSubmission s p
  | Answered k fb => detail_answered k fb p
  | Loaded l => set_loading false (default (submissions p) l) p
  | ChooseFilter => set_page None None (feedbackText p) (loadingDetail p) (details p) p
  | Grade cs r =>
      if bool_decide (is_Some (selected p)) && negb (grading p) && all_rated cs r then set_grading true p else p
  | Graded ok =>
      if negb (grading p) then p
      else if ok then
        set_grading false (set_loading true (submissions p)
          (set_page None None [] (loadingDetail p) (details p) p))
      else set_grading false p
  | Edit fb => set_page (url p) (selected p) fb (loadingDetail p) (details p) p
  | Navigate i => set_page i (selected p) (feedbackText p) (loadingDetail p) (details p) p
  end.

Definition step (e : event) (p : Page) : Page := restore (handle e p).

Definition run (es : list event) (p : Page) : Page := fold_left (λ p e, step e p) es p.

Definition init (u : option Z) : Page :=
  {| url := u; submissions := []; loading := true; selected := None; feedbackText := [];
     grading := false; loadingDetail := false; details := [] |}.

(** The address names a submission the page has. *)
Definition known (p : Page) : Prop := ∃ i, url p = Some i ∧ i ≠ 0 ∧ ∃ s, s ∈ submissions p ∧ id s = i.

(** The submission of the address is shown. *)
Definition follows (p : Page) : Prop := (id <$> selected p) = url p.

(** Unless the page is busy, the address has been followed; and it is busy only with
    requests in flight. *)
Record page_ok (p : Page) : Prop := {
  ok_follows : loading p = false → loadingDetail p = false → known p → follows p;
  ok_busy : loadingDetail p = true → details p ≠ [];
}.

Lemma restore_ok p : (loadingDetail p = true → details p ≠ []) → page_ok (restore p).
Proof.
  intros Hb. unfold restore. destruct (url p) as [i|] eqn:U.
  2:{ split; [|done]. intros _ _ (j & E & _). congruence. }
  destruct (i =? 0) eqn:Z0; cbn [orb].
  { split; [|done]. intros _ _ (j & E & Hj & _). apply Z.eqb_eq in Z0. congruence. }
  case_bool_decide as S; cbn [orb].
  { split; [|done]. intros _ _ _. unfold follows. by rewrite S, U. }
  destruct (loading p) eqn:L; cbn [orb]; [split; [congruence|done]|].
  destruct (loadingDetail p) eqn:D; cbn [orb]; [split; [congruence|by rewrite D]|].
  destruct (find (λ s, id s =? i) (submissions p)) as [s|] eqn:F.
  - split; [done|]. intros _. cbn. intros E. by apply app_nil in E as [_ ?].
  - split; [|congruence]. intros _ _ (j & E & _ & s & Hs & Hid). rewrite U in E. injection E as <-.
    pose proof (find_none _ _ F s ltac:(by apply list_elem_of_In)) as N. cbn in N.
    by apply Z.eqb_neq in N.
Qed.

Lemma handle_busy e p :
  (loadingDetail p = true → details p ≠ []) → loadingDetail (handle e p) = true → details (handle e p) ≠ [].
Proof.
  intros H. destruct e as [s|k fb|l| |cs r|ok|fb|i]; cbn; try done.
  - intros _ E. by apply app_nil in E as [_ ?].
  - unfold detail_answered. by destruct (details p !! k).
  - by destruct (_ && _).
  - destruct (negb (grading p)); [done|]. by destruct ok.
Qed.

Lemma run_page_ok es u : page_ok (run es (init u)).
Proof.
  assert (page_ok (init u)) as H0 by (split; done).
  revert H0. generalize (init u). induction es as [|e es IH]; intros p H; [done|].
  apply IH, restore_ok, handle_busy, H.
Qed.

(** The work left: a request for another submission than that of the address may have to
    be made good by one more. *)
Definition weight (u : option Z) (s : SubmissionItem) : nat := if bool_decide (u = Some (id s)) then 1 else 2.
Definition work (p : Page) : nat := sum_list_with (weight (url p)) (details p).

Lemma work_delete u (ds : list SubmissionItem) k s :
  ds !! k = Some s →
  (sum_list_with (weight u) (delete k ds) + weight u s)%nat = sum_list_with (weight u) ds.
Proof.
  revert k. induction ds as [|x ds IH]; intros [|k]; cbn; try done.
  - intros [= ->]. lia.
  - intros H. specialize (IH k H). unfold delete in *. lia.
Qed.

Lemma answer_decreases k fb p :
  (k < length (details p))%nat → (work (step (Answered k fb) p) < work p)%nat.
Proof.
  intros [s Hs]%lookup_lt_is_Some. pose proof (work_delete (url p) _ _ _ Hs) as W.
  fold (work p) in W. unfold step. cbn [handle]. unfold detail_answered. rewrite Hs.
  set (q := set_page _ _ _ _ _ _).
  assert (work q = sum_list_with (weight (url p)) (delete k (details p))) as Wq by reflexivity.
  assert (url q = url p) as Uq by reflexivity. unfold restore. rewrite Uq.
  assert (1 <= weight (url p) s)%nat as W1 by (unfold weight; case_bool_decide; lia).
  destruct (url p) as [i|] eqn:U; [|lia].
  destruct (i =? 0); cbn [orb]; [lia|]. cbn [selected q set_page fmap option_fmap option_map].
  case_bool_decide as E; cbn [orb]; [lia|]. destruct (loading q); cbn [orb]; [lia|].
  cbn [loadingDetail q set_page]. destruct (find _ _) as [t|] eqn:F; [|lia].
  apply find_some in F as [_ F%Z.eqb_eq].
  assert (work (selectSubmission t q) = work q + 1)%nat as Wn.
  { rewrite Wq. unfold work. cbn [url details selectSubmission set_page q].
    rewrite sum_list_with_app, F. cbn [sum_list_with].
    unfold weight at 2. by rewrite F, bool_decide_eq_true_2. }
  assert (weight (Some i) s = 2%nat) as W2.
  { unfold weight. rewrite bool_decide_eq_false_2; [done|]. intros [= ->]. by apply E. }
  lia.
Qed.

(** The grading queue shows the submission its address names. Whatever the user
    selects and in whatever order the answers arrive, when no request is in flight and the
    list is loaded, the submission shown is that of the address, if the page has it; and
    this state is reached: every answer strictly reduces the work left, which is at most
    two answers for each request in flight. *)
Theorem queue_page_follows_address (u : option Z) (es : list event) :
  let p := run es (init u) in
  (details p = [] → loading p = false → known p → follows p)
  ∧ (∀ k fb, (k < length (details p))%nat → (work (step (Answered k fb) p) < work p)%nat)
  ∧ (work p <= 2 * length (details p))%nat.
Proof.
  intros p. pose proof (run_page_ok es u) as H. fold p in H. split; [|split].
  - intros Hd Hl Hk. apply H; [done| |done]. destruct (loadingDetail p) eqn:D; [|done].
    by destruct (ok_busy p H D).
  - intros k fb. apply answer_decreases.
  - unfold work. clear. induction (details p) as [|s l IH]; [done|]. cbn [sum_list_with length].
    unfold weight at 1. case_bool_decide; lia.
Qed.

(** *** Rubrics and neighbours *)

Lemma init_results_keep cs m i :
  i ∉ map c_id cs →
  fold_left (λ m c, <[c_id c := (c_rating c ≫= or_undefined, default [] (c_feedback c))]> m) cs m !! i
  = (m : results) !! i.
Proof.
  revert m. induction cs as [|c cs IH]; intros m; [done|]. cbn. rewrite not_elem_of_cons. intros [H1 H2].
  rewrite IH by done. by rewrite lookup_insert_ne.
Qed.

(** A submission that was graded with its rubric can be graded again as it is. *)
Lemma graded_rubric_complete cs :
  NoDup (map c_id cs) → Forall (λ c, ∃ r, c_rating c = Some r ∧ r ≠ []) cs →
  ∃ out, criterion_results cs (init_results cs) = Some out
    ∧ map rubric_criterion_id out = map c_id cs ∧ map (λ o, Some (rating o)) out = map c_rating cs.
Proof.
  intros N F.
  assert (∀ c, c ∈ cs → rating_of (init_results cs) c = c_rating c) as R.
  { intros c Hc. unfold rating_of, init_results. rewrite Forall_forall in F.
    destruct (F c Hc) as (r & Hr & Hne). revert N Hc. generalize (∅ : results).
    induction cs as [|d cs IH]; intros m N Hc; [by apply elem_of_nil in Hc|].
    cbn in N. apply NoDup_cons in N as [Hd N]. cbn [fold_left].
    apply elem_of_cons in Hc as [->|Hc]; [|apply IH; [intros; apply F; by right|done|done]].
    rewrite init_results_keep by done. rewrite lookup_insert_eq. cbn. rewrite Hr. cbn.
    by destruct r. }
  unfold criterion_results. assert (all_rated cs (init_results cs) = true) as ->.
  { apply forallb_forall. intros c Hc%list_elem_of_In. rewrite R by done.
    rewrite Forall_forall in F. destruct (F c Hc) as (r & -> & _). by apply bool_decide_eq_true_2. }
  eexists. split; [done|]. rewrite !map_map. split; [done|]. apply map_ext_in.
  intros c Hc%list_elem_of_In. cbn. rewrite R by done. rewrite Forall_forall in F.
  destruct (F c Hc) as (r & -> & _). done.
Qed.

Lemma findIndex_spec p l k :
  findIndex p l = Some k → ∃ s, l !! k = Some s ∧ p s = true.
Proof.
  revert k. induction l as [|x l IH]; intros k; [done|]. cbn. destruct (p x) eqn:E.
  - intros [= <-]. by exists x.
  - destruct (findIndex p l) as [j|] eqn:F; [|done]. intros [= <-]. apply IH. done.
Qed.

(** The position is in the queue, and the neighbours are next to it. *)
Lemma queue_context_spec queue i c :
  queue_context queue i = Some c →
  (1 <= position c <= total c)%nat
  ∧ (∃ s, queue !! (position c - 1)%nat = Some s ∧ id s = i)
  ∧ (∀ n, nextId c = Some n → ∃ s, queue !! position c = Some s ∧ id s = n)
  ∧ (∀ n, previousId c = Some n → ∃ s, queue !! (position c - 2)%nat = Some s ∧ id s = n ∧ (2 <= position c)%nat).
Proof.
  unfold queue_context. destruct (findIndex _ queue) as [k|] eqn:F; [|done]. intros [= <-]. cbn.
  apply findIndex_spec in F as (s & Hs & E%Z.eqb_eq). pose proof (lookup_lt_Some _ _ _ Hs).
  assert (∀ j n, id_or_null (queue !! j) = Some n → ∃ t, queue !! j = Some t ∧ id t = n) as I.
  { intros j n. unfold id_or_null. destruct (queue !! j) as [t|]; [|done].
    destruct (id t =? 0); [done|]. intros [= <-]. by exists t. }
  split; [lia|]. split; [rewrite Nat.sub_0_r; by exists s|]. split; [apply I|].
  intros n. destruct k as [|j]; [done|]. intros Hn. cbn. rewrite Nat.sub_0_r.
  destruct (I j n Hn) as (t & ? & ?). exists t. split; [done|]. split; [done|]. lia.
Qed.

End Rubrics.
