(* ===== verification/PushNotifications.v ===== *)
(** * Push notifications of the browser

    [web/src/lib/pushNotifications.ts]. [Base64]: [window.btoa] and [window.atob] and the
    two conversions of the server's key. [Push]: enabling, refreshing and disabling, on
    the browser's subscription and the subscriptions the server knows. A byte is a
    character of code 0..255, as in the strings of [btoa] and [atob]. *)

From S2P Require Import Prelude.

Module Base64.

Definition ALPHABET : str :=
  js "ABCDEFGHIJKLMNOPQRSTUVWXYZabcdefghijklmnopqrstuvwxyz0123456789+/".

Definition digit (n : Z) : ascii := nth (Z.to_nat n) ALPHABET "A"%char.

Fixpoint index_of (c : ascii) (l : str) (i : Z) : option Z :=
  match l with
  | [] => None
  | d :: r => if bool_decide (d = c) then Some i else index_of c r (i + 1)
  end.

Definition value (c : ascii) : option Z := index_of c ALPHABET 0.

Definition byte (c : ascii) : Z := Z.of_N (code c).
Definition char (n : Z) : ascii := ascii_of_N (Z.to_N n).

(** [window.btoa] *)
Fixpoint btoa (s : str) : str :=
  match s with
  | [] => []
  | [a] => [digit (byte a / 4); digit (byte a mod 4 * 16); "="%char; "="%char]
  | [a; b] => [digit (byte a / 4); digit (byte a mod 4 * 16 + byte b / 16);
               digit (byte b mod 16 * 4); "="%char]
  | a :: b :: c :: r =>
      [digit (byte a / 4); digit (byte a mod 4 * 16 + byte b / 16);
       digit (byte b mod 16 * 4 + byte c / 64); digit (byte c mod 64)] ++ btoa r
  end.

(** [window.atob]: white space is dropped, then up to two [=] of a complete text; a
    character outside the alphabet and a length of [4n + 1] are errors. *)
Fixpoint decode (l : list Z) : option str :=
  match l with
  | [] => Some []
  | [_] => None
  | [p; q] => Some [char (p * 4 + q / 16)]
  | [p; q; r] => Some [char (p * 4 + q / 16); char (q mod 16 * 16 + r / 4)]
  | p :: q :: r :: s :: t =>
      d ← decode t;
      Some (char (p * 4 + q / 16) :: char (q mod 16 * 16 + r / 4) :: char (r mod 4 * 64 + s) :: d)
  end.

Definition blank (c : ascii) : bool :=
  (code c =? 9)%N || (code c =? 10)%N || (code c =? 12)%N || (code c =? 13)%N || (code c =? 32)%N.

Definition strip_padding (s : str) : str :=
  if (length s mod 4 =? 0)%nat then
    match reverse s with
    | "="%char :: "="%char :: r => reverse r
    | "="%char :: r => reverse r
    | _ => s
    end
  else s.

Definition atob (s : str) : option str :=
  vs ← mapM value (strip_padding (List.filter (λ c, negb (blank c)) s));
  decode vs.

(** [s.replace(/x/g, y)] for characters *)
Definition swap (x y : ascii) (s : str) : str := map (λ c, if bool_decide (c = x) then y else c) s.

(** [s.replace(/=+$/g, '')] *)
Definition drop_padding (s : str) : str := reverse (drop_while (λ c, bool_decide (c = "="%char)) (reverse s)).

Definition urlBase64ToUint8Array (s : str) : option str :=
  let padding := replicate ((4 - length s mod 4) mod 4) "="%char in
  atob (swap "_" "/" (swap "-" "+" (s ++ padding))).

Definition uint8ArrayToUrlBase64 (bytes : str) : str :=
  drop_padding (swap "/" "_" (swap "+" "-" (btoa bytes))).

(** ** Going there and back *)

Lemma byte_range c : 0 <= byte c < 256.
Proof. unfold byte, code. pose proof (N_ascii_bounded c). lia. Qed.

Lemma char_byte c : char (byte c) = c.
Proof. unfold char, byte, code. by rewrite N2Z.id, ascii_N_embedding. Qed.

(** The characters of the alphabet. *)
Definition digit_ok (n : nat) : bool :=
  let c := digit (Z.of_nat n) in
  bool_decide (value c = Some (Z.of_nat n)) && negb (blank c) && negb (bool_decide (c = "="%char))
  && negb (bool_decide (c = "-"%char)) && negb (bool_decide (c = "_"%char)).

Lemma digits_ok : forallb digit_ok (seq 0 64) = true.
Proof. vm_compute. reflexivity. Qed.

Lemma digit_spec n : 0 <= n < 64 →
  value (digit n) = Some n ∧ blank (digit n) = false ∧ digit n ≠ "="%char
  ∧ digit n ≠ "-"%char ∧ digit n ≠ "_"%char.
Proof.
  intros Hn. pose proof digits_ok as H. rewrite forallb_forall in H.
  specialize (H (Z.to_nat n) ltac:(apply in_seq; lia)). unfold digit_ok in H.
  rewrite Z2Nat.id in H by lia.
  apply andb_true_iff in H as [[[[H1%bool_decide_eq_true H2%negb_true_iff]%andb_true_iff
    H3%negb_true_iff%bool_decide_eq_false]%andb_true_iff H4%negb_true_iff%bool_decide_eq_false]%andb_true_iff
    H5%negb_true_iff%bool_decide_eq_false].
  done.
Qed.

(** The digits [btoa] writes for a text, before the padding. *)
Fixpoint digits (s : str) : list Z :=
  match s with
  | [] => []
  | [a] => [byte a / 4; byte a mod 4 * 16]
  | [a; b] => [byte a / 4; byte a mod 4 * 16 + byte b / 16; byte b mod 16 * 4]
  | a :: b :: c :: r =>
      [byte a / 4; byte a mod 4 * 16 + byte b / 16; byte b mod 16 * 4 + byte c / 64; byte c mod 64]
      ++ digits r
  end.

Fixpoint padding_of (s : str) : nat :=
  match s with [] => 0 | [_] => 2 | [_; _] => 1 | _ :: _ :: _ :: r => padding_of r end.

(** Induction by three characters. *)
Lemma three_ind (P : str → Prop) :
  P [] → (∀ a, P [a]) → (∀ a b, P [a; b]) → (∀ a b c r, P r → P (a :: b :: c :: r)) → ∀ s, P s.
Proof.
  intros H0 H1 H2 H3.
  fix IH 1. intros [|a [|b [|c r]]]; [exact H0|apply H1|apply H2|apply H3, IH].
Qed.

Lemma btoa_digits s : btoa s = map digit (digits s) ++ replicate (padding_of s) "="%char.
Proof.
  induction s as [|a|a b|a b c r IH] using three_ind; try reflexivity.
  cbn [btoa digits padding_of]. rewrite IH, map_app, <- (assoc_L (++)). done.
Qed.

Ltac byte_facts :=
  repeat match goal with
  | a : ascii |- _ =>
      lazymatch goal with
      | _ : 0 <= byte a < 256 |- _ => fail
      | _ => pose proof (byte_range a)
      end
  end.

Ltac divmod := byte_facts; Z.to_euclidean_division_equations; lia.

Lemma digits_range s : Forall (λ n, 0 <= n < 64) (digits s).
Proof.
  induction s as [|a|a b|a b c r IH] using three_ind; cbn [digits app]; repeat constructor; try divmod.
  exact IH.
Qed.

Lemma decode_digits s : decode (digits s) = Some s.
Proof.
  induction s as [|a|a b|a b c r IH] using three_ind; [done|..]; cbn [digits app decode].
  - replace (byte a / 4 * 4 + byte a mod 4 * 16 / 16) with (byte a) by divmod. by rewrite char_byte.
  - replace (byte a / 4 * 4 + (byte a mod 4 * 16 + byte b / 16) / 16) with (byte a) by divmod.
    replace ((byte a mod 4 * 16 + byte b / 16) mod 16 * 16 + byte b mod 16 * 4 / 4) with (byte b) by divmod.
    by rewrite !char_byte.
  - rewrite IH. cbn [mbind option_bind].
    replace (byte a / 4 * 4 + (byte a mod 4 * 16 + byte b / 16) / 16) with (byte a) by divmod.
    replace ((byte a mod 4 * 16 + byte b / 16) mod 16 * 16 + (byte b mod 16 * 4 + byte c / 64) / 4)
      with (byte b) by divmod.
    replace ((byte b mod 16 * 4 + byte c / 64) mod 4 * 64 + byte c mod 64) with (byte c) by divmod.
    by rewrite !char_byte.
Qed.

Lemma padding_bounds s : (padding_of s ≤ 2)%nat ∧ ((length (digits s) + padding_of s) mod 4 = 0)%nat.
Proof.
  induction s as [|a|a b|a b c r IH] using three_ind; try (cbn; split; [lia|done]).
  cbn [digits padding_of length app]. destruct IH as [IH1 IH2]. split; [done|].
  replace (S (S (S (S (length (digits r))))) + padding_of r)%nat
    with ((length (digits r) + padding_of r) + 1 * 4)%nat by lia.
  by rewrite Nat.Div0.mod_add.
Qed.

Lemma values_digits l : Forall (λ n, 0 <= n < 64) l → mapM value (map digit l) = Some l.
Proof.
  induction 1 as [|n l Hn _ IH]; [done|].
  change (mapM value (map digit (n :: l)))
    with (y ← value (digit n); k ← mapM value (map digit l); Some (y :: k)).
  rewrite (proj1 (digit_spec n Hn)), IH. done.
Qed.

(** A text of digits, with the characters of the URL alphabet. *)
Definition url_digit (n : Z) : ascii :=
  let c := digit n in
  if bool_decide (c = "+"%char) then "-"%char else if bool_decide (c = "/"%char) then "_"%char else c.

Lemma url_digit_not_padding n : 0 <= n < 64 → url_digit n ≠ "="%char.
Proof. intros Hn. unfold url_digit. repeat case_bool_decide; try done. by apply digit_spec. Qed.

Lemma url_digit_back n : 0 <= n < 64 →
  (let c := if bool_decide (url_digit n = "-"%char) then "+"%char else url_digit n in
   if bool_decide (c = "_"%char) then "/"%char else c) = digit n.
Proof.
  intros Hn. destruct (digit_spec n Hn) as (_ & _ & _ & H4 & H5). unfold url_digit.
  destruct (bool_decide (digit n = "+"%char)) eqn:E1; [by apply bool_decide_eq_true in E1 as ->|].
  destruct (bool_decide (digit n = "/"%char)) eqn:E2; [by apply bool_decide_eq_true in E2 as ->|].
  rewrite (bool_decide_eq_false_2 _ H4). cbv zeta. by rewrite (bool_decide_eq_false_2 _ H5).
Qed.

Lemma drop_padding_spec l k :
  Forall (λ c, c ≠ "="%char) l → drop_padding (l ++ replicate k "="%char) = l.
Proof.
  intros F. unfold drop_padding. rewrite reverse_app, reverse_replicate.
  induction k as [|k IH]; cbn [replicate app].
  - destruct (reverse l) as [|c r] eqn:E; [by apply (f_equal reverse) in E; rewrite reverse_involutive in E|].
    rewrite drop_while_id.
    + by rewrite <- E, reverse_involutive.
    + apply bool_decide_eq_false_2. rewrite Forall_forall in F. apply F.
      rewrite <- (reverse_involutive l), E, elem_of_reverse. by left.
  - cbn [drop_while]. rewrite bool_decide_eq_true_2 by done. exact IH.
Qed.

Lemma map_repeat_char (f : ascii → ascii) k c : map f (replicate k c) = replicate k (f c).
Proof. induction k as [|k IH]; [done|]. cbn. by rewrite IH. Qed.

Lemma encode_digits s : uint8ArrayToUrlBase64 s = map url_digit (digits s).
Proof.
  unfold uint8ArrayToUrlBase64. rewrite btoa_digits. unfold swap. rewrite !map_app, !map_map.
  rewrite !map_repeat_char. rewrite !bool_decide_eq_false_2 by done.
  assert (map (λ x, (λ c, if bool_decide (c = "/"%char) then "_"%char else c)
     ((λ c, if bool_decide (c = "+"%char) then "-"%char else c) (digit x))) (digits s)
     = map url_digit (digits s)) as E.
  { apply map_ext_in. intros n _. unfold url_digit. cbv beta zeta.
    destruct (bool_decide (digit n = "+"%char)) eqn:P; [done|]. done. }
  rewrite E. apply drop_padding_spec. apply Forall_map. eapply Forall_impl; [apply digits_range|].
  intros n Hn. by apply url_digit_not_padding.
Qed.

Lemma strip_padding_spec (l : str) k :
  Forall (λ c, c ≠ "="%char) l → (k ≤ 2)%nat → ((length l + k) mod 4 = 0)%nat →
  strip_padding (l ++ replicate k "="%char) = l.
Proof.
  intros F Hk Hm. unfold strip_padding. rewrite length_app, length_replicate, Hm. cbn [Nat.eqb].
  rewrite reverse_app, reverse_replicate.
  assert (∀ c r, reverse l = c :: r → c ≠ "="%char) as Hh.
  { intros c r E. rewrite Forall_forall in F. apply F.
    rewrite <- (reverse_involutive l), E, elem_of_reverse. by left. }
  destruct k as [|[|[|k]]]; [| | |lia]; cbn [replicate app].
  - rewrite app_nil_r. destruct (reverse l) as [|c r] eqn:E; [done|]. specialize (Hh c r eq_refl).
    destruct c as [[] [] [] [] [] [] [] []]; done.
  - destruct (reverse l) as [|c r] eqn:E.
    + by apply (f_equal reverse) in E; rewrite reverse_involutive in E.
    + specialize (Hh c r eq_refl). rewrite <- (reverse_involutive l), E.
      destruct c as [[] [] [] [] [] [] [] []]; done.
  - by rewrite reverse_involutive.
Qed.

Lemma mod4_padding n k : (k ≤ 2)%nat → ((n + k) mod 4 = 0)%nat → ((4 - n mod 4) mod 4 = k)%nat.
Proof.
  intros Hk H. pose proof (Nat.mod_upper_bound n 4 ltac:(lia)).
  rewrite Nat.Div0.add_mod in H. rewrite (Nat.mod_small k 4) in H by lia.
  destruct (n mod 4)%nat as [|[|[|[|m]]]]; [| | | |lia];
    destruct k as [|[|[|k]]]; try lia; cbn in H |- *; lia.
Qed.

Lemma filter_digits l :
  Forall (λ n, 0 <= n < 64) l → List.filter (λ c, negb (blank c)) (map digit l) = map digit l.
Proof.
  induction 1 as [|n l Hn _ IH]; [done|]. cbn [map List.filter].
  destruct (digit_spec n Hn) as (_ & -> & _). cbn [negb]. f_equal. exact IH.
Qed.

Lemma url_roundtrip s : urlBase64ToUint8Array (uint8ArrayToUrlBase64 s) = Some s.
Proof.
  rewrite encode_digits. unfold urlBase64ToUint8Array. rewrite length_map.
  destruct (padding_bounds s) as [Hp Hm]. rewrite (mod4_padding _ _ Hp Hm).
  unfold swap. rewrite !map_app, !map_map, !map_repeat_char. rewrite !bool_decide_eq_false_2 by done.
  assert (map (λ x, (λ c, if bool_decide (c = "_"%char) then "/"%char else c)
     ((λ c, if bool_decide (c = "-"%char) then "+"%char else c) (url_digit x))) (digits s)
     = map digit (digits s)) as E.
  { apply map_ext_in. intros n Hn%list_elem_of_In. pose proof (digits_range s) as F.
    rewrite Forall_forall in F. exact (url_digit_back n (F n Hn)). }
  rewrite E. unfold atob.
  assert (List.filter (λ c, negb (blank c)) (map digit (digits s) ++ replicate (padding_of s) "="%char)
          = map digit (digits s) ++ replicate (padding_of s) "="%char) as ->.
  { rewrite List.filter_app. f_equal.
    - apply filter_digits, digits_range.
    - clear. induction (padding_of s) as [|k IH]; [done|]. cbn [replicate List.filter].
      change (negb (blank "="%char)) with true. f_equal. exact IH. }
  rewrite strip_padding_spec.
  - rewrite (values_digits _ (digits_range s)). cbn. apply decode_digits.
  - apply Forall_map. eapply Forall_impl; [apply digits_range|]. intros n Hn. by apply digit_spec.
  - done.
  - by rewrite length_map.
Qed.

(** The key of the server, however it is padded, is the text of its bytes. *)
Lemma key_matches s k :
  uint8ArrayToUrlBase64 s = drop_padding (uint8ArrayToUrlBase64 s ++ replicate k "="%char).
Proof.
  rewrite encode_digits. symmetry. apply drop_padding_spec. apply Forall_map.
  eapply Forall_impl; [apply digits_range|]. intros n Hn. by apply url_digit_not_padding.
Qed.

End Base64.

(** ** Enabling, refreshing, disabling *)

Module Push.
Import Base64.

Record Subscription := {
  endpoint : str;
  applicationServerKey : option str;           (* [subscription.options], bytes *)
  p256dh : str;
  auth : str;
}.

(** The browser's subscription, and the endpoints of the user that the server notifies. *)
Record World := {
  supported : bool;
  permission_granted : bool;                   (* [Notification.permission] *)
  browser : option Subscription;
  server : list str;
}.

(** [PushSubscription.unsubscribe]: the subscription is gone, the promise resolves to [false]
    and it stays, or the promise is rejected and it stays. *)
Inductive Unsubscribed := Gone | Stays | Rejected.

(** What the user, the browser and the network do during a call. *)
Record Env := {
  grants : bool;                               (* the answer to [requestPermission] *)
  fresh : option (str * str * str);            (* [subscribe]: endpoint and keys, or it throws *)
  delete_ok : bool;                            (* the API accepts a deletion *)
  create_ok : bool;                            (* the API accepts a subscription *)
  unsubscribes : Unsubscribed;
}.

Definition set_browser (b : option Subscription) (w : World) : World :=
  {| supported := supported w; permission_granted := permission_granted w; browser := b;
     server := server w |}.

Definition set_server (l : list str) (w : World) : World :=
  {| supported := supported w; permission_granted := permission_granted w; browser := browser w;
     server := l |}.

Definition set_permission (b : bool) (w : World) : World :=
  {| supported := supported w; permission_granted := b; browser := browser w; server := server w |}.

(** [PushSubscriptionsController#destroy]: all subscriptions, or one. *)
Definition deletePushSubscription (env : Env) (e : option str) (all : bool) (w : World) : World * bool :=
  if negb (delete_ok env) then (w, false)
  else (set_server
          (if all then []
           else match e with
                | Some e => if truthy e then filter (λ x, x ≠ e) (server w) else server w
                | None => server w
                end) w, true).

Definition createPushSubscription (env : Env) (e : str) (w : World) : World * bool :=
  if create_ok env then (set_server (e :: filter (λ x, x ≠ e) (server w)) w, true) else (w, false).

Definition subscriptionUsesPublicKey (s : Subscription) (publicKey : str) : bool :=
  match applicationServerKey s with
  | None => true
  | Some currentKey => eqs (uint8ArrayToUrlBase64 currentKey) (drop_padding publicKey)
  end.

(** [subscription.unsubscribe()]; [false] when it is rejected. *)
Definition unsubscribe (env : Env) (w : World) : World * bool :=
  match unsubscribes env with
  | Gone => (set_browser None w, true)
  | Stays => (w, true)
  | Rejected => (w, false)
  end.

(** [pushManager.subscribe] with the key of the server; [None] when it throws, as it does
    while the browser has a subscription for another key. *)
Definition subscribe (env : Env) (publicKey : str) (w : World) : World * option Subscription :=
  match urlBase64ToUint8Array publicKey, fresh env, browser w with
  | Some key, Some (e, p, a), None =>
      let s := {| endpoint := e; applicationServerKey := Some key; p256dh := p; auth := a |} in
      (set_browser (Some s) w, Some s)
  | _, _, _ => (w, None)
  end.

Definition subscribeWithPublicKey (env : Env) (publicKey : str) (w : World)
    : World * option Subscription :=
  match browser w with
  | Some existing =>
      if subscriptionUsesPublicKey existing publicKey then (w, Some existing)
      else match unsubscribe env (deletePushSubscription env (Some (endpoint existing)) false w).1 with
           | (w1, true) => subscribe env publicKey w1
           | (w1, false) => (w1, None)
           end
  | None => subscribe env publicKey w
  end.

(** [false] when it throws: keys that are missing, or an error of the API. *)
Definition saveSubscription (env : Env) (s : Subscription) (w : World) : World * bool :=
  if negb (truthy (p256dh s)) || negb (truthy (auth s)) then (w, false)
  else createPushSubscription env (endpoint s) w.

(** The result, or the error that is thrown. *)
Definition enablePushNotifications (env : Env) (publicKey : str) (w : World)
    : World * (str + Subscription) :=
  if negb (supported w) then (w, inl (js "Push notifications are not supported in this browser."))
  else
    let w0 := set_permission (grants env) w in
    if negb (grants env) then (w0, inl (js "Notifications were not enabled."))
    else match subscribeWithPublicKey env publicKey w0 with
         | (w1, None) => (w1, inl (js "subscribe"))
         | (w1, Some s) =>
             match saveSubscription env s w1 with
             | (w2, true) => (w2, inr s)
             | (w2, false) => (w2, inl (js "save"))
             end
         end.

Definition refreshExistingPushSubscription (env : Env) (publicKey : str) (w : World)
    : World * (str + bool) :=
  if negb (supported w) || negb (permission_granted w) then (w, inr false)
  else match browser w with
       | None => (w, inr false)
       | Some _ =>
           match subscribeWithPublicKey env publicKey w with
           | (w1, None) => (w1, inl (js "subscribe"))
           | (w1, Some s) =>
               match saveSubscription env s w1 with
               | (w2, true) => (w2, inr true)
               | (w2, false) => (w2, inl (js "save"))
               end
           end
       end.

(** [true] when it returns, [false] when it throws. *)
Definition disablePushNotifications (env : Env) (w : World) : World * bool :=
  if negb (supported w) then deletePushSubscription env None true w
  else match deletePushSubscription env (endpoint <$> browser w) true w with
       | (w1, false) => (w1, false)
       | (w1, true) => match browser w with Some _ => unsubscribe env w1 | None => (w1, true) end
       end.

(** [pushConfigurationHint] *)
Definition pushConfigurationHint (configured : bool) (missing : list str) (publicKey : option str) : str :=
  let notes :=
    (if configured then []
     else match missing with
          | [] => [js "API push is not configured yet."]
          | _ => [js "API push is missing " ++ join (js ", ") missing ++ js "."]
          end)
    ++ (if truthy (default [] publicKey) then []
        else [js "Netlify also needs VITE_WEB_PUSH_PUBLIC_KEY."]) in
  match notes with
  | [] => []
  | _ => join (js " ") (notes ++ [js "Redeploy after updating env vars."])
  end.

(** The key of the server, in the URL alphabet, with any padding. *)
Definition server_key (bytes : str) (k : nat) : str :=
  uint8ArrayToUrlBase64 bytes ++ replicate k "="%char.

(** The subscription was made for the key with these bytes (or the browser does not say). *)
Definition made_for (bytes : str) (s : Subscription) : Prop :=
  applicationServerKey s = None ∨ applicationServerKey s = Some bytes.

(** Both sides know of the same subscription, made for the key. *)
Definition in_sync (bytes : str) (w : World) : Prop :=
  ∃ s, browser w = Some s ∧ endpoint s ∈ server w ∧ made_for bytes s.

Lemma uses_key s bytes k : subscriptionUsesPublicKey s (server_key bytes k) = true ↔ made_for bytes s.
Proof.
  unfold subscriptionUsesPublicKey, made_for. destruct (applicationServerKey s) as [c|]; [|naive_solver].
  unfold server_key. rewrite <- key_matches. split.
  - intros E%eqs_true. right. f_equal. pose proof (url_roundtrip c) as H. rewrite E, url_roundtrip in H. congruence.
  - intros [[=]|[= ->]]. by apply eqs_true.
Qed.

Lemma server_key_plain bytes : server_key bytes 0 = uint8ArrayToUrlBase64 bytes.
Proof. apply app_nil_r. Qed.

Lemma uses_plain_key s bytes : subscriptionUsesPublicKey s (uint8ArrayToUrlBase64 bytes) = true ↔ made_for bytes s.
Proof. rewrite <- (uses_key s bytes 0). by rewrite server_key_plain. Qed.

Lemma uses_own_key env bytes w w1 s :
  subscribe env (uint8ArrayToUrlBase64 bytes) w = (w1, Some s) → browser w1 = Some s ∧ made_for bytes s.
Proof.
  unfold subscribe. rewrite url_roundtrip. destruct (fresh env) as [[[e p] a]|]; [|done].
  destruct (browser w); [done|]. intros [= <- <-]. split; [done|]. by right.
Qed.

Lemma subscribe_with_spec env bytes w w1 s :
  subscribeWithPublicKey env (uint8ArrayToUrlBase64 bytes) w = (w1, Some s) → browser w1 = Some s ∧ made_for bytes s.
Proof.
  unfold subscribeWithPublicKey. destruct (browser w) as [existing|] eqn:B; [|apply uses_own_key].
  destruct (subscriptionUsesPublicKey existing _) eqn:U; [intros [= <- <-]; split; [done|by apply uses_plain_key]|].
  destruct (unsubscribe _ _) as [w2 []]; [apply uses_own_key|done].
Qed.

Lemma save_spec env s w w1 :
  saveSubscription env s w = (w1, true) → endpoint s ∈ server w1 ∧ browser w1 = browser w.
Proof.
  unfold saveSubscription, createPushSubscription. destruct (_ || _); [done|].
  destruct (create_ok env); [|done]. intros [= <-]. split; [by left|done].
Qed.

Lemma refresh_in_sync env bytes w w1 :
  refreshExistingPushSubscription env (uint8ArrayToUrlBase64 bytes) w = (w1, inr true) → in_sync bytes w1.
Proof.
  unfold refreshExistingPushSubscription. destruct (_ || _); [done|]. destruct (browser w) as [e|]; [|done].
  destruct (subscribeWithPublicKey env _ w) as [w2 [s|]] eqn:S; [|done].
  destruct (saveSubscription env s w2) as [w3 []] eqn:V; [|done]. intros [= <-].
  apply subscribe_with_spec in S as [S1 S2]. apply save_spec in V as [V1 V2].
  exists s. split; [by rewrite V2|]. done.
Qed.

Lemma enable_in_sync env bytes w w1 s :
  enablePushNotifications env (uint8ArrayToUrlBase64 bytes) w = (w1, inr s) →
  in_sync bytes w1 ∧ browser w1 = Some s.
Proof.
  unfold enablePushNotifications. destruct (supported w); [|done]. cbn [negb].
  destruct (grants env); [|done]. cbn [negb].
  destruct (subscribeWithPublicKey env _ _) as [w2 [s'|]] eqn:S; [|done].
  destruct (saveSubscription env s' w2) as [w3 []] eqn:V; [|done]. intros [= <- <-].
  apply subscribe_with_spec in S as [S1 S2]. apply save_spec in V as [V1 V2].
  split; [exists s'; by rewrite V2|by rewrite V2].
Qed.

(** The heartbeat of a browser that is subscribed with the key. *)
Lemma refresh_again env bytes w k :
  in_sync bytes w → create_ok env = true → supported w = true → permission_granted w = true →
  (∀ s, browser w = Some s → p256dh s ≠ [] ∧ auth s ≠ []) →
  let r := refreshExistingPushSubscription env (server_key bytes k) w in
  r.2 = inr true ∧ browser r.1 = browser w ∧ (∀ e, e ∈ server r.1 ↔ e ∈ server w).
Proof.
  intros (s & B & E & U) Hc Hs Hp Hk r. unfold r, refreshExistingPushSubscription.
  rewrite Hs, Hp, B. cbn [negb orb]. unfold subscribeWithPublicKey. rewrite B, (proj2 (uses_key s bytes k) U).
  unfold saveSubscription. destruct (Hk s B) as [K1 K2]. destruct (p256dh s), (auth s); try done. cbn [truthy negb orb].
  unfold createPushSubscription. rewrite Hc. cbn. split; [done|]. split; [done|]. intros e.
  rewrite elem_of_cons, list_elem_of_filter. destruct (decide (e = endpoint s)) as [->|]; naive_solver.
Qed.

(** The server has a new key. *)
Lemma key_rotated env bytes other w s e p a k :
  browser w = Some s → applicationServerKey s = Some other → other ≠ bytes → endpoint s ≠ [] →
  supported w = true → permission_granted w = true → delete_ok env = true → create_ok env = true →
  unsubscribes env = Gone → fresh env = Some (e, p, a) → p ≠ [] → a ≠ [] →
  urlBase64ToUint8Array (server_key bytes k) = Some bytes →
  let r := refreshExistingPushSubscription env (server_key bytes k) w in
  r.2 = inr true
  ∧ browser r.1 = Some {| endpoint := e; applicationServerKey := Some bytes; p256dh := p; auth := a |}
  ∧ (∀ x, x ∈ server r.1 ↔ x = e ∨ x ≠ endpoint s ∧ x ∈ server w).
Proof.
  intros B A N En Hs Hp Hd Hc Hu Hf Np Na K r. unfold r, refreshExistingPushSubscription. rewrite Hs, Hp, B. cbn [negb orb].
  unfold subscribeWithPublicKey. rewrite B. destruct (subscriptionUsesPublicKey s _) eqn:U.
  { apply uses_key in U as [U|U]; [congruence|]. rewrite A in U. congruence. }
  unfold deletePushSubscription. rewrite Hd. cbn [negb fst]. unfold unsubscribe. rewrite Hu.
  unfold subscribe. rewrite K, Hf. cbn [browser set_browser]. unfold saveSubscription. cbn [p256dh auth].
  destruct p, a; try done. cbn [truthy negb orb]. unfold createPushSubscription. rewrite Hc. cbn.
  split; [done|]. split; [done|]. intros x. destruct (endpoint s) as [|c0 l0] eqn:Es; [done|]. cbn [truthy].
  rewrite elem_of_cons, !list_elem_of_filter. destruct (decide (x = e)); naive_solver.
Qed.

(** C34: the server's key and the browser's subscription. The bytes of a key survive being
    written in the URL alphabet and read back, whatever bytes they are. When enabling or
    refreshing succeeds, the browser has a subscription that the server knows and that was
    made for that key (or whose key the browser does not tell). Refreshing again, with the key
    padded or not, keeps the browser's subscription and the server's list. When the key has
    changed and the browser and the server cooperate, refreshing replaces the old subscription
    by a new one for the new key, and the server no longer has the old endpoint. Disabling
    changes nothing when the server refuses; otherwise the server has no subscription of the
    user any more, and the browser's is gone unless the browser fails to remove it: then it
    stays, and the call throws if the browser reported an error. *)
Theorem push_in_sync (env : Env) (bytes : str) (w : World) :
  let key := uint8ArrayToUrlBase64 bytes in
  urlBase64ToUint8Array key = Some bytes
  ∧ (∀ w1 s, enablePushNotifications env key w = (w1, inr s) → in_sync bytes w1 ∧ browser w1 = Some s)
  ∧ (∀ w1, refreshExistingPushSubscription env key w = (w1, inr true) → in_sync bytes w1)
  ∧ (∀ k, in_sync bytes w → create_ok env = true → supported w = true → permission_granted w = true →
     (∀ s, browser w = Some s → p256dh s ≠ [] ∧ auth s ≠ []) →
     let r := refreshExistingPushSubscription env (server_key bytes k) w in
     r.2 = inr true ∧ browser r.1 = browser w ∧ (∀ e, e ∈ server r.1 ↔ e ∈ server w))
  ∧ (∀ other s e p a,
     browser w = Some s → applicationServerKey s = Some other → other ≠ bytes → endpoint s ≠ [] →
     supported w = true → permission_granted w = true → delete_ok env = true → create_ok env = true →
     unsubscribes env = Gone → fresh env = Some (e, p, a) → p ≠ [] → a ≠ [] →
     let r := refreshExistingPushSubscription env key w in
     r.2 = inr true
     ∧ browser r.1 = Some {| endpoint := e; applicationServerKey := Some bytes; p256dh := p; auth := a |}
     ∧ (∀ x, x ∈ server r.1 ↔ x = e ∨ x ≠ endpoint s ∧ x ∈ server w))
  ∧ (let r := disablePushNotifications env w in
     if delete_ok env then
       server r.1 = []
       ∧ (browser r.1 = if supported w then match unsubscribes env with Gone => None | _ => browser w end else browser w)
       ∧ (r.2 = false ↔ supported w = true ∧ browser w ≠ None ∧ unsubscribes env = Rejected)
     else r = (w, false)).
Proof.
  intros key. split; [apply url_roundtrip|]. split; [apply enable_in_sync|]. split; [apply refresh_in_sync|].
  split; [intros k ? ? ? ? ?; by apply refresh_again|]. split.
  - unfold key. rewrite <- server_key_plain. intros other s e p a. intros. eapply key_rotated; try done.
    rewrite server_key_plain. apply url_roundtrip.
  - cbv zeta. unfold disablePushNotifications, deletePushSubscription, unsubscribe.
    destruct (delete_ok env); cbn [negb]; [|by destruct (supported w)].
    destruct (supported w) eqn:S; cbn [negb]; [|split_and!; [done|done|naive_solver]].
    destruct (browser w) as [s|] eqn:B.
    + destruct (unsubscribes env); cbn; rewrite ?B; (split_and!; [done|done|]); naive_solver.
    + cbn. rewrite B. split_and!; [done|by destruct (unsubscribes env)|naive_solver].
Qed.

End Push.
