(* ===== verification/VoiceRecorder.v ===== *)
(** * Voice recording

    [mobile/src/providers/voice-recorder-provider.tsx]: the one recorder of the app and
    which composer has claimed it, and [mobile/src/hooks/use-voice-draft.ts]: what a
    composer does with it, from the permission to the reviewed text.

    Every composer of the app is a [Hook]; they share the recorder, its audio mode and
    the audio files. A handler runs up to its next [await]; what it waits for is kept in
    the hook ([starts], [fin], [trans]) and goes on with an event of its own, so that the
    events of several composers interleave freely. *)

From S2P Require Import Prelude.
From S2P Require Import VoiceDraft.

Inductive VoiceDraftState := idle | preparing | recording | transcribing | in_review | failed.

#[export] Instance VoiceDraftState_eq_dec : EqDecision VoiceDraftState.
Proof. solve_decision. Defined.

(** ** The shared recorder *)

Record Shared := {
  owner : option nat;                          (* [ownerRef] *)
  isRecording : bool;
  file : option nat;                           (* [recorder.uri]: the file prepared last *)
  fresh : nat;
  audio : list nat;                            (* the files that hold recorded audio *)
  allowsRecording : bool;                      (* the audio mode *)
}.

Definition set_owner (o : option nat) (s : Shared) : Shared :=
  {| owner := o; isRecording := isRecording s; file := file s; fresh := fresh s; audio := audio s;
     allowsRecording := allowsRecording s |}.
Definition set_mode (b : bool) (s : Shared) : Shared :=
  {| owner := owner s; isRecording := isRecording s; file := file s; fresh := fresh s; audio := audio s;
     allowsRecording := b |}.
Definition set_recording (b : bool) (l : list nat) (s : Shared) : Shared :=
  {| owner := owner s; isRecording := b; file := file s; fresh := fresh s; audio := l;
     allowsRecording := allowsRecording s |}.
(** [prepareToRecordAsync] makes a new file. *)
Definition prepare (s : Shared) : Shared :=
  {| owner := owner s; isRecording := isRecording s; file := Some (fresh s); fresh := S (fresh s);
     audio := audio s; allowsRecording := allowsRecording s |}.

Definition owns (i : nat) (s : Shared) : bool := bool_decide (owner s = Some i).
Definition claim (i : nat) (s : Shared) : option Shared :=
  match owner s with
  | Some j => if bool_decide (j = i) then Some (set_owner (Some i) s) else None
  | None => Some (set_owner (Some i) s)
  end.
Definition release (i : nat) (s : Shared) : Shared := if owns i s then set_owner None s else s.

Definition resetAudioMode (s : Shared) : Shared := set_mode false s.

Definition deleteRecording (u : option nat) (s : Shared) : Shared :=
  match u with
  | Some f => set_recording (isRecording s) (filter (λ g, g ≠ f) (audio s)) s
  | None => s
  end.

(** ** A composer *)

(** What the user reads and writes. *)
Record Text := {
  review : option VoiceDraftReview; error : option str; notice : option str;
  draft : str; sel_start : Z; sel_end : Z;
}.

(** Where [startRecording] waits. *)
Inductive StartPoint := AtPermission | AtRequest | AtMode | AtPrepare | AtReset | AtFailed (msg : str).

(** Who waits for the recording to be finished; a cancellation has read [recordingUri]. *)
Inductive Waiter := WStop | WCancel (captured : option nat) (background : bool) | WUnmount.

#[export] Instance Waiter_eq_dec : EqDecision Waiter.
Proof. solve_decision. Defined.

Inductive Phase := Stopping | Resetting (u : option nat).
Record Finalization := { phase : Phase; millis : Z; waiters : list Waiter }.

Record Transcription := { t_id : nat; t_uri : nat; t_aborted : bool }.

Record Hook := {
  text : Text;
  vstate : VoiceDraftState;
  uri : option nat;                            (* [recordingUri] *)
  mounted : bool;
  asked : nat;                                 (* [start] called, the explanation not answered *)
  attempt : nat;                               (* [startAttemptRef] *)
  starts : option (StartPoint * nat);          (* [startRecording] in flight, and its attempt *)
  fin : option Finalization;                   (* [finalizeRef] *)
  trans : list Transcription;                  (* the transcriptions in flight *)
  abortRef : option nat;
  next_ctl : nat;
}.

Definition set_text (t : Text) (h : Hook) : Hook :=
  {| text := t; vstate := vstate h; uri := uri h; mounted := mounted h; asked := asked h;
     attempt := attempt h; starts := starts h; fin := fin h; trans := trans h;
     abortRef := abortRef h; next_ctl := next_ctl h |}.
Definition set_state (v : VoiceDraftState) (h : Hook) : Hook :=
  {| text := text h; vstate := v; uri := uri h; mounted := mounted h; asked := asked h;
     attempt := attempt h; starts := starts h; fin := fin h; trans := trans h;
     abortRef := abortRef h; next_ctl := next_ctl h |}.
Definition set_uri (u : option nat) (h : Hook) : Hook :=
  {| text := text h; vstate := vstate h; uri := u; mounted := mounted h; asked := asked h;
     attempt := attempt h; starts := starts h; fin := fin h; trans := trans h;
     abortRef := abortRef h; next_ctl := next_ctl h |}.
Definition set_asked (n : nat) (h : Hook) : Hook :=
  {| text := text h; vstate := vstate h; uri := uri h; mounted := mounted h; asked := n;
     attempt := attempt h; starts := starts h; fin := fin h; trans := trans h;
     abortRef := abortRef h; next_ctl := next_ctl h |}.
Definition set_starts (a : nat) (p : option (StartPoint * nat)) (h : Hook) : Hook :=
  {| text := text h; vstate := vstate h; uri := uri h; mounted := mounted h; asked := asked h;
     attempt := a; starts := p; fin := fin h; trans := trans h;
     abortRef := abortRef h; next_ctl := next_ctl h |}.
Definition set_fin (f : option Finalization) (h : Hook) : Hook :=
  {| text := text h; vstate := vstate h; uri := uri h; mounted := mounted h; asked := asked h;
     attempt := attempt h; starts := starts h; fin := f; trans := trans h;
     abortRef := abortRef h; next_ctl := next_ctl h |}.
Definition set_trans (ts : list Transcription) (a : option nat) (n : nat) (h : Hook) : Hook :=
  {| text := text h; vstate := vstate h; uri := uri h; mounted := mounted h; asked := asked h;
     attempt := attempt h; starts := starts h; fin := fin h; trans := ts;
     abortRef := a; next_ctl := n |}.
Definition set_mounted (b : bool) (h : Hook) : Hook :=
  {| text := text h; vstate := vstate h; uri := uri h; mounted := b; asked := asked h;
     attempt := attempt h; starts := starts h; fin := fin h; trans := trans h;
     abortRef := abortRef h; next_ctl := next_ctl h |}.

Definition set_messages (r : option VoiceDraftReview) (e n : option str) (h : Hook) : Hook :=
  set_text {| review := r; error := e; notice := n; draft := draft (text h);
              sel_start := sel_start (text h); sel_end := sel_end (text h) |} h.
Definition set_error (e : option str) (h : Hook) : Hook :=
  set_messages (review (text h)) e (notice (text h)) h.
Definition set_draft (d : str) (a b : Z) (h : Hook) : Hook :=
  set_text {| review := review (text h); error := error (text h); notice := notice (text h);
              draft := d; sel_start := a; sel_end := b |} h.

Definition new_hook : Hook :=
  {| text := {| review := None; error := None; notice := None; draft := []; sel_start := 0; sel_end := 0 |};
     vstate := idle; uri := None; mounted := true; asked := 0; attempt := 0; starts := None; fin := None;
     trans := []; abortRef := None; next_ctl := 0 |}.

Definition or_text (m d : str) : str := if truthy m then m else d.

Definition DENIED : str := js "Microphone access is off. You can keep typing, or enable microphone access in device settings.".
Definition TOO_SHORT : str := js "That recording was too short. Tap the microphone and speak your draft before stopping.".
Definition NO_SPEECH : str := js "No speech was detected. Try again a little closer to the microphone.".
Definition NOT_STARTED : str := js "The microphone could not start. Try again.".
Definition NOT_FINISHED : str := js "The recording could not be finished. Try again.".
Definition LEFT : str := js "Recording stopped when CSG Connect left the foreground. Your typed draft is safe.".
Definition CLEANUP : str := js "The faithful transcript was used because cleanup was unavailable. Review it before sending.".
Definition AMBIGUOUS : str := js "Voice draft added with possible ambiguities. Review technical terms before sending.".
Definition ADDED : str := js "Voice draft added. Review and edit it before sending.".
Definition RESTORED : str := js "Original transcript restored. Review it before sending.".

Definition MAX_VOICE_RECORDING_SECONDS : Z := 5 * 60.

(** ** Starting *)

Abbreviation St := (Shared * Hook)%type.

Definition startRecording (i : nat) (x : St) : St :=
  let '(s, h) := x in
  match starts h with
  | Some _ => x
  | None =>
      match claim i s with
      | None => x
      | Some s1 =>
          (s1, set_state preparing (set_starts (S (attempt h)) (Some (AtPermission, S (attempt h))) h))
      end
  end.

(** The test after every [await] of [startRecording]. *)
Definition current (i a : nat) (x : St) : bool :=
  mounted x.2 && bool_decide (attempt x.2 = a) && owns i x.1.

Inductive Answer := Granted | NotGranted | Done | Threw (msg : str).

Definition at_point (p : StartPoint) (a : nat) (h : Hook) : Hook := set_starts (attempt h) (Some (p, a)) h.
Definition returned (h : Hook) : Hook := set_starts (attempt h) None h.

(** The permission was granted. *)
Definition start_granted (i a : nat) (x : St) : St :=
  let '(s, h) := x in
  if negb (current i a x) then (s, returned h)
  else (set_mode true (deleteRecording (uri h) s),
        at_point AtMode a (set_uri None (set_messages None None None h))).

Definition start_resumes (i : nat) (r : Answer) (x : St) : St :=
  let '(s, h) := x in
  match starts h with
  | None => x
  | Some (p, a) =>
      match p, r with
      | AtReset, _ => (s, returned h)
      | AtFailed m, _ => (s, returned (set_state failed (set_error (Some (or_text m NOT_STARTED)) h)))
      | _, Threw m => (resetAudioMode (release i s), at_point (AtFailed m) a h)
      | AtPermission, Granted => start_granted i a x
      | AtPermission, NotGranted => (s, at_point AtRequest a h)
      | AtRequest, Granted => start_granted i a x
      | AtRequest, NotGranted => (release i s, returned (set_state failed (set_error (Some DENIED) h)))
      | AtMode, Done =>
          if current i a x then (prepare s, at_point AtPrepare a h)
          else (resetAudioMode s, at_point AtReset a h)
      | AtPrepare, Done =>
          if current i a x
          then (set_recording true (match file s with Some f => f :: audio s | None => audio s end) s,
                returned (set_state recording h))
          else (resetAudioMode s, at_point AtReset a h)
      | _, _ => x
      end
  end.

(** [start]: the explanation is shown once; until it is answered the call waits. *)
Definition start (disabled demo : bool) (h : Hook) : Hook :=
  if disabled || bool_decide (is_Some (starts h))
     || bool_decide (vstate h = recording) || bool_decide (vstate h = transcribing)
     || bool_decide (vstate h = preparing) || demo
  then h else set_asked (S (asked h)) h.

Definition start_continues (i : nat) (x : St) : St :=
  let '(s, h) := x in
  match asked h with
  | O => x
  | S n => startRecording i (s, set_asked n h)
  end.

(** ** Finishing *)

Definition finalizeRecording (i : nat) (d : Z) (w : Waiter) (x : St) : St :=
  let '(s, h) := x in
  match fin h with
  | Some f => (s, set_fin (Some {| phase := phase f; millis := millis f; waiters := waiters f ++ [w] |}) h)
  | None =>
      if isRecording s
      then (s, set_fin (Some {| phase := Stopping; millis := d; waiters := [w] |}) h)
      else (resetAudioMode s,
            set_fin (Some {| phase := Resetting (match file s with Some f => Some f | None => uri h end);
                             millis := d; waiters := [w] |}) h)
  end.

Definition transcribe (u : nat) (h : Hook) : Hook :=
  let h1 := set_messages (review (text h)) None None (set_state transcribing h) in
  set_trans (trans h ++ [{| t_id := next_ctl h; t_uri := u; t_aborted := false |}])
    (Some (next_ctl h)) (S (next_ctl h)) h1.

(** [abortRef.current?.abort()] *)
Definition abort (h : Hook) : Hook :=
  set_trans (map (λ t, if bool_decide (abortRef h = Some (t_id t))
                       then {| t_id := t_id t; t_uri := t_uri t; t_aborted := true |} else t) (trans h))
    (abortRef h) (next_ctl h) h.

(** The end of [cancel]. *)
Definition discard (u : option nat) (x : St) : St :=
  (deleteRecording u x.1, set_state idle (set_messages None None None (set_uri None x.2))).

(** What follows the recording that was finished ([inr]: its file) or could not be ([inl]: why). *)
Definition run_waiter (i : nat) (d : Z) (r : str + option nat) (x : St) (w : Waiter) : St :=
  let '(s, h) := x in
  match w, r with
  | WStop, inr u =>
      if negb (mounted h) then (deleteRecording u s, h)
      else match u with
           | Some f =>
               if Z.min (MAX_VOICE_RECORDING_SECONDS * 1000) d <? 400
               then (deleteRecording u s, set_state failed (set_error (Some TOO_SHORT) h))
               else (s, transcribe f (set_uri (Some f) h))
           | None => (s, set_state failed (set_error (Some TOO_SHORT) h))
           end
  | WStop, inl m =>
      if negb (mounted h) then x
      else (resetAudioMode (release i s), set_state failed (set_error (Some (or_text m NOT_FINISHED)) h))
  | WCancel captured _, inr (Some f) => discard (Some f) x
  | WCancel captured _, _ => discard captured x
  | WUnmount, inr u => (deleteRecording (match u with Some f => Some f | None => uri h end) s, h)
  | WUnmount, inl _ => x
  end.

Definition in_background (w : Waiter) : bool := match w with WCancel _ b => b | _ => false end.

(** The app left the foreground: the composer says so once the recording is cancelled. *)
Definition background_notice (b : bool) (h : Hook) : Hook :=
  if b && mounted h then set_state failed (set_error (Some LEFT) h) else h.

Definition resume_waiters (i : nat) (f : Finalization) (r : str + option nat) (x : St) : St :=
  let '(s, h) := fold_left (run_waiter i (millis f) r) (waiters f) x in
  (s, background_notice (existsb in_background (waiters f)) h).

(** [recorder.stop()] settled; [Some]: it failed. *)
Definition stopped (i : nat) (failure : option str) (x : St) : St :=
  let '(s, h) := x in
  match fin h with
  | Some f =>
      match phase f with
      | Resetting _ => x
      | Stopping =>
          match failure with
          | None =>
            let s1 := resetAudioMode (set_recording false (audio s) s) in
            (s1, set_fin (Some {| phase := Resetting (match file s with Some f => Some f | None => uri h end);
                                  millis := millis f; waiters := waiters f |}) h)
          | Some m => resume_waiters i f (inl m) (s, set_fin None h)
          end
      end
  | None => x
  end.

(** The audio mode was reset: the recording is finished. *)
Definition reset_done (i : nat) (x : St) : St :=
  let '(s, h) := x in
  match fin h with
  | Some f =>
      match phase f with
      | Stopping => x
      | Resetting u => resume_waiters i f (inr u) (release i s, set_fin None h)
      end
  | None => x
  end.

(** ** The buttons *)

Definition stop (i : nat) (d : Z) (x : St) : St :=
  let '(s, h) := x in
  if negb (bool_decide (vstate h = recording)) || negb (owns i s) then x
  else finalizeRecording i d WStop (s, set_state transcribing h).

Definition cancel (i : nat) (d : Z) (background : bool) (x : St) : St :=
  let '(s, h0) := x in
  let h := abort (set_starts (S (attempt h0)) (starts h0) h0) in
  if owns i s then finalizeRecording i d (WCancel (uri h) background) (s, h)
  else let '(s1, h1) := discard (uri h) (s, h) in (s1, background_notice background h1).

Definition retry (disabled demo : bool) (h : Hook) : Hook :=
  match uri h with Some u => transcribe u h | None => start disabled demo h end.

Definition recordAgain (i : nat) (x : St) : St :=
  let h := abort x.2 in
  startRecording i (deleteRecording (uri h) x.1, set_state idle (set_error None (set_uri None h))).

Definition restore (h : Hook) : Hook :=
  match review (text h) with
  | None => h
  | Some r =>
      match restoreRawVoiceDraft (draft (text h)) r with
      | None => h
      | Some (v, c) =>
          set_messages (Some r) (error (text h)) (Some RESTORED) (set_draft v (Z.of_nat c) (Z.of_nat c) h)
      end
  end.

Definition dismissReview (h : Hook) : Hook :=
  set_state idle (set_messages (review (text h)) (error (text h)) None h).

Definition markSent (h : Hook) : Hook := set_state idle (set_messages None (error (text h)) None h).

Definition unmount (i : nat) (d : Z) (x : St) : St :=
  let '(s, h0) := x in
  let h := abort (set_mounted false (set_starts (S (attempt h0)) (starts h0) h0)) in
  if owns i s then finalizeRecording i d WUnmount (s, h) else (deleteRecording (uri h) s, h).

(** ** The transcription *)

Record Transcript := { raw_text : str; suggested_text : str; warnings : list str }.

Definition notice_of (ws : list str) : str :=
  if bool_decide (js "cleanup_unavailable" ∈ ws) then CLEANUP
  else match ws with [] => ADDED | _ => AMBIGUOUS end.

(** [api.transcribeVoice] settled, for the transcription number [k] in flight. *)
Definition transcribed (k : nat) (r : str + Transcript) (x : St) : St :=
  let '(s, h0) := x in
  match trans h0 !! k with
  | None => x
  | Some t =>
      let h := set_trans (delete k (trans h0))
                 (if bool_decide (abortRef h0 = Some (t_id t)) then None else abortRef h0) (next_ctl h0) h0 in
      if negb (mounted h) || t_aborted t then (s, h)
      else match r with
           | inl m => (s, set_state failed (set_error (Some m) h))
           | inr a =>
               let raw := trim (raw_text a) in
               let suggested := or_text (trim (suggested_text a)) raw in
               if negb (truthy raw) then (s, set_state failed (set_error (Some NO_SPEECH) h))
               else
                 let ins := insertVoiceDraft (draft (text h)) (sel_start (text h)) (sel_end (text h)) suggested in
                 let rv := {| rawText := raw; suggestedText := suggested; prefix := in_prefix ins;
                              suffix := in_suffix ins |} in
                 let h1 := set_draft (value ins) (Z.of_nat (cursor ins)) (Z.of_nat (cursor ins)) h in
                 let h2 := set_messages (Some rv) (error (text h)) (Some (notice_of (warnings a))) h1 in
                 (deleteRecording (Some (t_uri t)) s, set_uri None (set_state in_review h2))
           end
  end.

(** ** The app *)

Record App := { shared : Shared; hooks : gmap nat Hook }.

Inductive event :=
| Start (disabled demo : bool)                 (* the microphone button *)
| Continue                                     (* the explanation was given, now or before *)
| NotNow
| Resume (r : Answer)                          (* what [startRecording] waits for *)
| Stop (d : Z)                                 (* with the duration the recorder reports *)
| Stopped (failure : option str)
| ResetDone
| Cancel (d : Z)
| Background (d : Z)
| Retry (disabled demo : bool)
| RecordAgain
| Restore
| Dismiss
| MarkSent
| Edit (t : str) (a b : Z)
| Transcribed (k : nat) (r : str + Transcript)
| Unmount (d : Z).

(** The buttons are there while the composer is open, those of the panels in their state. *)
Definition hook_step (i : nat) (e : event) (x : St) : St :=
  let '(s, h) := x in
  let open := mounted h in
  match e with
  | Start disabled demo => if open then (s, start disabled demo h) else x
  | Continue => start_continues i x
  | NotNow => (s, set_asked (Nat.pred (asked h)) h)
  | Resume r => start_resumes i r x
  | Stop d => if open then stop i d x else x
  | Stopped failure => stopped i failure x
  | ResetDone => reset_done i x
  | Cancel d => if open then cancel i d false x else x
  | Background d => if open && bool_decide (vstate h = recording) then cancel i d true x else x
  | Retry disabled demo =>
      if open && bool_decide (vstate h = failed) then (s, retry disabled demo h) else x
  | RecordAgain => if open && bool_decide (vstate h = failed) then recordAgain i x else x
  | Restore => if open && bool_decide (vstate h = in_review) then (s, restore h) else x
  | Dismiss => if open && bool_decide (vstate h = in_review) then (s, dismissReview h) else x
  | MarkSent => if open then (s, markSent h) else x
  | Edit t a b => if open then (s, set_draft t a b h) else x
  | Transcribed k r => transcribed k r x
  | Unmount d => if open then unmount i d x else x
  end.

Inductive app_event :=
| Mount (i : nat)
| Of (i : nat) (e : event)
| RecorderEnded.                               (* the longest duration is over, or an interruption *)

Definition step (e : app_event) (w : App) : App :=
  match e with
  | Mount i => match hooks w !! i with
               | Some _ => w
               | None => {| shared := shared w; hooks := <[i := new_hook]> (hooks w) |}
               end
  | Of i e => match hooks w !! i with
              | None => w
              | Some h => let '(s, h1) := hook_step i e (shared w, h) in
                          {| shared := s; hooks := <[i := h1]> (hooks w) |}
              end
  | RecorderEnded => {| shared := set_recording false (audio (shared w)) (shared w); hooks := hooks w |}
  end.

Definition init : App :=
  {| shared := {| owner := None; isRecording := false; file := None; fresh := 0; audio := [];
                  allowsRecording := false |};
     hooks := ∅ |}.

Definition run (es : list app_event) (w : App) : App := fold_left (λ w e, step e w) es w.

(** ** The microphone is on only where the user sees it *)

(** What the statement below excludes, event by event:
    - a recording that fails to stop;
    - a typed message acknowledged as sent while its composer records or transcribes;
    - the explanation confirmed in a composer that is closed, records, transcribes or is
      finishing a recording;
    - record again, try again or stop pressed while a recording is being finished;
    - cancel pressed while a recording is being stopped by the stop button;
    - cancel, or closing the composer, while it owns the recorder and keeps another audio
      file than the recorder's.
    The lemmas under "What can go wrong" show what happens in such cases. *)
Definition careful (i : nat) (e : event) (x : St) : Prop :=
  let '(s, h) := x in
  match e with
  | Stopped failure => failure = None
  | MarkSent => vstate h ≠ recording ∧ vstate h ≠ transcribing
  | Continue => mounted h = true ∧ vstate h ≠ recording ∧ vstate h ≠ transcribing ∧ fin h = None
  | RecordAgain | Retry _ _ | Stop _ => fin h = None
  | Cancel _ => (∀ f, fin h = Some f → WStop ∉ waiters f) ∧ (owner s = Some i → uri h = None ∨ uri h = file s)
  | Unmount _ => owner s = Some i → uri h = None ∨ uri h = file s
  | _ => True
  end.

Definition careful_app (e : app_event) (w : App) : Prop :=
  match e with
  | Of i e => ∀ h, hooks w !! i = Some h → careful i e (shared w, h)
  | _ => True
  end.

Inductive careful_reachable : App → Prop :=
| reach_init : careful_reachable init
| reach_step w e : careful_reachable w → careful_app e w → careful_reachable (step e w).

(** The start is on its way to the microphone. *)
Definition under_way (p : StartPoint) : bool :=
  match p with AtReset | AtFailed _ => false | _ => true end.

(** The panel of the composer shows the recording, or the recording is being stopped. *)
Definition shows_recording (h : Hook) : Prop :=
  (mounted h = true ∧ vstate h = recording ∧ fin h = None) ∨ ∃ f, fin h = Some f ∧ phase f = Stopping.

Record hook_ok (i : nat) (s : Shared) (h : Hook) : Prop := {
  k_start : is_Some (starts h) → vstate h = preparing ∨ vstate h = idle;
  k_stale : ∀ p a, starts h = Some (p, a) → fin h ≠ None → a ≠ attempt h;
  k_attempt : ∀ p a, starts h = Some (p, a) → (a ≤ attempt h)%nat;
  k_wstop : ∀ f, fin h = Some f → WStop ∈ waiters f → starts h = None ∧ vstate h = transcribing
    ∧ ∃ r, waiters f = WStop :: r ∧ Forall (eq WUnmount) r;
  k_background : ∀ f, fin h = Some f → existsb in_background (waiters f) = true → starts h = None;
  k_waiters : ∀ f, fin h = Some f → waiters f ≠ [];
  k_stopping : ∀ f, fin h = Some f → phase f = Stopping → starts h = None ∧ uri h = None;
  k_resetting : ∀ f u g, fin h = Some f → phase f = Resetting u → uri h = Some g → u = Some g;
  k_ids : NoDup (t_id <$> trans h) ∧ Forall (λ t, (t_id t < next_ctl h)%nat) (trans h);
  k_live : ∀ t, t ∈ trans h → t_aborted t = false →
    abortRef h = Some (t_id t) ∧ fin h = None ∧ starts h = None ∧ vstate h = transcribing ∧ uri h = Some (t_uri t);
  k_uri : vstate h = recording ∨ (∃ a, starts h = Some (AtMode, a) ∨ starts h = Some (AtPrepare, a)) → uri h = None;
  k_owner : owner s = Some i →
    (∃ p, starts h = Some (p, attempt h) ∧ under_way p = true ∧ mounted h = true)
    ∨ (vstate h = recording ∧ mounted h = true ∧ starts h = None) ∨ fin h ≠ None;
  k_rec : isRecording s = true → owner s = Some i → starts h = None ∧ shows_recording h;
}.

(** Who answers for a file: the composer whose recording it is, the one that is finishing
    it, or the one that keeps it. *)
Definition holds_file (i : nat) (s : Shared) (h : Hook) (f : nat) : Prop :=
  (owner s = Some i ∧ file s = Some f
   ∧ ((vstate h = recording ∧ starts h = None ∧ fin h = None) ∨ ∃ z, fin h = Some z ∧ phase z = Stopping))
  ∨ (∃ z, fin h = Some z ∧ phase z = Resetting (Some f))
  ∨ (mounted h = true ∧ uri h = Some f).

(** What a step of composer [i] leaves as it is for the others. *)
Definition frame (i : nat) (s s' : Shared) : Prop :=
  ∀ j, j ≠ i →
    (owner s' = Some j ↔ owner s = Some j)
    ∧ (owner s = Some j → (isRecording s' = true → isRecording s = true) ∧ file s' = file s).

Definition rec_owned (s : Shared) : Prop := isRecording s = true → owner s ≠ None.

Record step_ok (i : nat) (x y : St) : Prop := {
  so_hook : hook_ok i y.1 y.2;
  so_frame : frame i x.1 y.1;
  so_rec : rec_owned y.1;
  so_files : ∀ f, f ∈ audio y.1 →
    (f ∈ audio x.1 ∧ (holds_file i x.1 x.2 f → holds_file i y.1 y.2 f)) ∨ holds_file i y.1 y.2 f;
}.

Section Steps.
Context (i : nat).

Lemma owns_spec s : owns i s = true ↔ owner s = Some i.
Proof. unfold owns. apply bool_decide_eq_true. Qed.

Lemma delete_elem u s f : f ∈ audio (deleteRecording u s) ↔ f ∈ audio s ∧ u ≠ Some f.
Proof.
  destruct u as [g|]; cbn; [|naive_solver]. rewrite list_elem_of_filter. naive_solver.
Qed.

Lemma delete_shared u s :
  owner (deleteRecording u s) = owner s ∧ isRecording (deleteRecording u s) = isRecording s
  ∧ file (deleteRecording u s) = file s.
Proof. by destruct u. Qed.

Lemma release_shared s :
  owner (release i s) ≠ Some i ∧ isRecording (release i s) = isRecording s ∧ file (release i s) = file s
  ∧ audio (release i s) = audio s ∧ (∀ j, j ≠ i → owner (release i s) = Some j ↔ owner s = Some j).
Proof.
  unfold release. destruct (owns i s) eqn:O.
  - apply owns_spec in O. cbn. rewrite O. naive_solver.
  - assert (owner s ≠ Some i) by (intros E; apply owns_spec in E; congruence). naive_solver.
Qed.

(** A step that leaves the shared recorder alone. *)
Lemma quiet_step s h h' :
  rec_owned s → hook_ok i s h' → (∀ f, holds_file i s h f → holds_file i s h' f) → step_ok i (s, h) (s, h').
Proof. intros R K F. constructor; cbn; [done| |done|naive_solver]. intros j Hj. naive_solver. Qed.

Lemma text_ok s h t : hook_ok i s h → hook_ok i s (set_text t h).
Proof. intros []. constructor; assumption. Qed.

Lemma set_state_ok s h v :
  hook_ok i s h → starts h = None ∨ v = preparing ∨ v = idle →
  (∀ t, t ∈ trans h → t_aborted t = false → v = transcribing) →
  (∀ f, fin h = Some f → WStop ∈ waiters f → v = transcribing) →
  (v = recording → uri h = None) →
  (vstate h = recording → owner s = Some i → fin h = None → v = recording) →
  hook_ok i s (set_state v h).
Proof.
  intros [] H1 H2 H3 H4 H5. constructor; cbn; try assumption.
  - intros [x Hx]. destruct H1 as [|[]]; [congruence|auto..].
  - intros f Hf Hw. destruct (k_wstop0 f Hf Hw) as (? & ? & ?). split; [done|]. split; [eauto|done].
  - intros t Ht Hl. destruct (k_live0 t Ht Hl) as (? & ? & ? & ? & ?). naive_solver.
  - intros [Hv|Hs]; auto.
  - intros Ho. destruct (fin h) eqn:F; [auto|].
    destruct (k_owner0 Ho) as [?|[(Hv & ? & ?)|?]]; [auto| |auto]. right. left. split_and!; auto.
  - intros Hr Ho. destruct (k_rec0 Hr Ho) as [? [(? & Hv & ?)|?]]; (split; [done|]); unfold shows_recording; cbn; naive_solver.
Qed.

(** Aborting leaves no live transcription. *)
Lemma abort_dead s h t : hook_ok i s h → t ∈ trans (abort h) → t_aborted t = true.
Proof.
  intros K. cbn. intros (u & -> & Hu)%list_elem_of_fmap. case_bool_decide as E; [done|].
  destruct (t_aborted u) eqn:A; [done|]. exfalso. apply E. by apply (k_live _ _ _ K).
Qed.

Lemma abort_ids h : t_id <$> trans (abort h) = t_id <$> trans h.
Proof. cbn. rewrite <- list_fmap_compose. apply list_fmap_ext. intros k t _. cbn. by case_bool_decide. Qed.

Lemma abort_ok s h : hook_ok i s h → hook_ok i s (abort h).
Proof.
  intros K. assert (∀ t, t ∈ trans (abort h) → t_aborted t = true) as D by (intros t; by apply (abort_dead s)).
  pose proof (abort_ids h) as I. destruct K. constructor; try assumption.
  - rewrite I. split; [apply k_ids0|]. apply Forall_fmap. destruct k_ids0 as [_ F].
    apply (Forall_impl _ _ _ F). intros t. cbn. by case_bool_decide.
  - intros t Ht Hl. by rewrite (D t Ht) in Hl.
Qed.

(** Bumping the attempt makes the start in flight stale. *)
Lemma bump_ok s h :
  hook_ok i s h → owner s ≠ Some i ∨ starts h = None ∨ fin h ≠ None →
  hook_ok i s (set_starts (S (attempt h)) (starts h) h).
Proof.
  intros [] H. constructor; cbn; try assumption.
  - intros p a E. pose proof (k_attempt0 p a E). lia.
  - intros p a E. pose proof (k_attempt0 p a E). lia.
  - intros Ho. destruct (k_owner0 Ho) as [(p & Hp & _)|?]; [|auto].
    destruct H as [?|[?|?]]; [done|congruence|auto].
Qed.

Lemma transcribe_ok s h u :
  hook_ok i s h → (∀ t, t ∈ trans h → t_aborted t = true) → fin h = None → starts h = None →
  uri h = Some u → vstate h ≠ recording → hook_ok i s (transcribe u h).
Proof.
  intros [] D Hf Hs Hu Hv. constructor; cbn; try congruence.
  - intros [? ?]. congruence.
  - destruct k_ids0 as [N F].
    rewrite fmap_app. split.
    + apply NoDup_app. split; [done|]. split; [|apply NoDup_singleton].
      intros x (t & -> & Ht)%list_elem_of_fmap Hx%list_elem_of_singleton.
      rewrite Forall_forall in F. specialize (F t Ht). cbn in Hx. lia.
    + apply Forall_app. split; [|constructor; [cbn; lia|constructor]].
      eapply Forall_impl; [exact F|]. cbn. lia.
  - intros t [Ht|Ht%list_elem_of_singleton]%elem_of_app Hl; [by rewrite (D t Ht) in Hl|]. by subst t.
  - intros [?|(a & [?|?])]; [done|congruence..].
  - intros Ho. destruct (k_owner0 Ho) as [(p & Hp & _)|[(? & _)|?]]; [congruence|done|congruence].
  - intros Hr Ho. destruct (k_rec0 Hr Ho) as [_ [(_ & ? & _)|(f & ? & _)]]; congruence.
Qed.

(** *** Starting *)

Lemma shared_ok s s' h :
  hook_ok i s h → (owner s' = Some i → owner s = Some i) →
  (owner s' = Some i → isRecording s' = true → isRecording s = true) → hook_ok i s' h.
Proof. intros [] H1 H2. constructor; try assumption; auto. Qed.

Lemma startRecording_ok s h :
  hook_ok i s h → rec_owned s → mounted h = true → fin h = None → vstate h ≠ recording →
  vstate h ≠ transcribing → step_ok i (s, h) (startRecording i (s, h)).
Proof.
  intros K R Hm Hf V1 V2. unfold startRecording.
  destruct (starts h) as [q|] eqn:S; [apply quiet_step; auto|].
  assert (∀ s1, claim i s = Some s1 → s1 = set_owner (Some i) s ∧ (owner s = None ∨ owner s = Some i)) as Hc.
  { intros s1. unfold claim. destruct (owner s) as [j|]; [case_bool_decide as E; [subst j|done]|]; intros [= <-]; auto. }
  destruct (claim i s) as [s1|]; [|apply quiet_step; auto].
  destruct (Hc s1 eq_refl) as [-> Ho].
  assert (isRecording s = false) as Hr.
  { destruct (isRecording s) eqn:E; [|done]. destruct Ho as [Ho|Ho]; [by destruct (R E)|].
    destruct (k_rec _ _ _ K E Ho) as [_ [(_ & ? & _)|(f & ? & _)]]; congruence. }
  constructor; cbn.
  - destruct K. constructor; cbn; try assumption; try congruence; auto.
    + intros p a [= <- <-]. done.
    + intros t Ht Hl. destruct (k_live0 t Ht Hl) as (_ & _ & _ & ? & _). done.
    + intros [?|(a & [?|?])]; congruence.
    + intros _. left. exists AtPermission. auto.
  - intros j Hj. cbn. destruct Ho as [-> | ->]; naive_solver.
  - intros E. cbn in E. congruence.
  - intros f Hfile. left. split; [done|]. intros [(_ & _ & [(? & _)|(z & ? & _)])|[(z & ? & _)|[H1 H2]]]; try congruence.
    right. right. auto.
Qed.

Lemma current_spec a s h :
  current i a (s, h) = true ↔ mounted h = true ∧ attempt h = a ∧ owner s = Some i.
Proof. unfold current. cbn. rewrite !andb_true_iff, bool_decide_eq_true, owns_spec. tauto. Qed.

Lemma not_current s h p a :
  hook_ok i s h → starts h = Some (p, a) → current i a (s, h) = false → owner s = Some i → fin h ≠ None.
Proof.
  intros K S C Ho. destruct (k_owner _ _ _ K Ho) as [(q & Hq & _ & Hm)|[(_ & _ & ?)|?]]; [|congruence|done].
  rewrite Hq in S. injection S as -> <-. exfalso. enough (current i (attempt h) (s, h) = true) by congruence.
  by apply current_spec.
Qed.

Lemma point_ok s h q a r :
  hook_ok i s h → starts h = Some (q, a) →
  (owner s = Some i → fin h ≠ None ∨ (∃ p, r = Some (p, a) ∧ under_way p = true ∧ a = attempt h ∧ mounted h = true)) →
  match r with Some (p, b) => b = a ∧ (p = AtMode ∨ p = AtPrepare → uri h = None) | None => True end →
  hook_ok i s (set_starts (attempt h) r h).
Proof.
  intros [] S Ho Hr. assert (vstate h = preparing ∨ vstate h = idle) as V by (apply k_start0; by rewrite S).
  constructor; cbn; try assumption; auto.
  - intros p b ->. destruct Hr as [-> _]. eauto.
  - intros p b ->. destruct Hr as [-> _]. eauto.
  - intros f Hf Hw. destruct (k_wstop0 f Hf Hw) as [? _]. congruence.
  - intros f Hf Hw. specialize (k_background0 f Hf Hw). congruence.
  - intros f Hf Hw. destruct (k_stopping0 f Hf Hw). congruence.
  - intros t Ht Hl. destruct (k_live0 t Ht Hl) as (_ & _ & ? & _). congruence.
  - intros [?|(b & [-> | ->])]; [destruct V; congruence|apply Hr; auto..].
  - intros E. destruct (Ho E) as [?|(p & -> & U & -> & M)]; [auto|]. left. eauto.
  - intros E1 E2. destruct (k_rec0 E1 E2). congruence.
Qed.

(** While it starts, a composer holds a file only to delete it, or one it keeps. *)
Lemma starting_holds s h q f :
  hook_ok i s h → starts h = Some q → holds_file i s h f →
  (∃ z, fin h = Some z ∧ phase z = Resetting (Some f)) ∨ (mounted h = true ∧ uri h = Some f).
Proof.
  intros K S [(_ & _ & [(_ & ? & _)|(z & Hz & P)])|[?|?]]; [congruence| |auto..].
  destruct (k_stopping _ _ _ K z Hz P). congruence.
Qed.

Lemma starting_not_recording s h q :
  hook_ok i s h → starts h = Some q → isRecording s = true → owner s ≠ Some i.
Proof. intros K S R O. destruct (k_rec _ _ _ K R O). congruence. Qed.

Lemma others_kept s s' :
  (∀ j, j ≠ i → owner s' = Some j ↔ owner s = Some j) →
  (isRecording s' = true → isRecording s = true ∧ owner s ≠ Some i) → rec_owned s → rec_owned s'.
Proof.
  intros O H R E. destruct (H E) as [E1 N]. specialize (R E1). destruct (owner s) as [j|] eqn:J; [|done].
  assert (j ≠ i) as Hj by congruence. pose proof (proj2 (O j Hj) eq_refl) as ->. done.
Qed.

Lemma starting_step s h q s' h' :
  hook_ok i s h → rec_owned s → starts h = Some q → hook_ok i s' h' →
  isRecording s' = isRecording s → (∀ j, j ≠ i → owner s = Some j → file s' = file s) →
  (∀ j, j ≠ i → owner s' = Some j ↔ owner s = Some j) → fin h' = fin h → mounted h' = mounted h →
  (∀ f, f ∈ audio s' → f ∈ audio s ∧ (uri h = Some f → uri h' = Some f)) → step_ok i (s, h) (s', h').
Proof.
  intros K R S K' Er Ef Eo Efin Em Ea. constructor; cbn; [done| | |].
  - intros j Hj. split; [auto|]. rewrite Er. eauto.
  - apply (others_kept s); [done| |done]. rewrite Er. intros E. split; [done|].
    by apply (starting_not_recording s h q).
  - intros f [H1 H2]%Ea. left. split; [done|]. intros [Hz|[Hm Hu]]%(starting_holds s h q); [| |done..].
    + right. left. by rewrite Efin.
    + right. right. rewrite Em. auto.
Qed.

Lemma start_granted_ok s h p a :
  hook_ok i s h → rec_owned s → starts h = Some (p, a) → step_ok i (s, h) (start_granted i a (s, h)).
Proof.
  intros K R S. unfold start_granted. destruct (current i a (s, h)) eqn:C; cbn [negb].
  - pose proof (delete_shared (uri h) s) as (Do & Dr & Df).
    apply (starting_step s h (p, a)); cbn; rewrite ?Do, ?Dr, ?Df; auto.
    + apply current_spec in C as (Cm & Ca & Co). apply (shared_ok s); [|cbn; by rewrite Do|cbn; by rewrite Dr].
      assert (hook_ok i s (set_uri None h)) as K1.
      { destruct K. constructor; cbn; try assumption; try congruence; auto.
        - intros f Hf Hp. destruct (k_stopping0 f Hf Hp). congruence.
        - intros t Ht Hl. destruct (k_live0 t Ht Hl) as (_ & _ & ? & _). congruence. }
      apply (point_ok s _ p a _ (text_ok s _ _ K1)); [exact S| |auto].
      intros _. right. exists AtMode. auto.
    + intros f [H1 H2]%delete_elem. split; [done|]. congruence.
  - apply (starting_step s h (p, a)); auto.
    apply (point_ok s h p a); [done..| |done]. intros Ho. left. by apply (not_current s h p a).
Qed.

Lemma start_thrown_ok s h p a m :
  hook_ok i s h → rec_owned s → starts h = Some (p, a) →
  step_ok i (s, h) (resetAudioMode (release i s), at_point (AtFailed m) a h).
Proof.
  intros K R S. pose proof (release_shared s) as (Ro & Rr & Rf & Ra & Rj).
  apply (starting_step s h (p, a)); auto; cbn; rewrite ?Rr, ?Rf, ?Ra; auto.
  apply (point_ok _ h p a); [|done|done|split; [done|naive_solver]].
  apply (shared_ok s); cbn; [done|done|by rewrite Rr].
Qed.

Lemma start_outdated_ok s h p a :
  hook_ok i s h → rec_owned s → starts h = Some (p, a) → current i a (s, h) = false →
  step_ok i (s, h) (resetAudioMode s, at_point AtReset a h).
Proof.
  intros K R S C. apply (starting_step s h (p, a)); auto. apply (shared_ok s); auto.
  apply (point_ok s h p a); [done..| |split; [done|naive_solver]].
  intros Ho. left. by apply (not_current s h p a).
Qed.

Lemma start_failed_ok s s' h p a t :
  hook_ok i s h → rec_owned s → starts h = Some (p, a) → isRecording s' = isRecording s →
  file s' = file s → audio s' = audio s → (owner s' = Some i → owner s = Some i ∧ fin h ≠ None) →
  (∀ j, j ≠ i → owner s' = Some j ↔ owner s = Some j) →
  step_ok i (s, h) (s', returned (set_state failed (set_text t h))).
Proof.
  intros K R S E1 E2 E3 E4 E5. apply (starting_step s h (p, a)); auto; [|rewrite E3; auto].
  change (hook_ok i s' (set_state failed (set_text t (returned h)))).
  assert (hook_ok i s' (returned h)) as K1.
  { apply (point_ok s' h p a); [|done|naive_solver|done].
    apply (shared_ok s); [done|naive_solver|by rewrite E1]. }
  assert (vstate h = preparing ∨ vstate h = idle) as V by (apply (k_start _ _ _ K); by rewrite S).
  apply set_state_ok; [by apply text_ok|by left| | |done|cbn; destruct V; congruence].
  - intros x Hx Hl. destruct (k_live _ _ _ K x Hx Hl) as (_ & _ & ? & _). congruence.
  - intros f Hf Hw. destruct (k_wstop _ _ _ K f Hf Hw) as [? _]. congruence.
Qed.

Lemma current_no_fin s h p a :
  hook_ok i s h → starts h = Some (p, a) → current i a (s, h) = true → fin h = None.
Proof.
  intros K S C. apply current_spec in C as (_ & Ca & _). destruct (fin h) eqn:F; [|done].
  destruct (k_stale _ _ _ K p a S); [by rewrite F|done].
Qed.

Lemma start_prepares_ok s h a :
  hook_ok i s h → rec_owned s → starts h = Some (AtMode, a) → current i a (s, h) = true →
  step_ok i (s, h) (prepare s, at_point AtPrepare a h).
Proof.
  intros K R S C. pose proof C as (Cm & Ca & Co)%current_spec.
  apply (starting_step s h (AtMode, a)); auto; [|cbn; congruence].
  apply (shared_ok s); auto. apply (point_ok s h AtMode a); [done..| |].
  - intros _. right. exists AtPrepare. auto.
  - split; [done|]. intros _. apply (k_uri _ _ _ K). right. eauto.
Qed.

(** The microphone goes on. *)
Lemma start_records_ok s h a :
  hook_ok i s h → rec_owned s → starts h = Some (AtPrepare, a) → current i a (s, h) = true →
  step_ok i (s, h)
    (set_recording true (match file s with Some f => f :: audio s | None => audio s end) s,
     returned (set_state recording h)).
Proof.
  intros K R S C. pose proof (current_no_fin s h _ a K S C) as F. pose proof C as (Cm & Ca & Co)%current_spec.
  assert (uri h = None) as U by (apply (k_uri _ _ _ K); right; eauto).
  constructor; cbn.
  - destruct K. constructor; cbn; try assumption; try congruence; auto.
    + by intros [? ?].
    + intros t Ht Hl. destruct (k_live0 t Ht Hl) as (_ & _ & ? & _). congruence.
    + intros _ _. split; [done|]. left. auto.
  - intros j Hj. cbn. rewrite Co. naive_solver.
  - intros _. cbn. by rewrite Co.
  - intros f Hf. assert (file s = Some f ∨ f ∈ audio s) as [E|E].
    { destruct (file s); [|auto]. apply elem_of_cons in Hf as [->|]; auto. }
    + right. left. cbn. split_and!; auto.
    + left. split; [done|]. intros [(z & ? & _)|[_ ?]]%(starting_holds s h (AtPrepare, a)); [congruence..|done|done].
Qed.

Lemma start_resumes_ok r s h :
  hook_ok i s h → rec_owned s → step_ok i (s, h) (start_resumes i r (s, h)).
Proof.
  intros K R. unfold start_resumes. destruct (starts h) as [[p a]|] eqn:S; [|apply quiet_step; auto].
  pose proof (release_shared s) as (Ro & Rr & Rf & Ra & Rj).
  assert (under_way p = false → owner s = Some i → fin h ≠ None) as Not_under.
  { intros U Ho. destruct (k_owner _ _ _ K Ho) as [(q & Hq & Hu & _)|[(_ & _ & ?)|?]]; [|congruence|done].
    rewrite Hq in S. injection S as -> <-. congruence. }
  destruct p.
  - destruct r; [by apply (start_granted_ok s h AtPermission a)| |apply quiet_step; auto|by apply (start_thrown_ok s h AtPermission a)].
    apply (starting_step s h (AtPermission, a)); auto.
    apply (point_ok s h AtPermission a); [done..| |split; [done|naive_solver]].
    intros Ho. destruct (current i a (s, h)) eqn:C.
    + right. apply current_spec in C as (? & <- & ?). eauto.
    + left. by apply (not_current s h AtPermission a).
  - destruct r; [by apply (start_granted_ok s h AtRequest a)| |apply quiet_step; auto|by apply (start_thrown_ok s h AtRequest a)].
    apply (start_failed_ok s _ h AtRequest a); auto. naive_solver.
  - destruct r; [apply quiet_step; auto|apply quiet_step; auto| |by apply (start_thrown_ok s h AtMode a)].
    destruct (current i a (s, h)) eqn:C; [by apply (start_prepares_ok s h a)|by apply (start_outdated_ok s h AtMode a)].
  - destruct r; [apply quiet_step; auto|apply quiet_step; auto| |by apply (start_thrown_ok s h AtPrepare a)].
    destruct (current i a (s, h)) eqn:C; [by apply (start_records_ok s h a)|by apply (start_outdated_ok s h AtPrepare a)].
  - apply (starting_step s h (AtReset, a)); auto. apply (point_ok s h AtReset a); auto.
  - apply (start_failed_ok s _ h (AtFailed msg) a); auto.
Qed.

(** *** Finishing *)

#[local] Arguments deleteRecording : simpl never.

(** What a handler may have changed of the composer before it finishes the recording. *)
Record finishing (s : Shared) (h0 h : Hook) (w : Waiter) : Prop := {
  f_starts : starts h = starts h0;
  f_fin : fin h = fin h0;
  f_uri : uri h = uri h0;
  f_ids : NoDup (t_id <$> trans h) ∧ Forall (λ t, (t_id t < next_ctl h)%nat) (trans h);
  f_dead : ∀ t, t ∈ trans h → t_aborted t = true;
  f_stale : ∀ p a, starts h0 = Some (p, a) → (a < attempt h)%nat;
  f_state : vstate h = vstate h0 ∨ (vstate h0 = recording ∧ vstate h = transcribing);
  f_stop : w = WStop → fin h0 = None ∧ vstate h = transcribing ∧ vstate h0 = recording;
  f_background : in_background w = true → vstate h0 = recording;
  f_file : uri h0 = None ∨ uri h0 = file s;
  f_after : ∀ f, fin h0 = Some f → WStop ∈ waiters f → w = WUnmount;
}.

Lemma finishing_waiters s h0 h w f d :
  hook_ok i s h0 → finishing s h0 h w → fin h0 = Some f →
  hook_ok i s (set_fin (Some {| phase := phase f; millis := d; waiters := waiters f ++ [w] |}) h).
Proof.
  intros [] [] E. constructor; cbn; rewrite ?f_starts0; try assumption.
  - intros Hs. destruct f_state0 as [->|[? _]]; [auto|]. destruct (k_start0 Hs); congruence.
  - intros p a Hs _. specialize (f_stale0 p a Hs). lia.
  - intros p a Hs. specialize (f_stale0 p a Hs). lia.
  - intros g [= <-] [Hw|Hw%list_elem_of_singleton]%elem_of_app.
    + destruct (k_wstop0 f E Hw) as (? & ? & r & -> & Hr). split; [done|].
      split; [destruct f_state0 as [|[]]; congruence|]. exists (r ++ [w]). split; [done|].
      apply Forall_app. split; [done|]. constructor; [|constructor]. symmetry. eauto.
    + destruct (f_stop0 (eq_sym Hw)). congruence.
  - intros g [= <-]. cbn. rewrite existsb_app, orb_true_iff. cbn. rewrite orb_false_r.
    intros [Hw|Hw]; [eauto|]. destruct (starts h0) eqn:S; [|done].
    destruct (k_start0 ltac:(done)); specialize (f_background0 Hw); congruence.
  - intros g [= <-]. cbn. intros ?%app_nil. naive_solver.
  - intros g [= <-]. rewrite f_uri0. eauto.
  - intros g u x [= <-]. rewrite f_uri0. eauto.
  - intros t Ht. by rewrite f_dead0.
  - rewrite f_uri0. intros [Hv|?]; [|auto]. apply k_uri0. left. destruct f_state0 as [|[]]; congruence.
  - intros _. right. by right.
  - intros Hr Ho. destruct (k_rec0 Hr Ho) as [? [(_ & _ & ?)|(g & Hg & P)]]; [congruence|].
    split; [done|]. right. eexists. split; [done|]. cbn. congruence.
Qed.

Lemma finishing_begins s h0 h w z :
  hook_ok i s h0 → finishing s h0 h w → fin h0 = None → owner s = Some i → waiters z = [w] →
  (phase z = Stopping ∧ isRecording s = true
   ∨ isRecording s = false ∧ phase z = Resetting (match file s with Some f => Some f | None => uri h end)) →
  hook_ok i s (set_fin (Some z) h).
Proof.
  intros [] [] E Ho Hz P.
  assert (isRecording s = true → starts h0 = None ∧ vstate h0 = recording) as Rec.
  { intros Hr. destruct (k_rec0 Hr Ho) as [? [(_ & ? & _)|(g & ? & _)]]; [done|congruence]. }
  constructor; cbn; rewrite ?f_starts0; try assumption.
  - intros Hs. destruct f_state0 as [->|[? _]]; [auto|]. destruct (k_start0 Hs); congruence.
  - intros p a Hs _. specialize (f_stale0 p a Hs). lia.
  - intros p a Hs. specialize (f_stale0 p a Hs). lia.
  - intros g [= <-]. rewrite Hz. intros Hw%list_elem_of_singleton. destruct (f_stop0 (eq_sym Hw)) as (_ & ? & ?).
    split; [|split; [done|exists []; subst w; done]].
    destruct (starts h0) eqn:S; [|done]. destruct (k_start0 ltac:(done)); congruence.
  - intros g [= <-]. rewrite Hz. cbn. rewrite orb_false_r. intros Hw. specialize (f_background0 Hw).
    destruct (starts h0) eqn:S; [|done]. destruct (k_start0 ltac:(done)); congruence.
  - intros g [= <-]. by rewrite Hz.
  - intros g [= <-] Hp. destruct P as [[_ Hr]|[_ ?]]; [|congruence]. destruct (Rec Hr). rewrite f_uri0. auto.
  - intros g u x [= <-] Hp Hu. destruct P as [[? _]|[_ P]]; [congruence|]. rewrite Hp in P. injection P as ->.
    rewrite f_uri0 in *. destruct f_file0 as [?|F]; [congruence|]. rewrite <- F, Hu. done.
  - intros t Ht. by rewrite f_dead0.
  - rewrite f_uri0. intros [Hv|?]; [|auto]. apply k_uri0. left. destruct f_state0 as [|[]]; congruence.
  - intros _. right. by right.
  - intros Hr _. destruct (Rec Hr). split; [done|]. right. exists z. split; [done|]. destruct P as [[]|[]]; congruence.
Qed.

Lemma finalize_ok s h0 h d w :
  hook_ok i s h0 → rec_owned s → owner s = Some i → finishing s h0 h w →
  mounted h = mounted h0 ∨ w = WUnmount → step_ok i (s, h0) (finalizeRecording i d w (s, h)).
Proof.
  intros K R Ho F M. unfold finalizeRecording. rewrite (f_fin _ _ _ _ F).
  destruct (fin h0) as [f|] eqn:E.
  - constructor; cbn; [by apply (finishing_waiters s h0)|intros j Hj; naive_solver|done|].
    intros x Hx. left. split; [done|]. intros [(_ & Hf & [(_ & _ & ?)|(z & Hz & P)])|[(z & Hz & P)|[Hm Hu]]].
    + congruence.
    + left. split_and!; [done..|]. right. eexists. split; [done|]. cbn. congruence.
    + right. left. eexists. split; [done|]. cbn. congruence.
    + destruct (phase f) eqn:P.
      * destruct (k_stopping _ _ _ K f E P). congruence.
      * right. left. eexists. split; [done|]. cbn. by rewrite (k_resetting _ _ _ K f u x E P Hu).
  - assert (∀ x, holds_file i s h0 x →
      (file s = Some x ∧ vstate h0 = recording) ∨ (mounted h0 = true ∧ uri h0 = Some x)) as Hold.
    { intros x [(_ & ? & [(? & _)|(z & ? & _)])|[(z & ? & _)|?]]; [auto|congruence..|auto]. }
    destruct (isRecording s) eqn:Er.
    + constructor; cbn; [|intros j Hj; naive_solver|done|].
      { apply (finishing_begins s h0 h w); auto. }
      intros x Hx. left. split; [done|]. destruct (k_rec _ _ _ K Er Ho) as [_ [(_ & Hv & _)|(z & ? & _)]]; [|congruence].
      intros [[Hf _]|[_ Hu]]%Hold; [|rewrite (k_uri _ _ _ K) in Hu; [done|auto]].
      left. split_and!; [done..|]. right. eexists. done.
    + constructor; cbn; [|intros j Hj; cbn; naive_solver|intros ?; cbn in *; congruence|].
      { apply (shared_ok s); [|done|done]. apply (finishing_begins s h0 h w); auto. }
      intros x Hx. left. split; [done|]. intros H. right. left. eexists. split; [done|]. cbn.
      destruct (Hold x H) as [[-> _]|[_ Hu]]; [done|]. rewrite (f_uri _ _ _ _ F), Hu.
      destruct (f_file _ _ _ _ F) as [?|<-]; [congruence|]. by rewrite Hu.
Qed.

Lemma waiter_shared d u x w :
  let y := run_waiter i d (inr u) x w in
  owner y.1 = owner x.1 ∧ isRecording y.1 = isRecording x.1 ∧ file y.1 = file x.1
  ∧ (∀ f, f ∈ audio y.1 → f ∈ audio x.1) ∧ mounted y.2 = mounted x.2.
Proof.
  destruct x as [s h]. cbn. pose proof (λ v, delete_shared v s) as D.
  assert (∀ v f, f ∈ audio (deleteRecording v s) → f ∈ audio s) as E by (intros v f [? _]%delete_elem; done).
  destruct w as [|c b|]; cbn.
  - destruct (negb (mounted h)); cbn; [destruct (D u) as (-> & -> & ->); eauto 10|].
    destruct u as [f|]; [|done]. destruct (_ <? _); cbn; [|done].
    destruct (D (Some f)) as (-> & -> & ->); eauto 10.
  - destruct u as [f|]; cbn.
    + destruct (D (Some f)) as (-> & -> & ->); eauto 10.
    + destruct (D c) as (-> & -> & ->); eauto 10.
  - destruct (D (match u with Some f => Some f | None => uri h end)) as (-> & -> & ->); eauto 10.
Qed.

Lemma waiters_shared d u ws x :
  let y := fold_left (run_waiter i d (inr u)) ws x in
  owner y.1 = owner x.1 ∧ isRecording y.1 = isRecording x.1 ∧ file y.1 = file x.1
  ∧ (∀ f, f ∈ audio y.1 → f ∈ audio x.1) ∧ mounted y.2 = mounted x.2.
Proof.
  revert x. induction ws as [|w ws IH]; intros x; [done|]. cbn [fold_left].
  destruct (waiter_shared d u x w) as (A1 & A2 & A3 & A4 & A5).
  destruct (IH (run_waiter i d (inr u) x w)) as (B1 & B2 & B3 & B4 & B5). cbn.
  rewrite B1, B2, B3, B5, A1, A2, A3, A5. split_and!; eauto.
Qed.

(** Whoever waits, the recorded file is then deleted or kept by its open composer. *)
Lemma waiters_file d f ws x :
  ws ≠ [] → let y := fold_left (run_waiter i d (inr (Some f))) ws x in
  f ∈ audio y.1 → mounted y.2 = true ∧ uri y.2 = Some f.
Proof.
  intros Hne. destruct (exists_last Hne) as (l & w & ->). rewrite fold_left_app. cbn.
  destruct (fold_left _ l x) as [s h]. cbn. clear.
  assert (f ∉ audio (deleteRecording (Some f) s)) as D by (intros [_ ?]%delete_elem; done).
  destruct w as [|c b|]; cbn; [|done..].
  destruct (mounted h) eqn:M; cbn; [|done]. destruct (_ <? _); cbn; done.
Qed.

Lemma fin_cleared_ok s s' h f :
  hook_ok i s h → fin h = Some f → owner s' ≠ Some i →
  hook_ok i s' (set_fin None h) ∧ ∀ t, t ∈ trans h → t_aborted t = true.
Proof.
  intros K F O. assert (∀ t, t ∈ trans h → t_aborted t = true) as D.
  { intros t Ht. destruct (t_aborted t) eqn:A; [done|].
    destruct (k_live _ _ _ K t Ht A) as (_ & ? & _). congruence. }
  split; [|done]. destruct K. constructor; cbn; try assumption; try congruence.
  intros t Ht. by rewrite D.
Qed.

(** The composer after a cancellation, at rest or still on its way back from a start. *)
Lemma discarded_ok s s' h t :
  hook_ok i s h → owner s' ≠ Some i → (∀ f, fin h = Some f → WStop ∉ waiters f) →
  (∀ t, t ∈ trans h → t_aborted t = true) → hook_ok i s' (set_state idle (set_text t (set_uri None h))).
Proof.
  intros [] O F D. constructor; cbn; try assumption; try congruence; auto.
  - intros f Hf Hw. by destruct (F f Hf).
  - intros f Hf Hp. by destruct (k_stopping0 f Hf Hp).
  - intros x Hx. by rewrite D.
Qed.

Lemma waiters_discard_ok d u ws x :
  hook_ok i x.1 x.2 → owner x.1 ≠ Some i → fin x.2 = None → (∀ t, t ∈ trans x.2 → t_aborted t = true) →
  WStop ∉ ws → let y := fold_left (run_waiter i d (inr u)) ws x in
  hook_ok i y.1 y.2 ∧ fin y.2 = None ∧ starts y.2 = starts x.2 ∧ (∀ t, t ∈ trans y.2 → t_aborted t = true).
Proof.
  revert x. induction ws as [|w ws IH]; intros x K O F D W; [done|]. cbn [fold_left].
  apply not_elem_of_cons in W as [Hw W]. pose proof (waiter_shared d u x w) as (A1 & A2 & _ & _ & A5).
  assert (starts (run_waiter i d (inr u) x w).2 = starts x.2 ∧ trans (run_waiter i d (inr u) x w).2 = trans x.2
    ∧ fin (run_waiter i d (inr u) x w).2 = None
    ∧ hook_ok i (run_waiter i d (inr u) x w).1 (run_waiter i d (inr u) x w).2) as (B1 & B2 & B3 & B4).
  { destruct x as [s h], w as [|c b|]; [done| |].
    - assert (∀ v, hook_ok i (discard v (s, h)).1 (discard v (s, h)).2) as G.
      { intros v. apply (discarded_ok s); [done| |cbn in *; congruence|done]. cbn. by rewrite (proj1 (delete_shared v s)). }
      destruct u as [f|]; (split_and!; [done..|apply G]).
    - cbn. split_and!; auto. destruct (delete_shared (match u with Some f => Some f | None => uri h end) s) as (E1 & E2 & _).
      apply (shared_ok s); [done|congruence..]. }
  destruct (IH (run_waiter i d (inr u) x w)) as (C1 & C2 & C3 & C4); [done|by rewrite A1|done|by rewrite B2|done|].
  cbn. rewrite C3, B1. auto.
Qed.

Lemma waiters_stop_ok d u r x :
  hook_ok i x.1 x.2 → owner x.1 ≠ Some i → fin x.2 = None → (∀ t, t ∈ trans x.2 → t_aborted t = true) →
  starts x.2 = None → vstate x.2 ≠ recording → Forall (eq WUnmount) r →
  let y := fold_left (run_waiter i d (inr u)) (WStop :: r) x in hook_ok i y.1 y.2.
Proof.
  destruct x as [s h]. cbn [fst snd]. intros K O F D S V Fr. cbn [fold_left].
  assert (hook_ok i (run_waiter i d (inr u) (s, h) WStop).1 (run_waiter i d (inr u) (s, h) WStop).2) as K1.
  { cbn. assert (∀ v g, hook_ok i (deleteRecording v s) g ↔ hook_ok i s g) as E.
    { intros v g. destruct (delete_shared v s) as (E1 & E2 & _). split; intros Q; (eapply shared_ok; [exact Q|congruence..]). }
    assert (∀ t, hook_ok i s (set_state failed (set_text t h))) as Kf.
    { intros t. apply set_state_ok; [by apply text_ok|by left| |intros; cbn in *; congruence|done|intros; cbn in *; congruence].
      intros x Hx. by rewrite D. }
    destruct (mounted h); cbn; [|by apply E]. destruct u as [f|]; cbn; [|apply Kf].
    destruct (_ <? _); cbn; [apply E, Kf|]. apply transcribe_ok; auto.
    destruct K. constructor; cbn; try assumption; try congruence.
    - intros t Ht. by rewrite D.
    - intros [?|(a & [?|?])]; [done|cbn in *; congruence..]. }
  revert K1. generalize (run_waiter i d (inr u) (s, h) WStop). clear - Fr.
  induction Fr as [|w r <- Fr IH]; intros [s h] K; [done|]. cbn [fold_left]. apply IH. cbn.
  destruct (delete_shared (match u with Some f => Some f | None => uri h end) s) as (E1 & E2 & _).
  apply (shared_ok s); [done|congruence..].
Qed.

Lemma reset_done_ok s h : hook_ok i s h → rec_owned s → step_ok i (s, h) (reset_done i (s, h)).
Proof.
  intros K R. unfold reset_done. destruct (fin h) as [f|] eqn:F; [|apply quiet_step; auto].
  destruct (phase f) as [|u] eqn:P; [apply quiet_step; auto|].
  pose proof (release_shared s) as (Ro & Rr & Rf & Ra & Rj).
  destruct (fin_cleared_ok s (release i s) h f K F Ro) as [K1 D].
  assert (isRecording s = true → owner s ≠ Some i) as Nr.
  { intros E1 E2. destruct (k_rec _ _ _ K E1 E2) as [_ [(_ & _ & ?)|(z & ? & ?)]]; congruence. }
  unfold resume_waiters. pose proof (waiters_shared (millis f) u (waiters f) (release i s, set_fin None h)) as W.
  assert (let y := fold_left (run_waiter i (millis f) (inr u)) (waiters f) (release i s, set_fin None h) in
    hook_ok i y.1 (background_notice (existsb in_background (waiters f)) y.2)) as Ky.
  { destruct (decide (WStop ∈ waiters f)) as [Hw|Hw].
    - destruct (k_wstop _ _ _ K f F Hw) as (Hs & Hv & r & E & Hr). rewrite E.
      assert (existsb in_background (WStop :: r) = false) as ->.
      { cbn. clear -Hr. induction Hr as [|w r <- Hr IH]; [done|exact IH]. }
      apply (waiters_stop_ok _ u r (release i s, set_fin None h)); auto. cbn. congruence.
    - destruct (waiters_discard_ok (millis f) u (waiters f) (release i s, set_fin None h)) as (C1 & C2 & C3 & C4); auto.
      cbn. destruct (fold_left _ _ _) as [s2 h2]. cbn in *. unfold background_notice.
      destruct (existsb in_background (waiters f)) eqn:B; cbn; [|done]. destruct (mounted h2); [|done].
      apply set_state_ok; [by apply text_ok| | | |done|].
      + left. cbn. rewrite C3. apply (k_background _ _ _ K f F B).
      + intros t Ht. by rewrite C4.
      + cbn. congruence.
      + intros _ E. destruct W as (W1 & _). by rewrite W1 in E. }
  pose proof (λ x, waiters_file (millis f) x (waiters f) (release i s, set_fin None h) (k_waiters _ _ _ K f F)) as Wf.
  destruct (fold_left _ _ _) as [s2 h2] eqn:Y. cbn in W. destruct W as (W1 & W2 & W3 & W4 & W5).
  constructor; cbn; [exact Ky| | |].
  - intros j Hj. rewrite W1, W2, W3, Rr, Rf. split; [auto|done].
  - apply (others_kept s); [intros j Hj; rewrite W1; auto| |done]. rewrite W2, Rr. auto.
  - intros x Hx. left. assert (x ∈ audio s2) as Hx2 by done. split; [rewrite <- Ra; auto|]. intros Hold.
    assert (u = Some x) as ->.
    { destruct Hold as [(_ & _ & [(_ & _ & ?)|(z & Hz & ?)])|[(z & Hz & ?)|[_ Hu]]]; [congruence..|].
      by apply (k_resetting _ _ _ K f u x F P). }
    specialize (Wf x). rewrite Y in Wf. destruct (Wf Hx2) as [Hm Hu]. right. right.
    unfold background_notice. by destruct (_ && _).
Qed.

Lemma recorder_stopped_ok s h : hook_ok i s h → rec_owned s → step_ok i (s, h) (stopped i None (s, h)).
Proof.
  intros K R. unfold stopped. destruct (fin h) as [f|] eqn:F; [|apply quiet_step; auto].
  destruct (phase f) eqn:P; [|apply quiet_step; auto].
  destruct (k_stopping _ _ _ K f F P) as [Hs Hu]. constructor; cbn.
  - destruct K. constructor; cbn; try assumption; try congruence.
    + intros g [= <-] Hw. by apply (k_wstop0 f).
    + intros g [= <-]. by apply (k_waiters0 f).
    + by intros g [= <-].
    + intros t Ht Hl. destruct (k_live0 t Ht Hl) as (_ & ? & _). congruence.
    + intros _. right. by right.
  - intros j Hj. cbn. naive_solver.
  - by intros ?.
  - intros x Hx. left. split; [done|]. intros [(_ & Hf & _)|[(z & Hz & ?)|[_ ?]]]; [|congruence..].
    right. left. eexists. split; [done|]. cbn. by rewrite Hf.
Qed.

Lemma dead_unless s h : hook_ok i s h → vstate h ≠ transcribing → ∀ t, t ∈ trans h → t_aborted t = true.
Proof.
  intros K V t Ht. destruct (t_aborted t) eqn:A; [done|].
  by destruct (k_live _ _ _ K t Ht A) as (_ & _ & _ & ? & _).
Qed.

Lemma recording_started s h : hook_ok i s h → vstate h = recording → starts h = None.
Proof.
  intros K V. destruct (starts h) eqn:S; [|done]. destruct (k_start _ _ _ K ltac:(by rewrite S)); congruence.
Qed.

Lemma stop_ok d s h :
  hook_ok i s h → rec_owned s → fin h = None → step_ok i (s, h) (stop i d (s, h)).
Proof.
  intros K R F. unfold stop. case_bool_decide as V; cbn [negb orb]; [|apply quiet_step; auto].
  destruct (owns i s) eqn:O; cbn [negb]; [|apply quiet_step; auto]. apply owns_spec in O.
  apply finalize_ok; auto. constructor; cbn; auto.
  - apply K.
  - apply (dead_unless s); [done|congruence].
  - intros p a E. rewrite (recording_started s h K V) in E. done.
  - left. apply (k_uri _ _ _ K). auto.
  - intros f Hf. congruence.
Qed.

Lemma bumped_finishing s h w h1 :
  hook_ok i s h → (owner s = Some i → uri h = None ∨ uri h = file s) → owner s = Some i →
  w ≠ WStop → (in_background w = true → vstate h = recording) →
  (∀ f, fin h = Some f → WStop ∈ waiters f → w = WUnmount) →
  h1 = set_starts (S (attempt h)) (starts h) h ∨ h1 = set_mounted false (set_starts (S (attempt h)) (starts h) h) →
  finishing s h (abort h1) w.
Proof.
  intros K U Ho W B A H1.
  assert (trans h1 = trans h ∧ next_ctl h1 = next_ctl h ∧ abortRef h1 = abortRef h) as (E1 & E2 & E3) by by destruct H1 as [-> | ->].
  assert (hook_ok i s (abort h)) as K1 by by apply abort_ok.
  assert (trans (abort h1) = trans (abort h)) as E4 by (cbn; by rewrite E1, E3).
  constructor; rewrite ?E4.
  - by destruct H1 as [-> | ->].
  - by destruct H1 as [-> | ->].
  - by destruct H1 as [-> | ->].
  - replace (next_ctl (abort h1)) with (next_ctl (abort h)) by done. apply K1.
  - intros t. by apply (abort_dead s).
  - intros p a E. pose proof (k_attempt _ _ _ K p a E). destruct H1 as [-> | ->]; cbn; lia.
  - left. by destruct H1 as [-> | ->].
  - done.
  - done.
  - auto.
  - done.
Qed.

(** A composer that does not own the recorder throws away what it keeps. *)
Lemma dropped_step s h h' v :
  hook_ok i s h → rec_owned s → owner s ≠ Some i → (∀ s', owner s' = owner s → hook_ok i s' h') →
  fin h' = fin h → v = uri h → step_ok i (s, h) (deleteRecording v s, h').
Proof.
  intros K R O K' F ->. destruct (delete_shared (uri h) s) as (E1 & E2 & E3). constructor; cbn.
  - by apply K'.
  - intros j Hj. rewrite E1, E2, E3. naive_solver.
  - intros E. rewrite E1. apply R. congruence.
  - intros x [Hx Hu]%delete_elem. left. split; [done|]. intros [(? & _)|[Hz|[_ ?]]]; [done| |done].
    right. left. by rewrite F.
Qed.

Lemma cancel_ok d b s h :
  hook_ok i s h → rec_owned s → (∀ f, fin h = Some f → WStop ∉ waiters f) →
  (owner s = Some i → uri h = None ∨ uri h = file s) → (b = true → vstate h = recording) →
  step_ok i (s, h) (cancel i d b (s, h)).
Proof.
  intros K R W U B. unfold cancel. set (h1 := abort (set_starts (S (attempt h)) (starts h) h)).
  destruct (owns i s) eqn:O.
  - apply owns_spec in O. apply finalize_ok; auto.
    apply (bumped_finishing s h); auto. intros f Hf Hw. by destruct (W f Hf).
  - assert (owner s ≠ Some i) as Ho by (intros E; apply owns_spec in E; congruence). cbn [discard fst snd].
    assert (hook_ok i s h1) as K1 by (apply abort_ok, bump_ok; auto).
    apply dropped_step; auto; [|unfold background_notice; by destruct (_ && _)].
    intros s' E. assert (∀ t, hook_ok i s' (set_state idle (set_text t (set_uri None h1)))) as K2.
    { intros t. apply (discarded_ok s); [done|by rewrite E|done|]. intros x.
      apply (abort_dead s). by apply bump_ok; auto. }
    unfold background_notice. destruct b; cbn [andb]; [|apply K2]. destruct (mounted _); [|apply K2].
    apply set_state_ok; [apply text_ok, K2|left; exact (recording_started s h K (B eq_refl))| | |done|].
    + intros x Hx. rewrite (abort_dead s _ x (bump_ok s h K (or_introl Ho)) Hx). done.
    + intros f Hf Hw. by destruct (W f Hf).
    + intros _ E'. congruence.
Qed.

Lemma unmount_ok d s h :
  hook_ok i s h → rec_owned s → (owner s = Some i → uri h = None ∨ uri h = file s) →
  step_ok i (s, h) (unmount i d (s, h)).
Proof.
  intros K R U. unfold unmount. destruct (owns i s) eqn:O.
  - apply owns_spec in O. apply finalize_ok; auto. apply (bumped_finishing s h); auto; done.
  - assert (owner s ≠ Some i) as Ho by (intros E; apply owns_spec in E; congruence).
    apply dropped_step; auto. intros s' E. apply (shared_ok s); [|congruence..]. apply abort_ok.
    pose proof (bump_ok s h K (or_introl Ho)) as []. constructor; cbn; try assumption; congruence.
Qed.

(** *** The transcription *)

Lemma settled_ok s h k t :
  hook_ok i s h → trans h !! k = Some t →
  hook_ok i s (set_trans (delete k (trans h))
    (if bool_decide (abortRef h = Some (t_id t)) then None else abortRef h) (next_ctl h) h)
  ∧ ∀ x, x ∈ delete k (trans h) → t_aborted t = false → t_aborted x = true.
Proof.
  intros K Hk. pose proof (delete_Permutation _ _ _ Hk) as Hp.
  pose proof (proj1 (k_ids _ _ _ K)) as N. rewrite Hp in N. cbn in N. apply NoDup_cons in N as [N1 N2].
  assert (∀ x, x ∈ delete k (trans h) → x ∈ trans h ∧ t_id x ≠ t_id t) as In.
  { intros x Hx. split; [rewrite Hp; by right|]. intros E. apply N1. rewrite <- E. by apply list_elem_of_fmap_2. }
  split.
  - pose proof K as []. constructor; cbn; try assumption.
    + split; [done|]. destruct k_ids0 as [_ F]. rewrite Forall_forall in F |- *. intros x Hx. apply F, In, Hx.
    + intros x Hx Hl. destruct (In x Hx) as [Hx' Hne]. destruct (k_live0 x Hx' Hl) as (E & ?).
      rewrite bool_decide_eq_false_2; [done|]. congruence.
  - intros x Hx Hl. destruct (In x Hx) as [Hx' Hne]. destruct (t_aborted x) eqn:A; [done|].
    destruct (k_live _ _ _ K x Hx' A) as [E1 _].
    destruct (k_live _ _ _ K t ltac:(by apply list_elem_of_lookup_2 in Hk) Hl) as [E2 _]. congruence.
Qed.

Lemma kept_step s h h' :
  rec_owned s → hook_ok i s h' → (vstate h ≠ recording ∨ owner s ≠ Some i) → fin h' = fin h →
  mounted h' = mounted h → uri h' = uri h → step_ok i (s, h) (s, h').
Proof.
  intros R K V F M U. apply quiet_step; [done..|]. unfold holds_file. rewrite F, M, U. naive_solver.
Qed.

Lemma transcribed_ok k r s h :
  hook_ok i s h → rec_owned s → step_ok i (s, h) (transcribed k r (s, h)).
Proof.
  intros K R. unfold transcribed. destruct (trans h !! k) as [t|] eqn:Hk; [|apply quiet_step; auto].
  destruct (settled_ok s h k t K Hk) as [K1 D]. set (h1 := set_trans _ _ _ h) in *.
  destruct (negb (mounted h1)) eqn:M; cbn [orb]; [apply quiet_step; auto|].
  destruct (t_aborted t) eqn:A; [apply quiet_step; auto|].
  destruct (k_live _ _ _ K t ltac:(by apply list_elem_of_lookup_2 in Hk) A) as (_ & Hf & Hs & Hv & Hu).
  assert (owner s ≠ Some i) as Ho.
  { intros Ho. destruct (k_owner _ _ _ K Ho) as [(p & ? & _)|[(? & _)|?]]; congruence. }
  assert (∀ v x, v ≠ recording → hook_ok i s (set_state v (set_text x h1))) as Ks.
  { intros v x Hr. apply set_state_ok; [by apply text_ok|by left| |cbn; congruence|done|cbn; congruence].
    intros y Hy Hl. rewrite (D y Hy eq_refl) in Hl. done. }
  destruct r as [m|a]; [apply kept_step; auto; by apply Ks|].
  destruct (negb (truthy _)); [apply kept_step; auto; by apply Ks|].
  apply dropped_step; auto. intros s' E. apply (shared_ok s); [|congruence..].
  assert (∀ g, hook_ok i s g → trans g = trans h1 → uri g = uri h1 → starts g = None → fin g = None →
    vstate g = in_review → hook_ok i s (set_uri None g)) as Kn.
  { intros g [] E1 E2 E3 E4 E5. constructor; cbn; try assumption; try congruence.
    intros y Hy Hl. rewrite E1 in Hy. rewrite (D y Hy eq_refl) in Hl. done. }
  apply Kn; try done. by apply Ks.
Qed.

(** *** Every event *)

Lemma step_ok_trans x y z : step_ok i x y → step_ok i y z → step_ok i x z.
Proof.
  intros [A1 A2 A3 A4] [B1 B2 B3 B4]. constructor; auto.
  - intros j Hj. destruct (A2 j Hj) as [O1 F1], (B2 j Hj) as [O2 F2]. split; [by rewrite O2|].
    intros Ho. destruct (F1 Ho) as [R1 E1], (F2 ltac:(by apply O1)) as [R2 E2].
    split; [auto|congruence].
  - intros f Hf. destruct (B4 f Hf) as [[Hy B]|?]; [|auto]. destruct (A4 f Hy) as [[Hx A]|?]; auto.
Qed.

Lemma asked_ok s h n : hook_ok i s h → hook_ok i s (set_asked n h).
Proof. intros []. constructor; assumption. Qed.

Lemma asked_step s h n y : step_ok i (s, set_asked n h) y → step_ok i (s, h) y.
Proof. intros []. constructor; assumption. Qed.

Lemma start_ok disabled demo s h : hook_ok i s h → rec_owned s → step_ok i (s, h) (s, start disabled demo h).
Proof.
  intros K R. unfold start. destruct (_ || _); [apply quiet_step; auto|].
  apply quiet_step; [done|by apply asked_ok|auto].
Qed.

Lemma idle_ok s h t :
  hook_ok i s h → vstate h ≠ recording → vstate h ≠ transcribing → hook_ok i s (set_state idle (set_text t h)).
Proof.
  intros K V1 V2. apply set_state_ok; [by apply text_ok|auto| | |done|cbn; congruence].
  - intros x Hx Hl. by rewrite (dead_unless s h K V2 x Hx) in Hl.
  - intros f Hf Hw. destruct (k_wstop _ _ _ K f Hf Hw) as (_ & ? & _). congruence.
Qed.

Lemma failed_at_rest s h :
  hook_ok i s h → vstate h = failed → fin h = None → starts h = None ∧ owner s ≠ Some i.
Proof.
  intros K V F. assert (starts h = None) as S.
  { destruct (starts h) eqn:S; [|done]. destruct (k_start _ _ _ K ltac:(by rewrite S)); congruence. }
  split; [done|]. intros O. destruct (k_owner _ _ _ K O) as [(p & ? & _)|[(? & _)|?]]; congruence.
Qed.

Lemma recordAgain_ok s h :
  hook_ok i s h → rec_owned s → vstate h = failed → fin h = None → mounted h = true →
  step_ok i (s, h) (recordAgain i (s, h)).
Proof.
  intros K R V F M. destruct (failed_at_rest s h K V F) as [S O].
  pose proof (abort_ok s h K) as K1.
  assert (∀ s' t, owner s' ≠ Some i → hook_ok i s' (set_state idle (set_text t (set_uri None (abort h))))) as K2.
  { intros s' t Ho. apply (discarded_ok s); [done..|cbn; congruence|]. intros x. by apply (abort_dead s). }
  unfold recordAgain. cbn [fst snd].
  set (g := set_state idle _). apply (step_ok_trans _ (deleteRecording (uri (abort h)) s, g)).
  { apply dropped_step; auto. intros s' E. apply K2. by rewrite E. }
  apply startRecording_ok; auto; [| |done..].
  - apply K2. by rewrite (proj1 (delete_shared _ s)).
  - intros E. rewrite (proj1 (delete_shared _ s)). apply R. by destruct (delete_shared (uri (abort h)) s) as (_ & <- & _).
Qed.

Lemma hook_step_ok e s h :
  hook_ok i s h → rec_owned s → careful i e (s, h) → step_ok i (s, h) (hook_step i e (s, h)).
Proof.
  intros K R C. destruct e; cbn [hook_step careful] in *.
  - destruct (mounted h); [by apply start_ok|apply quiet_step; auto].
  - destruct C as (M & V1 & V2 & F). unfold start_continues. destruct (asked h) as [|n]; [apply quiet_step; auto|].
    apply (asked_step s h n), startRecording_ok; auto. by apply asked_ok.
  - apply quiet_step; [done|by apply asked_ok|auto].
  - by apply start_resumes_ok.
  - destruct (mounted h); [by apply stop_ok|apply quiet_step; auto].
  - subst failure. by apply recorder_stopped_ok.
  - by apply reset_done_ok.
  - destruct (mounted h); [apply cancel_ok; naive_solver|apply quiet_step; auto].
  - destruct (mounted h); cbn [andb]; [|apply quiet_step; auto].
    case_bool_decide as V; [|apply quiet_step; auto]. apply cancel_ok; auto.
    + intros f Hf Hw. destruct (k_wstop _ _ _ K f Hf Hw) as (_ & ? & _). congruence.
    + intros _. left. apply (k_uri _ _ _ K). auto.
  - destruct (mounted h); cbn [andb]; [|apply quiet_step; auto]. case_bool_decide as V; [|apply quiet_step; auto].
    destruct (failed_at_rest s h K V C) as [S O]. unfold retry. destruct (uri h) as [u|] eqn:U; [|by apply start_ok].
    apply kept_step; auto. apply transcribe_ok; auto; [|congruence]. apply (dead_unless s); [done|congruence].
  - destruct (mounted h) eqn:M; cbn [andb]; [|apply quiet_step; auto].
    case_bool_decide as V; [|apply quiet_step; auto]. by apply recordAgain_ok.
  - destruct (_ && _); [|apply quiet_step; auto]. unfold restore. destruct (review (text h)); [|apply quiet_step; auto].
    destruct (restoreRawVoiceDraft _ _) as [[d c]|]; [|apply quiet_step; auto].
    apply quiet_step; [done|by apply text_ok, text_ok|auto].
  - destruct (mounted h); cbn [andb]; [|apply quiet_step; auto]. case_bool_decide as V; [|apply quiet_step; auto].
    apply kept_step; auto; [apply idle_ok; [done|congruence..]|left; congruence].
  - destruct (mounted h); [|apply quiet_step; auto]. destruct C. apply kept_step; auto. by apply idle_ok.
  - destruct (mounted h); [|apply quiet_step; auto]. apply quiet_step; [done|by apply text_ok|auto].
  - by apply transcribed_ok.
  - destruct (mounted h); [by apply unmount_ok|apply quiet_step; auto].
Qed.

End Steps.

Lemma frame_ok i j s s' h : frame i s s' → j ≠ i → hook_ok j s h → hook_ok j s' h.
Proof. intros F Hj K. destruct (F j Hj) as [O R]. apply (shared_ok j s); [done|by apply O|]. intros ?%O. by apply R. Qed.

Lemma frame_holds i j s s' h f : frame i s s' → j ≠ i → holds_file j s h f → holds_file j s' h f.
Proof.
  intros F Hj. destruct (F j Hj) as [O R]. intros [(Ho & Hf & ?)|?]; [left|by right].
  split_and!; [by apply O| |done]. destruct (R Ho) as [_ ->]. done.
Qed.

(** The state of the whole app. *)
Record app_ok (w : App) : Prop := {
  a_hooks : ∀ i h, hooks w !! i = Some h → hook_ok i (shared w) h;
  a_rec : rec_owned (shared w);
  a_owner : ∀ i, owner (shared w) = Some i → is_Some (hooks w !! i);
  a_files : ∀ f, f ∈ audio (shared w) → ∃ i h, hooks w !! i = Some h ∧ holds_file i (shared w) h f;
}.

Lemma step_app_ok e w : app_ok w → careful_app e w → app_ok (step e w).
Proof.
  intros [H R O F] C. destruct e as [i|i e|]; cbn [step].
  - destruct (hooks w !! i) as [h|] eqn:E; [done|]. constructor; cbn; [|done| |].
    + intros j h. destruct (decide (j = i)) as [->|Hj]; [|rewrite lookup_insert_ne by done; auto].
      rewrite lookup_insert_eq. intros [= <-].
      assert (owner (shared w) ≠ Some i) as Ho by (intros Ho; destruct (O i Ho); congruence).
      constructor; cbn; try done; try (by intros [? ?]).
      * split; constructor.
      * intros t Ht. by apply not_elem_of_nil in Ht.
    + intros j Hj. destruct (decide (j = i)) as [->|?]; [rewrite lookup_insert_eq; eauto|].
      rewrite lookup_insert_ne by done. auto.
    + intros f Hf. destruct (F f Hf) as (j & h & Hj & ?). exists j, h. split; [|done].
      rewrite lookup_insert_ne; [done|congruence].
  - destruct (hooks w !! i) as [h|] eqn:E; [|done].
    destruct (hook_step i e (shared w, h)) as [s' h'] eqn:Y.
    pose proof (hook_step_ok i e (shared w) h (H i h E) R (C h E)) as [K Fr R' Fs]. rewrite Y in K, Fr, R', Fs.
    cbn [fst snd] in *. constructor; cbn [shared hooks]; [|done| |].
    + intros j g. destruct (decide (j = i)) as [->|Hj].
      * rewrite lookup_insert_eq. by intros [= <-].
      * rewrite lookup_insert_ne by done. intros Hg. apply (frame_ok i j (shared w)); auto.
    + intros j Hj. destruct (decide (j = i)) as [->|?]; [rewrite lookup_insert_eq; eauto|].
      rewrite lookup_insert_ne by done. apply O. by apply (Fr j).
    + intros f Hf. destruct (Fs f Hf) as [[Hf0 Hi]|Hi]; [|exists i, h'; by rewrite lookup_insert_eq].
      destruct (F f Hf0) as (j & g & Hj & Hg). destruct (decide (j = i)) as [->|Hne].
      * exists i, h'. rewrite lookup_insert_eq. split; [done|]. apply Hi. congruence.
      * exists j, g. rewrite lookup_insert_ne by done. split; [done|]. by apply (frame_holds i j (shared w)).
  - constructor; cbn; auto; [|by intros ?].
    intros i h Hi. by apply (shared_ok i (shared w)); auto.
Qed.

Lemma app_reachable_ok w : careful_reachable w → app_ok w.
Proof.
  induction 1 as [|w e Hw IH C]; [|by apply step_app_ok].
  constructor; cbn; try done. intros f Hf. by apply not_elem_of_nil in Hf.
Qed.

(** C16: the microphone is on only where the user sees it. In every state the composers and
    the recorder reach, in whatever order their events interleave, provided that (as
    [careful] says) stopping the recorder does not fail, no typed message is sent from a
    composer that records or transcribes, the explanation is confirmed only in an open
    composer at rest, nothing is pressed that starts or stops a recording while one is
    being finished, cancel is not pressed while the stop button's stop is under way, and a
    composer that keeps an older audio file is neither cancelled nor closed while it owns
    the recorder: while the microphone records, exactly one composer owns it, and that
    composer is open and shows the recording, or is stopping it; the recorder is claimed
    only by a composer that is starting, recording or finishing, so it is never blocked by
    one at rest; and every audio file is that of the recording in progress, is about to be
    deleted, or is kept by an open composer for another try, so that when all composers
    are closed and have finished, no audio is left and the microphone is free. *)
Theorem microphone_visible (w : App) (Hw : careful_reachable w) :
  (isRecording (shared w) = true →
     ∃ i h, owner (shared w) = Some i ∧ hooks w !! i = Some h ∧ shows_recording h)
  ∧ (∀ i h, owner (shared w) = Some i → hooks w !! i = Some h →
       is_Some (starts h) ∨ vstate h = recording ∨ is_Some (fin h))
  ∧ (∀ f, f ∈ audio (shared w) → ∃ i h, hooks w !! i = Some h ∧ holds_file i (shared w) h f)
  ∧ ((∀ i h, hooks w !! i = Some h → mounted h = false ∧ starts h = None ∧ fin h = None) →
     audio (shared w) = [] ∧ owner (shared w) = None ∧ isRecording (shared w) = false).
Proof.
  destruct (app_reachable_ok w Hw) as [H R O F].
  assert (∀ i h, owner (shared w) = Some i → hooks w !! i = Some h →
       is_Some (starts h) ∨ vstate h = recording ∧ mounted h = true ∨ is_Some (fin h)) as P2.
  { intros i h Ho Hi. destruct (k_owner _ _ _ (H i h Hi) Ho) as [(p & -> & _)|[(? & ? & _)|?]]; [eauto|auto|].
    right. right. by apply not_eq_None_Some. }
  split; [|split; [|split; [exact F|]]].
  - intros E. destruct (owner (shared w)) as [i|] eqn:Ho; [|by destruct (R E)].
    destruct (O i eq_refl) as [h Hi]. exists i, h. split; [done|]. split; [done|].
    by destruct (k_rec _ _ _ (H i h Hi) E Ho).
  - intros i h Ho Hi. destruct (P2 i h Ho Hi) as [?|[[? _]|?]]; auto.
  - intros Q. assert (owner (shared w) = None) as Ho.
    { destruct (owner (shared w)) as [i|] eqn:Ho; [|done]. destruct (O i eq_refl) as [h Hi].
      destruct (Q i h Hi) as (E1 & E2 & E3).
      destruct (P2 i h eq_refl Hi) as [[? ?]|[[_ ?]|[? ?]]]; congruence. }
    split; [|split; [done|]].
    + destruct (audio (shared w)) as [|f l] eqn:A; [done|]. destruct (F f) as (i & h & Hi & Hh); [by left|].
      destruct (Q i h Hi) as (E1 & E2 & E3).
      destruct Hh as [(? & _)|[(z & ? & _)|[? _]]]; congruence.
    + destruct (isRecording (shared w)) eqn:E; [|done]. by destruct (R E).
Qed.

(** ** What can go wrong *)

(** A composer that records. *)
Definition record_at (i : nat) : list app_event :=
  [Mount i; Of i (Start false false); Of i Continue; Of i (Resume Granted); Of i (Resume Done);
   Of i (Resume Done)].

Definition stops (i : nat) : list app_event := [Of i (Stopped None); Of i ResetDone].

Definition view (i : nat) (w : App) : option (VoiceDraftState * bool) :=
  (λ h, (vstate h, mounted h)) <$> hooks w !! i.

(** Sending a typed message while recording hides the panel; the microphone stays on, also
    when the app then leaves the foreground. *)
Lemma send_while_recording_hides_microphone :
  let w := run (record_at 0 ++ [Of 0 MarkSent; Of 0 (Background 1000)]) init in
  isRecording (shared w) = true ∧ view 0 w = Some (idle, true).
Proof. split; vm_compute; reflexivity. Qed.

(** Confirming the explanation after its composer was closed claims the recorder for good:
    the next composer cannot record. *)
Lemma stale_start_keeps_microphone :
  let w := run [Mount 0; Of 0 (Start false false); Of 0 (Unmount 0); Of 0 Continue; Of 0 (Resume Granted)] init in
  owner (shared w) = Some 0%nat ∧ view 0 w = Some (preparing, false)
  ∧ (starts <$> hooks w !! 0%nat) = Some None ∧ isRecording (shared (run (record_at 1) w)) = false.
Proof. vm_compute. repeat split. Qed.

(** Cancelling while the recording is being stopped does not cancel the transcription:
    its text is put into the draft. *)
Lemma cancel_while_stopping_transcribes :
  let w := run (record_at 0 ++ [Of 0 (Stop 5000); Of 0 (Cancel 5000)] ++ stops 0) init in
  let a := {| raw_text := js "hi"; suggested_text := []; warnings := [] |} in
  view 0 w = Some (idle, true)
  ∧ ((draft ∘ text) <$> hooks (run [Of 0 (Transcribed 0 (inr a))] w) !! 0%nat) = Some (js "hi").
Proof. split; vm_compute; reflexivity. Qed.

(** When the recorder cannot be stopped as the composer closes, the recorder stays claimed. *)
Lemma failed_stop_keeps_microphone :
  let w := run (record_at 0 ++ [Of 0 (Unmount 1000); Of 0 (Stopped (Some []))]) init in
  owner (shared w) = Some 0%nat ∧ isRecording (shared w) = true ∧ (fin <$> hooks w !! 0%nat) = Some None.
Proof. vm_compute. repeat split. Qed.

(** Cancelling before the recording has begun deletes the file recorded last, which may be
    one that another composer keeps to be transcribed again. *)
Lemma cancel_deletes_other_recording :
  let w := run (record_at 0 ++ [Of 0 (Stop 5000)] ++ stops 0 ++ [Of 0 (Transcribed 0 (inl (js "Network request failed")))]) init in
  let w1 := run [Mount 1; Of 1 (Start false false); Of 1 Continue; Of 1 (Cancel 0); Of 1 ResetDone] w in
  audio (shared w) = [0%nat] ∧ (uri <$> hooks w !! 0%nat) = Some (Some 0%nat)
  ∧ audio (shared w1) = [] ∧ (uri <$> hooks w1 !! 0%nat) = Some (Some 0%nat).
Proof. vm_compute. repeat split. Qed.

(** A start that was cancelled resets the audio mode when it goes on, also under another
    composer that records by then. *)
Lemma stale_start_resets_audio_mode :
  let es := [Mount 0; Of 0 (Start false false); Of 0 Continue; Of 0 (Resume Granted); Of 0 (Cancel 0); Of 0 ResetDone] in
  let w := run (es ++ record_at 1 ++ [Of 0 (Resume Done)]) init in
  isRecording (shared w) = true ∧ owner (shared w) = Some 1%nat ∧ allowsRecording (shared w) = false.
Proof. vm_compute. repeat split. Qed.

Lemma microphone_visible_witness :
  let w := run (record_at 0) init in
  careful_reachable w ∧ isRecording (shared w) = true
  ∧ ∃ i h, owner (shared w) = Some i ∧ hooks w !! i = Some h ∧ shows_recording h.
Proof.
  intros w. assert (careful_reachable w) as Hw.
  { unfold w, run, record_at. cbn [fold_left].
    repeat (apply reach_step; [|first [exact I | intros h E; exact I
      | intros h E; vm_compute in E; injection E as <-; repeat split; discriminate]]).
    apply reach_init. }
  split; [exact Hw|]. split; [vm_compute; reflexivity|].
  apply (microphone_visible w Hw). vm_compute. reflexivity.
Defined.
