(* ===== verification/WebContexts.v ===== *)
(** * The contexts of the web app

    [web/src/contexts/AuthContext.tsx]: the account behind the signed-in user and the scope
    of the response cache; [ConfirmContext.tsx]: the one confirmation dialog of the app;
    [ToastContext.tsx]: the notices that expire. *)

From S2P Require Import Prelude.
From S2P Require Import Json.
From S2P Require Import ApiClient.
From S2P Require Import Routing.

(** ** The session *)

Module Auth.
Import ApiClient.Web.

(** What Clerk says. *)
Record Clerk := { isLoaded : bool; isSignedIn : bool; clerkUserId : option str }.

#[export] Instance Clerk_eq_dec : EqDecision Clerk.
Proof. solve_decision. Defined.

(** An answer of [api.createSession]. *)
Inductive SessionAnswer :=
| SessionUser (u : Access.User)
| SessionFailed (status : option Z) (code : option str) (error : option str)
| SessionThrew (message : str).

Record Session := {
  clerk : Clerk;
  user : option (Access.User * option str);    (* and whom it was asked for *)
  isLoading : bool;
  sessionError : option str;
  accessDenied : bool;
  cacheScopeRef : option str;                  (* also the scope of the API client *)
  store : Storage;
  syncs : list (option str * bool);            (* in flight: for whom, and from the effect? *)
  fetches : list (option str * str);           (* other requests in flight, with their scope *)
}.

Definition set_user (u : option (Access.User * option str)) (e : option str) (denied : bool) (s : Session) : Session :=
  {| clerk := clerk s; user := u; isLoading := isLoading s; sessionError := e; accessDenied := denied;
     cacheScopeRef := cacheScopeRef s; store := store s; syncs := syncs s; fetches := fetches s |}.
Definition set_loading (b : bool) (s : Session) : Session :=
  {| clerk := clerk s; user := user s; isLoading := b; sessionError := sessionError s;
     accessDenied := accessDenied s; cacheScopeRef := cacheScopeRef s; store := store s; syncs := syncs s;
     fetches := fetches s |}.
Definition set_scope (c : Clerk) (o : option str) (m : Storage) (s : Session) : Session :=
  {| clerk := c; user := user s; isLoading := isLoading s; sessionError := sessionError s;
     accessDenied := accessDenied s; cacheScopeRef := o; store := m; syncs := syncs s; fetches := fetches s |}.
Definition set_flight (l : list (option str * bool)) (f : list (option str * str)) (s : Session) : Session :=
  {| clerk := clerk s; user := user s; isLoading := isLoading s; sessionError := sessionError s;
     accessDenied := accessDenied s; cacheScopeRef := cacheScopeRef s; store := store s; syncs := l; fetches := f |}.

Definition scope_of (i : option str) : option str :=
  match i with Some i => if truthy i then Some (clerk_scope i) else None | None => None end.

(** The effect that follows the identifier. *)
Definition scope_effect (c : Clerk) (s : Session) : Session :=
  let scope := scope_of (clerkUserId c) in
  let m := match scope, cacheScopeRef s with
           | None, Some old => clearApiCache (Some old) (store s)
           | _, _ => store s
           end in
  set_scope c scope m s.

(** [syncSession] up to its request. *)
Definition syncSession (from_effect : bool) (s : Session) : Session :=
  if negb (isSignedIn (clerk s)) then s
  else set_flight (syncs s ++ [(clerkUserId (clerk s), from_effect)]) (fetches s) (set_user (user s) None false s).

(** The effect that follows the sign-in. *)
Definition session_effect (s : Session) : Session :=
  if negb (isLoaded (clerk s)) then s
  else if negb (isSignedIn (clerk s)) then set_loading false (set_user None None false s)
  else syncSession true s.

Definition clerk_changed (c : Clerk) (s : Session) : Session :=
  if bool_decide (c = clerk s) then s
  else session_effect
         (if bool_decide (clerkUserId c = clerkUserId (clerk s))
          then set_scope c (cacheScopeRef s) (store s) s else scope_effect c s).

Definition NO_CONNECTION : str :=
  js "Could not connect to your CSG account. Check your connection and try again.".

(** The answer to the request number [k] in flight. *)
Definition answered (k : nat) (r : SessionAnswer) (s0 : Session) : Session :=
  match syncs s0 !! k with
  | None => s0
  | Some (who, from_effect) =>
      let s := set_flight (delete k (syncs s0)) (fetches s0) s0 in
      let s1 := match r with
                | SessionUser u => set_user (Some (u, who)) (sessionError s) (accessDenied s) s
                | SessionFailed st code e =>
                    let denied := Access.isAccessDeniedResponse st code in
                    let m := if denied then clearApiCache (cacheScopeRef s) (store s) else store s in
                    set_user None (Some (match e with Some x => if truthy x then x else NO_CONNECTION
                                         | None => NO_CONNECTION end)) denied
                      (set_scope (clerk s) (cacheScopeRef s) m s)
                | SessionThrew m => set_user None (Some m) false s
                end in
      if from_effect : bool then set_loading false s1 else s1
  end.

Inductive event :=
| ClerkSays (c : Clerk)
| SyncAgain                                    (* the retry button, the accepted standards *)
| Answered (k : nat) (r : SessionAnswer)
| Fetch (endpoint : str)                       (* a request that may be cached *)
| Fetched (k : nat) (d : json) (now : Z).

Definition step (e : event) (s : Session) : Session :=
  match e with
  | ClerkSays c => clerk_changed c s
  | SyncAgain => syncSession false s
  | Answered k r => answered k r s
  | Fetch x => set_flight (syncs s) (fetches s ++ [(cacheScopeRef s, x)]) s
  | Fetched k d now =>
      match fetches s !! k with
      | None => s
      | Some (scope, x) =>
          set_scope (clerk s) (cacheScopeRef s) (writeCachedResponse scope x d now (store s))
            (set_flight (syncs s) (delete k (fetches s)) s)
      end
  end.

Definition init : Session :=
  {| clerk := {| isLoaded := false; isSignedIn := false; clerkUserId := None |}; user := None; isLoading := true;
     sessionError := None; accessDenied := false; cacheScopeRef := None; store := ∅; syncs := []; fetches := [] |}.

Definition run (es : list event) (s : Session) : Session := fold_left (λ s e, step e s) es s.

(** The session requests are answered in the order they were made. *)
Definition in_order (e : event) : Prop := match e with Answered k _ => k = 0%nat | _ => True end.

Definition belongs (s : Session) : Prop :=
  ∀ u who, user s = Some (u, who) → who = clerkUserId (clerk s).

(** While a user is signed in, the account is theirs or the last request will say. *)
Definition follows (s : Session) : Prop :=
  isLoaded (clerk s) = true → isSignedIn (clerk s) = true →
  (fst <$> last (syncs s)) = Some (clerkUserId (clerk s)) ∨ (syncs s = [] ∧ belongs s).

Lemma sync_follows b s : isSignedIn (clerk s) = true → follows (syncSession b s).
Proof. intros H _ _. left. unfold syncSession. rewrite H. cbn. by rewrite last_snoc. Qed.

Lemma sync_clerk b s : clerk (syncSession b s) = clerk s ∧ cacheScopeRef (syncSession b s) = cacheScopeRef s
  ∧ store (syncSession b s) = store s.
Proof. unfold syncSession. by destruct (negb _). Qed.

Lemma effect_shared s : clerk (session_effect s) = clerk s ∧ cacheScopeRef (session_effect s) = cacheScopeRef s
  ∧ store (session_effect s) = store s.
Proof.
  unfold session_effect. destruct (negb (isLoaded _)); [done|]. destruct (negb _); [done|]. apply sync_clerk.
Qed.

Lemma effect_follows s : follows (session_effect s).
Proof.
  unfold session_effect. destruct (isLoaded (clerk s)) eqn:L; cbn [negb]; [|intros E; congruence].
  destruct (isSignedIn (clerk s)) eqn:I; cbn [negb]; [by apply sync_follows|]. intros _ E. cbn in E. congruence.
Qed.

Lemma answered_shared k r s : clerk (answered k r s) = clerk s ∧ cacheScopeRef (answered k r s) = cacheScopeRef s.
Proof.
  unfold answered. destruct (syncs s !! k) as [[who b]|]; [|done]. by destruct r, b.
Qed.

Lemma answered_follows r s : follows s → follows (answered 0 r s).
Proof.
  intros F L I. pose proof (answered_shared 0 r s) as [C _]. rewrite C in *. unfold answered.
  destruct (syncs s) as [|[who b] q] eqn:Q; cbn [lookup list_lookup].
  - rewrite Q. destruct (F L I) as [?|?]; rewrite Q in *; auto.
  - destruct (F L I) as [H|[H _]]; rewrite Q in H; [|done]. destruct q as [|q0 q].
    + right. cbn in H. injection H as H. destruct r, b; (split; [done|]); intros u' w'; cbn; naive_solver.
    + left. destruct r, b; exact H.
Qed.

Lemma step_follows e s : in_order e → follows s → follows (step e s).
Proof.
  destruct e as [c| |k r|x|k d now]; cbn [step in_order].
  - intros _ F. unfold clerk_changed. case_bool_decide; [done|apply effect_follows].
  - intros _ F. destruct (isSignedIn (clerk s)) eqn:I; [by apply sync_follows|].
    unfold syncSession. by rewrite I.
  - intros -> F. by apply answered_follows.
  - intros _ F. exact F.
  - intros _ F. destruct (fetches s !! k) as [[sc x]|]; [exact F|done].
Qed.

Lemma run_follows es s : Forall in_order es → follows s → follows (run es s).
Proof. intros F. revert s. induction F as [|e es He F IH]; intros s H; [done|]. by apply IH, step_follows. Qed.

Lemma step_scope e s :
  cacheScopeRef s = scope_of (clerkUserId (clerk s)) →
  cacheScopeRef (step e s) = scope_of (clerkUserId (clerk (step e s))).
Proof.
  intros H. destruct e as [c| |k r|x|k d now]; cbn [step].
  - unfold clerk_changed. case_bool_decide; [done|].
    destruct (effect_shared (if bool_decide (clerkUserId c = clerkUserId (clerk s))
      then set_scope c (cacheScopeRef s) (store s) s else scope_effect c s)) as (-> & -> & _).
    case_bool_decide as E; cbn; [by rewrite H, E|done].
  - destruct (sync_clerk false s) as (-> & -> & _). done.
  - destruct (answered_shared k r s) as [-> ->]. done.
  - done.
  - by destruct (fetches s !! k) as [[sc x]|].
Qed.

Lemma cleared_own s m x : truthy s = true → clearApiCache (Some s) m !! cacheKey s x = None.
Proof.
  intros T. unfold clearApiCache. rewrite T. rewrite map_lookup_filter.
  destruct (m !! _) as [v|]; [|done]. cbn [mbind option_bind]. rewrite option_guard_False; [done|].
  intros H. apply H. assert (startsWith (cacheKey s x) (CACHE_PREFIX ++ s ++ js ":") = true) as ->; [|done].
  apply startsWith_spec. exists x. unfold cacheKey. by rewrite <- !(assoc_L (++)).
Qed.

(** The account shown is that of the signed-in user. After any events of Clerk, the
    user and the network: the response cache is always scoped to the user Clerk reports;
    while session requests are answered in order, once none is in flight the account is
    that of the user who is signed in, or there is none; and when a user signs out, or is
    refused access, none of the responses cached for them is left. *)
Theorem web_session_correct (es : list event) :
  let s := run es init in
  cacheScopeRef s = scope_of (clerkUserId (clerk s))
  ∧ (Forall in_order es → isLoaded (clerk s) = true → isSignedIn (clerk s) = true → syncs s = [] → belongs s)
  ∧ (∀ c i x, clerkUserId (clerk s) = Some i → truthy i = true → clerkUserId c = None →
       store (step (ClerkSays c) s) !! cacheKey (clerk_scope i) x = None)
  ∧ (∀ k st code e i x, clerkUserId (clerk s) = Some i → truthy i = true →
       is_Some (syncs s !! k) → Access.isAccessDeniedResponse st code = true →
       user (step (Answered k (SessionFailed st code e)) s) = None
       ∧ store (step (Answered k (SessionFailed st code e)) s) !! cacheKey (clerk_scope i) x = None).
Proof.
  intros s. assert (cacheScopeRef s = scope_of (clerkUserId (clerk s))) as Sc.
  { unfold s. assert (cacheScopeRef init = scope_of (clerkUserId (clerk init))) as H by done.
    revert H. generalize init. induction es as [|e es IH]; intros t H; [done|]. by apply IH, step_scope. }
  assert (∀ i, truthy i = true → truthy (clerk_scope i) = true) as Ts by done.
  split; [done|]. split; [|split].
  - intros F. assert (follows s) as Fs by by apply run_follows.
    intros L I Q. destruct (Fs L I) as [H|[_ H]]; [by rewrite Q in H|done].
  - intros c i x Hi Ti Hc. cbn [step]. unfold clerk_changed. rewrite bool_decide_eq_false_2 by (intros E; rewrite E in Hc; congruence).
    destruct (effect_shared (if bool_decide (clerkUserId c = clerkUserId (clerk s))
      then set_scope c (cacheScopeRef s) (store s) s else scope_effect c s)) as (_ & _ & ->).
    rewrite bool_decide_eq_false_2 by congruence. unfold scope_effect. rewrite Hc, Sc, Hi. cbn [scope_of].
    rewrite Ti. by apply cleared_own, Ts.
  - intros k st code e i x Hi Ti [[who b] Hk] D. cbn [step]. unfold answered. rewrite Hk, D.
    assert (clearApiCache (cacheScopeRef s) (store s) !! cacheKey (clerk_scope i) x = None) as Hc.
    { rewrite Sc, Hi. cbn [scope_of]. rewrite Ti. by apply cleared_own, Ts. }
    by destruct b.
Qed.

Definition ana : Access.User := {| Access.role := js "student"; Access.is_staff := false; Access.is_admin := false; Access.community_policy := None |}.
Definition ben : Access.User := {| Access.role := js "admin"; Access.is_staff := true; Access.is_admin := true; Access.community_policy := None |}.
Definition says (i : string) : event := ClerkSays {| isLoaded := true; isSignedIn := true; clerkUserId := Some (js i) |}.
Definition out : event := ClerkSays {| isLoaded := true; isSignedIn := false; clerkUserId := None |}.

(** An answer that arrives late replaces the account of the user who signed in since. *)
Lemma late_session_wins :
  let s := run [says "ben"; out; says "ana"; Answered 1 (SessionUser ana); Answered 0 (SessionUser ben)] init in
  (clerkUserId (clerk s), snd <$> user s) = (Some (js "ana"), Some (Some (js "ben"))).
Proof. vm_compute. reflexivity. Qed.

(** A response that arrives after the sign-out is cached for the user who left. *)
Lemma cached_after_sign_out :
  let s := run [says "ana"; Fetch (js "/api/v1/profile"); out; Fetched 0 (JObj []) 1] init in
  is_Some (store s !! cacheKey (clerk_scope (js "ana")) (js "/api/v1/profile")).
Proof. vm_compute. eauto. Qed.

End Auth.

(** ** The confirmation dialog *)

Module Confirm.

Record ConfirmOptions := {
  title : str; description : str; confirmLabel : option str; cancelLabel : option str;
  danger : bool; confirmationText : option str; confirmationLabel : option str;
}.

(** The promises are numbered; [resolved] records how each was settled. *)
Record Dialog := {
  options : option ConfirmOptions;
  confirmationValue : str;
  resolverRef : option nat;
  requests : list ConfirmOptions;
  resolved : list (nat * bool);
}.

Definition resolve (b : bool) (d : Dialog) : list (nat * bool) :=
  match resolverRef d with Some i => (i, b) :: resolved d | None => resolved d end.

Definition requestConfirm (o : ConfirmOptions) (d : Dialog) : Dialog :=
  {| options := Some o; confirmationValue := []; resolverRef := Some (length (requests d));
     requests := requests d ++ [o]; resolved := resolve false d |}.

Definition finish (b : bool) (d : Dialog) : Dialog :=
  {| options := None; confirmationValue := []; resolverRef := None; requests := requests d;
     resolved := resolve b d |}.

(** Is the button that confirms enabled? *)
Definition confirm_enabled (o : ConfirmOptions) (value : str) : bool :=
  match confirmationText o with
  | Some t => negb (truthy t) || eqs (toLowerCase (trim value)) (toLowerCase (trim t))
  | None => true
  end.

Inductive event := Ask (o : ConfirmOptions) | Type_ (v : str) | Confirm | Dismiss.

Definition step (e : event) (d : Dialog) : Dialog :=
  match e with
  | Ask o => requestConfirm o d
  | Type_ v => match options d with
               | Some _ => {| options := options d; confirmationValue := v; resolverRef := resolverRef d;
                              requests := requests d; resolved := resolved d |}
               | None => d
               end
  | Confirm => match options d with
               | Some o => if confirm_enabled o (confirmationValue d) then finish true d else d
               | None => d
               end
  | Dismiss => match options d with Some _ => finish false d | None => d end
  end.

Definition init : Dialog :=
  {| options := None; confirmationValue := []; resolverRef := None; requests := []; resolved := [] |}.

Definition run (es : list event) (d : Dialog) : Dialog := fold_left (λ d e, step e d) es d.

Record dialog_ok (d : Dialog) : Prop := {
  d_nodup : NoDup (fst <$> resolved d);
  d_settled : ∀ i, (i < length (requests d))%nat ↔ i ∈ fst <$> resolved d ∨ resolverRef d = Some i;
  d_pending : ∀ i, resolverRef d = Some i →
    i ∉ fst <$> resolved d ∧ options d = requests d !! i ∧ S i = length (requests d);
  d_open : is_Some (options d) ↔ is_Some (resolverRef d);
}.

Lemma resolve_elem b d i : i ∈ fst <$> resolve b d ↔ i ∈ fst <$> resolved d ∨ resolverRef d = Some i.
Proof.
  unfold resolve. destruct (resolverRef d) as [j|]; [|naive_solver].
  rewrite fmap_cons, elem_of_cons. naive_solver.
Qed.

Lemma settled_nodup b d : dialog_ok d → NoDup (fst <$> resolve b d).
Proof.
  intros K. unfold resolve. destruct (resolverRef d) as [j|] eqn:R; [|apply K].
  rewrite fmap_cons. apply NoDup_cons. split; [by apply (d_pending d K)|apply K].
Qed.

Lemma finish_ok b d : dialog_ok d → dialog_ok (finish b d).
Proof.
  intros K. constructor; cbn [finish resolved requests resolverRef options].
  - by apply settled_nodup.
  - intros i. rewrite resolve_elem, (d_settled d K). naive_solver.
  - done.
  - split; by intros [? ?].
Qed.

Lemma ask_question_ok o d : dialog_ok d → dialog_ok (requestConfirm o d).
Proof.
  intros K. constructor; cbn [requestConfirm resolved requests resolverRef options].
  - by apply settled_nodup.
  - intros i. rewrite resolve_elem, <- (d_settled d K), length_app. cbn. split.
    + intros H. destruct (decide (i = length (requests d))) as [->|]; [auto|left; lia].
    + intros [?|[= <-]]; lia.
  - intros i [= <-]. rewrite resolve_elem, <- (d_settled d K), length_app. cbn. split; [lia|]. split; [|lia].
    by rewrite list_lookup_middle.
  - split; eauto.
Qed.

Lemma step_dialog_ok e d : dialog_ok d → dialog_ok (step e d).
Proof.
  intros K. destruct e as [o|v| |]; cbn [step].
  - by apply ask_question_ok.
  - destruct (options d) as [o|] eqn:O; [|done]. destruct K. constructor; cbn; rewrite ?O in *; assumption.
  - destruct (options d) as [o|]; [|done]. destruct (confirm_enabled _ _); [by apply finish_ok|done].
  - destruct (options d); [by apply finish_ok|done].
Qed.

(** A confirmation is given once, for the question that was asked, and by the user.
    After any events every question has exactly one answer, except the last one while its
    dialog is open; the dialog shows that question; asking again refuses the question
    before; and a yes is only recorded when the user presses the button of the dialog of
    that question, with its confirmation text typed if it has one. *)
Theorem confirmations_exact (es : list event) (e : event) :
  let d := run es init in
  NoDup (fst <$> resolved d)
  ∧ (∀ i, (i < length (requests d))%nat ↔ i ∈ fst <$> resolved d ∨ resolverRef d = Some i)
  ∧ (∀ i, resolverRef d = Some i → i ∉ fst <$> resolved d ∧ options d = requests d !! i ∧ S i = length (requests d))
  ∧ (∀ i, (i, true) ∈ resolved (step e d) → (i, true) ∈ resolved d ∨
       e = Confirm ∧ resolverRef d = Some i
       ∧ ∃ o, requests d !! i = Some o
              ∧ ∀ t, confirmationText o = Some t → truthy t = true →
                  toLowerCase (trim (confirmationValue d)) = toLowerCase (trim t)).
Proof.
  intros d. assert (dialog_ok d) as K.
  { unfold d. assert (dialog_ok init) as H.
    { constructor; cbn; [constructor| |done|split; by intros [? ?]].
      intros i. split; [lia|]. intros [H|?]; [by apply not_elem_of_nil in H|done]. }
    clear d. revert H. generalize init. induction es as [|x es IH]; intros d H; [done|]. by apply IH, step_dialog_ok. }
  split; [apply K|]. split; [apply K|]. split; [apply K|]. intros i.
  assert (∀ b, (i, true) ∈ resolve b d → (i, true) ∈ resolved d ∨ b = true ∧ resolverRef d = Some i) as R.
  { intros b. unfold resolve. destruct (resolverRef d) as [j|]; [|auto]. rewrite elem_of_cons. naive_solver. }
  destruct e as [o|v| |]; cbn [step].
  - cbn [requestConfirm resolved]. intros [?|[? _]]%R; auto. done.
  - destruct (options d); auto.
  - destruct (options d) as [o|] eqn:O; [|auto]. destruct (confirm_enabled o (confirmationValue d)) eqn:C; [|auto].
    cbn [finish resolved]. intros [?|[_ Hr]]%R; [auto|]. right. split; [done|]. split; [done|]. exists o.
    split; [|].
    + destruct (d_pending d K i Hr) as (_ & <- & _). done.
    + intros t Ht Tt. unfold confirm_enabled in C. rewrite Ht, Tt in C. by apply eqs_true in C.
  - destruct (options d); [|auto]. cbn [finish resolved]. intros [?|[? _]]%R; auto. done.
Qed.

End Confirm.

(** ** Notices *)

Module Toasts.

Record Toast := { id : Z; success : bool; message : str }.

Record State := { toasts : list Toast; timeoutIds : list Z }.

Definition dismiss (i : Z) (s : State) : State :=
  {| toasts := List.filter (λ t, negb (id t =? i)) (toasts s);
     timeoutIds := List.filter (λ j, negb (j =? i)) (timeoutIds s) |}.

Definition show (t : Toast) (s : State) : State :=
  {| toasts := toasts s ++ [t]; timeoutIds := id t :: List.filter (λ j, negb (j =? id t)) (timeoutIds s) |}.

Inductive event := Show (t : Toast) | Dismissed (i : Z) | Expired (i : Z).

Definition step (e : event) (s : State) : State :=
  match e with
  | Show t => show t s
  | Dismissed i => dismiss i s
  | Expired i => if has (timeoutIds s) i then dismiss i s else s
  end.

Definition run (es : list event) (s : State) : State := fold_left (λ s e, step e s) es s.

(** Every notice has a timer, and the timer removes it and no other. *)
Lemma toasts_expire es :
  let s := run es {| toasts := []; timeoutIds := [] |} in
  (∀ t, t ∈ toasts s → id t ∈ timeoutIds s)
  ∧ (∀ i, i ∈ timeoutIds s → ∀ t, t ∈ toasts (step (Expired i) s) ↔ t ∈ toasts s ∧ id t ≠ i).
Proof.
  intros s. assert (∀ i t x, t ∈ toasts (dismiss i x) ↔ t ∈ toasts x ∧ id t ≠ i) as D.
  { intros i t x. cbn. rewrite !list_elem_of_In, filter_In, negb_true_iff, Z.eqb_neq. done. }
  assert (∀ i j x, j ∈ timeoutIds (dismiss i x) ↔ j ∈ timeoutIds x ∧ j ≠ i) as T.
  { intros i t x. cbn. rewrite !list_elem_of_In, filter_In, negb_true_iff, Z.eqb_neq. done. }
  split.
  - unfold s. clear s. assert (∀ t, t ∈ toasts {| toasts := []; timeoutIds := [] |} →
      id t ∈ timeoutIds {| toasts := []; timeoutIds := [] |}) as H by (intros t Ht; by apply not_elem_of_nil in Ht).
    revert H. generalize {| toasts := []; timeoutIds := [] |}.
    induction es as [|e es IH]; intros s H; [done|]. apply IH. intros t.
    assert (∀ i, t ∈ toasts (dismiss i s) → id t ∈ timeoutIds (dismiss i s)) as G.
    { intros i [H1 H2]%D. apply T. auto. }
    destruct e as [n|i|i]; cbn [step]; [|by apply G|destruct (has _ _); auto].
    cbn [show toasts timeoutIds]. rewrite elem_of_app, list_elem_of_singleton, elem_of_cons.
    intros [Ht| ->]; [|by left]. destruct (decide (id t = id n)); [by left|]. right.
    apply list_elem_of_In, filter_In. split; [by apply list_elem_of_In, H|]. by apply negb_true_iff, Z.eqb_neq.
  - intros i Hi t. cbn [step]. rewrite (proj2 (has_true _ _) Hi). apply D.
Qed.

End Toasts.
