(* ===== verification/LessonEditor.v ===== *)
(** * The lesson editor

    [web/src/pages/admin/LessonEditor.tsx]: how a lesson fills the form, what saving the
    form sends, and what the answer changes. The uploads are those of [UploadQueue], the
    runner settings those of [CodeRunner]. *)

From S2P Require Import Prelude.
From S2P Require Import Json.
From S2P Require Import UploadQueue.
From S2P Require Import CodeRunner.
From S2P Require Import ContentBlock.

(** ** Lessons *)

Record KnowledgeCheck := {
  prompt : str; check_options : list str; correct_option : option Z; explanation : option str;
  latest_explanation : option str;             (* [latest_attempt?.explanation] *)
  objective_id : option Z; attempt_count : Z;
}.

Record Block := {
  b_id : Z; block_type : str; b_title : option str; body : option str; video_url : option str;
  b_filename : option str; submission_type : option str; submission_config : option (list (str * json));
  b_solution : option str; s3_video_key : option str; rubric_id : option Z;
  knowledge_check : option KnowledgeCheck;
}.

Record Lesson := {
  l_id : Z; l_title : str; l_requires_submission : bool; l_submission_type : option str;
  archived : bool; content_blocks : list Block;
  objectives : list (Z * option Z);            (* an objective and the block it belongs to *)
}.

(** ** The form *)

Record Video := { videoUrl : str; videoBlockId : option Z; s3VideoKey : option str }.
Record Exercise := {
  selectedRubricId : option Z; filename : str; instructions : str; solution : str;
  submissionType : str; runnerConfig : Config.CodeRunnerConfig;
}.
Record Check := {
  checkEnabled : bool; checkBlockId : option Z; checkTitle : str; checkPrompt : str;
  checkOptions : list str; checkCorrectOption : Z; checkExplanation : str;
  checkObjectiveId : option Z; checkAttemptCount : Z;
}.

Record Form := {
  lesson : option Lesson;
  objectiveAlignments : list (Z * option Z);
  title : str;
  video : Video;
  exercise : Exercise;
  check : Check;
  pendingVideoUploadId : option Z;
  saving : bool;
  saveError : option str;
}.

Definition fresh_form : Form :=
  {| lesson := None; objectiveAlignments := []; title := [];
     video := {| videoUrl := []; videoBlockId := None; s3VideoKey := None |};
     exercise := {| selectedRubricId := None; filename := []; instructions := []; solution := [];
                    submissionType := js "manual_complete";
                    runnerConfig := {| Config.enabled := false; Config.language := JStr (js "ruby") |} |};
     check := {| checkEnabled := false; checkBlockId := None; checkTitle := js "Quick check"; checkPrompt := [];
                 checkOptions := [[]; []]; checkCorrectOption := 0; checkExplanation := [];
                 checkObjectiveId := None; checkAttemptCount := 0 |};
     pendingVideoUploadId := None; saving := false; saveError := None |}.

Definition set_saving (b : bool) (e : option str) (f : Form) : Form :=
  {| lesson := lesson f; objectiveAlignments := objectiveAlignments f; title := title f; video := video f;
     exercise := exercise f; check := check f; pendingVideoUploadId := pendingVideoUploadId f;
     saving := b; saveError := e |}.

(** [x || d] of strings that may be missing. *)
Definition or_default (x : option str) (d : str) : str :=
  match x with Some s => if truthy s then s else d | None => d end.
(** [s || null] *)
Definition or_null (s : str) : option str := if truthy s then Some s else None.
(** [x || null] of an identifier. *)
Definition id_or_null (x : option Z) : option Z :=
  match x with Some i => if i =? 0 then None else Some i | None => None end.

Definition is_video (b : Block) : bool := eqs (block_type b) (js "video") || eqs (block_type b) (js "recording").
Definition is_exercise (b : Block) : bool :=
  eqs (block_type b) (js "exercise") || eqs (block_type b) (js "code_challenge").
Definition has_check (b : Block) : bool := match knowledge_check b with Some _ => true | None => false end.

Definition deferred (u : ActiveUpload) : bool := default false (deferPersistence u).
Definition not_error (u : ActiveUpload) : bool := negb (bool_decide (status u = UploadQueue.error)).

(** The key of an upload in flight for the block goes before the one that was fetched. *)
Definition resolveS3Key (uploads : list ActiveUpload) (block : Z) (fetched : option str) : option str :=
  match find (λ u, bool_decide (contentBlockId u = Some block) && deferred u
                   && truthy (default [] (s3Key u)) && not_error u) uploads with
  | Some u => s3Key u
  | None => match fetched with Some k => or_null k | None => None end
  end.

Definition runner_of (b : Block) : Config.CodeRunnerConfig :=
  Config.normalizeCodeRunnerConfig (JObj <$> submission_config b)
    (default Config.ruby (Config.codeRunnerLanguageFromEditor (detectLanguage (b_filename b) None))).

Definition video_of (uploads : list ActiveUpload) (b : Block) : Video :=
  {| videoUrl := default [] (video_url b); videoBlockId := Some (b_id b);
     s3VideoKey := resolveS3Key uploads (b_id b) (s3_video_key b) |}.

Definition exercise_of (l : Lesson) (b : Block) : Exercise :=
  {| selectedRubricId := id_or_null (rubric_id b);
     filename := default [] (b_filename b);
     instructions := default [] (body b);
     solution := default [] (b_solution b);
     submissionType :=
       or_default (submission_type b)
         (or_default (l_submission_type l)
            (js (if l_requires_submission l then "text_submission" else "manual_complete")));
     runnerConfig := runner_of b |}.

Definition check_of (b : Block) (k : KnowledgeCheck) (fallback : option str) : Check :=
  {| checkEnabled := true; checkBlockId := Some (b_id b); checkTitle := or_default (b_title b) (js "Quick check");
     checkPrompt := prompt k; checkOptions := check_options k; checkCorrectOption := default 0 (correct_option k);
     checkExplanation := or_default (explanation k) (or_default fallback []);
     checkObjectiveId := id_or_null (objective_id k); checkAttemptCount := attempt_count k |}.

(** The lesson arrives: what it has no block for stays as it is. *)
Definition load (uploads : list ActiveUpload) (l : Lesson) (f : Form) : Form :=
  {| lesson := Some l;
     objectiveAlignments := objectives l;
     title := l_title l;
     video := match find is_video (content_blocks l) with
              | Some b => video_of uploads b
              | None => video f
              end;
     exercise := match find is_exercise (content_blocks l) with
                 | Some b => exercise_of l b
                 | None => exercise f
                 end;
     check := match find has_check (content_blocks l) with
              | Some b => match knowledge_check b with
                          | Some k => check_of b k (latest_explanation k)
                          | None => check f
                          end
              | None => check f
              end;
     pendingVideoUploadId := pendingVideoUploadId f; saving := saving f; saveError := saveError f |}.

(** ** Saving *)

Record VideoPayload := {
  pv_id : option Z; pv_title : str; pv_url : option str;
  pv_key : option (option str);                (* [None]: left out *)
}.
Record ExercisePayload := {
  pe_id : option Z; pe_title : str; pe_body : option str; pe_solution : option str;
  pe_filename : option str; pe_submission_type : str; pe_submission_config : json; pe_rubric_id : option Z;
}.
Record CheckPayload := {
  pc_enabled : bool; pc_block : option Z; pc_title : str; pc_prompt : str; pc_options : list str;
  pc_correct : Z; pc_explanation : str; pc_objective : option Z;
}.
Record Payload := {
  p_title : str; p_requires_submission : bool; p_video : option VideoPayload;
  p_exercise : option ExercisePayload; p_check : option CheckPayload; p_alignments : list (Z * option Z);
}.

Definition CHECK_ERROR : str :=
  js "Add a question, at least two choices, a valid correct answer, and an explanation for the retrieval check.".
Definition UPLOAD_ERROR : str := js "Wait for the video upload to finish before saving this lesson.".

Definition cleanCheckOptions (c : Check) : list str := map trim (checkOptions c).

Definition check_refused (c : Check) : bool :=
  checkEnabled c
  && (negb (truthy (trim (checkPrompt c))) || (Z.of_nat (length (cleanCheckOptions c)) <? 2)
      || existsb (λ o, negb (truthy o)) (cleanCheckOptions c) || negb (truthy (trim (checkExplanation c)))
      || (Z.of_nat (length (cleanCheckOptions c)) <=? checkCorrectOption c)).

Definition lessonEditorPath (l : Lesson) : str := js "/admin/lessons/" ++ str_of_Z (l_id l) ++ js "/edit".

Definition activeVideoUpload (f : Form) (l : Lesson) (uploads : list ActiveUpload) : option ActiveUpload :=
  find (λ u, not_error u
             && (bool_decide (Some (UploadQueue.id u) = pendingVideoUploadId f)
                 || deferred u && (bool_decide (is_Some (videoBlockId (video f)) ∧ contentBlockId u = videoBlockId (video f))
                                   || bool_decide (linkTo u = Some (lessonEditorPath l)))))
    uploads.

(** The upload is over: stored, or recorded. *)
Definition settled (u : ActiveUpload) : bool :=
  bool_decide (status u = waiting) || bool_decide (status u = UploadQueue.done).

Definition running (u : ActiveUpload) : bool :=
  bool_decide (status u = presigning) || bool_decide (status u = uploading) || bool_decide (status u = UploadQueue.saving).

Definition inFlightVideo (uploads : list ActiveUpload) (b : Block) : bool :=
  existsb (λ u, bool_decide (contentBlockId u = Some (b_id b)) && running u) uploads.

Definition saved_runner (e : Exercise) : Config.CodeRunnerConfig :=
  if eqs (submissionType e) (js "text_submission") then runnerConfig e
  else {| Config.enabled := false; Config.language := Config.language (runnerConfig e) |}.

Definition video_payload (uploads : list ActiveUpload) (l : Lesson) (f : Form) : option VideoPayload :=
  let block := find is_video (content_blocks l) in
  let url := trim (videoUrl (video f)) in
  if bool_decide (is_Some block) || truthy url || truthy (default [] (s3VideoKey (video f)))
  then Some {| pv_id := b_id <$> block; pv_title := trim (title f); pv_url := or_null url;
               pv_key := if match block with Some b => inFlightVideo uploads b | None => false end
                         then None else Some (s3VideoKey (video f)) |}
  else None.

Definition exercise_payload (l : Lesson) (f : Form) : option ExercisePayload :=
  let block := find is_exercise (content_blocks l) in
  let e := exercise f in
  if bool_decide (is_Some block) || truthy (trim (instructions e)) || truthy (trim (filename e))
  then Some {| pe_id := b_id <$> block; pe_title := trim (title f); pe_body := or_null (trim (instructions e));
               pe_solution := or_null (trim (solution e)); pe_filename := or_null (trim (filename e));
               pe_submission_type := submissionType e;
               pe_submission_config :=
                 Config.buildSubmissionConfigWithRunner (block ≫= submission_config) (saved_runner e);
               pe_rubric_id := selectedRubricId e |}
  else None.

Definition check_payload (c : Check) : option CheckPayload :=
  if checkEnabled c || bool_decide (is_Some (id_or_null (checkBlockId c)))
  then Some {| pc_enabled := checkEnabled c; pc_block := id_or_null (checkBlockId c);
               pc_title := or_default (Some (trim (checkTitle c))) (js "Quick check");
               pc_prompt := trim (checkPrompt c); pc_options := cleanCheckOptions c;
               pc_correct := checkCorrectOption c; pc_explanation := trim (checkExplanation c);
               pc_objective := checkObjectiveId c |}
  else None.

Definition payload (uploads : list ActiveUpload) (l : Lesson) (f : Form) : Payload :=
  {| p_title := trim (title f);
     p_requires_submission := negb (eqs (submissionType (exercise f)) (js "manual_complete"));
     p_video := video_payload uploads l f; p_exercise := exercise_payload l f;
     p_check := check_payload (check f); p_alignments := objectiveAlignments f |}.

(** The form, what is sent, and the upload it completes. *)
Definition handleSave (uploads : list ActiveUpload) (f : Form) : Form * option (Payload * option ActiveUpload) :=
  match lesson f with
  | None => (f, None)
  | Some l =>
      if check_refused (check f) then (set_saving (saving f) (Some CHECK_ERROR) f, None)
      else match activeVideoUpload f l uploads with
           | Some u =>
               if settled u then (set_saving true None f, Some (payload uploads l f, Some u))
               else (set_saving (saving f) (Some UPLOAD_ERROR) f, None)
           | None => (set_saving true None f, Some (payload uploads l f, None))
           end
  end.

(** The answer. *)
Definition refreshed (uploads : list ActiveUpload) (l : Lesson) (f : Form) : Form :=
  {| lesson := Some l;
     objectiveAlignments := objectives l;
     title := title f;
     video := match find is_video (content_blocks l) with
              | Some b => {| videoUrl := videoUrl (video f); videoBlockId := Some (b_id b);
                             s3VideoKey := resolveS3Key uploads (b_id b) (s3_video_key b) |}
              | None => video f
              end;
     exercise := match find is_exercise (content_blocks l) with
                 | Some b => {| selectedRubricId := id_or_null (rubric_id b); filename := filename (exercise f);
                                instructions := instructions (exercise f); solution := solution (exercise f);
                                submissionType := or_default (submission_type b) (submissionType (exercise f));
                                runnerConfig := runner_of b |}
                 | None => exercise f
                 end;
     check := match find has_check (content_blocks l) with
              | Some b => match knowledge_check b with
                          | Some k => check_of b k None
                          | None => check f
                          end
              | None => {| checkEnabled := false; checkBlockId := None; checkTitle := checkTitle (check f);
                           checkPrompt := checkPrompt (check f); checkOptions := checkOptions (check f);
                           checkCorrectOption := checkCorrectOption (check f);
                           checkExplanation := checkExplanation (check f);
                           checkObjectiveId := checkObjectiveId (check f); checkAttemptCount := 0 |}
              end;
     pendingVideoUploadId := pendingVideoUploadId f; saving := saving f; saveError := saveError f |}.

Definition SAVE_ERROR : str := js "Exercise could not be saved.".

Definition save_settled (active : option ActiveUpload) (uploads : list ActiveUpload) (r : option str + Lesson)
    (f : Form) : Form :=
  match r with
  | inl e => set_saving false (Some (or_default e SAVE_ERROR)) f
  | inr l =>
      let f1 := set_saving false (saveError f) (refreshed uploads l f) in
      match active with
      | Some _ => {| lesson := lesson f1; objectiveAlignments := objectiveAlignments f1; title := title f1;
                     video := video f1; exercise := exercise f1; check := check f1;
                     pendingVideoUploadId := None; saving := saving f1; saveError := saveError f1 |}
      | None => f1
      end
  end.

Definition handleSubmissionTypeChange (next : str) (f : Form) : Form :=
  let e := exercise f in
  {| lesson := lesson f; objectiveAlignments := objectiveAlignments f; title := title f; video := video f;
     exercise := {| selectedRubricId := selectedRubricId e; filename := filename e; instructions := instructions e;
                    solution := solution e; submissionType := next;
                    runnerConfig := if eqs next (js "text_submission") then runnerConfig e
                                    else {| Config.enabled := false; Config.language := Config.language (runnerConfig e) |} |};
     check := check f; pendingVideoUploadId := pendingVideoUploadId f; saving := saving f; saveError := saveError f |}.

(** The criteria of a new rubric that are kept. *)
Definition rubric_criteria (l : list (str * str)) : list (str * str) :=
  List.filter (λ c, truthy c.1 && truthy c.2) (map (λ c, (trim c.1, trim c.2)) l).

(** ** What saving does *)

(** Text as it is stored: trimmed, and missing rather than empty. *)
Definition tidy (s : str) : Prop := trim s = s ∧ s ≠ [].
Definition tidy_opt (o : option str) : Prop := ∀ s, o = Some s → tidy s.

Record tidy_exercise (b : Block) : Prop := {
  te_body : tidy_opt (body b); te_solution : tidy_opt (b_solution b); te_filename : tidy_opt (b_filename b);
  te_rubric : rubric_id b ≠ Some 0;
  (* the type and the settings of the runner are stored, those of the runner as they are saved *)
  te_type : ∃ t c on lang, submission_type b = Some t ∧ t ≠ [] ∧ submission_config b = Some c
    ∧ JObj c = Config.buildSubmissionConfigWithRunner (Some c)
                 {| Config.enabled := on; Config.language := JStr (Config.language_name lang) |}
    ∧ (on = true → t = js "text_submission");
}.

Record tidy_check (b : Block) (k : KnowledgeCheck) : Prop := {
  tc_id : b_id b ≠ 0; tc_title : is_Some (b_title b) ∧ tidy_opt (b_title b); tc_prompt : tidy (prompt k);
  tc_options : Forall tidy (check_options k); tc_two : (2 <= length (check_options k))%nat;
  tc_correct : ∃ c, correct_option k = Some c ∧ c < Z.of_nat (length (check_options k));
  tc_explanation : is_Some (explanation k) ∧ tidy_opt (explanation k);
  tc_objective : objective_id k ≠ Some 0;
}.

Record tidy_lesson (l : Lesson) : Prop := {
  tl_title : trim (l_title l) = l_title l;
  tl_video : ∀ b, find is_video (content_blocks l) = Some b → tidy_opt (video_url b) ∧ s3_video_key b ≠ Some [];
  tl_exercise : ∀ b, find is_exercise (content_blocks l) = Some b → tidy_exercise b;
  tl_check : ∀ b k, find has_check (content_blocks l) = Some b → knowledge_check b = Some k → tidy_check b k;
  tl_titles : ∀ b, find is_video (content_blocks l) = Some b ∨ find is_exercise (content_blocks l) = Some b →
    b_title b = Some (l_title l);
  tl_requires : l_requires_submission l = true ↔
    ∃ b, find is_exercise (content_blocks l) = Some b ∧ submission_type b ≠ Some (js "manual_complete");
}.

(** The payload that writes a lesson as it is stored. *)
Definition stored_video (b : Block) : VideoPayload :=
  {| pv_id := Some (b_id b); pv_title := default [] (b_title b); pv_url := video_url b; pv_key := Some (s3_video_key b) |}.
Definition stored_exercise (b : Block) : ExercisePayload :=
  {| pe_id := Some (b_id b); pe_title := default [] (b_title b); pe_body := body b; pe_solution := b_solution b;
     pe_filename := b_filename b; pe_submission_type := default [] (submission_type b);
     pe_submission_config := JObj (default [] (submission_config b)); pe_rubric_id := rubric_id b |}.
Definition stored_check (b : Block) (k : KnowledgeCheck) : CheckPayload :=
  {| pc_enabled := true; pc_block := Some (b_id b); pc_title := default [] (b_title b); pc_prompt := prompt k;
     pc_options := check_options k; pc_correct := default 0 (correct_option k);
     pc_explanation := default [] (explanation k); pc_objective := objective_id k |}.
Definition stored_payload (l : Lesson) : Payload :=
  {| p_title := l_title l; p_requires_submission := l_requires_submission l;
     p_video := stored_video <$> find is_video (content_blocks l);
     p_exercise := stored_exercise <$> find is_exercise (content_blocks l);
     p_check := b ← find has_check (content_blocks l); stored_check b <$> knowledge_check b;
     p_alignments := objectives l |}.

(** What is sent for it: the title of the lesson is that of its video and exercise, and whether
    a submission is required follows from the type of the exercise. *)
Definition same_video (l : Lesson) (b : Block) : VideoPayload :=
  {| pv_id := Some (b_id b); pv_title := l_title l; pv_url := video_url b; pv_key := Some (s3_video_key b) |}.
Definition same_exercise (l : Lesson) (b : Block) : ExercisePayload :=
  {| pe_id := Some (b_id b); pe_title := l_title l; pe_body := body b; pe_solution := b_solution b;
     pe_filename := b_filename b; pe_submission_type := default [] (submission_type b);
     pe_submission_config := JObj (default [] (submission_config b)); pe_rubric_id := rubric_id b |}.
Definition same_payload (l : Lesson) : Payload :=
  {| p_title := l_title l;
     p_requires_submission :=
       match find is_exercise (content_blocks l) with
       | Some b => negb (eqs (default [] (submission_type b)) (js "manual_complete"))
       | None => false
       end;
     p_video := same_video l <$> find is_video (content_blocks l);
     p_exercise := same_exercise l <$> find is_exercise (content_blocks l);
     p_check := b ← find has_check (content_blocks l); stored_check b <$> knowledge_check b;
     p_alignments := objectives l |}.

Lemma same_stored l : tidy_lesson l → same_payload l = stored_payload l.
Proof.
  intros [_ _ He _ Ti Rq]. unfold same_payload, stored_payload. f_equal.
  - destruct (l_requires_submission l) eqn:R.
    + destruct (proj1 Rq eq_refl) as (b & F & N). rewrite F. apply negb_true_iff, eqs_false. intros E. apply N.
      destruct (He b F) as [_ _ _ _ (t & c & on & lang & Ht & _)]. rewrite Ht in E |- *. f_equal. exact E.
    + destruct (find is_exercise (content_blocks l)) as [b|] eqn:F; [|done]. apply negb_false_iff, eqs_true.
      destruct (He b eq_refl) as [_ _ _ _ (t & c & on & lang & Ht & _)]. rewrite Ht. change (t = js "manual_complete").
      destruct (decide (t = js "manual_complete")) as [->|N]; [done|]. exfalso.
      assert (false = true); [|done]. apply Rq. exists b. split; [done|]. rewrite Ht. congruence.
  - destruct (find is_video (content_blocks l)) as [b|] eqn:F; [|done]. cbn. unfold same_video, stored_video.
    by rewrite (Ti b (or_introl eq_refl)).
  - destruct (find is_exercise (content_blocks l)) as [b|] eqn:F; [|done]. cbn. unfold same_exercise, stored_exercise.
    by rewrite (Ti b (or_intror eq_refl)).
Qed.

Lemma tidy_kept o : tidy_opt o → or_null (trim (default [] o)) = o.
Proof.
  intros H. destruct o as [s|]; [|done]. destruct (H s eq_refl) as [E N]. change (or_null (trim s) = Some s). rewrite E. by destruct s.
Qed.

Lemma nonzero_kept o : o ≠ Some 0 → id_or_null o = o.
Proof. destruct o as [i|]; [|done]. cbn. intros H. destruct (i =? 0) eqn:E; [|done]. apply Z.eqb_eq in E. congruence. Qed.

Lemma runner_read_back c on lang fallback :
  JObj c = Config.buildSubmissionConfigWithRunner (Some c)
             {| Config.enabled := on; Config.language := JStr (Config.language_name lang) |} →
  Config.normalizeCodeRunnerConfig (Some (JObj c)) fallback
  = {| Config.enabled := on; Config.language := JStr (Config.language_name lang) |}.
Proof.
  intros ->. unfold Config.normalizeCodeRunnerConfig, Config.buildSubmissionConfigWithRunner. cbn [Config.is_object negb mbind option_bind].
  rewrite Config.get_with_member. by destruct on, lang, fallback.
Qed.

Lemma exercise_kept l b :
  tidy_exercise b → find is_exercise (content_blocks l) = Some b → trim (l_title l) = l_title l →
  ∀ f, title f = l_title l → exercise f = exercise_of l b →
  exercise_payload l f = Some (same_exercise l b).
Proof.
  intros [Hb Hs Hf Hr (t & c & on & lang & Ht & Nt & Hc & Ec & On)] F T f Ef Ex.
  assert (or_default (submission_type b) (or_default (l_submission_type l)
    (js (if l_requires_submission l then "text_submission" else "manual_complete"))) = t) as Et.
  { rewrite Ht. by destruct t. }
  assert (runner_of b = {| Config.enabled := on; Config.language := JStr (Config.language_name lang) |}) as Er.
  { unfold runner_of. rewrite Hc. by apply runner_read_back. }
  assert (saved_runner (exercise_of l b) = {| Config.enabled := on; Config.language := JStr (Config.language_name lang) |}) as Es.
  { unfold saved_runner, exercise_of. cbn [submissionType runnerConfig]. rewrite Et, Er.
    destruct (eqs t (js "text_submission")) eqn:E; [done|]. cbn [Config.language Config.enabled]. destruct on; [|done].
    rewrite On in E by done. done. }
  unfold exercise_payload. rewrite F, Ex, Ef. rewrite bool_decide_eq_true_2 by eauto. cbn [orb].
  change (Some b ≫= submission_config) with (submission_config b). rewrite Es, Hc, <- Ec.
  unfold same_exercise, exercise_of. cbn [instructions solution filename submissionType selectedRubricId fmap option_fmap option_map].
  rewrite T, Et, !tidy_kept, nonzero_kept, Ht, Hc by done. done.
Qed.

Lemma video_kept l b f :
  tidy_opt (video_url b) → s3_video_key b ≠ Some [] → find is_video (content_blocks l) = Some b →
  trim (l_title l) = l_title l → title f = l_title l → video f = video_of [] b →
  video_payload [] l f = Some (same_video l b).
Proof.
  intros Hu Hk F T Ef Ev. unfold video_payload. rewrite F, Ev, Ef, bool_decide_eq_true_2 by eauto. cbn [orb].
  unfold same_video, video_of, inFlightVideo. cbn [existsb videoUrl s3VideoKey fmap option_fmap option_map].
  rewrite T, tidy_kept by done. unfold resolveS3Key. cbn [find]. do 3 f_equal.
  destruct (s3_video_key b) as [k|]; [|done]. by destruct k.
Qed.

Lemma check_kept b k o : tidy_check b k → check_refused (check_of b k o) = false
  ∧ check_payload (check_of b k o) = Some (stored_check b k).
Proof.
  intros [Hi [[t Ht] Tt] [Tp Np] Fo L2 (c & Hc & Lc) [[e He] Te] Ho].
  assert (map trim (check_options k) = check_options k) as Eo.
  { clear -Fo. induction Fo as [|x l [E _] Fo IH]; [done|]. cbn [map]. by rewrite E, IH. }
  destruct (Te e He) as [Ee Ne], (Tt t Ht) as [Et Nt].
  assert (∀ s, s ≠ [] → truthy s = true) as Ts by by intros [].
  assert (∀ d, or_default (explanation k) d = e) as Xe by (intros d; rewrite He; cbn; by rewrite Ts).
  assert (∀ d, or_default (b_title b) d = t) as Xt by (intros d; rewrite Ht; cbn; by rewrite Ts).
  split.
  - unfold check_refused, check_of, cleanCheckOptions. cbn [checkEnabled checkPrompt checkOptions checkExplanation checkCorrectOption andb].
    rewrite Eo, Tp, Xe, Ee, Hc, !Ts by done. cbn [negb orb default].
    assert (existsb (λ o, negb (truthy o)) (check_options k) = false) as ->.
    { clear -Fo Ts. induction Fo as [|x l [_ N] Fo IH]; [done|]. cbn [existsb]. by rewrite Ts, IH. }
    change (default 0 (Some c)) with c.
    assert ((Z.of_nat (length (check_options k)) <? 2) = false) as -> by (apply Z.ltb_ge; lia).
    cbn [orb]. apply Z.leb_gt. exact Lc.
  - unfold check_payload, check_of, cleanCheckOptions, stored_check.
    cbn [checkEnabled checkBlockId checkTitle checkPrompt checkOptions checkExplanation checkCorrectOption checkObjectiveId orb].
    rewrite Eo, Tp, Xe, Xt, Ee, Et, !nonzero_kept, He, Ht by (done || congruence).
    unfold or_default. rewrite Ts by done. done.
Qed.

Lemma activeVideoUpload_none f l : activeVideoUpload f l [] = None.
Proof. done. Qed.

Lemma saved_unchanged l :
  tidy_lesson l → (handleSave [] (load [] l fresh_form)).2 = Some (stored_payload l, None).
Proof.
  intros Td. rewrite <- (same_stored l Td). destruct Td as [T Hv He Hc _ _]. set (f := load [] l fresh_form).
  assert (check_refused (check f) = false ∧
    check_payload (check f) = b ← find has_check (content_blocks l); stored_check b <$> knowledge_check b) as [C1 C2].
  { unfold f, load. cbn [check]. destruct (find has_check (content_blocks l)) as [b|] eqn:F; [|done].
    apply find_some in F as F'. destruct F' as [_ F']. unfold has_check in F'.
    destruct (knowledge_check b) as [k|] eqn:Kb; [|done].
    destruct (check_kept b k (latest_explanation k) (Hc b k eq_refl Kb)) as [E1 E2]. rewrite E1, E2.
    split; [done|]. cbn. by rewrite Kb. }
  assert (video_payload [] l f = same_video l <$> find is_video (content_blocks l)) as V.
  { destruct (find is_video (content_blocks l)) as [b|] eqn:F.
    - destruct (Hv b eq_refl). apply video_kept; auto. unfold f, load. cbn [video]. by rewrite F.
    - unfold video_payload, f, load. cbn [video]. by rewrite F. }
  assert (exercise_payload l f = same_exercise l <$> find is_exercise (content_blocks l)) as X.
  { destruct (find is_exercise (content_blocks l)) as [b|] eqn:F.
    - apply exercise_kept; auto. unfold f, load. cbn [exercise]. by rewrite F.
    - unfold exercise_payload, f, load. cbn [exercise]. by rewrite F. }
  unfold handleSave. change (lesson f) with (Some l). cbn [snd]. rewrite C1. cbn [activeVideoUpload find snd].
  unfold payload. rewrite V, X, C2. unfold same_payload. change (title f) with (l_title l). rewrite T.
  do 3 f_equal. unfold f, load. cbn [exercise]. destruct (find is_exercise (content_blocks l)) as [b|] eqn:F; [|done].
  destruct (He b eq_refl) as [_ _ _ _ (t & c & on & lang & Ht & Nt & _)]. unfold exercise_of. cbn [submissionType].
  rewrite Ht. by destruct t.
Qed.

Definition check_complete (c : Check) : Prop :=
  trim (checkPrompt c) ≠ [] ∧ (2 <= length (checkOptions c))%nat ∧ Forall (λ o, trim o ≠ []) (checkOptions c)
  ∧ trim (checkExplanation c) ≠ [] ∧ checkCorrectOption c < Z.of_nat (length (checkOptions c)).

Lemma not_refused c : check_refused c = false → checkEnabled c = true → check_complete c.
Proof.
  unfold check_refused, cleanCheckOptions, check_complete. intros H E. rewrite E in H. cbn [andb] in H.
  apply orb_false_iff in H as [[[[H1 H2]%orb_false_iff H3]%orb_false_iff H4]%orb_false_iff H5].
  rewrite length_map in *. apply Z.ltb_ge in H2. apply Z.leb_gt in H5.
  assert (∀ s, negb (truthy s) = false → s ≠ []) as N by by intros [].
  split_and!; [by apply N|lia| |by apply N|lia].
  apply Forall_forall. intros o Ho. apply N.
  destruct (negb (truthy (trim o))) eqn:X; [|done]. rewrite <- H3. symmetry. apply existsb_exists.
  exists (trim o). split; [|done]. apply in_map. by apply list_elem_of_In.
Qed.

(** An upload, not failed, that belongs to this lesson: the one started in the form, or one
    that waits for its video block or comes from its editor. *)
Definition upload_of (f : Form) (l : Lesson) (u : ActiveUpload) : Prop :=
  status u ≠ UploadQueue.error
  ∧ (Some (UploadQueue.id u) = pendingVideoUploadId f
     ∨ deferPersistence u = Some true
       ∧ (videoBlockId (video f) ≠ None ∧ contentBlockId u = videoBlockId (video f)
          ∨ linkTo u = Some (js "/admin/lessons/" ++ str_of_Z (l_id l) ++ js "/edit"))).

Lemma active_upload_of f l uploads :
  match activeVideoUpload f l uploads with
  | Some u => u ∈ uploads ∧ upload_of f l u
  | None => ∀ u, u ∈ uploads → ¬ upload_of f l u
  end.
Proof.
  unfold activeVideoUpload. set (g := λ u, _).
  assert (G : ∀ u, g u = true ↔ upload_of f l u).
  { intros u. unfold g, upload_of, not_error, deferred, lessonEditorPath.
    rewrite andb_true_iff, negb_true_iff, bool_decide_eq_false, orb_true_iff, andb_true_iff, orb_true_iff, !bool_decide_eq_true.
    rewrite <- not_eq_None_Some. destruct (deferPersistence u) as [[]|]; cbn; naive_solver. }
  destruct (find g uploads) as [u|] eqn:F.
  - apply find_some in F as [F1 F2]. split; [by apply list_elem_of_In|by apply G].
  - intros u Hu U%G. apply list_elem_of_In in Hu. by rewrite (find_none _ _ F u Hu) in U.
Qed.

(** C36: what saving a lesson sends. A lesson that is stored tidily (trimmed texts and no empty
    ones, identifiers that are not zero, a video and an exercise with the lesson's title,
    [requires_submission] as its exercise asks, runner settings as the form writes them, a
    complete retrieval check) and is opened and saved without an edit, no upload being there, is
    sent exactly as it is stored. Whatever the form: what is sent has the trimmed title, also as
    the title of the video and of the exercise, and requires a submission exactly when the type
    is not [manual_complete]; nothing is sent while the retrieval check is incomplete; when the
    lesson has uploads, one of them is stored or recorded, so that nothing is sent while its
    only upload is still running; and the key of a video is never sent while an upload that
    will attach its own to that block is running. *)
Theorem lesson_save_correct (l : Lesson) (uploads : list ActiveUpload) (f : Form) :
  (tidy_lesson l → (handleSave [] (load [] l fresh_form)).2 = Some (stored_payload l, None))
  ∧ (∀ p a, (handleSave uploads f).2 = Some (p, a) →
       p_title p = trim (title f)
       ∧ (∀ v, p_video p = Some v → pv_title v = trim (title f))
       ∧ (∀ e, p_exercise p = Some e → pe_title e = trim (title f) ∧ pe_submission_type e = submissionType (exercise f))
       ∧ (p_requires_submission p = true ↔ submissionType (exercise f) ≠ js "manual_complete")
       ∧ (checkEnabled (check f) = true → check_complete (check f))
       ∧ ∃ l0, lesson f = Some l0
         ∧ (match a with
            | Some u => u ∈ uploads ∧ upload_of f l0 u ∧ (status u = waiting ∨ status u = UploadQueue.done)
            | None => ∀ u, u ∈ uploads → ¬ upload_of f l0 u
            end)
         ∧ (∀ v k i u, p_video p = Some v → pv_key v = Some k → pv_id v = Some i → u ∈ uploads →
              contentBlockId u = Some i → status u ∉ [presigning; uploading; UploadQueue.saving])).
Proof.
  split; [apply saved_unchanged|]. intros p a. unfold handleSave.
  destruct (lesson f) as [l0|]; [|done]. destruct (check_refused (check f)) eqn:C; [done|].
  assert (∀ v k i u, video_payload uploads l0 f = Some v → pv_key v = Some k → pv_id v = Some i → u ∈ uploads →
            contentBlockId u = Some i → status u ∉ [presigning; uploading; UploadQueue.saving]) as Key.
  { intros v k i u. unfold video_payload. destruct (_ || _); [|done]. intros [= <-]. cbn [pv_key pv_id].
    destruct (find is_video (content_blocks l0)) as [b|]; [|done]. cbn. destruct (inFlightVideo uploads b) eqn:I; [done|].
    intros _ [= <-] Hu Hb Hs. assert (true = false); [|done]. rewrite <- I. symmetry. unfold inFlightVideo.
    apply existsb_exists. exists u. split; [by apply list_elem_of_In|]. rewrite bool_decide_eq_true_2 by done. unfold running.
    rewrite !elem_of_cons, elem_of_nil in Hs. destruct Hs as [-> |[-> |[-> |[]]]]; by vm_compute. }
  assert (∀ q, p_title (payload uploads l0 f) = trim (title f) ∧ (∀ v, p_video (payload uploads l0 f) = Some v → pv_title v = trim (title f))
    ∧ (∀ e, p_exercise (payload uploads l0 f) = Some e → pe_title e = trim (title f) ∧ pe_submission_type e = submissionType (exercise f))
    ∧ (p_requires_submission (payload uploads l0 f) = true ↔ submissionType (exercise f) ≠ js "manual_complete")
    ∧ (checkEnabled (check f) = true → check_complete (check f)) ∧ q ↔ q) as P.
  { intros q. split; [tauto|]. intros Q. split_and!; try done.
    - intros v. cbn. unfold video_payload. destruct (_ || _); [|done]. by intros [= <-].
    - intros e. cbn. unfold exercise_payload. destruct (_ || _); [|done]. by intros [= <-].
    - cbn. rewrite negb_true_iff. split; [apply eqs_false|]. intros H. by apply eqs_false.
    - by apply not_refused. }
  pose proof (active_upload_of f l0 uploads) as A. destruct (activeVideoUpload f l0 uploads) as [u|].
  - destruct (settled u) eqn:S; [|done]. intros [= <- <-]. apply P. exists l0. split_and!; try done; [apply A|apply A|].
    unfold settled in S. apply orb_true_iff in S as [S|S]; apply bool_decide_eq_true_1 in S; auto.
  - intros [= <- <-]. apply P. by exists l0.
Qed.

(** The form is not emptied when the page goes from one lesson to another: what the second
    has no block for is saved with the values of the first. *)
Definition plain_lesson (i : Z) (bs : list Block) : Lesson :=
  {| l_id := i; l_title := js "Lesson"; l_requires_submission := false; l_submission_type := None; archived := false;
     content_blocks := bs; objectives := [] |}.
Definition video_block : Block :=
  {| b_id := 7; block_type := js "video"; b_title := Some (js "Lesson"); body := None; video_url := Some (js "https://v/1");
     b_filename := None; submission_type := None; submission_config := None; b_solution := None;
     s3_video_key := None; rubric_id := None; knowledge_check := None |}.

Lemma previous_video_saved :
  ((handleSave [] (load [] (plain_lesson 2 []) (load [] (plain_lesson 1 [video_block]) fresh_form))).2
     ≫= λ '(p, _), p_video p ≫= pv_url) = Some (js "https://v/1").
Proof. vm_compute. reflexivity. Qed.

(** A lesson with all three kinds of blocks that is stored tidily. *)
Definition sample_config : list (str * json) :=
  [(js "runner", JObj [(js "enabled", JBool true); (js "language", JStr (js "ruby"))])].
Definition sample_exercise : Block :=
  {| b_id := 8; block_type := js "exercise"; b_title := Some (js "Lesson"); body := Some (js "Print 1 to 3"); video_url := None;
     b_filename := Some (js "loops.rb"); submission_type := Some (js "text_submission");
     submission_config := Some sample_config; b_solution := None; s3_video_key := None; rubric_id := Some 4;
     knowledge_check := None |}.
Definition sample_question : KnowledgeCheck :=
  {| prompt := js "What prints?"; check_options := [js "1"; js "2"]; correct_option := Some 1;
     explanation := Some (js "It counts."); latest_explanation := None; objective_id := None; attempt_count := 0 |}.
Definition sample_check : Block :=
  {| b_id := 9; block_type := js "checkpoint"; b_title := Some (js "Quick check"); body := None; video_url := None;
     b_filename := None; submission_type := None; submission_config := None; b_solution := None;
     s3_video_key := None; rubric_id := None; knowledge_check := Some sample_question |}.

Ltac tidy_text := first [done | intros ? [= <-]; split; [reflexivity|discriminate] | split; [reflexivity|discriminate]].

Definition sample_lesson : Lesson :=
  {| l_id := 3; l_title := js "Lesson"; l_requires_submission := true; l_submission_type := None; archived := false;
     content_blocks := [video_block; sample_exercise; sample_check]; objectives := [] |}.

Lemma sample_tidy : tidy_lesson sample_lesson.
Proof.
  constructor; [reflexivity| | | | |].
  - intros b [= <-]. split; [tidy_text|discriminate].
  - intros b [= <-]. constructor; [tidy_text..|discriminate|].
    exists (js "text_submission"), sample_config, true, Config.ruby. split_and!; [done|discriminate|done|reflexivity|done].
  - intros b k [= <-] [= <-]. constructor.
    + discriminate.
    + split; [eauto|tidy_text].
    + tidy_text.
    + repeat (constructor; [tidy_text|]). constructor.
    + cbn. lia.
    + exists 1. split; [done|cbn; lia].
    + split; [eauto|tidy_text].
    + discriminate.
  - intros b [[= <-]|[= <-]]; reflexivity.
  - split; [|done]. intros _. exists sample_exercise. split; [reflexivity|discriminate].
Qed.

(** With one upload stored and another under way the lesson is saved: only the first upload of
    the lesson is looked at. *)
Definition sample_upload (i : Z) (st : Status) : ActiveUpload :=
  {| UploadQueue.id := i; fileName := js "a.mp4"; fileSize := 1; contentType := js "video/mp4"; progress := 0; status := st;
     error_text := None; s3Key := Some (js "k"); contentBlockId := None; deferPersistence := Some true;
     cohortRecording := None; linkTo := Some (js "/admin/lessons/3/edit"); linkLabel := None |}.

Lemma second_upload_not_awaited :
  let us := [sample_upload 1 waiting; sample_upload 2 uploading] in
  bool_decide (is_Some (handleSave us (load us sample_lesson fresh_form)).2) = true.
Proof. vm_compute. reflexivity. Qed.
