(* ===== verification/ImageViewer.v ===== *)
(** * The image viewer

    [mobile/src/lib/image-viewer.ts]: how an image is fitted into the screen, how far it
    may be moved, where it goes when it is zoomed at a point, and the queue that runs one
    task after another. The numbers are rationals: rounding is not modelled. *)

From Stdlib Require Import QArith Lqa.
From S2P Require Import Prelude.
From S2P Require Import VideoProgress.

#[local] Open Scope Q_scope.

Definition IMAGE_VIEWER_MIN_SCALE : Q := 1.
Definition IMAGE_VIEWER_MAX_SCALE : Q := 4.
Definition IMAGE_VIEWER_DOUBLE_TAP_SCALE : Q := 5 # 2.

Record Size := { width : Q; height : Q }.

Definition clamp (value minimum maximum : Q) : Q := qmin maximum (qmax minimum value).

Definition fittedImageSize (image viewport : Size) : Size :=
  if Qle_bool (width image) 0 || Qle_bool (height image) 0 || Qle_bool (width viewport) 0
     || Qle_bool (height viewport) 0
  then viewport
  else let ratio := qmin (width viewport / width image) (height viewport / height image) in
       {| width := width image * ratio; height := height image * ratio |}.

Definition translationBounds (image viewport : Size) (scale : Q) : Q * Q :=
  let fitted := fittedImageSize image viewport in
  (qmax 0 ((width fitted * scale - width viewport) / 2),
   qmax 0 ((height fitted * scale - height viewport) / 2)).

Definition clampImageTranslation (image viewport : Size) (scale x y : Q) : Q * Q :=
  let '(bx, by_) := translationBounds image viewport scale in
  (clamp x (- bx) bx, clamp y (- by_) by_).

Definition zoomed (current focal center ratio : Q) : Q :=
  current + (focal - center - current) * (1 - ratio).

Definition zoomTranslationAtPoint (image viewport : Size) (fromScale toScale currentX currentY focalX focalY : Q) : Q * Q :=
  let ratio := toScale / qmax IMAGE_VIEWER_MIN_SCALE fromScale in
  clampImageTranslation image viewport toScale
    (zoomed currentX focalX (width viewport / 2) ratio) (zoomed currentY focalY (height viewport / 2) ratio).

(** ** Fitting *)

Lemma qmin_cases a b : (qmin a b = a /\ a <= b) \/ (qmin a b = b /\ b <= a).
Proof. destruct (qmin_spec a b) as (? & ? & [E|E]); rewrite E in *; auto. Qed.

Lemma qmax_cases a b : (qmax a b = a /\ b <= a) \/ (qmax a b = b /\ a <= b).
Proof. destruct (qmax_spec a b) as (? & ? & [E|E]); rewrite E in *; auto. Qed.

Definition positive (s : Size) : Prop := 0 < width s /\ 0 < height s.

Lemma fitted_eq image viewport :
  positive image -> positive viewport ->
  fittedImageSize image viewport =
    let ratio := qmin (width viewport / width image) (height viewport / height image) in
    {| width := width image * ratio; height := height image * ratio |}.
Proof.
  intros [I1 I2] [V1 V2]. unfold fittedImageSize.
  assert (forall q, 0 < q -> Qle_bool q 0 = false) as P.
  { intros q Hq. destruct (Qle_bool q 0) eqn:E; [|done]. apply Qle_bool_iff in E. lra. }
  by rewrite !P by done.
Qed.

Lemma fitted_spec image viewport :
  positive image -> positive viewport ->
  let f := fittedImageSize image viewport in
  width f <= width viewport /\ height f <= height viewport
  /\ (width f == width viewport \/ height f == height viewport)
  /\ width f * height image == height f * width image /\ positive f.
Proof.
  intros Hi Hv. rewrite fitted_eq by done. destruct Hi as [I1 I2], Hv as [V1 V2]. cbn.
  set (a := width viewport / width image). set (b := height viewport / height image).
  assert (width image * a == width viewport) as A by (unfold a; field; lra).
  assert (height image * b == height viewport) as B by (unfold b; field; lra).
  assert (0 < a) as Pa by (apply Qlt_shift_div_l; lra).
  assert (0 < b) as Pb by (apply Qlt_shift_div_l; lra).
  destruct (qmin_cases a b) as [[-> L]|[-> L]].
  - split; [lra|]. split; [rewrite <- B; nra|]. split; [left; lra|]. split; [ring|]. split; cbn; nra.
  - split; [rewrite <- A; nra|]. split; [lra|]. split; [right; lra|]. split; [ring|]. split; cbn; nra.
Qed.

(** ** Moving *)

Lemma clamp_spec v b : 0 <= b ->
  - b <= clamp v (- b) b <= b /\ (- b <= v <= b -> clamp v (- b) b == v).
Proof.
  intros Hb. unfold clamp. destruct (qmax_cases (- b) v) as [[-> L]|[-> L]];
    match goal with |- context [qmin ?x ?y] => destruct (qmin_cases x y) as [[-> M]|[-> M]] end;
    (split; [lra|intros; lra]).
Qed.

(** The image of size [w] moved by [x] covers a screen of size [v], or is in its middle. *)
Definition covers (w v x : Q) : Prop :=
  (v <= w -> x - w / 2 <= - (v / 2) /\ v / 2 <= x + w / 2) /\ (w <= v -> x == 0).

Lemma half q : q / 2 == q * (1 # 2).
Proof. field. Qed.

Lemma clamp_covers w v x :
  covers w v (clamp x (- qmax 0 ((w - v) / 2)) (qmax 0 ((w - v) / 2))).
Proof.
  assert (0 <= qmax 0 ((w - v) / 2)) as P by (destruct (qmax_cases 0 ((w - v) / 2)) as [[-> ?]|[-> ?]]; lra).
  destruct (clamp_spec x _ P) as [C _]. revert C. generalize (clamp x (- qmax 0 ((w - v) / 2)) (qmax 0 ((w - v) / 2))) as c.
  intros c C. pose proof (half (w - v)) as H. pose proof (half w) as Hw. pose proof (half v) as Hv.
  destruct (qmax_cases 0 ((w - v) / 2)) as [[E L]|[E L]]; rewrite E in C; split; intros G; lra.
Qed.

(** ** Zooming *)

(** The point of the image under a point of the screen, in units of the unscaled image. *)
Definition under (focal center x scale : Q) : Q := (focal - center - x) / scale.

Lemma zoomed_keeps focal center x from to :
  1 <= from -> 0 < to -> under focal center (zoomed x focal center (to / from)) to == under focal center x from.
Proof. intros H1 H2. unfold under, zoomed. field. lra. Qed.

(** The viewer never loses the image. For an image and a screen that are not empty: the
    fitted image keeps its proportions, is inside the screen and fills it in one direction;
    however it is scaled and moved, in each direction it covers the screen, or is in the
    middle when it is smaller; a move that is allowed is not changed; and zooming at a point
    keeps the point of the image under the finger where it is, unless the image would have
    to leave the screen's edge. *)
Theorem image_stays_in_view (image viewport : Size) (scale x y : Q)
    (Hi : positive image) (Hv : positive viewport) :
  let f := fittedImageSize image viewport in
  (width f <= width viewport /\ height f <= height viewport
   /\ (width f == width viewport \/ height f == height viewport)
   /\ width f * height image == height f * width image)
  /\ (let '(tx, ty) := clampImageTranslation image viewport scale x y in
      covers (width f * scale) (width viewport) tx /\ covers (height f * scale) (height viewport) ty)
  /\ (let '(bx, by_) := translationBounds image viewport scale in
      - bx <= x <= bx -> - by_ <= y <= by_ ->
      fst (clampImageTranslation image viewport scale x y) == x
      /\ snd (clampImageTranslation image viewport scale x y) == y)
  /\ (forall from focalX focalY, 1 <= from -> 0 < scale ->
      let ratio := scale / qmax IMAGE_VIEWER_MIN_SCALE from in
      let nx := zoomed x focalX (width viewport / 2) ratio in
      let ny := zoomed y focalY (height viewport / 2) ratio in
      let '(bx, by_) := translationBounds image viewport scale in
      - bx <= nx <= bx -> - by_ <= ny <= by_ ->
      let '(zx, zy) := zoomTranslationAtPoint image viewport from scale x y focalX focalY in
      under focalX (width viewport / 2) zx scale == under focalX (width viewport / 2) x from
      /\ under focalY (height viewport / 2) zy scale == under focalY (height viewport / 2) y from).
Proof.
  intros f. destruct (fitted_spec image viewport Hi Hv) as (F1 & F2 & F3 & F4 & _).
  split; [done|]. split; [split; apply clamp_covers|].
  assert (forall q, 0 <= qmax 0 q) as P by (intros q; destruct (qmax_cases 0 q) as [[-> ?]|[-> ?]]; lra).
  split.
  - cbn. intros Bx By. split; apply clamp_spec; auto.
  - intros from fx fy H1 H2. assert (qmax IMAGE_VIEWER_MIN_SCALE from == from) as E.
    { unfold IMAGE_VIEWER_MIN_SCALE. destruct (qmax_cases 1 from) as [[-> ?]|[-> ?]]; lra. }
    cbn. intros Bx By. destruct (clamp_spec (zoomed x fx (width viewport / 2) (scale / qmax IMAGE_VIEWER_MIN_SCALE from)) _ (P ((width (fittedImageSize image viewport) * scale - width viewport) / 2))) as [_ Cx].
    destruct (clamp_spec (zoomed y fy (height viewport / 2) (scale / qmax IMAGE_VIEWER_MIN_SCALE from)) _ (P ((height (fittedImageSize image viewport) * scale - height viewport) / 2))) as [_ Cy].
    unfold under at 1 3. rewrite (Cx Bx), (Cy By). unfold zoomed. rewrite E.
    pose proof (zoomed_keeps fx (width viewport / 2) x from scale H1 H2).
    pose proof (zoomed_keeps fy (height viewport / 2) y from scale H1 H2). done.
Qed.

Lemma image_stays_in_view_witness :
  let image := {| width := 400; height := 200 |} in let viewport := {| width := 100; height := 100 |} in
  positive image /\ positive viewport
  /\ width (fittedImageSize image viewport) <= 100 /\ height (fittedImageSize image viewport) <= 100.
Proof.
  intros image viewport. assert (positive image) as Hi by (split; reflexivity).
  assert (positive viewport) as Hv by (split; reflexivity).
  destruct (image_stays_in_view image viewport 2 7 0 Hi Hv) as [(F1 & F2 & _) _]. auto.
Defined.

(** ** One task after another *)

Module Serial.

(** [pending]: the task that runs and those chained after it; [log] records, latest first,
    when a task starts and when it settles. *)
Inductive entry := Started (t : nat) | Settled (t : nat) (ok : bool).
Record Queue := { pending : list nat; log : list entry }.

(** [pending.then(task, task)]: the task starts when all before it have settled. *)
Definition enqueue (t : nat) (q : Queue) : Queue :=
  {| pending := pending q ++ [t]; log := match pending q with [] => Started t :: log q | _ => log q end |}.

(** The running task settles, and the next starts whatever the outcome. *)
Definition settle (ok : bool) (q : Queue) : Queue :=
  match pending q with
  | [] => q
  | t :: r => {| pending := r;
                 log := match r with u :: _ => [Started u] | [] => [] end ++ Settled t ok :: log q |}
  end.

Inductive event := Enqueue (t : nat) | Settle (ok : bool).

Definition step (q : Queue) (e : event) : Queue :=
  match e with Enqueue t => enqueue t q | Settle ok => settle ok q end.

Definition tasks (es : list event) : list nat := omap (λ e, match e with Enqueue t => Some t | _ => None end) es.

(** What happened to the first tasks: each started and settled before the next started. *)
Inductive one_by_one : list nat → list entry → Prop :=
| none_yet : one_by_one [] []
| one_more ts l t ok : one_by_one ts l → one_by_one (ts ++ [t]) (Settled t ok :: Started t :: l).

(** Tasks run in the order they were given, one at a time, and none is skipped because one
    before it failed: those that are not pending have started and settled in turn, and the
    first of the pending ones is the one that runs. *)
Lemma serial_queue_order es :
  let q := fold_left step es {| pending := []; log := [] |} in
  ∃ done l, tasks es = done ++ pending q ∧ one_by_one done l
    ∧ log q = match pending q with t :: _ => Started t :: l | [] => l end.
Proof.
  induction es as [|e es IH] using rev_ind; [exists [], []; split; [done|split; [constructor|done]]|].
  rewrite fold_left_app. unfold tasks. rewrite omap_app. fold (tasks es). cbn [fold_left].
  destruct IH as (d & l & E & O & L). destruct (fold_left step es _) as [ps lg]. cbn in E, L. destruct e as [t|ok].
  - exists d, l. cbn. rewrite E, <- (assoc_L (++)). split; [done|]. split; [done|]. rewrite L. by destruct ps.
  - cbn. rewrite app_nil_r. unfold settle. cbn. destruct ps as [|t r]; [exists d, l; done|].
    exists (d ++ [t]), (Settled t ok :: Started t :: l). rewrite E, L, <- (assoc_L (++)). split; [done|].
    split; [by constructor|]. by destruct r.
Qed.

End Serial.
