(* ===== verification/CohortDetail.v ===== *)
(** * The page of a cohort (web)

    [web/src/pages/admin/CohortDetail.tsx]: the forms of the page and what is saved from
    them, with [web/src/lib/presence.ts]. A handler runs up to its next [await]; the request
    it waits for is in [ops] with the values the handler has read, and [answer] goes on with
    its result. [requests] records what was asked of the server.

    The clock, the time zone and [Intl] are those of the browser ([Browser]). *)

From S2P Require Import Prelude.
From S2P Require Import Keyed.

(** ** The cohort *)

Record Recording := { r_title : str; r_url : str; r_date : option str; r_description : option str }.
Record ClassResource := { c_title : str; c_url : str; c_category : option str; c_description : option str }.

Inductive Recurrence := once | weekly.
Inductive EventKind := office_hours_kind | live_class.

Record OfficeHour := {
  oh_id : Z; oh_title : str; oh_description : option str; oh_starts_at : str; oh_ends_at : str;
  oh_meeting_url : str; oh_timezone : str; oh_recurrence : Recurrence; oh_kind : EventKind;
}.

Inductive WindowStatus := open_ | scheduled | closed.

(** A week of a module: as the server gives it, and as the form has it. *)
Record ModuleWindow := {
  mw_week : Z; mw_close_at : option str; mw_closed : bool; mw_status : WindowStatus;
  mw_starts_on : option str; mw_ends_on : option str; mw_lessons : option Z;
}.
Record SubmissionWindowForm := {
  week_number : Z; submissions_close_at : str; submissions_closed : bool; window_status : WindowStatus;
  starts_on : option str; ends_on : option str; lessons_count : option Z;
}.

Record Student := {
  enrollment_id : Z; user_id : Z; full_name : str; email : str; last_seen_at : option str;
  invite_pending : bool;
}.

Record Module_ := {
  m_id : Z; m_name : str; assigned : bool; unlocked_count : Z; module_start_date : option str;
  m_requires_github : option bool; m_repository_name : option str;
  submission_windows : option (list ModuleWindow);
}.

Record Cohort := {
  curriculum_id : Z; start_date : option str; status : str; active_count : Z;
  c_recordings : option (list Recording); class_resources : option (list ClassResource);
  c_office_hours : option (list OfficeHour); students : list Student; modules : list Module_;
}.

(** ** Dates *)

Record Browser := {
  Date_parse : str → option Z;                 (* [new Date(s).getTime()], [None] for [NaN] *)
  local_date : Z → str;                        (* the date of the day, [yyyy-mm-dd] *)
  midnight : str → Z;                          (* the start of such a day *)
  zone_input : str → Z → str;                  (* [Intl.DateTimeFormat] in a time zone *)
  local_zone : str;
  toISOString : Z → str;
}.

Section Dates.
Context (b : Browser).

Definition date_only (s : str) : bool :=
  match s with
  | [a; b; c; d; h1; e; f; h2; g; h] =>
      forallb is_digit [a; b; c; d; e; f; g; h] && eqs [h1; h2] (js "--")
  | _ => false
  end.

(** An invalid date is written with [NaN]. *)
Definition formatDateInputValue (t : option Z) : str :=
  match t with Some t => local_date b t | None => js "NaN-NaN-NaN" end.

Definition toDateInputValue (dateStr : option str) : str :=
  match dateStr with
  | None | Some [] => []
  | Some s => if date_only s then s else formatDateInputValue (Date_parse b s)
  end.

Definition dateTimeInputToIso (value : str) : option str :=
  match value with [] => None | _ => toISOString b <$> Date_parse b value end.

Definition toDateTimeInputValueInTimeZone (dateStr : option str) (zone : str) : str :=
  match dateStr with
  | None | Some [] => []
  | Some s => match Date_parse b s with Some t => zone_input b zone t | None => [] end
  end.
Definition toLocalDateTimeInputValue (dateStr : option str) : str :=
  toDateTimeInputValueInTimeZone dateStr (local_zone b).

Definition submissionWindowStatusForForm (now : Z) (w : SubmissionWindowForm) : WindowStatus :=
  match submissions_close_at w with
  | [] => open_
  | s => match Date_parse b s with
         | None => scheduled
         | Some t => if t <=? now then closed else scheduled
         end
  end.

Definition MINUTE : Z := 1000 * 60.
Definition HOUR : Z := 1000 * 60 * 60.
Definition DAY : Z := 1000 * 60 * 60 * 24.

(** [long] is [toLocaleDateString('en-US', ...)]. *)
Definition formatRelativeDateTime (now : Z) (long : Z → str) (dateStr : option str) : str :=
  match dateStr with
  | None | Some [] => js "Never"
  | Some s =>
      match Date_parse b s with
      | None => js "Unknown"
      | Some t =>
          let diff := now - t in
          if diff / MINUTE <? 1 then js "Just now"
          else if diff / MINUTE <? 60 then str_of_Z (diff / MINUTE) ++ js "m ago"
          else if diff / HOUR <? 24 then str_of_Z (diff / HOUR) ++ js "h ago"
          else if diff / DAY =? 1 then js "Yesterday"
          else if diff / DAY <? 7 then str_of_Z (diff / DAY) ++ js "d ago"
          else long t
      end
  end.

(** [web/src/lib/presence.ts] *)
Inductive PresenceStatus := online | recently_active | offline.

#[export] Instance PresenceStatus_eq_dec : EqDecision PresenceStatus.
Proof. solve_decision. Defined.

Definition ONLINE_WINDOW_MS : Z := 2 * 60 * 1000.
Definition RECENTLY_ACTIVE_WINDOW_MS : Z := 15 * 60 * 1000.

Definition presenceStatus (lastSeenAt : option str) (now : Z) : PresenceStatus :=
  match lastSeenAt with
  | None | Some [] => offline
  | Some s =>
      match Date_parse b s with
      | None => offline
      | Some t =>
          if now - t <? ONLINE_WINDOW_MS then online
          else if now - t <? RECENTLY_ACTIVE_WINDOW_MS then recently_active
          else offline
      end
  end.

End Dates.

(** ** The state of the page *)

Record ModuleForm := {
  unlocked : bool; form_start_date : str; requires_github : bool; repository_name : str;
}.
Definition no_form : ModuleForm :=
  {| unlocked := false; form_start_date := []; requires_github := false; repository_name := [] |}.

Record OfficeHourForm := {
  f_title : str; f_description : str; f_starts_at : str; f_ends_at : str; f_meeting_url : str;
  f_timezone : str; f_recurrence : Recurrence; f_kind : EventKind;
}.

(** What the user edits. *)
Record Drafts := {
  forms : gmap Z ModuleForm;
  submissionWindows : gmap Z (list SubmissionWindowForm);
  recordings : list Recording;
  classResources : list ClassResource;
  editStartDate : str;
  editStatus : str;
}.

Record StudentForm := { addStudentEmail : str; addStudentGithub : str; sendInvite : bool }.
Record NewModule := { newModuleName : str; newModuleType : str; newModuleScheduleDays : str }.

(** What is shown as being saved. *)
Record Flags := {
  loading : bool; savingModuleId : option Z; savingRecordings : bool; savingResources : bool;
  savingStatus : bool; savingStartDate : bool; addingStudent : bool; resendingInviteFor : option Z;
  savingOfficeHour : bool; deletingOfficeHourId : option Z; addingModule : bool;
}.

Record OfficePayload := {
  p_title : str; p_description : option str; p_starts_at : str; p_ends_at : str; p_meeting_url : str;
  p_timezone : str; p_recurrence : Recurrence; p_kind : EventKind;
}.

Record AccessPayload := {
  a_module_id : Z; a_assigned : bool; a_unlocked : option bool; a_start_date : option (option str);
  a_requires_github : option bool; a_repository_name : option str;
}.

Inductive Request :=
| GetCohort
| UpdateStartDate (d : str)
| UpdateStatus (s : str)
| CreateUser (mail : str) (github : option str) (skip_invite : bool)
| CreateEnrollment (userId : Z)
| ResendInvite (userId : Z)
| UpdateAccess (p : AccessPayload)
| UpdateRecordings (l : list Recording)
| UpdateResources (l : list ClassResource)
| UpdateWindows (moduleId : Z) (l : list (Z * option str))
| CreateOfficeHour (p : OfficePayload)
| UpdateOfficeHour (i : Z) (p : OfficePayload)
| DeleteOfficeHour (i : Z)
| CreateModule (curriculum : Z) (name type_ : str) (position : Z) (days : str).

(** What follows a [reloadCohort] that is waited for. *)
Inductive After :=
| ThenNothing
| ThenStudent (mail : str)
| ThenWindows (silent : option (Z * str))      (* [Some]: from [saveModuleConfiguration] *)
| ThenKeepWindows (moduleId : Z) (snapshot : list SubmissionWindowForm)
| ThenOffice (edited : bool)
| ThenOfficeGone (i : Z) (editing : option Z)
| ThenModule (name : str).

(** The requests in flight, with what the handler has read. *)
Inductive Op :=
| OReload (k : After)
| OStartDate
| OStatus (s : str)
| OUser (mail : str)
| OEnroll (mail : str)
| OResend (mail : str)
| OAccess (moduleId : Z) (snapshot : list SubmissionWindowForm) (name : str)
| OWindows (moduleId : Z) (config : option (list SubmissionWindowForm * str))
| ORecordings
| OResources
| OOffice (edited : bool)
| OOfficeGone (i : Z) (editing : option Z)
| OModule (name : str)
| OAssign (moduleId : Z) (name : str)
| ORemove (moduleId : Z) (name : str).

Record Page := {
  cohort : option Cohort; officeHours : list OfficeHour; drafts : Drafts; flags : Flags;
  message : str; studentForm : StudentForm; showAddStudent : bool;
  statusPendingConfirmation : option str;
  officeHourForm : OfficeHourForm; editingOfficeHourId : option Z;
  configureModuleId : option Z; newModule : NewModule; showAddModule : bool;
  ops : list Op; requests : list Request;
}.

Definition set_cohort (c : option Cohort) (oh : list OfficeHour) (d : Drafts) (s : Page) : Page :=
  {| cohort := c; officeHours := oh; drafts := d; flags := flags s; message := message s;
     studentForm := studentForm s; showAddStudent := showAddStudent s;
     statusPendingConfirmation := statusPendingConfirmation s; officeHourForm := officeHourForm s;
     editingOfficeHourId := editingOfficeHourId s; configureModuleId := configureModuleId s;
     newModule := newModule s; showAddModule := showAddModule s; ops := ops s; requests := requests s |}.
Definition set_drafts (d : Drafts) (s : Page) : Page := set_cohort (cohort s) (officeHours s) d s.
Definition set_flags (f : Flags) (s : Page) : Page :=
  {| cohort := cohort s; officeHours := officeHours s; drafts := drafts s; flags := f; message := message s;
     studentForm := studentForm s; showAddStudent := showAddStudent s;
     statusPendingConfirmation := statusPendingConfirmation s; officeHourForm := officeHourForm s;
     editingOfficeHourId := editingOfficeHourId s; configureModuleId := configureModuleId s;
     newModule := newModule s; showAddModule := showAddModule s; ops := ops s; requests := requests s |}.
(** [notifySuccess], [notifyError] and [setMessage('')] *)
Definition notify (m : str) (s : Page) : Page :=
  {| cohort := cohort s; officeHours := officeHours s; drafts := drafts s; flags := flags s; message := m;
     studentForm := studentForm s; showAddStudent := showAddStudent s;
     statusPendingConfirmation := statusPendingConfirmation s; officeHourForm := officeHourForm s;
     editingOfficeHourId := editingOfficeHourId s; configureModuleId := configureModuleId s;
     newModule := newModule s; showAddModule := showAddModule s; ops := ops s; requests := requests s |}.
Definition set_student (f : StudentForm) (show : bool) (s : Page) : Page :=
  {| cohort := cohort s; officeHours := officeHours s; drafts := drafts s; flags := flags s;
     message := message s; studentForm := f; showAddStudent := show;
     statusPendingConfirmation := statusPendingConfirmation s; officeHourForm := officeHourForm s;
     editingOfficeHourId := editingOfficeHourId s; configureModuleId := configureModuleId s;
     newModule := newModule s; showAddModule := showAddModule s; ops := ops s; requests := requests s |}.
Definition set_pending (p : option str) (s : Page) : Page :=
  {| cohort := cohort s; officeHours := officeHours s; drafts := drafts s; flags := flags s;
     message := message s; studentForm := studentForm s; showAddStudent := showAddStudent s;
     statusPendingConfirmation := p; officeHourForm := officeHourForm s;
     editingOfficeHourId := editingOfficeHourId s; configureModuleId := configureModuleId s;
     newModule := newModule s; showAddModule := showAddModule s; ops := ops s; requests := requests s |}.
Definition set_office (f : OfficeHourForm) (e : option Z) (s : Page) : Page :=
  {| cohort := cohort s; officeHours := officeHours s; drafts := drafts s; flags := flags s;
     message := message s; studentForm := studentForm s; showAddStudent := showAddStudent s;
     statusPendingConfirmation := statusPendingConfirmation s; officeHourForm := f;
     editingOfficeHourId := e; configureModuleId := configureModuleId s;
     newModule := newModule s; showAddModule := showAddModule s; ops := ops s; requests := requests s |}.
Definition set_configure (c : option Z) (s : Page) : Page :=
  {| cohort := cohort s; officeHours := officeHours s; drafts := drafts s; flags := flags s;
     message := message s; studentForm := studentForm s; showAddStudent := showAddStudent s;
     statusPendingConfirmation := statusPendingConfirmation s; officeHourForm := officeHourForm s;
     editingOfficeHourId := editingOfficeHourId s; configureModuleId := c;
     newModule := newModule s; showAddModule := showAddModule s; ops := ops s; requests := requests s |}.
Definition set_module (n : NewModule) (show : bool) (s : Page) : Page :=
  {| cohort := cohort s; officeHours := officeHours s; drafts := drafts s; flags := flags s;
     message := message s; studentForm := studentForm s; showAddStudent := showAddStudent s;
     statusPendingConfirmation := statusPendingConfirmation s; officeHourForm := officeHourForm s;
     editingOfficeHourId := editingOfficeHourId s; configureModuleId := configureModuleId s;
     newModule := n; showAddModule := show; ops := ops s; requests := requests s |}.
Definition set_ops (l : list Op) (r : list Request) (s : Page) : Page :=
  {| cohort := cohort s; officeHours := officeHours s; drafts := drafts s; flags := flags s;
     message := message s; studentForm := studentForm s; showAddStudent := showAddStudent s;
     statusPendingConfirmation := statusPendingConfirmation s; officeHourForm := officeHourForm s;
     editingOfficeHourId := editingOfficeHourId s; configureModuleId := configureModuleId s;
     newModule := newModule s; showAddModule := showAddModule s; ops := l; requests := r |}.

(** A request goes out. *)
Definition ask (r : Request) (o : Op) (s : Page) : Page := set_ops (ops s ++ [o]) (requests s ++ [r]) s.
(** The next request of the handler at [i]. *)
Definition ask_next (i : nat) (r : Request) (o : Op) (s : Page) : Page :=
  set_ops (<[i := o]> (ops s)) (requests s ++ [r]) s.
Definition returns (i : nat) (s : Page) : Page := set_ops (delete i (ops s)) (requests s) s.

Definition saving_module (m : option Z) (s : Page) : Page :=
  let f := flags s in
  set_flags {| loading := loading f; savingModuleId := m; savingRecordings := savingRecordings f;
    savingResources := savingResources f; savingStatus := savingStatus f; savingStartDate := savingStartDate f;
    addingStudent := addingStudent f; resendingInviteFor := resendingInviteFor f;
    savingOfficeHour := savingOfficeHour f; deletingOfficeHourId := deletingOfficeHourId f;
    addingModule := addingModule f |} s.
Definition saving_lists (r c : bool) (s : Page) : Page :=
  let f := flags s in
  set_flags {| loading := loading f; savingModuleId := savingModuleId f; savingRecordings := r;
    savingResources := c; savingStatus := savingStatus f; savingStartDate := savingStartDate f;
    addingStudent := addingStudent f; resendingInviteFor := resendingInviteFor f;
    savingOfficeHour := savingOfficeHour f; deletingOfficeHourId := deletingOfficeHourId f;
    addingModule := addingModule f |} s.
Definition saving_cohort (st da : bool) (s : Page) : Page :=
  let f := flags s in
  set_flags {| loading := loading f; savingModuleId := savingModuleId f;
    savingRecordings := savingRecordings f; savingResources := savingResources f; savingStatus := st;
    savingStartDate := da; addingStudent := addingStudent f; resendingInviteFor := resendingInviteFor f;
    savingOfficeHour := savingOfficeHour f; deletingOfficeHourId := deletingOfficeHourId f;
    addingModule := addingModule f |} s.
Definition saving_people (a : bool) (r : option Z) (s : Page) : Page :=
  let f := flags s in
  set_flags {| loading := loading f; savingModuleId := savingModuleId f;
    savingRecordings := savingRecordings f; savingResources := savingResources f;
    savingStatus := savingStatus f; savingStartDate := savingStartDate f; addingStudent := a;
    resendingInviteFor := r; savingOfficeHour := savingOfficeHour f;
    deletingOfficeHourId := deletingOfficeHourId f; addingModule := addingModule f |} s.
Definition saving_office (o : bool) (d : option Z) (s : Page) : Page :=
  let f := flags s in
  set_flags {| loading := loading f; savingModuleId := savingModuleId f;
    savingRecordings := savingRecordings f; savingResources := savingResources f;
    savingStatus := savingStatus f; savingStartDate := savingStartDate f; addingStudent := addingStudent f;
    resendingInviteFor := resendingInviteFor f; savingOfficeHour := o; deletingOfficeHourId := d;
    addingModule := addingModule f |} s.
Definition adding_module (a : bool) (s : Page) : Page :=
  let f := flags s in
  set_flags {| loading := loading f; savingModuleId := savingModuleId f;
    savingRecordings := savingRecordings f; savingResources := savingResources f;
    savingStatus := savingStatus f; savingStartDate := savingStartDate f; addingStudent := addingStudent f;
    resendingInviteFor := resendingInviteFor f; savingOfficeHour := savingOfficeHour f;
    deletingOfficeHourId := deletingOfficeHourId f; addingModule := a |} s.
Definition done_loading (s : Page) : Page :=
  let f := flags s in
  set_flags {| loading := false; savingModuleId := savingModuleId f;
    savingRecordings := savingRecordings f; savingResources := savingResources f;
    savingStatus := savingStatus f; savingStartDate := savingStartDate f; addingStudent := addingStudent f;
    resendingInviteFor := resendingInviteFor f; savingOfficeHour := savingOfficeHour f;
    deletingOfficeHourId := deletingOfficeHourId f; addingModule := addingModule f |} s.

Definition set_forms (f : gmap Z ModuleForm) (w : gmap Z (list SubmissionWindowForm)) (s : Page) : Page :=
  let d := drafts s in
  set_drafts {| forms := f; submissionWindows := w; recordings := recordings d;
                classResources := classResources d; editStartDate := editStartDate d;
                editStatus := editStatus d |} s.
Definition set_lists (r : list Recording) (c : list ClassResource) (s : Page) : Page :=
  let d := drafts s in
  set_drafts {| forms := forms d; submissionWindows := submissionWindows d; recordings := r;
                classResources := c; editStartDate := editStartDate d; editStatus := editStatus d |} s.
Definition set_edit (da st : str) (s : Page) : Page :=
  let d := drafts s in
  set_drafts {| forms := forms d; submissionWindows := submissionWindows d; recordings := recordings d;
                classResources := classResources d; editStartDate := da; editStatus := st |} s.

(** ** Handlers *)

Section Handlers.
Context (b : Browser).

Definition or_empty (o : option str) : str := default [] o.

Definition module_form (c : Cohort) (m : Module_) : ModuleForm := {|
  unlocked := assigned m && (if 0 <? active_count c then unlocked_count m =? active_count c else false);
  form_start_date := toDateInputValue b (module_start_date m);
  requires_github := default false (m_requires_github m);
  repository_name := or_empty (m_repository_name m) |}.

Definition window_form (w : ModuleWindow) : SubmissionWindowForm := {|
  week_number := mw_week w; submissions_close_at := toLocalDateTimeInputValue b (mw_close_at w);
  submissions_closed := mw_closed w; window_status := mw_status w; starts_on := mw_starts_on w;
  ends_on := mw_ends_on w; lessons_count := mw_lessons w |}.

(** [forEach]: a later module with the same identifier wins. *)
Definition by_module {A} (f : Module_ → A) (c : Cohort) : gmap Z A :=
  fold_left (λ acc m, <[m_id m := f m]> acc) (modules c) ∅.

Definition buildFormsFromCohort (c : Cohort) : gmap Z ModuleForm := by_module (module_form c) c.
Definition buildSubmissionWindowsFromCohort (c : Cohort) : gmap Z (list SubmissionWindowForm) :=
  by_module (λ m, map window_form (default [] (submission_windows m))) c.

Definition drafts_of (c : Cohort) : Drafts := {|
  forms := buildFormsFromCohort c; submissionWindows := buildSubmissionWindowsFromCohort c;
  recordings := default [] (c_recordings c); classResources := default [] (class_resources c);
  editStartDate := toDateInputValue b (start_date c); editStatus := status c |}.

Definition applyCohort (c : Cohort) (s : Page) : Page :=
  set_cohort (Some c) (default [] (c_office_hours c)) (drafts_of c) s.
Definition apply_opt (c : option Cohort) (s : Page) : Page :=
  match c with Some c => applyCohort c s | None => s end.

(** [reloadCohort()]: where a handler waits for it, [i] is its place. *)
Definition reload (s : Page) : Page := ask GetCohort (OReload ThenNothing) s.
Definition reload_then (i : nat) (k : After) (s : Page) : Page := ask_next i GetCohort (OReload k) s.

(** A presence event. *)
Definition seen (userId : Z) (at_ : option str) (s : Page) : Page :=
  match cohort s with
  | Some c =>
      if existsb (λ x, user_id x =? userId) (students c) then
        set_cohort (Some {| curriculum_id := curriculum_id c; start_date := start_date c; status := status c;
            active_count := active_count c; c_recordings := c_recordings c;
            class_resources := class_resources c; c_office_hours := c_office_hours c;
            students := map (λ x, if user_id x =? userId
                                  then {| enrollment_id := enrollment_id x; user_id := user_id x;
                                          full_name := full_name x; email := email x; last_seen_at := at_;
                                          invite_pending := invite_pending x |}
                                  else x) (students c);
            modules := modules c |}) (officeHours s) (drafts s) s
      else s
  | None => s
  end.

Definition handleSaveStartDate (s : Page) : Page :=
  match editStartDate (drafts s) with
  | [] => s
  | d => ask (UpdateStartDate d) OStartDate (notify [] (saving_cohort (savingStatus (flags s)) true s))
  end.

Definition updateCohortStatus (next : str) (s : Page) : Page :=
  match cohort s with
  | None => s
  | Some c =>
      if eqs next (status c) then s
      else ask (UpdateStatus next) (OStatus next) (notify [] (saving_cohort true (savingStartDate (flags s)) s))
  end.

(** Statuses that are asked about first. *)
Definition final_status (st : str) : bool := eqs st (js "archived") || eqs st (js "completed").

Definition handleSaveStatus (s : Page) : Page :=
  match cohort s with
  | None => s
  | Some c =>
      let next := editStatus (drafts s) in
      if eqs next (status c) then s
      else if final_status next then set_pending (Some next) s
      else updateCohortStatus next s
  end.

Definition confirm_status (s : Page) : Page :=
  match statusPendingConfirmation s with
  | None => s
  | Some st => set_pending None (updateCohortStatus st s)
  end.
Definition cancel_status (s : Page) : Page := set_pending None s.

Definition handleAddStudent (s : Page) : Page :=
  let f := studentForm s in
  if negb (truthy (trim (addStudentEmail f))) then s
  else ask (CreateUser (toLowerCase (trim (addStudentEmail f))) (or_undefined (trim (addStudentGithub f)))
              (negb (sendInvite f)))
         (OUser (addStudentEmail f)) (notify [] (saving_people true (resendingInviteFor (flags s)) s)).

Definition handleResendInvite (userId : Z) (mail : str) (s : Page) : Page :=
  ask (ResendInvite userId) (OResend mail) (notify [] (saving_people (addingStudent (flags s)) (Some userId) s)).

(** [updateForm]: the patch is applied to the form of the module. *)
Definition updateForm (moduleId : Z) (patch : ModuleForm → ModuleForm) (s : Page) : Page :=
  set_forms (<[moduleId := patch (default no_form (forms (drafts s) !! moduleId))]> (forms (drafts s)))
    (submissionWindows (drafts s)) s.

Definition updateSubmissionWindow (moduleId weekNumber : Z) (closeAt : str) (s : Page) : Page :=
  set_forms (forms (drafts s))
    (<[moduleId := map (λ w, if week_number w =? weekNumber
         then {| week_number := week_number w; submissions_close_at := closeAt;
                 submissions_closed := submissions_closed w; window_status := window_status w;
                 starts_on := starts_on w; ends_on := ends_on w; lessons_count := lessons_count w |}
         else w) (default [] (submissionWindows (drafts s) !! moduleId))]> (submissionWindows (drafts s))) s.

Definition saveRecordings (s : Page) : Page :=
  ask (UpdateRecordings (recordings (drafts s))) ORecordings
    (notify [] (saving_lists true (savingResources (flags s)) s)).
Definition saveClassResources (s : Page) : Page :=
  ask (UpdateResources (classResources (drafts s))) OResources
    (notify [] (saving_lists (savingRecordings (flags s)) true s)).

Definition windows_payload (l : list SubmissionWindowForm) : list (Z * option str) :=
  map (λ w, (week_number w, dateTimeInputToIso b (submissions_close_at w))) l.

Definition module_name (moduleId : Z) (s : Page) : str :=
  match cohort s with
  | Some c => match List.find (λ m, m_id m =? moduleId) (modules c) with
              | Some m => str_or (m_name m) (js "module") | None => js "module" end
  | None => js "module"
  end.

Definition access_payload (moduleId : Z) (f : ModuleForm) : AccessPayload := {|
  a_module_id := moduleId; a_assigned := true; a_unlocked := Some (unlocked f);
  a_start_date := Some (or_undefined (form_start_date f)); a_requires_github := Some (requires_github f);
  a_repository_name := Some (repository_name f) |}.

(** [saveModuleConfiguration]: without a form [saveModuleAccess] returns at once. *)
Definition saveModuleConfiguration (moduleId : Z) (s : Page) : Page :=
  let snapshot := default [] (submissionWindows (drafts s) !! moduleId) in
  match forms (drafts s) !! moduleId with
  | None => saving_module None s
  | Some f =>
      ask (UpdateAccess (access_payload moduleId f)) (OAccess moduleId snapshot (module_name moduleId s))
        (notify [] (saving_module (Some moduleId) s))
  end.

Definition saveOnlySubmissionWindows (moduleId : Z) (s : Page) : Page :=
  ask (UpdateWindows moduleId (windows_payload (default [] (submissionWindows (drafts s) !! moduleId))))
    (OWindows moduleId None) (saving_module (Some moduleId) s).

Definition GUAM : str := js "Pacific/Guam".

(** [emptyOfficeHourForm]: [hour] is the start of the next hour. *)
Definition emptyOfficeHourForm (hour : Z) : OfficeHourForm := {|
  f_title := js "Office Hours"; f_description := [];
  f_starts_at := toDateTimeInputValueInTimeZone b (Some (toISOString b hour)) GUAM;
  f_ends_at := toDateTimeInputValueInTimeZone b (Some (toISOString b (hour + HOUR))) GUAM;
  f_meeting_url := []; f_timezone := GUAM; f_recurrence := weekly; f_kind := office_hours_kind |}.

Definition resetOfficeHourForm (hour : Z) (s : Page) : Page := set_office (emptyOfficeHourForm hour) None s.

Definition editOfficeHour (o : OfficeHour) (s : Page) : Page :=
  let zone := str_or (oh_timezone o) GUAM in
  set_office {| f_title := oh_title o; f_description := or_empty (oh_description o);
    f_starts_at := toDateTimeInputValueInTimeZone b (Some (oh_starts_at o)) zone;
    f_ends_at := toDateTimeInputValueInTimeZone b (Some (oh_ends_at o)) zone;
    f_meeting_url := oh_meeting_url o; f_timezone := zone; f_recurrence := oh_recurrence o;
    f_kind := oh_kind o |} (Some (oh_id o)) s.

Definition office_payload (f : OfficeHourForm) : OfficePayload := {|
  p_title := trim (f_title f); p_description := or_undefined (trim (f_description f));
  p_starts_at := trim (f_starts_at f); p_ends_at := trim (f_ends_at f);
  p_meeting_url := trim (f_meeting_url f); p_timezone := str_or (f_timezone f) GUAM;
  p_recurrence := f_recurrence f; p_kind := f_kind f |}.

Definition OFFICE_TIMES : str := js "Office hours need a valid start and end time".

Definition saveOfficeHour (s : Page) : Page :=
  let f := officeHourForm s in
  if negb (truthy (trim (f_starts_at f))) || negb (truthy (trim (f_ends_at f))) then notify OFFICE_TIMES s
  else
    let s1 := saving_office true (deletingOfficeHourId (flags s)) s in
    match editingOfficeHourId s with
    | Some i => if i =? 0 then ask (CreateOfficeHour (office_payload f)) (OOffice false) s1
                else ask (UpdateOfficeHour i (office_payload f)) (OOffice true) s1
    | None => ask (CreateOfficeHour (office_payload f)) (OOffice false) s1
    end.

Definition deleteOfficeHour (i : Z) (s : Page) : Page :=
  ask (DeleteOfficeHour i) (OOfficeGone i (editingOfficeHourId s))
    (saving_office (savingOfficeHour (flags s)) (Some i) s).

Definition handleAddModule (s : Page) : Page :=
  match cohort s with
  | None => s
  | Some c =>
      let n := newModule s in
      if negb (truthy (trim (newModuleName n))) then s
      else ask (CreateModule (curriculum_id c) (trim (newModuleName n)) (newModuleType n)
                  (Z.of_nat (length (modules c)) + 1) (newModuleScheduleDays n))
             (OModule (trim (newModuleName n))) (notify [] (adding_module true s))
  end.

Definition assignModuleToCohort (moduleId : Z) (s : Page) : Page :=
  ask (UpdateAccess {| a_module_id := moduleId; a_assigned := true; a_unlocked := Some false;
         a_start_date := None; a_requires_github := None; a_repository_name := None |})
    (OAssign moduleId (module_name moduleId s)) (notify [] (saving_module (Some moduleId) s)).

Definition removeModuleFromCohort (moduleId : Z) (s : Page) : Page :=
  ask (UpdateAccess {| a_module_id := moduleId; a_assigned := false; a_unlocked := None;
         a_start_date := None; a_requires_github := None; a_repository_name := None |})
    (ORemove moduleId (module_name moduleId s)) (notify [] (saving_module (Some moduleId) s)).

(** ** Answers *)

(** The result of a request: an error, a cohort (when there is one), a user. *)
Inductive Reply := Failed (e : str) | GaveCohort (c : option Cohort) | GaveUser (u : option Z).

Definition reply_cohort (r : Reply) : option Cohort := match r with GaveCohort c => c | _ => None end.

Definition WINDOWS_FAILED : str :=
  js "Module access was saved, but submission windows could not be saved. Your window edits are still here; use Save windows to retry.".
Definition QUOTE : str := ["034"%char].

Definition no_module : NewModule :=
  {| newModuleName := []; newModuleType := js "prework"; newModuleScheduleDays := js "weekdays" |}.

(** After [reloadCohort]; [hour] is the time of [resetOfficeHourForm]. *)
Definition after_reload (i : nat) (hour : Z) (k : After) (s : Page) : Page :=
  let f := flags s in
  match k with
  | ThenNothing => returns i s
  | ThenStudent mail =>
      returns i (saving_people false (resendingInviteFor f)
        (set_student {| addStudentEmail := []; addStudentGithub := [];
                        sendInvite := sendInvite (studentForm s) |} false
           (notify (js "Added " ++ trim mail ++ js " to cohort") s)))
  | ThenWindows None => returns i (saving_module None (notify (js "Updated submission windows") s))
  | ThenWindows (Some (_, name)) =>
      returns i (saving_module None (notify (js "Updated configuration for " ++ name) s))
  | ThenKeepWindows moduleId snapshot =>
      returns i (saving_module None (notify WINDOWS_FAILED
        (set_forms (forms (drafts s)) (<[moduleId := snapshot]> (submissionWindows (drafts s))) s)))
  | ThenOffice edited =>
      returns i (saving_office false (deletingOfficeHourId f) (resetOfficeHourForm hour
        (notify (if edited then js "Updated scheduled session" else js "Added scheduled session") s)))
  | ThenOfficeGone j editing =>
      let s1 := notify (js "Removed scheduled session") s in
      returns i (saving_office (savingOfficeHour f) None
        (if bool_decide (editing = Some j) then resetOfficeHourForm hour s1 else s1))
  | ThenModule name =>
      returns i (set_module no_module false (adding_module false
        (notify (js "Created module " ++ QUOTE ++ name ++ QUOTE) s)))
  end.

Definition answer (i : nat) (hour : Z) (r : Reply) (s : Page) : Page :=
  let f := flags s in
  match ops s !! i with
  | None => s
  | Some o =>
      match o, r with
      | OReload k, _ => after_reload i hour k (done_loading (apply_opt (reply_cohort r) s))
      | OStartDate, Failed e => returns i (saving_cohort (savingStatus f) false (notify e s))
      | OStartDate, _ =>
          returns i (saving_cohort (savingStatus f) false
            match reply_cohort r with
            | Some c => notify (js "Cohort start date updated") (applyCohort c s) | None => s end)
      | OStatus _, Failed e => returns i (saving_cohort false (savingStartDate f) (notify e s))
      | OStatus st, _ =>
          returns i (saving_cohort false (savingStartDate f)
            match reply_cohort r with
            | Some c => notify (js "Cohort marked " ++ st) (applyCohort c s) | None => s end)
      | OUser _, Failed e => returns i (saving_people false (resendingInviteFor f) (notify e s))
      | OUser mail, GaveUser (Some u) =>
          if u =? 0
          then returns i (saving_people false (resendingInviteFor f) (notify (js "Failed to create user") s))
          else ask_next i (CreateEnrollment u) (OEnroll mail) s
      | OUser _, _ =>
          returns i (saving_people false (resendingInviteFor f) (notify (js "Failed to create user") s))
      | OEnroll _, Failed e =>
          returns i (saving_people false (resendingInviteFor f)
            (notify (js "User created but enrollment failed: " ++ e) s))
      | OEnroll mail, _ => reload_then i (ThenStudent mail) s
      | OResend _, Failed e =>
          returns i (saving_people (addingStudent f) None (notify (js "Failed to resend invite: " ++ e) s))
      | OResend mail, _ =>
          returns i (saving_people (addingStudent f) None (notify (js "Invite re-sent to " ++ mail) s))
      | OAccess _ _ _, Failed e => returns i (saving_module None (notify e s))
      | OAccess moduleId snapshot name, _ =>
          ask_next i (UpdateWindows moduleId (windows_payload snapshot))
            (OWindows moduleId (Some (snapshot, name))) s
      | OWindows _ None, Failed e => returns i (saving_module None (notify e s))
      | OWindows moduleId (Some (snapshot, _)), Failed _ =>
          reload_then i (ThenKeepWindows moduleId snapshot) s
      | OWindows moduleId config, _ =>
          reload_then i (ThenWindows match config with Some (_, n) => Some (moduleId, n) | None => None end) s
      | ORecordings, Failed e => returns i (saving_lists false (savingResources f) (notify e s))
      | ORecordings, _ =>
          returns i (saving_lists false (savingResources f)
            (notify (js "Updated class recordings") (apply_opt (reply_cohort r) s)))
      | OResources, Failed e => returns i (saving_lists (savingRecordings f) false (notify e s))
      | OResources, _ =>
          returns i (saving_lists (savingRecordings f) false
            (notify (js "Updated class resources") (apply_opt (reply_cohort r) s)))
      | OOffice _, Failed e => returns i (saving_office false (deletingOfficeHourId f) (notify e s))
      | OOffice edited, _ => reload_then i (ThenOffice edited) s
      | OOfficeGone _ _, Failed e => returns i (saving_office (savingOfficeHour f) None (notify e s))
      | OOfficeGone j editing, _ => reload_then i (ThenOfficeGone j editing) s
      | OModule _, Failed e =>
          returns i (adding_module false (notify (js "Failed to create module: " ++ e) s))
      | OModule name, _ => reload_then i (ThenModule name) s
      | OAssign _ _, Failed e | ORemove _ _, Failed e => returns i (saving_module None (notify e s))
      | OAssign moduleId name, _ =>
          returns i (set_configure (Some moduleId) (saving_module None
            (notify (js "Assigned " ++ name ++ js "; open Configure to adjust the start date if needed")
               (apply_opt (reply_cohort r) s))))
      | ORemove _ name, _ =>
          returns i (saving_module None
            (notify (js "Removed " ++ name ++ js " from cohort assignments") (apply_opt (reply_cohort r) s)))
      end
  end.

(** ** What is shown *)

(** Strings compare by code units. *)
Fixpoint str_ltb (x y : str) : bool :=
  match x, y with
  | _, [] => false
  | [], _ => true
  | c :: x, d :: y => if bool_decide (c = d) then str_ltb x y else (code c <? code d)%N
  end.

Definition unlocks_later (today : str) (m : Module_) : bool :=
  assigned m && match module_start_date m with
                | Some d => truthy d && str_ltb today d | None => false end.

Definition start_time (m : Module_) : Z := midnight b (or_empty (module_start_date m)).

Definition upcomingUnlocks (today : str) (c : Cohort) : list Module_ :=
  take 5 (js_sort (λ x y, start_time x - start_time y) (List.filter (unlocks_later today) (modules c))).

Definition onlineStudentsCount (now : Z) (c : Cohort) : nat :=
  length (List.filter (λ x, bool_decide (presenceStatus b (last_seen_at x) now = online)) (students c)).
Definition signedInStudentsCount (c : Cohort) : nat :=
  length (List.filter (λ x, negb (invite_pending x)) (students c)).

(** ** Events *)

Inductive event_ :=
| Opens | Seen (u : Z) (at_ : option str)
| EditsStartDate (d : str) | SavesStartDate | EditsStatus (st : str) | SavesStatus | Confirms | Cancels
| EditsStudent (f : StudentForm) | AddsStudent | Resends (u : Z) (mail : str)
| EditsForm (m : Z) (patch : ModuleForm → ModuleForm) | EditsWindow (m w : Z) (closeAt : str)
| SavesConfiguration (m : Z) | SavesWindows (m : Z)
| EditsRecordings (l : list Recording) | SavesRecordings
| EditsResources (l : list ClassResource) | SavesResources
| EditsOffice (f : OfficeHourForm) | PicksOffice (o : OfficeHour) | ResetsOffice (hour : Z) | SavesOffice
| DeletesOffice (i : Z)
| EditsModule (n : NewModule) | AddsModule | Assigns (m : Z) | Removes (m : Z) | Configures (m : option Z)
| Answers (i : nat) (hour : Z) (r : Reply).

Definition page_step (s : Page) (e : event_) : Page :=
  match e with
  | Opens => reload s
  | Seen u a => seen u a s
  | EditsStartDate d => set_edit d (editStatus (drafts s)) s
  | SavesStartDate => handleSaveStartDate s
  | EditsStatus st => set_edit (editStartDate (drafts s)) st s
  | SavesStatus => handleSaveStatus s
  | Confirms => confirm_status s
  | Cancels => cancel_status s
  | EditsStudent f => set_student f (showAddStudent s) s
  | AddsStudent => handleAddStudent s
  | Resends u m => handleResendInvite u m s
  | EditsForm m p => updateForm m p s
  | EditsWindow m w c => updateSubmissionWindow m w c s
  | SavesConfiguration m => saveModuleConfiguration m s
  | SavesWindows m => saveOnlySubmissionWindows m s
  | EditsRecordings l => set_lists l (classResources (drafts s)) s
  | SavesRecordings => saveRecordings s
  | EditsResources l => set_lists (recordings (drafts s)) l s
  | SavesResources => saveClassResources s
  | EditsOffice f => set_office f (editingOfficeHourId s) s
  | PicksOffice o => editOfficeHour o s
  | ResetsOffice h => resetOfficeHourForm h s
  | SavesOffice => saveOfficeHour s
  | DeletesOffice i => deleteOfficeHour i s
  | EditsModule n => set_module n (showAddModule s) s
  | AddsModule => handleAddModule s
  | Assigns m => assignModuleToCohort m s
  | Removes m => set_configure None (removeModuleFromCohort m s)
  | Configures m => set_configure m s
  | Answers i h r => answer i h r s
  end.

Definition run_page (es : list event_) (s : Page) : Page := fold_left page_step es s.

Definition no_flags : Flags := {|
  loading := true; savingModuleId := None; savingRecordings := false; savingResources := false;
  savingStatus := false; savingStartDate := false; addingStudent := false; resendingInviteFor := None;
  savingOfficeHour := false; deletingOfficeHourId := None; addingModule := false |}.

Definition opened_page (hour : Z) : Page := {|
  cohort := None; officeHours := [];
  drafts := {| forms := ∅; submissionWindows := ∅; recordings := []; classResources := [];
               editStartDate := []; editStatus := js "active" |};
  flags := no_flags; message := [];
  studentForm := {| addStudentEmail := []; addStudentGithub := []; sendInvite := true |};
  showAddStudent := false; statusPendingConfirmation := None;
  officeHourForm := emptyOfficeHourForm hour; editingOfficeHourId := None; configureModuleId := None;
  newModule := no_module; showAddModule := false; ops := []; requests := [] |}.

(** ** Statuses are changed on purpose *)

Definition is_status (r : Request) : bool := match r with UpdateStatus _ => true | _ => false end.

Lemma filter_snoc (r : Request) l :
  is_status r = false → List.filter is_status (l ++ [r]) = List.filter is_status l.
Proof. intros H. rewrite List.filter_app. cbn. by rewrite H, app_nil_r. Qed.

Lemma apply_requests c s : requests (apply_opt c s) = requests s.
Proof. by destruct c. Qed.

Lemma after_requests i h k s : requests (after_reload i h k s) = requests s.
Proof.
  destruct k as [| |[[]|]| | | |]; try done. cbn. by destruct (bool_decide _).
Qed.

Lemma answer_statuses i h r s :
  List.filter is_status (requests (answer i h r s)) = List.filter is_status (requests s).
Proof.
  unfold answer. destruct (ops s !! i) as [o|]; [|done].
  destruct o as [k| |st|mail|mail|mail|mi sn nm|mi [[sn nm]|]| | |ed|j ed|nm|mi nm|mi nm], r as [e|c|u]; try done;
    try (by destruct c); try (by apply filter_snoc); try (by cbn; rewrite after_requests).
  - cbn. rewrite after_requests. by destruct c.
  - destruct u as [u|]; [|done]. destruct (u =? 0); [done|]. by apply filter_snoc.
Qed.

Lemma answer_pending i h r s :
  statusPendingConfirmation (answer i h r s) = statusPendingConfirmation s.
Proof.
  unfold answer. destruct (ops s !! i) as [o|]; [|done].
  destruct o as [k| |st|mail|mail|mail|mi sn nm|mi [[sn nm]|]| | |ed|j ed|nm|mi nm|mi nm], r as [e|c|u]; try done;
    try (by destruct c); try (by destruct k as [| |[[]|]| | | |]; cbn; try done; destruct (bool_decide _));
    try (by destruct c, k as [| |[[]|]| | | |]; cbn; try done; destruct (bool_decide _)).
  destruct u as [u|]; [|done]. by destruct (u =? 0).
Qed.

Lemma status_request s e st :
  UpdateStatus st ∈ requests (page_step s e) →
  UpdateStatus st ∈ requests s
  ∨ (e = Confirms ∧ statusPendingConfirmation s = Some st)
  ∨ (e = SavesStatus ∧ final_status st = false).
Proof.
  assert (F : ∀ l l', List.filter is_status l = List.filter is_status l' →
    UpdateStatus st ∈ l → UpdateStatus st ∈ l').
  { intros l l' E H. assert (H' : UpdateStatus st ∈ List.filter is_status l) by (by apply elem_of_bfilter).
    rewrite E in H'. by apply elem_of_bfilter in H' as [H' _]. }
  destruct e; cbn [page_step]; intros H; try (by left); try (left; refine (F _ _ _ H); by apply filter_snoc).
  - left. unfold seen in H. destruct (cohort s) as [c|]; [|done]. by destruct (existsb _ _).
  - left. unfold handleSaveStartDate in H. destruct (editStartDate (drafts s)); [done|].
    refine (F _ _ _ H); by apply filter_snoc.
  - unfold handleSaveStatus in H. destruct (cohort s) as [c|] eqn:C; [|by left].
    destruct (eqs (editStatus (drafts s)) (status c)); [by left|].
    destruct (final_status (editStatus (drafts s))) eqn:Fi; [by left|].
    unfold updateCohortStatus in H. rewrite C in H. destruct (eqs _ _); [by left|]. cbn in H.
    apply elem_of_app in H as [H|H%list_elem_of_singleton]; [by left|]. injection H as ->. auto.
  - unfold confirm_status in H. destruct (statusPendingConfirmation s) as [p|] eqn:P; [|by left].
    unfold updateCohortStatus in H. cbn in H. destruct (cohort s); [|by left].
    destruct (eqs _ _); [by left|]. cbn in H.
    apply elem_of_app in H as [H|H%list_elem_of_singleton]; [by left|]. injection H as ->. auto.
  - left. unfold handleAddStudent in H. destruct (negb _); [done|]. refine (F _ _ _ H); by apply filter_snoc.
  - left. unfold saveModuleConfiguration in H. destruct (forms _ !! _); [|done].
    refine (F _ _ _ H); by apply filter_snoc.
  - left. unfold saveOfficeHour in H. destruct (negb _ || _); [done|].
    destruct (editingOfficeHourId s) as [i|]; [destruct (i =? 0)|];
      refine (F _ _ _ H); by apply filter_snoc.
  - left. unfold handleAddModule in H. destruct (cohort s); [|done]. destruct (negb _); [done|].
    refine (F _ _ _ H); by apply filter_snoc.
  - left. by apply (F _ _ (answer_statuses _ _ _ _) H).
Qed.

Lemma pending_step s e st :
  statusPendingConfirmation (page_step s e) = Some st →
  statusPendingConfirmation s = Some st ∨ (e = SavesStatus ∧ editStatus (drafts s) = st).
Proof.
  destruct e; cbn [page_step]; intros H; try (by left).
  - left. unfold seen in H. destruct (cohort s) as [c|]; [|done]. by destruct (existsb _ _).
  - left. unfold handleSaveStartDate in H. by destruct (editStartDate (drafts s)).
  - unfold handleSaveStatus, updateCohortStatus in H. destruct (cohort s) as [c|] eqn:C; [|by left].
    destruct (eqs _ _); [by left|]. destruct (final_status _); [|by left]. injection H as <-. auto.
  - left. unfold confirm_status in H. destruct (statusPendingConfirmation s) eqn:P; [done|]. congruence.
  - left. unfold handleAddStudent in H. by destruct (negb _).
  - left. unfold saveModuleConfiguration in H. by destruct (forms _ !! _).
  - left. unfold saveOfficeHour in H. destruct (negb _ || _); [done|].
    by destruct (editingOfficeHourId s) as [i|]; [destruct (i =? 0)|].
  - left. unfold handleAddModule in H. destruct (cohort s); [|done]. by destruct (negb _).
  - left. by rewrite answer_pending in H.
Qed.

(** C23: a cohort is completed or archived on purpose only. Whatever the user edits and
    saves and in whatever order the answers come, a request that marks the cohort completed
    or archived was confirmed in the dialog, which a press on save had opened for the very
    status that was chosen. *)
Theorem final_status_confirmed (hour : Z) (es : list event_) (st : str) :
  UpdateStatus st ∈ requests (run_page es (opened_page hour)) → final_status st = true →
  ∃ es1 es2 es3,
    es = es1 ++ SavesStatus :: es2 ++ Confirms :: es3
    ∧ editStatus (drafts (run_page es1 (opened_page hour))) = st
    ∧ statusPendingConfirmation (run_page (es1 ++ SavesStatus :: es2) (opened_page hour)) = Some st.
Proof.
  intros H Fi.
  assert (Pend : ∀ es, statusPendingConfirmation (run_page es (opened_page hour)) = Some st →
    ∃ es1 es2, es = es1 ++ SavesStatus :: es2 ∧ editStatus (drafts (run_page es1 (opened_page hour))) = st).
  { clear. induction es as [|e es IH] using rev_ind; [done|]. unfold run_page. rewrite fold_left_app. cbn.
    intros [H|[-> H]]%pending_step.
    - destruct (IH H) as (es1 & es2 & -> & E). exists es1, (es2 ++ [e]).
      split; [by rewrite <- app_assoc|done].
    - by exists es, []. }
  revert H. induction es as [|e es IH] using rev_ind; [by intros ?%not_elem_of_nil|].
  unfold run_page. rewrite fold_left_app. cbn. intros [H|[[-> H]|[_ H]]]%status_request; [| |congruence].
  - destruct (IH H) as (es1 & es2 & es3 & -> & E & P). exists es1, es2, (es3 ++ [e]).
    split_and!; [|done|done]. by rewrite <- !app_assoc; cbn; rewrite <- !app_assoc.
  - destruct (Pend es H) as (es1 & es2 & -> & E). exists es1, es2, [].
    split_and!; [|done|done]. by rewrite <- app_assoc.
Qed.

(** ** Forms follow the cohort *)

Lemma by_module_lookup {A} (f : Module_ → A) l acc i :
  (fold_left (λ acc m, <[m_id m := f m]> acc) l acc : gmap Z A) !! i
  = match List.find (λ m, m_id m =? i) (reverse l) with Some m => Some (f m) | None => acc !! i end.
Proof.
  revert acc. induction l as [|m l IH] using rev_ind; intros acc; [done|].
  rewrite fold_left_app, reverse_app. cbn.
  destruct (Z.eqb_spec (m_id m) i) as [->|H]; [by rewrite lookup_insert_eq|].
  by rewrite lookup_insert_ne.
Qed.

Lemma by_module_some {A} (f : Module_ → A) c m :
  m ∈ modules c → is_Some (by_module f c !! m_id m).
Proof.
  intros H. unfold by_module. rewrite by_module_lookup.
  destruct (List.find _ _) as [x|] eqn:E; [by eexists|].
  pose proof (List.find_none _ _ E m) as N. cbn in N. rewrite Z.eqb_refl in N.
  discriminate N. apply list_elem_of_In. by apply elem_of_reverse.
Qed.

(** Every module that is shown has its form and its windows. *)
Definition covered (s : Page) : Prop :=
  ∀ c m, cohort s = Some c → m ∈ modules c →
  is_Some (forms (drafts s) !! m_id m) ∧ is_Some (submissionWindows (drafts s) !! m_id m).

Lemma covered_applied c s : covered (applyCohort c s).
Proof.
  intros c' m [= <-] Hm. split.
  - exact (by_module_some (module_form c) c m Hm).
  - exact (by_module_some (λ m, map window_form (default [] (submission_windows m))) c m Hm).
Qed.

Lemma covered_frame s s' :
  cohort s' = cohort s → forms (drafts s') = forms (drafts s) →
  submissionWindows (drafts s') = submissionWindows (drafts s) → covered s → covered s'.
Proof. unfold covered. by intros -> -> ->. Qed.

Lemma covered_opt c s : covered s → covered (apply_opt c s).
Proof. destruct c; [intros _; apply covered_applied|done]. Qed.

Lemma covered_forms f w s :
  (∀ i, is_Some (forms (drafts s) !! i) → is_Some (f !! i)) →
  (∀ i, is_Some (submissionWindows (drafts s) !! i) → is_Some (w !! i)) →
  covered s → covered (set_forms f w s).
Proof. intros F W C c m Hc Hm. destruct (C c m Hc Hm). cbn. auto. Qed.

Lemma insert_some {A} (g : gmap Z A) k (x : A) i : is_Some (g !! i) → is_Some (<[k := x]> g !! i).
Proof. intros H. destruct (decide (k = i)) as [->|]; [by rewrite lookup_insert_eq|by rewrite lookup_insert_ne]. Qed.

Lemma after_covered i h k s : covered s → covered (after_reload i h k s).
Proof.
  intros C. destruct k as [| |[[]|]| | | |]; try (by eapply covered_frame; [.. | exact C]).
  - eapply covered_frame; [done|done|done|]. apply covered_forms; [done| |exact C]. intros. by apply insert_some.
  - cbn. destruct (bool_decide _); by eapply covered_frame; [.. | exact C].
Qed.

Lemma answer_covered i h r s : covered s → covered (answer i h r s).
Proof.
  intros C. unfold answer. destruct (ops s !! i) as [o|]; [|done].
  assert (A : ∀ s', cohort s' = cohort (apply_opt (reply_cohort r) s) →
    drafts s' = drafts (apply_opt (reply_cohort r) s) → covered s').
  { intros s' E1 E2. eapply covered_frame; [exact E1|by rewrite E2|by rewrite E2|]. by apply covered_opt. }
  destruct o as [k| |st|mail|mail|mail|mi sn nm|mi [[sn nm]|]| | |ed|j ed|nm|mi nm|mi nm], r as [e|c|u];
    try (by apply A); try (by eapply covered_frame; [.. | exact C]);
    try (by apply after_covered, A).
  - by destruct c; apply A.
  - by destruct c; apply A.
  - destruct u as [u|]; [destruct (u =? 0)|]; by eapply covered_frame; [.. | exact C].
Qed.

Lemma page_step_covered s e : covered s → covered (page_step s e).
Proof.
  intros C. destruct e; cbn [page_step]; try (by eapply covered_frame; [.. | exact C]).
  - unfold seen. destruct (cohort s) as [c|] eqn:Hc; [|done]. destruct (existsb _ _); [|done].
    intros c' m [= <-] Hm. by apply (C c m).
  - unfold handleSaveStartDate. destruct (editStartDate _); by eapply covered_frame; [.. | exact C].
  - unfold handleSaveStatus, updateCohortStatus. destruct (cohort s) as [c|] eqn:Hc; [|done].
    destruct (eqs _ _); [done|]. destruct (final_status _); by eapply covered_frame; [.. | exact C].
  - unfold confirm_status, updateCohortStatus. destruct (statusPendingConfirmation s); [|done].
    destruct (cohort s) as [c|] eqn:Hc; [destruct (eqs _ _)|]; by eapply covered_frame; [.. | exact C].
  - unfold handleAddStudent. destruct (negb _); by eapply covered_frame; [.. | exact C].
  - apply covered_forms; [|done|done]. intros. by apply insert_some.
  - apply covered_forms; [done| |done]. intros. by apply insert_some.
  - unfold saveModuleConfiguration. destruct (forms _ !! _); by eapply covered_frame; [.. | exact C].
  - unfold saveOfficeHour. destruct (negb _ || _); [by eapply covered_frame; [.. | exact C]|].
    destruct (editingOfficeHourId s) as [i|]; [destruct (i =? 0)|]; by eapply covered_frame; [.. | exact C].
  - unfold handleAddModule. destruct (cohort s) eqn:Hc; [|done].
    destruct (negb _); by eapply covered_frame; [.. | exact C].
  - by apply answer_covered.
Qed.

Lemma run_covered hour es : covered (run_page es (opened_page hour)).
Proof.
  unfold run_page. induction es as [|e es IH] using rev_ind; [done|]. rewrite fold_left_app.
  by apply page_step_covered.
Qed.

Definition WAITING (s : Page) : nat := length (ops s).

(** Saving the configuration of a module. For a module that is shown the request carries
    what its form has; the windows are sent after it was accepted, as they were edited when
    save was pressed; a refusal of the access changes nothing that is edited; and when the
    windows are refused, the edits are back in the form although the cohort was reloaded. *)
Theorem module_configuration_saved (hour h1 h2 h3 : Z) (es : list event_) (c : Cohort) (m : Module_)
    (e : str) (r1 : Reply) (c' : Cohort) :
  let s := run_page es (opened_page hour) in
  cohort s = Some c → m ∈ modules c → (∀ e, r1 ≠ Failed e) →
  ∃ f w, forms (drafts s) !! m_id m = Some f ∧ submissionWindows (drafts s) !! m_id m = Some w
    ∧ let s1 := saveModuleConfiguration (m_id m) s in
      let i := WAITING s in
      requests s1 = requests s ++ [UpdateAccess (access_payload (m_id m) f)]
      ∧ drafts (answer i h1 (Failed e) s1) = drafts s
      ∧ let s2 := answer i h1 r1 s1 in
        requests s2 = requests s1 ++ [UpdateWindows (m_id m) (windows_payload w)]
        ∧ let s3 := answer i h2 (Failed e) s2 in
          let s4 := answer i h3 (GaveCohort (Some c')) s3 in
          submissionWindows (drafts s4) !! m_id m = Some w
          ∧ savingModuleId (flags s4) = None ∧ message s4 = WINDOWS_FAILED
          ∧ ops s4 = ops s.
Proof.
  intros s Hc Hm Hr. destruct (run_covered hour es c m Hc Hm) as [[f Hf] [w Hw]].
  fold s in Hf, Hw. exists f, w. split_and!; [done|done|]. unfold saveModuleConfiguration. rewrite Hf, Hw.
  cbn zeta. set (s1 := ask _ _ _). assert (I : ∀ l (x : Op), (l ++ [x]) !! length l = Some x).
  { intros l x. by rewrite lookup_app_r, Nat.sub_diag. }
  assert (O1 : ops s1 !! WAITING s = Some (OAccess (m_id m) w (module_name (m_id m) s))) by apply I.
  split; [done|]. split; [unfold answer; by rewrite O1|].
  set (s2 := answer _ h1 r1 s1).
  assert (E2 : s2 = ask_next (WAITING s) (UpdateWindows (m_id m) (windows_payload w))
                      (OWindows (m_id m) (Some (w, module_name (m_id m) s))) s1).
  { unfold s2, answer. rewrite O1. cbn [default]. destruct r1; [by destruct (Hr e0)|done|done]. }
  rewrite E2. split; [done|].
  assert (U : ∀ l (x y : Op), <[length l := y]> (l ++ [x]) = l ++ [y]).
  { intros l x y. rewrite insert_app_r_alt by done. by rewrite Nat.sub_diag. }
  set (s2' := ask_next _ _ _ s1). set (n := module_name (m_id m) s) in *.
  assert (O2 : ops s2' = ops s ++ [OWindows (m_id m) (Some (w, n))]) by apply U.
  set (s3 := answer _ h2 _ s2').
  assert (E3 : s3 = reload_then (WAITING s) (ThenKeepWindows (m_id m) w) s2').
  { unfold s3, answer. rewrite O2. unfold WAITING. by rewrite I. }
  assert (O3 : ops s3 = ops s ++ [OReload (ThenKeepWindows (m_id m) w)]).
  { rewrite E3. unfold reload_then, ask_next. cbn [ops set_ops]. rewrite O2. apply U. }
  clearbody s3. unfold answer. rewrite O3. unfold WAITING. rewrite I. cbn. rewrite lookup_insert_eq, O3.
  split_and!; try done. clear. induction (ops s) as [|x l IH]; [done|]. cbn. by f_equal.
Qed.

(** ** The unlocks that come next *)

(** At most five modules are listed, all assigned and starting after today, in the order of
    their start; and no module that starts later today or after is left out for one that
    starts after it. *)
Theorem upcoming_unlocks_next (today : str) (c : Cohort) :
  let l := upcomingUnlocks today c in
  (length l <= 5)%nat
  ∧ (∀ m, m ∈ l → m ∈ modules c ∧ unlocks_later today m = true)
  ∧ StronglySorted (λ x y, start_time x <= start_time y) l
  ∧ (∀ m, m ∈ modules c → unlocks_later today m = true → m ∉ l → ∀ x, x ∈ l → start_time x <= start_time m).
Proof.
  intros l. set (f := List.filter (unlocks_later today) (modules c)).
  set (k := js_sort (λ x y, start_time x - start_time y) f).
  assert (S : StronglySorted (λ x y, start_time x <= start_time y) k).
  { assert (S : StronglySorted (λ x y, start_time x - start_time y <= 0) k).
    { apply (js_sort_sorted _ (λ _, True)); [|by apply Forall_forall]. split; intros; lia. }
    induction S as [|x r S IH F]; constructor; [done|]. eapply Forall_impl; [exact F|]. cbn. intros; lia. }
  assert (K : ∀ m, m ∈ k ↔ m ∈ modules c ∧ unlocks_later today m = true).
  { intros m. unfold k. rewrite js_sort_elem. apply elem_of_bfilter. }
  change l with (take 5 k). assert (T : k = take 5 k ++ drop 5 k) by (by rewrite take_drop).
  assert (Cut : ∀ n (q : list Module_), StronglySorted (λ x y, start_time x <= start_time y) q →
    StronglySorted (λ x y, start_time x <= start_time y) (take n q)
    ∧ ∀ x y, x ∈ take n q → y ∈ drop n q → start_time x <= start_time y).
  { clear. intros n q S. revert n. induction S as [|x r S IH F]; intros [|n]; cbn.
    - split; [constructor|]. by intros ? ? ?%not_elem_of_nil.
    - split; [constructor|]. by intros ? ? ?%not_elem_of_nil.
    - split; [constructor|]. by intros ? ? ?%not_elem_of_nil.
    - destruct (IH n) as [I1 I2]. rewrite Forall_forall in F. split.
      + constructor; [done|]. apply Forall_forall. intros y Hy. apply F.
        rewrite <- (take_drop n r). apply elem_of_app. by left.
      + intros y z [->|Hy]%elem_of_cons Hz; [|by apply I2]. apply F. rewrite <- (take_drop n r).
        apply elem_of_app. by right. }
  destruct (Cut 5%nat k S) as [C1 C2]. split_and!.
  - rewrite length_take. lia.
  - intros m Hm. apply K. rewrite T. apply elem_of_app. by left.
  - done.
  - intros m H1 H2 H3 x Hx. apply C2; [done|]. assert (Hk : m ∈ k) by (by apply K).
    rewrite T in Hk. by apply elem_of_app in Hk as [?|?].
Qed.

End Handlers.

(** ** An example *)

Definition sample_browser : Browser := {|
  Date_parse := λ s, Some (Z.of_nat (length s)); local_date := λ _, js "2026-01-05";
  midnight := λ s, Z.of_nat (length s); zone_input := λ _ _, js "2026-01-05T10:00";
  local_zone := js "Pacific/Guam"; toISOString := λ _, js "2026-01-05T00:00:00.000Z" |}.

Definition sample_module : Module_ := {|
  m_id := 4; m_name := js "Ruby"; assigned := true; unlocked_count := 0;
  module_start_date := Some (js "2026-02-01"); m_requires_github := None; m_repository_name := None;
  submission_windows := Some [{| mw_week := 1; mw_close_at := None; mw_closed := false; mw_status := open_;
    mw_starts_on := None; mw_ends_on := None; mw_lessons := None |}] |}.

Definition sample_cohort : Cohort := {|
  curriculum_id := 1; start_date := Some (js "2026-01-01"); status := js "active"; active_count := 2;
  c_recordings := None; class_resources := None; c_office_hours := None; students := [];
  modules := [sample_module] |}.

Definition sample_open : list event_ := [Opens; Answers 0 0 (GaveCohort (Some sample_cohort))].

Lemma final_status_confirmed_witness :
  ∃ es1 es2 es3,
    sample_open ++ [EditsStatus (js "archived"); SavesStatus; Confirms]
    = es1 ++ SavesStatus :: es2 ++ Confirms :: es3
    ∧ editStatus (drafts (run_page sample_browser es1 (opened_page sample_browser 0))) = js "archived"
    ∧ statusPendingConfirmation
        (run_page sample_browser (es1 ++ SavesStatus :: es2) (opened_page sample_browser 0))
      = Some (js "archived").
Proof.
  apply (final_status_confirmed sample_browser 0
    (sample_open ++ [EditsStatus (js "archived"); SavesStatus; Confirms]) (js "archived")).
  - replace (requests _) with [GetCohort; UpdateStatus (js "archived")] by (vm_compute; reflexivity).
    right. by left.
  - reflexivity.
Defined.

Lemma module_configuration_saved_witness :
  ∃ f w, forms (drafts (run_page sample_browser sample_open (opened_page sample_browser 0))) !! 4 = Some f
    ∧ submissionWindows (drafts (run_page sample_browser sample_open (opened_page sample_browser 0))) !! 4
      = Some w.
Proof.
  destruct (module_configuration_saved sample_browser 0 0 0 0 sample_open sample_cohort sample_module
    (js "offline") (GaveCohort None) sample_cohort) as (f & w & Hf & Hw & _).
  - vm_compute. reflexivity.
  - by left.
  - done.
  - by exists f, w.
Defined.

(** Saving one part of the page takes the edits of the others: recordings that were typed and
    not saved are gone once the start date was saved. *)
Lemma saving_discards_other_edits :
  let r := {| r_title := js "Week 1"; r_url := js "https://x"; r_date := None; r_description := None |} in
  let s := run_page sample_browser (sample_open ++ [EditsRecordings [r]; SavesStartDate])
             (opened_page sample_browser 0) in
  recordings (drafts s) = [r]
  ∧ recordings (drafts (page_step sample_browser s (Answers 0 0 (GaveCohort (Some sample_cohort))))) = [].
Proof. split; vm_compute; reflexivity. Qed.
