(* ===== verification/StudentDetail.v ===== *)
(** * The page of a student (web)

    [web/src/pages/admin/StudentDetail.tsx]: which enrollment is shown, the overrides of
    modules and lessons for one student, and restarting the class progress. As on the page of
    the cohort, a handler runs up to its next [await], kept in [ops], and [answer] goes on;
    [requests] records what was asked of the server. *)

From S2P Require Import Prelude.
From S2P Require Import Keyed.
From S2P Require Import CohortDetail.

Abbreviation Browser := CohortDetail.Browser.

(** ** Data *)

Record LessonAssignment := { la_id : Z; la_unlocked : bool; la_date : option str }.
Record Lesson := { l_id : Z; l_title : str; lesson_assignment : option LessonAssignment }.
Record Module_ := { mod_id : Z; mod_name : str; progress_percentage : Q; lessons : list Lesson }.
Record ModuleAssignment := {
  as_id : Z; as_module_id : Z; as_module_name : str; as_unlocked : bool; as_date : option str;
  as_available : bool; as_next : option str;
}.
Record ProgressData := {
  enrollment_id : Z; module_assignments : list ModuleAssignment;
  user_id : Z; full_name : str; email : str; github_username : option str; last_seen_at : option str;
  cohort_id : Z; cohort_name : str; modules : list Module_;
}.
Record Enrollment := { en_id : Z; en_cohort_id : Z; en_status : str; enrolled_at : option str }.

Record AssignmentForm := { af_unlocked : bool; af_date : str }.
Record LessonForm := { lf_id : option Z; lf_unlocked : bool; lf_date : str }.
Record UserForm := { first_name : str; last_name : str; form_email : str; github : str }.

Inductive Request :=
| GetUser (i : Z)
| GetProgress (i : Z) (cohort : option Z)
| UpdateModuleAssignment (i : Z) (unlocked : bool) (date : option str)
| CreateModuleAssignment (enrollment module : Z)
| DeleteModuleAssignment (i : Z)
| UpdateLessonAssignment (i lesson : Z) (unlocked : bool) (date : option str)
| CreateLessonAssignment (enrollment lesson : Z) (unlocked : bool) (date : option str)
| UpdateUser (i : Z) (first last git : option str)
| RestartEnrollment (enrollment : Z) (mail : str).

(** The requests in flight, with the cohort the handler saw when it began; [ORefresh] is the
    [getStudentProgress] that follows a change. *)
Inductive Kind :=
| SavedModule | SavedLesson | Created (module user : str) | Removed (module user : str) | SavedUser
| Restarted.

Inductive Op :=
| OUser | OLoad
| OModule (a : ModuleAssignment) (c : option Z) | OLesson (title : str) (c : option Z)
| OCreate (module user : str) (c : option Z) | ODelete (module user : str) (c : option Z)
| OSaveUser (c : option Z)
| OConfirm (d : ProgressData) | ORestart (d : ProgressData)
| ORefresh (k : Kind).

Record Flags := {
  loading : bool; savingAssignmentId : option Z; creatingModuleId : option Z;
  deletingAssignmentId : option Z; savingLessonId : option Z; savingUser : bool; restarting : bool;
}.

Record Page := {
  data : option ProgressData; error : str; expandedModules : list Z;
  assignmentForms : gmap Z AssignmentForm; lessonForms : gmap Z LessonForm;
  flags : Flags; message : str; editingUser : bool; editForm : UserForm;
  choice : option (list Enrollment);           (* [enrollmentRouteChoice] *)
  destination : option (Z * Z);                (* where [navigate] went: cohort and student *)
  ops : list Op; requests : list Request;
}.

Definition set_data (d : option ProgressData) (s : Page) : Page :=
  {| data := d; error := error s; expandedModules := expandedModules s;
     assignmentForms := assignmentForms s; lessonForms := lessonForms s; flags := flags s;
     message := message s; editingUser := editingUser s; editForm := editForm s; choice := choice s;
     destination := destination s; ops := ops s; requests := requests s |}.
Definition set_forms (a : gmap Z AssignmentForm) (l : gmap Z LessonForm) (s : Page) : Page :=
  {| data := data s; error := error s; expandedModules := expandedModules s; assignmentForms := a;
     lessonForms := l; flags := flags s; message := message s; editingUser := editingUser s;
     editForm := editForm s; choice := choice s; destination := destination s; ops := ops s;
     requests := requests s |}.
Definition set_flags (f : Flags) (s : Page) : Page :=
  {| data := data s; error := error s; expandedModules := expandedModules s;
     assignmentForms := assignmentForms s; lessonForms := lessonForms s; flags := f;
     message := message s; editingUser := editingUser s; editForm := editForm s; choice := choice s;
     destination := destination s; ops := ops s; requests := requests s |}.
Definition set_expanded (l : list Z) (s : Page) : Page :=
  {| data := data s; error := error s; expandedModules := l;
     assignmentForms := assignmentForms s; lessonForms := lessonForms s; flags := flags s;
     message := message s; editingUser := editingUser s; editForm := editForm s; choice := choice s;
     destination := destination s; ops := ops s; requests := requests s |}.
Definition notify (m : str) (s : Page) : Page :=
  {| data := data s; error := error s; expandedModules := expandedModules s;
     assignmentForms := assignmentForms s; lessonForms := lessonForms s; flags := flags s;
     message := m; editingUser := editingUser s; editForm := editForm s; choice := choice s;
     destination := destination s; ops := ops s; requests := requests s |}.
Definition set_user (b : bool) (f : UserForm) (s : Page) : Page :=
  {| data := data s; error := error s; expandedModules := expandedModules s;
     assignmentForms := assignmentForms s; lessonForms := lessonForms s; flags := flags s;
     message := message s; editingUser := b; editForm := f; choice := choice s;
     destination := destination s; ops := ops s; requests := requests s |}.
Definition set_route (e : str) (c : option (list Enrollment)) (d : option (Z * Z)) (s : Page) : Page :=
  {| data := data s; error := e; expandedModules := expandedModules s;
     assignmentForms := assignmentForms s; lessonForms := lessonForms s; flags := flags s;
     message := message s; editingUser := editingUser s; editForm := editForm s; choice := c;
     destination := d; ops := ops s; requests := requests s |}.
Definition set_ops (l : list Op) (r : list Request) (s : Page) : Page :=
  {| data := data s; error := error s; expandedModules := expandedModules s;
     assignmentForms := assignmentForms s; lessonForms := lessonForms s; flags := flags s;
     message := message s; editingUser := editingUser s; editForm := editForm s; choice := choice s;
     destination := destination s; ops := l; requests := r |}.

Definition ask (r : Request) (o : Op) (s : Page) : Page := set_ops (ops s ++ [o]) (requests s ++ [r]) s.
Definition ask_next (i : nat) (r : Request) (o : Op) (s : Page) : Page :=
  set_ops (<[i := o]> (ops s)) (requests s ++ [r]) s.
Definition returns (i : nat) (s : Page) : Page := set_ops (delete i (ops s)) (requests s) s.

Definition done_loading (s : Page) : Page :=
  let f := flags s in
  set_flags {| loading := false; savingAssignmentId := savingAssignmentId f;
    creatingModuleId := creatingModuleId f; deletingAssignmentId := deletingAssignmentId f;
    savingLessonId := savingLessonId f; savingUser := savingUser f; restarting := restarting f |} s.
Definition saving (m c d l : option Z) (u r : bool) (s : Page) : Page :=
  set_flags {| loading := loading (flags s); savingAssignmentId := m; creatingModuleId := c;
    deletingAssignmentId := d; savingLessonId := l; savingUser := u; restarting := r |} s.
Definition saving_assignment (m : option Z) (s : Page) : Page :=
  let f := flags s in saving m (creatingModuleId f) (deletingAssignmentId f) (savingLessonId f)
    (savingUser f) (restarting f) s.
Definition saving_lesson (l : option Z) (s : Page) : Page :=
  let f := flags s in saving (savingAssignmentId f) (creatingModuleId f) (deletingAssignmentId f) l
    (savingUser f) (restarting f) s.
Definition saving_create (c : option Z) (s : Page) : Page :=
  let f := flags s in saving (savingAssignmentId f) c (deletingAssignmentId f) (savingLessonId f)
    (savingUser f) (restarting f) s.
Definition saving_delete (d : option Z) (s : Page) : Page :=
  let f := flags s in saving (savingAssignmentId f) (creatingModuleId f) d (savingLessonId f)
    (savingUser f) (restarting f) s.
Definition saving_user (u : bool) (s : Page) : Page :=
  let f := flags s in saving (savingAssignmentId f) (creatingModuleId f) (deletingAssignmentId f)
    (savingLessonId f) u (restarting f) s.
Definition saving_restart (r : bool) (s : Page) : Page :=
  let f := flags s in saving (savingAssignmentId f) (creatingModuleId f) (deletingAssignmentId f)
    (savingLessonId f) (savingUser f) r s.

(** ** Forms *)

Section Page.
Context (b : Browser).

(** [new Date(s).toISOString().slice(0, 10)] throws on an invalid date. *)
Definition toDateInputValue (dateStr : option str) : option str :=
  match dateStr with
  | None | Some [] => Some []
  | Some s => (λ t, take 10 (CohortDetail.toISOString b t)) <$> CohortDetail.Date_parse b s
  end.

Definition assignment_form (a : ModuleAssignment) : option AssignmentForm :=
  d ← toDateInputValue (as_date a); Some {| af_unlocked := as_unlocked a; af_date := d |}.

Definition lesson_form (l : Lesson) : option LessonForm :=
  d ← toDateInputValue (x ← lesson_assignment l; la_date x);
  Some {| lf_id := la_id <$> lesson_assignment l;
          lf_unlocked := match lesson_assignment l with Some x => la_unlocked x | None => false end;
          lf_date := d |}.

(** A [forEach] that fills a record; [None] when one of the dates throws. *)
Definition fill {A F} (key : A → Z) (f : A → option F) (l : list A) : option (gmap Z F) :=
  fold_left (λ acc x, m ← acc; v ← f x; Some (<[key x := v]> m)) l (Some ∅).

Definition assignment_forms (d : ProgressData) : option (gmap Z AssignmentForm) :=
  fill as_id assignment_form (module_assignments d).
Definition all_lessons (d : ProgressData) : list Lesson := concat (map lessons (modules d)).
Definition lesson_forms (d : ProgressData) : option (gmap Z LessonForm) :=
  fill l_id lesson_form (all_lessons d).

(** The data and both sets of forms; what throws keeps the rest of the handler from running
    ([inr]). *)
Definition take_data (d : ProgressData) (s : Page) : Page + Page :=
  let s1 := set_data (Some d) s in
  match assignment_forms d with
  | None => inr s1
  | Some a =>
      let s2 := set_forms a (lessonForms s1) s1 in
      match lesson_forms d with
      | None => inr s2
      | Some l => inl (set_forms a l s2)
      end
  end.

(** ** Opening *)

(** What the address says: the student, [?cohort_id=] and [?legacy=1]. *)
Context (studentId : Z) (legacyCohortId : option Z) (legacyMode : bool).

Definition open_page (s : Page) : Page :=
  if negb legacyMode && negb (bool_decide (is_Some legacyCohortId)) then ask (GetUser studentId) OUser s
  else ask (GetProgress studentId legacyCohortId) OLoad s.

(** Active enrollments first, then the latest; [localeCompare] compares the dates. *)
Context (localeCompare : str → str → Z).

Definition is_active (e : Enrollment) : bool := eqs (en_status e) (js "active").
Definition enrollment_cmp (left right : Enrollment) : Z :=
  if is_active left && negb (is_active right) then -1
  else if is_active right && negb (is_active left) then 1
  else localeCompare (default [] (enrolled_at right)) (default [] (enrolled_at left)).

Definition NO_ENROLLMENT : str := js "This student does not have an enrollment workspace yet.".

Definition user_loaded (r : str + list Enrollment) (s : Page) : Page :=
  match r with
  | inl e => done_loading (set_route (str_or e (js "Failed to load student enrollments")) (choice s)
                             (destination s) s)
  | inr l =>
      match js_sort enrollment_cmp l with
      | [e] => set_route (error s) (choice s) (Some (en_cohort_id e, studentId)) s
      | [] => done_loading (set_route NO_ENROLLMENT (choice s) (destination s) s)
      | es => done_loading (set_route (error s) (Some es) (destination s) s)
      end
  end.

(** The module that is open at first. *)
Definition in_progress (m : Module_) : bool :=
  negb (Qle_bool (progress_percentage m) 0) && negb (Qle_bool 100 (progress_percentage m)).

Definition progress_loaded (r : str + ProgressData) (s : Page) : Page :=
  match r with
  | inl e => done_loading (set_route (str_or e (js "Failed to load student progress")) (choice s)
                             (destination s) s)
  | inr d =>
      if negb legacyMode then set_route (error s) (choice s) (Some (cohort_id d, user_id d)) s
      else match take_data d s with
           | inr s1 => s1
           | inl s1 =>
               done_loading match List.find in_progress (modules d) with
                            | Some m => set_expanded [mod_id m] s1
                            | None => s1 end
           end
  end.

Definition seen (user : Z) (at_ : option str) (s : Page) : Page :=
  match data s with
  | Some d =>
      if user =? studentId then
        set_data (Some {| enrollment_id := enrollment_id d; module_assignments := module_assignments d;
          user_id := user_id d; full_name := full_name d; email := email d;
          github_username := github_username d; last_seen_at := at_; cohort_id := cohort_id d;
          cohort_name := cohort_name d; modules := modules d |}) s
      else s
  | None => s
  end.

Definition toggleModule (m : Z) (s : Page) : Page :=
  set_expanded (if has (expandedModules s) m then List.filter (λ x, negb (x =? m)) (expandedModules s)
                else expandedModules s ++ [m]) s.

(** ** Overrides *)

Definition no_assignment_form : AssignmentForm := {| af_unlocked := false; af_date := [] |}.
Definition no_lesson_form : LessonForm := {| lf_id := None; lf_unlocked := false; lf_date := [] |}.

(** The patches of the forms: the checkbox and the date. *)
Definition updateAssignmentForm (i : Z) (u : option bool) (d : option str) (s : Page) : Page :=
  let f := default no_assignment_form (assignmentForms s !! i) in
  set_forms (<[i := {| af_unlocked := default (af_unlocked f) u; af_date := default (af_date f) d |}]>
               (assignmentForms s)) (lessonForms s) s.
Definition updateLessonAssignmentForm (i : Z) (u : option bool) (d : option str) (s : Page) : Page :=
  let f := default no_lesson_form (lessonForms s !! i) in
  set_forms (assignmentForms s)
    (<[i := {| lf_id := lf_id f; lf_unlocked := default (lf_unlocked f) u; lf_date := default (lf_date f) d |}]>
       (lessonForms s)) s.

Definition the_cohort (s : Page) : option Z :=
  match data s with Some d => if cohort_id d =? 0 then legacyCohortId else Some (cohort_id d)
                  | None => legacyCohortId end.
Definition refresh (i : nat) (c : option Z) (k : Kind) (s : Page) : Page :=
  ask_next i (GetProgress studentId c) (ORefresh k) s.

Definition saveAssignment (a : ModuleAssignment) (s : Page) : Page :=
  match assignmentForms s !! as_id a with
  | None => s
  | Some f =>
      ask (UpdateModuleAssignment (as_id a) (af_unlocked f) (or_undefined (af_date f))) (OModule a (the_cohort s))
        (notify [] (saving_assignment (Some (as_id a)) s))
  end.

Definition saveLessonAssignment (l : Lesson) (s : Page) : Page :=
  match lessonForms s !! l_id l, data s with
  | Some f, Some d =>
      let s1 := notify [] (saving_lesson (Some (l_id l)) s) in
      match lf_id f with
      | Some i => if i =? 0
                  then ask (CreateLessonAssignment (enrollment_id d) (l_id l) (lf_unlocked f)
                              (or_undefined (lf_date f))) (OLesson (l_title l) (the_cohort s)) s1
                  else ask (UpdateLessonAssignment i (l_id l) (lf_unlocked f) (or_undefined (lf_date f)))
                         (OLesson (l_title l) (the_cohort s)) s1
      | None => ask (CreateLessonAssignment (enrollment_id d) (l_id l) (lf_unlocked f)
                       (or_undefined (lf_date f))) (OLesson (l_title l) (the_cohort s)) s1
      end
  | _, _ => s
  end.

(** [prev.enrollment.module_assignments.map(...)] with what the server saved. *)
Definition patch_assignment (i : Z) (u : bool) (date : option str) (d : ProgressData) : ProgressData :=
  {| enrollment_id := enrollment_id d;
     module_assignments := map (λ a, if as_id a =? i then
         {| as_id := as_id a; as_module_id := as_module_id a; as_module_name := as_module_name a;
            as_unlocked := u; as_date := date; as_available := if u then as_available a else false;
            as_next := match date with Some x => if truthy x then Some x else as_next a | None => as_next a end |}
         else a) (module_assignments d);
     user_id := user_id d; full_name := full_name d; email := email d;
     github_username := github_username d; last_seen_at := last_seen_at d; cohort_id := cohort_id d;
     cohort_name := cohort_name d; modules := modules d |}.

Definition module_name (m : Z) (d : ProgressData) : str :=
  match List.find (λ x, mod_id x =? m) (modules d) with
  | Some x => str_or (mod_name x) (js "module") | None => js "module" end.

Definition createModuleAssignment (m : Z) (s : Page) : Page :=
  match data s with
  | None => s
  | Some d => ask (CreateModuleAssignment (enrollment_id d) m) (OCreate (module_name m d) (full_name d) (the_cohort s))
                (notify [] (saving_create (Some m) s))
  end.

Definition deleteModuleAssignment (a : ModuleAssignment) (s : Page) : Page :=
  match data s with
  | None => s
  | Some d => ask (DeleteModuleAssignment (as_id a)) (ODelete (as_module_name a) (full_name d) (the_cohort s))
                (notify [] (saving_delete (Some (as_id a)) s))
  end.

(** ** The student *)

Definition SPACE : ascii := " "%char.
(** [full_name.split(' ')]: the first part, and the rest joined again. *)
Definition edit_user (s : Page) : Page :=
  match data s with
  | None => s
  | Some d =>
      match split_on SPACE (full_name d) with
      | first :: rest =>
          set_user true {| first_name := first; last_name := join [SPACE] rest; form_email := email d;
                           github := default [] (github_username d) |} s
      | [] => s
      end
  end.

Definition submit_user (s : Page) : Page :=
  match data s with
  | None => s
  | Some d =>
      let f := editForm s in
      ask (UpdateUser (user_id d) (or_undefined (trim (first_name f))) (or_undefined (trim (last_name f)))
             (or_undefined (trim (github f)))) (OSaveUser (the_cohort s)) (notify [] (saving_user true s))
  end.

(** [restartEnrollment]: the question is asked first. *)
Definition restartEnrollment (s : Page) : Page :=
  match data s with
  | Some d => if restarting (flags s) then s else set_ops (ops s ++ [OConfirm d]) (requests s) s
  | None => s
  end.

(** ** Answers *)

Inductive Reply :=
| Failed (e : str)
| GaveUser (l : list Enrollment)
| GaveData (d : option ProgressData)
| GaveAssignment (x : option (bool * option str))
| Confirmed (yes : bool).

Definition reply_data (r : Reply) : option ProgressData := match r with GaveData d => d | _ => None end.

Definition RESTARTED : str :=
  js "Class progress restarted. An owned recovery plan and weekly follow-up are ready in the student workspace.".

(** The end of a handler after its refresh: the flags are reset, and some report only now. *)
Definition settle (k : Kind) (s : Page) : Page :=
  match k with
  | SavedModule => saving_assignment None s
  | SavedLesson => saving_lesson None s
  | Created m u => saving_create None (notify (js "Assigned " ++ m ++ js " to " ++ u) s)
  | Removed m u => saving_delete None (notify (js "Removed " ++ m ++ js " from " ++ u) s)
  | SavedUser => saving_user false s
  | Restarted => saving_restart false s
  end.

Definition refreshed (i : nat) (k : Kind) (r : Reply) (s : Page) : Page :=
  match k with
  | Restarted =>
      returns i (saving_restart false
        match r with
        | Failed e => notify (js "Progress restarted, but the refreshed student view could not load: " ++ e) s
        | _ => notify RESTARTED match reply_data r with Some d => set_data (Some d) s | None => s end
        end)
  | SavedUser => returns i (settle k match reply_data r with Some d => set_data (Some d) s | None => s end)
  | _ =>
      match reply_data r with
      | None => returns i (settle k s)
      | Some d => match take_data d s with
                  | inl s1 => returns i (settle k s1)
                  | inr s1 => returns i s1
                  end
      end
  end.

Definition answer (i : nat) (r : Reply) (s : Page) : Page :=
  match ops s !! i with
  | None => s
  | Some o =>
      match o, r with
      | OUser, Failed e => returns i (user_loaded (inl e) s)
      | OUser, GaveUser l => returns i (user_loaded (inr l) s)
      | OLoad, GaveData (Some d) => returns i (progress_loaded (inr d) s)
      | OLoad, Failed e => returns i (progress_loaded (inl e) s)
      | OModule _ _, Failed e => returns i (saving_assignment None (notify e s))
      | OModule a c, GaveAssignment x =>
          let s1 := match x, data s with
                    | Some (u, date), Some d => set_data (Some (patch_assignment (as_id a) u date d)) s
                    | _, _ => s end in
          refresh i c SavedModule (notify (js "Saved override for " ++ as_module_name a) s1)
      | OLesson _ _, Failed e => returns i (saving_lesson None (notify e s))
      | OLesson t c, GaveAssignment _ =>
          refresh i c SavedLesson (notify (js "Saved lesson override for " ++ t) s)
      | OCreate _ _ _, Failed e => returns i (saving_create None (notify e s))
      | OCreate m u c, GaveAssignment _ => refresh i c (Created m u) s
      | ODelete _ _ _, Failed e => returns i (saving_delete None (notify e s))
      | ODelete m u c, GaveAssignment _ => refresh i c (Removed m u) s
      | OSaveUser _, Failed e => returns i (saving_user false (notify (js "Failed to update: " ++ e) s))
      | OSaveUser c, GaveAssignment _ =>
          refresh i c SavedUser (set_user false (editForm s) (notify (js "Student updated") s))
      | OConfirm d, Confirmed yes =>
          if yes then ask_next i (RestartEnrollment (enrollment_id d) (email d)) (ORestart d)
                        (saving_restart true s)
          else returns i s
      | ORestart _, Failed e => returns i (saving_restart false (notify e s))
      | ORestart d, GaveAssignment _ =>
          ask_next i (GetProgress (user_id d) (Some (cohort_id d))) (ORefresh Restarted) s
      | ORefresh k, _ => refreshed i k r s
      | _, _ => s
      end
  end.

(** ** Events *)

Inductive event_ :=
| Opens | Seen (u : Z) (at_ : option str) | Toggles (m : Z)
| EditsAssignment (i : Z) (u : option bool) (d : option str) | SavesAssignment (a : ModuleAssignment)
| EditsLesson (i : Z) (u : option bool) (d : option str) | SavesLesson (l : Lesson)
| Creates (m : Z) | Deletes (a : ModuleAssignment)
| EditsUser | TypesUser (f : UserForm) | CancelsUser | SubmitsUser | Restarts
| Answers (i : nat) (r : Reply).

Definition student_step (s : Page) (e : event_) : Page :=
  match e with
  | Opens => open_page s
  | Seen u a => seen u a s
  | Toggles m => toggleModule m s
  | EditsAssignment i u d => updateAssignmentForm i u d s
  | SavesAssignment a => saveAssignment a s
  | EditsLesson i u d => updateLessonAssignmentForm i u d s
  | SavesLesson l => saveLessonAssignment l s
  | Creates m => createModuleAssignment m s
  | Deletes a => deleteModuleAssignment a s
  | EditsUser => edit_user s
  | TypesUser f => set_user (editingUser s) f s
  | CancelsUser => set_user false (editForm s) s
  | SubmitsUser => submit_user s
  | Restarts => restartEnrollment s
  | Answers i r => answer i r s
  end.

Definition run_student (es : list event_) (s : Page) : Page := fold_left student_step es s.

Definition opened_student : Page := {|
  data := None; error := []; expandedModules := []; assignmentForms := ∅; lessonForms := ∅;
  flags := {| loading := true; savingAssignmentId := None; creatingModuleId := None;
              deletingAssignmentId := None; savingLessonId := None; savingUser := false; restarting := false |};
  message := []; editingUser := false;
  editForm := {| first_name := []; last_name := []; form_email := []; github := [] |};
  choice := None; destination := None; ops := []; requests := [] |}.

(** ** Overrides go where the page shows them *)

Lemma fill_snoc {A F} (key : A → Z) (f : A → option F) l x :
  fill key f (l ++ [x]) = (m ← fill key f l; v ← f x; Some (<[key x := v]> m)).
Proof. unfold fill. by rewrite fold_left_app. Qed.

Lemma fill_lookup {A F} (key : A → Z) (f : A → option F) l m x :
  NoDup (map key l) → fill key f l = Some m → x ∈ l → m !! key x = f x.
Proof.
  revert m. induction l as [|y l IH] using rev_ind; intros m N E Hx; [by apply not_elem_of_nil in Hx|].
  rewrite fill_snoc in E. destruct (fill key f l) as [k|]; [|done]. cbn in E.
  destruct (f y) as [v|] eqn:Fy; [|done]. injection E as <-.
  rewrite map_app in N. apply NoDup_app in N as (N & D & _).
  apply elem_of_app in Hx as [Hx|Hx%list_elem_of_singleton].
  - rewrite lookup_insert_ne; [by apply IH|]. intros E. apply (D (key x)); [by apply list_elem_of_fmap_2|].
    rewrite <- E. by left.
  - subst x. by rewrite lookup_insert_eq.
Qed.

(** Data as the server gives it: lessons once, overrides with an identifier, valid dates. *)
Definition data_ok (d : ProgressData) : Prop :=
  NoDup (map l_id (all_lessons d))
  ∧ (∀ l x, l ∈ all_lessons d → lesson_assignment l = Some x → la_id x ≠ 0)
  ∧ is_Some (assignment_forms d) ∧ is_Some (lesson_forms d).

(** The form of every lesson that is shown names the override that is shown. *)
Record forms_ok (s : Page) : Prop := {
  fo_data : ∀ d, data s = Some d → ∀ l x, l ∈ all_lessons d → lesson_assignment l = Some x → la_id x ≠ 0;
  fo_forms : ∀ d l, data s = Some d → l ∈ all_lessons d →
    ∃ f, lessonForms s !! l_id l = Some f ∧ lf_id f = la_id <$> lesson_assignment l;
  fo_ops : Forall (λ o, match o with OSaveUser _ | OConfirm _ | ORestart _ | ORefresh SavedUser
                                   | ORefresh Restarted => False | _ => True end) (ops s);
}.

Definition ev_ok (e : event_) : Prop :=
  match e with
  | SubmitsUser | Restarts => False
  | Answers _ (GaveData (Some d)) => data_ok d
  | _ => True
  end.

Lemma taken_ok d s s1 : data_ok d → take_data d s = inl s1 →
  Forall (λ o, match o with OSaveUser _ | OConfirm _ | ORestart _ | ORefresh SavedUser
                          | ORefresh Restarted => False | _ => True end) (ops s) →
  forms_ok s1 ∧ ops s1 = ops s.
Proof.
  intros (N & Z0 & [a Ha] & [fl Hl]) E O. unfold take_data in E. rewrite Ha, Hl in E. injection E as <-.
  split; [|done]. split; cbn; [by intros d' [= <-]| |done]. intros d' l [= <-] Hin.
  pose proof (fill_lookup l_id lesson_form _ fl l N Hl Hin) as L.
  destruct (lesson_form l) as [f|] eqn:F.
  - exists f. split; [done|]. unfold lesson_form in F.
    destruct (toDateInputValue _); [|done]. cbn in F. by injection F as <-.
  - exfalso. clear -Hl F Hin. unfold lesson_forms in Hl. revert fl Hl.
    induction (all_lessons d) as [|y r IH] using rev_ind; intros fl Hl; [by apply not_elem_of_nil in Hin|].
    rewrite fill_snoc in Hl. destruct (fill l_id lesson_form r) as [k|]; [|done]. cbn in Hl.
    apply elem_of_app in Hin as [Hin|Hin%list_elem_of_singleton]; [by eapply IH|]. subst. by rewrite F in Hl.
Qed.

Lemma forms_frame s s' :
  (∀ d, data s' = Some d → ∃ d0, data s = Some d0 ∧ all_lessons d = all_lessons d0) →
  lessonForms s' = lessonForms s → ops s' = ops s → forms_ok s → forms_ok s'.
Proof.
  intros D L O [Z0 F P]. split; rewrite ?L, ?O; [| |done].
  - intros d Hd. destruct (D d Hd) as (d0 & Hd0 & ->). by apply Z0.
  - intros d l Hd. destruct (D d Hd) as (d0 & Hd0 & ->). by apply F.
Qed.

Lemma same_frame s s' :
  data s' = data s → lessonForms s' = lessonForms s → ops s' = ops s → forms_ok s → forms_ok s'.
Proof. intros D. apply forms_frame. intros d Hd. rewrite D in Hd. eauto. Qed.

Lemma forms_ops l r s :
  Forall (λ o, match o with OSaveUser _ | OConfirm _ | ORestart _ | ORefresh SavedUser
                          | ORefresh Restarted => False | _ => True end) l →
  forms_ok s → forms_ok (set_ops l r s).
Proof. intros H [Z0 F P]. by split. Qed.

Lemma returns_ok i s : forms_ok s → forms_ok (returns i s).
Proof. intros O. apply forms_ops; [|done]. apply Forall_delete, O. Qed.

Lemma refreshed_ok i k r s :
  ev_ok (Answers i r) → ops s !! i = Some (ORefresh k) → forms_ok s → forms_ok (refreshed i k r s).
Proof.
  intros Ev Hi O. pose proof (fo_ops s O) as P. rewrite Forall_forall in P.
  specialize (P _ (list_elem_of_lookup_2 _ _ _ Hi)). cbn in P.
  assert (G : forms_ok match reply_data r with
      | None => returns i (settle k s)
      | Some d => match take_data d s with inl s1 => returns i (settle k s1) | inr s1 => returns i s1 end
      end).
  { assert (S : ∀ s', forms_ok s' → forms_ok (returns i (settle k s'))).
    { intros s' O'. apply returns_ok. destruct k; by apply (same_frame s'). }
    destruct r as [| |[d|]| |]; cbn [reply_data]; try (by apply S).
    destruct (take_data d s) as [s1|s1] eqn:E.
    - apply S. by eapply taken_ok; [exact Ev|exact E|apply O].
    - exfalso. destruct Ev as (_ & _ & [a Ha] & [l Hl]). unfold take_data in E. by rewrite Ha, Hl in E. }
  by destruct k.
Qed.

Lemma answer_ok i r s : legacyMode = true → ev_ok (Answers i r) → forms_ok s → forms_ok (answer i r s).
Proof.
  intros L Ev O. unfold answer. destruct (ops s !! i) as [o|] eqn:Hi; [|done].
  assert (P := fo_ops s O). rewrite Forall_forall in P.
  specialize (P _ (list_elem_of_lookup_2 _ _ _ Hi)).
  assert (R : ∀ c k s', ops s' = ops s → forms_ok s' →
    match k with SavedUser | Restarted => False | _ => True end → forms_ok (refresh i c k s')).
  { intros c k s' E O' Hk. apply forms_ops; [|done]. rewrite E. apply Forall_insert; [apply O|]. by destruct k. }
  destruct o as [| |a c|t c|m u c|m u c|c|d|d|k]; try done.
  - destruct r as [e|l| | |]; try done; apply returns_ok; unfold user_loaded;
      [by apply (same_frame s)|]. destruct (js_sort _ l) as [|x [|y l']]; by apply (same_frame s).
  - destruct r as [e| |[d|]| |]; try done; apply returns_ok; [by apply (same_frame s)|].
    unfold progress_loaded. rewrite L. cbn [negb]. destruct (take_data d s) as [s1|s1] eqn:E.
    + destruct (taken_ok d s s1 Ev E ltac:(apply O)) as [O1 _].
      destruct (List.find _ _); by apply (same_frame s1).
    + exfalso. destruct Ev as (_ & _ & [a Ha] & [l Hl]). unfold take_data in E. by rewrite Ha, Hl in E.
  - destruct r as [e| | |x|]; try done; [apply returns_ok; by apply (same_frame s)|]. apply R; [| |done].
    + by destruct x as [[]|], (data s).
    + destruct x as [[u date]|]; [|by apply (same_frame s)]. destruct (data s) as [d|] eqn:D; [|by apply (same_frame s)].
      apply (forms_frame s); [|done|done|done]. intros d' [= <-]. by exists d.
  - destruct r as [e| | |x|]; try done; [apply returns_ok; by apply (same_frame s)|].
    apply R; [done| |done]. by apply (same_frame s).
  - destruct r as [e| | |x|]; try done; [apply returns_ok; by apply (same_frame s)|]. by apply R.
  - destruct r as [e| | |x|]; try done; [apply returns_ok; by apply (same_frame s)|]. by apply R.
  - by apply refreshed_ok.
Qed.

Lemma student_step_ok s e : legacyMode = true → ev_ok e → forms_ok s → forms_ok (student_step s e).
Proof.
  intros L Ev O. assert (A : ∀ r o s', data s' = data s → lessonForms s' = lessonForms s → ops s' = ops s →
    match o with OSaveUser _ | OConfirm _ | ORestart _ | ORefresh SavedUser | ORefresh Restarted => False
               | _ => True end → forms_ok (ask r o s')).
  { intros r o s' D F P Ho. apply forms_ops; [|by apply (same_frame s)]. rewrite P. apply Forall_app.
    split; [apply O|]. by apply Forall_singleton. }
  destruct e; cbn [student_step]; try done; try (by apply (same_frame s)).
  - unfold open_page. destruct (negb _ && _); by apply A.
  - unfold seen. destruct (data s) as [d|] eqn:D; [|done]. destruct (u =? studentId); [|done].
    apply (forms_frame s); [|done|done|done]. intros d' [= <-]. by exists d.
  - unfold saveAssignment. destruct (assignmentForms s !! _); [|done]. by apply A.
  - destruct O as [Z0 F P]. split; cbn; [done| |done]. intros d0 l Hd Hl.
    destruct (F d0 l Hd Hl) as (f & Hf & Hid). destruct (decide (l_id l = i)) as [<-|Hi].
    + rewrite lookup_insert_eq, Hf. cbn. eauto.
    + rewrite lookup_insert_ne by done. eauto.
  - unfold saveLessonAssignment. destruct (lessonForms s !! _) as [f|]; [|done]. destruct (data s) eqn:D; [|done].
    cbn zeta. destruct (lf_id f) as [j|]; [destruct (j =? 0)|]; by apply A; rewrite <- ?D.
  - unfold createModuleAssignment. destruct (data s) eqn:D; [|done]. by apply A; rewrite <- ?D.
  - unfold deleteModuleAssignment. destruct (data s) eqn:D; [|done]. by apply A; rewrite <- ?D.
  - unfold edit_user. destruct (data s) eqn:D; [|done]. destruct (split_on _ _); [done|]. by apply (same_frame s).
  - by apply answer_ok.
Qed.

(** A lesson override is saved where the page shows it. Whatever was edited, saved,
    assigned and removed before (without restarting the student or changing their name), a
    press on save updates the override that is shown for the lesson, and makes one only
    where none is shown: no second override for a lesson, none of another lesson. *)
Theorem lesson_override_target (es : list event_) (d : ProgressData) (l : Lesson) :
  legacyMode = true → Forall ev_ok es →
  let s := run_student es opened_student in
  data s = Some d → l ∈ all_lessons d →
  ∃ u date, requests (saveLessonAssignment l s) = requests s ++
    [match lesson_assignment l with
     | Some x => UpdateLessonAssignment (la_id x) (l_id l) u date
     | None => CreateLessonAssignment (enrollment_id d) (l_id l) u date
     end].
Proof.
  intros L Ev s Hd Hl. assert (O : forms_ok s).
  { unfold s, run_student. clear -L Ev.
    assert (G : forms_ok opened_student) by (by split).
    revert G. generalize opened_student. induction Ev as [|e es He Ev IH]; intros s0 G; [done|].
    apply IH. by apply student_step_ok. }
  destruct (fo_forms s O d l Hd Hl) as (f & Hf & Hid). unfold saveLessonAssignment. rewrite Hf, Hd, Hid.
  destruct (lesson_assignment l) as [x|] eqn:X; cbn [fmap option_fmap option_map].
  - destruct (Z.eqb_spec (la_id x) 0) as [E|_]; [by destruct (fo_data s O d Hd l x Hl X)|]. by eexists _, _.
  - by eexists _, _.
Qed.

End Page.

(** ** An example *)

Definition sample_lesson (a : option LessonAssignment) : Lesson :=
  {| l_id := 20; l_title := js "Loops"; lesson_assignment := a |}.
Definition sample_data (a : option LessonAssignment) : ProgressData := {|
  enrollment_id := 3; module_assignments := []; user_id := 5; full_name := js "Ana Maria Cruz";
  email := js "ana@csg"; github_username := Some (js "ana"); last_seen_at := None; cohort_id := 7;
  cohort_name := js "C1";
  modules := [{| mod_id := 1; mod_name := js "Ruby"; progress_percentage := 50; lessons := [sample_lesson a] |}] |}.

Definition shown : option LessonAssignment := Some {| la_id := 8; la_unlocked := true; la_date := None |}.

Definition sample_run (es : list event_) : Page :=
  run_student CohortDetail.sample_browser 5 (Some 7) true (λ _ _, 0) es opened_student.
Definition sample_open : list event_ := [Opens; Answers 0 (GaveData (Some (sample_data shown)))].

Lemma lesson_override_target_witness :
  ∃ u date, requests (saveLessonAssignment (Some 7) (sample_lesson shown) (sample_run sample_open))
    = requests (sample_run sample_open) ++ [UpdateLessonAssignment 8 20 u date].
Proof.
  apply (lesson_override_target CohortDetail.sample_browser 5 (Some 7) true (λ _ _, 0) sample_open
    (sample_data shown) (sample_lesson shown)).
  - reflexivity.
  - repeat constructor.
    + by intros ?%not_elem_of_nil.
    + intros l x Hl. apply list_elem_of_singleton in Hl as ->. by intros [= <-].
    + vm_compute. by eexists.
    + vm_compute. by eexists.
  - vm_compute. reflexivity.
  - by left.
Defined.

(** Restarting the student removes the overrides on the server and is shown at once, but the
    forms keep them: saving a lesson then asks for a change of an override that is gone. *)
Lemma restart_keeps_old_forms :
  let s := sample_run (sample_open ++ [Restarts; Answers 0 (Confirmed true); Answers 0 (GaveAssignment None);
                                       Answers 0 (GaveData (Some (sample_data None)))]) in
  data s = Some (sample_data None)
  ∧ requests (saveLessonAssignment (Some 7) (sample_lesson None) s)
    = requests s ++ [UpdateLessonAssignment 8 20 true None].
Proof. split; vm_compute; reflexivity. Qed.

(** Clearing the GitHub name sends nothing of it, and the page reports that it was saved. *)
Lemma github_name_not_cleared :
  let s := sample_run (sample_open ++ [EditsUser;
             TypesUser {| first_name := js "Ana"; last_name := js "Cruz"; form_email := []; github := [] |};
             SubmitsUser; Answers 0 (GaveAssignment None)]) in
  List.last (take 2 (requests s)) (GetUser 0) = UpdateUser 5 (Some (js "Ana")) (Some (js "Cruz")) None
  ∧ message s = js "Student updated".
Proof. split; vm_compute; reflexivity. Qed.
