(* ===== verification/RecordingLibrary.v ===== *)
(** * The recordings of a cohort (web)

    [web/src/components/admin/RecordingUploadManager.tsx]: the files that were chosen, their
    titles, and the uploads they become in the queue of [UploadQueue]; the recordings that
    are there, edited and deleted.

    [accepted], [launched] and [dropped] record what became of the files that were chosen. *)

From S2P Require Import Prelude.
From S2P Require Import Keyed.
From S2P Require Import Upload.
From S2P Require Import UploadQueue.
From S2P Require Import Url.

Record File := { f_name : str; f_size : Z; f_type : str }.

(** [crypto.randomUUID()] gives identifiers that are compared only: integers. *)
Record RecordingDraft := {
  d_id : Z; d_file : File; d_title : str; d_description : str; d_recordedDate : str; d_error : option str;
}.

Record S3Recording := {
  rec_id : Z; rec_title : str; rec_description : option str; rec_date : option str;
  duration_display : option str; file_size_display : str;
}.

Record ExternalRecording := { e_title : str; e_url : str; e_date : option str; e_description : option str }.

Record EditForm := { editingId : option Z; editTitle : str; editDescription : str; editDate : str; savingEdit : bool }.

Inductive Request :=
| GetRecordings
| DeleteRecording (i : Z)
| UpdateRecording (i : Z) (title description : str) (date : option str).

Record Manager := {
  recordings : list S3Recording; loading : bool; showUploadForm : bool;
  uploadDrafts : list RecordingDraft; error : option str; statusMessage : option str;
  edit : EditForm;
  confirming : list Z;                         (* deletions that are being asked about *)
  queue : UploadQueue.State;
  requests : list Request;
  accepted : list Z; launched : list (Z * RecordingDraft); dropped : list Z;
}.

Definition set_list (l : list S3Recording) (b : bool) (s : Manager) : Manager :=
  {| recordings := l; loading := b; showUploadForm := showUploadForm s; uploadDrafts := uploadDrafts s;
     error := error s; statusMessage := statusMessage s; edit := edit s; confirming := confirming s;
     queue := queue s; requests := requests s; accepted := accepted s; launched := launched s;
     dropped := dropped s |}.
Definition set_form (b : bool) (e m : option str) (s : Manager) : Manager :=
  {| recordings := recordings s; loading := loading s; showUploadForm := b; uploadDrafts := uploadDrafts s;
     error := e; statusMessage := m; edit := edit s; confirming := confirming s;
     queue := queue s; requests := requests s; accepted := accepted s; launched := launched s;
     dropped := dropped s |}.
Definition set_uploads (l : list RecordingDraft) (a : list Z) (la : list (Z * RecordingDraft)) (dr : list Z)
    (s : Manager) : Manager :=
  {| recordings := recordings s; loading := loading s; showUploadForm := showUploadForm s; uploadDrafts := l;
     error := error s; statusMessage := statusMessage s; edit := edit s; confirming := confirming s;
     queue := queue s; requests := requests s; accepted := a; launched := la; dropped := dr |}.
Definition set_drafts (l : list RecordingDraft) (s : Manager) : Manager :=
  set_uploads l (accepted s) (launched s) (dropped s) s.
Definition set_edit (e : EditForm) (s : Manager) : Manager :=
  {| recordings := recordings s; loading := loading s; showUploadForm := showUploadForm s;
     uploadDrafts := uploadDrafts s; error := error s; statusMessage := statusMessage s; edit := e;
     confirming := confirming s; queue := queue s; requests := requests s; accepted := accepted s;
     launched := launched s; dropped := dropped s |}.
Definition set_confirming (l : list Z) (s : Manager) : Manager :=
  {| recordings := recordings s; loading := loading s; showUploadForm := showUploadForm s;
     uploadDrafts := uploadDrafts s; error := error s; statusMessage := statusMessage s; edit := edit s;
     confirming := l; queue := queue s; requests := requests s; accepted := accepted s;
     launched := launched s; dropped := dropped s |}.
Definition set_queue (q : UploadQueue.State) (s : Manager) : Manager :=
  {| recordings := recordings s; loading := loading s; showUploadForm := showUploadForm s;
     uploadDrafts := uploadDrafts s; error := error s; statusMessage := statusMessage s; edit := edit s;
     confirming := confirming s; queue := q; requests := requests s; accepted := accepted s;
     launched := launched s; dropped := dropped s |}.
Definition ask (r : Request) (s : Manager) : Manager :=
  {| recordings := recordings s; loading := loading s; showUploadForm := showUploadForm s;
     uploadDrafts := uploadDrafts s; error := error s; statusMessage := statusMessage s; edit := edit s;
     confirming := confirming s; queue := queue s; requests := requests s ++ [r]; accepted := accepted s;
     launched := launched s; dropped := dropped s |}.

Definition set_error (e : option str) (s : Manager) : Manager :=
  set_form (showUploadForm s) e (statusMessage s) s.

(** ** Choosing files *)

Definition MAX_SIZE : Z := 5 * 1024 * 1024 * 1024.

Definition is_dot (c : ascii) : bool := bool_decide (c = "."%char).

(** [name.replace(/\.[^.]+$/, '')] *)
Definition without_extension (name : str) : str :=
  match take_while (λ c, negb (is_dot c)) (reverse name), drop_while (λ c, negb (is_dot c)) (reverse name) with
  | _ :: _, _ :: base => reverse base
  | _, _ => name
  end.

Definition title_of (name : str) : str :=
  map (λ c, if bool_decide (c = "_"%char) || bool_decide (c = "-"%char) then " "%char else c)
    (without_extension name).

(** Why a file is refused. *)
Definition refused (f : File) : option str :=
  if negb (startsWith (f_type f) (js "video/")) then Some (f_name f ++ js ": not a video file")
  else if MAX_SIZE <? f_size f then Some (f_name f ++ js ": file must be under 5 GB")
  else None.

Definition new_draft (i : Z) (f : File) : RecordingDraft :=
  {| d_id := i; d_file := f; d_title := title_of (f_name f); d_description := []; d_recordedDate := [];
     d_error := None |}.

(** The [forEach] of [appendFiles]: the drafts and the errors. *)
Fixpoint sift (files : list (Z * File)) : list RecordingDraft * list str :=
  match files with
  | [] => ([], [])
  | (i, f) :: rest =>
      let '(ds, es) := sift rest in
      match refused f with Some e => (ds, e :: es) | None => (new_draft i f :: ds, es) end
  end.

Definition SEPARATOR : str := [" "%char; "183"%char; " "%char].

Definition appendFiles (files : list (Z * File)) (s : Manager) : Manager :=
  match files with
  | [] => s
  | _ =>
      let '(next, errors) := sift files in
      let s1 := match next with
                | [] => s
                | _ => set_form true (error s) None
                         (set_uploads (uploadDrafts s ++ next) (accepted s ++ map d_id next) (launched s) (dropped s) s)
                end in
      set_error (match errors with [] => None | _ => Some (join SEPARATOR errors) end) s1
  end.

Definition updateDraft (i : Z) (patch : RecordingDraft → RecordingDraft) (s : Manager) : Manager :=
  set_drafts (map (λ d, if d_id d =? i then patch d else d) (uploadDrafts s)) s.

Definition without_draft (i : Z) (l : list RecordingDraft) : list RecordingDraft :=
  List.filter (λ d, negb (d_id d =? i)) l.

Definition removeDraft (i : Z) (s : Manager) : Manager :=
  set_uploads (without_draft i (uploadDrafts s)) (accepted s) (launched s)
    (dropped s ++ map d_id (List.filter (λ d, d_id d =? i) (uploadDrafts s))) s.

Definition clearDrafts (s : Manager) : Manager :=
  set_form false None None
    (set_uploads [] (accepted s) (launched s) (dropped s ++ map d_id (uploadDrafts s)) s).

(** What the form of a draft can change. *)
Record DraftEdit := { new_title : option str; new_description : option str; new_date : option str }.
Definition edited (e : DraftEdit) (d : RecordingDraft) : RecordingDraft :=
  {| d_id := d_id d; d_file := d_file d; d_title := default (d_title d) (new_title e);
     d_description := default (d_description d) (new_description e);
     d_recordedDate := default (d_recordedDate d) (new_date e);
     d_error := match new_title e with Some _ => None | None => d_error d end |}.

Definition TITLE_REQUIRED : str := js "Title is required".
Definition with_error (e : option str) (d : RecordingDraft) : RecordingDraft :=
  {| d_id := d_id d; d_file := d_file d; d_title := d_title d; d_description := d_description d;
     d_recordedDate := d_recordedDate d; d_error := e |}.

(** ** Uploading *)

Section Cohort.
Context (cohortId : Z).

Definition titled (d : RecordingDraft) : bool := truthy (trim (d_title d)).

(** The options given to [startVideoUpload]. *)
Definition upload_opts (d : RecordingDraft) : UploadStartOpts := {|
  o_contentBlockId := None; o_deferPersistence := None;
  o_cohortRecording := Some {| UploadQueue.cohortId := cohortId; UploadQueue.title := trim (d_title d);
                               UploadQueue.description := or_undefined (trim (d_description d));
                               UploadQueue.recordedDate := or_undefined (d_recordedDate d) |};
  o_linkTo := Some (js "/admin/cohorts/" ++ str_of_Z cohortId);
  o_linkLabel := Some (js "Recording: " ++ trim (d_title d)) |}.

Definition start_action (uuid : Z) (d : RecordingDraft) : UploadQueue.action :=
  UploadQueue.Start uuid (f_name (d_file d)) (f_size (d_file d)) (f_type (d_file d)) (upload_opts d).

Definition TAIL : str := js " You can use the app while it uploads, but keep this browser tab open.".
Definition TAILS : str := js " You can use the app while they upload, but keep this browser tab open.".

Definition launchDraftUpload (announce : bool) (uuid : Z) (d : RecordingDraft) (s : Manager) : Manager :=
  if negb (titled d) then updateDraft (d_id d) (with_error (Some TITLE_REQUIRED)) s
  else
    let s1 := set_form (showUploadForm s) None
                (if announce then Some (js "Started " ++ trim (d_title d) ++ js "." ++ TAIL)
                 else statusMessage s) s in
    set_queue (UploadQueue.step (start_action uuid d) (queue s1))
      (set_uploads (without_draft (d_id d) (uploadDrafts s1)) (accepted s1)
         (launched s1 ++ [(uuid, d)]) (dropped s1) s1).

(** [startableDrafts.forEach(...)]; [uuid] gives the identifiers of the uploads. *)
Fixpoint launch_all (uuid : nat → Z) (n : nat) (l : list RecordingDraft) (s : Manager) : Manager :=
  match l with
  | [] => s
  | d :: l => launch_all uuid (S n) l (launchDraftUpload false (uuid n) d s)
  end.

Definition startAllUploads (uuid : nat → Z) (s : Manager) : Manager :=
  let invalid := map d_id (List.filter (λ d, negb (titled d)) (uploadDrafts s)) in
  let startable := List.filter titled (uploadDrafts s) in
  let s1 := match invalid with
            | [] => set_error None s
            | [_] => set_error (Some (js "Add a title for the highlighted recording before starting uploads."))
                       (set_drafts (map (λ d, if has invalid (d_id d) then with_error (Some TITLE_REQUIRED) d
                                              else d) (uploadDrafts s)) s)
            | _ => set_error (Some (js "Add titles for the highlighted recordings before starting uploads."))
                     (set_drafts (map (λ d, if has invalid (d_id d) then with_error (Some TITLE_REQUIRED) d
                                            else d) (uploadDrafts s)) s)
            end in
  match startable with
  | [] => s1
  | [d] => launch_all uuid 0 startable
             (set_form (showUploadForm s1) (error s1) (Some (js "Started " ++ trim (d_title d) ++ js "." ++ TAIL)) s1)
  | _ => launch_all uuid 0 startable
           (set_form (showUploadForm s1) (error s1)
              (Some (js "Started " ++ str_of_Z (Z.of_nat (length startable)) ++ js " uploads." ++ TAILS)) s1)
  end.

(** ** Recordings *)

Inductive Reply := Refused (e : str) | Listed (l : option (list S3Recording)) | Fine.

Definition fetchRecordings (s : Manager) : Manager := ask GetRecordings s.
Definition fetched (r : Reply) (s : Manager) : Manager :=
  match r with
  | Refused e => set_list (recordings s) false (set_error (Some e) s)
  | Listed (Some l) => set_list l false (set_error None s)
  | _ => set_list (recordings s) false s
  end.

(** [handleDelete] asks first. *)
Definition handleDelete (i : Z) (s : Manager) : Manager := set_confirming (confirming s ++ [i]) s.
Definition delete_confirmed (i : Z) (yes : bool) (s : Manager) : Manager :=
  if has (confirming s) i then
    let s1 := set_confirming (List.filter (λ j, negb (j =? i)) (confirming s)) s in
    if yes then ask (DeleteRecording i) s1 else s1
  else s.
Definition deleted (r : Reply) (s : Manager) : Manager :=
  match r with Refused e => set_error (Some e) s | _ => fetchRecordings s end.

(** [rec.recorded_date.split('T')[0]] *)
Definition day_of (d : option str) : str :=
  match d with Some s => if truthy s then take_while (λ c, negb (bool_decide (c = "T"%char))) s else [] | None => [] end.

Definition startEdit (r : S3Recording) (s : Manager) : Manager :=
  set_edit {| editingId := Some (rec_id r); editTitle := rec_title r;
              editDescription := default [] (rec_description r); editDate := day_of (rec_date r);
              savingEdit := savingEdit (edit s) |} s.

Definition saving (b : bool) (e : EditForm) : EditForm :=
  {| editingId := editingId e; editTitle := editTitle e; editDescription := editDescription e;
     editDate := editDate e; savingEdit := b |}.

Definition saveEdit (s : Manager) : Manager :=
  let e := edit s in
  match editingId e with
  | None => s
  | Some i =>
      if (i =? 0) || negb (truthy (trim (editTitle e))) || savingEdit e then s
      else ask (UpdateRecording i (trim (editTitle e)) (trim (editDescription e)) (or_undefined (editDate e)))
             (set_edit (saving true e) s)
  end.
Definition edit_saved (r : Reply) (s : Manager) : Manager :=
  match r with
  | Refused e => set_edit (saving false (edit s)) (set_error (Some e) s)
  | _ => fetchRecordings (set_edit (saving false
           {| editingId := None; editTitle := editTitle (edit s); editDescription := editDescription (edit s);
              editDate := editDate (edit s); savingEdit := savingEdit (edit s) |}) s)
  end.

(** ** What is shown *)

Definition GIGA : Q := inject_Z (1024 * 1024 * 1024).
Definition MEGA : Q := inject_Z (1024 * 1024).
Definition formatSize (bytes : Z) : str :=
  if 1024 * 1024 * 1024 <=? bytes then Upload.Sizes.toFixed (inject_Z bytes / GIGA) 1 ++ js " GB"
  else if 1024 * 1024 <=? bytes then Upload.Sizes.toFixed (inject_Z bytes / MEGA) 1 ++ js " MB"
  else Upload.Sizes.toFixed (inject_Z bytes / inject_Z 1024) 1 ++ js " KB".

Definition activeUploads (s : Manager) : list ActiveUpload :=
  List.filter (λ u, match cohortRecording u with Some r => UploadQueue.cohortId r =? cohortId | None => false end
                    && negb (has [UploadQueue.done; UploadQueue.error] (status u)))
    (uploads (queue s)).

(** ** Events *)

Inductive event_ :=
| Opens | Fetched (r : Reply)
| Chooses (files : list (Z * File)) | Edits (i : Z) (e : DraftEdit) | RemovesDraft (i : Z) | Clears
| Launches (uuid : Z) (i : Z) | LaunchesAll (uuid : nat → Z)
| Queue (a : UploadQueue.action) | UploadEnds (ok : bool)
| Deletes (i : Z) | Confirms (i : Z) (yes : bool) | Deleted (r : Reply)
| StartsEdit (r : S3Recording) | EditsRecording (e : EditForm) | SavesEdit | EditSaved (r : Reply).

Definition manager_step (s : Manager) (e : event_) : Manager :=
  match e with
  | Opens => fetchRecordings s
  | Fetched r => fetched r s
  | Chooses files => appendFiles files s
  | Edits i e => updateDraft i (edited e) s
  | RemovesDraft i => removeDraft i s
  | Clears => clearDrafts s
  | Launches uuid i =>
      match List.find (λ d, d_id d =? i) (uploadDrafts s) with
      | Some d => launchDraftUpload true uuid d s
      | None => s
      end
  | LaunchesAll uuid => startAllUploads uuid s
  | Queue a => set_queue (UploadQueue.step a (queue s)) s
  | UploadEnds ok => if ok then fetchRecordings s else s
  | Deletes i => handleDelete i s
  | Confirms i yes => delete_confirmed i yes s
  | Deleted r => deleted r s
  | StartsEdit r => startEdit r s
  | EditsRecording e => set_edit {| editingId := editingId (edit s); editTitle := editTitle e;
      editDescription := editDescription e; editDate := editDate e; savingEdit := savingEdit (edit s) |} s
  | SavesEdit => saveEdit s
  | EditSaved r => edit_saved r s
  end.

Definition run_manager (es : list event_) (s : Manager) : Manager := fold_left manager_step es s.

Definition opened_manager : Manager := {|
  recordings := []; loading := true; showUploadForm := false; uploadDrafts := []; error := None;
  statusMessage := None;
  edit := {| editingId := None; editTitle := []; editDescription := []; editDate := []; savingEdit := false |};
  confirming := []; queue := UploadQueue.init; requests := []; accepted := []; launched := []; dropped := [] |}.

End Cohort.

Example title_example :
  title_of (js "week_1-intro.final.mp4") = js "week 1 intro.final" ∧ title_of (js ".mp4") = []
  ∧ title_of (js "clip.") = js "clip." ∧ formatSize (3 * 1024 * 1024 / 2) = js "1.5 MB".
Proof. vm_compute. done. Qed.

(** ** Every file is accounted for *)

Definition fresh_upload (q : UploadQueue.State) (i : Z) : Prop :=
  flows q !! i = None ∧ i ∉ map UploadQueue.id (uploads q) ∧ i ∉ aborted q.

Definition valid_draft (d : RecordingDraft) : Prop :=
  startsWith (f_type (d_file d)) (js "video/") = true ∧ f_size (d_file d) <= MAX_SIZE.

(** The queue was started for an upload with these options. *)
Definition started (q : UploadQueue.State) (i : Z) (o : UploadStartOpts) : Prop :=
  opts q !! i = Some o ∧ flows q !! i ≠ None.

Section Account.
Context (cohortId : Z).

Record manager_ok (s : Manager) : Prop := {
  mo_queue : UploadQueue.reachable (queue s);
  mo_perm : accepted s ≡ₚ map d_id (uploadDrafts s) ++ map (λ x, d_id x.2) (launched s) ++ dropped s;
  mo_nodup : NoDup (accepted s);
  mo_drafts : Forall valid_draft (uploadDrafts s);
  mo_launched : Forall (λ x, valid_draft x.2 ∧ titled x.2 = true ∧ started (queue s) x.1 (upload_opts cohortId x.2))
                  (launched s);
  mo_ids : NoDup (map fst (launched s));
}.

Lemma refused_valid i f : refused f = None → valid_draft (new_draft i f).
Proof.
  unfold refused, valid_draft. destruct (startsWith (f_type f) (js "video/")) eqn:E; [|done]. cbn [negb].
  destruct (Z.ltb_spec MAX_SIZE (f_size f)); [done|]. intros _. by split.
Qed.

Lemma sift_spec files :
  Forall valid_draft (sift files).1 ∧ sublist (map d_id (sift files).1) (map fst files).
Proof.
  induction files as [|[i f] rest [F S]]; [done|]. cbn [sift map fst].
  destruct (sift rest) as [ds es]. cbn [fst] in *. destruct (refused f) eqn:E; cbn.
  - split; [done|]. by constructor.
  - split; [constructor; [by apply refused_valid|done]|]. by constructor.
Qed.

(** The drafts, and what became of the others, after one draft left. *)
Lemma without_perm d l :
  NoDup (map d_id l) → d ∈ l →
  map d_id l ≡ₚ d_id d :: map d_id (without_draft (d_id d) l).
Proof.
  induction l as [|x l IH]; [by intros _ ?%not_elem_of_nil|]. cbn [map].
  intros [N U]%NoDup_cons Hd. unfold without_draft. cbn [List.filter].
  apply elem_of_cons in Hd as [->|Hd].
  - rewrite Z.eqb_refl. cbn [negb]. f_equiv. rewrite filter_absent; [done|].
    intros y Hy. apply negb_true_iff, Z.eqb_neq. intros E. apply N. rewrite <- E.
    by apply list_elem_of_fmap_2.
  - destruct (Z.eqb_spec (d_id x) (d_id d)) as [E|E].
    + exfalso. apply N. rewrite E. by apply list_elem_of_fmap_2.
    + cbn [negb map]. rewrite (IH U Hd). by rewrite Permutation_swap.
Qed.

Lemma drafts_nodup s : manager_ok s → NoDup (map d_id (uploadDrafts s)).
Proof.
  intros O. pose proof (mo_nodup s O) as N. rewrite (mo_perm s O) in N. by apply NoDup_app in N as [N _].
Qed.

(** Drafts are changed in place: their identifiers and files stay. *)
Lemma changed_ok (g : RecordingDraft → RecordingDraft) s :
  (∀ d, d_id (g d) = d_id d ∧ d_file (g d) = d_file d) → manager_ok s →
  manager_ok (set_drafts (map g (uploadDrafts s)) s).
Proof.
  intros G [Q P N D L I]. split; try done; cbn.
  - rewrite map_map. rewrite (map_ext _ d_id); [done|]. intros d. apply G.
  - apply Forall_forall. intros x (d & -> & Hd)%list_elem_of_fmap. rewrite Forall_forall in D.
    unfold valid_draft. rewrite (proj2 (G d)). by apply D.
Qed.

(** What the queue was started for stays in it. *)
Lemma started_step q a i o : UploadQueue.allowed q a → started q i o → started (UploadQueue.step a q) i o.
Proof.
  intros Ha [O F]. unfold started.
  assert (I : ∀ j f, (<[j := f]> (flows q) : gmap Z Flow) !! i ≠ None).
  { intros j f. by destruct (decide (j = i)) as [->|]; [rewrite lookup_insert_eq|rewrite lookup_insert_ne]. }
  destruct a; cbn [UploadQueue.step]; unfold fail, after_stored, completeUpload, cancelUpload, attachUpload, abandon,
    record, store; repeat case_match; cbn; try (by split).
  destruct Ha as [Hj _]. assert (i0 ≠ i) by (by intros ->). split; [by rewrite lookup_insert_ne|apply I].
Qed.

Lemma manager_frame_ok s s' :
  queue s' = queue s → uploadDrafts s' = uploadDrafts s → accepted s' = accepted s →
  launched s' = launched s → dropped s' = dropped s → manager_ok s → manager_ok s'.
Proof. intros Q D A L R [Q0 P N D0 L0 I0]. split; rewrite ?Q, ?D, ?A, ?L, ?R; done. Qed.

Lemma filter_split {A} (p : A → bool) l :
  l ≡ₚ List.filter (λ x, negb (p x)) l ++ List.filter p l.
Proof.
  induction l as [|x l IH]; [done|]. cbn. destruct (p x); cbn; [|by f_equiv].
  rewrite IH at 1. by rewrite Permutation_middle.
Qed.

Lemma launched_ok b uuid d s :
  manager_ok s → d ∈ uploadDrafts s → titled d = true → fresh_upload (queue s) uuid →
  manager_ok (launchDraftUpload cohortId b uuid d s).
Proof.
  intros O Hd T F. pose proof (drafts_nodup s O) as U. destruct O as [Q P N D L I].
  unfold launchDraftUpload. rewrite T. cbn [negb]. split; cbn; try done.
  - exact (reachable_step (queue s) (start_action cohortId uuid d) Q F).
  - rewrite P, (without_perm d _ U Hd), map_app. cbn. by solve_Permutation.
  - by apply Forall_bfilter.
  - apply Forall_app. split.
    + eapply Forall_impl; [exact L|]. intros x (V & Tx & St). split_and!; try done; try apply V.
      * by apply (started_step _ (start_action cohortId uuid d)).
    + apply Forall_singleton. split_and!; [rewrite Forall_forall in D; by apply D|done|].
      split; [exact (lookup_insert_eq (opts (queue s)) uuid _)|].
      change ((<[uuid := Preparing]> (flows (queue s)) : gmap Z Flow) !! uuid ≠ None). by rewrite lookup_insert_eq.
  - rewrite map_app. apply NoDup_app. split_and!; [done| |apply NoDup_singleton].
    intros i (x & Ex & Hx)%list_elem_of_fmap E%list_elem_of_singleton. rewrite Forall_forall in L.
    destruct (L x Hx) as (_ & _ & _ & K), F as [F _]. apply K. rewrite <- Ex, E. exact F.
Qed.

Lemma launch_ok b uuid d s :
  manager_ok s → d ∈ uploadDrafts s → fresh_upload (queue s) uuid →
  manager_ok (launchDraftUpload cohortId b uuid d s).
Proof.
  intros O Hd F. destruct (titled d) eqn:T; [by apply launched_ok|].
  unfold launchDraftUpload. rewrite T. cbn [negb]. unfold updateDraft.
  apply (changed_ok (λ x, if d_id x =? d_id d then with_error (Some TITLE_REQUIRED) x else x)); [|done].
  intros x. by destruct (d_id x =? d_id d).
Qed.

Lemma fresh_start q i j d :
  i ≠ j → fresh_upload q j → fresh_upload (UploadQueue.step (start_action cohortId i d) q) j.
Proof.
  intros K (F1 & F2 & F3). split_and!; [|  |done].
  - change ((<[i := Preparing]> (flows q) : gmap Z Flow) !! j = None). by rewrite lookup_insert_ne.
  - cbn [UploadQueue.step start_action uploads UploadQueue.set_uploads set_flow].
    rewrite map_app, elem_of_app. cbn [map]. rewrite list_elem_of_singleton. intros [?|E]; [done|].
    by rewrite E in K.
Qed.

Lemma launch_all_ok uuid n l s :
  manager_ok s → NoDup (map d_id l) → (∀ d, d ∈ l → d ∈ uploadDrafts s ∧ titled d = true) →
  (∀ i j, uuid i = uuid j → i = j) → (∀ k, (n <= k)%nat → fresh_upload (queue s) (uuid k)) →
  manager_ok (launch_all cohortId uuid n l s).
Proof.
  revert n s. induction l as [|d l IH]; intros n s O N H I F; [done|]. cbn [launch_all].
  cbn [map] in N. apply NoDup_cons in N as [Nd Nl]. destruct (H d ltac:(by left)) as [Hd T].
  apply IH; [apply launched_ok; auto|done| |done|].
  - intros x Hx. destruct (H x ltac:(by right)) as [Hx1 Hx2]. split; [|done].
    unfold launchDraftUpload. rewrite T. cbn. apply elem_of_bfilter. split; [done|].
    apply negb_true_iff, Z.eqb_neq. intros E. apply Nd. rewrite <- E. by apply list_elem_of_fmap_2.
  - intros k Hk. unfold launchDraftUpload. rewrite T. apply fresh_start; [|apply F; lia].
    intros E%I. lia.
Qed.

Lemma start_all_ok uuid s :
  manager_ok s → (∀ i j, uuid i = uuid j → i = j) → (∀ k, fresh_upload (queue s) (uuid k)) →
  manager_ok (startAllUploads cohortId uuid s).
Proof.
  intros O I F. pose proof (drafts_nodup s O) as U. unfold startAllUploads.
  set (invalid := map d_id (List.filter (λ d, negb (titled d)) (uploadDrafts s))).
  set (startable := List.filter titled (uploadDrafts s)). set (s1 := match invalid with [] => _ | _ => _ end).
  assert (M : ∀ d, d ∈ startable → has invalid (d_id d) = false).
  { intros d [Hd T]%elem_of_bfilter. apply has_false. intros (x & E & [Hx Tx]%elem_of_bfilter)%list_elem_of_fmap.
    assert (x = d) as ->; [|by rewrite T in Tx].
    clear -U Hx Hd E. induction (uploadDrafts s) as [|y l IH]; [by apply not_elem_of_nil in Hd|].
    cbn [map] in U. apply NoDup_cons in U as [N U]. apply elem_of_cons in Hx as [->|Hx], Hd as [->|Hd]; try done.
    - exfalso. apply N. rewrite <- E. by apply list_elem_of_fmap_2.
    - exfalso. apply N. rewrite E. by apply list_elem_of_fmap_2.
    - by apply IH. }
  assert (S1 : manager_ok s1 ∧ queue s1 = queue s ∧ ∀ d, d ∈ startable → d ∈ uploadDrafts s1).
  { assert (C : ∀ e, let s' := set_error e (set_drafts (map (λ d, if has invalid (d_id d)
        then with_error (Some TITLE_REQUIRED) d else d) (uploadDrafts s)) s) in
      manager_ok s' ∧ queue s' = queue s ∧ ∀ d, d ∈ startable → d ∈ uploadDrafts s').
    { intros e s'. split_and!; [|done|].
      - eapply manager_frame_ok; [..|apply (changed_ok (λ d, if has invalid (d_id d)
          then with_error (Some TITLE_REQUIRED) d else d)); [|exact O]]; try done.
        intros x. by destruct (has invalid (d_id x)).
      - intros d Hd. cbn. apply list_elem_of_fmap. exists d. rewrite (M d Hd). split; [done|].
        by apply elem_of_bfilter in Hd as [? _]. }
    unfold s1. destruct invalid as [|? [|? ?]]; [|apply C..]. split_and!; [|done|].
    - by eapply manager_frame_ok; [..|exact O].
    - by intros d [? _]%elem_of_bfilter. }
  clearbody s1. destruct S1 as (O1 & Q1 & D1).
  assert (A : ∀ m, manager_ok (launch_all cohortId uuid 0 startable (set_form (showUploadForm s1) (error s1) m s1))).
  { intros m. apply launch_all_ok; [by eapply manager_frame_ok; [..|exact O1]|by apply NoDup_map_bfilter| |done|].
    - intros d Hd. split; [by apply D1|]. by apply elem_of_bfilter in Hd as [_ ?].
    - intros k _. cbn. rewrite Q1. apply F. }
  destruct startable as [|? [|? ?]]; [done|apply A..].
Qed.

(** What the rest of the application does, and identifiers that are new. *)
Definition ev_ok (s : Manager) (e : event_) : Prop :=
  match e with
  | Chooses files => NoDup (map fst files) ∧ ∀ i, i ∈ map fst files → i ∉ accepted s
  | Launches uuid _ => fresh_upload (queue s) uuid
  | LaunchesAll uuid => (∀ i j, uuid i = uuid j → i = j) ∧ ∀ k, fresh_upload (queue s) (uuid k)
  | Queue a => UploadQueue.allowed (queue s) a
  | _ => True
  end.

Lemma choose_ok files s : ev_ok s (Chooses files) → manager_ok s → manager_ok (appendFiles files s).
Proof.
  intros [N1 N2] O. unfold appendFiles. destruct files as [|x files]; [done|].
  destruct (sift_spec (x :: files)) as [V S]. destruct (sift (x :: files)) as [next errors]. cbn [fst] in V, S.
  eapply (manager_frame_ok (match next with [] => s | _ => _ end)); try done.
  destruct next as [|d next]; [done|]. destruct O as [Q P N D L I]. split; try done; cbn.
  - rewrite P, !map_app. cbn. by solve_Permutation.
  - apply NoDup_app. split_and!; [done| |exact (sublist_NoDup _ _ N1 S)].
    intros i Hi Hn. apply (N2 i); [|done]. exact (elem_of_sublist _ _ i Hn S).
  - by apply Forall_app.
Qed.

Lemma manager_step_ok s e : ev_ok s e → manager_ok s → manager_ok (manager_step cohortId s e).
Proof.
  intros Ev O. destruct e; cbn [manager_step]; try (by eapply manager_frame_ok; [..|exact O]).
  - destruct r as [|[]|]; by eapply manager_frame_ok; [..|exact O].
  - by apply choose_ok.
  - apply (changed_ok (λ x, if d_id x =? i then edited e x else x)); [|done].
    intros x. by destruct (d_id x =? i).
  - destruct O as [Q P N D L I]. split; try done; cbn; [|by apply Forall_bfilter].
    assert (F : map d_id (uploadDrafts s) ≡ₚ map d_id (without_draft i (uploadDrafts s))
      ++ map d_id (List.filter (λ d, d_id d =? i) (uploadDrafts s))).
    { rewrite <- map_app. apply Permutation_map, filter_split. }
    rewrite P, F. by solve_Permutation.
  - destruct O as [Q P N D L I]. split; try done; cbn. rewrite P. by solve_Permutation.
  - destruct (List.find _ _) as [d|] eqn:E; [|done]. apply List.find_some in E as [E _].
    apply launch_ok; [done|by apply list_elem_of_In|done].
  - apply start_all_ok; [done|apply Ev|apply Ev].
  - destruct O as [Q P N D L I]. split; try done; [by apply reachable_step|].
    eapply Forall_impl; [exact L|]. intros x (V & T & St). split_and!; [exact V|done|].
    by apply (started_step (queue s) a).
  - destruct ok; by eapply manager_frame_ok; [..|exact O].
  - unfold delete_confirmed. destruct (has _ _); [|done]. destruct yes; by eapply manager_frame_ok; [..|exact O].
  - destruct r; by eapply manager_frame_ok; [..|exact O].
  - unfold saveEdit. destruct (editingId (edit s)); [|done].
    destruct (_ || _ || _); by eapply manager_frame_ok; [..|exact O].
  - destruct r; by eapply manager_frame_ok; [..|exact O].
Qed.

Fixpoint events_ok (es : list event_) (s : Manager) : Prop :=
  match es with
  | [] => True
  | e :: es => ev_ok s e ∧ events_ok es (manager_step cohortId s e)
  end.

Lemma run_manager_ok es s : events_ok es s → manager_ok s → manager_ok (run_manager cohortId es s).
Proof.
  revert s. induction es as [|e es IH]; [done|]. intros s [E H] O. apply IH; [done|].
  by apply manager_step_ok.
Qed.

(** *** What the queue is given *)

(** The entry a draft becomes in the list of uploads. *)
Definition recording_item (x : Z * RecordingDraft) : ActiveUpload :=
  let d := x.2 in {|
  UploadQueue.id := x.1; fileName := f_name (d_file d); fileSize := f_size (d_file d);
  contentType := f_type (d_file d); progress := 0; status := presigning; error_text := None; s3Key := None;
  contentBlockId := None; deferPersistence := None;
  cohortRecording := Some {|
    UploadQueue.cohortId := cohortId;
    UploadQueue.title := trim (d_title d);
    UploadQueue.description := if decide (trim (d_description d) = []) then None else Some (trim (d_description d));
    UploadQueue.recordedDate := if decide (d_recordedDate d = []) then None else Some (d_recordedDate d) |};
  linkTo := Some (js "/admin/cohorts/" ++ str_of_Z cohortId);
  linkLabel := Some (js "Recording: " ++ trim (d_title d)) |}.

Definition has_title (d : RecordingDraft) : bool := bool_decide (trim (d_title d) ≠ []).

(** The drafts an action of the user starts, in order, with the identifiers they get. *)
Definition to_start (e : event_) (s : Manager) : list (Z * RecordingDraft) :=
  match e with
  | Launches u i => map (pair u) (List.filter (λ d, (d_id d =? i) && has_title d) (uploadDrafts s))
  | LaunchesAll uuid =>
      let l := List.filter has_title (uploadDrafts s) in zip (map uuid (seq 0 (length l))) l
  | _ => []
  end.

Lemma titled_has_title d : titled d = has_title d.
Proof. unfold titled, has_title. by destruct (trim (d_title d)). Qed.

Lemma or_undefined_decide (t : str) : or_undefined t = if decide (t = []) then None else Some t.
Proof. by destruct t. Qed.

Lemma item_of u d :
  valid_draft d →
  new_upload u (f_name (d_file d)) (f_size (d_file d)) (f_type (d_file d)) (upload_opts cohortId d)
  = recording_item (u, d).
Proof.
  intros [V _]. unfold new_upload, recording_item, upload_opts. cbn. rewrite !or_undefined_decide.
  by destruct (f_type (d_file d)).
Qed.

(** One draft that has a title. *)
Lemma launch_queue b u d s :
  valid_draft d → titled d = true →
  let s' := launchDraftUpload cohortId b u d s in
  uploads (queue s') = uploads (queue s) ++ [recording_item (u, d)]
  ∧ launched s' = launched s ++ [(u, d)].
Proof.
  intros V T s'. unfold s', launchDraftUpload. rewrite T. cbn. split; [|done]. f_equal. f_equal. by apply item_of.
Qed.

Lemma launch_all_queue uuid n l s :
  Forall (λ d, valid_draft d ∧ titled d = true) l →
  let s' := launch_all cohortId uuid n l s in
  let new := zip (map uuid (seq n (length l))) l in
  uploads (queue s') = uploads (queue s) ++ map recording_item new ∧ launched s' = launched s ++ new.
Proof.
  revert n s. induction l as [|d l IH]; intros n s F; cbn [launch_all].
  { by rewrite !app_nil_r. }
  apply Forall_cons in F as [[V T] F]. destruct (launch_queue false (uuid n) d s V T) as [E1 E2].
  destruct (IH (S n) (launchDraftUpload cohortId false (uuid n) d s) F) as [E3 E4].
  cbn zeta in *. rewrite E3, E4, E1, E2, <- !app_assoc. done.
Qed.

Lemma start_all_queue uuid s :
  Forall valid_draft (uploadDrafts s) →
  let s' := startAllUploads cohortId uuid s in
  uploads (queue s') = uploads (queue s) ++ map recording_item (to_start (LaunchesAll uuid) s)
  ∧ launched s' = launched s ++ to_start (LaunchesAll uuid) s.
Proof.
  intros D. cbn zeta. unfold startAllUploads, to_start.
  rewrite (List.filter_ext has_title titled) by (intros; by rewrite titled_has_title).
  set (s1 := match map d_id _ with [] => _ | _ => _ end).
  assert (K : queue s1 = queue s ∧ launched s1 = launched s) by (unfold s1; by destruct (map d_id _) as [|? [|? ?]]).
  clearbody s1. destruct K as [<- <-].
  assert (F : Forall (λ d, valid_draft d ∧ titled d = true) (List.filter titled (uploadDrafts s))).
  { apply Forall_forall. intros d [Hd T]%elem_of_bfilter. rewrite Forall_forall in D. split; [by apply D|done]. }
  destruct (List.filter titled (uploadDrafts s)) as [|d l] eqn:E; [by rewrite !app_nil_r|].
  destruct l; apply (launch_all_queue uuid 0 _ (set_form _ _ _ s1) F).
Qed.

Lemma find_only d i l :
  NoDup (map d_id l) → List.find (λ x, d_id x =? i) l = Some d → List.filter (λ x, d_id x =? i) l = [d].
Proof.
  induction l as [|x l IH]; [done|]. cbn [map List.find List.filter]. intros [N U]%NoDup_cons.
  destruct (Z.eqb_spec (d_id x) i) as [E|E]; [|by apply IH]. intros [= ->]. f_equal.
  destruct (List.filter (λ x, d_id x =? i) l) as [|y r] eqn:F; [done|].
  assert (Hy : y ∈ List.filter (λ x, d_id x =? i) l) by (rewrite F; left).
  apply elem_of_bfilter in Hy as [Hy Ey%Z.eqb_eq]. exfalso. apply N. rewrite E, <- Ey.
  by apply list_elem_of_fmap_2.
Qed.

Lemma step_queue s e :
  manager_ok s →
  match e with
  | Queue a => queue (manager_step cohortId s e) = UploadQueue.step a (queue s)
               ∧ launched (manager_step cohortId s e) = launched s
  | _ => uploads (queue (manager_step cohortId s e)) = uploads (queue s) ++ map recording_item (to_start e s)
         ∧ launched (manager_step cohortId s e) = launched s ++ to_start e s
  end.
Proof.
  intros O. destruct e; cbn [manager_step to_start map]; rewrite ?app_nil_r; try done.
  - by destruct r as [|[]|].
  - unfold appendFiles. destruct files as [|x files]; [done|]. destruct (sift (x :: files)) as [next errors].
    by destruct next.
  - rewrite filter_filter_andb. destruct (List.find _ _) as [d|] eqn:E.
    + rewrite (find_only d i _ (drafts_nodup s O) E). cbn [List.filter]. rewrite <- titled_has_title.
      apply List.find_some in E as [Hd%list_elem_of_In _]. pose proof (mo_drafts s O) as D. rewrite Forall_forall in D.
      destruct (titled d) eqn:T; [exact (launch_queue true uuid d s (D d Hd) T)|].
      unfold launchDraftUpload. rewrite T. cbn. by rewrite !app_nil_r.
    + destruct (List.filter (λ d, d_id d =? i) (uploadDrafts s)) as [|y r] eqn:F; [by rewrite !app_nil_r|].
      assert (Hy : y ∈ List.filter (λ d, d_id d =? i) (uploadDrafts s)) by (rewrite F; left).
      apply elem_of_bfilter in Hy as [Hy Ey]. apply list_elem_of_In in Hy.
      by rewrite (List.find_none _ _ E y Hy) in Ey.
  - apply start_all_queue, O.
  - by destruct ok.
  - unfold delete_confirmed. destruct (has _ _); [|done]. by destruct yes.
  - by destruct r.
  - unfold saveEdit. destruct (editingId (edit s)); [|done]. by destruct (_ || _ || _).
  - by destruct r.
Qed.

(** C15: no recording that was chosen is lost on its way to the queue. However files are
    chosen, titled, removed, started one by one or together, while the queue goes on with
    uploads of its own (identifiers from [crypto.randomUUID()] being new): every file that
    was accepted is, exactly once, among the drafts, handed to the queue, or dropped by the
    user. For what was handed over, the queue holds a process and the options of a
    recording of this cohort with the trimmed title and description and the date of the
    draft (blank ones left out), and it was a video of at most 5 GB with a title. And of
    the actions on the page only the two buttons add to the queue: they append to its list
    one entry per draft that has a title, in the order of the drafts, with its file's name,
    size and type and its recording, and hand over exactly those drafts. *)
Theorem recordings_reach_queue (es : list event_) :
  events_ok es opened_manager →
  let s := run_manager cohortId es opened_manager in
  accepted s ≡ₚ map d_id (uploadDrafts s) ++ map (λ x, d_id x.2) (launched s) ++ dropped s
  ∧ NoDup (accepted s) ∧ NoDup (map fst (launched s))
  ∧ (∀ u d, (u, d) ∈ launched s →
       valid_draft d ∧ trim (d_title d) ≠ []
       ∧ flows (queue s) !! u ≠ None
       ∧ ∃ o, opts (queue s) !! u = Some o ∧ o_cohortRecording o = cohortRecording (recording_item (u, d))
              ∧ o_contentBlockId o = None)
  ∧ UploadQueue.reachable (queue s)
  ∧ (∀ e, let s' := manager_step cohortId s e in
       match e with
       | Queue a => queue s' = UploadQueue.step a (queue s) ∧ launched s' = launched s
       | _ => uploads (queue s') = uploads (queue s) ++ map recording_item (to_start e s)
              ∧ launched s' = launched s ++ to_start e s
       end).
Proof.
  intros Ev s. assert (O : manager_ok s).
  { apply run_manager_ok; [done|]. split; try done; constructor. }
  split_and!; [apply O|apply O|apply O| |apply O|by intros e; apply step_queue].
  intros u d H. pose proof (mo_launched s O) as L. rewrite Forall_forall in L.
  destruct (L _ H) as (V & T & Op & Fl). split; [exact V|split_and!; [|exact Fl|]].
  - cbn in T. unfold titled in T. by destruct (trim (d_title d)).
  - eexists. split_and!; [exact Op| |done]. cbn. by rewrite !or_undefined_decide.
Qed.

End Account.

Definition sample_files : list (Z * File) :=
  [(1, {| f_name := js "week-1.mp4"; f_size := 1000; f_type := js "video/mp4" |});
   (2, {| f_name := js "notes.pdf"; f_size := 10; f_type := js "application/pdf" |});
   (3, {| f_name := js ".mov"; f_size := 10; f_type := js "video/quicktime" |})].

Definition sample_events : list event_ :=
  [Chooses sample_files; LaunchesAll (λ n, 100 + Z.of_nat n)].

Lemma recordings_reach_queue_witness :
  let s := run_manager 9 sample_events opened_manager in
  map d_id (uploadDrafts s) = [3] ∧ map fst (launched s) = [100] ∧ accepted s = [1; 3]
  ∧ UploadQueue.reachable (queue s).
Proof.
  split_and!; [vm_compute; reflexivity|vm_compute; reflexivity|vm_compute; reflexivity|].
  apply (recordings_reach_queue 9 sample_events). cbn [events_ok sample_events ev_ok]. split_and!; try done.
  - apply (bool_decide_unpack _). vm_compute. exact I.
  - by intros i _ ?%not_elem_of_nil.
  - intros. lia.
  - intros k. by split_and!; [|intros ?%not_elem_of_nil..].
Defined.
