(* ===== verification/ContentManagement.v ===== *)
(** * The curriculum studio (web)

    [web/src/pages/admin/ContentManagement.tsx] with its two dialogs ([NewExerciseModal.tsx],
    [NewModuleModal.tsx]) and [web/src/lib/scheduleConstants.ts]: how the exercises of a
    module are laid out over weeks and days, where a new exercise goes, and the handlers of
    the page, which run up to their next [await], kept in [ops]; [answer] goes on. *)

From S2P Require Import Prelude.
From S2P Require Import Keyed.
From S2P Require Import Json.
From S2P Require Import CodeRunner.
From S2P Require Import ContentBlock.

Import CodeRunner.Config.

(** ** Data *)

Record Lesson := {
  l_id : Z; l_title : str; lesson_type : str; position : Z; release_day : Z;
  submission_type : option str; content_blocks_count : Z; archived_at : option str;
}.

Record Module_ := {
  m_id : Z; m_curriculum : option Z; m_name : str; m_type : str; m_position : Z;
  schedule_days : str; scheduled_day_names : list str; week_count : Z; lessons : list Lesson;
}.

Record Curriculum := { c_id : Z; c_name : str; c_status : str; c_modules : list Module_ }.

(** ** Schedules *)

Definition SCHEDULE_DAY_INDICES (s : str) : option (list Z) :=
  if eqs s (js "weekdays") then Some [0; 1; 2; 3; 4]
  else if eqs s (js "weekdays_sat") then Some [0; 1; 2; 3; 4; 5]
  else if eqs s (js "mwf") then Some [0; 2; 4]
  else if eqs s (js "tth") then Some [1; 3]
  else if eqs s (js "daily") then Some [0; 1; 2; 3; 4; 5; 6]
  else None.

Definition scheduleIndices (s : str) : list Z := default [0; 1; 2; 3; 4] (SCHEDULE_DAY_INDICES s).

(** ** The weeks of a module *)

Definition archived (l : Lesson) : bool := match archived_at l with Some (_ :: _) => true | _ => false end.
Definition activeLessons (m : Module_) : list Lesson := List.filter (λ l, negb (archived l)) (lessons m).
Definition archivedLessons (m : Module_) : list Lesson := List.filter archived (lessons m).

(** [groups[lesson.release_day].push(lesson)] *)
Definition add_to_day (g : gmap Z (list Lesson)) (l : Lesson) : gmap Z (list Lesson) :=
  <[release_day l := default [] (g !! release_day l) ++ [l]]> g.
Definition groupLessonsByDay (l : list Lesson) : gmap Z (list Lesson) := fold_left add_to_day l ∅.

Definition week_of (l : Lesson) : Z := release_day l / 7 + 1.

(** [Set.add]: the order of insertion, each value once. *)
Definition set_add (s : list Z) (x : Z) : list Z := if has s x then s else s ++ [x].

Definition weekNumbers (maxExtraWeek : Z) (m : Module_) : list Z :=
  let weeks := fold_left set_add (map week_of (activeLessons m)) [] in
  js_sort (λ a b, a - b) (if 0 <? maxExtraWeek then set_add weeks maxExtraWeek else weeks).

Record Day := { dayIdx : Z; releaseDay : Z; exercises : list Lesson }.

Definition daysInActiveWeek (activeWeek : Z) (m : Module_) : list Day :=
  let byDay := groupLessonsByDay (activeLessons m) in
  map (λ i, let d := (activeWeek - 1) * 7 + i in
            {| dayIdx := i; releaseDay := d; exercises := default [] (byDay !! d) |})
    (scheduleIndices (schedule_days m)).

(** [exercises.sort((a, b) => a.position - b.position)] *)
Definition shown_exercises (d : Day) : list Lesson := js_sort (λ a b, position a - position b) (exercises d).

(** ** Where a new exercise goes *)

Definition last_day (l : list Lesson) : Z :=
  match l with [] => -1 | x :: r => fold_left Z.max (map release_day r) (release_day x) end.

Fixpoint index_of (x : Z) (l : list Z) : option nat :=
  match l with
  | [] => None
  | y :: r => if x =? y then Some 0%nat else S <$> index_of x r
  end.

(** The button for a new exercise; [%] keeps the sign of the dividend. *)
Definition next_slot (m : Module_) : Z * Z :=
  let si := scheduleIndices (schedule_days m) in
  let first := default 0 (si !! 0%nat) in
  let lastDay := last_day (activeLessons m) in
  let lastWeek := lastDay / 7 + 1 in
  if lastDay <? 0 then (1, first)
  else match index_of (Z.rem lastDay 7) si with
       | Some pos => if decide (pos < length si - 1)%nat then (lastWeek, default 0 (si !! S pos))
                     else (lastWeek + 1, first)
       | None => (lastWeek + 1, first)
       end.

(** ** The dialog for an exercise *)

Record S3Video := { v_key : str; v_type : str; v_size : Z }.

Record ExerciseForm := {
  title : str; week : Z; dayIndex : Z; videoUrl : str; instructions : str; solution : str;
  s3Video : option S3Video; uploadId : option Z; filename : str; submissionType : str;
  runnerConfig : CodeRunnerConfig; validationError : str;
}.

Definition open_form (defaultWeek defaultDayIndex : Z) : ExerciseForm := {|
  title := []; week := defaultWeek; dayIndex := defaultDayIndex; videoUrl := []; instructions := [];
  solution := []; s3Video := None; uploadId := None; filename := [];
  submissionType := js "manual_complete";
  runnerConfig := {| enabled := false; language := JStr (js "ruby") |}; validationError := [] |}.

Record ExercisePayload := {
  p_title : str; p_release_day : Z; p_video_url : option str; p_instructions : option str;
  p_solution : option str; p_filename : option str; p_requires : bool; p_submission_type : str;
  p_config : json; p_video : option S3Video;
}.

Definition form_release_day (f : ExerciseForm) : Z := (week f - 1) * 7 + dayIndex f.

Definition weekOptions (weekCount : Z) (f : ExerciseForm) : list Z :=
  seqZ 1 (Z.max (Z.max (weekCount + 2) (week f + 1)) 12).

Definition set_validation (e : str) (f : ExerciseForm) : ExerciseForm := {|
  title := title f; week := week f; dayIndex := dayIndex f; videoUrl := videoUrl f;
  instructions := instructions f; solution := solution f; s3Video := s3Video f; uploadId := uploadId f;
  filename := filename f; submissionType := submissionType f; runnerConfig := runnerConfig f;
  validationError := e |}.

Definition TITLE_REQUIRED : str := js "Title is required".
Definition CONTENT_REQUIRED : str := js "Please provide a video, exercise instructions, or both".

(** The runner a submission gets: what was chosen, or the language of the file; only text
    submissions run code. *)
Definition submission_runner (f : ExerciseForm) : CodeRunnerConfig :=
  let detected := codeRunnerLanguageFromEditor (detectLanguage (Some (filename f)) None) in
  let l := if enabled (runnerConfig f) then language (runnerConfig f)
           else match detected with
                | Some x => JStr (language_name x) | None => language (runnerConfig f) end in
  {| enabled := if eqs (submissionType f) (js "text_submission") then enabled (runnerConfig f) else false;
     language := l |}.

(** [handleSubmit]: what is refused, or what [onCreate] gets and the upload to attach. *)
Definition handleSubmit (f : ExerciseForm) : ExerciseForm + ExercisePayload * option Z :=
  if negb (truthy (trim (title f))) then inl (set_validation TITLE_REQUIRED f)
  else if negb (truthy (trim (videoUrl f))) && negb (truthy (trim (instructions f)))
          && negb (bool_decide (is_Some (s3Video f)))
  then inl (set_validation CONTENT_REQUIRED f)
  else inr ({| p_title := trim (title f); p_release_day := form_release_day f;
               p_video_url := or_undefined (trim (videoUrl f));
               p_instructions := or_undefined (trim (instructions f));
               p_solution := or_undefined (trim (solution f));
               p_filename := or_undefined (trim (filename f));
               p_requires := negb (eqs (submissionType f) (js "manual_complete"));
               p_submission_type := submissionType f;
               p_config := buildSubmissionConfigWithRunner None (submission_runner f);
               p_video := s3Video f |}, uploadId f).

Definition handleSubmissionTypeChange (nextType : str) (f : ExerciseForm) : ExerciseForm := {|
  title := title f; week := week f; dayIndex := dayIndex f; videoUrl := videoUrl f;
  instructions := instructions f; solution := solution f; s3Video := s3Video f; uploadId := uploadId f;
  filename := filename f; submissionType := nextType;
  runnerConfig := if eqs nextType (js "text_submission") then runnerConfig f
                  else {| enabled := false; language := language (runnerConfig f) |};
  validationError := validationError f |}.

(** ** The dialog for a module *)

Record ModulePayload := {
  q_name : str; q_type : str; q_position : Z; q_day_offset : Z; q_total_days : Z; q_schedule : str;
}.

Definition NAME_REQUIRED : str := js "Name is required".

Definition submit_module (name type schedule : str) (defaultPosition : Z) : str + ModulePayload :=
  if truthy (trim name)
  then inr {| q_name := trim name; q_type := type; q_position := defaultPosition; q_day_offset := 0;
              q_total_days := 0; q_schedule := schedule |}
  else inl NAME_REQUIRED.

(** ** The page *)

Record ExerciseModal := {
  x_moduleId : Z; x_moduleName : str; x_curriculumId : Z; x_scheduleDays : str; x_weekCount : Z;
  x_defaultWeek : Z; x_defaultDayIndex : Z;
}.

Inductive Request :=
| GetCurricula
| GetCurriculum (i : Z)
| UpdateModule (i : Z) (schedule : str)
| RestoreLesson (i : Z)
| CreateExercise (m : Z) (p : ExercisePayload)
| CreateModule (curriculum : Z) (p : ModulePayload).

(** What follows [await loadCurricula()]. *)
Inductive After := ThenNothing | ThenRestored (t : str) | ThenExercise (t : str) | ThenModule (t : str).

Inductive Op :=
| OList (k : After)
| ODetails (l : list Curriculum) (k : After)
| OSchedule (m : Module_) (s : str)
| ORestore (t : str)
| OExercise (p : ExercisePayload) (upload : option Z)
| OModule (p : ModulePayload).

Record Page := {
  curricula : list Curriculum; loading : bool; expandedModules : list Z;
  activeWeekTab : gmap Z Z; extraWeeks : gmap Z Z;
  exerciseModal : option ExerciseModal; newModuleModal : option (Z * Z);
  exerciseSaving : bool; moduleSaving : bool; scheduleSavingId : option Z; restoringLessonId : option Z;
  exerciseCreateError : str; moduleCreateError : str;
  attached : list (Z * option Z * str * str);    (* calls of [attachUpload] *)
  toasts : list (bool * str);                     (* success or error *)
  ops : list Op; requests : list Request;
}.

Definition set_curricula (l : list Curriculum) (b : bool) (s : Page) : Page := {|
  curricula := l; loading := b; expandedModules := expandedModules s; activeWeekTab := activeWeekTab s;
  extraWeeks := extraWeeks s; exerciseModal := exerciseModal s; newModuleModal := newModuleModal s;
  exerciseSaving := exerciseSaving s; moduleSaving := moduleSaving s; scheduleSavingId := scheduleSavingId s;
  restoringLessonId := restoringLessonId s; exerciseCreateError := exerciseCreateError s;
  moduleCreateError := moduleCreateError s; attached := attached s; toasts := toasts s; ops := ops s;
  requests := requests s |}.
Definition set_weeks (e : list Z) (a x : gmap Z Z) (s : Page) : Page := {|
  curricula := curricula s; loading := loading s; expandedModules := e; activeWeekTab := a;
  extraWeeks := x; exerciseModal := exerciseModal s; newModuleModal := newModuleModal s;
  exerciseSaving := exerciseSaving s; moduleSaving := moduleSaving s; scheduleSavingId := scheduleSavingId s;
  restoringLessonId := restoringLessonId s; exerciseCreateError := exerciseCreateError s;
  moduleCreateError := moduleCreateError s; attached := attached s; toasts := toasts s; ops := ops s;
  requests := requests s |}.
Definition set_exercise (x : option ExerciseModal) (saving : bool) (e : str) (s : Page) : Page := {|
  curricula := curricula s; loading := loading s; expandedModules := expandedModules s;
  activeWeekTab := activeWeekTab s; extraWeeks := extraWeeks s; exerciseModal := x;
  newModuleModal := newModuleModal s; exerciseSaving := saving; moduleSaving := moduleSaving s;
  scheduleSavingId := scheduleSavingId s; restoringLessonId := restoringLessonId s;
  exerciseCreateError := e; moduleCreateError := moduleCreateError s; attached := attached s;
  toasts := toasts s; ops := ops s; requests := requests s |}.
Definition set_module (x : option (Z * Z)) (saving : bool) (e : str) (s : Page) : Page := {|
  curricula := curricula s; loading := loading s; expandedModules := expandedModules s;
  activeWeekTab := activeWeekTab s; extraWeeks := extraWeeks s; exerciseModal := exerciseModal s;
  newModuleModal := x; exerciseSaving := exerciseSaving s; moduleSaving := saving;
  scheduleSavingId := scheduleSavingId s; restoringLessonId := restoringLessonId s;
  exerciseCreateError := exerciseCreateError s; moduleCreateError := e; attached := attached s;
  toasts := toasts s; ops := ops s; requests := requests s |}.
Definition set_saving (sch res : option Z) (s : Page) : Page := {|
  curricula := curricula s; loading := loading s; expandedModules := expandedModules s;
  activeWeekTab := activeWeekTab s; extraWeeks := extraWeeks s; exerciseModal := exerciseModal s;
  newModuleModal := newModuleModal s; exerciseSaving := exerciseSaving s; moduleSaving := moduleSaving s;
  scheduleSavingId := sch; restoringLessonId := res; exerciseCreateError := exerciseCreateError s;
  moduleCreateError := moduleCreateError s; attached := attached s; toasts := toasts s; ops := ops s;
  requests := requests s |}.
Definition set_effects (a : list (Z * option Z * str * str)) (t : list (bool * str)) (s : Page) : Page := {|
  curricula := curricula s; loading := loading s; expandedModules := expandedModules s;
  activeWeekTab := activeWeekTab s; extraWeeks := extraWeeks s; exerciseModal := exerciseModal s;
  newModuleModal := newModuleModal s; exerciseSaving := exerciseSaving s; moduleSaving := moduleSaving s;
  scheduleSavingId := scheduleSavingId s; restoringLessonId := restoringLessonId s;
  exerciseCreateError := exerciseCreateError s; moduleCreateError := moduleCreateError s; attached := a;
  toasts := t; ops := ops s; requests := requests s |}.
Definition set_ops (l : list Op) (r : list Request) (s : Page) : Page := {|
  curricula := curricula s; loading := loading s; expandedModules := expandedModules s;
  activeWeekTab := activeWeekTab s; extraWeeks := extraWeeks s; exerciseModal := exerciseModal s;
  newModuleModal := newModuleModal s; exerciseSaving := exerciseSaving s; moduleSaving := moduleSaving s;
  scheduleSavingId := scheduleSavingId s; restoringLessonId := restoringLessonId s;
  exerciseCreateError := exerciseCreateError s; moduleCreateError := moduleCreateError s;
  attached := attached s; toasts := toasts s; ops := l; requests := r |}.

Definition toast (ok : bool) (m : str) (s : Page) : Page := set_effects (attached s) (toasts s ++ [(ok, m)]) s.
Definition ask (r : list Request) (o : Op) (s : Page) : Page := set_ops (ops s ++ [o]) (requests s ++ r) s.
Definition ask_next (i : nat) (r : list Request) (o : Op) (s : Page) : Page :=
  set_ops (<[i := o]> (ops s)) (requests s ++ r) s.
Definition returns (i : nat) (s : Page) : Page := set_ops (delete i (ops s)) (requests s) s.

Definition loadCurricula (s : Page) : Page := ask [GetCurricula] (OList ThenNothing) s.
Definition loadCurricula_then (i : nat) (k : After) (s : Page) : Page := ask_next i [GetCurricula] (OList k) s.

Definition toggleModule (m : Z) (s : Page) : Page :=
  let e := expandedModules s in
  set_weeks (if has e m then List.filter (λ x, negb (x =? m)) e else e ++ [m]) (activeWeekTab s)
    (extraWeeks s) s.

Definition setWeek (m w : Z) (s : Page) : Page :=
  set_weeks (expandedModules s) (<[m := w]> (activeWeekTab s)) (extraWeeks s) s.

Definition z_or (o : option Z) (d : Z) : Z := match o with Some n => if n =? 0 then d else n | None => d end.
Definition activeWeek (m : Module_) (s : Page) : Z := z_or (activeWeekTab s !! m_id m) 1.
Definition maxExtraWeek (m : Module_) (s : Page) : Z := z_or (extraWeeks s !! m_id m) 0.

Definition openExerciseForDay (m : Module_) (w d : Z) (s : Page) : Page :=
  set_exercise (Some {| x_moduleId := m_id m; x_moduleName := m_name m;
      x_curriculumId := z_or (m_curriculum m) 0; x_scheduleDays := str_or (schedule_days m) (js "weekdays");
      x_weekCount := z_or (Some (week_count m)) 1; x_defaultWeek := w; x_defaultDayIndex := d |})
    (exerciseSaving s) [] s.

Definition add_exercise (m : Module_) (s : Page) : Page :=
  openExerciseForDay m (next_slot m).1 (next_slot m).2 s.

(** [addWeek]: archived lessons count. *)
Definition next_week (m : Module_) : Z :=
  match map week_of (lessons m) with [] => 1 | w :: r => fold_left Z.max r w + 1 end.

Definition addWeek (m : Module_) (s : Page) : Page :=
  set_weeks (set_add (expandedModules s) (m_id m)) (<[m_id m := next_week m]> (activeWeekTab s))
    (<[m_id m := next_week m]> (extraWeeks s)) s.

Definition updateModuleSchedule (m : Module_) (scheduleDays : str) (s : Page) : Page :=
  if eqs (schedule_days m) scheduleDays then s
  else ask [UpdateModule (m_id m) scheduleDays] (OSchedule m scheduleDays)
         (set_saving (Some (m_id m)) (restoringLessonId s) s).

Definition restoreLesson (l : Lesson) (s : Page) : Page :=
  ask [RestoreLesson (l_id l)] (ORestore (l_title l)) (set_saving (scheduleSavingId s) (Some (l_id l)) s).

Definition closeExercise (s : Page) : Page := set_exercise None (exerciseSaving s) [] s.
Definition createExercise (p : ExercisePayload) (upload : option Z) (s : Page) : Page :=
  match exerciseModal s with
  | Some x => ask [CreateExercise (x_moduleId x) p] (OExercise p upload) (set_exercise (Some x) true [] s)
  | None => s
  end.

Definition openModule (c : Curriculum) (s : Page) : Page :=
  set_module (Some (c_id c, Z.of_nat (length (c_modules c)))) (moduleSaving s) [] s.
Definition closeModule (s : Page) : Page := set_module None (moduleSaving s) [] s.
Definition createModule (p : ModulePayload) (s : Page) : Page :=
  match newModuleModal s with
  | Some x => ask [CreateModule x.1 p] (OModule p) (set_module (Some x) true [] s)
  | None => s
  end.

(** ** Answers *)

Record NewLesson := { n_id : Z; n_title : str; n_blocks : list (Z * str) }.

Inductive Reply :=
| Failed (e : str)
| GaveList (l : option (list Curriculum))
| GaveDetails (l : list (option Curriculum))
| GaveModule (m : option (option str * option (list str) * option Z))
| GaveLesson (l : option NewLesson)
| Done.

Definition QUOTE : str := ["034"%char].
Definition quoted (verb t : str) : str := verb ++ js " " ++ QUOTE ++ t ++ QUOTE.

(** [setLoading(false)], and what waited for the reload. *)
Definition reloaded (i : nat) (k : After) (s : Page) : Page :=
  let s := set_curricula (curricula s) false s in
  returns i
    match k with
    | ThenNothing => s
    | ThenRestored t => set_saving (scheduleSavingId s) None (toast true (quoted (js "Restored") t) s)
    | ThenExercise t => toast true (quoted (js "Created exercise") t) s
    | ThenModule t => toast true (quoted (js "Created module") t) (set_module None false (moduleCreateError s) s)
    end.

(** [detail.data?.curriculum || c] for every curriculum, in the order of the list. *)
Fixpoint detailed (l : list Curriculum) (r : list (option Curriculum)) : list Curriculum :=
  match l, r with
  | c :: l, d :: r => default c d :: detailed l r
  | c :: l, [] => c :: detailed l []
  | [], _ => []
  end.

Definition reschedule (m : Module_) (s : str) (r : option (option str * option (list str) * option Z))
    (x : Module_) : Module_ :=
  if m_id x =? m_id m then {|
    m_id := m_id x; m_curriculum := m_curriculum x; m_name := m_name x; m_type := m_type x;
    m_position := m_position x; schedule_days := default s (r ≫= λ y, y.1.1);
    scheduled_day_names := default (scheduled_day_names x) (r ≫= λ y, y.1.2);
    week_count := default (week_count x) (r ≫= λ y, y.2); lessons := lessons x |}
  else x.

Definition map_modules (f : Module_ → Module_) (c : Curriculum) : Curriculum :=
  {| c_id := c_id c; c_name := c_name c; c_status := c_status c; c_modules := map f (c_modules c) |}.

Definition attach (upload : option Z) (l : option NewLesson) (s : Page) : Page :=
  match upload, l with
  | Some u, Some x =>
      let block := fst <$> List.find (λ b, eqs b.2 (js "video")) (n_blocks x) in
      set_effects (attached s ++ [(u, block, js "/admin/lessons/" ++ str_of_Z (n_id x) ++ js "/edit",
                                   js "Exercise: " ++ n_title x)]) (toasts s) s
  | _, _ => s
  end.

Definition answer (i : nat) (r : Reply) (s : Page) : Page :=
  match ops s !! i with
  | None => s
  | Some o =>
      match o, r with
      | OList k, GaveList (Some l) => ask_next i (map (λ c, GetCurriculum (c_id c)) l) (ODetails l k) s
      | OList k, _ => reloaded i k s
      | ODetails l k, GaveDetails d => reloaded i k (set_curricula (detailed l d) (loading s) s)
      | OSchedule m sch, Failed e =>
          returns i (set_saving None (restoringLessonId s) (toast false e s))
      | OSchedule m sch, GaveModule x =>
          returns i (toast true (js "Updated " ++ m_name m ++ js " schedule")
            (set_saving None (restoringLessonId s)
               (set_curricula (map (map_modules (reschedule m sch x)) (curricula s)) (loading s) s)))
      | ORestore _, Failed e => returns i (set_saving (scheduleSavingId s) None (toast false e s))
      | ORestore t, Done => loadCurricula_then i (ThenRestored t) s
      | OExercise _ _, Failed e => returns i (toast false e (set_exercise (exerciseModal s) false e s))
      | OExercise p u, GaveLesson l =>
          loadCurricula_then i (ThenExercise (p_title p))
            (set_exercise None false (exerciseCreateError s) (attach u l s))
      | OModule _, Failed e => returns i (toast false e (set_module (newModuleModal s) false e s))
      | OModule p, Done => loadCurricula_then i (ThenModule (q_name p)) s
      | _, _ => s
      end
  end.

(** ** Events *)

Inductive event_ :=
| Toggles (m : Z) | SetsWeek (m w : Z) | AddsWeek (m : Module_) | AddsExercise (m : Module_)
| AddsExerciseOn (m : Module_) (w d : Z) | ChangesSchedule (m : Module_) (sch : str) | Restores (l : Lesson)
| ClosesExercise | SubmitsExercise (f : ExerciseForm)
| OpensModule (c : Curriculum) | ClosesModule | SubmitsModule (name type schedule : str)
| Answers (i : nat) (r : Reply).

Definition studio_step (s : Page) (e : event_) : Page :=
  match e with
  | Toggles m => toggleModule m s
  | SetsWeek m w => setWeek m w s
  | AddsWeek m => addWeek m s
  | AddsExercise m => add_exercise m s
  | AddsExerciseOn m w d => openExerciseForDay m w d s
  | ChangesSchedule m sch => updateModuleSchedule m sch s
  | Restores l => restoreLesson l s
  | ClosesExercise => closeExercise s
  | SubmitsExercise f => match handleSubmit f with inr (p, u) => createExercise p u s | inl _ => s end
  | OpensModule c => openModule c s
  | ClosesModule => closeModule s
  | SubmitsModule n t sch =>
      match newModuleModal s with
      | Some x => match submit_module n t sch x.2 with inr p => createModule p s | inl _ => s end
      | None => s
      end
  | Answers i r => answer i r s
  end.

Definition run_studio (es : list event_) (s : Page) : Page := fold_left studio_step es s.

(** The page after its first effect. *)
Definition opened_studio : Page := loadCurricula {|
  curricula := []; loading := true; expandedModules := []; activeWeekTab := ∅; extraWeeks := ∅;
  exerciseModal := None; newModuleModal := None; exerciseSaving := false; moduleSaving := false;
  scheduleSavingId := None; restoringLessonId := None; exerciseCreateError := []; moduleCreateError := [];
  attached := []; toasts := []; ops := []; requests := [] |}.

(** ** Nothing stays disabled *)

Definition loads (o : Op) : bool := match o with OList _ | ODetails _ _ => true | _ => false end.
Definition makes_exercise (o : Op) : bool := match o with OExercise _ _ => true | _ => false end.
Definition makes_module (o : Op) : bool :=
  match o with OModule _ | OList (ThenModule _) | ODetails _ (ThenModule _) => true | _ => false end.
Definition reschedules (o : Op) : bool := match o with OSchedule _ _ => true | _ => false end.
Definition restores (o : Op) : bool :=
  match o with ORestore _ | OList (ThenRestored _) | ODetails _ (ThenRestored _) => true | _ => false end.

(** Whatever is shown as busy waits for an answer. *)
Record busy_ok (s : Page) : Prop := {
  bo_load : loading s = true → existsb loads (ops s) = true;
  bo_exercise : exerciseSaving s = true → existsb makes_exercise (ops s) = true;
  bo_module : moduleSaving s = true → existsb makes_module (ops s) = true;
  bo_schedule : is_Some (scheduleSavingId s) → existsb reschedules (ops s) = true;
  bo_restore : is_Some (restoringLessonId s) → existsb restores (ops s) = true;
}.

Lemma existsb_delete {A} (P : A → bool) l i o :
  l !! i = Some o → P o = false → existsb P l = true → existsb P (delete i l) = true.
Proof.
  revert i. induction l as [|x l IH]; intros [|i]; cbn; try done; intros H N; [injection H as ->; by rewrite N|].
  destruct (P x); [done|]. by eapply IH.
Qed.

Lemma existsb_insert {A} (P : A → bool) l i o o' :
  l !! i = Some o → (P o = true → P o' = true) → existsb P l = true → existsb P (<[i := o']> l) = true.
Proof.
  revert i. induction l as [|x l IH]; intros [|i]; cbn; try done; intros H N.
  - injection H as ->. intros [E|E]%orb_true_iff; apply orb_true_iff; [left; by apply N|by right].
  - intros [E|E]%orb_true_iff; apply orb_true_iff; [by left|right; by eapply IH].
Qed.

Lemma existsb_snoc {A} (P : A → bool) l o : existsb P l = true ∨ P o = true → existsb P (l ++ [o]) = true.
Proof. rewrite existsb_app. cbn. intros [-> | ->]; [done|]. by rewrite orb_true_r. Qed.

Ltac busy := repeat match goal with
  | |- busy_ok _ => split; cbn
  | H : is_Some None |- _ => by destruct H
  | |- _ → _ => intros ?
  | |- existsb _ (_ ++ [_]) = true => apply existsb_snoc
  end.

Lemma answer_busy i r s : busy_ok s → busy_ok (answer i r s).
Proof.
  intros [L E M S R]. unfold answer. destruct (ops s !! i) as [o|] eqn:Hi; [|by split].
  destruct o as [k|l k|m sch|t|p u|p], r as [e|[]|d|x|l'|]; try (by split); try destruct k;
    busy; try done; try (eapply existsb_insert; [exact Hi|done|by eauto]);
    try (eapply existsb_delete; [exact Hi|done|by eauto]);
    destruct u, l'; (eapply existsb_insert; [exact Hi|done|by eauto]).
Qed.

Lemma studio_step_ok s e : busy_ok s → busy_ok (studio_step s e).
Proof.
  intros O. pose proof O as [L E M S R]. destruct e; cbn [studio_step]; try (by split).
  - unfold updateModuleSchedule. destruct (eqs _ _); [done|]. busy; first [by right | left; by eauto].
  - busy; first [by right | left; by eauto].
  - destruct (handleSubmit f) as [|[p u]]; [done|]. unfold createExercise. destruct (exerciseModal s); [|done].
    busy; first [by right | left; by eauto].
  - destruct (newModuleModal s) eqn:N; [|done]. destruct (submit_module _ _ _ _); [done|]. unfold createModule.
    rewrite N. busy; first [by right | left; by eauto].
  - by apply answer_busy.
Qed.

(** The studio never gets stuck. Whatever was opened, changed, created and restored, and
    however the answers came, with errors or without: while something is shown as loading or
    saving, or a control is disabled for it, a request of that kind is waiting for its answer;
    once none is waiting, everything is enabled. *)
Theorem studio_never_stuck (es : list event_) :
  let s := run_studio es opened_studio in
  busy_ok s ∧ (ops s = [] → loading s = false ∧ exerciseSaving s = false ∧ moduleSaving s = false
                          ∧ scheduleSavingId s = None ∧ restoringLessonId s = None).
Proof.
  intros s. assert (O : busy_ok s).
  { unfold s, run_studio. assert (G : busy_ok opened_studio) by (split; cbn; intros ?; try done; by destruct H).
    revert G. generalize opened_studio. induction es as [|e es IH]; intros s0 G; [done|].
    by apply IH, studio_step_ok. }
  split; [done|]. intros E. destruct O as [L X M S R]. rewrite E in *. cbn in *.
  split_and!; [destruct (loading s)|destruct (exerciseSaving s)|destruct (moduleSaving s)
    |destruct (scheduleSavingId s)|destruct (restoringLessonId s)]; try done; exfalso;
    first [discriminate (L eq_refl)|discriminate (X eq_refl)|discriminate (M eq_refl)
          |discriminate (S (mk_is_Some _ _ eq_refl))|discriminate (R (mk_is_Some _ _ eq_refl))].
Qed.

(** ** Every exercise has its place *)

(** [f] sorts the elements into the classes [ks]. *)
Lemma classes_perm {A} (f : A → Z) (l : list A) (ks : list Z) :
  NoDup ks → concat (map (λ k, List.filter (λ x, f x =? k) l) ks) ≡ₚ List.filter (λ x, has ks (f x)) l.
Proof.
  induction l as [|x l IH]; intros N; cbn [List.filter].
  - clear N. induction ks as [|k ks IH]; [done|]. exact IH.
  - destruct (has ks (f x)) eqn:H.
    + apply has_true in H. rewrite <- IH by done. clear IH.
      induction ks as [|k ks IH]; [by apply not_elem_of_nil in H|]. inversion_clear N as [|? ? Hk N']. cbn.
      destruct (Z.eqb_spec (f x) k) as [E|E].
      * cbn. constructor. apply Permutation_app_head. rewrite E in H. clear -Hk E.
        induction ks as [|k' ks IH]; [done|]. apply not_elem_of_cons in Hk as [Hn Hk]. cbn.
        destruct (Z.eqb_spec (f x) k'); [congruence|]. by apply Permutation_app_head, IH.
      * apply elem_of_cons in H as [H|H]; [congruence|]. rewrite (IH N' H). symmetry. apply Permutation_middle.
    + apply has_false in H. rewrite <- IH by done. clear IH N.
      induction ks as [|k ks IH]; [done|]. apply not_elem_of_cons in H as [Hn H]. cbn.
      destruct (Z.eqb_spec (f x) k); [congruence|]. by apply Permutation_app_head, IH.
Qed.

Lemma day_lookup l d :
  default [] (groupLessonsByDay l !! d) = List.filter (λ x, release_day x =? d) l.
Proof.
  unfold groupLessonsByDay. induction l as [|x l IH] using rev_ind; [cbn [fold_left]; by rewrite lookup_empty|].
  rewrite fold_left_app, List.filter_app. cbn [fold_left List.filter]. unfold add_to_day at 1.
  destruct (Z.eqb_spec (release_day x) d) as [->|E].
  - rewrite lookup_insert_eq. cbn. by rewrite IH.
  - rewrite lookup_insert_ne by done. by rewrite IH, app_nil_r.
Qed.

Lemma set_adds l s : NoDup s → NoDup (fold_left set_add l s) ∧ ∀ x, x ∈ fold_left set_add l s ↔ x ∈ s ∨ x ∈ l.
Proof.
  revert s. induction l as [|y l IH]; intros s N; cbn.
  - split; [done|]. intros x. split; [by left|]. by intros [?|?%not_elem_of_nil].
  - unfold set_add at 2 4. destruct (has s y) eqn:H.
    + apply has_true in H. destruct (IH s N) as [N' E]. split; [done|]. intros x. rewrite E, elem_of_cons.
      split; [tauto|]. intros [?|[->|?]]; tauto.
    + apply has_false in H. destruct (IH (s ++ [y])) as [N' E].
      { apply NoDup_app. split_and!; [done| |by apply NoDup_singleton].
        intros z Hz ->%list_elem_of_singleton. done. }
      split; [done|]. intros x. rewrite E, elem_of_app, list_elem_of_singleton, elem_of_cons. tauto.
Qed.

Lemma weeks_ok e m :
  NoDup (weekNumbers e m) ∧ ∀ l, l ∈ activeLessons m → week_of l ∈ weekNumbers e m.
Proof.
  unfold weekNumbers. destruct (set_adds (map week_of (activeLessons m)) [] (NoDup_nil_2)) as [N E].
  set (ws := fold_left set_add _ []) in *.
  assert (N1 : NoDup (if 0 <? e then set_add ws e else ws) ∧ ∀ x, x ∈ ws → x ∈ if 0 <? e then set_add ws e else ws).
  { destruct (0 <? e); [|done]. destruct (set_adds [e] ws N) as [N1 E1]. cbn in N1, E1. split; [done|].
    intros x Hx. apply E1. by left. }
  destruct N1 as [N1 S]. split.
  - by rewrite js_sort_perm.
  - intros l Hl. apply js_sort_elem, S, E. right. by apply list_elem_of_fmap_2.
Qed.

Lemma weeks_sorted e m : StronglySorted Z.lt (weekNumbers e m).
Proof.
  pose proof (weeks_ok e m) as [N _]. revert N. unfold weekNumbers.
  set (l := if 0 <? e then _ else _). intros N.
  assert (S : StronglySorted (λ x y, x - y <= 0) (js_sort (λ a b, a - b) l)).
  { apply (js_sort_sorted _ (λ _, True)); [split; intros; lia|]. by apply Forall_forall. }
  revert N S. generalize (js_sort (λ a b, a - b) l) as k. clear. induction k as [|x k IH]; intros N S; [constructor|].
  inversion_clear N as [|? ? Hx N']. inversion_clear S as [|? ? S' F]. constructor; [by apply IH|].
  apply Forall_forall. rewrite Forall_forall in F. intros y Hy. specialize (F y Hy).
  assert (x ≠ y) by congruence. lia.
Qed.

Lemma schedule_ok s : NoDup (scheduleIndices s) ∧ Forall (λ i, 0 <= i < 7) (scheduleIndices s)
  ∧ StronglySorted Z.lt (scheduleIndices s) ∧ scheduleIndices s ≠ [].
Proof.
  unfold scheduleIndices, SCHEDULE_DAY_INDICES.
  repeat case_match; simplify_eq/=; (split_and!; [| |repeat constructor; lia|done]);
    first [apply (bool_decide_unpack _); vm_compute; exact I | repeat constructor; lia].
Qed.

(** The release days of the scheduled days of some weeks. *)
Definition release_days (si weeks : list Z) : list Z :=
  concat (map (λ w, map (λ i, (w - 1) * 7 + i) si) weeks).

Lemma release_days_elem si weeks d :
  Forall (λ i, 0 <= i < 7) si → d ∈ release_days si weeks ↔ d / 7 + 1 ∈ weeks ∧ d mod 7 ∈ si.
Proof.
  intros F. rewrite Forall_forall in F. unfold release_days. induction weeks as [|w ws IH]; cbn.
  - split; [by intros ?%not_elem_of_nil|]. by intros [?%not_elem_of_nil _].
  - rewrite elem_of_app, IH, elem_of_cons, list_elem_of_fmap. split.
    + intros [(i & -> & Hi)|[? ?]]; [|tauto]. specialize (F i Hi).
      replace ((w - 1) * 7 + i) with (i + (w - 1) * 7) by lia. rewrite Z.div_add, Z.mod_add, (Z.div_small i), (Z.mod_small i) by lia. split; [left; lia|done].
    + intros [[E|E] M]; [|tauto]. left. exists (d mod 7). split; [|done].
      pose proof (Z.div_mod d 7). lia.
Qed.

Lemma release_days_NoDup si weeks :
  Forall (λ i, 0 <= i < 7) si → NoDup si → NoDup weeks → NoDup (release_days si weeks).
Proof.
  intros F N. induction weeks as [|w ws IH]; intros W; [constructor|]. inversion_clear W as [|? ? Hw W'].
  change (NoDup (map (λ i, (w - 1) * 7 + i) si ++ release_days si ws)).
  apply NoDup_app. split_and!; [| |by apply IH].
  - apply NoDup_fmap_2; [intros a b; lia|done].
  - intros d (i & -> & Hi)%list_elem_of_fmap H. apply release_days_elem in H as [H _]; [|done].
    rewrite Forall_forall in F. specialize (F i Hi).
    replace ((w - 1) * 7 + i) with (i + (w - 1) * 7) in H by lia. rewrite Z.div_add, (Z.div_small i) in H by lia. replace (0 + (w - 1) + 1) with w in H by lia. done.
Qed.

(** What the page shows of week [w]. *)
Definition week_shows (m : Module_) (w : Z) : list Lesson :=
  concat (map shown_exercises (daysInActiveWeek w m)).

Lemma shown_by_day m weeks :
  concat (map (week_shows m) weeks)
  ≡ₚ concat (map (λ d, List.filter (λ x, release_day x =? d) (activeLessons m))
               (release_days (scheduleIndices (schedule_days m)) weeks)).
Proof.
  unfold week_shows, daysInActiveWeek, release_days. generalize (scheduleIndices (schedule_days m)) as si. intros si.
  induction weeks as [|w ws IH]; [done|]. cbn [map concat]. rewrite map_app, concat_app. apply Permutation_app; [|exact IH].
  rewrite !map_map. clear IH. induction si as [|i si IH]; [done|]. cbn [map concat].
  apply Permutation_app; [|exact IH]. unfold shown_exercises. cbn [exercises]. by rewrite js_sort_perm, day_lookup.
Qed.

(** C28: the exercises of a module are laid out once each: over the week tabs, which are in
    order and without gaps in what they hold, the days of the schedule show every exercise
    that is not archived and falls on a day of the schedule exactly once, and nothing else,
    whatever week was added by hand; within a day they are in the order of their positions. *)
Theorem exercises_shown_once (extra : Z) (m : Module_) :
  StronglySorted Z.lt (weekNumbers extra m)
  ∧ concat (map (week_shows m) (weekNumbers extra m))
    ≡ₚ List.filter (λ l, has (scheduleIndices (schedule_days m)) (release_day l mod 7)) (activeLessons m)
  ∧ ∀ w d, d ∈ daysInActiveWeek w m → StronglySorted (λ a b, position a - position b <= 0) (shown_exercises d).
Proof.
  split_and!; [apply weeks_sorted| |].
  - rewrite shown_by_day. destruct (schedule_ok (schedule_days m)) as (N & F & _ & _).
    destruct (weeks_ok extra m) as [W E].
    rewrite (classes_perm release_day) by (by apply release_days_NoDup).
    apply reflexive_eq, List.filter_ext_in. intros l Hl%list_elem_of_In.
    apply eq_true_iff_eq. rewrite !has_true, release_days_elem by done.
    split; [tauto|]. intros ?. split; [|done]. by apply E.
  - intros w d _. apply (js_sort_sorted _ (λ _, True)); [split; intros; lia|]. by apply Forall_forall.
Qed.

(** ** A new exercise comes last *)

Lemma max_ge l a : a <= fold_left Z.max l a ∧ ∀ x, x ∈ l → x <= fold_left Z.max l a.
Proof.
  revert a. induction l as [|y l IH]; intros a; cbn; [split; [lia|by intros x ?%not_elem_of_nil]|].
  destruct (IH (Z.max a y)) as [L M]. split; [lia|]. intros x [->|H]%elem_of_cons; [lia|by apply M].
Qed.

Lemma last_day_ge l x : x ∈ l → release_day x <= last_day l.
Proof.
  destruct l as [|y l]; [by intros ?%not_elem_of_nil|]. cbn. destruct (max_ge (map release_day l) (release_day y)) as [L M].
  intros [->|H]%elem_of_cons; [done|]. apply M. by apply list_elem_of_fmap_2.
Qed.

Lemma index_lookup x l i : index_of x l = Some i → l !! i = Some x.
Proof.
  revert i. induction l as [|y l IH]; intros i; cbn; [done|]. destruct (Z.eqb_spec x y) as [->|_]; [by intros [= <-]|].
  destruct (index_of x l); [|done]. intros [= <-]. by apply IH.
Qed.

Lemma sorted_next l i x y : StronglySorted Z.lt l → l !! i = Some x → l !! S i = Some y → x < y.
Proof.
  intros S. revert i. induction S as [|z l S IH F]; intros [|i]; cbn; try done.
  - intros [= <-] H. rewrite Forall_forall in F. by eapply F, list_elem_of_lookup_2.
  - apply IH.
Qed.

Lemma next_slot_ok m :
  (next_slot m).2 ∈ scheduleIndices (schedule_days m) ∧ 1 <= (next_slot m).1
  ∧ last_day (activeLessons m) < ((next_slot m).1 - 1) * 7 + (next_slot m).2.
Proof.
  destruct (schedule_ok (schedule_days m)) as (N & F & S & E). unfold next_slot.
  set (si := scheduleIndices (schedule_days m)) in *. set (t := last_day (activeLessons m)).
  rewrite Forall_forall in F.
  assert (H0 : default 0 (si !! 0%nat) ∈ si) by (destruct si; [done|by left]).
  pose proof (F _ H0) as R0. pose proof (Z.div_mod t 7). pose proof (Z.mod_pos_bound t 7).
  destruct (Z.ltb_spec t 0) as [T|T]; cbn [fst snd]; [split_and!; [done|lia|lia]|].
  pose proof (Z.div_pos t 7).
  destruct (index_of (Z.rem t 7) si) as [i|] eqn:I; cbn [fst snd]; [|split_and!; [done|lia|lia]].
  destruct (decide _) as [L|L]; cbn [fst snd]; [|split_and!; [done|lia|lia]].
  apply index_lookup in I. rewrite Z.rem_mod_nonneg in I by lia.
  destruct (si !! Datatypes.S i) as [y|] eqn:Y; [|apply lookup_ge_None_1 in Y; lia].
  pose proof (sorted_next _ _ _ _ S I Y). cbn. split_and!; [by eapply list_elem_of_lookup_2|lia|lia].
Qed.

(** The button for a new exercise puts it last. Whatever else is typed into the dialog
    it opens, as long as week and day are left, the exercise is created for a day of the
    schedule after every exercise the module has, and the dialog offers the week. *)
Theorem new_exercise_last (m : Module_) (s : Page) (x : ExerciseModal) (f : ExerciseForm)
    (p : ExercisePayload) (u : option Z) :
  exerciseModal (add_exercise m s) = Some x →
  week f = x_defaultWeek x → dayIndex f = x_defaultDayIndex x → handleSubmit f = inr (p, u) →
  x_moduleId x = m_id m ∧ week f ∈ weekOptions (x_weekCount x) f
  ∧ p_release_day p mod 7 ∈ scheduleIndices (schedule_days m)
  ∧ Forall (λ l, release_day l < p_release_day p) (activeLessons m).
Proof.
  intros [= <-] W D H. cbn in W, D. destruct (next_slot_ok m) as (I & P & L).
  assert (E : p_release_day p = ((next_slot m).1 - 1) * 7 + (next_slot m).2).
  { unfold handleSubmit in H. destruct (negb _); [done|]. destruct (negb _ && _ && _); [done|].
    injection H as <- _. cbn. unfold form_release_day. by rewrite W, D. }
  split_and!; [done| | |].
  - apply elem_of_seqZ. lia.
  - rewrite E, Z.add_comm, Z.mod_add by lia. rewrite Z.mod_small; [done|].
    destruct (schedule_ok (schedule_days m)) as (_ & F & _ & _). rewrite Forall_forall in F. by apply F.
  - apply Forall_forall. intros l Hl. pose proof (last_day_ge _ _ Hl). lia.
Qed.

(** ** Examples *)

Definition sample_lesson (i d : Z) : Lesson := {|
  l_id := i; l_title := js "Loops"; lesson_type := js "exercise"; position := 0; release_day := d;
  submission_type := None; content_blocks_count := 1; archived_at := None |}.
Definition sample_module (sch : string) (l : list Lesson) : Module_ := {|
  m_id := 1; m_curriculum := Some 1; m_name := js "Ruby"; m_type := js "live_class"; m_position := 0;
  schedule_days := js sch; scheduled_day_names := []; week_count := 1; lessons := l |}.
Definition sample_page : Page := {|
  curricula := []; loading := false; expandedModules := []; activeWeekTab := ∅; extraWeeks := ∅;
  exerciseModal := None; newModuleModal := None; exerciseSaving := false; moduleSaving := false;
  scheduleSavingId := None; restoringLessonId := None; exerciseCreateError := []; moduleCreateError := [];
  attached := []; toasts := []; ops := []; requests := [] |}.

(** A form with a title and a link. *)
Definition sample_form (w d : Z) : ExerciseForm := {|
  title := js " Arrays "; week := w; dayIndex := d; videoUrl := js "https://youtu.be/x"; instructions := [];
  solution := []; s3Video := None; uploadId := None; filename := []; submissionType := js "manual_complete";
  runnerConfig := {| enabled := false; language := JStr (js "ruby") |}; validationError := [] |}.

Lemma new_exercise_last_witness :
  let m := sample_module "mwf" [sample_lesson 5 9; sample_lesson 6 2] in
  ∃ p u, handleSubmit (sample_form 2 4) = inr (p, u)
    ∧ Forall (λ l, release_day l < p_release_day p) (activeLessons m).
Proof.
  intros m. eexists _, _. split; [vm_compute; reflexivity|].
  eapply (new_exercise_last m sample_page _ (sample_form 2 4)); [reflexivity|vm_compute; reflexivity..].
Defined.

(** An exercise on a day that is not of the schedule (the schedule was changed, or it was
    made for a Saturday) is counted for the module but shown in no week. *)
Lemma unscheduled_exercise_hidden :
  let m := sample_module "weekdays" [sample_lesson 5 5] in
  length (activeLessons m) = 1%nat ∧ weekNumbers 0 m = [1] ∧ concat (map (week_shows m) (weekNumbers 0 m)) = [].
Proof. split_and!; vm_compute; reflexivity. Qed.

(** Adding a week twice adds one: the week added by hand does not count for the next. *)
Lemma second_week_not_added :
  let m := sample_module "weekdays" [sample_lesson 5 0] in
  let s := addWeek m (addWeek m sample_page) in
  weekNumbers (maxExtraWeek m s) m = [1; 2].
Proof. vm_compute. reflexivity. Qed.

(** A module whose first exercise is in a later week opens on a week without a tab. *)
Lemma opens_on_missing_week :
  let m := sample_module "weekdays" [sample_lesson 5 14] in
  activeWeek m sample_page = 1 ∧ weekNumbers (maxExtraWeek m sample_page) m = [3].
Proof. split; vm_compute; reflexivity. Qed.
