(* ===== verification/SignIn.v ===== *)
(** * Signing in (mobile)

    [mobile/src/app/(auth)/sign-in.tsx] and [mobile/src/lib/auth-errors.ts]: signing in by
    password with a second factor, resetting the password, and signing in with Google. The
    identity provider is seen through the calls the screen makes ([calls]) and what it
    answers ([heard]); a handler runs up to its next [await], kept in [ops]. *)

From S2P Require Import Prelude.
From S2P Require Import Keyed.

(** ** Errors *)

Inductive ErrorShape := Shape (code_ message_ longMessage : option str) (errors : option (list ErrorShape)).

Definition FRIENDLY_MESSAGES (c : str) : option str :=
  if eqs c (js "form_identifier_not_found") then Some (js "No Code School account was found for that email.")
  else if eqs c (js "form_password_incorrect") then Some (js "That password is not correct. Please try again.")
  else if eqs c (js "strategy_for_user_invalid")
    then Some (js "This account uses a different sign-in method. Try Google sign-in instead.")
  else if eqs c (js "verification_expired")
    then Some (js "That code has expired. Request a new code and try again.")
  else if eqs c (js "form_code_incorrect")
    then Some (js "That verification code is not correct. Please try again.")
  else if eqs c (js "session_exists") then Some (js "You are already signed in.")
  else None.

(** [outer?.errors?.[0] ?? outer]; [None] is anything that is not an object. *)
Definition inner_error (e : ErrorShape) : ErrorShape :=
  match e with Shape _ _ _ (Some (x :: _)) => x | _ => e end.

Definition or_str (o : option str) (d : str) : str := match o with Some s => str_or s d | None => d end.

Definition authErrorMessage (error : option ErrorShape) (fallback : str) : str :=
  match error with
  | None => fallback
  | Some e =>
      match inner_error e with
      | Shape c m l _ =>
          match c ≫= FRIENDLY_MESSAGES with
          | Some x => x
          | None => or_str l (or_str m fallback)
          end
      end
  end.

(** [clerkError?.errors?.[0]?.code ?? clerkError?.code] *)
Definition error_code (e : ErrorShape) : option str :=
  match e with
  | Shape c _ _ (Some (Shape (Some x) _ _ _ :: _)) => Some x
  | Shape c _ _ _ => c
  end.

Definition isAuthCancellation (error : option ErrorShape) : bool :=
  match error ≫= error_code with
  | Some c => eqs c (js "oauth_access_denied") || eqs c (js "user_cancelled") || eqs c (js "ERR_REQUEST_CANCELED")
  | None => false
  end.

(** ** The screen *)

Inductive AuthStep := methods | password_step | verification | reset_code | new_password.
Inductive VerificationStrategy := email_code | phone_code | totp.

(** Calls of the provider. *)
Inductive Call :=
| Reset
| Password (email pass : str)
| SendEmailCode | SendPhoneCode
| Verify (how : VerificationStrategy) (code : str)
| Create (email : str)
| SendResetCode
| VerifyResetCode (code : str)
| SubmitPassword (pass : str)
| Finalize
| StartSSO
| SetActive (session : str).

(** What an awaited call gave: [Answered error status factors], a rejection, or the end of
    the flow in the browser: the session, whether it can be activated, and whether the user
    closed it. *)
Inductive Outcome :=
| Answered (error : option (option ErrorShape)) (status : str) (factors : list str)
| Threw (error : option ErrorShape)
| Browser (session : option str) (setActive closed : bool).

(** Where a handler waits, with the call it waits for; [AtFinalize] and [AtSendCode] are in
    the handler whose [catch] has the message. *)
Inductive Op :=
| AtPassword (c : Call)
| AtSendCode (s : VerificationStrategy) (c : Call)
| AtVerify (c : Call)
| AtFinalize (fallback : str)
| AtCreate (c : Call)
| AtSendReset
| AtResetCode (c : Call)
| AtNewPassword (c : Call)
| AtSSO
| AtSetActive (c : Call).

Record Screen := {
  step : AuthStep; email : str; pass : str; code_ : str; showPassword : bool; socialLoading : bool;
  message : option str; strategy : VerificationStrategy;
  ops : list Op; calls : list Call; heard : list (Call * Outcome);
}.

Definition opened_sign_in : Screen := {|
  step := methods; email := []; pass := []; code_ := []; showPassword := false; socialLoading := false;
  message := None; strategy := email_code; ops := []; calls := []; heard := [] |}.

Definition set_step (p : AuthStep) (s : Screen) : Screen := {|
  step := p; email := email s; pass := pass s; code_ := code_ s; showPassword := showPassword s;
  socialLoading := socialLoading s; message := message s; strategy := strategy s; ops := ops s;
  calls := calls s; heard := heard s |}.
Definition set_fields (e p c : str) (s : Screen) : Screen := {|
  step := step s; email := e; pass := p; code_ := c; showPassword := showPassword s;
  socialLoading := socialLoading s; message := message s; strategy := strategy s; ops := ops s;
  calls := calls s; heard := heard s |}.
Definition set_flags (show social : bool) (s : Screen) : Screen := {|
  step := step s; email := email s; pass := pass s; code_ := code_ s; showPassword := show;
  socialLoading := social; message := message s; strategy := strategy s; ops := ops s;
  calls := calls s; heard := heard s |}.
Definition set_message (m : option str) (s : Screen) : Screen := {|
  step := step s; email := email s; pass := pass s; code_ := code_ s; showPassword := showPassword s;
  socialLoading := socialLoading s; message := m; strategy := strategy s; ops := ops s;
  calls := calls s; heard := heard s |}.
Definition set_strategy (v : VerificationStrategy) (s : Screen) : Screen := {|
  step := step s; email := email s; pass := pass s; code_ := code_ s; showPassword := showPassword s;
  socialLoading := socialLoading s; message := message s; strategy := v; ops := ops s;
  calls := calls s; heard := heard s |}.
Definition set_ops (l : list Op) (c : list Call) (s : Screen) : Screen := {|
  step := step s; email := email s; pass := pass s; code_ := code_ s; showPassword := showPassword s;
  socialLoading := socialLoading s; message := message s; strategy := strategy s; ops := l;
  calls := c; heard := heard s |}.
Definition hears (c : Call) (o : Outcome) (s : Screen) : Screen := {|
  step := step s; email := email s; pass := pass s; code_ := code_ s; showPassword := showPassword s;
  socialLoading := socialLoading s; message := message s; strategy := strategy s; ops := ops s;
  calls := calls s; heard := heard s ++ [(c, o)] |}.

Definition call (c : Call) (o : Op) (s : Screen) : Screen := set_ops (ops s ++ [o]) (calls s ++ [c]) s.
Definition call_next (i : nat) (c : Call) (o : Op) (s : Screen) : Screen :=
  set_ops (<[i := o]> (ops s)) (calls s ++ [c]) s.
Definition returns (i : nat) (s : Screen) : Screen := set_ops (delete i (ops s)) (calls s) s.

Definition emailValue (s : Screen) : str := toLowerCase (trim (email s)).

(** ** Handlers *)

Definition say (m : string) (s : Screen) : Screen := set_message (Some (js m)) s.
Definition clear (s : Screen) : Screen := set_message None s.

Definition clearError (s : Screen) : Screen :=
  match message s with Some (_ :: _) => clear s | _ => s end.

Definition returnToMethods (s : Screen) : Screen :=
  clear (set_fields (email s) [] [] (set_step methods (set_ops (ops s) (calls s ++ [Reset]) s))).

Definition use_password (s : Screen) : Screen := clear (set_step password_step s).

Definition handlePasswordSignIn (s : Screen) : Screen :=
  if negb (truthy (emailValue s)) || negb (truthy (pass s)) then say "Enter your email and password." s
  else let c := Password (emailValue s) (pass s) in call c (AtPassword c) (clear s).

Definition handleVerification (s : Screen) : Screen :=
  if negb (truthy (trim (code_ s))) then say "Enter the verification code." s
  else let c := Verify (strategy s) (trim (code_ s)) in call c (AtVerify c) (clear s).

(** The curly quotation marks of the message are outside the code units of the model. *)
Definition EMAIL_FIRST : str := js "Enter your email first, then choose Forgot password?".

Definition handleForgotPassword (s : Screen) : Screen :=
  if negb (truthy (emailValue s)) then set_message (Some EMAIL_FIRST) s
  else let c := Create (emailValue s) in call c (AtCreate c) (clear s).

Definition handleResetCode (s : Screen) : Screen :=
  if negb (truthy (trim (code_ s))) then say "Enter the reset code from your email." s
  else let c := VerifyResetCode (trim (code_ s)) in call c (AtResetCode c) (clear s).

Definition handleNewPassword (s : Screen) : Screen :=
  if decide (length (pass s) < 8)%nat then say "Your new password must be at least eight characters." s
  else let c := SubmitPassword (pass s) in call c (AtNewPassword c) (clear s).

Definition handleGoogleSignIn (s : Screen) : Screen :=
  call StartSSO AtSSO (clear (set_flags (showPassword s) true s)).

Definition handleSubmit (s : Screen) : Screen :=
  match step s with
  | verification => handleVerification s
  | reset_code => handleResetCode s
  | new_password => handleNewPassword s
  | _ => handlePasswordSignIn s
  end.

(** ** Answers *)

(** The fallbacks of the handlers' [catch]. *)
Definition NOT_SIGNED_IN : str := js "We could not sign you in. Check your email and password, then try again.".
Definition CODE_INVALID : str := js "That verification code is not valid. Please try again.".
Definition NOT_SENT : str := js "We could not send a reset code. Check your email and try again.".
Definition RESET_INVALID : str := js "That reset code is not valid. Please try again.".
Definition NOT_UPDATED : str := js "We could not update your password. Please try again.".
Definition NOT_FINISHED : str := js "We could not finish signing you in. Please try again.".
Definition GOOGLE_FAILED : str := js "Google sign-in is unavailable right now. Please try again or use email.".
Definition GOOGLE_UNFINISHED : str := js "Google sign-in did not finish. Please try again or use your email and password.".
Definition OTHER_METHOD : str :=
  js "This account needs an authentication method that is not available in the mobile app. Try Google sign-in or contact Code School support.".
Definition OTHER_STEP : str :=
  js "This account needs an additional sign-in step. Try Google sign-in or contact Code School support.".

Definition fails (i : nat) (error : option ErrorShape) (fallback : str) (s : Screen) : Screen :=
  returns i (set_message (Some (authErrorMessage error fallback)) s).

Definition finalizePasswordSignIn (i : nat) (fallback : str) (s : Screen) : Screen :=
  call_next i Finalize (AtFinalize fallback) s.

Definition to_verification (v : VerificationStrategy) (s : Screen) : Screen :=
  set_step verification (set_fields (email s) (pass s) [] (set_strategy v s)).

Definition prepareSecondFactor (i : nat) (factors : list str) (s : Screen) : Screen :=
  if has factors (js "email_code") then call_next i SendEmailCode (AtSendCode email_code SendEmailCode) s
  else if has factors (js "phone_code") then call_next i SendPhoneCode (AtSendCode phone_code SendPhoneCode) s
  else if has factors (js "totp") then returns i (to_verification totp s)
  else fails i (Some (Shape None (Some OTHER_METHOD) None None)) NOT_SIGNED_IN s.

Definition complete (status : str) : bool := eqs status (js "complete").
Definition needs_factor (status : str) : bool :=
  eqs status (js "needs_second_factor") || eqs status (js "needs_client_trust").
Definition needs_password (status : str) : bool := eqs status (js "needs_new_password").

(** The end of [handleGoogleSignIn]. *)
Definition google_ends (i : nat) (s : Screen) : Screen := returns i (set_flags (showPassword s) false s).

Definition resume (i : nat) (o : Op) (r : Outcome) (s : Screen) : Screen :=
  match o, r with
  | AtPassword c, Answered None status factors =>
      let s := hears c r s in
      if complete status then finalizePasswordSignIn i NOT_SIGNED_IN s
      else if needs_factor status then prepareSecondFactor i factors s
      else returns i (set_message (Some OTHER_STEP) s)
  | AtPassword c, Answered (Some e) _ _ | AtPassword c, Threw e => fails i e NOT_SIGNED_IN (hears c r s)
  | AtSendCode v c, Answered None _ _ => returns i (to_verification v (hears c r s))
  | AtSendCode v c, Answered (Some e) _ _ | AtSendCode v c, Threw e => fails i e NOT_SIGNED_IN (hears c r s)
  | AtVerify c, Answered None status _ =>
      let s := hears c r s in
      if complete status then finalizePasswordSignIn i CODE_INVALID s
      else returns i (say "That code could not complete sign-in. Please request a new code and try again." s)
  | AtVerify c, Answered (Some e) _ _ | AtVerify c, Threw e => fails i e CODE_INVALID (hears c r s)
  | AtFinalize _, Answered None _ _ => returns i (hears Finalize r s)
  | AtFinalize _, Answered (Some e) _ _ => fails i e NOT_FINISHED (hears Finalize r s)
  | AtFinalize fallback, Threw e => fails i e fallback (hears Finalize r s)
  | AtCreate c, Answered None _ _ => call_next i SendResetCode AtSendReset (hears c r s)
  | AtCreate c, Answered (Some e) _ _ | AtCreate c, Threw e => fails i e NOT_SENT (hears c r s)
  | AtSendReset, Answered None _ _ =>
      let s := hears SendResetCode r s in
      returns i (set_step reset_code (set_fields (email s) (pass s) [] s))
  | AtSendReset, Answered (Some e) _ _ | AtSendReset, Threw e => fails i e NOT_SENT (hears SendResetCode r s)
  | AtResetCode c, Answered None status _ =>
      let s := hears c r s in
      returns i (if needs_password status then set_step new_password (set_fields (email s) [] [] s)
                 else say "That code could not be verified. Please request a new one." s)
  | AtResetCode c, Answered (Some e) _ _ | AtResetCode c, Threw e => fails i e RESET_INVALID (hears c r s)
  | AtNewPassword c, Answered None status _ =>
      let s := hears c r s in
      if complete status then finalizePasswordSignIn i NOT_UPDATED s
      else returns i (say "We could not finish resetting your password. Please try again." s)
  | AtNewPassword c, Answered (Some e) _ _ | AtNewPassword c, Threw e => fails i e NOT_UPDATED (hears c r s)
  | AtSSO, Browser session active closed =>
      let s := hears StartSSO r s in
      match session ≫= or_undefined, active with
      | Some x, true => call_next i (SetActive x) (AtSetActive (SetActive x)) s
      | _, _ => google_ends i (if closed then s else set_message (Some GOOGLE_UNFINISHED) s)
      end
  | AtSSO, Threw e =>
      let s := hears StartSSO r s in
      google_ends i (if isAuthCancellation e then s
                     else set_message (Some (authErrorMessage e GOOGLE_FAILED)) s)
  | AtSetActive c, Answered _ _ _ => google_ends i (hears c r s)
  | AtSetActive c, Threw e =>
      let s := hears c r s in
      google_ends i (if isAuthCancellation e then s
                     else set_message (Some (authErrorMessage e GOOGLE_FAILED)) s)
  | _, _ => s
  end.

Definition answer (i : nat) (r : Outcome) (s : Screen) : Screen :=
  match ops s !! i with Some o => resume i o r s | None => s end.

(** ** Events *)

Inductive event_ :=
| TypesEmail (t : str) | TypesPassword (t : str) | TypesCode (t : str) | ShowsPassword
| Google | UsesPassword | Submits | Forgets | GoesBack
| Answers (i : nat) (r : Outcome).

Definition sign_in_step (s : Screen) (e : event_) : Screen :=
  match e with
  | TypesEmail t => clearError (set_fields t (pass s) (code_ s) s)
  | TypesPassword t => clearError (set_fields (email s) t (code_ s) s)
  | TypesCode t => clearError (set_fields (email s) (pass s) t s)
  | ShowsPassword => set_flags (negb (showPassword s)) (socialLoading s) s
  | Google => handleGoogleSignIn s
  | UsesPassword => use_password s
  | Submits => handleSubmit s
  | Forgets => handleForgotPassword s
  | GoesBack => returnToMethods s
  | Answers i r => answer i r s
  end.

Definition run_sign_in (es : list event_) (s : Screen) : Screen := fold_left sign_in_step es s.

(** ** The steps are taken in order *)

(** What may be sent to the provider. *)
Definition call_ok (c : Call) : Prop :=
  match c with
  | Password e p => e ≠ [] ∧ p ≠ []
  | Verify _ c | VerifyResetCode c => c ≠ [] ∧ trim c = c
  | Create e => e ≠ []
  | SubmitPassword p => (8 <= length p)%nat
  | SetActive x => x ≠ []
  | _ => True
  end.

Definition is_finalize (c : Call) : bool := match c with Finalize => true | _ => false end.
(** The provider said that the sign-in is complete. *)
Definition completing (x : Call * Outcome) : bool :=
  match x with
  | ((Password _ _ | Verify _ _ | SubmitPassword _), Answered None status _) => complete status
  | _ => false
  end.

Definition activated (c : Call) : list str := match c with SetActive x => [x] | _ => [] end.
(** The sessions the browser flow made. *)
Definition granted (x : Call * Outcome) : list str :=
  match x with
  | (StartSSO, Browser session true _) => match session ≫= or_undefined with Some x => [x] | None => [] end
  | _ => []
  end.

Definition factor_needed (h : list (Call * Outcome)) : Prop :=
  ∃ e p status factors, (Password e p, Answered None status factors) ∈ h ∧ needs_factor status = true.

(** What the provider said before a step is shown. *)
Definition step_ok (p : AuthStep) (h : list (Call * Outcome)) : Prop :=
  match p with
  | methods | password_step => True
  | verification => factor_needed h
  | reset_code => ∃ status factors, (SendResetCode, Answered None status factors) ∈ h
  | new_password => ∃ c status factors,
      (VerifyResetCode c, Answered None status factors) ∈ h ∧ needs_password status = true
  end.

Definition op_ok (cs : list Call) (h : list (Call * Outcome)) (o : Op) : Prop :=
  match o with
  | AtPassword c => c ∈ cs ∧ ∃ e p, c = Password e p
  | AtSendCode _ c => c ∈ cs ∧ (c = SendEmailCode ∨ c = SendPhoneCode) ∧ factor_needed h
  | AtVerify c => c ∈ cs ∧ ∃ v t, c = Verify v t
  | AtFinalize _ => Finalize ∈ cs
  | AtCreate c => c ∈ cs ∧ ∃ e, c = Create e
  | AtSendReset => SendResetCode ∈ cs
  | AtResetCode c => c ∈ cs ∧ ∃ t, c = VerifyResetCode t
  | AtNewPassword c => c ∈ cs ∧ ∃ p, c = SubmitPassword p
  | AtSSO => StartSSO ∈ cs
  | AtSetActive c => c ∈ cs ∧ ∃ x, c = SetActive x
  end.

Record in_order (s : Screen) : Prop := {
  io_calls : Forall call_ok (calls s);
  io_heard : Forall (λ x, x.1 ∈ calls s) (heard s);
  io_finalize : length (List.filter is_finalize (calls s)) = length (List.filter completing (heard s));
  io_active : concat (map activated (calls s)) = concat (map granted (heard s));
  io_step : step_ok (step s) (heard s);
}.

Definition ops_ok (s : Screen) : Prop := Forall (op_ok (calls s) (heard s)) (ops s).

Lemma factor_mono h k : factor_needed h → factor_needed (h ++ k).
Proof. intros (e & p & st & f & H & N). exists e, p, st, f. split; [|done]. apply elem_of_app. by left. Qed.

Lemma op_mono cs ds h k o : op_ok cs h o → op_ok (cs ++ ds) (h ++ k) o.
Proof.
  assert (M : ∀ c, c ∈ cs → c ∈ cs ++ ds) by (intros; apply elem_of_app; by left).
  destruct o; cbn; try (by apply M); intros [H R]; (split; [by apply M|]); try done.
  destruct R as [R F]. split; [done|by apply factor_mono].
Qed.

Lemma step_mono p h k : step_ok p h → step_ok p (h ++ k).
Proof.
  destruct p; cbn; try done; [by apply factor_mono|intros (st & f & H); exists st, f
    |intros (c & st & f & H & N); exists c, st, f; split; [|done]]; apply elem_of_app; by left.
Qed.

(** One step of the screen: new calls, new answers, new places to wait. *)
Lemma advance s s' cs h :
  in_order s → ops_ok s → calls s' = calls s ++ cs → heard s' = heard s ++ h →
  Forall call_ok cs → Forall (λ x, x.1 ∈ calls s) h →
  length (List.filter is_finalize cs) = length (List.filter completing h) →
  concat (map activated cs) = concat (map granted h) →
  step s' = step s ∨ step_ok (step s') (heard s') →
  Forall (λ o, o ∈ ops s ∨ op_ok (calls s') (heard s') o) (ops s') → in_order s' ∧ ops_ok s'.
Proof.
  intros [A B C D E] O Hc Hh Ac Bh Cf Da Es Os. split.
  - split; rewrite ?Hc, ?Hh.
    + by apply Forall_app.
    + apply Forall_app. split; (eapply Forall_impl; [eassumption|]); intros x Hx; apply elem_of_app; by left.
    + rewrite !List.filter_app, !length_app. congruence.
    + rewrite !map_app, !concat_app. congruence.
    + destruct Es as [-> | Es]; [by apply step_mono|]. by rewrite <- Hh.
  - unfold ops_ok. eapply Forall_impl; [exact Os|]. intros o [Ho|Ho]; [|done].
    rewrite Hc, Hh. apply op_mono. unfold ops_ok in O. rewrite Forall_forall in O. by apply O.
Qed.

Lemma same_ops (P : Op → Prop) (l : list Op) : Forall (λ o, o ∈ l ∨ P o) l.
Proof. apply Forall_forall. intros o. by left. Qed.

(** The places a handler waits at after it returned, went on, or began. *)
Lemma returned_ops (P : Op → Prop) l i : Forall (λ o, o ∈ l ∨ P o) (delete i l).
Proof. apply Forall_delete, same_ops. Qed.
Lemma next_ops (P : Op → Prop) l i o : P o → Forall (λ o, o ∈ l ∨ P o) (<[i := o]> l).
Proof. intros H. apply Forall_insert; [apply same_ops|by right]. Qed.
Lemma begun_ops (P : Op → Prop) l o : P o → Forall (λ o, o ∈ l ∨ P o) (l ++ [o]).
Proof. intros H. apply Forall_app. split; [apply same_ops|]. apply Forall_singleton. by right. Qed.

Create HintDb signin.
#[local] Hint Resolve same_ops returned_ops next_ops begun_ops : signin.

Lemma last_elem {A} (l : list A) x : x ∈ l ++ [x].
Proof. apply elem_of_app. right. by left. Qed.
#[local] Hint Resolve last_elem : signin.

(** Nothing is called and nothing heard. *)
Lemma quiet_sign_in s s' :
  in_order s ∧ ops_ok s → calls s' = calls s → heard s' = heard s → ops s' = ops s →
  step s' = step s ∨ step_ok (step s') (heard s') → in_order s' ∧ ops_ok s'.
Proof.
  intros [I O] C H P E. eapply (advance s s' [] []); try done; rewrite ?app_nil_r; [done..|].
  rewrite P. apply same_ops.
Qed.

(** A handler calls the provider and waits. *)
Lemma call_step s c o :
  in_order s ∧ ops_ok s → call_ok c → is_finalize c = false → activated c = [] →
  (∀ cs h, c ∈ cs → op_ok cs h o) → in_order (call c o s) ∧ ops_ok (call c o s).
Proof.
  intros [I O] Ok F A P. apply (advance s _ [c] []); cbn; rewrite ?app_nil_r, ?F, ?A; try done.
  - by apply Forall_singleton.
  - by left.
  - apply begun_ops, P, last_elem.
Qed.

(** The place a handler waits at knows the call it waits for. *)
Ltac own := intros; cbn; split; [done|]; repeat eexists.

Lemma trim_code t : truthy (trim t) = true → trim t ≠ [] ∧ trim (trim t) = trim t.
Proof. intros H. split; [by destruct (trim t)|apply trim_idem]. Qed.

Lemma truthy_true t : truthy t = true → t ≠ [].
Proof. by destruct t. Qed.

Lemma submit_ok s : in_order s ∧ ops_ok s → in_order (handleSubmit s) ∧ ops_ok (handleSubmit s).
Proof.
  intros O. assert (Q : ∀ m, in_order (set_message m s) ∧ ops_ok (set_message m s)).
  { intros m. by apply (quiet_sign_in s); [..|left]. }
  assert (W : in_order (handlePasswordSignIn s) ∧ ops_ok (handlePasswordSignIn s)).
  { unfold handlePasswordSignIn. destruct (truthy (emailValue s)) eqn:E; [|apply Q].
    destruct (truthy (pass s)) eqn:P; [|apply Q]. apply (call_step (clear s)); [apply Q|split; by apply truthy_true|done|done|own]. }
  unfold handleSubmit, handleVerification, handleResetCode, handleNewPassword. destruct (step s); try exact W.
  - destruct (truthy (trim (code_ s))) eqn:T; [|apply Q].
    apply (call_step (clear s)); [apply Q|by apply trim_code|done|done|own].
  - destruct (truthy (trim (code_ s))) eqn:T; [|apply Q].
    apply (call_step (clear s)); [apply Q|by apply trim_code|done|done|own].
  - destruct (decide _); [apply Q|]. apply (call_step (clear s)); [apply Q|cbn; lia|done|done|own].
Qed.

(** An answer that ends the handler: one thing heard, nothing called. *)
Lemma heard_ends s s' c r i :
  in_order s ∧ ops_ok s → c ∈ calls s → completing (c, r) = false → granted (c, r) = [] →
  calls s' = calls s → heard s' = heard s ++ [(c, r)] → ops s' = delete i (ops s) →
  step s' = step s ∨ step_ok (step s') (heard s') → in_order s' ∧ ops_ok s'.
Proof.
  intros [I O] Hc C G Cs Hs P E. apply (advance s s' [] [(c, r)]); cbn [List.filter map concat]; rewrite ?app_nil_r, ?C, ?G; try done.
  - by apply Forall_singleton.
  - rewrite P. apply returned_ops.
Qed.

(** An answer after which the handler calls again. *)
Lemma heard_next s s' c r i d o :
  in_order s ∧ ops_ok s → c ∈ calls s →
  (if is_finalize d then 1 else 0)%nat = (if completing (c, r) then 1 else 0)%nat → activated d = granted (c, r) →
  call_ok d → calls s' = calls s ++ [d] → heard s' = heard s ++ [(c, r)] → ops s' = <[i := o]> (ops s) →
  step s' = step s → op_ok (calls s') (heard s') o → in_order s' ∧ ops_ok s'.
Proof.
  intros [I O] Hc F G Ok Cs Hs P E Oo. apply (advance s s' [d] [(c, r)]); cbn [List.filter map concat]; rewrite ?app_nil_r; try done.
  - by apply Forall_singleton.
  - by apply Forall_singleton.
  - by destruct (is_finalize d), (completing (c, r)).
  - by left.
  - rewrite P. by apply next_ops.
Qed.

Lemma fails_ok s c r i e m :
  in_order s ∧ ops_ok s → c ∈ calls s → completing (c, r) = false → granted (c, r) = [] →
  in_order (fails i e m (hears c r s)) ∧ ops_ok (fails i e m (hears c r s)).
Proof. intros O Hc C G. by apply (heard_ends s _ c r i); [..|left]. Qed.

Section Answers.
Context (i : nat) (r : Outcome) (s : Screen) (O : in_order s ∧ ops_ok s).
#[local] Abbreviation ok s' := (in_order s' ∧ ops_ok s').

Lemma ends_ok c s' : c ∈ calls s → completing (c, r) = false → granted (c, r) = [] →
  calls s' = calls s → heard s' = heard s ++ [(c, r)] → ops s' = delete i (ops s) →
  step s' = step s ∨ step_ok (step s') (heard s') → ok s'.
Proof. intros Hc C G. by apply heard_ends. Qed.

Lemma final_ok c m : c ∈ calls s → completing (c, r) = true → granted (c, r) = [] →
  ok (finalizePasswordSignIn i m (hears c r s)).
Proof.
  intros Hc C G. eapply (heard_next s _ c r i Finalize); try done; [by rewrite C|]. apply last_elem.
Qed.

Lemma password_ok e p : Password e p ∈ calls s → ok (resume i (AtPassword (Password e p)) r s).
Proof.
  intros Hc. destruct r as [[x|] st fs|x|x a d] eqn:R; cbn [resume]; try done; try (by apply fails_ok).
  destruct (complete st) eqn:C; [rewrite <- R; apply final_ok; by rewrite ?R|].
  destruct (needs_factor st) eqn:N; [|by eapply (ends_ok (Password e p)); rewrite ?R; [..|left]].
  assert (FN : factor_needed (heard s ++ [(Password e p, Answered None st fs)])).
  { exists e, p, st, fs. split; [apply last_elem|done]. }
  unfold prepareSecondFactor. repeat case_match; [| | |by apply fails_ok].
  - eapply (heard_next s _ (Password e p) _ i SendEmailCode); try done; [by cbn; rewrite C|].
    cbn. split_and!; [apply last_elem|by left|done].
  - eapply (heard_next s _ (Password e p) _ i SendPhoneCode); try done; [by cbn; rewrite C|].
    cbn. split_and!; [apply last_elem|by right|done].
  - by eapply (ends_ok (Password e p)); rewrite ?R; [..|right].
Qed.

Lemma google_ok : StartSSO ∈ calls s → ok (resume i AtSSO r s).
Proof.
  intros Hc. destruct r as [e st fs|x|x a d] eqn:R; cbn [resume]; try done.
  - destruct (isAuthCancellation x); by eapply (ends_ok StartSSO); rewrite ?R; [..|left].
  - destruct (x ≫= or_undefined) as [y|] eqn:Y.
    + destruct a.
      * eapply (heard_next s _ StartSSO _ i (SetActive y)); try done; [by cbn; rewrite Y| |].
        -- destruct x as [t|]; [|done]. cbn in Y. unfold or_undefined in Y. destruct t; [done|]. by injection Y as <-.
        -- cbn. split; [apply last_elem|by eexists].
      * destruct d; by eapply (ends_ok StartSSO); rewrite ?R; [..|left].
    + assert (G : granted (StartSSO, Browser x a d) = []) by (cbn; rewrite Y; by destruct a).
      destruct d; by eapply (ends_ok StartSSO); rewrite ?R; [..|left].
Qed.

Lemma sign_in_answer_ok : ok (answer i r s).
Proof.
  unfold answer. destruct (ops s !! i) as [o|] eqn:Hi; [|done].
  assert (Po : op_ok (calls s) (heard s) o).
  { destruct O as [_ P]. unfold ops_ok in P. rewrite Forall_forall in P. by eapply P, list_elem_of_lookup_2. }
  assert (K : ∀ c e m, c ∈ calls s → completing (c, r) = false → granted (c, r) = [] →
    ok (fails i e m (hears c r s))) by (intros; by apply fails_ok).
  pose proof ends_ok as E. pose proof final_ok as Z0.
  destruct o as [c|v c|c|m|c| |c|c| |c]; cbn [op_ok] in Po;
    [| | | | | | | |by apply google_ok|].
  - destruct Po as (Hc & e & p & ->). by apply password_ok.
  - destruct Po as (Hc & Hv & FN). destruct r as [[x|] st fs|x|x a d]; cbn [resume]; try done;
      try (by apply K; destruct Hv as [-> | ->]).
    eapply (E c); try done; [by destruct Hv as [-> | ->]..|]. right. by apply factor_mono.
  - destruct Po as (Hc & v & t & ->). destruct r as [[x|] st fs|x|x a d]; cbn [resume]; try done; try (by apply K).
    destruct (complete st) eqn:C; [by apply Z0|]. by eapply E; [..|left].
  - destruct r as [[x|] st fs|x|x a d]; cbn [resume]; try done; try (by apply K). by eapply E; [..|left].
  - destruct Po as (Hc & e & ->). destruct r as [[x|] st fs|x|x a d]; cbn [resume]; try done; try (by apply K).
    eapply (heard_next s _ (Create e) _ i SendResetCode); try done. apply last_elem.
  - destruct r as [[x|] st fs|x|x a d]; cbn [resume]; try done; try (by apply K).
    eapply (E SendResetCode); try done. right. exists st, fs. apply last_elem.
  - destruct Po as (Hc & t & ->). destruct r as [[x|] st fs|x|x a d]; cbn [resume]; try done; try (by apply K).
    destruct (needs_password st) eqn:N; [|by eapply E; [..|left]].
    eapply (E (VerifyResetCode t)); try done. right. exists t, st, fs. split; [apply last_elem|done].
  - destruct Po as (Hc & p & ->). destruct r as [[x|] st fs|x|x a d]; cbn [resume]; try done; try (by apply K).
    destruct (complete st) eqn:C; [by apply Z0|]. by eapply E; [..|left].
  - destruct Po as (Hc & y & ->). destruct r as [e st fs|x|x a d]; cbn [resume]; try done.
    + by eapply E; [..|left].
    + destruct (isAuthCancellation x); by eapply E; [..|left].
Qed.
End Answers.

Lemma sign_in_step_ok s e :
  in_order s ∧ ops_ok s → in_order (sign_in_step s e) ∧ ops_ok (sign_in_step s e).
Proof.
  intros O. assert (Q : ∀ s', calls s' = calls s → heard s' = heard s → ops s' = ops s → step s' = step s →
    in_order s' ∧ ops_ok s') by (intros; by apply (quiet_sign_in s); [..|left]).
  assert (C : ∀ a b c, in_order (clearError (set_fields a b c s)) ∧ ops_ok (clearError (set_fields a b c s))).
  { intros a b c. unfold clearError. destruct (message _) as [[|]|]; by apply Q. }
  destruct e; cbn [sign_in_step]; try apply C; try (by apply Q).
  - apply (call_step (clear (set_flags (showPassword s) true s))); [by apply Q|done..].
  - by apply (quiet_sign_in s); [..|right].
  - by apply submit_ok.
  - unfold handleForgotPassword. destruct (truthy (emailValue s)) eqn:E; [|by apply Q].
    apply (call_step (clear s)); [by apply Q|by apply truthy_true|done|done|own].
  - destruct O as [I P]. apply (advance s _ [Reset] []); cbn; rewrite ?app_nil_r; try done; [by repeat constructor|by right|].
    apply same_ops.
  - by apply sign_in_answer_ok.
Qed.

(** C14: the steps of signing in are taken in order. Whatever the user types and presses,
    also while requests are under way, and whatever the provider answers, in any order:
    nothing empty, untrimmed or too short is sent; every answer is to a call that was made;
    the sign-in is finalized exactly as often as the provider called it complete, and the
    sessions that are activated are those the browser flow made; the screen asks for a second
    factor only if one is needed, for a reset code only if one was sent, and for a new
    password only if a reset code was accepted. *)
Theorem sign_in_in_order (es : list event_) : in_order (run_sign_in es opened_sign_in).
Proof.
  assert (G : in_order opened_sign_in ∧ ops_ok opened_sign_in) by (split; [by split; constructor|constructor]).
  assert (R : in_order (run_sign_in es opened_sign_in) ∧ ops_ok (run_sign_in es opened_sign_in)); [|apply R].
  revert G. unfold run_sign_in. generalize opened_sign_in. induction es as [|e es IH]; intros s G; [done|].
  by apply IH, sign_in_step_ok.
Qed.

(** An error is always shown with some text. *)
Lemma error_message_shown (error : option ErrorShape) (fallback : str) :
  fallback ≠ [] → authErrorMessage error fallback ≠ [].
Proof.
  assert (S : ∀ o d, d ≠ [] → or_str o d ≠ []) by (by intros [[|]|] d).
  intros N. unfold authErrorMessage. destruct error as [e|]; [|done]. destruct (inner_error e) as [c m l es].
  destruct (c ≫= FRIENDLY_MESSAGES) as [x|] eqn:E; [|by apply S, S].
  destruct c as [c|]; [|done]. cbn in E. unfold FRIENDLY_MESSAGES in E. repeat case_match; by simplify_eq.
Qed.

(** ** Examples *)

Definition ana : str := js "ana@csg.gu".
Definition typed : list event_ := [UsesPassword; TypesEmail (js " Ana@CSG.gu "); TypesPassword (js "secret")].

(** A password with a second factor by mail, up to the session. *)
Lemma two_factor_sign_in :
  let s := run_sign_in (typed ++ [Submits; Answers 0 (Answered None (js "needs_second_factor") [js "totp"; js "email_code"]);
                                  Answers 0 (Answered None [] []); TypesCode (js " 123 "); Submits;
                                  Answers 0 (Answered None (js "complete") [])]) opened_sign_in in
  calls s = [Password ana (js "secret"); SendEmailCode; Verify email_code (js "123"); Finalize] ∧ message s = None.
Proof. split; vm_compute; reflexivity. Qed.

(** The key of the keyboard submits again while the first request is under way. *)
Lemma submitted_twice :
  calls (run_sign_in (typed ++ [Submits; Submits]) opened_sign_in)
  = [Password ana (js "secret"); Password ana (js "secret")].
Proof. vm_compute. reflexivity. Qed.

(** Going back does not stop a request: its answer takes the user, who is choosing a method,
    to the step it leads to, of a sign-in that was reset. *)
Lemma late_answer_changes_step :
  let s := run_sign_in (typed ++ [Forgets; Answers 0 (Answered None [] []); GoesBack]) opened_sign_in in
  step s = methods ∧ List.last (calls s) StartSSO = Reset
  ∧ step (answer 0 (Answered None [] []) s) = reset_code.
Proof. split_and!; vm_compute; reflexivity. Qed.
