(* ===== verification/Announcements.v ===== *)
(** * Announcements (web)

    [web/src/pages/shared/Announcements.tsx]: the filters of the page, which are its address,
    and the handlers. [updateQuery] writes the address, [filters_of] reads it, and the page
    asks for what it reads; a handler runs up to its next [await], kept in [ops]. *)

From S2P Require Import Prelude.
From S2P Require Import Keyed.
From S2P Require Import Url.
From S2P Require Import Json.

(** ** Filters *)

Inductive Audience := cohort_audience | global_audience | staff_audience.
Inductive Status := draft | published | archived.
Inductive ReadFilter := all_read | read | unread.
Inductive Sort := published_desc | published_asc | created_desc | created_asc | updated_desc | updated_asc.

#[export] Instance Audience_eq_dec : EqDecision Audience.
Proof. solve_decision. Defined.
#[export] Instance Status_eq_dec : EqDecision Status.
Proof. solve_decision. Defined.
#[export] Instance ReadFilter_eq_dec : EqDecision ReadFilter.
Proof. solve_decision. Defined.
#[export] Instance Sort_eq_dec : EqDecision Sort.
Proof. solve_decision. Defined.

Definition audience_name (a : Audience) : str :=
  match a with cohort_audience => js "cohort" | global_audience => js "global" | staff_audience => js "staff" end.
Definition status_name (s : Status) : str :=
  match s with draft => js "draft" | published => js "published" | archived => js "archived" end.
Definition read_name (r : ReadFilter) : str :=
  match r with all_read => js "all" | read => js "read" | unread => js "unread" end.
Definition sort_name (s : Sort) : str :=
  match s with
  | published_desc => js "published_desc" | published_asc => js "published_asc"
  | created_desc => js "created_desc" | created_asc => js "created_asc"
  | updated_desc => js "updated_desc" | updated_asc => js "updated_asc"
  end.

(** Comparisons of a parameter with the names. *)
Definition named {A} (name : A → str) (l : list A) (v : option str) : option A :=
  match v with Some t => List.find (λ a, eqs t (name a)) l | None => None end.

(** [None] is the choice of all; [cohort] is the text of the parameter or ["all"]. *)
Record Filters := {
  manageMode : bool; page : option Z; readFilter : ReadFilter; audienceFilter : option Audience;
  statusFilter : option Status; cohortFilter : str; sortFilter : Sort;
}.

#[export] Instance Filters_eq_dec : EqDecision Filters.
Proof. solve_decision. Defined.

Definition param (p : list (str * str)) (n : string) : option str := params_get p (js n).

Definition or_text (o : option str) (d : str) : str := match o with Some t => str_or t d | None => d end.

(** [Number(text)] for decimal digits; any other text is read as [NaN], which is [None] and,
    as in the comparisons React makes, equal to itself. *)
Definition Number (t : str) : option Z :=
  if truthy t && forallb is_digit t then Some (digits_value t) else None.

Definition filters_of (isStaff : bool) (p : list (str * str)) : Filters :=
  let manage := isStaff && bool_decide (param p "scope" = Some (js "manage")) in {|
  manageMode := manage;
  page := Number (or_text (param p "page") (js "1"));
  readFilter := default all_read (named read_name [read; unread] (param p "read"));
  audienceFilter := named audience_name [cohort_audience; global_audience; staff_audience] (param p "audience");
  statusFilter := match named status_name [draft; published; archived] (param p "status") with
                  | Some s => Some s
                  | None => if manage then Some published else None end;
  cohortFilter := or_text (param p "cohort_id") (js "all");
  sortFilter := default published_desc
    (named sort_name [published_asc; created_desc; created_asc; updated_desc; updated_asc] (param p "sort")) |}.

(** ** Writing the address *)

Definition removed (v : option str) : bool :=
  match v with None => true | Some t => negb (truthy t) || eqs t (js "all") end.

Definition params_delete (p : list (str * str)) (k : str) : list (str * str) :=
  List.filter (λ x, negb (eqs x.1 k)) p.

Definition put (p : list (str * str)) (kv : string * option str) : list (str * str) :=
  match kv.2 with
  | Some t => if removed kv.2 then params_delete p (js kv.1) else params_set p (js kv.1) t
  | None => params_delete p (js kv.1)
  end.

Definition updateQuery (patch : list (string * option str)) (p : list (str * str)) : list (str * str) :=
  fold_left put patch p.

(** What the controls above the list change. *)
Inductive Choice :=
| Inbox | Manage
| ChooseAudience (a : option Audience) | ChooseCohort (c : str) | ChooseStatus (s : option Status)
| ChooseRead (r : ReadFilter) | ChooseSort (s : Sort) | ClearFilters | GoToPage (n : Z).

Definition or_all {A} (name : A → str) (o : option A) : str :=
  match o with Some a => name a | None => js "all" end.

Definition FIRST : option str := Some (js "1").

Definition patch_of (f : Filters) (c : Choice) : list (string * option str) :=
  match c with
  | Inbox => [("scope", None); ("status", None); ("audience", None); ("cohort_id", None); ("page", FIRST)]
  | Manage => [("scope", Some (js "manage"));
               ("status", Some (match statusFilter f with None => js "published" | Some s => status_name s end));
               ("page", FIRST)]
  | ChooseAudience a =>
      [("audience", Some (or_all audience_name a));
       ("cohort_id", if bool_decide (a = Some cohort_audience) then Some (cohortFilter f) else None);
       ("page", FIRST)]
  | ChooseCohort t => [("cohort_id", Some t); ("page", FIRST)]
  | ChooseStatus s => [("status", Some (or_all status_name s)); ("page", FIRST)]
  | ChooseRead r => [("read", Some (read_name r)); ("page", FIRST)]
  | ChooseSort s => [("sort", Some (sort_name s)); ("page", FIRST)]
  | ClearFilters =>
      if manageMode f
      then [("audience", None); ("cohort_id", None); ("status", Some (js "published"));
            ("sort", Some (js "published_desc")); ("page", FIRST)]
      else [("read", None); ("sort", Some (js "published_desc")); ("page", FIRST)]
  | GoToPage n => [("page", Some (str_of_Z n))]
  end%string.

Definition choose (isStaff : bool) (c : Choice) (p : list (str * str)) : list (str * str) :=
  updateQuery (patch_of (filters_of isStaff p) c) p.

(** ** What a choice means *)

Definition with_page (n : option Z) (f : Filters) : Filters := {|
  manageMode := manageMode f; page := n; readFilter := readFilter f; audienceFilter := audienceFilter f;
  statusFilter := statusFilter f; cohortFilter := cohortFilter f; sortFilter := sortFilter f |}.

(** The choice on the filters themselves; every choice but that of a page goes to the first. *)
Definition choose_filters (c : Choice) (f : Filters) : Filters :=
  let first := Some 1 in
  match c with
  | Inbox => {| manageMode := false; page := first; readFilter := readFilter f; audienceFilter := None;
                statusFilter := None; cohortFilter := js "all"; sortFilter := sortFilter f |}
  | Manage => {| manageMode := true; page := first; readFilter := readFilter f; audienceFilter := audienceFilter f;
                 statusFilter := Some (default published (statusFilter f)); cohortFilter := cohortFilter f;
                 sortFilter := sortFilter f |}
  | ChooseAudience a =>
      {| manageMode := manageMode f; page := first; readFilter := readFilter f; audienceFilter := a;
         statusFilter := statusFilter f;
         cohortFilter := if bool_decide (a = Some cohort_audience) then cohortFilter f else js "all";
         sortFilter := sortFilter f |}
  | ChooseCohort t =>
      {| manageMode := manageMode f; page := first; readFilter := readFilter f; audienceFilter := audienceFilter f;
         statusFilter := statusFilter f; cohortFilter := t; sortFilter := sortFilter f |}
  | ChooseStatus s =>
      {| manageMode := manageMode f; page := first; readFilter := readFilter f; audienceFilter := audienceFilter f;
         statusFilter := s; cohortFilter := cohortFilter f; sortFilter := sortFilter f |}
  | ChooseRead r =>
      {| manageMode := manageMode f; page := first; readFilter := r; audienceFilter := audienceFilter f;
         statusFilter := statusFilter f; cohortFilter := cohortFilter f; sortFilter := sortFilter f |}
  | ChooseSort s =>
      {| manageMode := manageMode f; page := first; readFilter := readFilter f; audienceFilter := audienceFilter f;
         statusFilter := statusFilter f; cohortFilter := cohortFilter f; sortFilter := s |}
  | ClearFilters =>
      {| manageMode := manageMode f; page := first;
         readFilter := if manageMode f then readFilter f else all_read;
         audienceFilter := if manageMode f then None else audienceFilter f;
         statusFilter := if manageMode f then Some published else statusFilter f;
         cohortFilter := if manageMode f then js "all" else cohortFilter f; sortFilter := published_desc |}
  | GoToPage n => with_page (Some n) f
  end.

(** The controls that are shown: those of the manager in the studio, the inbox's elsewhere; a
    cohort only for announcements to cohorts, and the pages from the first. *)
Definition offered (isStaff : bool) (f : Filters) (c : Choice) : bool :=
  match c with
  | Inbox | Manage => isStaff
  | ChooseAudience _ | ChooseStatus _ => manageMode f
  | ChooseCohort t => manageMode f && bool_decide (audienceFilter f = Some cohort_audience) && truthy t
  | ChooseRead _ => negb (manageMode f)
  | ChooseSort _ | ClearFilters => true
  | GoToPage n => Z.leb 1 n
  end.

(** ** The page *)

Record Announcement := { id : Z; title : str; body : str }.
Record Meta := { m_page : Z; total_pages : Z }.
Record Form := { f_title : str; f_body : str; f_audience : Audience; f_cohort : str; pinned : bool; send_push : bool }.

(** What [getAnnouncements] is asked for, twelve to a page. *)
Record Query := {
  q_manage : bool; q_page : option Z; q_audience : option Audience; q_status : option Status;
  q_cohort : option (option Z); q_read : option ReadFilter; q_sort : Sort;
}.

Definition query_of (f : Filters) : Query := {|
  q_manage := manageMode f; q_page := page f; q_audience := audienceFilter f;
  q_status := if manageMode f then statusFilter f else None;
  q_cohort := if eqs (cohortFilter f) (js "all") then None else Some (Number (cohortFilter f));
  q_read := if manageMode f then None
            else if bool_decide (readFilter f = all_read) then None else Some (readFilter f);
  q_sort := sortFilter f |}.

Inductive Request :=
| GetAnnouncements (q : Query) | GetAnnouncement (i : Z) | GetCohorts
| CreateAnnouncement (t b : str) (a : Audience) (cohort : option (option Z)) (pin push : bool)
| ArchiveAnnouncement (i : Z) | MarkAllRead.

(** What waits: a load, with what its caller does afterwards, and the requests of the handlers
    with the filters they saw; [OConfirm] waits for the dialog. *)
Inductive After := Nothing | Posted | Archived_.
Inductive Op :=
| OLoad (background : bool) (k : After) | OOne | OCohorts | OCreate (f : Filters)
| OConfirm (a : Announcement) (f : Filters) | OArchive (f : Filters) | OMark (f : Filters).

Inductive Answer :=
| Feed (l : list Announcement) (unread : Z) (m : Meta) | One (a : Announcement) | Cohorts (l : list Z)
| Unread (n : Z) | Ok | Failed (e : str) | Pressed (yes : bool).

Record Page := {
  staff : bool; address : list (str * str); announcements : list Announcement; cohorts : list Z;
  unreadCount : Z; pagination : Meta; loading : bool; saving : bool; archivingId : option Z;
  formError : str; form : Form; ops : list Op; requests : list Request; notices : list (bool * str);
}.

Definition emptyPagination : Meta := {| m_page := 1; total_pages := 0 |}.

Definition set_address (p : list (str * str)) (s : Page) : Page :=
  {| staff := staff s; address := p; announcements := announcements s; cohorts := cohorts s;
     unreadCount := unreadCount s; pagination := pagination s; loading := loading s; saving := saving s;
     archivingId := archivingId s; formError := formError s; form := form s; ops := ops s;
     requests := requests s; notices := notices s |}.
Definition set_feed (l : list Announcement) (n : Z) (m : Meta) (s : Page) : Page :=
  {| staff := staff s; address := address s; announcements := l; cohorts := cohorts s;
     unreadCount := n; pagination := m; loading := loading s; saving := saving s;
     archivingId := archivingId s; formError := formError s; form := form s; ops := ops s;
     requests := requests s; notices := notices s |}.
Definition set_flags (l sv : bool) (a : option Z) (s : Page) : Page :=
  {| staff := staff s; address := address s; announcements := announcements s; cohorts := cohorts s;
     unreadCount := unreadCount s; pagination := pagination s; loading := l; saving := sv;
     archivingId := a; formError := formError s; form := form s; ops := ops s;
     requests := requests s; notices := notices s |}.
Definition set_form (e : str) (f : Form) (c : list Z) (s : Page) : Page :=
  {| staff := staff s; address := address s; announcements := announcements s; cohorts := c;
     unreadCount := unreadCount s; pagination := pagination s; loading := loading s; saving := saving s;
     archivingId := archivingId s; formError := e; form := f; ops := ops s;
     requests := requests s; notices := notices s |}.
Definition set_ops (o : list Op) (r : list Request) (n : list (bool * str)) (s : Page) : Page :=
  {| staff := staff s; address := address s; announcements := announcements s; cohorts := cohorts s;
     unreadCount := unreadCount s; pagination := pagination s; loading := loading s; saving := saving s;
     archivingId := archivingId s; formError := formError s; form := form s; ops := o;
     requests := r; notices := n |}.

Definition ask (r : Request) (o : Op) (s : Page) : Page := set_ops (ops s ++ [o]) (requests s ++ [r]) (notices s) s.
Definition returns (i : nat) (s : Page) : Page := set_ops (delete i (ops s)) (requests s) (notices s) s.
Definition notice (ok : bool) (m : str) (s : Page) : Page := set_ops (ops s) (requests s) (notices s ++ [(ok, m)]) s.

Definition filters (s : Page) : Filters := filters_of (staff s) (address s).
Definition set_loading (l : bool) (s : Page) : Page := set_flags l (saving s) (archivingId s) s.
Definition set_saving (b : bool) (s : Page) : Page := set_flags (loading s) b (archivingId s) s.
Definition set_archiving (a : option Z) (s : Page) : Page := set_flags (loading s) (saving s) a s.
Definition show_error (e : str) (s : Page) : Page := set_form e (form s) (cohorts s) s.

Definition load_with (f : Filters) (background : bool) (k : After) (s : Page) : Page :=
  ask (GetAnnouncements (query_of f)) (OLoad background k) (if background then s else set_loading true s).

(** ["title: '', body: '', cohort_id: ''"] *)
Definition empty_form : Form :=
  {| f_title := []; f_body := []; f_audience := cohort_audience; f_cohort := []; pinned := false; send_push := true |}.

(** The effect of [selectedId]; zero and [NaN] are no selection. *)
Definition open_one (i : option Z) (s : Page) : Page :=
  match i with
  | Some i => if bool_decide (i = 0) then s else ask (GetAnnouncement i) OOne s
  | None => s
  end.

Definition opened (isStaff : bool) (p : list (str * str)) (i : option Z) : Page :=
  let s := {| staff := isStaff; address := p; announcements := []; cohorts := []; unreadCount := 0;
              pagination := emptyPagination; loading := true; saving := false; archivingId := None;
              formError := []; form := empty_form; ops := []; requests := []; notices := [] |} in
  let s := load_with (filters_of isStaff p) false Nothing s in
  open_one i (if isStaff then ask GetCohorts OCohorts s else s).

(** A control: the address changes, and the feed is loaded when a filter did. *)
Definition on_choice (c : Choice) (s : Page) : Page :=
  let s' := set_address (choose (staff s) c (address s)) s in
  if bool_decide (filters s' = filters s) then s' else load_with (filters s') false Nothing s'.

Definition handleCreate (s : Page) : Page :=
  let f := form s in
  ask (CreateAnnouncement (trim (f_title f)) (trim (f_body f)) (f_audience f)
         (if bool_decide (f_audience f = cohort_audience) then Some (Number (f_cohort f)) else None)
         (pinned f) (send_push f))
      (OCreate (filters s)) (show_error [] (set_saving true s)).

(** The dialog asks nothing of the server. *)
Definition handleArchive (a : Announcement) (s : Page) : Page :=
  if bool_decide (id a = 0) then s
  else match archivingId s with
       | Some _ => s
       | None => set_ops (ops s ++ [OConfirm a (filters s)]) (requests s) (notices s) s
       end.

Definition handleMarkAllRead (s : Page) : Page := ask MarkAllRead (OMark (filters s)) s.

(** [setAnnouncements] when one announcement arrives. *)
Definition place (a : Announcement) (l : list Announcement) : list Announcement :=
  if existsb (λ x, Z.eqb (id x) (id a)) l then map (λ x, if Z.eqb (id x) (id a) then a else x) l else a :: l.

Definition after_load (k : After) (s : Page) : Page :=
  match k with
  | Nothing => s
  | Posted => set_saving false (notice true (js "Announcement published") s)
  | Archived_ => set_archiving None (notice true (js "Announcement archived") s)
  end.

Definition failed_handler (e : str) (s : Page) : Page := notice false e (show_error e s).

Definition cohort_text (l : list Z) : str := match l with c :: _ => if bool_decide (c = 0) then [] else str_of_Z c | [] => [] end.

(** The answer to the operation [i]; answers of another kind do not occur. *)
Definition answer (i : nat) (a : Answer) (s : Page) : Page :=
  match ops s !! i with
  | None => s
  | Some o =>
      let t := returns i s in
      match o, a with
      | OLoad bg k, Feed l n m =>
          let t := set_feed l n m t in after_load k (if bg then t else set_loading false t)
      | OLoad bg k, Failed _ => after_load k (if bg then t else set_loading false t)
      | OOne, One x =>
          load_with (filters t) true Nothing (set_feed (place x (announcements t)) (unreadCount t) (pagination t) t)
      | OOne, Failed _ => t
      | OCohorts, Cohorts l =>
          let f := form t in
          set_form (formError t) {| f_title := f_title f; f_body := f_body f; f_audience := f_audience f;
            f_cohort := str_or (f_cohort f) (cohort_text l); pinned := pinned f; send_push := send_push f |} l t
      | OCohorts, Failed _ => t
      | OCreate _, Failed e => set_saving false (failed_handler e t)
      | OCreate f, Ok =>
          let g := form t in
          load_with f false Posted
            (set_form (formError t) {| f_title := []; f_body := []; f_audience := f_audience g;
               f_cohort := f_cohort g; pinned := false; send_push := send_push g |} (cohorts t) t)
      | OConfirm _ _, Pressed false => t
      | OConfirm x f, Pressed true => ask (ArchiveAnnouncement (id x)) (OArchive f) (set_archiving (Some (id x)) t)
      | OArchive f, Ok => load_with f true Archived_ t
      | OArchive f, Failed e => set_archiving None (failed_handler e t)
      | OMark f, Unread n => load_with f true Nothing (set_feed (announcements t) n (pagination t) t)
      | OMark _, Failed _ => t
      | _, _ => s
      end
  end.

Definition edit_form (f : Form) (s : Page) : Page := set_form (formError s) f (cohorts s) s.

Inductive event :=
| Chosen (c : Choice) | Selected (i : option Z) | Edited (f : Form) | Submitted | ArchivePressed (a : Announcement)
| MarkedAll | Answered (i : nat) (a : Answer).

(** The form is shown in the studio, with the feed; its button is disabled while saving, and
    the browser refuses it without a title, a body or the cohort it is for. *)
Definition can_post (s : Page) : bool :=
  let f := form s in
  negb (saving s) && negb (loading s) && manageMode (filters s) && truthy (f_title f) && truthy (f_body f)
  && (negb (bool_decide (f_audience f = cohort_audience)) || truthy (f_cohort f)).

Definition step (e : event) (s : Page) : Page :=
  match e with
  | Chosen c => on_choice c s
  | Selected i => open_one i s
  | Edited f => edit_form f s
  | Submitted => if can_post s then handleCreate s else s
  | ArchivePressed a => handleArchive a s
  | MarkedAll => handleMarkAllRead s
  | Answered i a => answer i a s
  end.

Definition run (l : list event) (s : Page) : Page := fold_left (λ s e, step e s) l s.

(** ** Reading what was written *)

Definition kept (v : option str) : option str := if removed v then None else v.

Lemma param_put p k v n : param (put p (k, v)) n = if bool_decide (js k = js n) then kept v else param p n.
Proof.
  unfold param, put, kept. cbn [fst snd].
  assert (D : params_get (params_delete p (js k)) (js n)
              = if bool_decide (js k = js n) then None else params_get p (js n)).
  { case_bool_decide as E; [|by apply params_get_filter; congruence].
    rewrite E. unfold params_get, params_delete.
    induction p as [|[a x] r IH]; [done|]. cbn [List.filter fst].
    destruct (eqs a (js n)) eqn:Ea; cbn [negb]; [done|]. cbn [List.find fst]. by rewrite Ea. }
  destruct v as [t|]; [|done]. destruct (removed (Some t)); [done|].
  rewrite params_get_set. do 2 case_decide; case_bool_decide; done.
Qed.

Lemma removed_number n : 0 <= n → removed (Some (str_of_Z n)) = false.
Proof.
  intros H. pose proof (str_of_Z_digits n H) as D. pose proof (str_of_Z_nonempty n) as N.
  cbn [removed]. destruct (str_of_Z n) as [|a r]; [done|].
  apply orb_false_iff. split; [done|]. apply bool_decide_eq_false_2. intros E. rewrite E in D.
  by inversion D.
Qed.

Lemma Number_str n : 0 <= n → Number (or_text (kept (Some (str_of_Z n))) (js "1")) = Some n.
Proof.
  intros H. unfold kept. rewrite removed_number by done. cbn [or_text]. unfold str_or, Number.
  pose proof (str_of_Z_nonempty n) as N. assert (T : truthy (str_of_Z n) = true) by (by destruct (str_of_Z n)).
  rewrite T. rewrite T, (proj2 (forallb_forall _ _)), digits_value_str; [done..|].
  intros c Hc. pose proof (str_of_Z_digits n H) as D. rewrite List.Forall_forall in D. by apply D.
Qed.

Lemma or_text_kept o : or_text (kept (Some (or_text o (js "all")))) (js "all") = or_text o (js "all").
Proof.
  unfold kept. destruct (removed _) eqn:R; [|].
  - cbn [removed] in R. apply orb_true_iff in R as [R|R].
    + destruct o as [[|a r]|]; done.
    + apply eqs_true in R. by rewrite R.
  - destruct o as [[|a r]|]; done.
Qed.

(** Evaluates the comparisons of two keys of the address. *)
Ltac keys := repeat match goal with
  | |- context [bool_decide (js ?a = js ?b)] =>
      let v := eval vm_compute in (bool_decide (js a = js b)) in
      change (bool_decide (js a = js b)) with v; cbv iota
  end.

(** Each choice that is offered, other than that of all statuses, has on the filters read from
    the address the effect it names. *)
Lemma choose_refines staff c p :
  offered staff (filters_of staff p) c = true → c ≠ ChooseStatus None →
  filters_of staff (choose staff c p) = choose_filters c (filters_of staff p).
Proof.
  intros O N. unfold choose, updateQuery.
  destruct c as [| |a|t|s|r|s| |n]; cbn [patch_of fold_left].
  8: (unfold filters_of at 2; cbn [manageMode]; destruct (staff && _) eqn:Em; cbn [fold_left]).
  all: unfold filters_of at 1; rewrite ?param_put; keys.
  all: unfold choose_filters, with_page, filters_of in *; cbn [manageMode page readFilter audienceFilter
    statusFilter cohortFilter sortFilter offered] in *; rewrite ?Em; try (f_equal; reflexivity).
  - by rewrite andb_false_r.
  - rewrite O. f_equal. destruct (named status_name _ (param p "status")) as [[]|]; [done..|].
    by destruct (true && _).
  - f_equal; [by destruct a as [[]|]|].
    destruct (bool_decide (a = _)); [apply or_text_kept|done].
  - f_equal. apply andb_true_iff in O as [_ O]. unfold kept. destruct (removed (Some t)) eqn:R.
    + cbn [removed] in R. rewrite O in R. apply eqs_true in R as ->. done.
    + by destruct t.
  - f_equal. destruct s as [[]|]; [done..|]. congruence.
  - f_equal. by destruct r.
  - f_equal. by destruct s.
  - f_equal. apply Number_str. apply Z.leb_le in O. lia.
Qed.

(** "All statuses" cannot be chosen in the studio: what is read afterwards is the published
    ones, whatever was shown before. *)
Lemma all_statuses_unreachable staff p :
  manageMode (filters_of staff p) = true →
  statusFilter (filters_of staff (choose staff (ChooseStatus None) p)) = Some published.
Proof.
  intros O. unfold choose, updateQuery. cbn [patch_of fold_left].
  unfold filters_of at 1. rewrite ?param_put. keys. cbn [statusFilter manageMode filters_of] in *.
  by rewrite O.
Qed.

(** ** Handlers *)

Definition count (p : Op → bool) (l : list Op) : nat := length (List.filter p l).

Lemma count_app p l k : count p (l ++ k) = (count p l + count p k)%nat.
Proof. unfold count. by rewrite List.filter_app, length_app. Qed.

Lemma count_delete p l i o : l !! i = Some o → count p l = (Nat.b2n (p o) + count p (delete i l))%nat.
Proof.
  unfold count. revert i. induction l as [|x l IH]; intros [|i] H; try done.
  - injection H as ->. cbn [List.filter delete list_delete]. by destruct (p o).
  - change (delete (S i) (x :: l)) with (x :: delete i l). cbn [List.filter].
    specialize (IH i H). destruct (p x); cbn [length]; lia.
Qed.

Definition is_post (o : Op) : bool := match o with OCreate _ | OLoad _ Posted => true | _ => false end.
Definition is_archive (o : Op) : bool := match o with OArchive _ | OLoad _ Archived_ => true | _ => false end.
Definition is_load (o : Op) : bool := match o with OLoad false _ => true | _ => false end.

(** One announcement is posted at a time, and what is shown as loading or as being archived
    waits for an answer. *)
Record ok (s : Page) : Prop := {
  ok_post : count is_post (ops s) = Nat.b2n (saving s);
  ok_archive : is_Some (archivingId s) → (0 < count is_archive (ops s))%nat;
  ok_load : loading s = true → (0 < count is_load (ops s))%nat;
}.

Ltac counting := repeat match goal with
  | H : ops ?s !! ?i = Some _ |- _ =>
      pose proof (count_delete is_post _ _ _ H); pose proof (count_delete is_archive _ _ _ H);
      pose proof (count_delete is_load _ _ _ H); clear H
  end.

Ltac page_ok := split; unfold load_with, ask, after_load, failed_handler, notice, show_error, returns,
    set_loading, set_saving, set_archiving in *;
  cbn [ops saving archivingId loading set_ops set_flags set_feed set_form set_address is_post is_archive is_load
       Nat.b2n] in *;
  rewrite ?count_app; cbn [count List.filter length is_post is_archive is_load]; intros; try lia;
  repeat match goal with
    | H : is_Some None |- _ => by destruct H
    | A : is_Some ?x → _, H : is_Some ?x |- _ => specialize (A H)
    | L : ?x = true → _, H : ?x = true |- _ => specialize (L H)
    end;
  try match goal with P : _ = Nat.b2n (saving ?s) |- _ => destruct (saving s) end;
  cbn [Nat.b2n] in *; lia.

Lemma announcements_answer_ok i a s : ok s → ok (answer i a s).
Proof.
  intros O. pose proof O as [P A L]. unfold answer. destruct (ops s !! i) as [o|] eqn:Hi; [|done].
  destruct o as [bg k| | |f|x f|f|f], a as [l n m|y|l|n| |e|[]]; try done; try destruct bg, k.
  all: counting; page_ok.
Qed.

Lemma announcements_step_ok e s : ok s → ok (step e s).
Proof.
  intros O. pose proof O as [P A L]. destruct e as [c|j|f| |a| |i a]; cbn [step].
  - unfold on_choice. case_bool_decide; page_ok.
  - unfold open_one. destruct j; [|done]. case_bool_decide; [done|]. page_ok.
  - unfold edit_form. page_ok.
  - destruct (can_post s) eqn:C; [|done]. unfold can_post in C. destruct (saving s) eqn:S; [done|].
    unfold handleCreate. page_ok.
  - unfold handleArchive. case_bool_decide; [done|]. destruct (archivingId s) eqn:I; [done|].
    rewrite <- I in A. page_ok.
  - unfold handleMarkAllRead. page_ok.
  - by apply announcements_answer_ok.
Qed.

Lemma announcements_opened_ok st p i : ok (opened st p i).
Proof. destruct st, i as [i|]; unfold opened, open_one; try case_bool_decide; split;
    first [reflexivity | intros [? [=]] | intros _; by apply Nat.lt_0_succ]. Qed.

(** What an event adds to the requests. *)
Lemma step_archives e s i :
  ArchiveAnnouncement i ∈ requests (step e s) → ArchiveAnnouncement i ∈ requests s
  ∨ ∃ j a f, e = Answered j (Pressed true) ∧ ops s !! j = Some (OConfirm a f) ∧ id a = i.
Proof.
  assert (Q : ∀ r, (∀ k, r ≠ ArchiveAnnouncement k) → ArchiveAnnouncement i ∈ requests s ++ [r] →
                   ArchiveAnnouncement i ∈ requests s).
  { intros r N. rewrite elem_of_app, list_elem_of_singleton. intros [?|?]; [done|]. by destruct (N i). }
  destruct e as [c|j|f| |a| |j a]; cbn [step].
  - unfold on_choice. destruct (bool_decide _); [by left|]. intros H. left. by eapply Q, H.
  - unfold open_one. destruct j; [|by left]. destruct (bool_decide _); [by left|]. intros H. left. by eapply Q, H.
  - by left.
  - destruct (can_post s); [|by left]. intros H. left. by eapply Q, H.
  - unfold handleArchive. destruct (bool_decide (id _ = 0)) eqn:E0; [by left|]. destruct (archivingId s); by left.
  - intros H. left. by eapply Q, H.
  - unfold answer. destruct (ops s !! j) as [o|] eqn:Hj; [|by left].
    destruct o as [bg k| | |f|x f|f|f], a as [l n m|y|l|n| |e|[]]; try (by left); try destruct bg, k; try (by left).
    all: intros H; try (left; by eapply Q, H).
    unfold ask in H. cbn [requests set_ops set_archiving set_flags returns] in H.
    rewrite elem_of_app, list_elem_of_singleton in H. destruct H as [H|[= ->]]; [by left|]. right. by exists j, x, f.
Qed.

Lemma step_confirms e s a f :
  OConfirm a f ∈ ops (step e s) → OConfirm a f ∈ ops s ∨ (e = ArchivePressed a ∧ id a ≠ 0).
Proof.
  assert (Q : ∀ o l, (∀ f, o ≠ OConfirm a f) → OConfirm a f ∈ l ++ [o] → OConfirm a f ∈ l).
  { intros o l N. rewrite elem_of_app, list_elem_of_singleton. intros [?|?]; [done|]. by destruct (N f). }
  assert (D : ∀ j, OConfirm a f ∈ delete j (ops s) → OConfirm a f ∈ ops s).
  { intros j H. eapply elem_of_submseteq; [exact H|]. apply sublist_submseteq, sublist_delete. }
  destruct e as [c|j|g| |x| |j x]; cbn [step].
  - unfold on_choice. destruct (bool_decide _); [by left|]. intros H. left. by eapply Q, H.
  - unfold open_one. destruct j; [|by left]. destruct (bool_decide _); [by left|]. intros H. left. by eapply Q, H.
  - by left.
  - destruct (can_post s); [|by left]. intros H. left. by eapply Q, H.
  - unfold handleArchive. destruct (bool_decide (id _ = 0)) eqn:E0; [by left|]. destruct (archivingId s); [by left|].
    cbn [ops set_ops]. rewrite elem_of_app, list_elem_of_singleton. intros [H|[= <- _]]; [by left|].
    right. split; [done|]. by apply bool_decide_eq_false_1 in E0.
  - intros H. left. by eapply Q, H.
  - unfold answer. destruct (ops s !! j) as [o|] eqn:Hj; [|by left].
    destruct o as [bg k| | |g|y g|g|g], x as [l n m|y'|l|n| |e|[]]; try (by left); try destruct bg, k.
    all: intros H; left; first [exact (D _ H) | apply (D j); by eapply Q, H].
Qed.

Lemma run_snoc es e s : run (es ++ [e]) s = step e (run es s).
Proof. unfold run. by rewrite fold_left_app. Qed.

Section Reached.
Context (st : bool) (p : list (str * str)) (sel : option Z).
#[local] Abbreviation reached es := (run es (opened st p sel)).

Lemma reached_ok es : ok (reached es).
Proof. induction es as [|e es IH] using rev_ind; [apply announcements_opened_ok|]. rewrite run_snoc. by apply announcements_step_ok. Qed.

Lemma opened_requests i : ArchiveAnnouncement i ∉ requests (opened st p sel).
Proof.
  destruct st, sel as [j|]; unfold opened, open_one; try destruct (bool_decide (j = 0)); cbn;
    rewrite ?elem_of_cons, ?elem_of_nil; naive_solver.
Qed.

Lemma opened_confirms a f : OConfirm a f ∉ ops (opened st p sel).
Proof.
  destruct st, sel as [j|]; unfold opened, open_one; try destruct (bool_decide (j = 0)); cbn;
    rewrite ?elem_of_cons, ?elem_of_nil; naive_solver.
Qed.

Lemma confirms_pressed es a f : OConfirm a f ∈ ops (reached es) → ArchivePressed a ∈ es.
Proof.
  induction es as [|e es IH] using rev_ind; intros H; [by destruct (opened_confirms a f)|].
  rewrite run_snoc in H. rewrite elem_of_app, list_elem_of_singleton.
  apply step_confirms in H as [H|[-> _]]; [left; by apply IH|by right].
Qed.

Lemma archives_confirmed es k :
  ArchiveAnnouncement k ∈ requests (reached es) →
  ∃ l j a f l', es = l ++ Answered j (Pressed true) :: l' ∧ ops (reached l) !! j = Some (OConfirm a f) ∧ id a = k.
Proof.
  induction es as [|e es IH] using rev_ind; intros H; [by destruct (opened_requests k)|].
  rewrite run_snoc in H. apply step_archives in H as [H|(j&a&f&->&Hj&Ha)].
  - destruct (IH H) as (l&j&a&f&l'&->&Hj&Ha). exists l, j, a, f, (l' ++ [e]). by rewrite <- app_assoc.
  - by exists es, j, a, f, [].
Qed.

(** On the announcements page nothing is posted twice or archived by accident. Whatever the
    address, the choices and the order of the answers: one announcement is being posted while
    the form is saving and none otherwise; an announcement is archived only by the press on the
    confirmation that its own archive button opened; and once no answer is awaited nothing is
    shown as loading, saving or being archived. *)
Theorem announcements_deliberate (es : list event) :
  let s := reached es in
  count is_post (ops s) = Nat.b2n (saving s)
  ∧ (∀ k, ArchiveAnnouncement k ∈ requests s →
       ∃ l j a f l', es = l ++ Answered j (Pressed true) :: l'
         ∧ ops (reached l) !! j = Some (OConfirm a f) ∧ id a = k ∧ ArchivePressed a ∈ l)
  ∧ (ops s = [] → loading s = false ∧ saving s = false ∧ archivingId s = None).
Proof.
  intros s. pose proof (reached_ok es) as [P A L]. fold s in P, A, L. split_and!; [done| |].
  - intros k H. destruct (archives_confirmed es k H) as (l&j&a&f&l'&E&Hj&Ha). exists l, j, a, f, l'.
    split_and!; [done..|]. eapply confirms_pressed, list_elem_of_lookup_2, Hj.
  - intros E. rewrite E in *. cbn in P, A, L. split_and!.
    + destruct (loading s); [|done]. by specialize (L eq_refl); lia.
    + by destruct (saving s).
    + destruct (archivingId s); [|done]. specialize (A ltac:(done)). lia.
Qed.

End Reached.

(** The address of the announcements page implements its filters. Whatever the address,
    each control that is shown (other than "All statuses") changes the filters that are read
    back from the address exactly as it says, every one but the pages going to the first page;
    and the feed is then asked for with those filters, once, unless they are as before. *)
Theorem filters_chosen (s : Page) (c : Choice) :
  offered (staff s) (filters s) c = true → c ≠ ChooseStatus None →
  let f := choose_filters c (filters s) in
  filters (on_choice c s) = f
  ∧ requests (on_choice c s)
    = requests s ++ (if bool_decide (f = filters s) then [] else [GetAnnouncements (query_of f)]).
Proof.
  intros O N f. pose proof (choose_refines (staff s) c (address s) O N) as E.
  assert (E' : filters (set_address (choose (staff s) c (address s)) s) = f) by exact E.
  unfold on_choice. rewrite E'. destruct (bool_decide (f = filters s)).
  - split; [done|]. by rewrite app_nil_r.
  - split; [exact E'|done].
Qed.

Definition studio : Page := opened true [(js "scope", js "manage"); (js "page", js "3")] None.

Lemma filters_chosen_witness :
  requests (on_choice (ChooseAudience (Some staff_audience)) studio)
  = requests studio ++ [GetAnnouncements {| q_manage := true; q_page := Some 1; q_audience := Some staff_audience;
      q_status := Some published; q_cohort := None; q_read := None; q_sort := published_desc |}].
Proof.
  assert (H : offered (staff studio) (filters studio) (ChooseAudience (Some staff_audience)) = true)
    by (vm_compute; reflexivity).
  assert (N : ChooseAudience (Some staff_audience) ≠ ChooseStatus None) by discriminate.
  rewrite (proj2 (filters_chosen studio _ H N)). vm_compute. reflexivity.
Defined.

(** ** What can go wrong *)

Definition first_news : Announcement := {| id := 1; title := js "Welcome"; body := js "Hello" |}.
Definition old_news : Announcement := {| id := 7; title := js "Old"; body := js "Old news" |}.
Definition one_page : Meta := {| m_page := 1; total_pages := 2 |}.

(** An announcement that is opened by its address and is not on the page of the feed is shown
    when it arrives, and taken away by the load in the background that follows. *)
Lemma selected_announcement_lost :
  let s := run [Answered 0 (Feed [first_news] 0 one_page); Answered 0 (One old_news)] (opened false [] (Some 7)) in
  announcements s = [old_news; first_news]
  ∧ announcements (step (Answered 0 (Feed [first_news] 0 one_page)) s) = [first_news].
Proof. by vm_compute. Qed.

(** The feed of the filters that were left stays when it is answered last. *)
Lemma late_feed_wins :
  let s := run [Chosen (ChooseRead unread); Answered 1 (Feed [] 0 emptyPagination);
                Answered 0 (Feed [first_news] 0 one_page)] (opened false [] None) in
  readFilter (filters s) = unread ∧ ops s = [] ∧ announcements s = [first_news].
Proof. by vm_compute. Qed.

(** Even with the answers in order: the load after posting is that of the filters the handler
    saw, so a choice made while the form was saving is undone in the feed. *)
Lemma posting_loads_old_filters :
  let f := {| f_title := js "T"; f_body := js "B"; f_audience := global_audience; f_cohort := []; pinned := false;
              send_push := true |} in
  let s := run [Answered 0 (Feed [] 0 emptyPagination); Answered 0 (Cohorts []); Edited f; Submitted;
                Chosen (ChooseStatus (Some archived)); Answered 0 Ok] studio in
  statusFilter (filters s) = Some archived
  ∧ last (requests s) = Some (GetAnnouncements (query_of (filters studio))).
Proof. by vm_compute. Qed.
