(* ===== verification/LessonBlock.v ===== *)
(** * A block of a lesson (mobile)

    [mobile/src/components/lesson-content-block.tsx]: the card of one block, with the text
    that is kept on the device while a student writes, handing in, marking as complete and
    the quick check. The storage is [Storage], what may be handed in is [Learning].

    [Loaded] is the read of the draft and what follows it; [Fire] is the timer of 300 ms going
    off, and the write it starts settles later ([Settle]). [saved] is whether a write
    succeeds, [now] the time it notes. *)

From S2P Require Import Prelude.
From S2P Require Import Json.
From S2P Require Import Storage.
From S2P Require Import Learning.

(** ** Data *)

Record Sub := {
  core : Learning.Submission;
  s_values : Learning.Values;                  (* [text || ''], [repo_url || ''], … *)
  s_text : option str; s_updated : option str;
}.
Record Attempt := { a_correct : bool }.
Record Check := { c_id : Z; attempt : option Attempt }.

(** What the lesson says of the block, refreshed by the queries. *)
Record Props := { subs : list Sub; completed : bool; closed : bool; check : option Check }.

Inductive Request :=
| CreateSubmission (input : Learning.SubmissionInput)
| UpdateSubmission (i : Z) (input : Learning.SubmissionInput)   (* sent without its block *)
| UpdateProgress (block : Z) (status : str)
| AttemptCheck (i option_ : Z).

(** What is said of the draft, in the order of the source. *)
Inductive Notice :=
| Available | Restored | OlderAvailable | Unavailable | Saved | NotSaved | Saving | OlderRestored.

Record Pending := { pid : nat; ptext : str; pbase : option Z; pbase_at : option str; changed : bool }.

Record Card := {
  props : Props;
  values : Learning.Values;                    (* [text], [repoUrl], … *)
  notice : option Notice; message : option (str * bool); olderDraft : option SubmissionDraft;
  hydrated : bool; edited : bool;              (* [draftHydrated], [studentEditedRef] *)
  loading : bool;                              (* the read that was not canceled *)
  timer : option Pending; pending : option Pending; settling : list nat; fresh : nat;
  submitting : option str;                     (* [isPending], with the text that was sent *)
  marking : bool; checking : bool;
  checkDraft : option Check; selected : option Z;
  requests : list Request;
  accepted : option str;                       (* the text shown when work was last accepted *)
}.

Definition set_props (p : Props) (s : Card) : Card :=
  {| props := p; values := values s; notice := notice s; message := message s; olderDraft := olderDraft s;
     hydrated := hydrated s; edited := edited s; loading := loading s; timer := timer s; pending := pending s;
     settling := settling s; fresh := fresh s; submitting := submitting s; marking := marking s;
     checking := checking s; checkDraft := checkDraft s; selected := selected s; requests := requests s;
     accepted := accepted s |}.
Definition set_values (v : Learning.Values) (s : Card) : Card :=
  {| props := props s; values := v; notice := notice s; message := message s; olderDraft := olderDraft s;
     hydrated := hydrated s; edited := edited s; loading := loading s; timer := timer s; pending := pending s;
     settling := settling s; fresh := fresh s; submitting := submitting s; marking := marking s;
     checking := checking s; checkDraft := checkDraft s; selected := selected s; requests := requests s;
     accepted := accepted s |}.
Definition set_shown (n : option Notice) (m : option (str * bool)) (o : option SubmissionDraft) (e : bool) (s : Card) : Card :=
  {| props := props s; values := values s; notice := n; message := m; olderDraft := o;
     hydrated := hydrated s; edited := e; loading := loading s; timer := timer s; pending := pending s;
     settling := settling s; fresh := fresh s; submitting := submitting s; marking := marking s;
     checking := checking s; checkDraft := checkDraft s; selected := selected s; requests := requests s;
     accepted := accepted s |}.
Definition set_load (h l : bool) (s : Card) : Card :=
  {| props := props s; values := values s; notice := notice s; message := message s; olderDraft := olderDraft s;
     hydrated := h; edited := edited s; loading := l; timer := timer s; pending := pending s;
     settling := settling s; fresh := fresh s; submitting := submitting s; marking := marking s;
     checking := checking s; checkDraft := checkDraft s; selected := selected s; requests := requests s;
     accepted := accepted s |}.
Definition set_refs (t p : option Pending) (l : list nat) (n : nat) (s : Card) : Card :=
  {| props := props s; values := values s; notice := notice s; message := message s; olderDraft := olderDraft s;
     hydrated := hydrated s; edited := edited s; loading := loading s; timer := t; pending := p;
     settling := l; fresh := n; submitting := submitting s; marking := marking s;
     checking := checking s; checkDraft := checkDraft s; selected := selected s; requests := requests s;
     accepted := accepted s |}.
Definition set_submit (x a : option str) (s : Card) : Card :=
  {| props := props s; values := values s; notice := notice s; message := message s; olderDraft := olderDraft s;
     hydrated := hydrated s; edited := edited s; loading := loading s; timer := timer s; pending := pending s;
     settling := settling s; fresh := fresh s; submitting := x; marking := marking s;
     checking := checking s; checkDraft := checkDraft s; selected := selected s; requests := requests s;
     accepted := a |}.
Definition set_marking (m c : bool) (s : Card) : Card :=
  {| props := props s; values := values s; notice := notice s; message := message s; olderDraft := olderDraft s;
     hydrated := hydrated s; edited := edited s; loading := loading s; timer := timer s; pending := pending s;
     settling := settling s; fresh := fresh s; submitting := submitting s; marking := m;
     checking := c; checkDraft := checkDraft s; selected := selected s; requests := requests s;
     accepted := accepted s |}.
Definition set_check (c : option Check) (o : option Z) (s : Card) : Card :=
  {| props := props s; values := values s; notice := notice s; message := message s; olderDraft := olderDraft s;
     hydrated := hydrated s; edited := edited s; loading := loading s; timer := timer s; pending := pending s;
     settling := settling s; fresh := fresh s; submitting := submitting s; marking := marking s;
     checking := checking s; checkDraft := c; selected := o; requests := requests s;
     accepted := accepted s |}.
Definition ask (r : Request) (s : Card) : Card :=
  {| props := props s; values := values s; notice := notice s; message := message s; olderDraft := olderDraft s;
     hydrated := hydrated s; edited := edited s; loading := loading s; timer := timer s; pending := pending s;
     settling := settling s; fresh := fresh s; submitting := submitting s; marking := marking s;
     checking := checking s; checkDraft := checkDraft s; selected := selected s; requests := requests s ++ [r];
     accepted := accepted s |}.

Definition text (s : Card) : str := Learning.v_text (values s).
Definition say (n : option Notice) (s : Card) : Card := set_shown n (message s) (olderDraft s) (edited s) s.
Definition with_text (t : str) (v : Learning.Values) : Learning.Values :=
  {| Learning.v_text := t; Learning.repoUrl := Learning.repoUrl v; Learning.liveUrl := Learning.liveUrl v;
     Learning.prUrl := Learning.prUrl v; Learning.branch := Learning.branch v;
     Learning.commitSha := Learning.commitSha v; Learning.notes := Learning.notes v |}.

Definition no_values : Learning.Values :=
  {| Learning.v_text := []; Learning.repoUrl := []; Learning.liveUrl := []; Learning.prUrl := [];
     Learning.branch := []; Learning.commitSha := []; Learning.notes := [] |}.

Section Block.
(** [Date.parse]; the user, the block, its type and the type of what is handed in, whether the
    user is a student, and whether the block has a video of its own. *)
Context (getTime : str → option Z) (u blk : Z) (kind type : str) (studentMode has_video : bool).

Definition TEXT : str := js "text_submission".

(** ** What the card shows *)

Definition latest (p : Props) : option Sub :=
  l ← Learning.latestSubmission getTime (map core (subs p));
  List.find (λ x, bool_decide (core x = l)) (subs p).

Definition state_of (p : Props) : Learning.SubmissionState := Learning.submissionState getTime (map core (subs p)).
Definition passed (p : Props) : bool := Learning.passed (state_of p).
Definition redo (p : Props) : bool := Learning.redo (state_of p).
Definition editable (p : Props) : bool := Learning.editable (state_of p).

Definition base_id (p : Props) : option Z := (λ x, Learning.id (core x)) <$> latest p.
Definition base_at (p : Props) : option str := x ← latest p; s_updated x.
Definition base_text (p : Props) : str := match latest p with Some x => default [] (s_text x) | None => [] end.

Definition isExercise : bool := eqs kind (js "exercise") || eqs kind (js "code_challenge").
Definition isVideo : bool := eqs kind (js "video") || eqs kind (js "recording").

Definition knowledgeCheck (s : Card) : option Check :=
  match checkDraft s with Some c => Some c | None => check (props s) end.

Definition locked (s : Card) : bool :=
  closed (props s) && (isExercise || (eqs kind (js "checkpoint") && negb (bool_decide (is_Some (knowledgeCheck s))))).

Definition canSubmit (s : Card) : bool :=
  if locked s || passed (props s) || bool_decide (is_Some (submitting s)) then false
  else Learning.canSubmitWork type (values s).

Definition form_shown (s : Card) : bool :=
  studentMode && isExercise && (eqs type TEXT || includes type (js "repo_")) && negb (passed (props s)).

Definition mark_shown (s : Card) : bool :=
  studentMode && negb (bool_decide (is_Some (knowledgeCheck s)))
  && (negb isExercise || eqs type (js "manual_complete")) && negb (isVideo && has_video).

(** ** The draft on the device *)

Definition writes : bool := studentMode && eqs type TEXT.

Definition persistSubmissionDraft (now : str) (p : Pending) (st : Store) : Store :=
  if changed p then saveSubmissionDraft u blk (ptext p) (pbase p) (pbase_at p) now st
  else clearSubmissionDraft u blk st.

(** The effect that saves: the cleanup of the last one clears its timer. *)
Definition save_effect (s : Card) : Card :=
  if writes && hydrated s then
    let p := {| pid := fresh s; ptext := text s; pbase := base_id (props s); pbase_at := base_at (props s);
                changed := negb (eqs (text s) (base_text (props s))) |} in
    set_refs (Some p) (Some p) (settling s) (S (fresh s)) s
  else set_refs None (pending s) (settling s) (fresh s) s.

(** The effect that loads: the read before is canceled. *)
Definition load_effect (s : Card) : Card := if writes then set_load (hydrated s) true s else set_load (hydrated s) false s.

Definition setText (t : str) (s : Card) : Card :=
  if eqs t (text s) then s else save_effect (set_values (with_text t (values s)) s).
Definition setHydrated (s : Card) : Card := if hydrated s then s else save_effect (set_load true (loading s) s).

Definition deps (p : Props) : option (Z * option str * option str) :=
  (λ x, (Learning.id (core x), s_text x, s_updated x)) <$> latest p.

Definition refreshed (p : Props) (s : Card) : Card :=
  if bool_decide (deps p = deps (props s)) then set_props p s
  else save_effect (load_effect (set_props p s)).

(** What is done with the draft that was read. *)
Definition offer (older : SubmissionDraft) (n : Notice) (s : Card) : Card :=
  set_shown (Some n) (message s) (Some older) (edited s) s.

Definition loaded_draft (d : option SubmissionDraft) (x : Card * Store) : Card * Store :=
  let '(s, st) := x in
  match d with
  | None => x
  | Some d =>
      let matches := submissionDraftMatches d (base_id (props s)) (base_at (props s)) in
      if edited s then (offer d Available s, st)
      else if matches && negb (eqs (Storage.text d) (base_text (props s)))
      then (say (Some Restored) (setText (Storage.text d) s), st)
      else if negb matches then (offer d OlderAvailable s, st)
      else (s, clearSubmissionDraft u blk st)
  end.

Definition loaded (ok : bool) (x : Card * Store) : Card * Store :=
  let '(s, st) := x in
  if negb (loading s) then x
  else
    let s := set_load (hydrated s) false s in
    let y := if ok then let '(d, st) := loadSubmissionDraft u blk st in loaded_draft d (s, st)
             else (say (Some Unavailable) s, st) in
    (setHydrated y.1, y.2).

Definition fire (saved : bool) (now : str) (x : Card * Store) : Card * Store :=
  let '(s, st) := x in
  match timer s with
  | None => x
  | Some p =>
      if saved then (set_refs None (pending s) (settling s ++ [pid p]) (fresh s) s, persistSubmissionDraft now p st)
      else (say (Some NotSaved) (set_refs None (pending s) (settling s) (fresh s) s), st)
  end.

Definition settle (i : nat) (s : Card) : Card :=
  if has (settling s) i then
    let rest := filter (λ j, j ≠ i) (settling s) in
    match pending s with
    | Some p => if bool_decide (pid p = i)
                then say (if changed p then Some Saved else None) (set_refs (timer s) None rest (fresh s) s)
                else set_refs (timer s) (pending s) rest (fresh s) s
    | None => set_refs (timer s) None rest (fresh s) s
    end
  else s.

(** The effect of the unmount. *)
Definition leave (now : str) (x : Card * Store) : Store :=
  match pending x.1 with Some p => persistSubmissionDraft now p x.2 | None => x.2 end.

(** ** The student *)

Definition types (t : str) (s : Card) : Card :=
  if form_shown s && eqs type TEXT then
    setText t (set_shown (Some Saving) None (olderDraft s) true s)
  else s.

(** The fields of a repository; those of the details leave the message. *)
Definition fields (v : Learning.Values) (s : Card) : Card :=
  if form_shown s && negb (eqs type TEXT) then
    let details := eqs (Learning.repoUrl v) (Learning.repoUrl (values s))
                   && eqs (Learning.liveUrl v) (Learning.liveUrl (values s)) in
    set_shown (notice s) (if details then message s else None) (olderDraft s) (edited s)
      (set_values (with_text (text s) v) s)
  else s.

Definition restore (s : Card) : Card :=
  match olderDraft s with
  | Some d => if form_shown s then
                setText (Storage.text d)
                  (set_shown (Some OlderRestored) (message s) None (edited s) s)
              else s
  | None => s
  end.

(** *** Handing in *)

Definition submission (s : Card) : Request :=
  let input := Learning.buildSubmissionInput blk type (values s) in
  match latest (props s) with
  | Some x => if editable (props s) then UpdateSubmission (Learning.id (core x)) input else CreateSubmission input
  | None => CreateSubmission input
  end.

Definition submit (s : Card) : Card :=
  if form_shown s && canSubmit s then set_submit (Some (text s)) (accepted s) (ask (submission s) s) else s.

Definition submitted (cleared : bool) (x : Card * Store) : Card * Store :=
  let '(s, st) := x in
  match submitting s with
  | None => x
  | Some _ =>
      let body := if editable (props s) then js "Submission updated."
                  else if redo (props s) then js "Redo submitted." else js "Work submitted." in
      (set_shown None (Some (body, true)) None (edited s)
         (set_refs None None (settling s) (fresh s) (set_submit None (Some (text s)) s)),
       if cleared then clearSubmissionDraft u blk st else st)
  end.

Definition not_submitted (e : str) (saved : bool) (now : str) (x : Card * Store) : Card * Store :=
  let '(s, st) := x in
  match submitting s with
  | None => x
  | Some _ =>
      let s := set_submit None (accepted s) s in
      let tell s := set_shown (notice s) (Some (js "Not submitted. " ++ e, false)) (olderDraft s) (edited s) s in
      if eqs type TEXT then
        if saved
        then (tell (say (Some Saved) s), saveSubmissionDraft u blk (text s) (base_id (props s)) (base_at (props s)) now st)
        else (tell (say (Some NotSaved) s), st)
      else (tell s, st)
  end.

(** *** Marking and checking *)

Definition mark (s : Card) : Card :=
  if mark_shown s && negb (locked s || marking s)
  then set_marking true (checking s)
         (ask (UpdateProgress blk (if completed (props s) then js "not_started" else js "completed")) s)
  else s.

Definition answered_right (c : Check) : bool := match attempt c with Some a => a_correct a | None => false end.

Definition select (o : Z) (s : Card) : Card :=
  match knowledgeCheck s with
  | Some c => if studentMode && negb (answered_right c) then set_check (checkDraft s) (Some o) s else s
  | None => s
  end.

Definition check_answer (s : Card) : Card :=
  match knowledgeCheck s, selected s with
  | Some c, Some o => if studentMode && negb (answered_right c) && negb (checking s)
                      then set_marking (marking s) true (ask (AttemptCheck (c_id c) o) s) else s
  | _, _ => s
  end.

Definition checked (c : option Check) (s : Card) : Card :=
  if checking s then
    let s := set_marking (marking s) false s in
    match c with Some c => set_check (Some c) (selected s) s | None => s end
  else s.

(** ** A life of the card *)

Definition opened (p : Props) : Card :=
  save_effect (load_effect
    {| props := p;
       values := match latest p with Some x => with_text (base_text p) (s_values x) | None => no_values end;
       notice := None; message := None; olderDraft := None; hydrated := false; edited := false; loading := false;
       timer := None; pending := None; settling := []; fresh := 0; submitting := None; marking := false;
       checking := false; checkDraft := None; selected := None; requests := []; accepted := None |}).

Inductive event :=
| Refreshed (p : Props) | Loaded (ok : bool) | Types (t : str) | Fields (v : Learning.Values) | Restore
| Fire (saved : bool) (now : str) | Settle (i : nat)
| Submit | Submitted (cleared : bool) | NotSubmitted (e : str) (saved : bool) (now : str)
| Mark | Marked | Select (o : Z) | CheckAnswer | Checked (c : option Check).

Definition step (e : event) (x : Card * Store) : Card * Store :=
  let '(s, st) := x in
  match e with
  | Refreshed p => (refreshed p s, st)
  | Loaded ok => loaded ok x
  | Types t => (types t s, st)
  | Fields v => (fields v s, st)
  | Restore => (restore s, st)
  | Fire saved now => fire saved now x
  | Settle i => (settle i s, st)
  | Submit => (submit s, st)
  | Submitted c => submitted c x
  | NotSubmitted e saved now => not_submitted e saved now x
  | Mark => (mark s, st)
  | Marked => (set_marking false (checking s) s, st)
  | Select o => (select o s, st)
  | CheckAnswer => (check_answer s, st)
  | Checked c => (checked c s, st)
  end.

Definition run (es : list event) (x : Card * Store) : Card * Store := fold_left (λ x e, step e x) es x.

(** ** What is kept *)

Definition stored (st : Store) : option SubmissionDraft := (loadSubmissionDraft u blk st).1.

(** The store has the text of the card, against its latest submission; no draft when the text
    is blank or handed in. *)
Definition kept (s : Card) (st : Store) : Prop :=
  match stored st with
  | Some d => Storage.text d = text s ∧ base_submission_id d = base_id (props s)
              ∧ base_submission_updated_at d = base_at (props s)
  | None => trim (text s) = [] ∨ text s = base_text (props s)
  end.

Definition current (s : Card) (p : Pending) : Prop :=
  ptext p = text s ∧ pbase p = base_id (props s) ∧ pbase_at p = base_at (props s)
  ∧ changed p = negb (eqs (text s) (base_text (props s))).

Record card_ok (s : Card) (st : Store) : Prop := {
  ok_timer : ∀ p, timer s = Some p → pending s = Some p ∧ pid p ∉ settling s;
  ok_hydrated : hydrated s = false → pending s = None;
  ok_fresh : (∀ p, pending s = Some p → (pid p < fresh s)%nat) ∧ Forall (λ i, (i < fresh s)%nat) (settling s);
  ok_current : ∀ p, pending s = Some p → current s p;
  ok_settling : ∀ p, pending s = Some p → pid p ∈ settling s → kept s st;
  ok_none : hydrated s = true → pending s = None → kept s st ∨ accepted s = Some (text s);
}.

Lemma stored_clear st : stored (clearSubmissionDraft u blk st) = None.
Proof. unfold stored, loadSubmissionDraft, clearSubmissionDraft, getItem. by rewrite lookup_delete_eq. Qed.

Lemma stored_load st : stored (loadSubmissionDraft u blk st).2 = stored st.
Proof.
  unfold stored, loadSubmissionDraft, getItem. destruct (st !! _) as [[|c v]|] eqn:E; cbn [snd fst].
  - by rewrite E.
  - destruct (parse_as (c :: v)) eqn:P; cbn [snd fst]; [by rewrite E, P|]. by rewrite lookup_delete_eq.
  - by rewrite E.
Qed.

Lemma truthy_nil t : truthy t = false → t = [].
Proof. by destruct t. Qed.

Lemma kept_save s now st :
  kept s (saveSubmissionDraft u blk (text s) (base_id (props s)) (base_at (props s)) now st).
Proof.
  unfold kept, stored. rewrite load_save_submission. destruct (truthy (trim (text s))) eqn:T; [done|].
  left. by apply truthy_nil.
Qed.

Lemma kept_persist s p now st : current s p → kept s (persistSubmissionDraft now p st).
Proof.
  intros (T & I & A & C). unfold persistSubmissionDraft. rewrite C, T, I, A.
  destruct (eqs (text s) _) eqn:E; cbn [negb]; [|apply kept_save].
  unfold kept. rewrite stored_clear. right. by apply eqs_true in E.
Qed.

(** Nothing about drafts changes. *)
Definition same (s s' : Card) : Prop :=
  timer s' = timer s ∧ pending s' = pending s ∧ settling s' = settling s ∧ fresh s' = fresh s
  ∧ hydrated s' = hydrated s ∧ accepted s' = accepted s ∧ text s' = text s
  ∧ base_id (props s') = base_id (props s) ∧ base_at (props s') = base_at (props s)
  ∧ base_text (props s') = base_text (props s).

Lemma same_kept s s' st : same s s' → kept s st → kept s' st.
Proof.
  intros (_&_&_&_&_&_&T&I&A&B). unfold kept. destruct (stored st); rewrite T; [by rewrite I, A|by rewrite B].
Qed.

Lemma same_ok s s' st : same s s' → card_ok s st → card_ok s' st.
Proof.
  intros M [T H F C S N]. pose proof M as (E1&E2&E3&E4&E5&E6&E7&E8&E9&E10).
  split; rewrite ?E1, ?E2, ?E3, ?E4, ?E5, ?E6; try done.
  - intros p Hp. specialize (C p Hp). unfold current in *. by rewrite E7, E8, E9, E10.
  - intros p Hp Hs. eapply same_kept; [exact M|]. by apply (S p).
  - intros Hh Hp. destruct (N Hh Hp) as [K|A]; [left; by eapply same_kept|right; by rewrite E7].
Qed.

Lemma card_frame_ok s st st' : stored st' = stored st → card_ok s st → card_ok s st'.
Proof. intros E [T H F C S N]. split; try done; unfold kept in *; rewrite E; done. Qed.

(** The effect that saves makes the state current again. *)
Lemma save_effect_ok s st :
  writes = true → (hydrated s = false → pending s = None) →
  (∀ p, pending s = Some p → (pid p < fresh s)%nat) ∧ Forall (λ i, (i < fresh s)%nat) (settling s) →
  card_ok (save_effect s) st.
Proof.
  intros W H [F1 F2]. unfold save_effect. rewrite W. destruct (hydrated s) eqn:Hh; cbn [andb].
  - assert (L : ∀ i, i ∈ settling s → (i < fresh s)%nat) by (intros i Hi; rewrite Forall_forall in F2; by apply F2).
    split; cbn.
    + intros p [= <-]. split; [done|]. cbn. intros Hi%L. lia.
    + congruence.
    + split; [intros p [= <-]; cbn; lia|]. eapply Forall_impl; [exact F2|]. cbn. intros; lia.
    + intros p [= <-]. done.
    + intros p [= <-]. cbn. intros Hi%L. lia.
    + done.
  - specialize (H eq_refl). split; cbn; rewrite ?H, ?Hh; try done.
Qed.

Lemma setText_ok t s st : writes = true → card_ok s st → card_ok (setText t s) st.
Proof.
  intros W O. unfold setText. destruct (eqs t (text s)); [done|].
  apply save_effect_ok; [done|apply O|apply O].
Qed.

Lemma setHydrated_ok s st : writes = true → card_ok s st → card_ok (setHydrated s) st.
Proof.
  intros W O. unfold setHydrated. destruct (hydrated s) eqn:H; [done|].
  apply save_effect_ok; [done| |]; [done|apply O].
Qed.

Lemma card_refreshed_ok p s st : writes = true → card_ok s st → card_ok (refreshed p s) st.
Proof.
  intros W O. unfold refreshed. case_bool_decide as D.
  - eapply same_ok; [|exact O].
    assert (E : base_id p = base_id (props s) ∧ base_at p = base_at (props s) ∧ base_text p = base_text (props s)).
    { unfold deps, base_id, base_at, base_text in *. destruct (latest p), (latest (props s)); try done.
      cbn in *. injection D as -> -> ->. done. }
    destruct E as (?&?&?). by repeat split.
  - unfold load_effect. rewrite W. apply save_effect_ok; [done|apply O|apply O].
Qed.

Lemma kept_clear s st d :
  stored st = Some d → Storage.text d = base_text (props s) → kept s st → kept s (clearSubmissionDraft u blk st).
Proof. unfold kept. intros -> E [T _]. rewrite stored_clear. right. congruence. Qed.

Lemma clear_ok s st d :
  stored st = Some d → Storage.text d = base_text (props s) → card_ok s st → card_ok s (clearSubmissionDraft u blk st).
Proof.
  intros E B [T H F C S N]. split; try done.
  - intros p Hp Hs. eapply kept_clear; eauto.
  - intros Hh Hp. destruct (N Hh Hp) as [K|A]; [left; by eapply kept_clear|by right].
Qed.

Lemma card_loaded_ok b s st : writes = true → card_ok s st → card_ok (loaded b (s, st)).1 (loaded b (s, st)).2.
Proof.
  intros W O. unfold loaded. destruct (negb (loading s)); [done|]. cbn [fst snd].
  set (s1 := set_load (hydrated s) false s). assert (O1 : card_ok s1 st) by (eapply same_ok; [|exact O]; by repeat split).
  apply setHydrated_ok; [done|]. destruct b; [|eapply same_ok; [|exact O1]; by repeat split].
  destruct (loadSubmissionDraft u blk st) as [d st1] eqn:L.
  assert (Ed : stored st = d) by (unfold stored; by rewrite L).
  assert (E1 : stored st1 = d) by (rewrite <- Ed; change st1 with (d, st1).2; rewrite <- L; apply stored_load).
  assert (O2 : card_ok s1 st1) by (eapply card_frame_ok; [|exact O1]; congruence).
  destruct d as [d|]; [|exact O2]. cbn [loaded_draft].
  destruct (edited s1); [eapply same_ok; [|exact O2]; by repeat split|].
  destruct (submissionDraftMatches _ _ _); cbn [andb negb].
  - destruct (eqs (Storage.text d) _) eqn:B; cbn [negb fst snd].
    + apply eqs_true in B. by eapply clear_ok.
    + eapply same_ok; [|apply (setText_ok (Storage.text d)); [exact W|exact O2]]. by repeat split.
  - eapply same_ok; [|exact O2]. by repeat split.
Qed.

Lemma card_fire_ok b now s st : card_ok s st → card_ok (fire b now (s, st)).1 (fire b now (s, st)).2.
Proof.
  intros O. unfold fire. destruct (timer s) as [p|] eqn:Ht; [|exact O].
  destruct O as [T H [F1 F2] C S N]. destruct (T p Ht) as [Hp Hn]. destruct b; split; cbn; try done.
  - split; [done|]. apply Forall_app. split; [done|]. repeat constructor. by apply F1.
  - intros q Hq _. change (kept s (persistSubmissionDraft now p st)). by apply kept_persist, C.
  - intros _ Hq. rewrite Hp in Hq. discriminate Hq.
Qed.

Lemma card_settle_ok i s st : card_ok s st → card_ok (settle i s) st.
Proof.
  intros O. unfold settle. destruct (has (settling s) i) eqn:Hi; [|exact O].
  destruct O as [T H [F1 F2] C S N]. apply has_true in Hi.
  assert (R : ∀ j, j ∈ filter (λ j, j ≠ i) (settling s) → j ∈ settling s) by (intros j Hj%list_elem_of_filter; tauto).
  assert (FR : Forall (λ j, (j < fresh s)%nat) (filter (λ j, j ≠ i) (settling s))).
  { apply Forall_forall. intros j Hj%R. rewrite Forall_forall in F2. by apply F2. }
  destruct (pending s) as [p|] eqn:Hp.
  - case_bool_decide as E.
    + subst i. split; cbn; try done.
      * intros q Ht. destruct (T q Ht) as [[= <-] Hn]. done.
      * intros _ _. left. change (kept s st). by apply (S p).
    + split; cbn; rewrite ?Hp; try done.
      * intros q Ht. destruct (T q Ht) as [Hq Hn]. split; [done|]. intros Hj%R. done.
      * intros q Hq Hj%R. by apply (S q).
  - split; cbn; try done. intros q Ht. destruct (T q Ht) as [Hq _]. discriminate Hq.
Qed.

Lemma submitted_ok c s st :
  card_ok s st →
  card_ok (submitted c (s, st)).1 (submitted c (s, st)).2.
Proof.
  intros O. unfold submitted. destruct (submitting s) as [t|]; [|exact O].
  destruct O as [T H [F1 F2] C S N]. split; cbn; try done.
  intros _ _. by right.
Qed.

Lemma not_submitted_ok e b now s st :
  card_ok s st → card_ok (not_submitted e b now (s, st)).1 (not_submitted e b now (s, st)).2.
Proof.
  intros O. unfold not_submitted. destruct (submitting s); [|exact O]. destruct (eqs type TEXT).
  - destruct b; [|eapply same_ok; [|exact O]; by repeat split]. cbn [fst snd].
    eapply same_ok; [|]; [by repeat split|]. destruct O as [T H F C S N]. split; try done.
    + intros p Hp Hs. apply (kept_save s).
    + intros Hh Hp. left. apply (kept_save s).
  - eapply same_ok; [|exact O]; by repeat split.
Qed.

Lemma opened_card_ok p st : writes = true → card_ok (opened p) st.
Proof. intros W. unfold opened, load_effect. rewrite W. apply save_effect_ok; [done|done|]. by split. Qed.

Lemma same_refl s : same s s.
Proof. by repeat split. Qed.

Lemma card_step_ok e s st :
  writes = true → card_ok s st → card_ok (step e (s, st)).1 (step e (s, st)).2.
Proof.
  intros W O. destruct e; cbn [step fst snd].
  - by apply card_refreshed_ok.
  - by apply card_loaded_ok.
  - unfold types. destruct (form_shown s && _); [|done]. apply setText_ok; [done|].
    eapply same_ok; [|exact O]. by repeat split.
  - unfold fields. destruct (form_shown s && _); [|done]. eapply same_ok; [|exact O]. by repeat split.
  - unfold restore. destruct (olderDraft s); [|done]. destruct (form_shown s); [|done]. apply setText_ok; [done|].
    eapply same_ok; [|exact O]. by repeat split.
  - by apply card_fire_ok.
  - by apply card_settle_ok.
  - unfold submit. destruct (form_shown s && _); [|done]. eapply same_ok; [|exact O]. by repeat split.
  - by apply submitted_ok.
  - by apply not_submitted_ok.
  - unfold mark. destruct (mark_shown s && _); [|done]. eapply same_ok; [|exact O]. by repeat split.
  - eapply same_ok; [|exact O]. by repeat split.
  - unfold select. destruct (knowledgeCheck s); [|done]. destruct (studentMode && _); [|done].
    eapply same_ok; [|exact O]. by repeat split.
  - unfold check_answer. destruct (knowledgeCheck s), (selected s); try done. destruct (studentMode && _ && _); [|done].
    eapply same_ok; [|exact O]. by repeat split.
  - unfold checked. destruct (checking s); [|done]. destruct c; eapply same_ok; [|exact O| |exact O]; by repeat split.
Qed.

Lemma card_run_ok es x :
  writes = true → card_ok x.1 x.2 → card_ok (run es x).1 (run es x).2.
Proof.
  revert x. induction es as [|e es IH]; [done|]. intros [s st] W O. apply IH; [done|].
  by apply card_step_ok.
Qed.

Lemma leave_kept now s st :
  hydrated s = true → card_ok s st → kept s (leave now (s, st)) ∨ accepted s = Some (text s).
Proof.
  intros H O. unfold leave. cbn [fst snd]. destruct (pending s) as [p|] eqn:Hp.
  - left. apply kept_persist. by apply O.
  - by apply O.
Qed.

(** What is kept is what the card shows when it is opened again. *)
Lemma reopened_text s st :
  writes = true → kept s st →
  let t := text (loaded true (opened (props s), st)).1 in
  t = text s ∨ (trim (text s) = [] ∧ t = base_text (props s)).
Proof.
  intros W K t. subst t.
  assert (B : text (opened (props s)) = base_text (props s)).
  { unfold opened, load_effect, save_effect, text, base_text, latest. rewrite W. cbn.
    destruct (Learning.latestSubmission _ _) as [l|]; [|done]. cbn. by destruct (List.find _ _). }
  assert (L : loading (opened (props s)) = true).
  { unfold opened, load_effect, save_effect. by rewrite W. }
  assert (D : edited (opened (props s)) = false ∧ props (opened (props s)) = props s).
  { unfold opened, load_effect, save_effect. by rewrite W. }
  assert (HH : ∀ c, text (setHydrated c) = text c).
  { intros c. unfold setHydrated, save_effect. destruct (hydrated c); [done|]. by destruct (writes && _). }
  assert (HT : ∀ x c, text (setText x c) = x).
  { intros x c. unfold setText, save_effect. destruct (eqs x (text c)) eqn:E; [by apply eqs_true in E|].
    by destruct (writes && _). }
  destruct D as [De Dp]. unfold loaded. rewrite L. cbn [negb fst snd]. rewrite HH.
  unfold kept, stored in K. destruct (loadSubmissionDraft u blk st) as [[d|] st1]; cbn [fst] in K.
  - destruct K as (T & I & A). cbn [loaded_draft fst]. cbn [edited set_load props].
    rewrite De, Dp. unfold submissionDraftMatches. rewrite !bool_decide_eq_true_2 by done. cbn [andb].
    destruct (eqs (Storage.text d) _) eqn:E; cbn [negb fst].
    + apply eqs_true in E. left. change (text (opened (props s)) = text s). congruence.
    + left. rewrite <- T. apply HT.
  - cbn [loaded_draft fst]. change (text (set_load _ _ ?c)) with (text c). rewrite B.
    destruct K as [K | ->]; [by right|by left].
Qed.


(** ** What is sent *)

Definition grade_of (p : Props) : option (option str) := (λ x, Learning.grade (core x)) <$> latest p.

(** A request the student may make in the state [s]. *)
Definition may_send (s : Card) (r : Request) : Prop :=
  studentMode = true ∧
  match r with
  | CreateSubmission i =>
      closed (props s) = false ∧ submitting s = None ∧ Learning.canSubmitWork type (values s) = true
      ∧ i = Learning.buildSubmissionInput blk type (values s)
      ∧ (latest (props s) = None ∨ editable (props s) = false ∧ passed (props s) = false)
  | UpdateSubmission j i =>
      closed (props s) = false ∧ submitting s = None ∧ Learning.canSubmitWork type (values s) = true
      ∧ i = Learning.buildSubmissionInput blk type (values s)
      ∧ base_id (props s) = Some j ∧ editable (props s) = true
  | UpdateProgress b t =>
      b = blk ∧ marking s = false ∧ locked s = false ∧ knowledgeCheck s = None
      ∧ t = (if completed (props s) then js "not_started" else js "completed")
  | AttemptCheck j o =>
      checking s = false ∧ selected s = Some o
      ∧ ∃ c, knowledgeCheck s = Some c ∧ c_id c = j ∧ answered_right c = false
  end.

Lemma submission_may_send s : form_shown s = true → canSubmit s = true → may_send s (submission s).
Proof.
  unfold form_shown, canSubmit, locked. intros F C.
  apply andb_true_iff in F as [F P]. apply andb_true_iff in F as [F _]. apply andb_true_iff in F as [M X].
  rewrite X, andb_true_r in C. apply negb_true_iff in P. rewrite P, orb_false_r in C.
  destruct (closed (props s)) eqn:Cl; [done|]. cbn [orb] in C.
  destruct (submitting s) eqn:S; [done|]. cbn in C.
  split; [done|]. unfold submission, base_id. destruct (latest (props s)) as [y|] eqn:L.
  - destruct (editable (props s)) eqn:E; cbv iota zeta beta; rewrite ?L; split_and!; try done. by right.
  - cbv iota zeta beta. split_and!; try done. by left.
Qed.

Lemma requests_save_effect s : requests (save_effect s) = requests s.
Proof. unfold save_effect. by destruct (writes && _). Qed.
Lemma requests_setText t s : requests (setText t s) = requests s.
Proof. unfold setText. destruct (eqs _ _); [done|]. by rewrite requests_save_effect. Qed.
Lemma requests_loaded b x : requests (loaded b x).1 = requests x.1.
Proof.
  destruct x as [s st]. unfold loaded. destruct (negb (loading s)); [done|]. cbn [fst].
  assert (H : ∀ c, requests (setHydrated c) = requests c).
  { intros c. unfold setHydrated. destruct (hydrated c); [done|]. by rewrite requests_save_effect. }
  rewrite H. destruct b; [|done]. destruct (loadSubmissionDraft u blk st) as [[d|] st1]; [|done]. cbn [loaded_draft].
  destruct (edited _); [done|]. destruct (_ && _); [exact (requests_setText _ _)|].
  by destruct (negb _).
Qed.

Lemma in_snoc {A} (x y : A) l : x ∈ l ++ [y] → x ∈ l ∨ x = y.
Proof. by rewrite elem_of_app, list_elem_of_singleton. Qed.

Lemma card_step_requests e s st r :
  r ∈ requests (step e (s, st)).1 → r ∈ requests s ∨ may_send s r.
Proof.
  destruct e; cbn [step fst].
  - unfold refreshed, load_effect. case_bool_decide; [by left|]. rewrite requests_save_effect. destruct writes; by left.
  - rewrite requests_loaded. by left.
  - unfold types. destruct (_ && _); [|by left]. rewrite requests_setText. by left.
  - unfold fields. destruct (_ && _); by left.
  - unfold restore. destruct (olderDraft s); [|by left]. destruct (form_shown s); [|by left].
    rewrite requests_setText. by left.
  - unfold fire. destruct (timer s); [|by left]. destruct saved; by left.
  - unfold settle. destruct (has _ _); [|by left]. destruct (pending s); [|by left]. destruct (bool_decide _); by left.
  - unfold submit. destruct (form_shown s) eqn:F; [|by left]. destruct (canSubmit s) eqn:C; [|by left].
    intros [H| ->]%in_snoc; [by left|]. right. by apply submission_may_send.
  - unfold submitted. destruct (submitting s); by left.
  - unfold not_submitted. destruct (submitting s); [|by left]. destruct (eqs _ _); [|by left]. destruct saved; by left.
  - unfold mark, mark_shown. destruct studentMode eqn:M; [|by left].
    destruct (knowledgeCheck s) eqn:K; [by left|]. destruct (_ && _) eqn:E; [|by left].
    apply andb_true_iff in E as [_ E]. apply negb_true_iff, orb_false_iff in E as [E1 E2].
    intros [H| ->]%in_snoc; [by left|]. right. split; [done|]. by split_and!.
  - by left.
  - unfold select. destruct (knowledgeCheck s); [|by left]. destruct (_ && _); by left.
  - unfold check_answer. destruct (knowledgeCheck s) as [c|] eqn:K; [|by left]. destruct (selected s) as [o|] eqn:S; [|by left].
    destruct (_ && _) eqn:E; [|by left]. apply andb_true_iff in E as [E E3]. apply andb_true_iff in E as [E1 E2].
    apply negb_true_iff in E2. apply negb_true_iff in E3.
    intros [H| ->]%in_snoc; [by left|]. right. split; [done|]. split_and!; try done. by exists c.
  - unfold checked. destruct (checking s); [|by left]. destruct c; by left.
Qed.

(** A lesson on the phone sends only what the student may send. Each request of the card
    was made by a student, one at a time: work only while submissions are open, complete for
    its type, as a change of the latest submission when that is not graded yet and as a new
    one only when there is none or it was graded without passing; a mark of completion only where there
    is no quick check and the block is not locked; an answer only while it is not right yet. *)
Theorem lesson_block_requests (p : Props) (st : Store) (es : list event) (r : Request) :
  r ∈ requests (run es (opened p, st)).1 →
  ∃ l e l', es = l ++ e :: l' ∧ may_send (run l (opened p, st)).1 r.
Proof.
  induction es as [|e es IH] using rev_ind.
  - cbn [run fold_left fst]. unfold opened. rewrite requests_save_effect. unfold load_effect.
    destruct writes; intros H; by apply not_elem_of_nil in H.
  - unfold run. rewrite fold_left_app. cbn [fold_left]. intros H.
    destruct (fold_left _ es _) as [s st'] eqn:E. apply card_step_requests in H as [H|H].
    + destruct IH as (l&e'&l'&->&M); [unfold run; by rewrite E|]. exists l, e', (l' ++ [e]).
      split; [by rewrite <- app_assoc|done].
    + exists es, e, []. unfold run. by rewrite E.
Qed.

End Block.

(** ** Concrete cards *)

Definition no_time : str → option Z := λ _, None.
Abbreviation sample_run := (run no_time 1 2 (js "exercise") (js "text_submission") true false).
Abbreviation sample_opened := (opened no_time (js "text_submission") true).
Abbreviation sample_leave := (leave 1 2 (js "now")).

Definition nothing : Props := {| subs := []; completed := false; closed := false; check := None |}.

(** The work [t], not graded yet. *)
Definition handed (i : Z) (t : str) : Props :=
  {| subs := [{| core := {| Learning.id := i; Learning.user_id := 1; Learning.block_id := 2; Learning.grade := None;
                            Learning.created_at := js "2026" |};
                 s_values := no_values; s_text := Some t; s_updated := Some (js "at") |}];
     completed := false; closed := false; check := None |}.

Definition typing : list event :=
  [Loaded true; Types (js "fi"); Fire false (js "0"); Types (js "first try"); Fire true (js "1"); Submit;
   NotSubmitted (js "offline") false (js "2"); Settle 2; Types (js "second try")].


Definition update : Request :=
  UpdateSubmission 5 (Learning.buildSubmissionInput 2 (js "text_submission") (with_text (js "my work") no_values)).

Lemma lesson_block_requests_witness :
  update ∈ requests (sample_run [Submit] (sample_opened (handed 5 (js "my work")), ∅)).1
  ∧ may_send no_time 2 (js "exercise") (js "text_submission") true (sample_opened (handed 5 (js "my work"))) update.
Proof.
  assert (H : update ∈ requests (sample_run [Submit] (sample_opened (handed 5 (js "my work")), ∅)).1)
    by (vm_compute; left).
  split; [exact H|].
  destruct (lesson_block_requests no_time 1 2 (js "exercise") (js "text_submission") true false _ ∅ [Submit] _ H)
    as (l & e & l' & E & M).
  destruct l as [|a l]; [exact M|]. exfalso. destruct l; discriminate E.
Defined.

(** *** What can be lost *)

Definition device (t : str) : Store := saveSubmissionDraft 1 2 t None None (js "0") ∅.

(** A draft that was written before the latest submission is offered as an older draft, and is
    removed from the device by the effect that saves, which sees an unchanged text. *)
Lemma older_draft_lost :
  let x := sample_run [Loaded true] (sample_opened (handed 5 (js "handed in")), device (js "long work")) in
  (Storage.text <$> olderDraft x.1) = Some (js "long work") ∧ notice x.1 = Some OlderAvailable
  ∧ stored 1 2 x.2 = olderDraft x.1 ∧ stored 1 2 (sample_leave x) = None.
Proof. by vm_compute. Qed.

(** Text that is typed while work is being handed in is forgotten by its acceptance, until the
    lesson is refreshed. *)
Lemma typed_while_handing_in_lost :
  let x := sample_run [Loaded true; Types (js "one"); Submit; Types (js "one and two"); Submitted true]
             (sample_opened nothing, ∅) in
  text x.1 = js "one and two" ∧ accepted x.1 = Some (text x.1) ∧ stored 1 2 (sample_leave x) = None.
Proof. by vm_compute. Qed.

(** Work is sent trimmed and compared untrimmed: after it was accepted, with its blanks, it is
    saved again and called a draft that is not submitted. *)
Lemma handed_in_work_called_draft :
  let x := sample_run [Loaded true; Types (js "done "); Submit; Submitted true; Refreshed (handed 5 (js "done"));
                       Loaded true; Fire true (js "1"); Settle 2] (sample_opened nothing, ∅) in
  notice x.1 = Some Saved ∧ (Storage.text <$> stored 1 2 x.2) = Some (js "done ").
Proof. by vm_compute. Qed.
