(* ===== verification/VideoField.v ===== *)
(** * The video of an exercise (web)

    [web/src/components/admin/VideoUploadField.tsx]: a link or an upload, chosen in one field.
    The field is shown beside the queue of uploads ([UploadQueue]) and tells the page that
    shows it ([LessonEditor]) the key of the upload. Its two effects run after every change
    ([settle]): an upload for this exercise that is under way is adopted, and the key of the
    active upload is reported. *)

From S2P Require Import Prelude.
From S2P Require Import Keyed.
From S2P Require Import LessonEditor.
From S2P Require Import UploadQueue.

Inductive Mode := url_mode | upload_mode.
Inductive Source := url_source | upload_source.

Record File := { f_name : str; f_type : str; f_size : Z }.

Record Field := {
  videoUrl : str; s3VideoKey : option str;                 (* kept by the page *)
  mode : Mode; uploadId : option Z; uploadedFileName : option str; error : option str;
  reported : list (str * str * Z);                         (* calls of [onS3VideoUploaded] *)
  queue : UploadQueue.State;
}.

Definition set_page (t : str) (k : option str) (f : Field) : Field :=
  {| videoUrl := t; s3VideoKey := k; mode := mode f; uploadId := uploadId f; uploadedFileName := uploadedFileName f;
     error := error f; reported := reported f; queue := queue f |}.
Definition set_mode (m : Mode) (f : Field) : Field :=
  {| videoUrl := videoUrl f; s3VideoKey := s3VideoKey f; mode := m; uploadId := uploadId f;
     uploadedFileName := uploadedFileName f; error := error f; reported := reported f; queue := queue f |}.
Definition set_upload (i : option Z) (n : option str) (f : Field) : Field :=
  {| videoUrl := videoUrl f; s3VideoKey := s3VideoKey f; mode := mode f; uploadId := i;
     uploadedFileName := n; error := error f; reported := reported f; queue := queue f |}.
Definition set_error (e : option str) (f : Field) : Field :=
  {| videoUrl := videoUrl f; s3VideoKey := s3VideoKey f; mode := mode f; uploadId := uploadId f;
     uploadedFileName := uploadedFileName f; error := e; reported := reported f; queue := queue f |}.
Definition set_queue (q : UploadQueue.State) (f : Field) : Field :=
  {| videoUrl := videoUrl f; s3VideoKey := s3VideoKey f; mode := mode f; uploadId := uploadId f;
     uploadedFileName := uploadedFileName f; error := error f; reported := reported f; queue := q |}.
Definition report (d : str * str * Z) (f : Field) : Field :=
  {| videoUrl := []; s3VideoKey := Some d.1.1; mode := mode f; uploadId := uploadId f;
     uploadedFileName := uploadedFileName f; error := error f; reported := reported f ++ [d]; queue := queue f |}.

Section Field.
Context (contentBlockId lessonId : option Z) (deferPersistence : bool) (contextLabel : option str).

Definition uploadLinkTo : option str :=
  match lessonId with
  | Some l => if l =? 0 then None else Some (js "/admin/lessons/" ++ str_of_Z l ++ js "/edit")
  | None => None
  end.

Definition in_flight (v : ActiveUpload) : bool :=
  negb (bool_decide (status v = UploadQueue.done)) && negb (bool_decide (status v = UploadQueue.error)).

Definition for_this (v : ActiveUpload) : bool :=
  in_flight v
  && (if truthy_id contentBlockId then bool_decide (UploadQueue.contentBlockId v = contentBlockId)
      else deferPersistence && bool_decide (linkTo v = uploadLinkTo)).

Definition existingUpload (l : list ActiveUpload) : option ActiveUpload := List.find for_this l.

Definition activeUpload (f : Field) : option ActiveUpload :=
  match (i ← uploadId f; find_upload i (uploads (queue f))) with
  | Some v => Some v
  | None => existingUpload (uploads (queue f))
  end.

Definition isUploading (f : Field) : bool := match activeUpload f with Some v => in_flight v | None => false end.

Definition key_known (f : Field) : bool := truthy (default [] (s3VideoKey f)).

Definition activeSource (f : Field) : option Source :=
  if key_known f || isUploading f then Some upload_source
  else if truthy (trim (videoUrl f)) then Some url_source else None.

(** ** Effects *)

Definition adopt (f : Field) : Field :=
  match activeUpload f with
  | Some v => if bool_decide (Some (id v) = uploadId f) then f
              else set_mode upload_mode (set_upload (Some (id v)) (Some (fileName v)) f)
  | None => f
  end.

Definition sync (f : Field) : Field :=
  match activeUpload f with
  | Some v =>
      match s3Key v with
      | Some k => if negb (truthy k) || bool_decide (status v = UploadQueue.error)
                     || bool_decide (s3VideoKey f = Some k)
                  then f else report (k, contentType v, fileSize v) f
      | None => f
      end
  | None => f
  end.

Definition settle (f : Field) : Field := sync (adopt f).

(** ** Handlers *)

Definition last_part (k : str) : option str := or_undefined (default [] (last (split_on "/"%char k))).

Definition mounted (t : str) (k : option str) (q : UploadQueue.State) : Field :=
  let existing := existingUpload (uploads q) in
  settle {| videoUrl := t; s3VideoKey := k;
    mode := if truthy (default [] k) || bool_decide (is_Some existing) then upload_mode else url_mode;
    uploadId := id <$> existing;
    uploadedFileName := match existing with
                        | Some v => if truthy (fileName v) then Some (fileName v) else k ≫= last_part
                        | None => k ≫= last_part end;
    error := None; reported := []; queue := q |}.

Definition LIMIT : Z := 5 * 1024 * 1024 * 1024.

(** [i] is the identifier [startVideoUpload] makes. *)
Definition startUpload (i : Z) (x : File) (f : Field) : Field :=
  if negb (startsWith (f_type x) (js "video/")) then set_error (Some (js "Please select a video file")) f
  else if LIMIT <? f_size x then set_error (Some (js "File must be under 5 GB")) f
  else
    let o := {| o_contentBlockId := if truthy_id contentBlockId then contentBlockId else None;
                o_deferPersistence := Some deferPersistence; o_cohortRecording := None;
                o_linkTo := uploadLinkTo; o_linkLabel := contextLabel |} in
    set_upload (Some i) (Some (f_name x))
      (set_queue (UploadQueue.step (Start i (f_name x) (f_size x) (f_type x) o) (queue f)) (set_error None f)).

Definition handleRemoveS3Video (f : Field) : Field :=
  let f := match activeUpload f with
           | Some v => if in_flight v then set_queue (cancelUpload (id v) (queue f)) f else f
           | None => f end in
  set_page (videoUrl f) None (set_upload None None f).

Definition handleClearUrl (f : Field) : Field := set_page [] (s3VideoKey f) f.
Definition handleSwitchToUrl (f : Field) : Field := set_mode url_mode (handleRemoveS3Video f).
Definition handleSwitchToUpload (f : Field) : Field :=
  set_mode upload_mode (if truthy (trim (videoUrl f)) then handleClearUrl f else f).

Definition handleModeSelect (m : Mode) (f : Field) : Field :=
  match m, activeSource f with
  | url_mode, Some upload_source => handleSwitchToUrl f
  | url_mode, _ => set_mode url_mode f
  | upload_mode, Some url_source => handleSwitchToUpload f
  | upload_mode, _ => set_mode upload_mode f
  end.

(** The controls are shown for the mode and the source; [Refetched] is the page loading its
    lesson again. *)
Inductive event :=
| Queue (a : UploadQueue.action) | Refetched (t : str) (k : option str)
| TypeUrl (t : str) | ClearUrl | SelectMode (m : Mode) | SwitchToUrl | SwitchToUpload | Remove
| ChooseFile (i : Z) (x : File).

Definition is_source (s : Source) (f : Field) : bool :=
  match activeSource f, s with
  | Some url_source, url_source | Some upload_source, upload_source => true
  | _, _ => false
  end.

Definition handle (e : event) (f : Field) : Field :=
  match e with
  | Queue a => set_queue (UploadQueue.step a (queue f)) f
  | Refetched t k => set_page t k f
  | TypeUrl t => match mode f with url_mode => set_page t (s3VideoKey f) f | upload_mode => f end
  | ClearUrl => handleClearUrl f
  | SelectMode m => handleModeSelect m f
  | SwitchToUrl => if is_source upload_source f then handleSwitchToUrl f else f
  | SwitchToUpload => if is_source url_source f then handleSwitchToUpload f else f
  | Remove => if is_source upload_source f then handleRemoveS3Video f else f
  | ChooseFile i x => match mode f with
                      | upload_mode => if isUploading f || key_known f then f else startUpload i x f
                      | url_mode => f end
  end.

Definition video_step (e : event) (f : Field) : Field := settle (handle e f).

(** ** Effects end *)

Lemma activeUpload_find f v :
  NoDup (map id (uploads (queue f))) → activeUpload f = Some v →
  find_upload (id v) (uploads (queue f)) = Some v.
Proof.
  intros N. unfold activeUpload. destruct (i ← uploadId f; _) as [w|] eqn:E.
  - intros [= ->]. destruct (uploadId f) as [i|]; [|done]. cbn in E. pose proof E as [_ Ei]%find_upload_spec.
    by rewrite Ei.
  - intros [Hv _]%find_some. apply find_upload_elem; [done|by apply list_elem_of_In|done].
Qed.

Lemma adopt_active f : NoDup (map id (uploads (queue f))) → activeUpload (adopt f) = activeUpload f.
Proof.
  intros N. unfold adopt. destruct (activeUpload f) as [v|] eqn:A; [|done]. case_bool_decide; [done|].
  unfold activeUpload at 1. cbn [uploadId set_mode set_upload queue mbind option_bind].
  by rewrite (activeUpload_find f v N A).
Qed.

Lemma adopt_id f v : NoDup (map id (uploads (queue f))) → activeUpload f = Some v → uploadId (adopt f) = Some (id v).
Proof. intros N A. unfold adopt. rewrite A. by case_bool_decide. Qed.

Lemma sync_active f : activeUpload (sync f) = activeUpload f.
Proof.
  unfold sync. destruct (activeUpload f) as [v|] eqn:A; [|done]. destruct (s3Key v) as [k|]; [|done].
  by destruct (_ || _ || _).
Qed.

(** The upload has a key to report. *)
Definition reports (v : ActiveUpload) (k : str) : Prop :=
  s3Key v = Some k ∧ k ≠ [] ∧ status v ≠ UploadQueue.error.

Definition synced (f : Field) : Prop :=
  ∀ v, activeUpload f = Some v → uploadId f = Some (id v) ∧ ∀ k, reports v k → s3VideoKey f = Some k.

Lemma settle_queue f : queue (settle f) = queue f.
Proof.
  assert (A : ∀ g, queue (adopt g) = queue g).
  { intros g. unfold adopt. destruct (activeUpload g); [|done]. by case_bool_decide. }
  rewrite <- (A f). unfold settle, sync. destruct (activeUpload (adopt f)) as [v|]; [|done].
  destruct (s3Key v) as [k|]; [|done]. by destruct (_ || _ || _).
Qed.

Lemma settle_synced f : NoDup (map id (uploads (queue f))) → synced (settle f).
Proof.
  intros N v. unfold settle. rewrite sync_active, (adopt_active f N). intros A.
  pose proof (adopt_id f v N A) as I. unfold sync. rewrite (adopt_active f N), A.
  destruct (s3Key v) as [k|] eqn:K.
  - destruct (_ || _ || _) eqn:E.
    + split; [done|]. intros k' (K' & Hk & Hs). rewrite K in K'. injection K' as <-.
      apply orb_true_iff in E as [E|E]; [|by apply bool_decide_eq_true_1 in E].
      apply orb_true_iff in E as [E|E]; [by destruct k|]. by apply bool_decide_eq_true_1 in E.
    + split; [done|]. intros k' (K' & _). rewrite K in K'. by injection K' as <-.
  - split; [done|]. intros k (K' & _). by rewrite K in K'.
Qed.

Lemma settle_fixed f : synced f → settle f = f.
Proof.
  intros S. unfold settle. assert (A : adopt f = f).
  { unfold adopt. destruct (activeUpload f) as [v|] eqn:E; [|done]. destruct (S v E) as [I _].
    by rewrite bool_decide_eq_true_2. }
  rewrite A. unfold sync. destruct (activeUpload f) as [v|] eqn:E; [|done].
  destruct (s3Key v) as [k|] eqn:K; [|done]. destruct (truthy k) eqn:T; [|done]. cbn [negb orb].
  case_bool_decide as Hs; [done|]. cbn [orb]. destruct (S v E) as [_ R].
  rewrite bool_decide_eq_true_2; [done|]. apply R. split_and!; [done| |done]. by destruct k.
Qed.

(** ** The objects in the bucket *)

Definition stored_by (q : UploadQueue.State) (v : ActiveUpload) : Prop :=
  status v ∈ [waiting; saving; UploadQueue.done] → ∃ k, s3Key v = Some k ∧ k ≠ [] ∧ k ∈ bucket q.

Definition in_bucket (q : UploadQueue.State) : Prop :=
  (∀ v, v ∈ uploads q → stored_by q v) ∧ (∀ i k p, flows q !! i = Some (Saving k p) → k ∈ bucket q).

Lemma entry_flow q v f : Inv q → v ∈ uploads q → flows q !! id v = Some f → entry_ok f v.
Proof. intros [(_ & E & _) _] Hv Hf. destruct (E v Hv) as (f' & Hf' & Ho). congruence. Qed.

(** An entry changes, and its process. *)
Lemma in_bucket_update q i g f :
  in_bucket q → (∀ v, v ∈ uploads q → id v = i → stored_by q v → stored_by q (g v)) →
  (∀ k p, f = Some (Saving k p) → k ∈ bucket q) →
  in_bucket (match f with Some f => set_flow i f (set_uploads (updateUpload i g (uploads q)) q)
             | None => set_uploads (updateUpload i g (uploads q)) q end).
Proof.
  intros [B F] G S. assert (U : ∀ v, v ∈ updateUpload i g (uploads q) → stored_by q v).
  { intros v (w & Hw & ->)%elem_of_update. destruct (Z.eqb_spec (id w) i) as [E|E]; [|by apply B].
    apply G; [done|done|by apply B]. }
  destruct f as [f|]; split; cbn; try done.
  intros j k p [[<- Hf]|[_ Hj]]%lookup_insert_Some; [apply (S k p); congruence|by eapply F].
Qed.

Lemma in_bucket_remove q i : in_bucket q → in_bucket (set_uploads (removeUpload i (uploads q)) q).
Proof. intros [B F]. split; cbn; [|done]. intros v [Hv _]%elem_of_remove. by apply B. Qed.

Lemma in_bucket_grow q q' :
  uploads q' = uploads q → flows q' = flows q → (∀ k, k ∈ bucket q → k ∈ bucket q') → in_bucket q → in_bucket q'.
Proof.
  intros U L G [B F]. split.
  - intros v Hv Hs. rewrite U in Hv. destruct (B v Hv Hs) as (k & ? & ? & ?). exists k. auto.
  - intros j k p Hj. rewrite L in Hj. apply G. by eapply F.
Qed.

Lemma in_bucket_ended q i q' : in_bucket q → q' = set_flow i Ended q → in_bucket q'.
Proof.
  intros [B F] ->. split; cbn; [done|]. intros j k p [[_ [=]]|[_ Hj]]%lookup_insert_Some. by eapply F.
Qed.

Lemma fail_in_bucket q i m : in_bucket q → in_bucket (set_flow i Ended (fail i m q)).
Proof.
  intros B. eapply in_bucket_ended; [|reflexivity]. unfold fail. destruct (has _ _); [by apply in_bucket_remove|].
  apply (in_bucket_update q i _ None); [done| |done]. intros v _ _ _ H. cbn in H.
  rewrite !elem_of_cons, elem_of_nil in H. naive_solver.
Qed.

Lemma stored_in_bucket q i : Inv q → in_bucket q → in_bucket (UploadQueue.step (Stored i) q).
Proof.
  intros I B. cbn [UploadQueue.step]. destruct (flows q !! i) as [[| key | |]|] eqn:Hf; try done.
  assert (K : key ≠ []) by (destruct I as [(_ & _ & A) _]; exact (proj1 (A i _ Hf))).
  set (q1 := store i key q). assert (Hk : key ∈ bucket q1) by (cbn; left).
  assert (B1 : in_bucket q1) by (eapply (in_bucket_grow q); [done|done|intros; cbn; by right|done]).
  assert (E : ∀ v, v ∈ uploads q1 → id v = i → s3Key v = Some key).
  { intros v Hv Hi. pose proof (entry_flow q v (Sending key) I Hv) as H. rewrite Hi in H. by destruct (H Hf). }
  unfold after_stored. destruct (persistUploadTarget _ _) as [| b | r].
  - apply (in_bucket_update q1 i _ (Some Ended)); [done| |done].
    intros v Hv Hi _ _. exists key. split; [exact (E v Hv Hi)|done].
  - apply (in_bucket_update q1 i _ (Some (Saving key _))); [done| |by intros k p [= <- _]].
    intros v Hv Hi _ _. exists key. split; [exact (E v Hv Hi)|done].
  - apply (in_bucket_update q1 i _ (Some (Saving key _))); [done| |by intros k p [= <- _]].
    intros v Hv Hi _ _. exists key. split; [exact (E v Hv Hi)|done].
Qed.

Lemma attach_in_bucket q i b t l : Inv q → in_bucket q → in_bucket (attachUpload i b t l q).
Proof.
  intros I B. unfold attachUpload.
  assert (B1 : in_bucket (set_uploads (updateUpload i (with_target b t l) (uploads q)) q)).
  { apply (in_bucket_update q i _ None); [done| |done]. intros v _ _ H. exact H. }
  destruct (find_upload i (uploads q)) as [w|] eqn:Hw; cbn [fmap option_fmap option_map]; [|done].
  cbn [s3Key status with_target]. destruct (s3Key w) as [k|] eqn:Hk; [|done].
  destruct (status w) eqn:Hs; try done. destruct (_ && _); [|done].
  destruct (find_upload_spec _ _ _ Hw) as [Hin _].
  destruct (proj1 B w Hin) as (k' & Hk' & Kn & Kb); [rewrite Hs; left|].
  rewrite Hk in Hk'. injection Hk' as <-.
  set (q1 := set_uploads _ q) in *.
  assert (E : ∀ v, v ∈ uploads q1 → id v = i → s3Key v = Some k).
  { intros v (x & Hx & ->)%elem_of_update Hi. destruct (Z.eqb_spec (id x) i) as [Ex|Ex]; [|done].
    assert (find_upload i (uploads q) = Some x) as Fx by (apply find_upload_elem; [apply I|done|done]).
    rewrite Hw in Fx. injection Fx as <-. done. }
  assert (S : ∀ p, in_bucket (set_flow i (Saving k p) (set_uploads
    (updateUpload i (λ u0, with_status saving (error_text u0) u0) (uploads q1)) q1))).
  { intros p. apply (in_bucket_update q1 i _ (Some (Saving k p))); [done| |by intros k' p' [= <- _]].
    intros v Hv Hi _ _. exists k. split; [exact (E v Hv Hi)|done]. }
  destruct (persistUploadTarget _ _); [done|apply S|apply S].
Qed.

Lemma video_queue_step q a : Inv q → UploadQueue.allowed q a → in_bucket q → in_bucket (UploadQueue.step a q).
Proof.
  intros I Ha B. destruct a as [i n z t o|i k|i p|i m|i|i|i m|i|i b t l|k|i|i].
  - destruct B as [B F]. split; cbn.
    + intros v [Hv| ->%list_elem_of_singleton]%elem_of_app; [by apply B|].
      intros H. cbn in H. rewrite !elem_of_cons, elem_of_nil in H. naive_solver.
    + intros j k p [[_ [=]]|[_ Hj]]%lookup_insert_Some. by eapply F.
  - cbn. destruct (flows q !! i) as [[]|]; try done. apply (in_bucket_update q i _ (Some (Sending k))); [done| |done].
    intros v _ _ _ H. cbn in H. rewrite !elem_of_cons, elem_of_nil in H. naive_solver.
  - cbn. destruct (flows q !! i) as [[]|]; try done. apply (in_bucket_update q i _ None); [done| |done].
    intros v _ _ H. exact H.
  - cbn. destruct (flows q !! i) as [[]|]; try done; by apply fail_in_bucket.
  - by apply stored_in_bucket.
  - cbn. destruct (flows q !! i) as [[| |k p|]|] eqn:Hf; try done.
    assert (B1 : in_bucket (record k q)) by (by eapply (in_bucket_grow q)).
    apply (in_bucket_update (record k q) i _ (Some Ended)); [done| |done].
    intros v Hv Hi _ _. exists k. pose proof (entry_flow q v (Saving k p) I Hv) as H. rewrite Hi in H.
    destruct (H Hf) as [_ Hk]. split; [done|]. split.
    + destruct I as [(_ & _ & A) _]. exact (A i _ Hf).
    + by eapply (proj2 B).
  - cbn. destruct (flows q !! i) as [[| |k p|]|] eqn:Hf; try done. apply fail_in_bucket. by eapply (in_bucket_grow q).
  - cbn. unfold cancelUpload. destruct (find_upload i (uploads q)) as [w|]; [|by apply in_bucket_remove].
    destruct (status w), (s3Key w) as [k|]; try destruct (truthy k);
      apply in_bucket_remove; by eapply (in_bucket_grow q).
  - by apply attach_in_bucket.
  - by eapply (in_bucket_grow q).
  - apply (in_bucket_update q i _ None); [done| |done]. intros v Hv Hi S _.
    destruct (Ha v Hv Hi) as [Hs|[Hs _]]; apply S; rewrite Hs; [by right; right; left|left].
  - cbn. destruct (find_upload i (uploads q)); [|done]. destruct (has _ _); [by apply in_bucket_remove|done].
Qed.

(** ** The field beside the queue *)

(** An identifier is fresh; what the queue does is what it can do. *)
Definition may (e : event) (f : Field) : Prop :=
  match e with
  | Queue a => allowed (queue f) a
  | ChooseFile i x => ∀ o, allowed (queue f) (Start i (f_name x) (f_size x) (f_type x) o)
  | _ => True
  end.

Inductive shown : Field → Prop :=
| shown_mounted t k q : UploadQueue.reachable q → shown (mounted t k q)
| shown_step f e : shown f → may e f → shown (video_step e f).

Lemma reachable_in_bucket q : UploadQueue.reachable q → in_bucket q.
Proof.
  induction 1 as [|q a Hq IH Ha]; [|apply video_queue_step; [by apply queue_reachable_Inv|done|done]].
  split; cbn; [intros v Hv; by apply not_elem_of_nil in Hv|]. intros i k p H. by rewrite lookup_empty in H.
Qed.

Lemma remove_queue f : UploadQueue.reachable (queue f) → UploadQueue.reachable (queue (handleRemoveS3Video f)).
Proof.
  intros R. unfold handleRemoveS3Video. destruct (activeUpload f) as [v|]; [|done]. destruct (in_flight v); [|done].
  change (UploadQueue.reachable (UploadQueue.step (Cancel (id v)) (queue f))). by apply reachable_step.
Qed.

Lemma handle_queue e f : UploadQueue.reachable (queue f) → may e f → UploadQueue.reachable (queue (handle e f)).
Proof.
  intros R M. destruct e as [a|t k|t| |m| | | |i x]; cbn [handle]; try done.
  - by apply reachable_step.
  - by destruct (mode f).
  - unfold handleModeSelect. destruct m, (activeSource f) as [[]|]; try done; [by apply remove_queue|].
    unfold handleSwitchToUpload. by destruct (truthy _).
  - destruct (is_source _ f); [by apply remove_queue|done].
  - destruct (is_source _ f); [|done]. unfold handleSwitchToUpload. by destruct (truthy _).
  - destruct (is_source _ f); [by apply remove_queue|done].
  - destruct (mode f); [done|]. destruct (_ || _); [done|]. unfold startUpload. destruct (negb _); [done|].
    destruct (LIMIT <? _); [done|]. apply reachable_step; [done|]. apply M.
Qed.

Lemma reachable_nodup q : UploadQueue.reachable q → NoDup (map id (uploads q)).
Proof. intros R. apply (queue_reachable_Inv q R). Qed.

Lemma shown_ok f : shown f → UploadQueue.reachable (queue f) ∧ synced f.
Proof.
  induction 1 as [t k q R|f e _ [R S] M].
  - unfold mounted. rewrite settle_queue. split; [done|]. apply settle_synced. by apply reachable_nodup.
  - unfold video_step. rewrite settle_queue. pose proof (handle_queue e f R M) as R'. split; [done|].
    apply settle_synced. by apply reachable_nodup.
Qed.

(** C30: the video that is saved with a lesson is there. Whatever was chosen, typed, removed and
    loaded again, and whatever other uploads do: when the active upload of the field waits to be
    recorded or is done, the effects of the field have come to rest, and its object is in the
    bucket and is the one the page was told; saving the lesson then names that object, or leaves the
    video as it is. *)
Theorem saved_video_stored (f : Field) (v : ActiveUpload) :
  shown f → activeUpload f = Some v → status v ∈ [waiting; UploadQueue.done] →
  settle f = f
  ∧ ∃ k, s3VideoKey f = Some k ∧ s3Key v = Some k ∧ k ∈ bucket (queue f)
    ∧ ∀ l form p, LessonEditor.s3VideoKey (LessonEditor.video form) = s3VideoKey f →
        LessonEditor.video_payload (uploads (queue f)) l form = Some p →
        LessonEditor.pv_key p = None ∨ LessonEditor.pv_key p = Some (Some k).
Proof.
  intros Sh A Hs. destruct (shown_ok f Sh) as [R S]. split; [by apply settle_fixed|].
  destruct (reachable_in_bucket _ R) as [B _].
  assert (Hv : v ∈ uploads (queue f)) by (eapply find_upload_spec, activeUpload_find, A; by apply reachable_nodup).
  destruct (B v Hv) as (k & Hk & Kn & Kb).
  { rewrite !elem_of_cons, elem_of_nil in Hs. rewrite !elem_of_cons. tauto. }
  assert (K : s3VideoKey f = Some k).
  { destruct (S v A) as [_ T]. apply T. unfold reports. split_and!; [done|done|]. intros E. rewrite E in Hs.
    rewrite !elem_of_cons, elem_of_nil in Hs. naive_solver. }
  exists k. split_and!; try done. intros l form p E P. unfold LessonEditor.video_payload in P.
  destruct (_ || _) in P; [|done]. injection P as <-. cbn [LessonEditor.pv_key].
  destruct (match find LessonEditor.is_video _ with Some b => _ | None => _ end); [by left|].
  right. by rewrite E, K.
Qed.

Definition run (es : list event) (f : Field) : Field := fold_left (λ f e, video_step e f) es f.

Lemma shown_run es f :
  shown f → (∀ l e l', es = l ++ e :: l' → may e (run l f)) → shown (run es f).
Proof.
  induction es as [|e es IH] using rev_ind; intros S M; [done|].
  unfold run in *. rewrite fold_left_app. cbn [fold_left]. apply shown_step; [|by apply (M es e [])].
  apply IH; [done|]. intros l e' l' ->. apply (M l e' (l' ++ [e])). by rewrite <- app_assoc.
Qed.

End Field.

(** ** Concrete fields *)

Definition clip : File := {| f_name := js "clip.mp4"; f_type := js "video/mp4"; f_size := 1000 |}.

(** The field of the lesson 3, whose video has the block 4. *)
Abbreviation sample_field := (mounted (Some 4) (Some 3) true (js "https://link") None init).
Abbreviation sample_field_run := (run (Some 4) (Some 3) true None).

Definition uploading_clip : list event := [SelectMode upload_mode; ChooseFile 1 clip; Queue (Prepared 1 (js "videos/1"))].

Lemma saved_video_stored_witness :
  s3VideoKey (sample_field_run (uploading_clip ++ [Queue (Stored 1)]) sample_field) = Some (js "videos/1")
  ∧ settle (Some 4) (Some 3) true (sample_field_run (uploading_clip ++ [Queue (Stored 1)]) sample_field)
    = sample_field_run (uploading_clip ++ [Queue (Stored 1)]) sample_field.
Proof.
  assert (S : shown (Some 4) (Some 3) true None (sample_field_run (uploading_clip ++ [Queue (Stored 1)]) sample_field)).
  { apply shown_run; [by apply shown_mounted, reachable_init|]. intros l e l' E.
    destruct l as [|a [|b [|c [|d l]]]]; cbn in E; injection E; intros; subst; try exact I.
    - intros o. cbn. split_and!; [done| |]; apply not_elem_of_nil.
    - discriminate.
    - exfalso. by destruct l. }
  assert (T : is_Some (activeUpload (Some 4) (Some 3) true (sample_field_run (uploading_clip ++ [Queue (Stored 1)]) sample_field)))
    by (vm_compute; by eexists).
  destruct T as [v Hv].
  assert (W : status v ∈ [waiting; UploadQueue.done]).
  { assert (E : status <$> activeUpload (Some 4) (Some 3) true (sample_field_run (uploading_clip ++ [Queue (Stored 1)]) sample_field) = Some waiting)
      by (vm_compute; reflexivity). rewrite Hv in E. injection E as ->. left. }
  destruct (saved_video_stored (Some 4) (Some 3) true None _ v S Hv W) as [F _].
  split; [vm_compute; reflexivity|exact F].
Defined.

(** The key is reported when the upload begins, and stays with the page when it fails: the
    lesson is then saved with the key of an object that was never stored. *)
Lemma failed_upload_key_saved :
  let f := sample_field_run (uploading_clip ++ [Queue (Failed 1 (js "network"))]) sample_field in
  let form := {| LessonEditor.lesson := None; LessonEditor.objectiveAlignments := []; LessonEditor.title := js "T";
     LessonEditor.video := {| LessonEditor.videoUrl := videoUrl f; LessonEditor.videoBlockId := Some 4;
                              LessonEditor.s3VideoKey := s3VideoKey f |};
     LessonEditor.exercise := LessonEditor.exercise LessonEditor.fresh_form;
     LessonEditor.check := LessonEditor.check LessonEditor.fresh_form;
     LessonEditor.pendingVideoUploadId := Some 1; LessonEditor.saving := false; LessonEditor.saveError := None |} in
  let l := LessonEditor.plain_lesson 3 [] in
  bucket (queue f) = [] ∧ LessonEditor.activeVideoUpload form l (uploads (queue f)) = None
  ∧ LessonEditor.pv_key <$> LessonEditor.video_payload (uploads (queue f)) l form = Some (Some (Some (js "videos/1"))).
Proof. by vm_compute. Qed.

(** The same when the upload is cancelled in the list of uploads and not in the field. *)
Lemma cancelled_upload_key_kept :
  let f := sample_field_run (uploading_clip ++ [Queue (Cancel 1)]) sample_field in
  bucket (queue f) = [] ∧ uploads (queue f) = [] ∧ s3VideoKey f = Some (js "videos/1") ∧ videoUrl f = [].
Proof. by vm_compute. Qed.
