(* ===== verification/ImagePreview.v ===== *)
(** * The image preview (mobile)

    [mobile/src/components/image-preview.tsx]: pinching, panning, tapping and leafing through
    the images of a message, on the geometry of [ImageViewer]. A shared value is still, or
    moves to a goal by an animation, which may have a callback for its end; assigning a value
    stops its animation. [Frame] is what the animations show on the way, [ArriveScale],
    [ArriveX] and [ArriveY] are their ends. *)

From Stdlib Require Import QArith Qabs Lqa.
From S2P Require Import Prelude.
From S2P Require Import VideoProgress.
From S2P Require Import ImageViewer.

#[local] Open Scope Q_scope.

(** ** Shared values *)

Inductive Leave := Change (delta : Z) | Close.
Inductive Value := Still (q : Q) | Moving (shown goal : Q) (callback : option Leave).

Definition now (v : Value) : Q := match v with Still q => q | Moving s _ _ => s end.
Definition goal (v : Value) : Q := match v with Still q => q | Moving _ g _ => g end.
Definition callback (v : Value) : option Leave := match v with Still _ => None | Moving _ _ c => c end.

(** [withSpring], [withTiming] *)
Definition towards (q : Q) (v : Value) : Value := Moving (now v) q None.
Definition frame (q : Q) (v : Value) : Value := match v with Still p => Still p | Moving _ g c => Moving q g c end.
Definition arrived (v : Value) : Value := Still (goal v).
Definition is_still (v : Value) : bool := match v with Still _ => true | Moving _ _ _ => false end.

Record Surface := {
  scale : Value; tx : Value; ty : Value;
  startScale : Q; startX : Q; startY : Q;
  viewport : Size; image : Size;
  panning : bool; chromeVisible : bool;
}.

Record Preview := { count : Z; index : Z; closed : bool; surface : Surface }.

Definition ZERO : Size := {| width := 0; height := 0 |}.

Definition fresh (v : Size) : Surface :=
  {| scale := Still 1; tx := Still 0; ty := Still 0; startScale := 1; startX := 0; startY := 0;
     viewport := v; image := ZERO; panning := false; chromeVisible := true |}.

Definition transform (a b c : Value) (s : Surface) : Surface :=
  {| scale := a; tx := b; ty := c; startScale := startScale s; startX := startX s; startY := startY s;
     viewport := viewport s; image := image s; panning := panning s; chromeVisible := chromeVisible s |}.
Definition starting (a x y : Q) (p : bool) (s : Surface) : Surface :=
  {| scale := scale s; tx := tx s; ty := ty s; startScale := a; startX := x; startY := y;
     viewport := viewport s; image := image s; panning := p; chromeVisible := chromeVisible s |}.
Definition sized (v i : Size) (s : Surface) : Surface :=
  {| scale := scale s; tx := tx s; ty := ty s; startScale := startScale s; startX := startX s; startY := startY s;
     viewport := v; image := i; panning := panning s; chromeVisible := chromeVisible s |}.
Definition set_chrome (b : bool) (s : Surface) : Surface :=
  {| scale := scale s; tx := tx s; ty := ty s; startScale := startScale s; startX := startX s; startY := startY s;
     viewport := viewport s; image := image s; panning := panning s; chromeVisible := b |}.

(** [scale.value = withSpring(1)] and the translations to 0. *)
Definition reset (s : Surface) : Surface :=
  transform (towards 1 (scale s)) (towards 0 (tx s)) (towards 0 (ty s)) s.
Definition reset_now (s : Surface) : Surface := transform (Still 1) (Still 0) (Still 0) s.

(** ** Pinching *)

Definition pinch_start (s : Surface) : Surface := starting (now (scale s)) (now (tx s)) (now (ty s)) (panning s) s.

Definition pinch_update (k focalX focalY : Q) (s : Surface) : Surface :=
  let next := clamp (startScale s * k) 1 IMAGE_VIEWER_MAX_SCALE in
  let p := zoomTranslationAtPoint (image s) (viewport s) (startScale s) next (startX s) (startY s) focalX focalY in
  transform (Still next) (Still p.1) (Still p.2) s.

Definition lt (a b : Q) : bool := negb (Qle_bool b a).

Definition pinch_end (s : Surface) : Surface := if lt (now (scale s)) (104 # 100) then reset s else s.

(** ** Panning *)

Definition pan_start (s : Surface) : Surface := starting (startScale s) (now (tx s)) (now (ty s)) true s.

Definition zoomed_in (s : Surface) : bool := lt (101 # 100) (now (scale s)).

Definition clamped (s : Surface) (x y : Q) : Q * Q := clampImageTranslation (image s) (viewport s) (now (scale s)) x y.

Definition pan_update (dx dy : Q) (s : Surface) : Surface :=
  if zoomed_in s then
    let p := clamped s (startX s + dx) (startY s + dy) in
    transform (scale s) (Still p.1) (Still p.2) s
  else
    let vertical := lt 0 dy && lt (Qabs dx) (Qabs dy) in
    transform (scale s) (Still (if vertical then 0 else dx)) (Still (if vertical then dy else 0)) s.

Definition pan_end (canGoNext canGoPrevious : bool) (vx vy : Q) (s0 : Surface) : Surface :=
  let s := starting (startScale s0) (startX s0) (startY s0) false s0 in
  let x := now (tx s) in let y := now (ty s) in
  if zoomed_in s then
    let p := clamped s x y in
    transform (scale s) (towards p.1 (tx s)) (towards p.2 (ty s)) s
  else
    let horizontalThreshold := qmax 64 (width (viewport s) * (16 # 100)) in
    let isHorizontal := lt (Qabs y) (Qabs x) in
    let wantsNext := isHorizontal && (lt x (- horizontalThreshold) || lt vx (-(750))) in
    let wantsPrevious := isHorizontal && (lt horizontalThreshold x || lt 750 vx) in
    if (wantsNext && canGoNext) || (wantsPrevious && canGoPrevious) then
      transform (scale s)
        (Moving x (if wantsNext then - width (viewport s) else width (viewport s))
           (Some (Change (if wantsNext then 1%Z else (-1)%Z)))) (ty s) s
    else if lt (qmax 110 (height (viewport s) * (14 # 100))) y || lt 900 vy then
      transform (scale s) (tx s) (Moving y (height (viewport s)) (Some Close)) s
    else transform (scale s) (towards 0 (tx s)) (towards 0 (ty s)) s.

(** ** Tapping and the buttons *)

Definition double_tap (x y : Q) (s : Surface) : Surface :=
  if lt (105 # 100) (now (scale s)) then reset s
  else
    let p := zoomTranslationAtPoint (image s) (viewport s) 1 IMAGE_VIEWER_DOUBLE_TAP_SCALE 0 0 x y in
    transform (towards IMAGE_VIEWER_DOUBLE_TAP_SCALE (scale s)) (towards p.1 (tx s)) (towards p.2 (ty s)) s.

Definition zoomBy (k : Q) (s : Surface) : Surface :=
  let c := clamp k 1 IMAGE_VIEWER_MAX_SCALE in
  let p := clampImageTranslation (image s) (viewport s) c (now (tx s)) (now (ty s)) in
  transform (towards c (scale s)) (towards p.1 (tx s)) (towards p.2 (ty s)) s.

Definition backdrop (s : Surface) : Q :=
  1 - qmin (62 # 100) (qmax 0 (now (ty s)) / qmax 1 (height (viewport s)) * (72 # 100)).

(** ** The preview *)

Definition with_surface (f : Surface → Surface) (p : Preview) : Preview :=
  {| count := count p; index := index p; closed := closed p; surface := f (surface p) |}.

Definition canGoNext (p : Preview) : bool := (index p <? count p - 1)%Z.
Definition canGoPrevious (p : Preview) : bool := (0 <? index p)%Z.

(** The surface has the identifier of the attachment as its key: another image is a new one. *)
Definition onChangeIndex (delta : Z) (p : Preview) : Preview :=
  let i := Z.min (count p - 1) (Z.max 0 (index p + delta)) in
  {| count := count p; index := i; closed := closed p;
     surface := if Z.eqb i (index p) then surface p else fresh ZERO |}.

Definition close (p : Preview) : Preview :=
  {| count := count p; index := index p; closed := true; surface := reset_now (surface p) |}.

Inductive event :=
| PinchStart | PinchUpdate (k fx fy : Q) | PinchEnd
| PanStart | PanUpdate (dx dy : Q) | PanEnd (vx vy : Q)
| DoubleTap (x y : Q) | SingleTap | ZoomIn | ZoomOut | ResetZoom | PressClose | PressChange (delta : Z)
| Layout (v : Size) | ImageLoaded (i : Size)
| Frame (a b c : Q) | ArriveScale | ArriveX | ArriveY.

Definition call (c : option Leave) (p : Preview) : Preview :=
  match c with Some (Change d) => onChangeIndex d p | Some Close => close p | None => p end.

Definition step (e : event) (p : Preview) : Preview :=
  match e with
  | PinchStart => with_surface pinch_start p
  | PinchUpdate k x y => with_surface (pinch_update k x y) p
  | PinchEnd => with_surface pinch_end p
  | PanStart => with_surface pan_start p
  | PanUpdate dx dy => with_surface (pan_update dx dy) p
  | PanEnd vx vy => with_surface (pan_end (canGoNext p) (canGoPrevious p) vx vy) p
  | DoubleTap x y => with_surface (double_tap x y) p
  | SingleTap => with_surface (λ s, set_chrome (negb (chromeVisible s)) s) p
  | ZoomIn => with_surface (λ s, zoomBy (now (scale s) + (1 # 2)) s) p
  | ZoomOut => with_surface (λ s, zoomBy (now (scale s) - (1 # 2)) s) p
  | ResetZoom => with_surface reset p
  | PressClose => close p
  | PressChange d => onChangeIndex d p
  | Layout v => with_surface (λ s, sized v (image s) s) p
  | ImageLoaded i => with_surface (λ s, sized (viewport s) i s) p
  | Frame a b c => with_surface (λ s, transform (frame a (scale s)) (frame b (tx s)) (frame c (ty s)) s) p
  | ArriveScale => with_surface (λ s, transform (arrived (scale s)) (tx s) (ty s) s) p
  | ArriveX => call (callback (tx (surface p))) (with_surface (λ s, transform (scale s) (arrived (tx s)) (ty s) s) p)
  | ArriveY => call (callback (ty (surface p))) (with_surface (λ s, transform (scale s) (tx s) (arrived (ty s)) s) p)
  end.

Definition run (es : list event) (p : Preview) : Preview := fold_left (λ p e, step e p) es p.

(** [findIndex], and the first image when there is none. *)
Fixpoint position (i : Z) (l : list Z) (n : Z) : option Z :=
  match l with [] => None | x :: r => if Z.eqb x i then Some n else position i r (n + 1)%Z end.

Definition opened (ids : list Z) (initial : option Z) : Preview :=
  {| count := Z.of_nat (length ids); index := match initial with Some i => default 0%Z (position i ids 0%Z) | None => 0%Z end;
     closed := false; surface := fresh ZERO |}.

(** ** The image at rest *)

Definition inside (v i : Size) (k x y : Q) : Prop :=
  let '(bx, by_) := translationBounds i v k in - bx <= x <= bx /\ - by_ <= y <= by_.

Definition within (s : Surface) : Prop := inside (viewport s) (image s) (goal (scale s)) (goal (tx s)) (goal (ty s)).
Definition staying (s : Surface) : Prop := callback (tx s) = None /\ callback (ty s) = None.

Record good (p : Preview) : Prop := {
  g_index : (0 <= index p < count p)%Z;
  g_scale : 1 <= goal (scale (surface p)) <= 4;
  g_within : panning (surface p) = false -> staying (surface p) -> within (surface p);
  g_x : forall c, callback (tx (surface p)) = Some c ->
          exists d, c = Change d /\ (0 <= index p + d < count p)%Z /\ d <> 0%Z;
  g_y : forall c, callback (ty (surface p)) = Some c -> c = Close;
}.

Lemma qmax0 q : 0 <= qmax 0 q.
Proof. destruct (qmax_cases 0 q) as [[-> ?]|[-> ?]]; lra. Qed.

Lemma clamped_inside v i k x y :
  inside v i k (clampImageTranslation i v k x y).1 (clampImageTranslation i v k x y).2.
Proof. unfold inside, clampImageTranslation, translationBounds. cbn. split; apply clamp_spec, qmax0. Qed.

Lemma zoomed_inside v i a k x y fx fy :
  inside v i k (zoomTranslationAtPoint i v a k x y fx fy).1 (zoomTranslationAtPoint i v a k x y fx fy).2.
Proof. apply clamped_inside. Qed.

Lemma zero_inside v i k x y : x == 0 -> y == 0 -> inside v i k x y.
Proof.
  intros X Y. unfold inside, translationBounds.
  match goal with |- context [qmax 0 ?a] => pose proof (qmax0 a) end.
  match goal with |- _ /\ (- qmax 0 ?b <= _ <= _) => pose proof (qmax0 b) end. lra.
Qed.

Lemma within_zero s : goal (tx s) == 0 -> goal (ty s) == 0 -> within s.
Proof. intros X Y. exact (zero_inside _ _ _ _ _ X Y). Qed.

Lemma scale_clamped k : 1 <= clamp k 1 IMAGE_VIEWER_MAX_SCALE <= 4.
Proof.
  unfold clamp, IMAGE_VIEWER_MAX_SCALE. destruct (qmax_cases 1 k) as [[-> L]|[-> L]];
    match goal with |- context [qmin ?x ?y] => destruct (qmin_cases x y) as [[-> M]|[-> M]] end; lra.
Qed.

Lemma inside_covers v i k x y : inside v i k x y ->
  covers (width (fittedImageSize i v) * k) (width v) x /\ covers (height (fittedImageSize i v) * k) (height v) y.
Proof.
  unfold inside, translationBounds. cbn.
  assert (H : forall w u z, - qmax 0 ((w - u) / 2) <= z <= qmax 0 ((w - u) / 2) -> covers w u z).
  { intros w u z Z. pose proof (half (w - u)). pose proof (half w). pose proof (half u).
    destruct (qmax_cases 0 ((w - u) / 2)) as [[E L]|[E L]]; rewrite E in Z; split; intros G; lra. }
  intros [A B]. split; apply H; assumption.
Qed.

Lemma still_callback v : is_still v = true -> callback v = None.
Proof. by destruct v. Qed.

Lemma still_now v : is_still v = true -> now v = goal v.
Proof. by destruct v. Qed.

Lemma lt_spec a b : lt a b = true <-> a < b.
Proof.
  unfold lt. rewrite negb_true_iff. split; intros H.
  - destruct (Qlt_le_dec a b); [done|]. apply Qle_bool_iff in q. congruence.
  - destruct (Qle_bool b a) eqn:E; [|done]. apply Qle_bool_iff in E. lra.
Qed.

(** The conditions under which the image is kept in view: a pan moves only after it began (the
    gesture handler sees to that), it ends when the scale is not being animated
    ([pan_while_shrinking]) and not with a flick against the drag ([flick_back_loses_image]);
    and the sizes are reported while the image is not moved away ([turned_while_zoomed]). *)
Definition orderly (e : event) (p : Preview) : Prop :=
  let s := surface p in
  match e with
  | PanUpdate _ _ => panning s = true
  | PanEnd vx _ => is_still (scale s) = true /\ 0 <= now (tx s) * vx
  | Layout _ | ImageLoaded _ => goal (tx s) == 0 /\ goal (ty s) == 0
  | _ => True
  end.

Lemma fresh_good n i c v : (0 <= i < n)%Z -> good {| count := n; index := i; closed := c; surface := fresh v |}.
Proof.
  intros H. split; cbn [index count surface]; [done|by cbn| |done|done]. intros _ _. apply within_zero; reflexivity.
Qed.

Lemma change_good d p : good p -> good (onChangeIndex d p).
Proof.
  intros G. pose proof (g_index p G). unfold onChangeIndex.
  destruct (Z.eqb_spec (Z.min (count p - 1) (Z.max 0 (index p + d))) (index p)) as [E|E].
  - rewrite E. by destruct p.
  - apply fresh_good. lia.
Qed.

Lemma close_good p : (0 <= index p < count p)%Z -> good (close p).
Proof.
  intros I. split; cbn [index count surface close]; [done|by cbn| |done|done].
  intros _ _. apply within_zero; reflexivity.
Qed.

Lemma with_surface_index f p : index (with_surface f p) = index p /\ count (with_surface f p) = count p.
Proof. done. Qed.

(** A pan that leaves the image goes where there is another. *)
Lemma pan_end_change gn gp vx vy s c :
  0 <= now (tx s) * vx -> callback (tx (pan_end gn gp vx vy s)) = Some c ->
  callback (tx s) = Some c \/ (c = Change 1%Z /\ gn = true) \/ (c = Change (-1)%Z /\ gp = true).
Proof.
  intros V. unfold pan_end. cbv zeta. destruct (zoomed_in _); [done|]. cbn [tx ty scale starting viewport transform].
  set (x := now (tx s)) in *. set (th := qmax 64 _).
  assert (T : 64 <= th) by (unfold th; destruct (qmax_cases 64 (width (viewport s) * (16 # 100))) as [[-> ?]|[-> ?]]; lra).
  assert (N : lt x (- th) || lt vx (-(750)) = true -> lt th x || lt 750 vx = true -> False).
  { rewrite !orb_true_iff, !lt_spec. intros A B. destruct A, B; nra. }
  destruct (lt (Qabs (now (ty s))) (Qabs x)); cbn [andb orb].
  2: { destruct (lt (qmax 110 _) _ || _); cbn [tx transform]; [auto|discriminate]. }
  destruct (lt x (- th) || lt vx (-(750))), (lt th x || lt 750 vx); try (by destruct N); destruct gn, gp;
    cbn [andb orb]; try destruct (lt (qmax 110 _) _ || _); cbn [tx transform]; auto; try discriminate;
    intros [= <-]; auto.
Qed.

Lemma pan_end_ty gn gp vx vy s c :
  callback (ty (pan_end gn gp vx vy s)) = Some c -> callback (ty s) = Some c \/ c = Close.
Proof.
  unfold pan_end. cbv zeta. destruct (zoomed_in _); [done|]. cbn [tx ty scale starting viewport transform].
  destruct (_ && gn || _); [intros ?; by left|]. destruct (lt _ _ || _); [intros [= <-]; by right|discriminate].
Qed.

Lemma pan_end_within gn gp vx vy s :
  is_still (scale s) = true -> staying (pan_end gn gp vx vy s) -> within (pan_end gn gp vx vy s).
Proof.
  intros St. unfold pan_end. cbv zeta. destruct (zoomed_in _).
  - intros _. unfold within, clamped. cbn [scale tx ty transform starting viewport image goal towards].
    rewrite (still_now _ St). exact (clamped_inside _ _ _ _ _).
  - destruct (_ && gn || _); [intros [H _]; discriminate H|].
    destruct (lt (qmax 110 _) _ || _); [intros [_ H]; discriminate H|].
    intros _. apply within_zero; reflexivity.
Qed.

Lemma pan_end_scale gn gp vx vy s : scale (pan_end gn gp vx vy s) = scale s /\ panning (pan_end gn gp vx vy s) = false.
Proof.
  unfold pan_end. cbv zeta. destruct (zoomed_in _); [done|]. destruct (_ && gn || _); [done|].
  by destruct (lt _ _ || _).
Qed.

Lemma pan_end_good p vx vy :
  good p -> orderly (PanEnd vx vy) p -> good (step (PanEnd vx vy) p).
Proof.
  intros [I S W X Y] [St V]. cbn [step]. set (q := pan_end _ _ _ _).
  destruct (pan_end_scale (canGoNext p) (canGoPrevious p) vx vy (surface p)) as [Es Ep].
  split; cbn [with_surface surface index count].
  - done.
  - unfold q. by rewrite Es.
  - intros _ H. by apply pan_end_within.
  - intros c Hc. apply pan_end_change in Hc as [Hc|[[-> G]|[-> G]]]; [by apply X| | |done].
    + exists 1%Z. unfold canGoNext in G. apply Z.ltb_lt in G. split; [done|]. lia.
    + exists (-1)%Z. unfold canGoPrevious in G. apply Z.ltb_lt in G. split; [done|]. lia.
  - intros c Hc. apply pan_end_ty in Hc as [Hc| ->]; [by apply Y|done].
Qed.

(** The ends of the animations. *)
Lemma arrive_good p (e : event) : e = ArriveX \/ e = ArriveY -> good p -> good (step e p).
Proof.
  intros E G. pose proof G as [I S W X Y]. destruct E as [-> | ->]; cbn [step].
  - destruct (callback (tx (surface p))) as [c|] eqn:C.
    + destruct (X c eq_refl) as (d & -> & B & N). cbn [call]. unfold onChangeIndex. cbn [index count with_surface].
      assert (Z.min (count p - 1) (Z.max 0 (index p + d)) = index p + d)%Z as -> by lia.
      destruct (Z.eqb_spec (index p + d) (index p)); [lia|]. by apply fresh_good.
    + cbn [call]. split; cbn [with_surface index count surface]; [done|done| |done|done].
      intros P [_ T]. exact (W P (conj C T)).
  - destruct (callback (ty (surface p))) as [c|] eqn:C.
    + rewrite (Y c eq_refl). cbn [call]. by apply close_good.
    + cbn [call]. split; cbn [with_surface index count surface]; [done|done| |done|done].
      intros P [T _]. exact (W P (conj T C)).
Qed.

Lemma frame_same q v : goal (frame q v) = goal v /\ callback (frame q v) = callback v.
Proof. by destruct v. Qed.

(** *** What holds whatever happens *)

Record sound (p : Preview) : Prop := {
  s_index : (0 <= index p < count p)%Z;
  s_scale : 1 <= goal (scale (surface p)) <= 4;
}.

Lemma good_sound p : good p -> sound p.
Proof. intros [I S _ _ _]. by split. Qed.

Lemma placed_good p f :
  (0 <= index p < count p)%Z -> 1 <= goal (scale (f (surface p))) <= 4 -> within (f (surface p)) ->
  staying (f (surface p)) -> good (with_surface f p).
Proof.
  intros I S' W' [T1 T2]. split; cbn [with_surface surface index count]; [done|done|done| |].
  - intros c. rewrite T1. discriminate.
  - intros c. rewrite T2. discriminate.
Qed.

Lemma reset_good p : (0 <= index p < count p)%Z -> good (with_surface reset p).
Proof. intros I. apply placed_good; [done|cbn; lra|apply within_zero; reflexivity|done]. Qed.

(** A move of the hand that puts the image into the bounds, wherever it was. *)
Definition recentres (e : event) : bool :=
  match e with
  | PinchUpdate _ _ _ | DoubleTap _ _ | ZoomIn | ZoomOut | ResetZoom | PressClose => true
  | _ => false
  end.

Lemma recentres_good e p : recentres e = true -> sound p -> good (step e p).
Proof.
  intros R [I S]. destruct e; try discriminate R; cbn [step]; [| | | | |by apply close_good].
  - apply placed_good; [done|exact (scale_clamped _)|exact (zoomed_inside _ _ _ _ _ _ _ _)|done].
  - unfold with_surface, double_tap. destruct (lt (105 # 100) _).
    + by apply (reset_good p).
    + apply (placed_good p (λ s, transform (towards IMAGE_VIEWER_DOUBLE_TAP_SCALE (scale s)) (towards _ (tx s)) (towards _ (ty s)) s));
        [done|cbn; unfold IMAGE_VIEWER_DOUBLE_TAP_SCALE; lra|exact (zoomed_inside _ _ _ _ _ _ _ _)|done].
  - apply placed_good; [done|exact (scale_clamped _)|exact (clamped_inside _ _ _ _ _)|done].
  - apply placed_good; [done|exact (scale_clamped _)|exact (clamped_inside _ _ _ _ _)|done].
  - by apply reset_good.
Qed.

Lemma sized_good v i p :
  goal (tx (surface p)) == 0 -> goal (ty (surface p)) == 0 -> good p -> good (with_surface (sized v i) p).
Proof.
  intros X0 Y0 [I S W X Y]. split; cbn [with_surface surface index count sized scale tx ty panning]; try done.
  intros _ _. by apply within_zero.
Qed.

Lemma preview_step_good e p : orderly e p -> good p -> good (step e p).
Proof.
  intros O G. destruct (recentres e) eqn:R; [by apply recentres_good, good_sound|].
  pose proof G as [I S W X Y]. destruct e; try discriminate R; cbn [step]; try (by split).
  - unfold with_surface, pinch_end. destruct (lt _ (104 # 100)); [by apply (reset_good p)|]. by destruct p.
  - cbn in O. unfold pan_update. split; cbn [with_surface surface index count]; try done;
      destruct (zoomed_in (surface p)); cbn; try done; congruence.
  - by apply pan_end_good.
  - by apply change_good.
  - destruct O as [X0 Y0]. by apply (sized_good v (image (surface p))).
  - destruct O as [X0 Y0]. by apply (sized_good (viewport (surface p)) i).
  - destruct (frame_same a (scale (surface p))) as [E1 _], (frame_same b (tx (surface p))) as [E2 C2],
      (frame_same c (ty (surface p))) as [E3 C3].
    split; cbn [with_surface surface index count transform scale tx ty panning]; rewrite ?E1, ?C2, ?C3; try done.
    intros P [T1 T2]. unfold within, staying in *. cbn [transform scale tx ty viewport image] in *.
    rewrite E1, E2, E3. apply W; [done|]. by rewrite <- C2, <- C3.
  - apply (arrive_good p ArriveX); auto.
  - apply (arrive_good p ArriveY); auto.
Qed.

Fixpoint all_orderly (es : list event) (p : Preview) : Prop :=
  match es with [] => True | e :: es => orderly e p /\ all_orderly es (step e p) end.

Lemma preview_run_good es p : all_orderly es p -> good p -> good (run es p).
Proof.
  revert p. induction es as [|e es IH]; [done|]. intros p [O R] G. apply IH; [done|]. by apply preview_step_good.
Qed.

Lemma position_range i l n k : position i l n = Some k -> (n <= k < n + Z.of_nat (length l))%Z.
Proof.
  revert n. induction l as [|x l IH]; [done|]. intros n. cbn [position]. destruct (Z.eqb x i).
  - intros [= <-]. cbn [length]. lia.
  - intros H%IH. cbn [length]. lia.
Qed.

Lemma opened_good ids i : ids <> [] -> good (opened ids i).
Proof.
  intros N. unfold opened. apply fresh_good. assert (0 < Z.of_nat (length ids))%Z by (destruct ids; [done|cbn; lia]).
  destruct i as [i|]; [|lia]. destruct (position i ids 0) as [k|] eqn:E; [|cbn; lia].
  apply position_range in E. cbn. lia.
Qed.

Definition at_rest (p : Preview) : Prop :=
  let s := surface p in
  panning s = false /\ is_still (scale s) = true /\ is_still (tx s) = true /\ is_still (ty s) = true.

Lemma change_sound d p : sound p -> sound (onChangeIndex d p).
Proof.
  intros [I S]. split; unfold onChangeIndex; cbn [index count surface]; [lia|].
  destruct (Z.eqb _ _); [done|]. by cbn.
Qed.

Lemma close_sound p : sound p -> sound (close p).
Proof. intros [I S]. split; [done|by cbn]. Qed.

Lemma call_sound c p : sound p -> sound (call c p).
Proof. intros H. destruct c as [[d|]|]; cbn [call]; [by apply change_sound|by apply close_sound|done]. Qed.

Lemma preview_step_sound e p : sound p -> sound (step e p).
Proof.
  intros H. destruct (recentres e) eqn:R; [by apply good_sound, recentres_good|].
  pose proof H as [I S]. destruct e; try discriminate R; cbn [step]; try (by split).
  - unfold with_surface, pinch_end. destruct (lt _ (104 # 100)); split; cbn; try done; lra.
  - unfold with_surface, pan_update. destruct (zoomed_in (surface p)); by split.
  - split; cbn [with_surface index count surface]; [done|].
    by rewrite (proj1 (pan_end_scale (canGoNext p) (canGoPrevious p) vx vy (surface p))).
  - by apply change_sound.
  - split; cbn [with_surface index count surface transform scale]; [done|]. by destruct (frame_same a (scale (surface p))) as [-> _].
  - by apply call_sound.
  - by apply call_sound.
Qed.

Lemma preview_run_sound es p : sound p -> sound (run es p).
Proof. revert p. induction es as [|e es IH]; [done|]. intros p H. by apply IH, preview_step_sound. Qed.

Lemma step_count e p : count (step e p) = count p.
Proof. destruct e; try done; cbn [step]; by destruct (callback _) as [[]|]. Qed.

Lemma run_count es p : count (run es p) = count p.
Proof. revert p. induction es as [|e es IH]; [done|]. intros p. cbn [run fold_left]. by rewrite IH, step_count. Qed.

(** The history began with the preview, or with a move that recentres. *)
Definition recentred (es : list event) : Prop := forall e, last es = Some e -> recentres e = true.

Lemma recentred_good es ids i : ids <> [] -> recentred es -> good (run es (opened ids i)).
Proof.
  intros N R. destruct es as [|e es _] using rev_ind; [by apply opened_good|].
  unfold run. rewrite fold_left_app. cbn [fold_left]. apply recentres_good.
  - apply R. apply last_snoc.
  - by apply preview_run_sound, good_sound, opened_good.
Qed.

(** C40: whatever is pinched, panned, tapped, leafed through and laid out, in any order, the
    index is that of one of the images, and the scale it rests at or is animated to is between
    one and four. The place of the image is right under the conditions of [orderly]: when since
    the preview was opened, or since the last pinch move, double tap, press on a zoom or reset
    button or closing (whatever happened before that), no pan ended while the scale was being
    animated or with a flick against the drag, and no size was reported while the image was
    moved away, then once everything has come to rest the image covers the screen in each
    direction, or is in the middle of it where it is smaller. *)
Theorem preview_at_rest_in_view (ids : list Z) (initial : option Z) (es1 es2 : list event) :
  ids <> [] ->
  let p1 := run es1 (opened ids initial) in let p := run es2 p1 in let s := surface p in
  (0 <= index p < Z.of_nat (length ids))%Z
  /\ 1 <= goal (scale s) <= 4
  /\ (recentred es1 -> all_orderly es2 p1 -> at_rest p ->
      covers (width (fittedImageSize (image s) (viewport s)) * now (scale s)) (width (viewport s)) (now (tx s))
      /\ covers (height (fittedImageSize (image s) (viewport s)) * now (scale s)) (height (viewport s)) (now (ty s))).
Proof.
  intros N p1 p s. assert (C : count p = Z.of_nat (length ids)) by (unfold p, p1; by rewrite !run_count).
  assert (H : sound p) by (by apply preview_run_sound, preview_run_sound, good_sound, opened_good).
  rewrite <- C. split; [apply H|]. split; [apply H|]. intros R O (P & Z1 & Z2 & Z3).
  pose proof (preview_run_good es2 p1 O (recentred_good es1 ids initial N R)) as G.
  rewrite !still_now by done. apply inside_covers, (g_within p G); [done|].
  split; by apply still_callback.
Qed.

(** *** Examples *)

Definition screen : Size := {| width := 400; height := 800 |}.
Definition loaded : list event := [Layout screen; ImageLoaded {| width := 800; height := 1600 |}].

(** The image of [flick_back_loses_image] is brought back by a double tap, and panned to its edge. *)
Definition lost : list event := loaded ++ [PanStart; PanUpdate (-(100)) 0; PanEnd 800 0; ArriveX; DoubleTap 10 10].
Definition panned : list event := [ArriveScale; ArriveX; ArriveY; PanStart; PanUpdate (-(2000)) 0; PanEnd 0 0; ArriveX; ArriveY].

Lemma preview_at_rest_in_view_witness :
  let p := run panned (run lost (opened [5; 6]%Z (Some 6%Z))) in let s := surface p in
  at_rest p /\ index p = 1%Z /\ ~ now (tx s) == 0
  /\ covers (width (fittedImageSize (image s) (viewport s)) * now (scale s)) (width (viewport s)) (now (tx s)).
Proof.
  assert (R : recentred lost) by (intros e [= <-]; reflexivity).
  assert (O : all_orderly panned (run lost (opened [5; 6]%Z (Some 6%Z)))).
  { vm_compute. repeat split; try discriminate. }
  assert (T : at_rest (run panned (run lost (opened [5; 6]%Z (Some 6%Z))))) by (vm_compute; repeat split).
  destruct (preview_at_rest_in_view [5; 6]%Z (Some 6%Z) lost panned ltac:(discriminate)) as (_ & _ & H).
  split; [exact T|]. split; [vm_compute; reflexivity|]. split; [vm_compute; discriminate|]. exact (proj1 (H R O T)).
Defined.

(** A pan that ends while the image is still shrinking is limited by the scale of that moment:
    the image comes to rest at its own size, but not in the middle. *)
Lemma pan_while_shrinking :
  let s := surface (run (loaded ++ [DoubleTap 10 10; ArriveScale; ArriveX; ArriveY; DoubleTap 10 10; Frame 2 0 0;
                                    PanStart; PanUpdate 100 0; PanEnd 0 0; ArriveScale; ArriveX; ArriveY]) (opened [5]%Z None)) in
  now (scale s) = 1 /\ now (tx s) == 100.
Proof. split; vm_compute; reflexivity. Qed.

(** Turning the device does not move a zoomed image back. *)
Lemma turned_while_zoomed :
  let p := run (loaded ++ [DoubleTap 10 10; ArriveScale; ArriveX; ArriveY; Layout {| width := 800; height := 400 |}])
             (opened [5]%Z None) in let s := surface p in
  at_rest p /\ (translationBounds (image s) (viewport s) (now (scale s))).1 == 0 /\ now (tx s) == 285.
Proof. vm_compute. repeat split. Qed.

(** A flick back over the last image counts as going on: the image is taken off the screen and
    no other is shown. *)
Lemma flick_back_loses_image :
  let p := run (loaded ++ [PanStart; PanUpdate (-(100)) 0; PanEnd 800 0; ArriveX]) (opened [5; 6]%Z (Some 6%Z)) in
  index p = 1%Z /\ closed p = false /\ now (scale (surface p)) = 1 /\ now (tx (surface p)) == -(400).
Proof. vm_compute. repeat split. Qed.
