(* ===== verification/MessagesView.v ===== *)
(** * The view of the messages page (web)

    What [web/src/pages/shared/Messages.tsx] keeps besides its messages ([WebMessages]): where
    the conversation is scrolled to, the polling of the conversation, the search, and the
    images that are shown large. *)

From S2P Require Import Prelude.
From S2P Require Import Json.
From S2P Require Import Storage.

(** ** Scrolling

    The element and its position are in pixels. The layout effect runs when the conversation
    or the number of its messages changes; it asks for two frames, and [Frame] is the second.
    [Browser] is the browser moving the element, by the user or by a smooth scroll, or because
    its content changed. The list of pinned messages is not opened. *)

Module Scroll.

Record Element := { scrollHeight : Z; clientHeight : Z; scrollTop : Z }.

Definition bottom (e : Element) : Z := Z.max 0 (scrollHeight e - clientHeight e).
Definition distance (e : Element) : Z := Z.max 0 (scrollHeight e - scrollTop e - clientHeight e).
Definition near (e : Element) : bool := scrollHeight e - scrollTop e - clientHeight e <? 96.

(** The browser keeps the position between the ends of the content. *)
Definition at_top (t : Z) (e : Element) : Element :=
  {| scrollHeight := scrollHeight e; clientHeight := clientHeight e; scrollTop := Z.max 0 (Z.min t (bottom e)) |}.

Record Target := { kind : Kind; tid : Z }.

#[export] Instance Target_eq_dec : EqDecision Target.
Proof. solve_decision. Defined.

Definition key (t : Target) : str := targetKey (kind t) (tid t).

(** What the layout effect saw: whether to restore, whether the conversation is another one. *)
Record Frames := { f_target : Target; f_restoring : bool; f_changed : bool }.

Record View := {
  target : option Target;                      (* [selectedTarget] *)
  el : Element;
  session : Store;
  stick : bool;                                (* [shouldStickToBottomRef] *)
  showScrollToLatest : bool; hasUnreadBelow : bool;
  restore : option str;                        (* [pendingScrollRestoreTargetKeyRef] *)
  lastKey : str;                               (* [lastAutoScrollTargetKeyRef] *)
  until : Z;                                   (* [programmaticScrollUntilRef] *)
  timer : option bool;                         (* the timer, and whether it saves *)
  persist : option Target;                     (* [scrollPersistFrameRef], for this target *)
  frames : option Frames;
  messages : nat;                              (* [messages.length] *)
}.

Definition set_target (t : option Target) (v : View) : View :=
  {| target := t; el := el v; session := session v; stick := stick v; showScrollToLatest := showScrollToLatest v;
     hasUnreadBelow := hasUnreadBelow v; restore := restore v; lastKey := lastKey v; until := until v;
     timer := timer v; persist := persist v; frames := frames v; messages := messages v |}.
Definition set_el (e : Element) (v : View) : View :=
  {| target := target v; el := e; session := session v; stick := stick v; showScrollToLatest := showScrollToLatest v;
     hasUnreadBelow := hasUnreadBelow v; restore := restore v; lastKey := lastKey v; until := until v;
     timer := timer v; persist := persist v; frames := frames v; messages := messages v |}.
Definition set_session (st : Store) (v : View) : View :=
  {| target := target v; el := el v; session := st; stick := stick v; showScrollToLatest := showScrollToLatest v;
     hasUnreadBelow := hasUnreadBelow v; restore := restore v; lastKey := lastKey v; until := until v;
     timer := timer v; persist := persist v; frames := frames v; messages := messages v |}.
Definition set_shown (b sh un : bool) (v : View) : View :=
  {| target := target v; el := el v; session := session v; stick := b; showScrollToLatest := sh;
     hasUnreadBelow := un; restore := restore v; lastKey := lastKey v; until := until v;
     timer := timer v; persist := persist v; frames := frames v; messages := messages v |}.
Definition set_restore (r : option str) (v : View) : View :=
  {| target := target v; el := el v; session := session v; stick := stick v; showScrollToLatest := showScrollToLatest v;
     hasUnreadBelow := hasUnreadBelow v; restore := r; lastKey := lastKey v; until := until v;
     timer := timer v; persist := persist v; frames := frames v; messages := messages v |}.
Definition set_timer (u : Z) (t : option bool) (v : View) : View :=
  {| target := target v; el := el v; session := session v; stick := stick v; showScrollToLatest := showScrollToLatest v;
     hasUnreadBelow := hasUnreadBelow v; restore := restore v; lastKey := lastKey v; until := u;
     timer := t; persist := persist v; frames := frames v; messages := messages v |}.
Definition set_persist (p : option Target) (v : View) : View :=
  {| target := target v; el := el v; session := session v; stick := stick v; showScrollToLatest := showScrollToLatest v;
     hasUnreadBelow := hasUnreadBelow v; restore := restore v; lastKey := lastKey v; until := until v;
     timer := timer v; persist := p; frames := frames v; messages := messages v |}.
Definition set_frames (k : str) (f : option Frames) (v : View) : View :=
  {| target := target v; el := el v; session := session v; stick := stick v; showScrollToLatest := showScrollToLatest v;
     hasUnreadBelow := hasUnreadBelow v; restore := restore v; lastKey := k; until := until v;
     timer := timer v; persist := persist v; frames := f; messages := messages v |}.

Definition set_messages (n : nat) (v : View) : View :=
  {| target := target v; el := el v; session := session v; stick := stick v; showScrollToLatest := showScrollToLatest v;
     hasUnreadBelow := hasUnreadBelow v; restore := restore v; lastKey := lastKey v; until := until v;
     timer := timer v; persist := persist v; frames := frames v; messages := n |}.

Section User.
Context (user : option Z).

Definition save (t : Target) (v : View) : View :=
  set_session (saveConversationScroll user (kind t) (tid t) (scrollHeight (el v)) (scrollTop (el v))
                 (clientHeight (el v)) (session v)) v.
Definition saved (t : Target) (v : View) : option SavedScroll :=
  readSavedConversationScroll user (kind t) (tid t) (session v).
Definition save_current (v : View) : View := match target v with Some t => save t v | None => v end.

(** *** Loading *)

(** The part of [loadTarget] about scrolling; [around] is a message to show, and nothing is
    done in the background. *)
Definition load_begin (t : Target) (around : bool) (v : View) : View :=
  let at_end := match saved t v with Some s => atBottom s | None => true end in
  set_restore (if around then None else Some (key t)) (set_shown (negb around && at_end) false false v).

(** *** The layout effect and its frames *)

Definition layout (v : View) : View :=
  match target v with
  | None => v
  | Some t =>
      set_frames (key t)
        (Some {| f_target := t; f_restoring := bool_decide (restore v = Some (key t));
                 f_changed := negb (eqs (lastKey v) (key t)) |}) v
  end.

(** [selectTarget]: another conversation is drawn, with the messages of the last one, and the
    effect on the selected target then loads it; the conversation that is shown is only loaded. *)
Definition selectTarget (t : Target) (around : bool) (v : View) : View :=
  let v := save_current v in
  let v := set_shown (negb around) (showScrollToLatest v) (hasUnreadBelow v) v in
  if bool_decide (target v = Some t) then load_begin t around v
  else load_begin t around (layout (set_target (Some t) v)).

(** [setMessages], with what is drawn then. *)
Definition draw (n : nat) (h c : Z) (v : View) : View :=
  let w := set_messages n (set_el (at_top (scrollTop (el v)) {| scrollHeight := h; clientHeight := c; scrollTop := 0 |}) v) in
  if bool_decide (n = messages v) then w else layout w.

(** [element.scrollTo({ top: element.scrollHeight, behavior })]: an immediate scroll is done
    at once, a smooth one by the events of the browser. *)
Definition go_down (smooth : bool) (v : View) : View :=
  if smooth then v else set_el (at_top (scrollHeight (el v)) (el v)) v.

Definition frame (now : Z) (v : View) : View :=
  match frames v with
  | None => v
  | Some f =>
      let v := set_frames (lastKey v) None v in
      let follow v :=
        if stick v then
          let smooth := negb (f_changed f) in
          set_timer (now + (if smooth then 600 else 80)) (Some false)
            (set_shown true false (hasUnreadBelow v) (go_down smooth v))
        else v in
      if f_restoring f then
        let v := set_restore None v in
        match saved (f_target f) v with
        | Some s =>
            if atBottom s then follow v
            else set_shown false true (hasUnreadBelow v)
                   (set_el (at_top (Z.max 0 (scrollHeight (el v) - clientHeight (el v) - distanceFromBottom s)) (el v)) v)
        | None => follow v
        end
      else follow v
  end.

(** *** The user *)

Definition scrollToBottom (smooth : bool) (now : Z) (v : View) : View :=
  set_timer (now + (if smooth then 600 else 80)) (Some true)
    (go_down smooth (set_shown true false (hasUnreadBelow v) v)).

Definition scrollToLatestMessage (now : Z) (v : View) : View :=
  scrollToBottom true now (set_shown (stick v) (showScrollToLatest v) false v).

Definition timer_fires (v : View) : View :=
  match timer v with
  | None => v
  | Some saves => let v := set_timer 0 None v in if saves then save_current v else v
  end.

Definition handleConversationScroll (now : Z) (v : View) : View :=
  let nearBottom := near (el v) in
  if stick v && (now <? until v) && negb nearBottom then v
  else
    let v := set_shown (stick v) (negb nearBottom) (hasUnreadBelow v) v in
    let v := match target v, persist v with Some t, None => set_persist (Some t) v | _, _ => v end in
    if nearBottom then set_shown true (showScrollToLatest v) false v
    else set_shown false (showScrollToLatest v) (hasUnreadBelow v) v.

Definition persist_frame (v : View) : View :=
  match persist v with Some t => set_persist None (save t v) | None => v end.

(** A message of another person arrives in this conversation, and is read at once or not; [h] is
    the height with it. *)
Definition incoming (read : bool) (now h : Z) (v : View) : View :=
  let v := if stick v && (now <? until v) then v
           else set_shown (read || near (el v)) (showScrollToLatest v) (hasUnreadBelow v) v in
  let v := if stick v then v else set_shown false (showScrollToLatest v) true v in
  draw (S (messages v)) h (clientHeight (el v)) v.

Inductive event :=
| Select (t : Target) (around : bool)
| Loaded (n : nat) (h c : Z)                   (* the messages of the conversation are there *)
| Content (h c : Z)                            (* an image is there, or the window changed size *)
| Frame (now : Z)
| Browser (top : Z) (now : Z)                  (* the element moved, and the handler runs *)
| PersistFrame | TimerFires | ToLatest (now : Z) | Incoming (read : bool) (now h : Z) | PageHide.

Definition step (e : event) (v : View) : View :=
  match e with
  | Select t around => selectTarget t around v
  | Loaded n h c => draw n h c v
  | Content h c => draw (messages v) h c v
  | Frame now => frame now v
  | Browser top now => handleConversationScroll now (set_el (at_top top (el v)) v)
  | PersistFrame => persist_frame v
  | TimerFires => timer_fires v
  | ToLatest now => scrollToLatestMessage now v
  | Incoming read now h => incoming read now h v
  | PageHide => save_current v
  end.

Definition run (es : list event) (v : View) : View := fold_left (λ v e, step e v) es v.

(** *** Where a conversation was left *)

Lemma scroll_key_inj u s t :
  scrollStorageKey u (kind s) (tid s) = scrollStorageKey u (kind t) (tid t) → s = t.
Proof.
  unfold scrollStorageKey, targetKey. intros E. apply app_inv_head in E. apply app_inv_head in E.
  destruct s as [[] i], t as [[] j]; cbn in E; injection E as E; try done; by apply str_of_Z_inj in E as ->.
Qed.

Lemma saved_other u s t (v : View) :
  user = Some u → s ≠ t → saved t (save s v) = saved t v.
Proof.
  intros U N. unfold saved, save, saveConversationScroll, readSavedConversationScroll. cbn [session set_session].
  rewrite U. destruct (u =? 0); [done|]. rewrite lookup_insert_ne; [reflexivity|]. intros E%scroll_key_inj. done.
Qed.

Lemma key_inj s t : key s = key t → s = t.
Proof. intros E. apply (scroll_key_inj 0). unfold key in E. unfold scrollStorageKey. by rewrite E. Qed.

(** Nothing is under way that would note or restore a position of [t]. *)
Definition idle (t : Target) (v : View) : Prop := persist v ≠ Some t ∧ restore v ≠ Some (key t).
Definition away (t : Target) (v : View) : Prop := target v ≠ Some t ∧ idle t v.

Definition not_selecting (t : Target) (e : event) : bool :=
  match e with Select s _ => negb (bool_decide (s = t)) | _ => true end.

Lemma save_current_same v : let w := save_current v in
  target w = target v ∧ persist w = persist v ∧ restore w = restore v ∧ messages w = messages v.
Proof. unfold save_current. by destruct (target v) eqn:T; cbn. Qed.

Lemma save_current_away u t v : user = Some u → target v ≠ Some t → saved t (save_current v) = saved t v.
Proof.
  intros U A. unfold save_current. destruct (target v) as [s|] eqn:T; [|done].
  apply (saved_other u s t v U). congruence.
Qed.

(** The effect and its frames leave what is noted and what is shown alone. *)
Lemma layout_same v : let w := layout v in
  target w = target v ∧ persist w = persist v ∧ restore w = restore v ∧ session w = session v
  ∧ stick w = stick v ∧ messages w = messages v.
Proof. unfold layout. by destruct (target v) eqn:T; cbn. Qed.

Lemma draw_same n h c v : let w := draw n h c v in
  target w = target v ∧ persist w = persist v ∧ restore w = restore v ∧ session w = session v
  ∧ stick w = stick v ∧ messages w = n.
Proof.
  unfold draw. cbv zeta. destruct (bool_decide _); [done|].
  match goal with |- context [layout ?w] => exact (layout_same w) end.
Qed.

Lemma frames_same now v : let w := frame now v in
  target w = target v ∧ persist w = persist v ∧ session w = session v ∧ messages w = messages v
  ∧ (restore w = restore v ∨ restore w = None).
Proof.
  unfold frame, go_down. destruct (frames v) as [[ft fr fc]|]; [|cbn; auto 10]. cbn [f_restoring f_target f_changed].
  destruct fr; [destruct (saved ft _) as [[db ab]|]; [destruct ab|]|]; cbn; auto 10; destruct (stick v), fc; cbn; auto 10.
Qed.

Lemma saved_session t v w : session v = session w → saved t v = saved t w.
Proof. unfold saved. by intros ->. Qed.

Lemma idle_same t v w : persist w = persist v → restore w = restore v ∨ restore w = None → idle t v → idle t w.
Proof. unfold idle. intros -> [-> | ->]; naive_solver. Qed.

Lemma away_same t v w :
  target w = target v → persist w = persist v → restore w = restore v ∨ restore w = None →
  session w = session v → away t v → away t w ∧ saved t w = saved t v.
Proof.
  intros T P R S [A I]. split; [|by apply saved_session]. split; [congruence|]. by apply (idle_same t v).
Qed.

Lemma step_away u t e v :
  user = Some u → not_selecting t e = true → away t v → away t (step e v) ∧ saved t (step e v) = saved t v.
Proof.
  intros U N A. pose proof (save_current_away u t v U (proj1 A)) as SC.
  destruct (save_current_same v) as (T1 & P1 & R1 & M1).
  assert (D : ∀ n h c w, away t w ∧ saved t w = saved t v → away t (draw n h c w) ∧ saved t (draw n h c w) = saved t v).
  { intros n h c w [W <-]. destruct (draw_same n h c w) as (? & ? & ? & ? & _). apply away_same; auto. }
  destruct e as [s a|n h c|h c|now|top now| | |now|r now h| ]; cbn [step].
  - cbn in N. apply negb_true_iff, bool_decide_eq_false_1 in N. destruct A as [A [I1 I2]]. unfold selectTarget.
    assert (K : (if a then None else Some (key s)) ≠ Some (key t)).
    { destruct a; [done|]. intros [= E%key_inj]. done. }
    destruct (bool_decide _) eqn:B.
    { apply bool_decide_eq_true_1 in B. change (target (save_current v) = Some s) in B.
      split; [|exact SC]. split; [cbn; congruence|]. split; cbn; [congruence|exact K]. }
    set (w := set_target _ _). destruct (layout_same w) as (LT & LP & LR & LS & _).
    split; [|rewrite <- SC; by apply saved_session].
    split; [change (target (layout w) ≠ Some t); rewrite LT; cbn; congruence|].
    split; [change (persist (layout w) ≠ Some t); rewrite LP; cbn; congruence|exact K].
  - by apply D.
  - by apply D.
  - destruct (frames_same now v) as (FT & FP & FS & _ & FR). by apply away_same.
  - unfold handleConversationScroll. destruct (_ && _ && _); [by split|]. destruct A as (A1 & A2 & A3).
    cbn [target persist set_shown set_el]. destruct (target v) as [s|] eqn:T, (persist v) eqn:P;
      destruct (near _); split; try done; split; try (cbn; congruence); split; cbn; congruence.
  - unfold persist_frame. destruct (persist v) as [s|] eqn:P; [|by split]. destruct A as (A1 & A2 & A3).
    split; [done|]. apply (saved_other u s t v U). congruence.
  - unfold timer_fires. destruct (timer v) as [b|]; [|by split]. destruct b; [|by split].
    destruct (save_current_same (set_timer 0 None v)) as (T2 & P2 & R2 & _).
    split; [|exact (save_current_away u t (set_timer 0 None v) U (proj1 A))].
    destruct A as [A I]. split; [by rewrite T2|]. apply (idle_same t v); auto.
  - by split.
  - unfold incoming. apply D. destruct (_ && _); cbn; [destruct (stick v); by split|]. destruct (r || _); by split.
  - split; [|done]. destruct A as [A I]. split; [by rewrite T1|]. apply (idle_same t v); auto.
Qed.

Lemma run_away u t es v :
  user = Some u → forallb (not_selecting t) es = true → away t v → away t (run es v) ∧ saved t (run es v) = saved t v.
Proof.
  intros U. revert v. induction es as [|e es IH]; [done|]. intros v N A. cbn in N. apply andb_true_iff in N as [N1 N2].
  destruct (step_away u t e v U N1 A) as [A' E]. destruct (IH (step e v) N2 A') as [A'' E']. split; [done|].
  unfold run in *. cbn [fold_left]. by rewrite E'.
Qed.

Lemma saved_save u t v :
  user = Some u → u ≠ 0 →
  saved t (save t v) = Some {| distanceFromBottom := distance (el v); atBottom := distance (el v) <? 96 |}.
Proof.
  intros U N. unfold saved, save, saveConversationScroll, readSavedConversationScroll. cbn [session set_session].
  rewrite U. destruct (Z.eqb_spec u 0); [done|]. rewrite lookup_insert_eq.
  set (j := JObj _). assert (E : ∃ c r, print j = c :: r) by (by eexists _, _). destruct E as (c & r & E).
  rewrite E, <- E, parse_print. unfold distance.
  set (d := Z.max 0 (_ - _ - _)) in *. change (Some {| distanceFromBottom := Z.max 0 d; atBottom := d <? 96 |} =
    Some {| distanceFromBottom := d; atBottom := d <? 96 |}). do 2 f_equal. lia.
Qed.

Lemma at_top_distance e d :
  0 <= d →
  let e' := at_top (Z.max 0 (scrollHeight e - clientHeight e - d)) e in distance e' = Z.min d (bottom e').
Proof.
  intros D e'. unfold e', distance, at_top, bottom. cbn [scrollHeight clientHeight scrollTop]. lia.
Qed.

(** *** Coming back *)

(** [t] is selected and waits for its messages, having been left at [d]. *)
Record coming (t : Target) (d : Z) (n : nat) (v : View) : Prop := {
  cm_target : target v = Some t;
  cm_restore : restore v = Some (key t);
  cm_stick : stick v = (d <? 96);
  cm_persist : persist v ≠ Some t;
  cm_saved : saved t v = Some {| distanceFromBottom := d; atBottom := d <? 96 |};
  cm_frames : match frames v with Some f => f_restoring f = false | None => True end;
  cm_messages : messages v = n;
}.

(** Frames, and what changes the size of what is drawn. *)
Definition waiting (e : event) : bool :=
  match e with Frame _ | Content _ _ | PersistFrame => true | _ => false end.

Lemma selected_coming t d v :
  away t v → saved t (save_current v) = Some {| distanceFromBottom := d; atBottom := d <? 96 |} →
  coming t d (messages v) (step (Select t false) v).
Proof.
  intros (A & P & R) S. destruct (save_current_same v) as (T1 & P1 & R1 & M1).
  cbn [step]. unfold selectTarget. rewrite bool_decide_eq_false_2 by (cbn; congruence).
  set (w := set_target _ _). destruct (layout_same w) as (LT & LP & LR & LS & _ & LM).
  assert (S' : saved t (layout w) = Some {| distanceFromBottom := d; atBottom := d <? 96 |}).
  { rewrite <- S. by apply saved_session. }
  unfold load_begin. rewrite S'. split.
  - exact LT.
  - reflexivity.
  - reflexivity.
  - intros X. apply P. rewrite <- P1. exact (eq_trans (eq_sym LP) X).
  - exact S'.
  - cbn. apply bool_decide_eq_false_2. congruence.
  - exact (eq_trans LM M1).
Qed.

Lemma waiting_coming u t d n e v :
  user = Some u → waiting e = true → coming t d n v → coming t d n (step e v).
Proof.
  intros U W [T R K P S F M]. destruct e as [| |h c|now| | | | | | ]; try discriminate; cbn [step].
  - unfold draw. cbv zeta. rewrite bool_decide_eq_true_2 by done. by split.
  - unfold frame. destruct (frames v) as [f|] eqn:E; [|split; try done; by rewrite E]. rewrite F.
    cbn [stick set_frames]. destruct (stick v) eqn:X; [|split; solve [exact S | exact I | cbn; congruence]].
    unfold go_down. destruct (negb _); split; solve [exact S | exact I | cbn; congruence].
  - unfold persist_frame. destruct (persist v) as [s|] eqn:E; [|split; try done; by rewrite E].
    split; try done. rewrite <- S. apply (saved_other u s t v U). congruence.
Qed.

Lemma run_coming u t d n es v :
  user = Some u → forallb waiting es = true → coming t d n v → coming t d n (run es v).
Proof.
  intros U. revert v. induction es as [|e es IH]; [done|]. intros v W C. cbn in W. apply andb_true_iff in W as [W1 W2].
  unfold run in *. cbn [fold_left]. apply IH; [done|]. by apply (waiting_coming u).
Qed.

Lemma loaded_restored t d n m h c now v :
  0 <= d → coming t d n v → m ≠ n →
  let w := run [Loaded m h c; Frame now] v in
  target w = Some t
  ∧ (96 <= d → distance (el w) = Z.min d (bottom (el w)) ∧ showScrollToLatest w = true ∧ stick w = false)
  ∧ (d < 96 → stick w = true ∧ showScrollToLatest w = false).
Proof.
  intros D0 [T R K P S F M] N. unfold run. cbn [fold_left step]. unfold draw. cbv zeta.
  rewrite bool_decide_eq_false_2 by congruence. unfold layout. cbn [target set_messages set_el]. rewrite T.
  cbn [restore set_messages set_el]. rewrite R, bool_decide_eq_true_2 by done.
  unfold frame. cbn [frames set_frames f_restoring f_target f_changed]. set (v5 := set_restore None _).
  assert (S5 : saved t v5 = Some {| distanceFromBottom := d; atBottom := d <? 96 |}) by exact S.
  rewrite S5. cbn [atBottom distanceFromBottom].
  destruct (Z.ltb_spec d 96) as [D|D].
  - assert (K5 : stick v5 = true) by exact K. rewrite K5.
    unfold go_down. destruct (negb (negb _)); (split; [exact T|]; split; [intros G; exfalso; clear -G D; lia|done]).
  - split; [exact T|]. split; [|intros G; exfalso; clear -G D; lia]. intros _. split; [|done].
    apply (at_top_distance (el v5)). done.
Qed.

(** C19: a conversation is found where it was left. For a signed-in user, with no frame
    pending that would note its position: when another conversation is selected, whatever is
    then done in others (scrolling, timers, frames, messages, other selections) leaves the
    position noted for the first, which is its distance from the end. Selecting it again brings
    that position back once its messages are drawn (as far as there are that many messages),
    and a conversation that was left within 96 pixels of its end follows the end again,
    provided that the number of its messages is not that of the conversation shown before, and
    that until its messages are drawn and the frame after them only frames and changes of size
    happen: no scrolling, no timer of a scroll to the end and no incoming message. *)
Theorem scroll_position_restored (u : Z) (t s : Target) (around : bool) (v : View) (es : list event) :
  user = Some u → u ≠ 0 → target v = Some t → persist v = None → s ≠ t →
  forallb (not_selecting t) es = true →
  let d := distance (el v) in
  let away_ := run (Select s around :: es) v in
  saved t away_ = Some {| distanceFromBottom := d; atBottom := d <? 96 |}
  ∧ ∀ (n : nat) (h c now : Z) (mid : list event),
      n ≠ messages away_ → forallb waiting mid = true →
      let w := run (Select t false :: mid ++ [Loaded n h c; Frame now]) away_ in
      target w = Some t
      ∧ (96 <= d → distance (el w) = Z.min d (bottom (el w)) ∧ showScrollToLatest w = true ∧ stick w = false)
      ∧ (d < 96 → stick w = true ∧ showScrollToLatest w = false).
Proof.
  intros U U0 T P N F d away_.
  set (v1 := step (Select s around) v).
  assert (SC : saved t (save_current v) = Some {| distanceFromBottom := d; atBottom := d <? 96 |}).
  { unfold save_current. rewrite T. apply (saved_save u t v U U0). }
  assert (A1 : away t v1 ∧ saved t v1 = saved t (save_current v)).
  { destruct (save_current_same v) as (T1 & P1 & R1 & _). unfold v1. cbn [step]. unfold selectTarget.
    rewrite bool_decide_eq_false_2 by (cbn; congruence). set (x := set_target _ _).
    destruct (layout_same x) as (LT & LP & _ & LS & _). split; [|by apply saved_session].
    split; [change (target (layout x) ≠ Some t); rewrite LT; cbn; congruence|].
    split; [change (persist (layout x) ≠ Some t); rewrite LP; cbn; congruence|].
    cbn. destruct around; [done|]. intros [= E%key_inj]. done. }
  destruct A1 as [A1 S1]. destruct (run_away u t es v1 U F A1) as [A2 S2].
  assert (E2 : away_ = run es v1) by done. clearbody away_. subst away_. set (v2 := run es v1) in *.
  assert (S3 : saved t v2 = Some {| distanceFromBottom := d; atBottom := d <? 96 |}) by congruence.
  split; [done|]. intros n h c now mid M G w.
  assert (C : coming t d (messages v2) (run mid (step (Select t false) v2))).
  { apply (run_coming u); [done|done|]. apply selected_coming; [done|].
    by rewrite (save_current_away u t v2 U (proj1 A2)). }
  assert (E : w = run [Loaded n h c; Frame now] (run mid (step (Select t false) v2))).
  { unfold w, run. cbn [fold_left]. by rewrite fold_left_app. }
  rewrite E. apply (loaded_restored t d (messages v2)); [unfold d, distance; lia|done|done].
Qed.

End User.

(** *** Examples *)

Definition general : Target := {| kind := channel; tid := 1 |}.
Definition random : Target := {| kind := channel; tid := 2 |}.

Definition shown (t : Target) (n : nat) (h top : Z) : View :=
  {| target := Some t; el := {| scrollHeight := h; clientHeight := 500; scrollTop := top |}; session := ∅;
     stick := false; showScrollToLatest := true; hasUnreadBelow := false; restore := None; lastKey := key t;
     until := 0; timer := None; persist := None; frames := None; messages := n |}.

Lemma scroll_position_restored_witness :
  distance (el (run (Some 9) (Select general false :: [Frame 150] ++ [Loaded 20 2000 500; Frame 200])
    (run (Some 9) (Select random false :: [Loaded 7 700 500; Frame 0; Browser 0 100; PersistFrame])
       (shown general 20 2000 1000)))) = 500.
Proof.
  destruct (scroll_position_restored (Some 9) 9 general random false (shown general 20 2000 1000)
    [Loaded 7 700 500; Frame 0; Browser 0 100; PersistFrame] eq_refl ltac:(discriminate) eq_refl eq_refl
    ltac:(discriminate) eq_refl) as [_ W].
  destruct (W 20%nat 2000 500 200 [Frame 150] ltac:(vm_compute; discriminate) eq_refl) as (_ & H & _).
  refine (eq_trans (proj1 (H _)) _); vm_compute; [discriminate|reflexivity].
Defined.

(** With as many messages as the conversation before, the layout effect does not run again when
    they arrive: the position is not brought back, until the next message arrives. *)
Lemma same_number_not_restored :
  let back := run (Some 9) [Select random false; Loaded 50 3000 500; Frame 0; Select general false; Frame 10;
                            Loaded 50 2000 500; Frame 20] (shown general 50 2000 1000) in
  let later := run (Some 9) [Incoming false 9000 2040; Frame 9020] back in
  saved (Some 9) general back = Some {| distanceFromBottom := 500; atBottom := false |}
  ∧ distance (el back) = 0 ∧ distance (el later) = 500.
Proof. by vm_compute. Qed.

(** When the messages that arrive are fewer than the position of the conversation before, the
    browser moves the element before the two frames; the handler notes that position for the
    new conversation, and it is restored instead of the one that was left. *)
Lemma restored_position_overwritten :
  let left := run (Some 9) [Select random false] (shown general 20 2000 0) in
  let back := run (Some 9) [Loaded 90 9000 500; Browser 8400 0; PersistFrame; Select general false;
                            Loaded 20 2000 500; Browser 1500 10; PersistFrame; Frame 20] left in
  saved (Some 9) general left = Some {| distanceFromBottom := 1500; atBottom := false |}
  ∧ distance (el back) = 0.
Proof. by vm_compute. Qed.

(** The timer of a scroll to the end notes the position for the conversation selected by then. *)
Lemma late_timer_notes_other_conversation :
  let left := run (Some 9) [Select random false; Loaded 90 9000 500; Frame 0] (shown general 20 2000 0) in
  let v := run (Some 9) [ToLatest 100; Browser 8500 200; Select general false; TimerFires] left in
  target v = Some general ∧ saved (Some 9) general left = Some {| distanceFromBottom := 1500; atBottom := false |}
  ∧ saved (Some 9) general v = Some {| distanceFromBottom := 0; atBottom := true |}.
Proof. by vm_compute. Qed.

(** A frame that was asked for in one conversation notes for it what is shown by then. *)
Lemma late_frame_notes_other_conversation :
  let v := run (Some 9) [Browser 700 0; Select random false; Loaded 6 600 500; PersistFrame] (shown general 20 2000 0) in
  target v = Some random ∧ saved (Some 9) general v = Some {| distanceFromBottom := 0; atBottom := true |}.
Proof. by vm_compute. Qed.

End Scroll.

(** ** Polling

    [web/src/lib/backgroundActivity.ts] and the effect that keeps the conversation fresh while
    the realtime connection is not there. *)

Module Polling.

Inductive Status := connected | disconnected | error.

#[export] Instance Status_eq_dec : EqDecision Status.
Proof. solve_decision. Defined.

Definition isVisiblePage (visible : bool) : bool := visible.
Definition shouldPollMessages (visible : bool) (s : Status) : bool :=
  isVisiblePage visible && negb (bool_decide (s = connected)).

(** [hidden_requests] counts the requests sent while the page is hidden. *)
Record Poll := {
  visible : bool; status : Status; interval : bool; loadingTarget : bool; background : bool;
  in_flight : nat; hidden_requests : nat;
}.

Definition refreshTarget (p : Poll) : Poll :=
  if negb (isVisiblePage (visible p)) || loadingTarget p || background p then p
  else {| visible := visible p; status := status p; interval := interval p; loadingTarget := loadingTarget p;
          background := true; in_flight := S (in_flight p);
          hidden_requests := if visible p then hidden_requests p else S (hidden_requests p) |}.

Definition set_interval (b : bool) (p : Poll) : Poll :=
  {| visible := visible p; status := status p; interval := b; loadingTarget := loadingTarget p;
     background := background p; in_flight := in_flight p; hidden_requests := hidden_requests p |}.

Definition syncPolling (p : Poll) : Poll :=
  let shouldPoll := shouldPollMessages (visible p) (status p) in
  if shouldPoll && negb (interval p) then set_interval true p
  else if negb shouldPoll && interval p then set_interval false p else p.

(** The effect: the cleanup of the last one stops its interval. *)
Definition effect (p : Poll) : Poll := syncPolling (set_interval false p).

Inductive event :=
| Visibility (b : bool) | Focus | Tick | StatusChanged (s : Status) | Selected | TargetLoaded | Refreshed.

Definition step (e : event) (p : Poll) : Poll :=
  match e with
  | Visibility b =>
      let p := syncPolling {| visible := b; status := status p; interval := interval p; loadingTarget := loadingTarget p;
                              background := background p; in_flight := in_flight p;
                              hidden_requests := hidden_requests p |} in
      if isVisiblePage b then refreshTarget p else p
  | Focus => refreshTarget p
  | Tick => if interval p then refreshTarget p else p
  | StatusChanged s =>
      effect {| visible := visible p; status := s; interval := interval p; loadingTarget := loadingTarget p;
                background := background p; in_flight := in_flight p; hidden_requests := hidden_requests p |}
  | Selected =>
      effect {| visible := visible p; status := status p; interval := interval p; loadingTarget := true;
                background := background p; in_flight := in_flight p; hidden_requests := hidden_requests p |}
  | TargetLoaded =>
      {| visible := visible p; status := status p; interval := interval p; loadingTarget := false;
         background := background p; in_flight := in_flight p; hidden_requests := hidden_requests p |}
  | Refreshed =>
      if background p then
        {| visible := visible p; status := status p; interval := interval p; loadingTarget := loadingTarget p;
           background := false; in_flight := pred (in_flight p); hidden_requests := hidden_requests p |}
      else p
  end.

Definition opened (v : bool) : Poll :=
  effect {| visible := v; status := disconnected; interval := false; loadingTarget := true; background := false;
            in_flight := 0; hidden_requests := 0 |}.

Definition poll_ok (p : Poll) : Prop :=
  interval p = shouldPollMessages (visible p) (status p)
  ∧ in_flight p = Nat.b2n (background p) ∧ hidden_requests p = 0%nat.

Lemma sync_ok p :
  in_flight p = Nat.b2n (background p) → hidden_requests p = 0%nat → poll_ok (syncPolling p).
Proof.
  intros F H. unfold syncPolling, poll_ok. destruct (shouldPollMessages (visible p) (status p)) eqn:S, (interval p) eqn:I;
    cbn; rewrite ?S, ?I; done.
Qed.

Lemma refresh_ok p : poll_ok p → poll_ok (refreshTarget p).
Proof.
  intros O. pose proof O as (I & F & H). unfold refreshTarget. destruct (negb (isVisiblePage (visible p))) eqn:V; [done|].
  destruct (loadingTarget p); [done|]. destruct (background p) eqn:B; [done|].
  apply negb_false_iff in V. unfold isVisiblePage in V. cbn [orb]. split; [exact I|]. split; cbn.
  - by rewrite F.
  - by rewrite V.
Qed.

(** The conversation is polled exactly while the page is visible and not connected; there is
    at most one refresh at a time, and none is sent by a page nobody sees. *)
Lemma polling_only_when_needed (v : bool) (es : list event) : poll_ok (fold_left (λ p e, step e p) es (opened v)).
Proof.
  induction es as [|e es IH] using rev_ind; [by apply sync_ok|]. rewrite fold_left_app. cbn [fold_left].
  set (p := fold_left _ es _) in *. pose proof IH as (I & F & H). destruct e as [b| | |s| | |]; cbn [step].
  - destruct (isVisiblePage b); [apply refresh_ok|]; by apply sync_ok.
  - by apply refresh_ok.
  - destruct (interval p) eqn:E; [by apply refresh_ok|done].
  - by apply sync_ok.
  - by apply sync_ok.
  - done.
  - destruct (background p) eqn:B; [|done]. unfold poll_ok. cbn. by rewrite F.
Qed.

End Polling.

(** ** Searching *)

Module Search.

(** [flight] are the requests on their way, by the text that is searched for. *)
Record Search := { query : str; results : list Z; timer : option str; flight : list str }.

(** The effect on the query, which clears the timer of the last one. *)
Definition setSearchQuery (q : str) (s : Search) : Search :=
  if eqs q (query s) then s
  else
    let trimmed := trim q in
    if Z.of_nat (length trimmed) <? 2
    then {| query := q; results := []; timer := None; flight := flight s |}
    else {| query := q; results := results s; timer := Some trimmed; flight := flight s |}.

Definition timer_fires (s : Search) : Search :=
  match timer s with
  | Some t => {| query := query s; results := results s; timer := None; flight := flight s ++ [t] |}
  | None => s
  end.

Definition answer (i : nat) (r : option (list Z)) (s : Search) : Search :=
  match flight s !! i with
  | None => s
  | Some _ => {| query := query s; results := match r with Some l => l | None => results s end;
                 timer := timer s; flight := delete i (flight s) |}
  end.

Definition choose_result (s : Search) : Search :=
  let s := setSearchQuery [] s in {| query := query s; results := []; timer := timer s; flight := flight s |}.

Definition empty : Search := {| query := []; results := []; timer := None; flight := [] |}.

(** The results of a search that was given up are shown when they arrive. *)
Lemma results_after_clearing :
  let s := answer 0 (Some [5]) (setSearchQuery [] (timer_fires (setSearchQuery (js "ruby") empty))) in
  query s = [] ∧ results s = [5].
Proof. by vm_compute. Qed.

(** The results of the earlier of two searches are shown when they arrive last. *)
Lemma earlier_results_win :
  let s := timer_fires (setSearchQuery (js "rub") (timer_fires (setSearchQuery (js "ru") empty))) in
  results (answer 0 (Some [1]) (answer 1 (Some [2]) s)) = [1].
Proof. by vm_compute. Qed.

End Search.

(** ** Images shown large *)

Module Lightbox.

Record Box := { images : list Z; index : Z; touchStart : option Z }.

Definition closed : Box := {| images := []; index := 0; touchStart := None |}.

Fixpoint findIndex (i n : Z) (l : list Z) : Z :=
  match l with [] => -1 | x :: r => if x =? i then n else findIndex i (n + 1) r end.

Definition open (l : list Z) (i : Z) (b : Box) : Box :=
  {| images := l; index := Z.max 0 (findIndex i 0 l); touchStart := touchStart b |}.

Definition showPrevious (b : Box) : Box :=
  {| images := images b; index := Z.max (index b - 1) 0; touchStart := touchStart b |}.
Definition showNext (b : Box) : Box :=
  {| images := images b; index := Z.min (index b + 1) (Z.of_nat (length (images b)) - 1); touchStart := touchStart b |}.
Definition close (b : Box) : Box := {| images := []; index := 0; touchStart := touchStart b |}.

Definition touch_start (x : option Z) (b : Box) : Box := {| images := images b; index := index b; touchStart := x |}.

Definition touch_end (x : option Z) (b : Box) : Box :=
  match touchStart b with
  | None => b
  | Some start =>
      let b := touch_start None b in
      match x with
      | None => b
      | Some e => if Z.abs (e - start) <? 60 then b else if e - start <? 0 then showNext b else showPrevious b
      end
  end.

Inductive event :=
| Open (l : list Z) (i : Z) | Previous | Next | Close | TouchStart (x : option Z) | TouchEnd (x : option Z).

(** The controls are on the image that is shown; a click on an image of a message opens it. *)
Definition step (e : event) (b : Box) : Box :=
  match e with
  | Open l i => match l with [] => b | _ => open l i b end
  | _ =>
      match images b with
      | [] => b
      | _ => match e with
             | Previous => showPrevious b
             | Next => showNext b
             | Close => close b
             | TouchStart x => touch_start x b
             | TouchEnd x => touch_end x b
             | Open _ _ => b
             end
      end
  end.

Definition in_range (b : Box) : Prop := images b = [] ∨ 0 <= index b < Z.of_nat (length (images b)).

Lemma findIndex_range i l n : findIndex i n l = -1 ∨ n <= findIndex i n l < n + Z.of_nat (length l).
Proof.
  revert n. induction l as [|y l IH]; intros n; [by left|]. cbn [findIndex length]. destruct (y =? i); [right; lia|].
  destruct (IH (n + 1)) as [-> | H]; [by left|]. right. lia.
Qed.

(** Whatever is opened, pressed and swiped, the image that is shown large is one of those of
    its message. *)
Lemma lightbox_image_exists (es : list event) : in_range (fold_left (λ b e, step e b) es closed).
Proof.
  induction es as [|e es IH] using rev_ind; [by left|]. rewrite fold_left_app. cbn [fold_left].
  set (b := fold_left _ es _) in *.
  assert (M : images b ≠ [] → in_range (showPrevious b) ∧ in_range (showNext b)).
  { intros N. destruct IH as [E|R]; [done|]. split; right; cbn; lia. }
  assert (K : ∀ x, in_range (touch_start x b)) by (intros x; destruct IH as [E|R]; [by left|by right]).
  destruct e as [l i| | | |x|x]; cbn [step].
  - destruct l as [|a r]; [done|]. right. cbn [open index images].
    destruct (findIndex_range i (a :: r) 0) as [E|E]; [rewrite E|]; cbn [length] in *; lia.
  - destruct (images b) eqn:I; [done|]. by apply M.
  - destruct (images b) eqn:I; [done|]. by apply M.
  - destruct (images b) eqn:I; [done|]. by left.
  - destruct (images b) eqn:I; [done|]. apply K.
  - destruct (images b) eqn:I; [done|]. unfold touch_end. destruct (touchStart b) as [s|]; [|done].
    destruct x as [x|]; [|apply K]. destruct (_ <? 60); [apply K|]. destruct M as [M1 M2]; [done|].
    destruct (_ <? 0); [destruct M2 as [E|E]|destruct M1 as [E|E]]; [by left|by right|by left|by right].
Qed.

End Lightbox.
