(* ===== verification/HelpRequests.v ===== *)
(** * Help requests

    A student asks for help where they are stuck and staff answer. [Student]:
    [web/src/components/student/ContextualHelp.tsx] with the list that
    [web/src/pages/student/LessonView.tsx] shares between its cards, and
    [mobile/src/components/contextual-help.tsx]. [Queue]:
    [web/src/pages/admin/SupportQueue.tsx]. [Intervention]:
    [web/src/pages/admin/InterventionDetail.tsx]. *)

From S2P Require Import Prelude.
From S2P Require Import Keyed.
From S2P Require Import Url.

Inductive ContextType := lesson | exercise | recording.
Inductive Source := primary | legacy.
Inductive Category := concept | technical | instructions | feedback | other.
Inductive Status := open | acknowledged | resolved | canceled.

#[export] Instance ContextType_eq_dec : EqDecision ContextType.
Proof. solve_decision. Defined.
#[export] Instance Source_eq_dec : EqDecision Source.
Proof. solve_decision. Defined.
#[export] Instance Category_eq_dec : EqDecision Category.
Proof. solve_decision. Defined.
#[export] Instance Status_eq_dec : EqDecision Status.
Proof. solve_decision. Defined.

Record Context := { ctype : ContextType; csource : Source; cid : Z }.
Record Request := {
  id : Z; context : Context; category : Category; urgent : bool; status : Status;
  message : str; staff_response : option str;
}.

#[export] Instance Context_eq_dec : EqDecision Context.
Proof. solve_decision. Defined.
#[export] Instance Request_eq_dec : EqDecision Request.
Proof. solve_decision. Defined.

(** ** The cards of a page

    The cards of a lesson, or the one of a recording, show one list of requests. On the web an
    answer is put into the list of the drawing in which the request was sent, which a call
    notes; on the phone into the list that is there by then. *)

Module Student.

Inductive Client := Web | Phone.

(** [since] is the number of answers that had come when the request was sent. *)
Inductive Call :=
| Create (noted : list Request) (since : nat)
| Cancel (noted : list Request) (since : nat).

(** [call] is the request under way; the card is [saving] while there is one. *)
Record Card := { ctx : Context; c_category : Category; c_urgent : bool; draft : str; call : option Call }.

(** What was asked of the server, and what it answered, each answer with the number of
    answers that had come when its request was sent; [canceling] are the requests that
    were to be canceled, with the card. *)
Record Posted := { p_ctx : Context; p_category : Category; p_urgent : bool; p_message : str }.
Inductive Answer := Put (r : Request) | Update (r : Request) | Reload (l : list Request).

Record Page := {
  requests : list Request; loading : bool; loads : nat; cards : list Card;
  posted : list Posted; canceling : list (Context * Request); answers : list (nat * Answer);
}.

Definition is_active (r : Request) : bool :=
  bool_decide (status r = open) || bool_decide (status r = acknowledged).

Definition relevant (x : Context) (l : list Request) : list Request :=
  List.filter (λ r, (cid (context r) =? cid x) && bool_decide (csource (context r) = csource x)) l.

Definition activeRequest (x : Context) (l : list Request) : option Request := List.find is_active (relevant x l).
Definition latestResolved (x : Context) (l : list Request) : option Request :=
  List.find (λ r, bool_decide (status r = resolved)) (relevant x l).

(** The list an answer is put into. *)
Definition base (c : Client) (noted now : list Request) : list Request :=
  match c with Web => noted | Phone => now end.

Definition put (r : Request) (l : list Request) : list Request := r :: List.filter (λ q, negb (id q =? id r)) l.
Definition update (r : Request) (l : list Request) : list Request := map (λ q, if id q =? id r then r else q) l.

Definition set_requests (l : list Request) (p : Page) : Page :=
  {| requests := l; loading := loading p; loads := loads p; cards := cards p; posted := posted p;
     canceling := canceling p; answers := answers p |}.
Definition set_loading (b : bool) (n : nat) (p : Page) : Page :=
  {| requests := requests p; loading := b; loads := n; cards := cards p; posted := posted p;
     canceling := canceling p; answers := answers p |}.
Definition set_card (i : nat) (k : Card) (p : Page) : Page :=
  {| requests := requests p; loading := loading p; loads := loads p; cards := <[i := k]> (cards p); posted := posted p;
     canceling := canceling p; answers := answers p |}.
Definition note (q : list Posted) (z : list (Context * Request)) (a : list (nat * Answer)) (p : Page) : Page :=
  {| requests := requests p; loading := loading p; loads := loads p; cards := cards p; posted := posted p ++ q;
     canceling := canceling p ++ z; answers := answers p ++ a |}.

Definition set_draft (s : str) (k : Card) : Card :=
  {| ctx := ctx k; c_category := c_category k; c_urgent := c_urgent k; draft := s; call := call k |}.
Definition set_choice (c : Category) (u : bool) (k : Card) : Card :=
  {| ctx := ctx k; c_category := c; c_urgent := u; draft := draft k; call := call k |}.
Definition set_call (c : option Call) (k : Card) : Card :=
  {| ctx := ctx k; c_category := c_category k; c_urgent := c_urgent k; draft := draft k; call := c |}.

(** *** Loading *)

(** [loadHelpRequests]; the query of the phone shows what it has while it asks again. *)
Definition loadRequests (c : Client) (p : Page) : Page :=
  set_loading (match c with Web => true | Phone => loading p end) (S (loads p)) p.

Definition loaded (a : option (list Request)) (p : Page) : Page :=
  match loads p with
  | O => p
  | S n =>
      let p := set_loading false n p in
      match a with Some l => note [] [] [(length (answers p), Reload l)] (set_requests l p) | None => p end
  end.

(** *** Asking *)

(** The form is shown when the list is there and has no active request for the card. *)
Definition form_shown (k : Card) (p : Page) : bool :=
  negb (loading p) && negb (bool_decide (is_Some (activeRequest (ctx k) (requests p)))).

Definition submitRequest (i : nat) (p : Page) : Page :=
  match cards p !! i with
  | None => p
  | Some k =>
      let cleanMessage := trim (draft k) in
      match cleanMessage, call k with
      | _ :: _, None =>
          if form_shown k p then
            note [{| p_ctx := ctx k; p_category := c_category k; p_urgent := c_urgent k; p_message := cleanMessage |}] [] []
              (set_card i (set_call (Some (Create (requests p) (length (answers p)))) k) p)
          else p
      | _, _ => p
      end
  end.

Definition created (c : Client) (i : nat) (a : option Request) (p : Page) : Page :=
  match cards p !! i with
  | Some k =>
      match call k with
      | Some (Create noted since) =>
          match a with
          | Some r => note [] [] [(since, Put r)]
                        (set_requests (put r (base c noted (requests p))) (set_card i (set_draft [] (set_call None k)) p))
          | None => set_card i (set_call None k) p
          end
      | _ => p
      end
  | None => p
  end.

(** *** Canceling *)

Definition cancelRequest (i : nat) (p : Page) : Page :=
  match cards p !! i with
  | Some k =>
      match activeRequest (ctx k) (requests p), call k with
      | Some r, None =>
          if loading p then p
          else note [] [(ctx k, r)] [] (set_card i (set_call (Some (Cancel (requests p) (length (answers p)))) k) p)
      | _, _ => p
      end
  | None => p
  end.

Definition updated (c : Client) (i : nat) (a : option Request) (p : Page) : Page :=
  match cards p !! i with
  | Some k =>
      match call k with
      | Some (Cancel noted since) =>
          match a with
          | Some r => note [] [] [(since, Update r)]
                        (set_requests (update r (base c noted (requests p))) (set_card i (set_call None k) p))
          | None => set_card i (set_call None k) p
          end
      | _ => p
      end
  | None => p
  end.

Definition change_card (i : nat) (f : Card → Card) (p : Page) : Page :=
  match cards p !! i with Some k => set_card i (f k) p | None => p end.

Inductive event :=
| Types (i : nat) (s : str) | Chooses (i : nat) (c : Category) (u : bool) | Submits (i : nat) | Cancels (i : nat)
| Opens | Loaded (a : option (list Request)) | Created (i : nat) (a : option Request) | Updated (i : nat) (a : option Request).

Definition step (c : Client) (e : event) (p : Page) : Page :=
  match e with
  | Types i s => change_card i (set_draft s) p
  | Chooses i g u => change_card i (set_choice g u) p
  | Submits i => submitRequest i p
  | Cancels i => cancelRequest i p
  | Opens => loadRequests c p
  | Loaded a => loaded a p
  | Created i a => created c i a p
  | Updated i a => updated c i a p
  end.

Definition run (c : Client) (es : list event) (p : Page) : Page := fold_left (λ p e, step c e p) es p.

Definition card (x : Context) : Card := {| ctx := x; c_category := concept; c_urgent := false; draft := []; call := None |}.

(** The page is drawn and its list is asked for. *)
Definition opened (c : Client) (xs : list Context) : Page :=
  {| requests := []; loading := true; loads := 1; cards := map card xs; posted := []; canceling := []; answers := [] |}.

(** *** The book

    What the page promises: the answers of the server, entered in a finite map in the order
    in which they come. On the phone each is entered in the book as it is by then; on the web
    in the book as it was when its request was sent, so that what was entered in between is
    not in the result. *)

Abbreviation Book := (gmap Z Request).

Definition book_of (l : list Request) : Book := list_to_map (map (λ r, (id r, r)) l).

Definition enter (a : Answer) (b : Book) : Book :=
  match a with
  | Put r => <[id r := r]> b
  | Update r => match b !! id r with Some _ => <[id r := r]> b | None => b end
  | Reload l => book_of l
  end.

(** The books there have been, the first one empty. *)
Definition books (c : Client) (l : list (nat * Answer)) : list Book :=
  fold_left (λ bs a, bs ++ [enter a.2 (default ∅ (match c with Web => bs !! a.1 | Phone => last bs end))]) l [∅].

Definition book (c : Client) (l : list (nat * Answer)) : Book := default ∅ (last (books c l)).

(** The list and the book *)
Lemma book_lookup l i r : NoDup (map id l) → book_of l !! i = Some r ↔ r ∈ l ∧ id r = i.
Proof.
  intros N. unfold book_of. rewrite <- elem_of_list_to_map.
  - rewrite list_elem_of_fmap. split; [intros (q & [= -> ->] & H)|intros [H <-]; exists r]; done.
  - change (fst <$> map ?f l) with (map fst (map f l)). rewrite map_map. exact N.
Qed.

Lemma put_nodup r l : NoDup (map id l) → NoDup (map id (put r l)).
Proof.
  intros N. constructor; [|by apply NoDup_map_bfilter].
  intros (q & E & [_ H]%elem_of_bfilter)%list_elem_of_fmap. rewrite E, Z.eqb_refl in H. done.
Qed.

Lemma book_put r l : NoDup (map id l) → book_of (put r l) = <[id r := r]> (book_of l).
Proof.
  intros N. apply map_eq. intros i. apply option_eq. intros q. rewrite (book_lookup _ _ _ (put_nodup r l N)).
  unfold put. rewrite elem_of_cons, elem_of_bfilter, lookup_insert_Some, (book_lookup _ _ _ N), negb_true_iff, Z.eqb_neq.
  naive_solver.
Qed.

Lemma updated_ids r l : map id (update r l) = map id l.
Proof.
  unfold update. rewrite map_map. apply map_ext. intros q. destruct (Z.eqb_spec (id q) (id r)); congruence.
Qed.

Lemma book_update r l : NoDup (map id l) → book_of (update r l) = enter (Update r) (book_of l).
Proof.
  intros N. apply map_eq. intros i. apply option_eq. intros q.
  rewrite book_lookup by (by rewrite updated_ids). unfold update. rewrite list_elem_of_fmap. cbn [enter].
  destruct (book_of l !! id r) as [s|] eqn:B.
  - apply (book_lookup _ _ _ N) in B as [B E]. rewrite lookup_insert_Some, (book_lookup _ _ _ N). split.
    + intros ((w & -> & W) & <-). destruct (Z.eqb_spec (id w) (id r)); [by left|right]. naive_solver.
    + intros [[<- <-]|(D & H & <-)]; (split; [|done]); [exists s|exists q]; (split; [|done]).
      * by rewrite E, Z.eqb_refl.
      * destruct (Z.eqb_spec (id q) (id r)); naive_solver.
  - rewrite (book_lookup _ _ _ N). assert (A : ∀ w, w ∈ l → (id w =? id r) = false).
    { intros w W. apply Z.eqb_neq. intros E. assert (book_of l !! id r = Some w) by (by apply book_lookup). congruence. }
    split.
    + intros ((w & -> & W) & <-). by rewrite (A w W).
    + intros [H <-]. split; [|done]. exists q. by rewrite (A q H).
Qed.

(** The books grow with the answers. *)
Lemma books_snoc c l a :
  books c (l ++ [a])
  = books c l ++ [enter a.2 (default ∅ (match c with Web => books c l !! a.1 | Phone => last (books c l) end))].
Proof. unfold books. by rewrite fold_left_app. Qed.

Lemma books_length c l : length (books c l) = S (length l).
Proof.
  induction l as [|a l IH] using rev_ind; [done|]. rewrite books_snoc, !length_app, IH. cbn. lia.
Qed.

Lemma books_keep c l a n b : books c l !! n = Some b → books c (l ++ [a]) !! n = Some b.
Proof. intros H. rewrite books_snoc. by apply lookup_app_l_Some. Qed.

Lemma book_now c l : books c l !! length l = Some (book c l).
Proof.
  unfold book. rewrite last_lookup, books_length. cbn [Nat.pred].
  destruct (lookup_lt_is_Some_2 (books c l) (length l)) as [b ->]; [rewrite books_length; lia|done].
Qed.

(** *** Answers that can be given

    A list that is loaded has each request once. *)
Definition fair (e : event) : Prop := match e with Loaded (Some l) => NoDup (map id l) | _ => True end.

(** What a call noted is the book of its time. *)
Definition noted_ok (c : Client) (l : list (nat * Answer)) (k : Card) : Prop :=
  match call k with
  | Some (Create noted since) | Some (Cancel noted since) =>
      NoDup (map id noted) ∧ books c l !! since = Some (book_of noted)
  | None => True
  end.

(** The requests a card shows: those of its identifier and source. *)
Definition of_card (x : Context) (r : Request) : Prop := cid (context r) = cid x ∧ csource (context r) = csource x.

Record good (c : Client) (xs : list Context) (p : Page) : Prop := {
  g_nodup : NoDup (map id (requests p));
  g_book : book_of (requests p) = book c (answers p);
  g_noted : Forall (noted_ok c (answers p)) (cards p);
  g_cards : map ctx (cards p) = xs;
  g_posted : Forall (λ q, p_message q ≠ [] ∧ trim (p_message q) = p_message q ∧ p_ctx q ∈ xs) (posted p);
  g_canceling : Forall (λ q, of_card q.1 q.2 ∧ is_active q.2 = true ∧ q.1 ∈ xs) (canceling p);
}.

Lemma good_card c xs p i k k' :
  good c xs p → cards p !! i = Some k → ctx k' = ctx k → noted_ok c (answers p) k' → good c xs (set_card i k' p).
Proof.
  intros [N B M C P Q] K E O. split; cbn; try done; [by apply Forall_insert|].
  rewrite <- C. change (map ctx ?l) with (ctx <$> l).
  rewrite list_fmap_insert, E. apply list_insert_id. by rewrite list_lookup_fmap, K.
Qed.

Lemma good_card_in c xs p i k : good c xs p → cards p !! i = Some k → ctx k ∈ xs.
Proof. intros G K. rewrite <- (g_cards _ _ _ G). apply list_elem_of_fmap. exists k. split; [done|]. by eapply list_elem_of_lookup_2. Qed.

Lemma good_noted c xs p i k : good c xs p → cards p !! i = Some k → noted_ok c (answers p) k.
Proof. intros G K. by eapply Forall_lookup_1; [apply (g_noted _ _ _ G)|]. Qed.

(** What a call that starts now notes. *)
Lemma note_now c xs p : good c xs p → books c (answers p) !! length (answers p) = Some (book_of (requests p)).
Proof. intros G. rewrite (g_book _ _ _ G). apply book_now. Qed.

(** An answer is put into the list. *)
Lemma good_answer c xs p l a :
  good c xs p → NoDup (map id l) →
  book_of l = enter a.2 (default ∅ (match c with Web => books c (answers p) !! a.1 | Phone => Some (book c (answers p)) end)) →
  good c xs (note [] [] [a] (set_requests l p)).
Proof.
  intros [N B M C P Q] N' E.
  split; cbn [requests answers cards posted canceling note set_requests]; rewrite ?app_nil_r; try done.
  - unfold book. rewrite books_snoc, last_snoc. cbn. rewrite E. do 2 f_equal. destruct c; [done|].
    rewrite last_lookup, books_length. cbn [Nat.pred]. by rewrite book_now.
  - apply (Forall_impl _ _ _ M). intros k. unfold noted_ok.
    destruct (call k) as [[]|]; [intros [? ?]..|done]; (split; [done|by apply books_keep]).
Qed.

(** The list an answer is put into is that of the book it is entered in. *)
Lemma base_ok c p noted since :
  NoDup (map id (requests p)) → book_of (requests p) = book c (answers p) →
  NoDup (map id noted) → books c (answers p) !! since = Some (book_of noted) →
  NoDup (map id (base c noted (requests p)))
  ∧ default ∅ (match c with Web => books c (answers p) !! since | Phone => Some (book c (answers p)) end)
    = book_of (base c noted (requests p)).
Proof. intros N B Nn Bn. destruct c; cbn [base]; (split; [done|]); [by rewrite Bn|cbn; by rewrite B]. Qed.

Lemma find_active x l :
  match activeRequest x l with
  | Some r => r ∈ l ∧ of_card x r ∧ is_active r = true
  | None => ∀ r, r ∈ l → of_card x r → is_active r = false
  end.
Proof.
  unfold activeRequest. destruct (List.find _ _) as [r|] eqn:E.
  - apply find_some in E as [I A]. apply list_elem_of_In in I. apply elem_of_bfilter in I as [I H].
    apply andb_true_iff in H as [H1 H2]. apply Z.eqb_eq in H1. apply bool_decide_eq_true_1 in H2. done.
  - intros r I [H1 H2]. apply (find_none _ _ E). apply list_elem_of_In. apply elem_of_bfilter. split; [done|].
    by rewrite H1, Z.eqb_refl, bool_decide_eq_true_2.
Qed.

Lemma step_good c xs e p : fair e → good c xs p → good c xs (step c e p).
Proof.
  intros F G. destruct e as [i s|i g u|i|i| |a|i a|i a]; cbn [step].
  - unfold change_card. destruct (cards p !! i) as [k|] eqn:K; [|done].
    eapply good_card; [done|done|done|exact (good_noted c xs p i k G K)].
  - unfold change_card. destruct (cards p !! i) as [k|] eqn:K; [|done].
    eapply good_card; [done|done|done|exact (good_noted c xs p i k G K)].
  - unfold submitRequest. destruct (cards p !! i) as [k|] eqn:K; [|done].
    destruct (trim (draft k)) as [|h w] eqn:W, (call k) eqn:L; try done. destruct (form_shown k p); [|done].
    pose proof (good_card_in c xs p i k G K) as I.
    destruct (good_card c xs p i k (set_call (Some (Create (requests p) (length (answers p)))) k) G K eq_refl)
      as [N B M C P Q]; [split; [apply G|by eapply note_now]|].
    split; cbn [requests answers cards posted canceling note set_card] in *; rewrite ?app_nil_r; try done.
    apply Forall_app. split; [done|]. constructor; [|done]. cbn [p_message p_ctx].
    rewrite <- W, trim_idem. split; [congruence|done].
  - unfold cancelRequest. destruct (cards p !! i) as [k|] eqn:K; [|done].
    destruct (activeRequest (ctx k) (requests p)) as [r|] eqn:A, (call k) eqn:L; try done. destruct (loading p); [done|].
    pose proof (good_card_in c xs p i k G K) as I.
    pose proof (find_active (ctx k) (requests p)) as H. rewrite A in H. destruct H as (_ & H1 & H2).
    destruct (good_card c xs p i k (set_call (Some (Cancel (requests p) (length (answers p)))) k) G K eq_refl)
      as [N B M C P Q]; [split; [apply G|by eapply note_now]|].
    split; cbn [requests answers cards posted canceling note set_card] in *; rewrite ?app_nil_r; try done.
    apply Forall_app. split; [done|]. by constructor.
  - by destruct G.
  - unfold loaded. destruct (loads p) as [|n]; [done|]. destruct a as [l|]; [|by destruct G].
    apply good_answer; [by destruct G|done|done].
  - unfold created. destruct (cards p !! i) as [k|] eqn:K; [|done].
    pose proof (good_noted c xs p i k G K) as O. unfold noted_ok in O.
    destruct (call k) as [[noted since|]|] eqn:L; try done. destruct a as [r|]; [|by eapply good_card].
    destruct (base_ok c p noted since (g_nodup _ _ _ G) (g_book _ _ _ G) (proj1 O) (proj2 O)) as [N E].
    apply good_answer; [by eapply good_card|by apply put_nodup|]. cbn [snd fst answers set_card]. rewrite E. by apply book_put.
  - unfold updated. destruct (cards p !! i) as [k|] eqn:K; [|done].
    pose proof (good_noted c xs p i k G K) as O. unfold noted_ok in O.
    destruct (call k) as [[|noted since]|] eqn:L; try done. destruct a as [r|]; [|by eapply good_card].
    destruct (base_ok c p noted since (g_nodup _ _ _ G) (g_book _ _ _ G) (proj1 O) (proj2 O)) as [N E].
    apply good_answer; [by eapply good_card|by rewrite updated_ids|]. cbn [snd fst answers set_card]. rewrite E.
    by apply book_update.
Qed.

Lemma run_good c xs es p : Forall fair es → good c xs p → good c xs (run c es p).
Proof.
  intros F. revert p. induction F as [|e es Fe F IH]; [done|]. intros p G. apply IH. by apply step_good.
Qed.

Lemma help_opened_good c xs : good c xs (opened c xs).
Proof.
  split; cbn; try constructor; try done; [|rewrite map_map; apply map_id].
  apply Forall_forall. by intros k (x & -> & _)%list_elem_of_fmap.
Qed.


(** *** Examples *)

Definition about (t : ContextType) (i : Z) : Context := {| ctype := t; csource := primary; cid := i |}.
Definition asked (i : Z) (x : Context) (st : Status) : Request :=
  {| id := i; context := x; category := concept; urgent := false; status := st; message := js "stuck"; staff_response := None |}.

(** Two cards whose answers cross. *)
Definition crossing (t : ContextType) : list event :=
  [Loaded (Some []); Types 0 (js " stuck "); Submits 0; Types 1 (js "help"); Submits 1;
   Created 1 (Some (asked 2 (about t 8) open)); Created 0 (Some (asked 1 (about t 7) open)); Cancels 0;
   Updated 0 (Some (asked 1 (about t 7) canceled))].


(** On the web the same answers lose the request of the other card until the list is loaded
    again, and its form is shown a second time. *)
Lemma crossing_answers_lose_request :
  let p := run Web (take 7 (crossing exercise)) (opened Web [about exercise 7; about exercise 8]) in
  map id (requests p) = [1] ∧ activeRequest (about exercise 8) (requests p) = None.
Proof. by vm_compute. Qed.

(** A lesson loads the requests of its cohort, of every kind, and its cards compare identifiers
    only: the request for lesson 5 is shown at exercise 5, where it can be canceled. *)
Lemma lesson_request_at_exercise :
  let p := run Web [Loaded (Some [asked 1 (about lesson 5) open]); Cancels 1] (opened Web [about lesson 5; about exercise 5]) in
  canceling p = [(about exercise 5, asked 1 (about lesson 5) open)].
Proof. by vm_compute. Qed.

(** What is typed while a request is under way is cleared by its answer. *)
Lemma typed_while_asking_lost :
  let p := run Web [Loaded (Some []); Types 0 (js "stuck"); Submits 0; Types 0 (js "stuck at step 3");
                    Created 0 (Some (asked 1 (about lesson 5) open))] (opened Web [about lesson 5]) in
  (draft <$> cards p) = [[]] ∧ (p_message <$> posted p) = [js "stuck"].
Proof. by vm_compute. Qed.

End Student.

(** ** The support queue

    [web/src/pages/admin/SupportQueue.tsx]: acknowledging and resolving requests, and opening
    an intervention for a student. *)

Module Queue.

Inductive Trigger := manual | help_request | redo | ungraded | inactivity | restart | extended_absence.

#[global] Instance Trigger_eq_dec : EqDecision Trigger.
Proof. solve_decision. Defined.

(** A request as staff see it, with its student and cohort. *)
Record Entry := { request : Request; student : option Z; cohort : Z }.
Record Row := {
  enrollment_id : Z; user_id : Z; cohort_id : Z;
  urgent_help_count : Z; help_request_count : Z; redo_count : Z; ungraded_count : Z; inactive : bool;
}.
Record Data := { help_requests : list Entry; recently_resolved : list Entry; students : list Row }.

(** What is sent. *)
Record Payload := {
  p_enrollment : Z; p_help_request : option Z; p_trigger : Trigger; p_urgent : bool; p_action : str; p_follow_up : str;
}.
Inductive Sent := Acknowledge (i : Z) | Resolve (i : Z) (response : str) | Intervene (p : Payload).

Record Page := {
  queue : option Data; loading : bool; failed : bool; savingId : option Z;
  resolving : option Entry; response : str;
  creatingFor : option Row; triggerType : Trigger; actionSummary : str; followUpAt : str;
  loads : nat; calls : list Sent; sent : list Sent;
}.

Definition set_queue (q : option Data) (l f : bool) (n : nat) (p : Page) : Page :=
  {| queue := q; loading := l; failed := f; savingId := savingId p; resolving := resolving p; response := response p;
     creatingFor := creatingFor p; triggerType := triggerType p; actionSummary := actionSummary p; followUpAt := followUpAt p;
     loads := n; calls := calls p; sent := sent p |}.
Definition set_saving (s : option Z) (p : Page) : Page :=
  {| queue := queue p; loading := loading p; failed := failed p; savingId := s; resolving := resolving p; response := response p;
     creatingFor := creatingFor p; triggerType := triggerType p; actionSummary := actionSummary p; followUpAt := followUpAt p;
     loads := loads p; calls := calls p; sent := sent p |}.
Definition set_resolving (r : option Entry) (s : str) (p : Page) : Page :=
  {| queue := queue p; loading := loading p; failed := failed p; savingId := savingId p; resolving := r; response := s;
     creatingFor := creatingFor p; triggerType := triggerType p; actionSummary := actionSummary p; followUpAt := followUpAt p;
     loads := loads p; calls := calls p; sent := sent p |}.
Definition set_creating (r : option Row) (t : Trigger) (a f : str) (p : Page) : Page :=
  {| queue := queue p; loading := loading p; failed := failed p; savingId := savingId p; resolving := resolving p;
     response := response p; creatingFor := r; triggerType := t; actionSummary := a; followUpAt := f;
     loads := loads p; calls := calls p; sent := sent p |}.
Definition send (s : Sent) (p : Page) : Page :=
  {| queue := queue p; loading := loading p; failed := failed p; savingId := savingId p; resolving := resolving p;
     response := response p; creatingFor := creatingFor p; triggerType := triggerType p; actionSummary := actionSummary p;
     followUpAt := followUpAt p; loads := loads p; calls := calls p ++ [s]; sent := sent p ++ [s] |}.
Definition drop_call (n : nat) (p : Page) : Page :=
  {| queue := queue p; loading := loading p; failed := failed p; savingId := savingId p; resolving := resolving p;
     response := response p; creatingFor := creatingFor p; triggerType := triggerType p; actionSummary := actionSummary p;
     followUpAt := followUpAt p; loads := loads p; calls := delete n (calls p); sent := sent p |}.

Definition loadQueue (p : Page) : Page := set_queue (queue p) (loading p) false (S (loads p)) p.

Definition queue_loaded (a : option Data) (p : Page) : Page :=
  match loads p with
  | O => p
  | S n => match a with
           | Some q => set_queue (Some q) false (failed p) n p
           | None => set_queue (queue p) false true n p
           end
  end.

(** *** Requests *)

(** The button is disabled while this request is being saved. *)
Definition enabled (r : Entry) (p : Page) : bool := negb (bool_decide (savingId p = Some (id (request r)))).

Definition acknowledge (r : Entry) (p : Page) : Page :=
  if bool_decide (status (request r) = open) && enabled r p
  then send (Acknowledge (id (request r))) (set_saving (Some (id (request r))) p) else p.

Definition openResponse (r : Entry) (p : Page) : Page :=
  if Student.is_active (request r) && enabled r p then set_resolving (Some r) [] p else p.

Definition closeResponse (p : Page) : Page :=
  match savingId p with None => set_resolving None (response p) p | Some _ => p end.

Definition types (s : str) (p : Page) : Page :=
  match resolving p with Some _ => set_resolving (resolving p) s p | None => p end.

Definition resolveRequest (p : Page) : Page :=
  match resolving p, trim (response p) with
  | Some r, c :: w =>
      if enabled r p then send (Resolve (id (request r)) (c :: w)) (set_saving (Some (id (request r))) p) else p
  | _, _ => p
  end.

(** *** Interventions *)

Section Dates.
(** [localDateTime]: the local date and time in some days. *)
Context (localDateTime : Z → str).

Definition suggested (r : Row) : Trigger :=
  if negb (urgent_help_count r =? 0) || negb (help_request_count r =? 0) then help_request
  else if negb (redo_count r =? 0) then redo
  else if negb (ungraded_count r =? 0) then ungraded
  else if inactive r then inactivity else manual.

Definition suggestion (t : Trigger) : str :=
  match t with
  | help_request => js "Respond to the request and confirm the next learning step."
  | redo => js "Review the redo feedback and agree on a resubmission plan."
  | ungraded => js "Review outstanding work and give the student a clear next step."
  | inactivity => js "Check in with the student and identify a sustainable return plan."
  | _ => []
  end.

Definition startIntervention (r : Row) (p : Page) : Page :=
  let t := suggested r in
  set_creating (Some r) t (suggestion t) (localDateTime (if bool_decide (t = help_request) then 2 else 7)) p.

(** The request the intervention is about. *)
Definition source_request (r : Row) (t : Trigger) (q : option Data) : option Entry :=
  if bool_decide (t = help_request) then
    match q with
    | Some d => List.find (λ e, bool_decide (student e = Some (user_id r)) && (cohort e =? cohort_id r)) (help_requests d)
    | None => None
    end
  else None.

(** [toISOString] is the text of the date the input names. *)
Definition createIntervention (toISO : str → str) (p : Page) : Page :=
  match creatingFor p, trim (actionSummary p), followUpAt p with
  | Some r, c :: w, _ :: _ =>
      if bool_decide (savingId p = Some (-1)) then p
      else
        let helpRequest := source_request r (triggerType p) (queue p) in
        send (Intervene {| p_enrollment := enrollment_id r; p_help_request := id ∘ request <$> helpRequest;
                           p_trigger := triggerType p;
                           p_urgent := match helpRequest with Some e => urgent (request e) | None => false end;
                           p_action := c :: w; p_follow_up := toISO (followUpAt p) |}) (set_saving (Some (-1)) p)
  | _, _, _ => p
  end.

Definition closeIntervention (p : Page) : Page :=
  match savingId p with
  | None => set_creating None (triggerType p) (actionSummary p) (followUpAt p) p
  | Some _ => p
  end.

(** *** Answers *)

Definition answered (n : nat) (ok : bool) (p : Page) : Page :=
  match calls p !! n with
  | None => p
  | Some s =>
      let p := set_saving None (drop_call n p) in
      if ok then
        match s with
        | Acknowledge _ => loadQueue p
        | Resolve _ _ => loadQueue (set_resolving None [] p)
        | Intervene _ => loadQueue (set_creating None (triggerType p) (actionSummary p) (followUpAt p) p)
        end
      else p
  end.

End Dates.

(** *** Filters of the address *)

Definition view_resolved (q : list (str * str)) : bool := bool_decide (params_get q (js "view") = Some (js "resolved")).
Definition urgentOnly (q : list (str * str)) : bool := bool_decide (params_get q (js "urgency") = Some (js "urgent")).

(** [setFilter]: the view or the urgency; the usual value is left out of the address. *)
Definition setFilter (view : bool) (on : bool) (q : list (str * str)) : list (str * str) :=
  let key := if view then js "view" else js "urgency" in
  if on then params_set q key (if view then js "resolved" else js "urgent")
  else List.filter (λ p, negb (eqs p.1 key)) q.

Definition filteredRequests (q : list (str * str)) (d : Data) : list Entry :=
  List.filter (λ e, negb (urgentOnly q) || urgent (request e))
    (if view_resolved q then recently_resolved d else help_requests d).

Lemma params_get_deleted q k : params_get (List.filter (λ p, negb (eqs p.1 k)) q) k = None.
Proof.
  unfold params_get. induction q as [|[x v] q IH]; [done|]. cbn. destruct (eqs x k) eqn:E; cbn; [done|]. by rewrite E.
Qed.

(** A filter that is chosen is the one that is read, and the other stays. *)
Lemma support_filter_chosen v on q :
  let q' := setFilter v on q in
  view_resolved q' = (if v then on else view_resolved q) ∧ urgentOnly q' = (if v then urgentOnly q else on).
Proof.
  unfold setFilter, view_resolved, urgentOnly. destruct v, on;
    rewrite ?params_get_set, ?params_get_deleted, ?params_get_filter by done; split; by vm_compute || reflexivity.
Qed.

(** *** What is sent *)

Lemma source_request_of_student r t q e :
  source_request r t q = Some e →
  t = help_request ∧ student e = Some (user_id r) ∧ cohort e = cohort_id r
  ∧ ∃ d, q = Some d ∧ e ∈ help_requests d.
Proof.
  unfold source_request. destruct (bool_decide (t = help_request)) eqn:T; [|done]. apply bool_decide_eq_true_1 in T.
  destruct q as [d|]; [|done]. intros [I H]%find_some. apply andb_true_iff in H as [H1 H2].
  apply bool_decide_eq_true_1 in H1. apply Z.eqb_eq in H2. apply list_elem_of_In in I. eauto 10.
Qed.

(** An intervention names a request of the queue only for its trigger, of the same student and
    cohort, and is urgent when that request is. *)
Lemma intervention_of_request toISO p s :
  sent (createIntervention toISO p) = sent p ++ [s] →
  ∃ r x, creatingFor p = Some r ∧ s = Intervene x ∧ p_enrollment x = enrollment_id r
    ∧ p_action x = trim (actionSummary p) ∧ p_action x ≠ []
    ∧ match p_help_request x with
      | Some i => ∃ e d, p_trigger x = help_request ∧ queue p = Some d ∧ e ∈ help_requests d ∧ id (request e) = i
                    ∧ student e = Some (user_id r) ∧ cohort e = cohort_id r ∧ p_urgent x = urgent (request e)
      | None => p_urgent x = false
      end.
Proof.
  assert (A : ∀ l : list Sent, l ≠ l ++ [s]) by (intros l E; apply (f_equal length) in E; rewrite length_app in E; cbn in E; lia).
  unfold createIntervention. intros E. destruct (creatingFor p) as [r|]; [|by apply A in E].
  destruct (trim (actionSummary p)) as [|c w] eqn:T; [by apply A in E|].
  destruct (followUpAt p) as [|f g]; [by apply A in E|]. destruct (bool_decide (savingId p = _)); [by apply A in E|].
  cbn [sent send set_saving] in E. apply app_inj_tail in E as [_ <-].
  eexists r, _. do 2 (split; [done|]). cbn [p_enrollment p_action p_help_request p_urgent p_trigger].
  do 3 (split; [done|]). destruct (source_request r (triggerType p) (queue p)) as [e|] eqn:S; cbn; [|done].
  apply source_request_of_student in S as (S1 & S2 & S3 & d & S4 & S5). eauto 15.
Qed.

(** *** Examples *)

Definition entry (i : Z) : Entry :=
  {| request := {| id := i; context := {| ctype := lesson; csource := primary; cid := 1 |}; category := concept; urgent := false;
                   status := open; message := js "stuck"; staff_response := None |}; student := Some 3; cohort := 1 |}.

Definition idle : Page :=
  {| queue := Some {| help_requests := [entry 1; entry 2; entry 3]; recently_resolved := []; students := [] |}; loading := false;
     failed := false; savingId := None; resolving := None; response := []; creatingFor := None; triggerType := manual;
     actionSummary := []; followUpAt := []; loads := 0; calls := []; sent := [] |}.

(** The answer to one request ends the saving of another: the dialog of the first response can be
    closed while it is sent, and its answer then closes the dialog of the next and drops what was
    written there. *)
Lemma late_answer_closes_dialog :
  let p := resolveRequest (types (js "Try again.") (openResponse (entry 1) (acknowledge (entry 2) idle))) in
  let q := types (js "A long answer") (openResponse (entry 3) (closeResponse (answered 0 true p))) in
  resolving q = Some (entry 3) ∧ response q = js "A long answer"
  ∧ resolving (answered 0 true q) = None ∧ response (answered 0 true q) = [].
Proof. by vm_compute. Qed.

(** The same lets a response be sent twice. *)
Lemma response_sent_twice :
  let p := resolveRequest (types (js "Try again.") (openResponse (entry 1) (acknowledge (entry 2) idle))) in
  sent (resolveRequest (answered 0 true p))
  = [Acknowledge 2; Resolve 1 (js "Try again."); Resolve 1 (js "Try again.")].
Proof. by vm_compute. Qed.

End Queue.

(** ** An intervention

    [web/src/pages/admin/InterventionDetail.tsx]. The page shows a record and its recovery plan;
    calls under way are answered in any order, and any answer ends [saving]. *)

Module Intervention.

Inductive Stage := started | contacted | waiting_on_student | monitoring | ended | given_up.
Inductive Outcome := re_engaged | plan_completed | support_resolved | referred | paused | withdrawn | no_change.

#[export] Instance Stage_eq_dec : EqDecision Stage.
Proof. solve_decision. Defined.

(** The statuses [open], [contacted], [waiting_on_student], [monitoring], [resolved], [canceled]. *)
Record Record_ := {
  iid : Z; trigger : Queue.Trigger; stage : Stage; action_summary : option str; next_follow_up_at : option str;
  enrollment : Z; recovery_plan_id : option Z;
}.
Record Plan := { pid : Z; plan_active : bool }.

Inductive Sent :=
| GetRecord (i : Z) | GetPlan (i : Z)
| SaveWorkflow (i : Z) (action follow_up : str)
| SetStage (i : Z) (s : Stage)
| AddNote (i : Z) (body : str)
| Resolve (i : Z) (o : Outcome) (summary : str)
| CreatePlan (enrollment i : Z) (absence : bool) (pace required optional : str) (check_in : option str)
| CheckIn (plan : Z) (body : str).

Record Page := {
  address : Z; record : option Record_; plan : option Plan; loading : bool; saving : bool; failed : bool;
  action : str; followUpAt : str; noteBody : str; outcome : Outcome; resolution : str; checkInBody : str;
  showPlanForm : bool; target_pace : str; required_scope : str; optional_scope : str;
  calls : list Sent; sent : list Sent;
}.

Section Dates.
(** [toLocalDateTime], and the text of the date an input names. *)
Context (toLocal : option str → str) (toISO : str → str).

Definition set_record (r : option Record_) (q : option Plan) (p : Page) : Page :=
  {| address := address p; record := r; plan := q; loading := loading p; saving := saving p; failed := failed p;
     action := action p; followUpAt := followUpAt p; noteBody := noteBody p; outcome := outcome p; resolution := resolution p;
     checkInBody := checkInBody p; showPlanForm := showPlanForm p; target_pace := target_pace p;
     required_scope := required_scope p; optional_scope := optional_scope p; calls := calls p; sent := sent p |}.
Definition set_flags (l s f : bool) (p : Page) : Page :=
  {| address := address p; record := record p; plan := plan p; loading := l; saving := s; failed := f;
     action := action p; followUpAt := followUpAt p; noteBody := noteBody p; outcome := outcome p; resolution := resolution p;
     checkInBody := checkInBody p; showPlanForm := showPlanForm p; target_pace := target_pace p;
     required_scope := required_scope p; optional_scope := optional_scope p; calls := calls p; sent := sent p |}.
Definition set_texts (a f n r c : str) (p : Page) : Page :=
  {| address := address p; record := record p; plan := plan p; loading := loading p; saving := saving p; failed := failed p;
     action := a; followUpAt := f; noteBody := n; outcome := outcome p; resolution := r;
     checkInBody := c; showPlanForm := showPlanForm p; target_pace := target_pace p;
     required_scope := required_scope p; optional_scope := optional_scope p; calls := calls p; sent := sent p |}.
Definition set_outcome (o : Outcome) (p : Page) : Page :=
  {| address := address p; record := record p; plan := plan p; loading := loading p; saving := saving p; failed := failed p;
     action := action p; followUpAt := followUpAt p; noteBody := noteBody p; outcome := o; resolution := resolution p;
     checkInBody := checkInBody p; showPlanForm := showPlanForm p; target_pace := target_pace p;
     required_scope := required_scope p; optional_scope := optional_scope p; calls := calls p; sent := sent p |}.
Definition set_form (b : bool) (x y z : str) (p : Page) : Page :=
  {| address := address p; record := record p; plan := plan p; loading := loading p; saving := saving p; failed := failed p;
     action := action p; followUpAt := followUpAt p; noteBody := noteBody p; outcome := outcome p; resolution := resolution p;
     checkInBody := checkInBody p; showPlanForm := b; target_pace := x; required_scope := y; optional_scope := z;
     calls := calls p; sent := sent p |}.
Definition set_calls (c s : list Sent) (p : Page) : Page :=
  {| address := address p; record := record p; plan := plan p; loading := loading p; saving := saving p; failed := failed p;
     action := action p; followUpAt := followUpAt p; noteBody := noteBody p; outcome := outcome p; resolution := resolution p;
     checkInBody := checkInBody p; showPlanForm := showPlanForm p; target_pace := target_pace p;
     required_scope := required_scope p; optional_scope := optional_scope p; calls := c; sent := s |}.

Definition send (s : Sent) (p : Page) : Page := set_calls (calls p ++ [s]) (sent p ++ [s]) p.
Definition save (s : Sent) (p : Page) : Page := send s (set_flags (loading p) true (failed p) p).

(** *** Loading *)

Definition load (p : Page) : Page :=
  if 0 <? address p then send (GetRecord (address p)) (set_flags (loading p) (saving p) false p)
  else set_flags false (saving p) true p.

Definition record_loaded (a : option Record_) (p : Page) : Page :=
  match a with
  | None => set_flags false (saving p) true p
  | Some r =>
      let p := set_texts (default [] (action_summary r)) (toLocal (next_follow_up_at r)) (noteBody p) (resolution p) (checkInBody p)
                 (set_record (Some r) (plan p) p) in
      match recovery_plan_id r with
      | Some i => send (GetPlan i) p
      | None => set_flags false (saving p) (failed p) (set_record (Some r) None p)
      end
  end.

Definition plan_loaded (a : option Plan) (p : Page) : Page :=
  set_flags false (saving p) (failed p) (set_record (record p) (match a with Some q => Some q | None => plan p end) p).

(** *** Handlers

    The forms are there while a record is shown that has not ended; their buttons are disabled
    while something is saved. The choice of the status is not. *)
Definition shown (p : Page) : option Record_ := if loading p || failed p then None else record p.

Definition terminal (r : Record_) : bool := bool_decide (stage r = ended) || bool_decide (stage r = given_up).

Definition current (p : Page) : option Record_ :=
  match shown p with Some r => if terminal r then None else Some r | None => None end.

Definition saveWorkflow (p : Page) : Page :=
  match current p, followUpAt p with
  | Some r, _ :: _ => if saving p then p else save (SaveWorkflow (iid r) (trim (action p)) (toISO (followUpAt p))) p
  | _, _ => p
  end.

Definition setStatus (s : Stage) (p : Page) : Page :=
  match current p with
  | Some r => if bool_decide (s = stage r) || bool_decide (s = ended) || bool_decide (s = given_up) then p
              else save (SetStage (iid r) s) p
  | None => p
  end.

Definition addNote (p : Page) : Page :=
  match current p, trim (noteBody p) with
  | Some r, c :: w => if saving p then p else save (AddNote (iid r) (c :: w)) p
  | _, _ => p
  end.

Definition resolveIntervention (p : Page) : Page :=
  match current p, trim (resolution p) with
  | Some r, c :: w => if saving p then p else save (Resolve (iid r) (outcome p) (c :: w)) p
  | _, _ => p
  end.

Definition createPlan (p : Page) : Page :=
  match shown p, plan p, trim (target_pace p), trim (required_scope p) with
  | Some r, None, a :: x, b :: y =>
      if saving p || negb (showPlanForm p) then p
      else save (CreatePlan (enrollment r) (iid r) (bool_decide (trigger r = Queue.extended_absence)) (a :: x) (b :: y)
                   (trim (optional_scope p)) (next_follow_up_at r)) p
  | _, _, _, _ => p
  end.

Definition addCheckIn (p : Page) : Page :=
  match shown p, plan p, trim (checkInBody p) with
  | Some _, Some q, c :: w => if saving p || negb (plan_active q) then p else save (CheckIn (pid q) (c :: w)) p
  | _, _, _ => p
  end.

(** *** Answers *)

Inductive Answer := ARecord (r : Record_) | APlan (q : Plan) | ADone.

(** [None] is an error. *)
Definition saved (s : Sent) (a : option Answer) (p0 : Page) : Page :=
  let p := set_flags (loading p0) false (failed p0) p0 in
  match s, a with
  | (SaveWorkflow _ _ _ | SetStage _ _ | Resolve _ _ _), Some (ARecord r) => set_record (Some r) (plan p) p
  | AddNote _ _, Some _ => load (set_texts (action p) (followUpAt p) [] (resolution p) (checkInBody p) p)
  | CreatePlan _ _ _ _ _ _ _, Some (APlan q) =>
      load (set_form false (target_pace p) (required_scope p) (optional_scope p) (set_record (record p) (Some q) p))
  | CheckIn _ _, Some (APlan q) =>
      set_texts (action p) (followUpAt p) (noteBody p) (resolution p) [] (set_record (record p) (Some q) p)
  | _, _ => p
  end.

Definition answered (n : nat) (a : option Answer) (p : Page) : Page :=
  match calls p !! n with
  | None => p
  | Some s =>
      let p := set_calls (delete n (calls p)) (sent p) p in
      match s with
      | GetRecord _ => record_loaded (match a with Some (ARecord r) => Some r | _ => None end) p
      | GetPlan _ => plan_loaded (match a with Some (APlan q) => Some q | _ => None end) p
      | _ => saved s a p
      end
  end.

Inductive event :=
| Retry | Types (a f n r c : str) | Chooses (o : Outcome) | PlanForm (b : bool) (x y z : str)
| SavesWorkflow | SetsStatus (s : Stage) | AddsNote | Resolves | CreatesPlan | ChecksIn
| Answered (n : nat) (a : option Answer).

Definition step (e : event) (p : Page) : Page :=
  match e with
  | Retry => load (set_flags true (saving p) (failed p) p)
  | Types a f n r c => set_texts a f n r c p
  | Chooses o => set_outcome o p
  | PlanForm b x y z => set_form b x y z p
  | SavesWorkflow => saveWorkflow p
  | SetsStatus s => setStatus s p
  | AddsNote => addNote p
  | Resolves => resolveIntervention p
  | CreatesPlan => createPlan p
  | ChecksIn => addCheckIn p
  | Answered n a => answered n a p
  end.

Definition run (es : list event) (p : Page) : Page := fold_left (λ p e, step e p) es p.

(** *** What may be sent *)

Definition about_record (s : Sent) : option Z :=
  match s with
  | SaveWorkflow i _ _ | SetStage i _ | AddNote i _ | Resolve i _ _ => Some i
  | _ => None
  end.

Definition worded (s : Sent) : Prop :=
  match s with
  | AddNote _ b | Resolve _ _ b | CheckIn _ b => b ≠ [] ∧ trim b = b
  | CreatePlan _ _ _ x y _ _ => x ≠ [] ∧ trim x = x ∧ y ≠ [] ∧ trim y = y
  | SetStage _ s => s ≠ ended ∧ s ≠ given_up
  | _ => True
  end.

(** A page sends what its drawing allows. *)
Definition allowed (p : Page) (s : Sent) : Prop :=
  worded s
  ∧ (∀ i, about_record s = Some i → ∃ r, record p = Some r ∧ iid r = i ∧ terminal r = false)
  ∧ (∀ i b, s = CheckIn i b → ∃ q, plan p = Some q ∧ pid q = i ∧ plan_active q = true)
  ∧ (∀ e i b x y z c, s = CreatePlan e i b x y z c → plan p = None ∧ ∃ r, record p = Some r ∧ iid r = i ∧ enrollment r = e).

Lemma trim_clean s c w : trim s = c :: w → c :: w ≠ [] ∧ trim (c :: w) = c :: w.
Proof. intros E. split; [done|]. rewrite <- E. apply trim_idem. Qed.

Lemma current_shown p r : current p = Some r → record p = Some r ∧ terminal r = false.
Proof.
  unfold current, shown. destruct (loading p || failed p); [done|]. destruct (record p) as [q|]; [|done].
  destruct (terminal q) eqn:T; [done|]. by intros [= ->].
Qed.

Lemma shown_record p r : shown p = Some r → record p = Some r.
Proof. unfold shown. by destruct (loading p || failed p). Qed.

Lemma load_sends p : ∃ l, sent (load p) = sent p ++ l ∧ ∀ q, Forall (allowed q) l.
Proof.
  unfold load. destruct (0 <? address p); [|exists []; by rewrite app_nil_r]. eexists. split; [done|].
  intros q. repeat constructor; done.
Qed.

(** What one step sends, as a list. *)
Definition sends (p p' : Page) : Prop := ∃ l, sent p' = sent p ++ l ∧ Forall (allowed p) l.

Lemma sends_none p p' : sent p' = sent p → sends p p'.
Proof. intros E. exists []. by rewrite app_nil_r. Qed.

Lemma sends_one p p' s : sent p' = sent p ++ [s] → allowed p s → sends p p'.
Proof. intros E A. exists [s]. split; [done|]. by constructor. Qed.

Lemma saved_sends s a p : ∃ l, sent (saved s a p) = sent p ++ l ∧ ∀ q, Forall (allowed q) l.
Proof.
  assert (N : ∀ p', sent p' = sent p → ∃ l, sent p' = sent p ++ l ∧ ∀ q, Forall (allowed q) l).
  { intros p' E. exists []. by rewrite app_nil_r. }
  unfold saved. destruct s, a as [[r|q| ]|]; try (by apply N).
  all: match goal with |- context [load ?x] => destruct (load_sends x) as (l & E & F); exists l; split; [exact E|exact F] end.
Qed.

Lemma answered_sends n a p : sends p (answered n a p).
Proof.
  unfold answered. destruct (calls p !! n) as [s|]; [|by apply sends_none]. set (q := set_calls _ _ p).
  assert (G : sends p (saved s a q)).
  { destruct (saved_sends s a q) as (l & E & F). exists l. split; [exact E|apply F]. }
  destruct s; try exact G.
  destruct a as [[r| | ]|]; cbn [record_loaded]; try (by apply sends_none).
  destruct (recovery_plan_id r); [|by apply sends_none]. eapply sends_one; [done|]. by repeat split.
Qed.

Lemma allowed_record p s r : worded s → about_record s = Some (iid r) → current p = Some r → allowed p s.
Proof.
  intros W A [C1 C2]%current_shown. split; [done|]. split; [intros i H; exists r; split; [done|]; split; congruence|].
  split; intros; subst; discriminate.
Qed.

Lemma step_sends e p : sends p (step e p).
Proof.
  destruct e; cbn [step]; try (by apply sends_none); [| | | | | | |apply answered_sends].
  - destruct (load_sends (set_flags true (saving p) (failed p) p)) as (l & E & F). exists l. split; [exact E|apply F].
  - unfold saveWorkflow. destruct (current p) as [r|] eqn:C, (followUpAt p); try (by apply sends_none).
    destruct (saving p); [by apply sends_none|]. eapply sends_one; [done|]. by apply (allowed_record p _ r).
  - unfold setStatus. destruct (current p) as [r|] eqn:C; [|by apply sends_none]. destruct (_ || _) eqn:B; [by apply sends_none|].
    apply orb_false_iff in B as [B B3]. apply orb_false_iff in B as [B1 B2]. 
    apply bool_decide_eq_false_1 in B2. apply bool_decide_eq_false_1 in B3.
    eapply sends_one; [done|]. by apply (allowed_record p _ r).
  - unfold addNote. destruct (current p) as [r|] eqn:C, (trim (noteBody p)) as [|c w] eqn:T; try (by apply sends_none).
    destruct (saving p); [by apply sends_none|]. apply trim_clean in T.
    eapply sends_one; [done|]. by apply (allowed_record p _ r).
  - unfold resolveIntervention. destruct (current p) as [r|] eqn:C, (trim (resolution p)) as [|c w] eqn:T; try (by apply sends_none).
    destruct (saving p); [by apply sends_none|]. apply trim_clean in T.
    eapply sends_one; [done|]. by apply (allowed_record p _ r).
  - unfold createPlan. destruct (shown p) as [r|] eqn:C, (plan p) eqn:Q, (trim (target_pace p)) as [|a x] eqn:T1,
      (trim (required_scope p)) as [|b y] eqn:T2; try (by apply sends_none).
    destruct (saving p || _); [by apply sends_none|]. apply shown_record in C. apply trim_clean in T1, T2.
    eapply sends_one; [done|]. split; [cbn [worded]; tauto|]. split; [done|]. split; [done|].
    intros ? ? ? ? ? ? ? [= <- <- <- <- <- <- <-]. split; [done|]. by exists r.
  - unfold addCheckIn. destruct (shown p) as [r|] eqn:C, (plan p) as [q|] eqn:Q, (trim (checkInBody p)) as [|c w] eqn:T;
      try (by apply sends_none).
    destruct (saving p || negb (plan_active q)) eqn:S; [by apply sends_none|]. apply orb_false_iff in S as [_ S].
    apply negb_false_iff in S. apply trim_clean in T. eapply sends_one; [done|]. split; [done|]. split; [done|].
    split; [|done]. intros ? ? [= <- <-]. by exists q.
Qed.

(** Everything the page sends was allowed by the page that was shown: the record it changes is
    the one shown and has not ended, a check-in is for the active plan that is shown, a plan is made
    where there is none, and no text is blank. *)
Lemma intervention_requests_allowed (es : list event) (p : Page) (s : Sent) :
  s ∈ sent (run es p) → s ∈ sent p ∨ ∃ es1 e es2, es = es1 ++ e :: es2 ∧ allowed (run es1 p) s.
Proof.
  revert p. induction es as [|e es IH]; [by left|]. intros p H. destruct (IH (step e p) H) as [I|(es1 & e' & es2 & -> & A)].
  - destruct (step_sends e p) as (l & E & F). rewrite E in I. apply elem_of_app in I as [I|I]; [by left|right].
    rewrite Forall_forall in F. exists [], e, es. split; [done|]. by apply F.
  - right. exists (e :: es1), e', es2. by split.
Qed.

End Dates.

(** *** Examples *)

Definition case (st : Stage) (a : str) : Record_ :=
  {| iid := 4; trigger := Queue.manual; stage := st; action_summary := Some a; next_follow_up_at := Some (js "2026-01-02");
     enrollment := 9; recovery_plan_id := None |}.

Definition page : Page :=
  {| address := 4; record := Some (case started (js "Call")); plan := None; loading := false; saving := false; failed := false;
     action := js "Call"; followUpAt := js "2026-01-02"; noteBody := []; outcome := re_engaged; resolution := []; checkInBody := [];
     showPlanForm := false; target_pace := []; required_scope := []; optional_scope := []; calls := []; sent := [] |}.

(** Adding a note loads the record again, and with it the fields of the workflow: what was
    written there and not saved is lost. *)
Lemma note_discards_workflow :
  let p := run (default []) (λ s, s)
             [Types (js "Call and plan the week") (js "2026-01-05") (js "Called.") [] []; AddsNote;
              Answered 0 (Some ADone); Answered 0 (Some (ARecord (case started (js "Call"))))] page in
  sent p = [AddNote 4 (js "Called."); GetRecord 4] ∧ action p = js "Call" ∧ followUpAt p = js "2026-01-02".
Proof. by vm_compute. Qed.

(** The choice of the status is open while a change is saved; answers that cross leave the page
    with the first status, though the server has the second. *)
Lemma statuses_cross :
  let p := run (default []) (λ s, s)
             [SetsStatus contacted; SetsStatus monitoring; Answered 1 (Some (ARecord (case monitoring (js "Call"))));
              Answered 0 (Some (ARecord (case contacted (js "Call"))))] page in
  sent p = [SetStage 4 contacted; SetStage 4 monitoring] ∧ (stage <$> record p) = Some contacted.
Proof. by vm_compute. Qed.

End Intervention.
