(* ===== verification/TeamManagement.v ===== *)
(** * The team page (web)

    [web/src/pages/admin/TeamManagement.tsx]: the instructors and admins, their invitations, and
    the archive. A handler loads the list again when the server has answered, in the mode of the
    drawing it was called from, and ends when that list is there. *)

From S2P Require Import Prelude.
From S2P Require Import Keyed.

Inductive Mode := Active | Archived.

#[export] Instance Mode_eq_dec : EqDecision Mode.
Proof. solve_decision. Defined.

Record TeamMember := {
  id : Z; email : str; first_name : option str; last_name : option str; role : str; github_username : option str;
  archived : bool; invite_pending : bool;
}.

#[export] Instance TeamMember_eq_dec : EqDecision TeamMember.
Proof. solve_decision. Defined.

Record EditDraft := { d_first : str; d_last : str; d_email : str; d_role : str; d_github : str }.

Inductive Sent :=
| CreateUser (email role : str) (github : option str)
| UpdateUser (i : Z) (first last : option str) (role : str) (github : option str)
| DeleteUser (i : Z) | ResendInvite (i : Z) | UnarchiveUser (i : Z).

(** What a handler does after its list is there. *)
Inductive Finish := Adding | Saving | Deleting | Restoring.

Record Flight := { number : nat; mode : Mode; finish : option Finish }.

(** [lastMode] is the mode of the latest load; a call notes the mode it was made in. *)
Record Page := {
  members : list TeamMember; listLoading : bool; viewMode : Mode; loadRequestId : nat; lastMode : Mode; flights : list Flight;
  showAddModal : bool; addEmail : str; addRole : str; addGithub : str; adding : bool;
  editMember : option TeamMember; editDraft : option EditDraft; saving : bool;
  deleteConfirm : option TeamMember; deleting : bool; restoreConfirm : option TeamMember;
  resendingId : option Z; restoringId : option Z;
  calls : list (Sent * Mode); sent : list Sent;
}.

Definition set_list (l : list TeamMember) (b : bool) (n : nat) (m : Mode) (f : list Flight) (p : Page) : Page :=
  {| members := l; listLoading := b; viewMode := viewMode p; loadRequestId := n; lastMode := m; flights := f;
     showAddModal := showAddModal p; addEmail := addEmail p; addRole := addRole p; addGithub := addGithub p; adding := adding p;
     editMember := editMember p; editDraft := editDraft p; saving := saving p; deleteConfirm := deleteConfirm p;
     deleting := deleting p; restoreConfirm := restoreConfirm p; resendingId := resendingId p; restoringId := restoringId p;
     calls := calls p; sent := sent p |}.
Definition set_view (m : Mode) (p : Page) : Page :=
  {| members := members p; listLoading := listLoading p; viewMode := m; loadRequestId := loadRequestId p; lastMode := lastMode p;
     flights := flights p; showAddModal := showAddModal p; addEmail := addEmail p; addRole := addRole p; addGithub := addGithub p;
     adding := adding p; editMember := editMember p; editDraft := editDraft p; saving := saving p;
     deleteConfirm := deleteConfirm p; deleting := deleting p; restoreConfirm := restoreConfirm p; resendingId := resendingId p;
     restoringId := restoringId p; calls := calls p; sent := sent p |}.
Definition set_add (s : bool) (e r g : str) (b : bool) (p : Page) : Page :=
  {| members := members p; listLoading := listLoading p; viewMode := viewMode p; loadRequestId := loadRequestId p;
     lastMode := lastMode p; flights := flights p; showAddModal := s; addEmail := e; addRole := r; addGithub := g;
     adding := b; editMember := editMember p; editDraft := editDraft p; saving := saving p;
     deleteConfirm := deleteConfirm p; deleting := deleting p; restoreConfirm := restoreConfirm p; resendingId := resendingId p;
     restoringId := restoringId p; calls := calls p; sent := sent p |}.
Definition set_edit (m : option TeamMember) (d : option EditDraft) (b : bool) (p : Page) : Page :=
  {| members := members p; listLoading := listLoading p; viewMode := viewMode p; loadRequestId := loadRequestId p;
     lastMode := lastMode p; flights := flights p; showAddModal := showAddModal p; addEmail := addEmail p; addRole := addRole p;
     addGithub := addGithub p; adding := adding p; editMember := m; editDraft := d; saving := b;
     deleteConfirm := deleteConfirm p; deleting := deleting p; restoreConfirm := restoreConfirm p; resendingId := resendingId p;
     restoringId := restoringId p; calls := calls p; sent := sent p |}.
Definition set_delete (m : option TeamMember) (b : bool) (p : Page) : Page :=
  {| members := members p; listLoading := listLoading p; viewMode := viewMode p; loadRequestId := loadRequestId p;
     lastMode := lastMode p; flights := flights p; showAddModal := showAddModal p; addEmail := addEmail p; addRole := addRole p;
     addGithub := addGithub p; adding := adding p; editMember := editMember p; editDraft := editDraft p; saving := saving p;
     deleteConfirm := m; deleting := b; restoreConfirm := restoreConfirm p; resendingId := resendingId p;
     restoringId := restoringId p; calls := calls p; sent := sent p |}.
Definition set_restore (m : option TeamMember) (r s : option Z) (p : Page) : Page :=
  {| members := members p; listLoading := listLoading p; viewMode := viewMode p; loadRequestId := loadRequestId p;
     lastMode := lastMode p; flights := flights p; showAddModal := showAddModal p; addEmail := addEmail p; addRole := addRole p;
     addGithub := addGithub p; adding := adding p; editMember := editMember p; editDraft := editDraft p; saving := saving p;
     deleteConfirm := deleteConfirm p; deleting := deleting p; restoreConfirm := m; resendingId := s;
     restoringId := r; calls := calls p; sent := sent p |}.
Definition set_calls (c : list (Sent * Mode)) (s : list Sent) (p : Page) : Page :=
  {| members := members p; listLoading := listLoading p; viewMode := viewMode p; loadRequestId := loadRequestId p;
     lastMode := lastMode p; flights := flights p; showAddModal := showAddModal p; addEmail := addEmail p; addRole := addRole p;
     addGithub := addGithub p; adding := adding p; editMember := editMember p; editDraft := editDraft p; saving := saving p;
     deleteConfirm := deleteConfirm p; deleting := deleting p; restoreConfirm := restoreConfirm p; resendingId := resendingId p;
     restoringId := restoringId p; calls := c; sent := s |}.

Definition send (s : Sent) (p : Page) : Page := set_calls (calls p ++ [(s, viewMode p)]) (sent p ++ [s]) p.

(** ** The list *)

Definition in_mode (m : Mode) (x : TeamMember) : bool :=
  match m with Archived => archived x | Active => negb (archived x) end.

Definition loadTeam (m : Mode) (f : option Finish) (p : Page) : Page :=
  let requestId := S (loadRequestId p) in
  set_list (members p) true requestId m (flights p ++ [{| number := requestId; mode := m; finish := f |}]) p.

Definition finished (f : option Finish) (p : Page) : Page :=
  match f with
  | None => p
  | Some Adding => set_add (showAddModal p) (addEmail p) (addRole p) (addGithub p) false p
  | Some Saving => set_edit (editMember p) (editDraft p) false p
  | Some Deleting => set_delete None false p
  | Some Restoring => set_restore None None (resendingId p) p
  end.

(** The two lists of users; one that could not be loaded is taken as empty. *)
Definition team_loaded (n : nat) (admins instructors : option (list TeamMember)) (p : Page) : Page :=
  match flights p !! n with
  | None => p
  | Some f =>
      let p := set_list (members p) (listLoading p) (loadRequestId p) (lastMode p) (delete n (flights p)) p in
      finished (finish f)
        (if Nat.eqb (loadRequestId p) (number f)
         then set_list (List.filter (in_mode (mode f)) (default [] admins ++ default [] instructors)) false
                (loadRequestId p) (lastMode p) (flights p) p
         else p)
  end.

Definition setViewMode (m : Mode) (p : Page) : Page :=
  if bool_decide (m = viewMode p) then p else loadTeam m None (set_view m p).

(** ** Handlers *)

Definition or_undefined (s : str) : option str := match trim s with [] => None | t => Some t end.

Definition handleAddMember (p : Page) : Page :=
  match trim (addEmail p) with
  | [] => p
  | _ => if adding p || negb (showAddModal p) then p
         else send (CreateUser (toLowerCase (trim (addEmail p))) (addRole p) (or_undefined (addGithub p)))
                (set_add (showAddModal p) (addEmail p) (addRole p) (addGithub p) true p)
  end.

Definition openEdit (m : TeamMember) (p : Page) : Page :=
  if archived m then p
  else set_edit (Some m) (Some {| d_first := default [] (first_name m); d_last := default [] (last_name m); d_email := email m;
                                  d_role := role m; d_github := default [] (github_username m) |}) (saving p) p.

Definition closeEdit (p : Page) : Page := set_edit None None (saving p) p.

Definition edits (d : EditDraft) (p : Page) : Page :=
  match editDraft p with Some _ => set_edit (editMember p) (Some d) (saving p) p | None => p end.

Definition saveEdit (p : Page) : Page :=
  match editDraft p, editMember p with
  | Some d, Some m =>
      if saving p then p
      else send (UpdateUser (id m) (or_undefined (d_first d)) (or_undefined (d_last d)) (d_role d) (or_undefined (d_github d)))
             (set_edit (editMember p) (editDraft p) true p)
  | _, _ => p
  end.

Section User.
Context (currentUser : option Z).

Definition isSelf (m : TeamMember) : bool := bool_decide (currentUser = Some (id m)).

Definition askDelete (m : TeamMember) (p : Page) : Page :=
  if archived m || isSelf m then p else set_delete (Some m) (deleting p) p.

Definition handleDelete (p : Page) : Page :=
  match deleteConfirm p with
  | Some m => if deleting p then p else send (DeleteUser (id m)) (set_delete (deleteConfirm p) true p)
  | None => p
  end.

Definition handleResendInvite (m : TeamMember) (p : Page) : Page :=
  if archived m || negb (invite_pending m) || bool_decide (resendingId p = Some (id m)) then p
  else send (ResendInvite (id m)) (set_restore (restoreConfirm p) (restoringId p) (Some (id m)) p).

Definition askRestore (m : TeamMember) (p : Page) : Page :=
  if negb (archived m) || bool_decide (restoringId p = Some (id m)) then p
  else set_restore (Some m) (restoringId p) (resendingId p) p.

Definition handleRestore (p : Page) : Page :=
  match restoreConfirm p with
  | Some m => if bool_decide (restoringId p = Some (id m)) then p
              else send (UnarchiveUser (id m)) (set_restore (restoreConfirm p) (Some (id m)) (resendingId p) p)
  | None => p
  end.

(** The answer of the server, without an error or with one. *)
Definition answered (n : nat) (ok : bool) (p : Page) : Page :=
  match calls p !! n with
  | None => p
  | Some (s, m) =>
      let p := set_calls (delete n (calls p)) (sent p) p in
      match s with
      | CreateUser _ _ _ => if ok then loadTeam m (Some Adding) (set_add false [] (addRole p) [] (adding p) p) else finished (Some Adding) p
      | UpdateUser _ _ _ _ _ => if ok then loadTeam m (Some Saving) (closeEdit p) else finished (Some Saving) p
      | DeleteUser _ => if ok then loadTeam m (Some Deleting) p else finished (Some Deleting) p
      | ResendInvite _ => set_restore (restoreConfirm p) (restoringId p) None p
      | UnarchiveUser _ => if ok then loadTeam m (Some Restoring) p else finished (Some Restoring) p
      end
  end.

Inductive event :=
| View (m : Mode) | TeamLoaded (n : nat) (a i : option (list TeamMember))
| AddForm (s : bool) (e r g : str) | Add
| Edit (m : TeamMember) | CloseEdit | Draft (d : EditDraft) | Save
| AskDelete (m : TeamMember) | NoDelete | Delete | Resend (m : TeamMember)
| AskRestore (m : TeamMember) | NoRestore | Restore
| Answered (n : nat) (ok : bool).

(** The buttons of a member are those of the list. *)
Definition listed (m : TeamMember) (p : Page) (q : Page) : Page :=
  if bool_decide (m ∈ members p) && negb (listLoading p) then q else p.

Definition step (e : event) (p : Page) : Page :=
  match e with
  | View m => setViewMode m p
  | TeamLoaded n a i => team_loaded n a i p
  | AddForm s e r g => set_add s e r g (adding p) p
  | Add => handleAddMember p
  | Edit m => listed m p (openEdit m p)
  | CloseEdit => closeEdit p
  | Draft d => edits d p
  | Save => saveEdit p
  | AskDelete m => listed m p (askDelete m p)
  | NoDelete => set_delete None (deleting p) p
  | Delete => handleDelete p
  | Resend m => listed m p (handleResendInvite m p)
  | AskRestore m => listed m p (askRestore m p)
  | NoRestore => set_restore None (restoringId p) (resendingId p) p
  | Restore => handleRestore p
  | Answered n ok => answered n ok p
  end.

Definition run (es : list event) (p : Page) : Page := fold_left (λ p e, step e p) es p.

Definition opened : Page :=
  loadTeam Active None
    {| members := []; listLoading := true; viewMode := Active; loadRequestId := 0; lastMode := Active; flights := [];
       showAddModal := false; addEmail := []; addRole := js "instructor"; addGithub := []; adding := false; editMember := None;
       editDraft := None; saving := false; deleteConfirm := None; deleting := false; restoreConfirm := None; resendingId := None;
       restoringId := None; calls := []; sent := [] |}.

(** ** The list that is shown *)

Record list_ok (p : Page) : Prop := {
  l_members : listLoading p = false → Forall (λ m, in_mode (lastMode p) m = true) (members p);
  l_flights : Forall (λ f, number f = loadRequestId p → mode f = lastMode p) (flights p);
  l_bound : Forall (λ f, (number f <= loadRequestId p)%nat) (flights p);
  l_waiting : listLoading p = true → ∃ f, f ∈ flights p ∧ number f = loadRequestId p;
}.

Lemma loadTeam_list m f p : Forall (λ f, (number f <= loadRequestId p)%nat) (flights p) → list_ok (loadTeam m f p).
Proof.
  intros B. split; cbn [loadTeam set_list listLoading flights loadRequestId lastMode members]; [done| | |].
  - apply Forall_app. split; [|by repeat constructor]. apply (Forall_impl _ _ _ B). cbn. lia.
  - apply Forall_app. split; [|by repeat constructor]. apply (Forall_impl _ _ _ B). cbn. lia.
  - intros _. eexists. split; [apply elem_of_app; right; by apply list_elem_of_singleton|done].
Qed.

Lemma finished_list f p : list_ok p → list_ok (finished f p).
Proof. intros [M F B W]. by destruct f as [[]|]; cbn [finished]; split. Qed.

Lemma delete_other (f g : Flight) (n : nat) (l : list Flight) : l !! n = Some f → g ∈ l → f ≠ g → g ∈ delete n l.
Proof.
  intros H I D. rewrite <- (take_drop_middle l n f H) in I. rewrite delete_take_drop.
  apply elem_of_app in I as [I|I]; apply elem_of_app; [by left|right]. apply elem_of_cons in I as [->|I]; [done|exact I].
Qed.

Lemma Forall_delete {A} (P : A → Prop) (n : nat) (l : list A) : Forall P l → Forall P (delete n l).
Proof. intros F. rewrite delete_take_drop. apply Forall_app. split; [by apply Forall_take|by apply Forall_drop]. Qed.

Lemma loaded_list n a i p : list_ok p → list_ok (team_loaded n a i p).
Proof.
  intros [M F B W]. unfold team_loaded. destruct (flights p !! n) as [f|] eqn:E; [|done]. apply finished_list.
  cbn [loadRequestId set_list]. destruct (Nat.eqb_spec (loadRequestId p) (number f)) as [Q|Q].
  - split; cbn [set_list listLoading flights loadRequestId lastMode members]; [|by apply Forall_delete|by apply Forall_delete|done].
    intros _. assert (X : mode f = lastMode p).
    { rewrite Forall_forall in F. apply (F f); [|done]. by eapply list_elem_of_lookup_2. }
    rewrite <- X. apply Forall_forall. intros x [_ H]%elem_of_bfilter. exact H.
  - split; cbn [set_list listLoading flights loadRequestId lastMode members]; [done|by apply Forall_delete|by apply Forall_delete|].
    intros L. destruct (W L) as (g & G1 & G2). exists g. split; [|done]. apply (delete_other f); [done|done|]. intros ->. congruence.
Qed.

(** ** The dialogs *)

Record dialogs_ok (p : Page) : Prop := {
  g_delete : match deleteConfirm p with Some m => archived m = false ∧ isSelf m = false | None => True end;
  g_restore : match restoreConfirm p with Some m => archived m = true | None => True end;
  g_edit : match editMember p with Some m => archived m = false | None => True end;
}.

Definition named (o : option str) : Prop := match o with Some s => s ≠ [] ∧ trim s = s | None => True end.

(** What the page that is shown lets be sent. *)
Definition allowed (p : Page) (s : Sent) : Prop :=
  match s with
  | CreateUser e r g => adding p = false ∧ trim (addEmail p) ≠ [] ∧ e = toLowerCase (trim (addEmail p)) ∧ r = addRole p ∧ named g
  | UpdateUser i f l r g =>
      ∃ m d, editMember p = Some m ∧ editDraft p = Some d ∧ id m = i ∧ archived m = false ∧ r = d_role d
        ∧ named f ∧ named l ∧ named g ∧ saving p = false
  | DeleteUser i => ∃ m, deleteConfirm p = Some m ∧ id m = i ∧ archived m = false ∧ currentUser ≠ Some i ∧ deleting p = false
  | ResendInvite i => ∃ m, m ∈ members p ∧ id m = i ∧ archived m = false ∧ invite_pending m = true
                      ∧ resendingId p ≠ Some i
  | UnarchiveUser i => ∃ m, restoreConfirm p = Some m ∧ id m = i ∧ archived m = true ∧ restoringId p ≠ Some i
  end.

Lemma named_trim s : named (or_undefined s).
Proof.
  unfold or_undefined. destruct (trim s) as [|c w] eqn:E; [done|]. cbn [named]. split; [done|]. rewrite <- E. apply trim_idem.
Qed.

Definition sends (p q : Page) : Prop := sent q = sent p ∨ ∃ s, sent q = sent p ++ [s] ∧ allowed p s.

Lemma finished_dialogs f p : dialogs_ok p → dialogs_ok (finished f p).
Proof. intros [A B C]. by destruct f as [[]|]; cbn [finished]; split. Qed.

Lemma loaded_dialogs n a i p : dialogs_ok p → dialogs_ok (team_loaded n a i p).
Proof.
  intros [A B C]. unfold team_loaded. destruct (flights p !! n); [|by split]. apply finished_dialogs.
  destruct (Nat.eqb _ _); by split.
Qed.

Lemma finished_sent f p : sent (finished f p) = sent p.
Proof. by destruct f as [[]|]. Qed.

Lemma loaded_sent n a i p : sent (team_loaded n a i p) = sent p.
Proof. unfold team_loaded. destruct (flights p !! n); [|done]. rewrite finished_sent. by destruct (Nat.eqb _ _). Qed.

Definition fine (p q : Page) : Prop := list_ok q ∧ dialogs_ok q ∧ sends p q.

Lemma fine_same p q : list_ok q → dialogs_ok q → sent q = sent p → fine p q.
Proof. intros L G S. split; [done|]. split; [done|]. by left. Qed.

Lemma answered_fine n ok p : list_ok p → dialogs_ok p → fine p (answered n ok p).
Proof.
  intros L G. unfold answered. destruct (calls p !! n) as [[s m]|]; [|by apply fine_same].
  assert (X : ∀ f q, list_ok q → dialogs_ok q → sent q = sent p → fine p (finished f q)).
  { intros f q H1 H2 H3. split; [by apply finished_list|]. split; [by apply finished_dialogs|]. left. by rewrite finished_sent. }
  assert (Y : ∀ k f q, list_ok q → dialogs_ok q → sent q = sent p → fine p (loadTeam k f q)).
  { intros k f q H1 [H2 H3 H4] H5. split; [by apply loadTeam_list, H1|]. split; [by split|]. by left. }
  destruct L as [L1 L2 L3 L4], G as [G1 G2 G3].
  destruct s; [destruct ok|destruct ok|destruct ok| |destruct ok]; try (apply Y || apply X; by split).
  split; [by split|]. split; [by split|]. by left.
Qed.

Lemma step_fine e p : list_ok p → dialogs_ok p → fine p (step e p).
Proof.
  intros L G. pose proof (fine_same p p L G eq_refl) as Z.
  assert (D : ∀ q, list_ok q → dialogs_ok q → sent q = sent p → fine p q) by (by intros; apply fine_same).
  assert (H : ∀ m q, (m ∈ members p → fine p q) → fine p (listed m p q)).
  { intros m q Q. unfold listed. destruct (bool_decide (m ∈ members p)) eqn:B; [|done]. apply bool_decide_eq_true_1 in B.
    destruct (listLoading p); [done|]. by apply Q. }
  destruct (L) as [L1 L2 L3 L4], (G) as [G1 G2 G3].
  destruct e as [m|n a i|s e r g| |m| |d| |m| | |m|m| | |n ok]; cbn [step].
  - unfold setViewMode. destruct (bool_decide _); [done|]. apply D; [by apply loadTeam_list|by split|done].
  - apply D; [by apply loaded_list|by apply loaded_dialogs|apply loaded_sent].
  - apply D; by split.
  - unfold handleAddMember. destruct (trim (addEmail p)) as [|c w] eqn:E; [done|]. destruct (adding p) eqn:Ad; [done|].
    destruct (showAddModal p); [cbn [orb negb]|done].
    split; [by split|]. split; [by split|]. right. eexists. split; [done|]. cbn [allowed]. rewrite E.
    do 4 (split; [done|]). apply named_trim.
  - apply H. intros M. unfold openEdit. destruct (archived m) eqn:A; [done|]. apply D; by split.
  - apply D; by split.
  - unfold edits. destruct (editDraft p); [|done]. apply D; by split.
  - unfold saveEdit. destruct (editDraft p) as [d|] eqn:E, (editMember p) as [m|] eqn:F; try done. destruct (saving p) eqn:Sv; [done|].
    split; [by split|]. split; [split; cbn; by rewrite ?F|]. right. eexists. split; [done|]. exists m, d.
    do 5 (split; [done|]). split_and!; [apply named_trim..|done].
  - apply H. intros M. unfold askDelete. destruct (archived m || isSelf m) eqn:A; [done|]. apply orb_false_iff in A.
    apply D; by split.
  - apply D; by split.
  - unfold handleDelete. destruct (deleteConfirm p) as [m|] eqn:E; [|done]. destruct (deleting p) eqn:De; [done|].
    split; [by split|]. split; [split; cbn; by rewrite ?E|]. right. eexists. split; [done|]. exists m. destruct G1 as [G1 S].
    do 3 (split; [done|]). apply bool_decide_eq_false_1 in S. by split.
  - apply H. intros M. unfold handleResendInvite. destruct (archived m) eqn:A, (invite_pending m) eqn:I; try done.
    destruct (bool_decide (resendingId p = _)) eqn:R; [done|]. apply bool_decide_eq_false_1 in R.
    split; [by split|]. split; [by split|]. right. eexists. split; [done|]. by exists m.
  - apply H. intros M. unfold askRestore. destruct (archived m) eqn:A; [|done]. destruct (bool_decide _); [done|]. apply D; by split.
  - apply D; by split.
  - unfold handleRestore. destruct (restoreConfirm p) as [m|] eqn:E; [|done]. destruct (bool_decide (restoringId p = _)) eqn:R; [done|].
    apply bool_decide_eq_false_1 in R. split; [by split|]. split; [split; cbn; by rewrite ?E|]. right. eexists. split; [done|]. by exists m.
  - by apply answered_fine.
Qed.

Lemma run_fine es p :
  list_ok p → dialogs_ok p →
  list_ok (run es p) ∧ dialogs_ok (run es p)
  ∧ ∀ s, s ∈ sent (run es p) → s ∈ sent p ∨ ∃ es1 e es2, es = es1 ++ e :: es2 ∧ allowed (run es1 p) s.
Proof.
  revert p. induction es as [|e es IH]; [intros p L G; split; [done|]; split; [done|]; by left|].
  intros p L G. destruct (step_fine e p L G) as (L' & G' & S). destruct (IH (step e p) L' G') as (L'' & G'' & H).
  split; [done|]. split; [done|]. intros s I. destruct (H s I) as [J|(es1 & e' & es2 & -> & A)].
  - destruct S as [S|(q & S & A)]; rewrite S in J; [by left|]. apply elem_of_app in J as [J|J]; [by left|].
    apply list_elem_of_singleton in J as ->. right. exists [], e, es. by split.
  - right. exists (e :: es1), e', es2. by split.
Qed.

(** ** One at a time *)

Definition kind (s : Sent) : option Finish :=
  match s with
  | CreateUser _ _ _ => Some Adding | UpdateUser _ _ _ _ _ => Some Saving | DeleteUser _ => Some Deleting
  | UnarchiveUser _ => Some Restoring | ResendInvite _ => None
  end.

Definition of_kind (k : Finish) (o : option Finish) : bool :=
  match k, o with
  | Adding, Some Adding | Saving, Some Saving | Deleting, Some Deleting | Restoring, Some Restoring => true
  | _, _ => false
  end.

(** The calls of a kind that are under way, and the lists that are awaited at their end. *)
Definition under_way (k : Finish) (p : Page) : nat :=
  (length (List.filter (λ c, of_kind k (kind c.1)) (calls p))
   + length (List.filter (λ f, of_kind k (finish f)) (flights p)))%nat.

Definition flag (k : Finish) (p : Page) : bool :=
  match k with Adding => adding p | Saving => saving p | Deleting => deleting p | Restoring => bool_decide (is_Some (restoringId p)) end.

Definition busy_ok (p : Page) : Prop :=
  ∀ k, k ≠ Restoring → under_way k p = if flag k p then 1%nat else 0%nat.

Lemma filter_delete {A} (f : A → bool) (n : nat) (l : list A) x :
  l !! n = Some x → length (List.filter f l) = (length (List.filter f (delete n l)) + if f x then 1 else 0)%nat.
Proof.
  intros H. rewrite <- (take_drop_middle l n x H) at 1. rewrite delete_take_drop, !List.filter_app, !length_app. cbn [List.filter].
  destruct (f x); cbn [length]; lia.
Qed.

Lemma filter_length_snoc {A} (f : A → bool) (l : list A) x :
  length (List.filter f (l ++ [x])) = (length (List.filter f l) + if f x then 1 else 0)%nat.
Proof. rewrite List.filter_app, length_app. cbn [List.filter]. by destruct (f x). Qed.

(** What changes neither the calls, the lists under way nor the flags. *)
Lemma busy_same p q :
  calls q = calls p → flights q = flights p → adding q = adding p → saving q = saving p → deleting q = deleting p →
  busy_ok p → busy_ok q.
Proof.
  intros C F A S D B k K. specialize (B k K). unfold under_way in *. rewrite C, F, B. by destruct k; cbn; rewrite ?A, ?S, ?D.
Qed.

(** A call is made while its flag is down, and puts it up. *)
Lemma busy_send s q p :
  calls q = calls p → flights q = flights p →
  (∀ k, k ≠ Restoring → if of_kind k (kind s) then flag k p = false ∧ flag k q = true else flag k q = flag k p) →
  busy_ok p → busy_ok (send s q).
Proof.
  intros C F H B k K. specialize (B k K). specialize (H k K). unfold under_way in *.
  change (flag k (send s q)) with (flag k q). cbn [send set_calls calls flights].
  rewrite filter_length_snoc, C, F. cbn [fst]. destruct (of_kind k (kind s)); [destruct H as [H1 H2]|]; [rewrite H1 in B; rewrite H2|rewrite H]; lia.
Qed.

(** A list arrives. *)
Lemma busy_finished n f q p :
  flights p !! n = Some f → calls q = calls p → flights q = delete n (flights p) →
  adding q = adding p → saving q = saving p → deleting q = deleting p →
  busy_ok p → busy_ok (finished (finish f) q).
Proof.
  intros E C F A S D B k K. specialize (B k K). unfold under_way in B.
  pose proof (filter_delete (λ f, of_kind k (finish f)) n (flights p) f E) as X. rewrite X in B.
  assert (Y : calls (finished (finish f) q) = calls p ∧ flights (finished (finish f) q) = delete n (flights p)
    ∧ flag k (finished (finish f) q) = if of_kind k (finish f) then false else flag k p).
  { destruct (finish f) as [[]|], k; cbn; rewrite ?C, ?F, ?A, ?S, ?D; done. }
  destruct Y as (Y1 & Y2 & Y3). unfold under_way. rewrite Y1, Y2, Y3.
  destruct (of_kind k (finish f)), (flag k p); lia.
Qed.

(** A call is answered with an error: it is over. *)
Lemma busy_refused n s m q p k0 :
  calls p !! n = Some (s, m) → kind s = Some k0 → calls q = delete n (calls p) → flights q = flights p →
  adding q = adding p → saving q = saving p → deleting q = deleting p →
  busy_ok p → busy_ok (finished (Some k0) q).
Proof.
  intros E K0 C F A S D B k K. specialize (B k K). unfold under_way in B.
  pose proof (filter_delete (λ c : Sent * Mode, of_kind k (kind c.1)) n (calls p) _ E) as X. cbn [fst] in X. rewrite X, K0 in B.
  assert (Y : calls (finished (Some k0) q) = delete n (calls p) ∧ flights (finished (Some k0) q) = flights p
    ∧ flag k (finished (Some k0) q) = if of_kind k (Some k0) then false else flag k p).
  { destruct k0, k; cbn; rewrite ?C, ?F, ?A, ?S, ?D; done. }
  destruct Y as (Y1 & Y2 & Y3). unfold under_way. rewrite Y1, Y2, Y3.
  destruct (of_kind k (Some k0)), (flag k p); lia.
Qed.

(** A call is answered: the list is loaded again, and it is over when that is there. *)
Lemma busy_accepted n s m m' q p k0 :
  calls p !! n = Some (s, m) → kind s = Some k0 → calls q = delete n (calls p) → flights q = flights p →
  adding q = adding p → saving q = saving p → deleting q = deleting p →
  busy_ok p → busy_ok (loadTeam m' (Some k0) q).
Proof.
  intros E K0 C F A S D B k K. specialize (B k K). unfold under_way in *.
  pose proof (filter_delete (λ c : Sent * Mode, of_kind k (kind c.1)) n (calls p) _ E) as X. cbn [fst] in X. rewrite X, K0 in B.
  cbn [loadTeam set_list calls flights]. rewrite filter_length_snoc, C, F. cbn [finish].
  replace (flag k (loadTeam m' (Some k0) q)) with (flag k p); [destruct (of_kind k (Some k0)), (flag k p); lia|].
  by destruct k; cbn; rewrite ?A, ?S, ?D.
Qed.

Lemma busy_load m p : busy_ok p → busy_ok (loadTeam m None p).
Proof.
  intros B k K. specialize (B k K). unfold under_way in *. cbn [loadTeam set_list calls flights].
  rewrite filter_length_snoc. replace (flag k (loadTeam m None p)) with (flag k p) by (by destruct k).
  replace (of_kind k (finish {| number := S (loadRequestId p); mode := m; finish := None |})) with false by (by destruct k). lia.
Qed.

Lemma busy_loaded n a i p : busy_ok p → busy_ok (team_loaded n a i p).
Proof.
  intros B. unfold team_loaded. destruct (flights p !! n) as [f|] eqn:E; [|done].
  destruct (Nat.eqb _ _); by eapply (busy_finished n f _ p).
Qed.

Lemma busy_answered n ok p : busy_ok p → busy_ok (answered n ok p).
Proof.
  intros B. unfold answered. destruct (calls p !! n) as [[s m]|] eqn:E; [|done].
  destruct s; cbv zeta; [destruct ok|destruct ok|destruct ok| |destruct ok];
    try (by eapply busy_accepted); try (by eapply busy_refused).
  intros k K. specialize (B k K). unfold under_way in *. cbn [set_restore set_calls calls flights].
  pose proof (filter_delete (λ c : Sent * Mode, of_kind k (kind c.1)) n (calls p) _ E) as X. cbn [fst kind] in X.
  replace (of_kind k None) with false in X by (by destruct k). rewrite X in B.
  replace (flag k (set_restore _ _ _ _)) with (flag k p) by (by destruct k). lia.
Qed.

Lemma step_busy e p : busy_ok p → busy_ok (step e p).
Proof.
  intros B. assert (H : ∀ m q, busy_ok q → busy_ok (listed m p q)) by (intros m q Q; unfold listed; by destruct (_ && _)).
  destruct e as [m|n a i|s e r g| |m| |d| |m| | |m|m| | |n ok]; cbn [step]; try (by eapply (busy_same p)).
  - unfold setViewMode. destruct (bool_decide _); [done|]. by apply busy_load, (busy_same p).
  - by apply busy_loaded.
  - unfold handleAddMember. destruct (trim (addEmail p)); [done|]. destruct (adding p) eqn:A; [done|].
    destruct (showAddModal p); [cbn [orb negb]|done]. apply (busy_send _ _ p); [done|done| |done]. by intros [] K; cbn.
  - apply H. unfold openEdit. destruct (archived m); [done|]. by apply (busy_same p).
  - unfold edits. destruct (editDraft p); [|done]. by apply (busy_same p).
  - unfold saveEdit. destruct (editDraft p), (editMember p); try done. destruct (saving p) eqn:A; [done|].
    apply (busy_send _ _ p); [done|done| |done]. by intros [] K; cbn.
  - apply H. unfold askDelete. destruct (_ || _); [done|]. by apply (busy_same p).
  - unfold handleDelete. destruct (deleteConfirm p); [|done]. destruct (deleting p) eqn:A; [done|].
    apply (busy_send _ _ p); [done|done| |done]. by intros [] K; cbn.
  - apply H. unfold handleResendInvite. destruct (_ || _); [done|].
    apply (busy_send _ _ p); [done|done| |done]. by intros [] K; cbn.
  - apply H. unfold askRestore. destruct (_ || _); [done|]. by apply (busy_same p).
  - unfold handleRestore. destruct (restoreConfirm p) as [m|]; [|done]. destruct (bool_decide _); [done|].
    apply (busy_send _ _ p); [done|done| |done]. by intros [] K; cbn.
  - by apply busy_answered.
Qed.

Lemma run_busy es p : busy_ok p → busy_ok (run es p).
Proof. revert p. induction es as [|e es IH]; [done|]. intros p B. apply IH. by apply step_busy. Qed.

(** ** Lists and their requests *)

(** A list that is asked for is the newest: its number is the next one. *)
Definition numbered (p q : Page) : Prop :=
  ∀ f, f ∈ flights q → f ∈ flights p ∨ number f = S (loadRequestId p) ∧ loadRequestId q = S (loadRequestId p).

(** Only the list of the newest request replaces what is shown. *)
Definition replaces (e : event) (p q : Page) : Prop :=
  match e with
  | TeamLoaded n a i =>
      match flights p !! n with
      | Some f =>
          if decide (number f = loadRequestId p)
          then members q = List.filter (λ m, bool_decide (archived m = match mode f with Archived => true | Active => false end))
                             (default [] a ++ default [] i) ∧ listLoading q = false
          else members q = members p ∧ listLoading q = listLoading p
      | None => q = p
      end
  | _ => members q = members p
  end.

Lemma finished_lists f p :
  members (finished f p) = members p ∧ listLoading (finished f p) = listLoading p
  ∧ flights (finished f p) = flights p ∧ loadRequestId (finished f p) = loadRequestId p.
Proof. by destruct f as [[]|]. Qed.

Lemma in_mode_archived m x : in_mode m x = bool_decide (archived x = match m with Archived => true | Active => false end).
Proof. unfold in_mode. by destruct m, (archived x). Qed.

Lemma elem_of_delete_list {A} (x : A) (n : nat) (l : list A) : x ∈ delete n l → x ∈ l.
Proof.
  rewrite delete_take_drop. intros [H|H]%elem_of_app; [by apply (subseteq_take n l)|by apply (subseteq_drop (S n) l)].
Qed.

Lemma load_numbered m f p q :
  members q = members p → flights q = flights p → loadRequestId q = loadRequestId p →
  members (loadTeam m f q) = members p ∧ numbered p (loadTeam m f q).
Proof.
  intros M F L. split; [done|]. intros g. cbn [loadTeam set_list flights loadRequestId]. rewrite F, L.
  intros [H|H]%elem_of_app; [by left|]. apply list_elem_of_singleton in H as ->. by right.
Qed.

Lemma finished_numbered f p q :
  (∀ g, g ∈ flights q → g ∈ flights p) → members q = members p →
  members (finished f q) = members p ∧ numbered p (finished f q).
Proof.
  intros S M. destruct (finished_lists f q) as (E1 & _ & E3 & _). split; [congruence|].
  intros g. rewrite E3. intros H. left. by apply S.
Qed.

Lemma step_lists e p : replaces e p (step e p) ∧ numbered p (step e p).
Proof.
  assert (N : numbered p p) by (by intros f; left).
  assert (Same : ∀ q, members q = members p → flights q = flights p → members q = members p ∧ numbered p q).
  { intros q M F. split; [done|]. intros f. rewrite F. by left. }
  assert (H : ∀ m q, members q = members p ∧ numbered p q → members (listed m p q) = members p ∧ numbered p (listed m p q)).
  { intros m q Q. unfold listed. by destruct (_ && _). }
  destruct e as [m|n a i|s e r g| |m| |d| |m| | |m|m| | |n ok]; cbn [step replaces]; try (by apply Same).
  - unfold setViewMode. destruct (bool_decide _); [done|]. by apply load_numbered.
  - unfold team_loaded. destruct (flights p !! n) as [f|] eqn:E; [|done].
    set (q := if Nat.eqb _ _ then _ else _). destruct (finished_lists (finish f) q) as (E1 & E2 & E3 & E4).
    assert (F : flights q = delete n (flights p)) by (unfold q; by destruct (Nat.eqb _ _)).
    split; [|intros g; rewrite E3, F; intros G; left; by eapply elem_of_delete_list].
    rewrite E1, E2. unfold q. cbn [loadRequestId set_list]. destruct (Nat.eqb_spec (loadRequestId p) (number f)) as [Q|Q].
    + rewrite decide_True by done. cbn [members listLoading set_list]. split; [|done].
      apply List.filter_ext. intros x. apply in_mode_archived.
    + by rewrite decide_False by congruence.
  - unfold handleAddMember. destruct (trim (addEmail p)); [done|]. destruct (_ || _); [done|]. by apply Same.
  - apply H. unfold openEdit. destruct (archived m); [done|]. by apply Same.
  - unfold edits. destruct (editDraft p); [|done]. by apply Same.
  - unfold saveEdit. destruct (editDraft p), (editMember p); try done. destruct (saving p); [done|]. by apply Same.
  - apply H. unfold askDelete. destruct (_ || _); [done|]. by apply Same.
  - unfold handleDelete. destruct (deleteConfirm p); [|done]. destruct (deleting p); [done|]. by apply Same.
  - apply H. unfold handleResendInvite. destruct (_ || _); [done|]. by apply Same.
  - apply H. unfold askRestore. destruct (_ || _); [done|]. by apply Same.
  - unfold handleRestore. destruct (restoreConfirm p) as [m|]; [|done]. destruct (bool_decide _); [done|]. by apply Same.
  - unfold answered. destruct (calls p !! n) as [[s m]|]; [|done]. cbv zeta.
    destruct s; [destruct ok|destruct ok|destruct ok| |destruct ok];
      first [by apply load_numbered | by apply finished_numbered | by apply Same].
Qed.

(** C35: the team page. Whatever is done, and in whatever order lists and answers arrive: every
    list that is asked for has a higher number than those before it; only the answer to the
    newest request replaces what is shown, by the archived or the active members of its two
    lists, and an older answer changes nothing that is shown; so a list that is shown has only
    members of the mode that was asked for last, and the page waits only while that request is
    on its way. At most one invitation, one change and one deletion are under way at a time,
    their reload included. Nobody is archived who was not confirmed, who is archived already,
    or who is the user; only the archived are restored and only those invited are invited again,
    not while the same is marked as under way for them; and no blank name or address is sent. *)
Theorem team_page_correct (es : list event) (e : event) :
  let p := run es opened in
  replaces e p (step e p) ∧ numbered p (step e p)
  ∧ (listLoading p = false → Forall (λ m, in_mode (lastMode p) m = true) (members p))
  ∧ (listLoading p = true → ∃ f, f ∈ flights p ∧ number f = loadRequestId p ∧ mode f = lastMode p)
  ∧ (under_way Adding p <= 1)%nat ∧ (under_way Saving p <= 1)%nat ∧ (under_way Deleting p <= 1)%nat
  ∧ ∀ s, s ∈ sent p → ∃ es1 e es2, es = es1 ++ e :: es2 ∧ allowed (run es1 opened) s.
Proof.
  intros p. destruct (step_lists e p) as [Rp Nm]. split; [done|]. split; [done|].
  destruct (run_fine es opened) as ([M F B W] & _ & S); [by apply loadTeam_list|by split|].
  fold p in M, F, W, S. split; [done|]. split.
  { intros H. destruct (W H) as (f & F1 & F2). exists f. split; [done|]. split; [done|]. rewrite Forall_forall in F. by apply F. }
  assert (Bu : busy_ok p) by (apply run_busy; by intros [] K).
  split_and!; [rewrite (Bu Adding) by done; destruct (flag _ _); lia
              |rewrite (Bu Saving) by done; destruct (flag _ _); lia
              |rewrite (Bu Deleting) by done; destruct (flag _ _); lia|].
  intros s H. destruct (S s H) as [N|N]; [|done]. by apply not_elem_of_nil in N.
Qed.

End User.

(** *** Examples *)

Definition member (i : Z) (a : bool) : TeamMember :=
  {| id := i; email := js "a@b.c"; first_name := Some (js "Ana"); last_name := None; role := js "instructor";
     github_username := None; archived := a; invite_pending := false |}.

(** The list a handler loads is of the mode it was called in: when the tab is changed while the
    server answers, the active members are shown under the archived ones. *)
Lemma other_tab_shown :
  let p := run (Some 1) [TeamLoaded 0 (Some [member 1 false]) (Some [member 2 false; member 3 true]); AskDelete (member 2 false);
                         Delete; View Archived; TeamLoaded 0 (Some [member 1 false]) (Some [member 3 true]); Answered 0 true;
                         TeamLoaded 0 (Some [member 1 false]) (Some [member 2 true; member 3 true])] opened in
  viewMode p = Archived ∧ listLoading p = false ∧ map id (members p) = [1].
Proof. by vm_compute. Qed.

(** A list that could not be loaded is shown as an empty team. *)
Lemma failed_load_shows_empty :
  let p := run (Some 1) [TeamLoaded 0 None None] opened in listLoading p = false ∧ members p = [].
Proof. by vm_compute. Qed.

(** The dialog of another member, opened while an edit is saved, is closed by its answer. *)
Lemma saved_edit_closes_other :
  let p := run (Some 1) [TeamLoaded 0 (Some [member 1 false]) (Some [member 2 false]); Edit (member 1 false); Save; CloseEdit;
                         Edit (member 2 false)] opened in
  editMember p = Some (member 2 false) ∧ editMember (answered 0 true p) = None.
Proof. by vm_compute. Qed.

(** A name that is deleted is not sent, and stays. *)
Lemma cleared_name_not_sent :
  sent (run (Some 1) [TeamLoaded 0 (Some [member 1 false]) (Some []); Edit (member 1 false);
                      Draft {| d_first := []; d_last := []; d_email := js "new@b.c"; d_role := js "admin"; d_github := [] |};
                      Save] opened)
  = [UpdateUser 1 None None (js "admin") None].
Proof. by vm_compute. Qed.
