(* ===== verification/Recordings.v ===== *)
(** * The recordings of a student (web)

    [web/src/pages/student/Recordings.tsx]: the recordings of a class from two sources, their
    tabs and search, the one that is selected, and the progress its player saves. The page is
    between the player of [VideoProgress] and the help requests of [HelpRequests]. *)

From S2P Require Import Prelude.
From S2P Require Import Url.
From S2P Require Import Json.
From S2P Require Import Keyed.
From S2P Require Import HelpRequests.

(** ** Data *)

Inductive Origin := youtube | external.
Inductive Tab := all | uploaded_tab | youtube_tab | external_tab.

#[export] Instance Origin_eq_dec : EqDecision Origin.
Proof. solve_decision. Defined.

Record Progress := { last_position : Q; total_watched : Q; percentage : Q; completed : bool; last_watched_at : option str }.

(** The fields an answer may have. *)
Record Partial := {
  u_position : option Q; u_watched : option Q; u_percentage : option Q; u_completed : option bool;
  u_watched_at : option (option str);
}.

Record Legacy := {
  l_id : str; l_cohort : option Z; l_title : str; l_url : str; l_date : option str; l_description : option str; l_source : Origin;
}.
Record Uploaded := {
  s_id : Z; s_cohort : option Z; s_title : str; s_description : option str; s_recorded : option str; s_progress : option Progress;
}.
Inductive Item := L (r : Legacy) | S (r : Uploaded).

(** What the server sends: a number or a text as identifier, and a source that may be missing. *)
Inductive ApiSource := a_youtube | a_external | a_uploaded | a_other.
Record Api := {
  a_number : Z; a_text : str; a_cohort : option Z; a_title : str; a_url : option str; a_date : option str;
  a_recorded : option str; a_description : option str; a_source : ApiSource; a_progress : option Progress;
}.
Record Response := {
  items : list Api; recordings : list Api; s3_recordings : list Api; fromCache : bool; error : option str;
}.

Record URL := { hostname : str; pathname : str; search : str }.

Section Platform.

(** [new URL(s)], [None] when it throws. *)
Context (parseUrl : str → option URL).

Definition extractYouTubeId (url : str) : option str :=
  match parseUrl url with
  | None => None
  | Some u =>
      let host := toLowerCase (hostname u) in
      let pathParts := List.filter (λ s, truthy s) (split_on "/" (pathname u)) in
      if includes host (js "youtu.be") then pathParts !! 0%nat
      else if negb (includes host (js "youtube.com")) then None
      else match params_get (search_params (search u)) (js "v") with
           | Some (c :: v) => Some (c :: v)
           | _ => match pathParts !! 0%nat with
                  | Some h => if eqs h (js "embed") || eqs h (js "shorts") || eqs h (js "live") then pathParts !! 1%nat else None
                  | None => None
                  end
           end
  end.

(** ** Loading *)

Definition normalizeLegacyRecording (a : Api) : Legacy :=
  let url := default [] (a_url a) in
  {| l_id := a_text a; l_cohort := a_cohort a; l_title := a_title a; l_url := url;
     l_date := match a_date a with Some d => Some d | None => a_recorded a end; l_description := a_description a;
     l_source := match a_source a with
                 | a_youtube => youtube
                 | a_external => external
                 | _ => match extractYouTubeId url with Some _ => youtube | None => external end
                 end |}.

Definition normalizeUploadedRecording (a : Api) : Uploaded :=
  {| s_id := a_number a; s_cohort := a_cohort a; s_title := a_title a; s_description := a_description a;
     s_recorded := a_recorded a; s_progress := a_progress a |}.

Definition is_uploaded (a : Api) : bool := match a_source a with a_uploaded => true | _ => false end.

(** [flights] are the saves under way, by recording; [answers] those of the list that is shown. *)
Record Page := {
  legacy : list Legacy; s3 : list Uploaded; loading : bool; loadError : option str; showingSavedData : bool;
  selectedItem : option Item; query : str; activeTab : Tab; loads : nat;
  flights : list Z; first_list : list Uploaded; answers : list (Z * Partial);
}.

Definition set_lists (l : list Legacy) (s : list Uploaded) (i : option Item) (p : Page) : Page :=
  {| legacy := l; s3 := s; loading := loading p; loadError := loadError p; showingSavedData := showingSavedData p;
     selectedItem := i; query := query p; activeTab := activeTab p; loads := loads p; flights := flights p;
     first_list := s; answers := [] |}.
Definition set_flags (b : bool) (e : option str) (c : bool) (n : nat) (p : Page) : Page :=
  {| legacy := legacy p; s3 := s3 p; loading := b; loadError := e; showingSavedData := c;
     selectedItem := selectedItem p; query := query p; activeTab := activeTab p; loads := n; flights := flights p;
     first_list := first_list p; answers := answers p |}.
Definition set_choice (i : option Item) (q : str) (t : Tab) (p : Page) : Page :=
  {| legacy := legacy p; s3 := s3 p; loading := loading p; loadError := loadError p; showingSavedData := showingSavedData p;
     selectedItem := i; query := q; activeTab := t; loads := loads p; flights := flights p;
     first_list := first_list p; answers := answers p |}.
Definition set_progress (s : list Uploaded) (f : list Z) (a : list (Z * Partial)) (p : Page) : Page :=
  {| legacy := legacy p; s3 := s; loading := loading p; loadError := loadError p; showingSavedData := showingSavedData p;
     selectedItem := selectedItem p; query := query p; activeTab := activeTab p; loads := loads p; flights := f;
     first_list := first_list p; answers := a |}.

Definition loadRecordings (p : Page) : Page := set_flags true None false (Datatypes.S (loads p)) p.

Definition lists_of (r : Response) : list Legacy * list Uploaded :=
  match items r with
  | [] => (map normalizeLegacyRecording (recordings r), map normalizeUploadedRecording (s3_recordings r))
  | l => (map normalizeLegacyRecording (List.filter (λ a, negb (is_uploaded a)) l),
          map normalizeUploadedRecording (List.filter is_uploaded l))
  end.

(** [first]: an uploaded recording before a linked one. *)
Definition first_item (x : list Legacy * list Uploaded) : option Item :=
  match x.2, x.1 with r :: _, _ => Some (S r) | [], r :: _ => Some (L r) | [], [] => None end.

Definition loaded (a : option Response) (e : str) (p : Page) : Page :=
  match loads p with
  | O => p
  | Datatypes.S n =>
      match a with
      | Some r => set_flags false (if fromCache r then error r else None) (fromCache r) n
                    (set_lists (lists_of r).1 (lists_of r).2 (first_item (lists_of r)) p)
      | None => set_flags false (Some e) (showingSavedData p) n p
      end
  end.

(** ** The list *)

Definition allRecordings (p : Page) : list Item :=
  match activeTab p with
  | uploaded_tab => map S (s3 p)
  | youtube_tab => map L (List.filter (λ r, bool_decide (l_source r = youtube)) (legacy p))
  | external_tab => map L (List.filter (λ r, bool_decide (l_source r = external)) (legacy p))
  | all => map S (s3 p) ++ map L (legacy p)
  end.

Definition title (i : Item) : str := match i with L r => l_title r | S r => s_title r end.
Definition description (i : Item) : option str := match i with L r => l_description r | S r => s_description r end.

Definition filtered (p : Page) : list Item :=
  match toLowerCase (trim (query p)) with
  | [] => allRecordings p
  | q => List.filter (λ r, includes (toLowerCase (title r)) q || includes (toLowerCase (default [] (description r))) q)
           (allRecordings p)
  end.

(** ** Progress *)

Definition NONE : Progress :=
  {| last_position := 0; total_watched := 0; percentage := 0; completed := false; last_watched_at := None |}.

(** [{ ...base, ...data }] *)
Definition merge (d : Partial) (o : option Progress) : Progress :=
  let b := default NONE o in
  {| last_position := default (last_position b) (u_position d); total_watched := default (total_watched b) (u_watched d);
     percentage := default (percentage b) (u_percentage d); completed := default (completed b) (u_completed d);
     last_watched_at := default (last_watched_at b) (u_watched_at d) |}.

Definition with_progress (o : option Progress) (r : Uploaded) : Uploaded :=
  {| s_id := s_id r; s_cohort := s_cohort r; s_title := s_title r; s_description := s_description r; s_recorded := s_recorded r;
     s_progress := o |}.

(** [handleProgressUpdate] of the drawing in which [i] was selected. *)
Definition handleProgressUpdate (i : Z) (d : Partial) (l : list Uploaded) : list Uploaded :=
  map (λ r, if s_id r =? i then with_progress (Some (merge d (s_progress r))) r else r) l.

Definition liveSelectedItem (p : Page) : option Item :=
  match selectedItem p with
  | Some (S r) => match List.find (λ q, s_id q =? s_id r) (s3 p) with Some q => Some (S q) | None => Some (S r) end
  | i => i
  end.

Definition selectedId (p : Page) : option Z :=
  match liveSelectedItem p with Some (S r) => Some (s_id r) | _ => None end.

Definition cohort_of (i : Item) : option Z := match i with L r => l_cohort r | S r => s_cohort r end.

Definition saveSelectedProgress (p : Page) : Page :=
  match selectedId p with
  | Some i => if i =? 0 then p else set_progress (s3 p) (flights p ++ [i]) (answers p) p
  | None => p
  end.

Definition progress_answered (n : nat) (a : option Partial) (p : Page) : Page :=
  match flights p !! n with
  | None => p
  | Some i =>
      match a with
      | Some d => set_progress (handleProgressUpdate i d (s3 p)) (delete n (flights p)) (answers p ++ [(i, d)]) p
      | None => set_progress (s3 p) (delete n (flights p)) (answers p) p
      end
  end.

(** ** Asking for help *)

(** The number after the last hyphen; any other text is read as [NaN], or as 0 when it is
    empty. *)
Definition ordinal (s : str) : option Z :=
  let t := default [] (last (split_on "-" s)) in
  if negb (truthy t) then Some 0 else if forallb is_digit t then Some (digits_value t) else None.

Definition selectedHelpContext (p : Page) : option Context :=
  match liveSelectedItem p with
  | None => None
  | Some i =>
      match cohort_of i with
      | None => None
      | Some c =>
          if c =? 0 then None
          else match i with
               | S r => Some {| ctype := recording; csource := primary; cid := s_id r |}
               | L r => match ordinal (l_id r) with
                        | Some n => if n <? 1 then None else Some {| ctype := recording; csource := HelpRequests.legacy; cid := n - 1 |}
                        | None => None
                        end
               end
      end
  end.

Inductive event :=
| Load | Loaded (a : option Response) (e : str) | Select (i : Item) | Query (q : str) | ChooseTab (t : Tab)
| SaveProgress | ProgressAnswered (n : nat) (a : option Partial).

Definition step (e : event) (p : Page) : Page :=
  match e with
  | Load => loadRecordings p
  | Loaded a e => loaded a e p
  | Select i => set_choice (Some i) (query p) (activeTab p) p
  | Query q => set_choice (selectedItem p) q (activeTab p) p
  | ChooseTab t => set_choice (selectedItem p) (query p) t p
  | SaveProgress => saveSelectedProgress p
  | ProgressAnswered n a => progress_answered n a p
  end.

Definition run (es : list event) (p : Page) : Page := fold_left (λ p e, step e p) es p.

Definition opened : Page :=
  loadRecordings {| legacy := []; s3 := []; loading := true; loadError := None; showingSavedData := false; selectedItem := None;
                    query := []; activeTab := all; loads := 0; flights := []; first_list := []; answers := [] |}.

(** ** What is shown *)

(** What the answers make of a recording: those that were saved for it, in their order. *)
Definition watched (l : list (Z * Partial)) (r : Uploaded) : option Progress :=
  fold_left (λ o a, if a.1 =? s_id r then Some (merge a.2 o) else o) l (s_progress r).

Lemma progress_update_watched i d l m :
  handleProgressUpdate i d (map (λ r, with_progress (watched l r) r) m)
  = map (λ r, with_progress (watched (l ++ [(i, d)]) r) r) m.
Proof.
  unfold handleProgressUpdate. rewrite map_map. apply map_ext. intros r. unfold watched.
  rewrite fold_left_app. cbn. rewrite (Z.eqb_sym i). by destruct (s_id r =? i).
Qed.

Definition progress_ok (p : Page) : Prop := s3 p = map (λ r, with_progress (watched (answers p) r) r) (first_list p).

Lemma watched_nil l : map (λ r, with_progress (watched [] r) r) l = l.
Proof. induction l as [|[] l IH]; [done|]. cbn [map]. by rewrite IH. Qed.

Lemma step_progress e p : progress_ok p → progress_ok (step e p).
Proof.
  intros H. destruct e as [|[r|] e|i|q|t| |n a]; cbn [step]; try done.
  - unfold loaded. destruct (loads p); [done|]. unfold progress_ok. cbn. by rewrite watched_nil.
  - unfold loaded. by destruct (loads p).
  - unfold saveSelectedProgress. destruct (selectedId p) as [i|]; [|done]. by destruct (i =? 0).
  - unfold progress_answered. destruct (flights p !! n) as [i|]; [|done]. destruct a as [d|]; [|done].
    unfold progress_ok in *. cbn [s3 answers first_list set_progress]. rewrite H. apply progress_update_watched.
Qed.

Definition of_tab (t : Tab) (p : Page) : list Item := allRecordings (set_choice (selectedItem p) (query p) t p).

(** A recording is under exactly one of the tabs of the sources. *)
Lemma tabs_partition p : Permutation (of_tab all p) (of_tab uploaded_tab p ++ of_tab youtube_tab p ++ of_tab external_tab p).
Proof.
  unfold of_tab. cbn. apply Permutation_app_head. rewrite <- map_app. apply Permutation_map.
  induction (legacy p) as [|r l IH]; [done|]. cbn [List.filter].
  destruct (l_source r).
  - change (r :: l ≡ₚ r :: (List.filter (λ r, bool_decide (l_source r = youtube)) l
      ++ List.filter (λ r, bool_decide (l_source r = external)) l)). by constructor.
  - change (r :: l ≡ₚ List.filter (λ r, bool_decide (l_source r = youtube)) l
      ++ r :: List.filter (λ r, bool_decide (l_source r = external)) l). rewrite <- Permutation_middle. by constructor.
Qed.

Definition searched (q : str) (i : Item) : Prop :=
  q = [] ∨ includes (toLowerCase (title i)) q = true ∨ includes (toLowerCase (default [] (description i))) q = true.

Lemma filtered_spec p i : i ∈ filtered p ↔ i ∈ allRecordings p ∧ searched (toLowerCase (trim (query p))) i.
Proof.
  unfold filtered, searched. destruct (toLowerCase (trim (query p))) as [|c q]; [naive_solver|].
  rewrite elem_of_bfilter, orb_true_iff. naive_solver.
Qed.

(** The recordings of a student. The list shows, for every recording, the progress it was
    loaded with and then the answers to what was saved for it, in the order they arrived,
    whatever is selected by then; the recording that is selected is shown with that progress;
    every recording is under exactly one tab; and the search shows all that match. *)
Theorem recordings_correct (es : list event) :
  let p := run es opened in
  s3 p = map (λ r, with_progress (watched (answers p) r) r) (first_list p)
  ∧ (∀ r, selectedItem p = Some (S r) → s_id r ∈ map s_id (s3 p) →
      ∃ q, liveSelectedItem p = Some (S q) ∧ q ∈ s3 p ∧ s_id q = s_id r)
  ∧ Permutation (of_tab all p) (of_tab uploaded_tab p ++ of_tab youtube_tab p ++ of_tab external_tab p)
  ∧ ∀ i, i ∈ filtered p ↔ i ∈ allRecordings p ∧ searched (toLowerCase (trim (query p))) i.
Proof.
  intros p. split.
  { unfold p. assert (H : progress_ok opened) by done. revert H. generalize opened.
    induction es as [|e es IH]; [done|]. intros q H. apply IH. by apply step_progress. }
  split; [|split; [apply tabs_partition|apply filtered_spec]].
  intros r E I. unfold liveSelectedItem. rewrite E. apply list_elem_of_fmap in I as (q & Q & I).
  destruct (List.find (λ x, s_id x =? s_id r) (s3 p)) as [x|] eqn:F.
  - apply find_some in F as [F1 F2]. apply Z.eqb_eq in F2. exists x. split; [done|]. split; [by apply list_elem_of_In|done].
  - exfalso. apply list_elem_of_In in I. pose proof (find_none _ _ F q I) as N. cbn in N. apply Z.eqb_neq in N. congruence.
Qed.

(** ** The recording a question is about *)

Lemma split_on_both c a b : split_on c (a ++ c :: b) = split_on c a ++ split_on c b.
Proof.
  induction a as [|d a IH]; cbn [app split_on]; [by rewrite bool_decide_eq_true_2|].
  rewrite IH. destruct (bool_decide (d = c)); [done|]. destruct a as [|e a]; [done|]. cbn [split_on].
  destruct (bool_decide (e = c)); [done|]. by destruct (split_on c a).
Qed.

(** A linked recording is named by its place in the list of its cohort, counted from one, after
    a hyphen; the context of a question counts from zero. *)
Lemma legacy_help_context (p : Page) (r : Legacy) (a : str) (n c : Z) :
  selectedItem p = Some (L r) → l_id r = a ++ "-"%char :: str_of_Z n → 1 <= n → l_cohort r = Some c → c ≠ 0 →
  selectedHelpContext p = Some {| ctype := recording; csource := HelpRequests.legacy; cid := n - 1 |}.
Proof.
  intros S I N C Z. assert (D : Forall (λ c, is_digit c = true) (str_of_Z n)) by (apply str_of_Z_digits; lia).
  assert (W : "-"%char ∉ str_of_Z n).
  { intros H. rewrite Forall_forall in D. by specialize (D _ H). }
  assert (O : ordinal (l_id r) = Some n).
  { unfold ordinal. rewrite I, split_on_both, (split_on_word _ _ W), last_snoc. cbn [default from_option].
    change (Datatypes.id (str_of_Z n)) with (str_of_Z n).
    assert (T : truthy (str_of_Z n) = true) by (pose proof (str_of_Z_nonempty n); by destruct (str_of_Z n)).
    rewrite T, (proj2 (forallb_forall _ _)), digits_value_str; [done|lia|].
    intros y Y. rewrite Forall_forall in D. apply D. by apply list_elem_of_In. }
  unfold selectedHelpContext, liveSelectedItem. rewrite S. cbn [cohort_of]. rewrite C.
  destruct (Z.eqb_spec c 0); [done|]. rewrite O. by destruct (Z.ltb_spec n 1); [lia|].
Qed.

End Platform.
