(* ===== verification/InlineFormat.v ===== *)
(** * The text of a message as it is shown

    [formatInline] of [web/src/pages/shared/Messages.tsx] and of
    [mobile/src/components/formatted-message.tsx]: code, links, styles and mentions inside a
    paragraph. What both have in common is proved for a class of clients; they differ in how they
    find links, normalize them and show mentions. *)

From S2P Require Import Prelude.
From S2P Require Import Regex.
From S2P Require Import Links.
From S2P Require Import Mentions.

(** ** Nodes *)

Inductive Style := bold | italic | strike | underline.

Inductive Node :=
| Text (s : str) | Mentioned (s : str) | Code (s : str)
| Styled (st : Style) (l : list Node) | Link (href : str) (l : list Node) | NoLink (l : list Node).

Fixpoint hrefs (n : Node) : list str :=
  match n with
  | Text _ | Mentioned _ | Code _ => []
  | Styled _ l | NoLink l => flat_map hrefs l
  | Link h l => h :: flat_map hrefs l
  end.

Definition mark (st : Style) : str :=
  match st with bold => js "**" | italic => js "_" | strike => js "~~" | underline => js "++" end.

(** ** Patterns *)

Definition not_char (c d : ascii) : bool := negb (bool_decide (d = c)).

(** [/`[^`]+`/] *)
Definition CODE : matcher := seq (lit (js "`")) (seq (plus (not_char "`")) (lit (js "`"))).

(** [/\*\*[^*]+\*\*|_[^_]+_|~~[^~]+~~|\+\+[^+]+\+\+/] *)
Definition between (w : str) (c : ascii) : matcher := seq (lit w) (seq (plus (not_char c)) (lit w)).
Definition STYLED : matcher :=
  alt (between (js "**") "*") (alt (between (js "_") "_") (alt (between (js "~~") "~") (between (js "++") "+"))).

(** [/https?:\/\/[^\s<]+|www\.[^\s<]+/i] *)
Definition link_char (c : ascii) : bool := negb (is_space c) && not_char "<" c.
Definition scheme : matcher := seq (lit_lower (js "http")) (seq (opt (lit_lower (js "s"))) (lit (js "://"))).
Definition BARE : matcher := alt (seq scheme (plus link_char)) (seq (lit_lower (js "www.")) (plus link_char)).

(** [/\[([^\]]+)\]\(/] and the address with its parenthesis *)
Definition OPENER : matcher := seq (lit (js "[")) (seq (group 1 (plus (not_char "]"))) (lit (js "]("))).
Definition address_char (c : ascii) : bool := negb (is_space c) && not_char ")" c.
Definition ADDRESS : matcher := seq (group 2 (plus address_char)) (lit (js ")")).

(** [nestedFormatPattern] *)
Definition NESTED : matcher :=
  alt STYLED (alt CODE (alt (seq OPENER ADDRESS) (alt scheme (lit_lower (js "www."))))).

(** ** Finding all matches

    A pattern with the flag [g], executed until it fails: the text before each match with the
    match, and the text after the last. Every match takes a character, so the length of the text
    is enough fuel. *)
Fixpoint scan (fuel : nat) (m : matcher) (r : str) : list (str * str) * str :=
  match fuel with
  | O => ([], r)
  | S fuel =>
      match exec m r with
      | None => ([], r)
      | Some (s, e) =>
          let x := scan fuel m (rest e) in
          ((take (length r - length (rest s)) r, consumed s e) :: x.1, x.2)
      end
  end.

(** ** Links *)

Record Found := { skipped : str; matched : str; label : option str; address : str; after : str }.

Class Client := {
  mentions : str → list Node;
  (* what is shown of a nested text that has nothing to format *)
  nested_plain : str → option (list Node);
  normalize : str → option str;
  next_link : str → option Found;
}.

Section Format.
Context `{Client}.

(** [renderLinkNode], [appendLink] *)
Definition link_node (l : list Node) (a : str) : Node := match normalize a with Some h => Link h l | None => NoLink l end.

(** ** Formatting

    [nested] is [renderNestedInline]. *)

Definition is_marked (st : Style) (p : str) : bool := startsWith p (mark st) && endsWith p (mark st).
Definition inner (st : Style) (p : str) : str :=
  let n := Z.of_nat (length (mark st)) in slice p n (- n).

Definition piece_nodes (nested : str → list Node) (p : str) : list Node :=
  if negb (truthy p) then []
  else if is_marked bold p then [Styled bold (nested (inner bold p))]
  else if is_marked italic p then [Styled italic (nested (inner italic p))]
  else if is_marked strike p then [Styled strike (nested (inner strike p))]
  else if is_marked underline p then [Styled underline (nested (inner underline p))]
  else mentions p.

(** [chunk.split(/(...)/g)]: the matches are pieces too. *)
Definition pieces (chunk : str) : list str :=
  let x := scan (length chunk) STYLED chunk in flat_map (λ y, [y.1; y.2]) x.1 ++ [x.2].

Definition appendFormattedText (nested : str → list Node) (chunk : str) : list Node :=
  flat_map (piece_nodes nested) (pieces chunk).

Definition text_before (nested : str → list Node) (s : str) : list Node :=
  if truthy s then appendFormattedText nested s else [].

Fixpoint appendTextWithLinks (fuel : nat) (nested : str → list Node) (chunk : str) : list Node :=
  match fuel with
  | O => text_before nested chunk
  | S fuel =>
      match next_link chunk with
      | None => text_before nested chunk
      | Some x =>
          text_before nested (skipped x)
          ++ match label x with
             | Some l => [link_node (nested l) (address x)]
             | None =>
                 let y := splitTrailingUrlPunctuation (address x) in
                 link_node [Text y.1] y.1 :: if truthy y.2 then [Text y.2] else []
             end
          ++ appendTextWithLinks fuel nested (after x)
      end
  end.

Definition links (nested : str → list Node) (chunk : str) : list Node :=
  if truthy chunk then appendTextWithLinks (length chunk) nested chunk else [].

Definition nodes (nested : str → list Node) (text : str) : list Node :=
  let x := scan (length text) CODE text in
  flat_map (λ y, links nested y.1 ++ [Code (slice y.2 1 (-1))]) x.1 ++ links nested x.2.

Fixpoint format (fuel : nat) (text : str) : list Node :=
  match fuel with
  | O => [Text text]
  | S fuel =>
      match nodes (λ v, match nested_plain v with Some l => l | None => format fuel v end) text with
      | [] => mentions text
      | l => l
      end
  end.

(** The nested texts are shorter. *)
Definition formatInline (text : str) : list Node := format (S (length text)) text.

End Format.

(** ** The clients *)

(** Web: a link with its label, or an address. *)
Definition web_next_link (chunk : str) : option Found :=
  match exec (alt (seq OPENER ADDRESS) (group 3 BARE)) chunk with
  | None => None
  | Some (s, e) =>
      Some {| skipped := take (length chunk - length (rest s)) chunk; matched := consumed s e;
              label := if truthy (cap 1 e) then Some (cap 1 e) else None;
              address := if truthy (cap 1 e) then cap 2 e else cap 3 e; after := rest e |}
  end.

Definition web_mentions (ps : list MentionPattern) (v : str) : list Node :=
  map (λ n, match n with Plain s => Text s | Mention _ s => Mentioned s end) (renderTextWithMentions v ps).

Definition Web (ps : list MentionPattern) : Client := {|
  mentions := web_mentions ps;
  nested_plain v := if test NESTED v then None else match findMentionMatches v ps with [] => Some [Text v] | _ => None end;
  normalize a := match normalizeLinkHref a with [] => None | h => Some h end;
  next_link := web_next_link;
|}.

(** Phone: the parentheses of an address are balanced; [acc] is the address so far. *)
Fixpoint closing (depth : nat) (acc r : str) : option (str * str) :=
  match r with
  | [] => None
  | c :: r' =>
      if is_space c then None
      else if bool_decide (c = "("%char) then closing (S depth) (acc ++ [c]) r'
      else if bool_decide (c = ")"%char) then
        match depth with
        | S O | O => Some (acc, r')
        | S d => closing d (acc ++ [c]) r'
        end
      else closing depth (acc ++ [c]) r'
  end.

(** [acc] is the text before [r], from which the opener is searched. *)
Fixpoint nextMarkdownLink (fuel : nat) (acc r : str) : option Found :=
  match fuel with
  | O => None
  | S fuel =>
      match exec OPENER r with
      | None => None
      | Some (s, e) =>
          let skip := acc ++ take (length r - length (rest s)) r in
          match closing 1 [] (rest e) with
          | Some (a, rest') =>
              Some {| skipped := skip; matched := consumed s e ++ a ++ js ")"; label := Some (cap 1 e); address := a; after := rest' |}
          | None =>
              match rest s with
              | c :: r' => nextMarkdownLink fuel (skip ++ [c]) r'
              | [] => None
              end
          end
      end
  end.

Definition bare_link (chunk : str) : option Found :=
  match exec BARE chunk with
  | None => None
  | Some (s, e) => Some {| skipped := take (length chunk - length (rest s)) chunk; matched := consumed s e; label := None;
                           address := consumed s e; after := rest e |}
  end.

Definition nextInlineLink (chunk : str) : option Found :=
  match nextMarkdownLink (length chunk) [] chunk, bare_link chunk with
  | Some m, Some b => if (length (skipped m) <=? length (skipped b))%nat then Some m else Some b
  | Some m, None => Some m
  | None, b => b
  end.

(** [/@everyone(?![\p{L}\p{N}_'-])/iu] *)
Definition EVERYONE : matcher := seq (lit_lower (js "@everyone")) (neg_look (chr name_goes_on)).

Definition everyone_parts (v : str) : list str :=
  let x := scan (length v) EVERYONE v in List.filter truthy (flat_map (λ y, [y.1; y.2]) x.1 ++ [x.2]).

Definition renderMentions (users : list MentionableUser) (v : str) : list Node :=
  flat_map (λ seg : str * bool,
              if seg.2 then [Mentioned seg.1]
              else map (λ p, if eqs (toLowerCase p) (js "@everyone") then Mentioned p else Text p) (everyone_parts seg.1))
    (messageSegments v users).

Definition Phone (parseUrl : str → option URL) (users : list MentionableUser) : Client := {|
  mentions := renderMentions users;
  nested_plain v := if test NESTED v then None else Some (renderMentions users v);
  normalize := normalizeMessageLink parseUrl;
  next_link := nextInlineLink;
|}.

Example web_format_example :
  formatInline (H := Web []) (js "see **the _docs_** at [CSG](csg.org/a), `x_y_z` or https://a.b/c.")
  = [Text (js "see "); Styled bold [Text (js "the "); Styled italic [Text (js "docs")]]; Text (js " at ");
     Link (js "https://csg.org/a") [Text (js "CSG")]; Text (js ", "); Code (js "x_y_z"); Text (js " or ");
     Link (js "https://a.b/c") [Text (js "https://a.b/c")]; Text (js ".")].
Proof. vm_compute. reflexivity. Qed.

(** The two underscores on each side of a name in Python: one is shown as italics, the other is
    lost; a mark that stands alone is not shown at all. *)
Lemma marks_lost :
  formatInline (H := Web []) (js "__init__") = [Styled italic [Text []]; Styled italic [Text (js "init")]; Styled italic [Text []]]
  ∧ formatInline (H := Web []) (js "_") = [Styled italic [Text []]]
  ∧ formatInline (H := Web []) (js "2 ** 3") = [Text (js "2 ** 3")]
  ∧ formatInline (H := Phone (λ _, None) []) (js "**") = [Styled bold (renderMentions [] [])].
Proof. vm_compute. repeat split. Qed.

(** ** Matches and the text around them *)

Lemma search_split m b r s e :
  search m b r = Some (s, e) → ∃ p, r = p ++ rest s ∧ caps s = [] ∧ m s Some = Some e.
Proof.
  revert b. induction r as [|c r IH]; intros b; cbn [search].
  - destruct (m (RState b [] []) Some) eqn:E; [|done]. intros [= <- <-]. by exists [].
  - destruct (m (RState b (c :: r) []) Some) eqn:E; [intros [= <- <-]; by exists []|].
    intros (p & -> & C & M)%IH. by exists (c :: p).
Qed.

(** [m] takes a word of [L]. *)
Definition eats (m : matcher) (L : str → Prop) : Prop := ∀ s e, m s Some = Some e → consumes L s e.

Lemma spec_eats m L : re_spec m (consumes L) → eats m L.
Proof. intros [S _] s e E. apply S in E as (e' & C & [= ->]). exact C. Qed.

Lemma exec_eats m L r s e :
  eats m L → exec m r = Some (s, e) →
  L (consumed s e) ∧ r = take (length r - length (rest s)) r ++ consumed s e ++ rest e ∧ rest s = consumed s e ++ rest e.
Proof.
  intros E (p & R & _ & M)%search_split. destruct (E _ _ M) as (w & W & A & B & _). rewrite (consumed_word s e w B).
  split; [done|]. split; [|done]. rewrite <- A.
  assert (T : take (length r - length (rest s)) r = p).
  { rewrite R at 2. rewrite R at 1. rewrite length_app, Nat.add_sub. apply take_app_length. }
  by rewrite T.
Qed.

Lemma scan_text m L n r : eats m L →
  concat (map (λ y, y.1 ++ y.2) (scan n m r).1) ++ (scan n m r).2 = r ∧ Forall (λ y, L y.2) (scan n m r).1.
Proof.
  intros E. revert r. induction n as [|n IH]; intros r; cbn [scan]; [by split|].
  destruct (exec m r) as [[s e]|] eqn:X; [|by split]. apply (exec_eats m L) in X as (W & R & _); [|done].
  destruct (IH (rest e)) as [T F]. cbn [fst snd map concat]. split; [|by constructor].
  rewrite <- !app_assoc. rewrite T. by rewrite <- R.
Qed.

Lemma flat_pairs (l : list (str * str)) : concat (flat_map (λ y, [y.1; y.2]) l) = concat (map (λ y, y.1 ++ y.2) l).
Proof. induction l as [|[a b] l IH]; [done|]. cbn. by rewrite IH, app_assoc. Qed.


(** *** The words of the patterns *)

Lemma eats_weaken m (L L' : str → Prop) : eats m L → (∀ w, L w → L' w) → eats m L'.
Proof. intros E I s e M. destruct (E s e M) as (w & W & X). exists w. split; [by apply I|done]. Qed.

Lemma code_eats : eats CODE (λ w, ∃ u, w = js "`" ++ u ++ js "`" ∧ u ≠ []).
Proof.
  eapply eats_weaken; [apply spec_eats, seq_consumes; [apply lit_spec|apply seq_consumes; [apply plus_spec|apply lit_spec]]|].
  intros w (a & b & -> & -> & u & d & -> & [U _] & ->). eauto.
Qed.

Lemma between_consumes w c : re_spec (between w c) (consumes (λ v, ∃ u1 u2, v = u1 ++ u2 ∧ u1 = w ∧
  ∃ u3 u4, u2 = u3 ++ u4 ∧ (u3 ≠ [] ∧ Forall (λ d, not_char c d = true) u3) ∧ u4 = w)).
Proof. apply seq_consumes; [apply lit_spec|apply seq_consumes; [apply plus_spec|apply lit_spec]]. Qed.

Lemma styled_eats : eats STYLED (λ _, True).
Proof. eapply eats_weaken; [apply spec_eats; repeat apply alt_consumes; apply between_consumes|done]. Qed.

Lemma lit_lower_spec w : re_spec (lit_lower w) (consumes (λ u, toLowerCase u = w)).
Proof.
  induction w as [|c w IH]; cbn [lit_lower].
  - eapply re_spec_ext; [apply eps_spec|]. intros [b r cs] [b' r' cs']. split.
    + intros [= -> -> ->]. exists []. auto.
    + intros (u & U & H1 & H2 & H3). destruct u; [|done]. cbn in *. congruence.
  - eapply re_spec_ext; [apply seq_consumes; [apply chr_spec|apply IH]|]. intros s s'. split; intros (u & Hu & X).
    + destruct Hu as (? & v & -> & (d & -> & D) & V). apply bool_decide_eq_true in D. exists ([d] ++ v). split; [|done].
      cbn. by rewrite D, <- V.
    + destruct u as [|d u]; [done|]. injection Hu as D U. exists (d :: u). split; [|done]. exists [d], u.
      split_and!; [done| |done]. exists d. by rewrite bool_decide_eq_true_2.
Qed.

Lemma scheme_consumes : ∃ L, re_spec scheme (consumes L).
Proof.
  eexists. apply seq_consumes; [apply lit_lower_spec|]. apply seq_consumes; [|apply lit_spec].
  apply alt_consumes; [apply lit_lower_spec|]. apply (lit_spec []).
Qed.

Lemma bare_eats : eats BARE (λ w, w ≠ []).
Proof.
  destruct scheme_consumes as [L S].
  eapply eats_weaken; [apply spec_eats, alt_consumes; (apply seq_consumes; [|apply plus_spec]); [apply S|apply lit_lower_spec]|].
  intros w [(a & b & -> & _ & [B _])|(a & b & -> & _ & [B _])]; by destruct a.
Qed.

Lemma everyone_eats : eats EVERYONE (λ _, True).
Proof.
  intros s e M. unfold EVERYONE, seq in M. apply (re_sound _ _ (lit_lower_spec _)) in M as (t & (w & _ & T) & M).
  unfold neg_look in M. destruct (chr name_goes_on t Some); [done|]. injection M as <-. by exists w.
Qed.

(** A link with its label, its captures known. *)
Lemma opener_spec s e : OPENER s Some = Some e → caps s = [] →
  ∃ l, l ≠ [] ∧ rest s = js "[" ++ l ++ js "](" ++ rest e ∧ cap 1 e = l ∧ before e = reverse (js "[" ++ l ++ js "](") ++ before s.
Proof.
  intros M C. unfold OPENER in M.
  pose proof (seq_spec _ _ _ _ (lit_spec (js "[")) (seq_spec _ _ _ _ (group_spec 1 _ _ (plus_spec (not_char "]"))) (lit_spec (js "]("))))
    as [S _].
  apply S in M as (e' & (a & (u & -> & U1 & U2 & U3) & b & (t & (l & [L _] & L1 & L2 & L3) & ->) & (v & -> & V1 & V2 & V3)) & [= ->]).
  exists l. cbn [rest before caps] in *. split; [done|]. rewrite U1, L1, V1.
  split; [done|]. rewrite (consumed_word a t l L2) in V3. unfold cap. rewrite V3. split; [by cbn|].
  rewrite V2, L2, U2. rewrite !reverse_app, <- !app_assoc. done.
Qed.

(** *** Code is found *)

Lemma tick_word u u' r r' : "`"%char ∉ u → "`"%char ∉ u' → u ++ js "`" ++ r = u' ++ js "`" ++ r' → u = u'.
Proof.
  revert u'. induction u as [|c u IH]; intros [|d u'] U U' E; cbn in E; try done.
  - injection E as <- _. exfalso. apply U'. by left.
  - injection E as -> _. exfalso. apply U. by left.
  - injection E as -> E. f_equal. apply (IH u'); [by apply not_elem_of_cons in U as [_ U]|by apply not_elem_of_cons in U' as [_ U']|exact E].
Qed.

Lemma no_tick u : Forall (λ d, not_char "`" d = true) u ↔ "`"%char ∉ u.
Proof.
  rewrite Forall_forall. unfold not_char. split.
  - intros F I. specialize (F _ I). cbn in F. by rewrite bool_decide_eq_true_2 in F.
  - intros N d I. apply negb_true_iff, bool_decide_eq_false_2. by intros ->.
Qed.

Lemma code_first b a u r : "`"%char ∉ a → u ≠ [] → "`"%char ∉ u →
  ∃ s e, search CODE b (a ++ js "`" ++ u ++ js "`" ++ r) = Some (s, e) ∧ consumed s e = js "`" ++ u ++ js "`".
Proof.
  intros A U N. revert b. induction a as [|c a IH]; intros b.
  - change ([] ++ js "`" ++ u ++ js "`" ++ r) with ("`"%char :: u ++ js "`" ++ r).
    set (s := RState b ("`"%char :: u ++ js "`" ++ r) []).
    assert (R : re_spec CODE (consumes (λ w, ∃ x y, w = x ++ y ∧ x = js "`" ∧
      ∃ y1 y2, y = y1 ++ y2 ∧ (y1 ≠ [] ∧ Forall (λ d, not_char "`" d = true) y1) ∧ y2 = js "`"))).
    { apply seq_consumes; [apply lit_spec|apply seq_consumes; [apply plus_spec|apply lit_spec]]. }
    destruct (re_complete _ _ R s Some (RState (reverse (js "`" ++ u ++ js "`") ++ b) r [])) as [e E]; [|done|].
    { exists (js "`" ++ u ++ js "`"). split; [|split; [cbn; by rewrite <- app_assoc|done]].
      exists (js "`"), (u ++ js "`"). do 2 (split; [done|]). exists u, (js "`"). split; [done|]. split; [|done].
      split; [done|]. by apply no_tick. }
    exists s, e. split; [cbn [search]; fold s; by rewrite E|].
    destruct (spec_eats _ _ R s e E) as (w & (x & y & -> & -> & u' & z & -> & [U' F'] & ->) & Q & B & _).
    rewrite (consumed_word s e _ B). do 2 f_equal.
    unfold s in Q. cbn [rest] in Q. rewrite <- !app_assoc in Q. injection Q as Q.
    symmetry. apply (tick_word u u' r (rest e)); [done|by apply no_tick|exact Q].
  - apply not_elem_of_cons in A as [D A]. cbn [app search].
    assert (F : CODE (RState b (c :: a ++ js "`" ++ u ++ js "`" ++ r) []) Some = None).
    { unfold CODE, seq. cbn [lit js list_ascii_of_string]. unfold seq, chr. cbn [rest].
      by rewrite bool_decide_eq_false_2 by congruence. }
    rewrite F. by apply IH.
Qed.

Lemma link_spec s e : seq OPENER ADDRESS s Some = Some e → caps s = [] →
  ∃ l h, l ≠ [] ∧ rest s = (js "[" ++ l ++ js "](" ++ h ++ js ")") ++ rest e ∧ cap 1 e = l ∧ cap 2 e = h
    ∧ before e = reverse (js "[" ++ l ++ js "](" ++ h ++ js ")") ++ before s.
Proof.
  intros M C.
  pose proof (seq_spec _ _ _ _ (seq_spec _ _ _ _ (lit_spec (js "[")) (seq_spec _ _ _ _ (group_spec 1 _ _ (plus_spec (not_char "]"))) (lit_spec (js "]("))))
    (seq_spec _ _ _ _ (group_spec 2 _ _ (plus_spec address_char)) (lit_spec (js ")")))) as [S _].
  apply S in M as (e' & (o & (a & (u & -> & U1 & U2 & U3) & b & (t & (l & [L _] & L1 & L2 & L3) & ->) & (v & -> & V1 & V2 & V3))
    & g & (t2 & (h & _ & H1 & H2 & H3) & ->) & (x & -> & X1 & X2 & X3)) & [= ->]).
  exists l, h. cbn [rest before caps] in *. split; [done|].
  rewrite (consumed_word a t l L2) in V3. rewrite (consumed_word o t2 h H2) in X3.
  split; [rewrite U1, L1, V1, H1, X1; by rewrite <- !app_assoc|].
  unfold cap. rewrite X3, H3, V3. split; [by cbn|]. split; [by cbn|].
  rewrite X2, H2, V2, L2, U2. rewrite !reverse_app, <- !app_assoc. done.
Qed.

Lemma bare_group_spec s e : group 3 BARE s Some = Some e → caps s = [] →
  ∃ w, w ≠ [] ∧ rest s = w ++ rest e ∧ cap 1 e = [] ∧ cap 3 e = w ∧ before e = reverse w ++ before s.
Proof.
  intros M C. unfold group in M. destruct (BARE s (λ s', Some (RState (before s') (rest s') ((3%nat, consumed s s') :: caps s')))) as [x|] eqn:B;
    [|done]. injection M as <-. destruct scheme_consumes as [L Sc].
  pose proof (alt_consumes _ _ _ _ (seq_consumes _ _ _ _ Sc (plus_spec link_char)) (seq_consumes _ _ _ _ (lit_lower_spec (js "www.")) (plus_spec link_char)))
    as [S _].
  apply S in B as (t & (w & W & R & Bf & Cp) & [= <-]). exists w. cbn [rest before caps] in *.
  split; [by destruct W as [(a & b & -> & _ & [N _])|(a & b & -> & _ & [N _])]; destruct a|].
  split; [done|]. rewrite (consumed_word s t w Bf). unfold cap. cbn [caps]. rewrite Cp, C. by repeat split.
Qed.

(** ** What a client promises *)

Definition leaf (n : Node) : option str := match n with Text s | Mentioned s => Some s | _ => None end.

(** The nodes show the text as it is. *)
Definition plain (v : str) (l : list Node) : Prop := ∃ ws, map leaf l = map Some ws ∧ concat ws = v.

Class ClientLaws (C : Client) : Prop := {
  mentions_plain v : plain v (mentions v);
  nested_law v l : nested_plain v = Some l → plain v l;
  normalize_safe a h : normalize a = Some h → safe_link h;
  next_link_law r x : next_link r = Some x →
    r = skipped x ++ matched x ++ after x ∧ matched x ≠ []
    ∧ match label x with
      | Some l => matched x = js "[" ++ l ++ js "](" ++ address x ++ js ")"
      | None => matched x = address x
      end;
}.

Lemma plain_text v : plain v [Text v].
Proof. exists [v]. split; [done|]. cbn. apply app_nil_r. Qed.

Lemma plain_app a b x y : plain a x → plain b y → plain (a ++ b) (x ++ y).
Proof. intros (u & U & <-) (w & W & <-). exists (u ++ w). rewrite !map_app, U, W, concat_app. done. Qed.

Lemma exec_split r s e m :
  exec m r = Some (s, e) → r = take (length r - length (rest s)) r ++ rest s ∧ caps s = [] ∧ m s Some = Some e.
Proof.
  intros (p & R & C & M)%search_split. split; [|done].
  assert (T : take (length r - length (rest s)) r = p).
  { rewrite R at 2. rewrite R at 1. rewrite length_app, Nat.add_sub. apply take_app_length. }
  by rewrite T.
Qed.

#[export] Instance Web_laws names b : ClientLaws (Web (buildMentionPatterns names b)).
Proof.
  set (ps := buildMentionPatterns names b).
  assert (M : ∀ v, plain v (web_mentions ps v)).
  { intros v. destruct (mentions_highlighted names b v) as [T _]. fold ps in T.
    exists (map node_text (renderTextWithMentions v ps)). split; [|done]. unfold web_mentions. rewrite !map_map.
    apply map_ext. by intros []. }
  split.
  - exact M.
  - intros v l. cbn. destruct (test NESTED v); [done|]. destruct (findMentionMatches v ps); [|done]. intros [= <-]. apply plain_text.
  - intros a h. cbn. destruct (normalizeLinkHref a) as [|c w] eqn:E; [done|]. intros [= <-].
    destruct (normalizeLinkHref_safe a) as [N|N]; [by rewrite E in N|]. by rewrite E in N.
  - intros r x. cbn. unfold web_next_link. destruct (exec _ r) as [[s e]|] eqn:E; [|done]. intros [= <-].
    apply exec_split in E as (R & C & A). cbn [skipped matched label address after]. unfold alt in A.
    destruct (seq OPENER ADDRESS s Some) as [y|] eqn:L.
    + injection A as ->. apply link_spec in L as (l & h & N & Q & C1 & C2 & B); [|done].
      rewrite C1, C2, (consumed_word _ _ _ B). destruct l as [|c l]; [done|]. cbn [truthy].
      split; [by rewrite <- Q|]. by split.
    + apply bare_group_spec in A as (w & N & Q & C1 & C3 & B); [|done]. rewrite C1, C3, (consumed_word _ _ _ B). cbn [truthy].
      split; [by rewrite <- Q|]. by split.
Qed.

Lemma closing_spec d acc r a rest' : closing d acc r = Some (a, rest') → acc ++ r = a ++ js ")" ++ rest'.
Proof.
  revert d acc. induction r as [|c r IH]; intros d acc; cbn [closing]; [done|]. destruct (is_space c); [done|].
  case_bool_decide as P; [intros E; apply IH in E; by rewrite <- app_assoc in E|].
  case_bool_decide as Q.
  - subst c. destruct d as [|[|d]]; [intros [= <- <-]; done|intros [= <- <-]; done|]. intros E. apply IH in E.
    by rewrite <- app_assoc in E.
  - intros E. apply IH in E. by rewrite <- app_assoc in E.
Qed.

Definition found_ok (r : str) (x : Found) : Prop :=
  r = skipped x ++ matched x ++ after x ∧ matched x ≠ []
  ∧ match label x with
    | Some l => matched x = js "[" ++ l ++ js "](" ++ address x ++ js ")"
    | None => matched x = address x
    end.

Lemma nextMarkdownLink_ok n acc r x : nextMarkdownLink n acc r = Some x → found_ok (acc ++ r) x.
Proof.
  revert acc r. induction n as [|n IH]; intros acc r; cbn [nextMarkdownLink]; [done|].
  destruct (exec OPENER r) as [[s e]|] eqn:E; [|done]. apply exec_split in E as (R & C & M).
  destruct (closing 1 [] (rest e)) as [[a rest']|] eqn:K.
  - intros [= <-]. apply closing_spec in K. cbn in K. apply opener_spec in M as (l & N & Q & C1 & B); [|done].
    unfold found_ok. cbn [skipped matched label address after]. rewrite C1, (consumed_word _ _ _ B).
    split; [rewrite R at 1; rewrite Q, K; rewrite <- !app_assoc; done|]. split; [done|]. by rewrite <- !app_assoc.
  - destruct (rest s) as [|c r'] eqn:Q; [done|]. intros H%IH. rewrite R. rewrite <- !app_assoc in H. cbn [app] in H. done.
Qed.

Lemma bare_link_ok r x : bare_link r = Some x → found_ok r x.
Proof.
  unfold bare_link. destruct (exec BARE r) as [[s e]|] eqn:E; [|done]. intros [= <-].
  apply (exec_eats BARE _ _ _ _ bare_eats) in E as (W & R & _). by repeat split.
Qed.

Lemma everyone_plain v :
  plain v (map (λ p, if eqs (toLowerCase p) (js "@everyone") then Mentioned p else Text p) (everyone_parts v)).
Proof.
  exists (everyone_parts v). split; [rewrite map_map; apply map_ext; intros p; by destruct (eqs _ _)|].
  unfold everyone_parts. rewrite concat_truthy, concat_app, flat_pairs. cbn [concat]. rewrite app_nil_r.
  apply (scan_text _ _ _ _ everyone_eats).
Qed.

Lemma renderMentions_plain users v : plain v (renderMentions users v).
Proof.
  rewrite <- (proj2 (mobile_mentions_named v users)) at 1. unfold renderMentions.
  induction (messageSegments v users) as [|[t b] l IH]; [by exists []|]. cbn [map concat flat_map]. apply plain_app; [|done].
  cbn [fst snd]. destruct b; [|apply everyone_plain]. exists [t]. split; [done|]. cbn. apply app_nil_r.
Qed.

Lemma Phone_laws parseUrl users :
  (∀ s u, parseUrl s = Some u → startsWith (href u) (protocol u) = true) → ClientLaws (Phone parseUrl users).
Proof.
  intros P. split.
  - apply renderMentions_plain.
  - intros v l. cbn. destruct (test NESTED v); [done|]. intros [= <-]. apply renderMentions_plain.
  - intros a h. by apply normalizeMessageLink_safe.
  - intros r x. cbn. unfold nextInlineLink.
    destruct (nextMarkdownLink (length r) [] r) as [m|] eqn:M; [apply nextMarkdownLink_ok in M|];
      destruct (bare_link r) as [y|] eqn:B; try apply bare_link_ok in B.
    + destruct (_ <=? _)%nat; by intros [= <-].
    + by intros [= <-].
    + by intros [= <-].
    + done.
Qed.

(** ** What is shown

    The text, piece by piece: as it is, with its mentions; in code; in a style, without the marks
    it begins and ends with; as a link with its label; or as an address. *)
Section Spec.
Context (C : Client) `{!ClientLaws C}.

Inductive Renders : str → list Node → Prop :=
| R_plain v l : plain v l → Renders v l
| R_code u : u ≠ [] → Renders (js "`" ++ u ++ js "`") [Code u]
| R_styled st p l : is_marked st p = true → Renders (inner st p) l → Renders p [Styled st l]
| R_link l a ns : Renders l ns → Renders (js "[" ++ l ++ js "](" ++ a ++ js ")") [link_node ns a]
| R_bare a : Renders a [link_node [Text a] a]
| R_app v w x y : Renders v x → Renders w y → Renders (v ++ w) (x ++ y).

Lemma renders_nil : Renders [] [].
Proof. apply R_plain. by exists []. Qed.

Lemma renders_flat {A} (f : A → str) (g : A → list Node) (l : list A) :
  (∀ a, a ∈ l → Renders (f a) (g a)) → Renders (concat (map f l)) (flat_map g l).
Proof.
  induction l as [|a l IH]; intros R; [apply renders_nil|]. cbn. apply R_app; [apply R; by left|]. apply IH. intros b B.
  apply R. by right.
Qed.

Lemma inner_shorter st p : p ≠ [] → (length (inner st p) < length p)%nat.
Proof.
  intros N. assert (0 < length p)%nat by (destruct p; [done|cbn; lia]). assert (1 <= length (mark st))%nat by (destruct st; cbn; lia).
  unfold inner, slice. rewrite length_take, length_drop. unfold slice_index.
  replace (Z.of_nat (length (mark st)) <? 0) with false by (symmetry; apply Z.ltb_ge; lia). lia.
Qed.

Lemma concat_elem {A} (x : list A) l : x ∈ l → (length x <= length (concat l))%nat.
Proof.
  intros I. induction l as [|y l IH]; [by apply not_elem_of_nil in I|]. cbn. rewrite length_app.
  apply elem_of_cons in I as [->|I]; [lia|]. specialize (IH I). lia.
Qed.

Lemma pieces_text chunk : concat (pieces chunk) = chunk.
Proof.
  unfold pieces. rewrite concat_app, flat_pairs. cbn [concat]. rewrite app_nil_r. apply (scan_text _ _ _ _ styled_eats).
Qed.

Section Nested.
Context (n : nat) (nested : str → list Node).
Context (nested_ok : ∀ v, (length v < n)%nat → Renders v (nested v)).

Lemma piece_renders p : (length p <= n)%nat → Renders p (piece_nodes nested p).
Proof.
  intros L. unfold piece_nodes. destruct p as [|c p]; [apply renders_nil|]. cbn [truthy negb].
  assert (S : ∀ st, is_marked st (c :: p) = true → Renders (c :: p) [Styled st (nested (inner st (c :: p)))]).
  { intros st M. apply R_styled; [done|]. apply nested_ok. pose proof (inner_shorter st (c :: p) ltac:(done)). lia. }
  repeat match goal with |- context [is_marked ?st ?p] => let E := fresh in destruct (is_marked st p) eqn:E; [by apply S|] end.
  apply R_plain, mentions_plain.
Qed.

Lemma formatted_renders chunk : (length chunk <= n)%nat → Renders chunk (appendFormattedText nested chunk).
Proof.
  intros L. rewrite <- (pieces_text chunk) at 1. rewrite <- (map_id (pieces chunk)). apply renders_flat.
  intros p P. apply piece_renders. apply concat_elem in P. rewrite pieces_text in P. lia.
Qed.

Lemma before_renders s : (length s <= n)%nat → Renders s (text_before nested s).
Proof. unfold text_before. destruct s; [intros _; apply renders_nil|apply formatted_renders]. Qed.

Lemma links_renders fuel chunk : (length chunk <= n)%nat → Renders chunk (appendTextWithLinks fuel nested chunk).
Proof.
  revert chunk. induction fuel as [|fuel IH]; intros chunk L; cbn [appendTextWithLinks]; [by apply before_renders|].
  destruct (next_link chunk) as [x|] eqn:E; [|by apply before_renders]. apply next_link_law in E as (R & N & M).
  rewrite R in L |- *. rewrite !length_app in L. apply R_app; [apply before_renders; lia|].
  apply R_app; [|apply IH; lia]. destruct (label x) as [l|].
  - rewrite M in L |- *. rewrite !length_app in L. cbn [length js list_ascii_of_string] in L. apply R_link, nested_ok. lia.
  - rewrite M. destruct (splitTrailingUrlPunctuation (address x)) as [a t] eqn:Q. cbn [fst snd].
    rewrite <- (split_punctuation (address x)), Q. cbn [fst snd].
    change (link_node [Text a] a :: ?r) with ([link_node [Text a] a] ++ r). apply R_app; [apply R_bare|].
    destruct t; [apply renders_nil|apply R_plain, plain_text].
Qed.

Lemma code_inner u : slice (js "`" ++ u ++ js "`") 1 (-1) = u.
Proof.
  unfold slice. set (w := js "`" ++ u ++ js "`").
  assert (L : Z.of_nat (length w) = Z.of_nat (length u) + 2).
  { unfold w. rewrite !length_app. cbn [length js list_ascii_of_string]. lia. }
  assert (E1 : slice_index (Z.of_nat (length w)) 1 = 1%nat) by (unfold slice_index; change (1 <? 0) with false; lia).
  assert (E2 : slice_index (Z.of_nat (length w)) (-1) = S (length u)) by (unfold slice_index; change (-1 <? 0) with true; lia).
  rewrite E1, E2. replace (S (length u) - 1)%nat with (length u) by lia. apply take_app_length.
Qed.

Lemma nodes_renders text : (length text <= n)%nat → Renders text (nodes nested text).
Proof.
  intros L. unfold nodes. destruct (scan_text CODE _ (length text) text code_eats) as [T F].
  set (x := scan (length text) CODE text) in *.
  assert (K : ∀ s, (length s <= n)%nat → Renders s (links nested s)).
  { intros s S. unfold links. destruct s; [apply renders_nil|by apply links_renders]. }
  rewrite <- T at 1. rewrite <- T in L. rewrite length_app in L. apply R_app; [|apply K; lia].
  apply renders_flat. intros [a b] I. rewrite Forall_forall in F. destruct (F _ I) as (u & U & N). cbn [fst snd] in *.
  apply R_app.
  - apply K. assert (X : a ++ b ∈ map (λ y, y.1 ++ y.2) x.1) by (apply list_elem_of_fmap; by exists (a, b)).
    apply concat_elem in X. rewrite length_app in X. lia.
  - rewrite U, code_inner. by apply R_code.
Qed.

End Nested.

Lemma format_renders n text : (length text < n)%nat → Renders text (format n text).
Proof.
  revert text. induction n as [|n IH]; intros text L; [lia|]. cbn [format].
  match goal with |- context [nodes ?f text] => set (nested := f) end.
  assert (N : ∀ v, (length v < n)%nat → Renders v (nested v)).
  { intros v V. unfold nested. destruct (nested_plain v) eqn:P; [by apply R_plain, nested_law|by apply IH]. }
  pose proof (nodes_renders n nested N text ltac:(lia)) as R.
  destruct (nodes nested text); [apply R_plain, mentions_plain|done].
Qed.

(** Only shorter texts are nested, so more fuel changes nothing. *)
Section Same.
Context (n : nat) (f g : str → list Node).
Context (same : ∀ v, (length v < n)%nat → f v = g v).

Lemma flat_map_same {A} (x y : A → list Node) (l : list A) : (∀ a, a ∈ l → x a = y a) → flat_map x l = flat_map y l.
Proof.
  induction l as [|a l IH]; intros E; [done|]. cbn. rewrite (E a) by (by left). f_equal. apply IH. intros b B. apply E. by right.
Qed.

Lemma piece_same p : (length p <= n)%nat → piece_nodes f p = piece_nodes g p.
Proof.
  intros L. unfold piece_nodes. destruct p as [|c p]; [done|]. cbn [truthy negb].
  assert (S : ∀ st, f (inner st (c :: p)) = g (inner st (c :: p))).
  { intros st. apply same. pose proof (inner_shorter st (c :: p) ltac:(done)). lia. }
  by rewrite !S.
Qed.

Lemma before_same s : (length s <= n)%nat → text_before f s = text_before g s.
Proof.
  intros L. unfold text_before. destruct (truthy s); [|done]. apply flat_map_same. intros p P. apply piece_same.
  apply concat_elem in P. rewrite pieces_text in P. lia.
Qed.

Lemma links_same fuel chunk : (length chunk <= n)%nat → appendTextWithLinks fuel f chunk = appendTextWithLinks fuel g chunk.
Proof.
  revert chunk. induction fuel as [|fuel IH]; intros chunk L; cbn [appendTextWithLinks]; [by apply before_same|].
  destruct (next_link chunk) as [x|] eqn:E; [|by apply before_same]. apply next_link_law in E as (R & N & M).
  rewrite R, !length_app in L. rewrite (before_same (skipped x)), (IH (after x)) by lia. do 2 f_equal.
  destruct (label x) as [l|]; [|done]. rewrite M, !length_app in L. cbn [length js list_ascii_of_string] in L.
  by rewrite same by lia.
Qed.

Lemma nodes_same text : (length text <= n)%nat → nodes f text = nodes g text.
Proof.
  intros L. unfold nodes. destruct (scan_text CODE _ (length text) text code_eats) as [T _].
  set (x := scan (length text) CODE text) in *. rewrite <- T, length_app in L.
  assert (K : ∀ s, (length s <= n)%nat → links f s = links g s).
  { intros s S. unfold links. destruct (truthy s); [by apply links_same|done]. }
  rewrite (K x.2) by lia. f_equal. apply flat_map_same. intros [a b] I. cbn [fst snd]. f_equal. apply K.
  assert (X : a ++ b ∈ map (λ y, y.1 ++ y.2) x.1) by (apply list_elem_of_fmap; by exists (a, b)).
  apply concat_elem in X. rewrite length_app in X. lia.
Qed.

End Same.

Lemma format_fuel n m text : (length text < n)%nat → (length text < m)%nat → format n text = format m text.
Proof.
  revert m text. induction n as [|n IH]; intros [|m] text N M; try lia. cbn [format].
  rewrite (nodes_same (length text) _ (λ v, match nested_plain v with Some l => l | None => format m v end)); [done| |lia].
  intros v V. destruct (nested_plain v); [done|]. apply IH; lia.
Qed.

Lemma plain_hrefs v l h : plain v l → h ∉ flat_map hrefs l.
Proof.
  intros (ws & E & _). revert ws E. induction l as [|x l IH]; intros ws E I; [by apply not_elem_of_nil in I|].
  destruct ws as [|w ws]; [done|]. injection E as X E. cbn in I. destruct x; try done; by eapply IH.
Qed.

Lemma link_hrefs l a h : h ∈ flat_map hrefs [link_node l a] → safe_link h ∨ h ∈ flat_map hrefs l.
Proof.
  unfold link_node. destruct (normalize a) as [u|] eqn:N; cbn; rewrite app_nil_r; [|by right].
  intros [->|I]%elem_of_cons; [left; by eapply normalize_safe|by right].
Qed.

Lemma renders_safe v l h : Renders v l → h ∈ flat_map hrefs l → safe_link h.
Proof.
  intros R. induction R as [v l P|u U|st p l M R IH|l a ns R IH|a|v w x y R1 IH1 R2 IH2]; intros I.
  - by apply (plain_hrefs _ _ h) in P.
  - by apply not_elem_of_nil in I.
  - cbn in I. rewrite app_nil_r in I. by apply IH.
  - apply link_hrefs in I as [I|I]; [done|by apply IH].
  - apply link_hrefs in I as [I|I]; [done|by apply not_elem_of_nil in I].
  - rewrite flat_map_app in I. apply elem_of_app in I as [I|I]; [by apply IH1|by apply IH2].
Qed.

Lemma code_shown a u b :
  "`"%char ∉ a → u ≠ [] → "`"%char ∉ u → Code u ∈ formatInline (a ++ js "`" ++ u ++ js "`" ++ b).
Proof.
  intros A U N. unfold formatInline. set (text := a ++ js "`" ++ u ++ js "`" ++ b). cbn [format].
  match goal with |- context [nodes ?f text] => set (nested := f) end.
  assert (I : Code u ∈ nodes nested text).
  { unfold nodes. assert (L : ∃ n, length text = S n).
    { unfold text. rewrite !length_app. cbn [length js list_ascii_of_string]. exists (length a + (length u + S (length b)))%nat. lia. }
    destruct L as [n ->]. cbn [scan]. destruct (code_first [] a u b A U N) as (s & e & E & W).
    fold text in E. unfold exec. rewrite E. cbn [fst snd flat_map]. rewrite W, code_inner.
    apply elem_of_app. left. apply elem_of_app. left. apply elem_of_app. right. by apply list_elem_of_singleton. }
  destruct (nodes nested text); [by apply not_elem_of_nil in I|done].
Qed.

Lemma client_format_correct text :
  Renders text (formatInline text)
  ∧ (∀ a u b, text = a ++ js "`" ++ u ++ js "`" ++ b → "`"%char ∉ a → u ≠ [] → "`"%char ∉ u → Code u ∈ formatInline text)
  ∧ (∀ h, h ∈ flat_map hrefs (formatInline text) → safe_link h)
  ∧ ∀ n, format (S (length text) + n) text = formatInline text.
Proof.
  assert (R : Renders text (formatInline text)) by (apply format_renders; lia).
  split; [done|]. split; [intros a u b ->; apply code_shown|].
  split; [intros h; by apply (renders_safe text)|]. intros n. apply format_fuel; lia.
Qed.

End Spec.

(** C11: both apps show the text of a message, and only that. Whatever is written, what is shown is
    the text piece by piece in its order: as it is, with its mentions; in code; in a style, without
    the marks around it; or as a link, by its label or its address; a nested piece is shown in the
    same way; what stands between the first two backticks is code. Every address that can be opened is a web or mail address. The recursion ends. *)
Theorem inline_format_correct (parseUrl : str → option URL) (users : list MentionableUser) (names : list str) (channel : bool)
    (text : str) :
  (∀ s u, parseUrl s = Some u → startsWith (href u) (protocol u) = true) →
  (let C := Web (buildMentionPatterns names channel) in
   Renders C text (formatInline text)
   ∧ (∀ a u b, text = a ++ js "`" ++ u ++ js "`" ++ b → "`"%char ∉ a → u ≠ [] → "`"%char ∉ u → Code u ∈ formatInline text)
   ∧ (∀ h, h ∈ flat_map hrefs (formatInline text) → safe_link h)
   ∧ ∀ n, format (S (length text) + n) text = formatInline text)
  ∧ (let C := Phone parseUrl users in
     Renders C text (formatInline text)
     ∧ (∀ a u b, text = a ++ js "`" ++ u ++ js "`" ++ b → "`"%char ∉ a → u ≠ [] → "`"%char ∉ u → Code u ∈ formatInline text)
     ∧ (∀ h, h ∈ flat_map hrefs (formatInline text) → safe_link h)
     ∧ ∀ n, format (S (length text) + n) text = formatInline text).
Proof.
  intros P. split; cbv zeta.
  - apply client_format_correct, Web_laws.
  - apply client_format_correct. by apply Phone_laws.
Qed.

(** *** Examples *)

(** A URL parser that takes secure web addresses only. *)
Definition https_only (s : str) : option URL :=
  if startsWith s (js "https://") then Some {| protocol := js "https:"; href := s |} else None.

Lemma inline_format_correct_witness :
  flat_map hrefs (formatInline (H := Phone https_only []) (js "[docs (new)](csg.org/a_(b)) and [x](javascript:1)"))
  = [js "https://csg.org/a_(b)"]
  ∧ ∀ h, h ∈ flat_map hrefs (formatInline (H := Phone https_only []) (js "[docs (new)](csg.org/a_(b)) and [x](javascript:1)")) →
      safe_link h.
Proof.
  split; [vm_compute; reflexivity|].
  assert (P : ∀ s u, https_only s = Some u → startsWith (href u) (protocol u) = true).
  { intros s u. unfold https_only. destruct (startsWith s (js "https://")) eqn:E; [|done]. intros [= <-]. cbn [href protocol].
    apply startsWith_spec in E as [r ->]. apply startsWith_spec. by exists (js "//" ++ r). }
  exact (proj1 (proj2 (proj2 (proj2 (inline_format_correct https_only [] [] true
    (js "[docs (new)](csg.org/a_(b)) and [x](javascript:1)") P))))).
Defined.
