(* ===== verification/StaffLists.v ===== *)
(** * Lists of students and cohorts, and the profile (web)

    [web/src/pages/admin/StudentManagement.tsx] with the presence that arrives over the realtime
    connection, [web/src/pages/admin/CohortManagement.tsx], and
    [web/src/pages/student/Profile.tsx]. *)

From S2P Require Import Prelude.
From S2P Require Import Keyed.
From S2P Require Import CohortDetail.

(** ** Students *)

Module Students.

Inductive ActivityStatus := active | quiet | at_risk | new.
Inductive Filter := all | by_activity (a : ActivityStatus) | by_online | never_signed_in.

#[export] Instance ActivityStatus_eq_dec : EqDecision ActivityStatus.
Proof. solve_decision. Defined.
#[export] Instance Filter_eq_dec : EqDecision Filter.
Proof. solve_decision. Defined.

(** The fields the page compares; the counters of progress are only shown. *)
Record Student := {
  user_id : Z; full_name : str; email : str; github_username : option str;
  last_sign_in_at : option str; last_seen_at : option str; last_activity_at : option str;
}.
Record Group := { cohort_id : Z; students : list Student; ungraded_count : Z }.

(** The dashboard of a server with several cohorts, or with one. *)
Inductive Dashboard := Several (l : list Group) | One (g : Group) | Nothing.

Record Page := { groups : list Group; loading : bool; search : str; filter : Filter; collapsed : gset Z }.

Section Time.
(** The time the page is drawn, and the time presence is compared with. *)
Context (b : Browser) (now presenceNow : Z).

Definition DAY_MS : Z := 1000 * 60 * 60 * 24.

(** A date that cannot be read is older than all others. *)
Definition getActivityStatus (s : Student) : ActivityStatus :=
  match last_activity_at s with
  | None => new
  | Some d =>
      match Date_parse b d with
      | None => at_risk
      | Some t => if now - t <? 2 * DAY_MS then active else if now - t <? 7 * DAY_MS then quiet else at_risk
      end
  end.

Definition signed_in (s : Student) : bool := match last_sign_in_at s with Some (_ :: _) => true | _ => false end.

Definition is_online (s : Student) : bool := bool_decide (presenceStatus b (last_seen_at s) presenceNow = online).

Definition matchesSearch (q : str) (s : Student) : bool :=
  let q := toLowerCase q in
  includes (toLowerCase (full_name s)) q || includes (toLowerCase (email s)) q
  || match github_username s with Some (c :: g) => includes (toLowerCase (c :: g)) q | _ => false end.

Definition matchesFilter (f : Filter) (s : Student) : bool :=
  match f with
  | all => true
  | by_activity a => bool_decide (getActivityStatus s = a)
  | by_online => is_online s
  | never_signed_in => negb (signed_in s)
  end.

Definition matchesFilters (p : Page) (s : Student) : bool := matchesSearch (search p) s && matchesFilter (filter p) s.

Definition allStudents (p : Page) : list Student := flat_map students (groups p).

(** The numbers on the cards, and the rows below. *)
Definition count (f : Filter) (p : Page) : nat := length (List.filter (matchesFilter f) (allStudents p)).

Definition shown_groups (p : Page) : list (Group * list Student) :=
  List.filter (λ x : Group * list Student, negb (bool_decide (x.2 = []) && (truthy (search p) || negb (bool_decide (filter p = all)))))
    (map (λ g, (g, List.filter (matchesFilters p) (students g))) (groups p)).

End Time.

Definition set_groups (l : list Group) (b : bool) (p : Page) : Page :=
  {| groups := l; loading := b; search := search p; filter := filter p; collapsed := collapsed p |}.

Definition loaded (d : Dashboard) (p : Page) : Page :=
  match d with
  | Several l => set_groups l false p
  | One g => set_groups [g] false p
  | Nothing => set_groups (groups p) false p
  end.

Definition seen (u : Z) (at_ : option str) (s : Student) : Student :=
  if user_id s =? u
  then {| user_id := user_id s; full_name := full_name s; email := email s; github_username := github_username s;
          last_sign_in_at := last_sign_in_at s; last_seen_at := at_; last_activity_at := last_activity_at s |}
  else s.

(** An event of the presence channel. *)
Definition onPresence (u : Z) (at_ : option str) (p : Page) : Page :=
  set_groups (map (λ g, {| cohort_id := cohort_id g; students := map (seen u at_) (students g); ungraded_count := ungraded_count g |})
                (groups p)) (loading p) p.

(** A card sets its filter, and takes it back. *)
Definition card (f : Filter) (p : Page) : Page :=
  {| groups := groups p; loading := loading p; search := search p; filter := if bool_decide (filter p = f) then all else f;
     collapsed := collapsed p |}.

Definition toggleCohort (i : Z) (p : Page) : Page :=
  {| groups := groups p; loading := loading p; search := search p; filter := filter p;
     collapsed := if bool_decide (i ∈ collapsed p) then collapsed p ∖ {[i]} else {[i]} ∪ collapsed p |}.

(** *** What is shown *)

Lemma filter_flat_map {A B} (f : B → bool) (g : A → list B) (l : list A) :
  List.filter f (flat_map g l) = flat_map (λ a, List.filter f (g a)) l.
Proof. induction l as [|a l IH]; [done|]. cbn. by rewrite List.filter_app, IH. Qed.

(** The rows that are shown are the students that match, each in its group. *)
Lemma shown_students b now presenceNow p :
  flat_map snd (shown_groups b now presenceNow p) = List.filter (matchesFilters b now presenceNow p) (allStudents p).
Proof.
  unfold shown_groups, allStudents. rewrite filter_flat_map. induction (groups p) as [|g l IH]; [done|]. cbn [map List.filter].
  cbn [flat_map]. rewrite <- IH. cbn [snd].
  destruct (List.filter (matchesFilters b now presenceNow p) (students g)) as [|s r] eqn:E.
  - rewrite bool_decide_eq_true_2 by done. destruct (true && _); cbn [negb]; [done|]. cbn [flat_map snd]. done.
  - rewrite bool_decide_eq_false_2 by done. cbn [andb negb flat_map snd]. done.
Qed.

Lemma search_all s : matchesSearch [] s = true.
Proof. unfold matchesSearch. cbn. by destruct (toLowerCase (full_name s)). Qed.

(** The number on a card is the number of rows it shows. *)
Lemma card_counts b now presenceNow f p :
  search p = [] → filter p ≠ f → length (flat_map snd (shown_groups b now presenceNow (card f p))) = count b now presenceNow f p.
Proof.
  intros S F. rewrite shown_students. unfold count, matchesFilters. cbn [card search filter groups]. rewrite S.
  rewrite bool_decide_eq_false_2 by done. f_equal. change (allStudents (card f p)) with (allStudents p).
  apply List.filter_ext. intros s. by rewrite search_all.
Qed.

(** Every student is active, quiet, at risk or new. *)
Lemma activity_partition b now presenceNow p :
  length (allStudents p) = (count b now presenceNow (by_activity active) p + count b now presenceNow (by_activity quiet) p
    + count b now presenceNow (by_activity at_risk) p + count b now presenceNow (by_activity new) p)%nat.
Proof.
  assert (C : ∀ a s l, length (List.filter (matchesFilter b now presenceNow (by_activity a)) (s :: l)) =
    ((if bool_decide (getActivityStatus b now s = a) then 1 else 0)
     + length (List.filter (matchesFilter b now presenceNow (by_activity a)) l))%nat).
  { intros a s l. cbn [List.filter]. unfold matchesFilter at 1. by destruct (bool_decide _). }
  unfold count. induction (allStudents p) as [|s l IH]; [done|]. rewrite !C. cbn [length]. rewrite IH.
  destruct (getActivityStatus b now s); repeat (case_bool_decide; try done); lia.
Qed.

(** Presence changes what is seen of one student, in every group, and nothing else. *)
Lemma presence_of_student u at_ p s :
  s ∈ allStudents (onPresence u at_ p) ↔ ∃ q, q ∈ allStudents p ∧ s = seen u at_ q.
Proof.
  unfold allStudents, onPresence. cbn [groups set_groups]. induction (groups p) as [|g l IH]; cbn [map flat_map].
  - split; [intros H; by apply not_elem_of_nil in H|intros (q & H & _); by apply not_elem_of_nil in H].
  - rewrite elem_of_app, IH. cbn [students]. rewrite list_elem_of_fmap. setoid_rewrite elem_of_app. naive_solver.
Qed.

Lemma card_twice f p : f ≠ all → filter p = all → card f (card f p) = p.
Proof.
  intros F A. destruct p as [g l s x c]; cbn in *. subst x. unfold card. cbn.
  rewrite (bool_decide_eq_false_2 (all = f)) by congruence. by rewrite bool_decide_eq_true_2.
Qed.

(** An answer of the dashboard replaces presence that arrived before it. *)
Lemma late_dashboard_loses_presence :
  let s := {| user_id := 3; full_name := js "Ana"; email := js "a@b.c"; github_username := None; last_sign_in_at := None;
              last_seen_at := None; last_activity_at := None |} in
  let g := {| cohort_id := 1; students := [s]; ungraded_count := 0 |} in
  let p := {| groups := [g]; loading := true; search := []; filter := all; collapsed := ∅ |} in
  map last_seen_at (allStudents (onPresence 3 (Some (js "now")) p)) = [Some (js "now")]
  ∧ map last_seen_at (allStudents (loaded (One g) (onPresence 3 (Some (js "now")) p))) = [None].
Proof. by vm_compute. Qed.

End Students.

(** ** Cohorts *)

Module Cohorts.

Inductive Status := active | upcoming | completed | archived | other_status.
Inductive StatusFilter := current | inactive | every.

#[export] Instance Status_eq_dec : EqDecision Status.
Proof. solve_decision. Defined.

Record Cohort := { id : Z; status : Status; start_date : str }.
Record Form := { name : str; cohort_type : str; curriculum_id : option Z; f_start : str; f_end : str }.
Record Payload := { p_name : str; p_type : str; p_curriculum : Z; p_start : str; p_end : option str }.

Definition in_filter (f : StatusFilter) (c : Cohort) : bool :=
  match f with
  | every => true
  | current => bool_decide (status c = active) || bool_decide (status c = upcoming)
  | inactive => bool_decide (status c = completed) || bool_decide (status c = archived)
  end.

Definition cohortCounts (l : list Cohort) (f : StatusFilter) : nat := length (List.filter (in_filter f) l).

Definition statusOrder (s : Status) : Z :=
  match s with active => 0 | upcoming => 1 | completed => 2 | archived => 3 | other_status => 99 end.

Section Time.
Context (b : Browser).

(** The difference with a date that cannot be read is not a number, which sorts as 0. *)
Definition by_status (a c : Cohort) : Z :=
  let statusDelta := statusOrder (status a) - statusOrder (status c) in
  if negb (statusDelta =? 0) then statusDelta
  else match Date_parse b (start_date c), Date_parse b (start_date a) with Some t, Some u => t - u | _, _ => 0 end.

Definition visibleCohorts (f : StatusFilter) (l : list Cohort) : list Cohort := js_sort by_status (List.filter (in_filter f) l).

Definition dated (c : Cohort) : Prop := is_Some (Date_parse b (start_date c)).

(** Where the dates can be read, the order is by status and then the latest first. *)
Definition before (a c : Cohort) : Prop :=
  statusOrder (status a) < statusOrder (status c)
  ∨ statusOrder (status a) = statusOrder (status c)
    ∧ default 0 (Date_parse b (start_date c)) <= default 0 (Date_parse b (start_date a)).

Lemma by_status_before a c : dated a → dated c → by_status a c <= 0 ↔ before a c.
Proof.
  intros [t T] [u U]. unfold by_status, before. rewrite T, U.
  change (default 0 (Some t)) with t. change (default 0 (Some u)) with u.
  destruct (Z.eqb_spec (statusOrder (status a) - statusOrder (status c)) 0); cbn [negb]; lia.
Qed.

Lemma by_status_consistent : cmp_consistent by_status dated.
Proof.
  split; intros *.
  - intros X Y Z. rewrite !by_status_before by done. unfold before. lia.
  - intros X Y. rewrite by_status_before by done. destruct X as [t T], Y as [u U]. unfold by_status, before. rewrite T, U.
    change (default 0 (Some t)) with t. change (default 0 (Some u)) with u.
    destruct (Z.eqb_spec (statusOrder (status x) - statusOrder (status y)) 0); cbn [negb]; lia.
Qed.

(** The cohorts that are shown are those of the filter, by their status and then the latest
    first, and there are as many as the tab says. *)
Lemma cohorts_in_order f l :
  Forall dated l →
  visibleCohorts f l ≡ₚ List.filter (in_filter f) l
  ∧ StronglySorted before (visibleCohorts f l)
  ∧ length (visibleCohorts f l) = cohortCounts l f.
Proof.
  intros D. split; [apply js_sort_perm|]. split; [|apply js_sort_length].
  assert (E : Forall dated (List.filter (in_filter f) l)).
  { rewrite Forall_forall in D |- *. intros c. rewrite elem_of_bfilter. naive_solver. }
  assert (V : Forall dated (visibleCohorts f l)) by (unfold visibleCohorts; by rewrite js_sort_perm).
  assert (S := js_sort_sorted by_status dated _ by_status_consistent E). fold (visibleCohorts f l) in S.
  induction S as [|x r S IH F]; constructor; inversion V; subst; [by apply IH|].
  rewrite Forall_forall in F |- *. intros y Hy. apply by_status_before; [done| |by apply F].
  by eapply Forall_forall.
Qed.

End Time.

(** *** Creating one *)

Record Page := { form : Form; showCreate : bool; creating : bool; error : option str; sent : list Payload; opened : option Z }.

Definition handleCreate (p : Page) : Page :=
  match name (form p), curriculum_id (form p), f_start (form p) with
  | _ :: _, Some c, _ :: _ =>
      if c =? 0 then p
      else {| form := form p; showCreate := showCreate p; creating := true; error := None;
              sent := sent p ++ [{| p_name := name (form p); p_type := cohort_type (form p); p_curriculum := c;
                                    p_start := f_start (form p); p_end := match f_end (form p) with [] => None | e => Some e end |}];
              opened := opened p |}
  | _, _, _ => p
  end.

(** The button that submits the form is disabled while a cohort is made. *)
Definition submit_form (p : Page) : Page := if creating p then p else handleCreate p.

(** The new cohort is opened; after an error the form is still there. *)
Definition created (a : option Z) (message : option str) (p : Page) : Page :=
  match a with
  | Some i => {| form := form p; showCreate := showCreate p; creating := creating p; error := error p; sent := sent p; opened := Some i |}
  | None => {| form := form p; showCreate := showCreate p; creating := false;
               error := Some (match message with Some (c :: m) => c :: m | _ => js "Failed to create cohort" end);
               sent := sent p; opened := opened p |}
  end.

(** Once a cohort is made no second one is, and a failed attempt keeps what was typed. *)
Lemma create_once p i m : creating p = true → submit_form (created (Some i) m p) = created (Some i) m p.
Proof. intros C. unfold submit_form. cbn. by rewrite C. Qed.

Lemma failed_create_keeps_form m p : form (created None m (submit_form p)) = form p ∧ creating (created None m (submit_form p)) = false.
Proof.
  split; [|done]. unfold submit_form, handleCreate. destruct (creating p); [done|].
  destruct (name (form p)), (curriculum_id (form p)) as [c|], (f_start (form p)); try done. cbn. by destruct (c =? 0).
Qed.

(** Nothing is sent without a name, a curriculum and a first day, and each press sends once. *)
Lemma sent_complete p :
  creating p = false →
  sent (submit_form p) = sent p ∧ submit_form p = p
  ∨ ∃ d, sent (submit_form p) = sent p ++ [d] ∧ creating (submit_form p) = true
       ∧ p_name d ≠ [] ∧ p_curriculum d ≠ 0 ∧ p_start d ≠ [] ∧ p_end d ≠ Some [].
Proof.
  intros C. unfold submit_form, handleCreate. rewrite C.
  destruct (name (form p)) as [|n0 n] eqn:N; [by left|]. destruct (curriculum_id (form p)) as [c|]; [|by left].
  destruct (f_start (form p)) as [|s0 s] eqn:S; [by left|]. destruct (Z.eqb_spec c 0); [by left|]. right. cbn [sent creating].
  eexists. split; [done|]. split; [done|]. cbn. repeat split; try done. by destruct (f_end (form p)).
Qed.

End Cohorts.

(** ** Profile *)

Module Profile.

Record Blocked := { bid : Z; bname : str }.

Record Page := {
  githubUsername : str; saving : bool; saved : bool;
  timers : nat; (* of two seconds, each of which takes the mark away *)
  emailNotificationsEnabled : option bool; notificationPreferenceError : option str; savingNotifications : bool;
  requestingDeletion : bool; deletionRequested : bool; blockedUsers : list Blocked;
}.

Definition opened : Page :=
  {| githubUsername := []; saving := false; saved := false; timers := 0; emailNotificationsEnabled := None;
     notificationPreferenceError := None; savingNotifications := false; requestingDeletion := false;
     deletionRequested := false; blockedUsers := [] |}.

Definition set_github (g : str) (sv sd : bool) (t : nat) (p : Page) : Page :=
  {| githubUsername := g; saving := sv; saved := sd; timers := t; emailNotificationsEnabled := emailNotificationsEnabled p;
     notificationPreferenceError := notificationPreferenceError p; savingNotifications := savingNotifications p;
     requestingDeletion := requestingDeletion p; deletionRequested := deletionRequested p; blockedUsers := blockedUsers p |}.

Definition set_email (e : option bool) (err : option str) (s : bool) (p : Page) : Page :=
  {| githubUsername := githubUsername p; saving := saving p; saved := saved p; timers := timers p;
     emailNotificationsEnabled := e; notificationPreferenceError := err; savingNotifications := s;
     requestingDeletion := requestingDeletion p; deletionRequested := deletionRequested p; blockedUsers := blockedUsers p |}.

Definition set_deletion (r d : bool) (p : Page) : Page :=
  {| githubUsername := githubUsername p; saving := saving p; saved := saved p; timers := timers p;
     emailNotificationsEnabled := emailNotificationsEnabled p; notificationPreferenceError := notificationPreferenceError p;
     savingNotifications := savingNotifications p; requestingDeletion := r; deletionRequested := d; blockedUsers := blockedUsers p |}.

Definition set_blocked (l : list Blocked) (p : Page) : Page :=
  {| githubUsername := githubUsername p; saving := saving p; saved := saved p; timers := timers p;
     emailNotificationsEnabled := emailNotificationsEnabled p; notificationPreferenceError := notificationPreferenceError p;
     savingNotifications := savingNotifications p; requestingDeletion := requestingDeletion p;
     deletionRequested := deletionRequested p; blockedUsers := l |}.

(** What the server says, or an error. *)
Inductive Answer (A : Type) := Ok (a : A) | Err (e : str).
Arguments Ok {A}. Arguments Err {A}.

(** *** The switch of the emails *)

Definition loadNotificationPreference (p : Page) : Page := set_email None None (savingNotifications p) p.

Definition or_text (e d : str) : str := if truthy e then e else d.

Definition preference_loaded (a : Answer (option bool)) (p : Page) : Page :=
  match a with
  | Ok (Some b) => set_email (Some b) (notificationPreferenceError p) (savingNotifications p) p
  | Ok None => set_email (emailNotificationsEnabled p) (Some (js "Could not load this preference")) (savingNotifications p) p
  | Err e => set_email (emailNotificationsEnabled p) (Some (or_text e (js "Could not load this preference"))) (savingNotifications p) p
  end.

(** What the switch asks for, with the page while it waits. *)
Definition toggleEmailNotifications (p : Page) : option (bool * Page) :=
  match emailNotificationsEnabled p with
  | None => None
  | Some b => if savingNotifications p then None
              else Some (negb b, set_email (Some b) (notificationPreferenceError p) true p)
  end.

Definition toggled (a : Answer bool) (p : Page) : Page :=
  match a with
  | Ok b => set_email (Some b) (notificationPreferenceError p) false p
  | Err _ => set_email (emailNotificationsEnabled p) (notificationPreferenceError p) false p
  end.

(** *** Saving, deleting, unblocking *)

Definition typed (g : str) (p : Page) : Page := set_github g (saving p) (saved p) (timers p) p.

Definition profile_loaded (g : option str) (p : Page) : Page := typed (default [] g) p.

(** The button is disabled while the name is saved. *)
Definition handleSave (p : Page) : option (str * Page) :=
  if saving p then None else Some (githubUsername p, set_github (githubUsername p) true (saved p) (timers p) p).

Definition profile_saved (a : Answer unit) (p : Page) : Page :=
  match a with
  | Ok _ => set_github (githubUsername p) false true (S (timers p)) p
  | Err _ => set_github (githubUsername p) false (saved p) (timers p) p
  end.

Definition timer_ended (p : Page) : Page := set_github (githubUsername p) (saving p) false (timers p - 1)%nat p.

(** [confirmed] is the answer to the question. *)
Definition requestAccountDeletion (confirmed : bool) (p : Page) : option Page :=
  if requestingDeletion p || deletionRequested p then None
  else if confirmed then Some (set_deletion true false p) else None.

Definition deletion_answered (a : Answer unit) (p : Page) : Page :=
  match a with Ok _ => set_deletion false true p | Err _ => set_deletion false (deletionRequested p) p end.

Definition unblocked (i : Z) (a : Answer unit) (p : Page) : Page :=
  match a with Ok _ => set_blocked (without_key bid i (blockedUsers p)) p | Err _ => p end.

(** *** The page and the server *)

(** The request for the preference, and the change of it. *)
Inductive Flight := none | loading | changing (next : bool) | stored (next : bool).

Record World := { page : Page; flight : Flight; preference : bool; answer_lost : bool }.

Inductive step : World → World → Prop :=
  | step_loaded w :
      flight w = loading →
      step w {| page := preference_loaded (Ok (Some (preference w))) (page w); flight := none; preference := preference w;
                answer_lost := answer_lost w |}
  | step_load_failed w e :
      flight w = loading →
      step w {| page := preference_loaded (Err e) (page w); flight := none; preference := preference w;
                answer_lost := answer_lost w |}
  (* the button Retry is there after an error, while nothing is shown *)
  | step_retry w :
      emailNotificationsEnabled (page w) = None → notificationPreferenceError (page w) ≠ None →
      step w {| page := loadNotificationPreference (page w); flight := loading; preference := preference w;
                answer_lost := answer_lost w |}
  | step_toggle w next p :
      toggleEmailNotifications (page w) = Some (next, p) →
      step w {| page := p; flight := changing next; preference := preference w; answer_lost := answer_lost w |}
  | step_stored w next :
      flight w = changing next →
      step w {| page := page w; flight := stored next; preference := next; answer_lost := answer_lost w |}
  | step_toggled w next :
      flight w = stored next →
      step w {| page := toggled (Ok next) (page w); flight := none; preference := preference w; answer_lost := answer_lost w |}
  | step_refused w next e :
      flight w = changing next →
      step w {| page := toggled (Err e) (page w); flight := none; preference := preference w; answer_lost := answer_lost w |}
  (* the change was stored, and its answer did not arrive *)
  | step_lost w next e :
      flight w = stored next →
      step w {| page := toggled (Err e) (page w); flight := none; preference := preference w; answer_lost := true |}
  (* the rest of the page *)
  | step_other w p :
      emailNotificationsEnabled p = emailNotificationsEnabled (page w) →
      notificationPreferenceError p = notificationPreferenceError (page w) →
      savingNotifications p = savingNotifications (page w) →
      step w {| page := p; flight := flight w; preference := preference w; answer_lost := answer_lost w |}.

(** The page sends its request when it is opened. *)
Definition started (b : bool) : World :=
  {| page := loadNotificationPreference opened; flight := loading; preference := b; answer_lost := false |}.

Definition coherent (w : World) : Prop :=
  let e := emailNotificationsEnabled (page w) in
  match flight w with
  | none => savingNotifications (page w) = false ∧ (e = None → notificationPreferenceError (page w) ≠ None)
            ∧ (answer_lost w = false → ∀ b, e = Some b → b = preference w)
  | loading => savingNotifications (page w) = false ∧ e = None ∧ notificationPreferenceError (page w) = None
  | changing next => savingNotifications (page w) = true ∧ e = Some (negb next) ∧ (answer_lost w = false → next = negb (preference w))
  | stored next => savingNotifications (page w) = true ∧ e = Some (negb next) ∧ preference w = next
  end.

Lemma step_coherent w w' : step w w' → coherent w → coherent w'.
Proof.
  intros S. destruct S; unfold coherent; cbn [page flight preference answer_lost]; try rewrite H.
  - intros (V & E & N). cbn. repeat split; [done..|congruence].
  - intros (V & E & N). cbn. rewrite E. repeat split; done.
  - destruct (flight w); cbn; intuition congruence.
  - revert H. unfold toggleEmailNotifications. destruct (emailNotificationsEnabled (page w)) as [b|] eqn:E; [|done].
    destruct (savingNotifications (page w)) eqn:V; [done|]. intros [= <- <-].
    destruct (flight w); [|naive_solver..]. intros (_ & _ & P). cbn. rewrite negb_involutive.
    repeat split; try done. intros L. by rewrite (P L b eq_refl).
  - intros (V & E & P). done.
  - intros (V & E & P). cbn. repeat split; [done|congruence].
  - intros (V & E & P). cbn. rewrite E. repeat split; [done|]. intros L b [= <-]. by rewrite (P L), negb_involutive.
  - intros (V & E & P). cbn. rewrite E. done.
  - rewrite H0, H1. done.
Qed.

(** The switch of the profile shows what the server holds whenever nothing waits, unless the
    answer to a stored change was lost; there is never a second change while one waits. *)
Theorem switch_shows_preference b w :
  rtc step (started b) w →
  (flight w = none → answer_lost w = false → ∀ v, emailNotificationsEnabled (page w) = Some v → v = preference w)
  ∧ (flight w ≠ none → toggleEmailNotifications (page w) = None).
Proof.
  intros R. assert (C : coherent w).
  { revert R. apply (rtc_ind_r coherent); [done|]. intros x y _ S. by apply step_coherent. }
  unfold coherent in C. split.
  - intros F L v E. rewrite F in C. destruct C as (_ & _ & P). by apply P.
  - intros F. unfold toggleEmailNotifications. destruct (flight w); [done|..]; destruct C as (V & E & _); rewrite E, ?V; done.
Qed.

(** After a lost answer the switch shows the old setting, and its next press asks for the
    setting that is already stored. *)
Lemma lost_answer_shows_old : ∃ w,
  rtc step (started true) w ∧ flight w = none
  ∧ emailNotificationsEnabled (page w) = Some true ∧ preference w = false
  ∧ fst <$> toggleEmailNotifications (page w) = Some false.
Proof.
  eexists. split; [|].
  - eapply rtc_l; [by apply step_loaded|]. eapply rtc_l; [by apply step_toggle|]. eapply rtc_l; [by apply (step_stored _ false)|].
    eapply rtc_l; [by apply (step_lost _ false (js "timeout"))|]. apply rtc_refl.
  - by vm_compute.
Qed.

(** The mark of a second save is taken away by the timer of the first. *)
Lemma saved_mark_taken_early p g q :
  handleSave (profile_saved (Ok tt) p) = Some (g, q) →
  let twice := profile_saved (Ok tt) q in
  g = githubUsername p ∧ saved twice = true ∧ saved (timer_ended twice) = false ∧ timers (timer_ended twice) = S (timers p).
Proof. by intros [= <- <-]. Qed.

(** One deletion is requested until it fails, and none without the confirmation. *)
Lemma deletion_once c p q :
  requestAccountDeletion c p = Some q →
  c = true ∧ (∀ c', requestAccountDeletion c' q = None) ∧ (∀ c', requestAccountDeletion c' (deletion_answered (Ok tt) q) = None)
  ∧ (∀ e, deletion_answered (Err e) q = p).
Proof.
  unfold requestAccountDeletion. destruct (requestingDeletion p) eqn:R, (deletionRequested p) eqn:D, c; try done.
  intros [= <-]. repeat split. intros e. destruct p; cbn in *. by subst.
Qed.

End Profile.
