(* ===== verification/Shell.v ===== *)
(** * The frame of the web pages

    [web/src/components/shared/Layout.tsx]: the navigation with its unread counts, the presence
    that is sent while the page is visible and the sidebar; [web/src/lib/routePreload.ts];
    [web/src/components/shared/Modal.tsx]: the dialogs, their focus and their keys; and
    [web/src/components/shared/MarkdownEditor.tsx]. *)

From S2P Require Import Prelude.
From S2P Require Import Keyed.
From S2P Require Import Routing.

(** ** Layout *)

Module Layout.

(** *** Unread counts *)

(** The two maps of the counts, and the numbers that are shown. *)
Record Counts := {
  unreadCount : Z; messageUnreadCount : Z; channelUnread : gmap Z Z; directUnread : gmap Z Z;
}.

Definition no_counts : Counts := {| unreadCount := 0; messageUnreadCount := 0; channelUnread := ∅; directUnread := ∅ |}.

Definition total (m : gmap Z Z) : Z := map_fold (λ _ n s, s + n) 0 m.

Definition syncMessageUnreadCount (c : Counts) : Counts :=
  {| unreadCount := unreadCount c; messageUnreadCount := total (channelUnread c) + total (directUnread c);
     channelUnread := channelUnread c; directUnread := directUnread c |}.

Definition notifications_loaded (n : option Z) (c : Counts) : Counts :=
  match n with
  | Some n => {| unreadCount := n; messageUnreadCount := messageUnreadCount c; channelUnread := channelUnread c;
                 directUnread := directUnread c |}
  | None => c
  end.

(** [new Map(entries)]: a later entry replaces an earlier one. *)
Definition new_Map (l : list (Z * Z)) : gmap Z Z := foldl (λ m e, <[e.1 := e.2]> m) ∅ l.

(** Both requests have answered; without data an answer is as an empty list. *)
Definition conversations_loaded (channels directs : option (list (Z * Z))) (c : Counts) : Counts :=
  syncMessageUnreadCount
    {| unreadCount := unreadCount c; messageUnreadCount := messageUnreadCount c;
       channelUnread := new_Map (default [] channels); directUnread := new_Map (default [] directs) |}.

Definition updateChannelUnread (e : Z * Z) (c : Counts) : Counts :=
  syncMessageUnreadCount
    {| unreadCount := unreadCount c; messageUnreadCount := messageUnreadCount c;
       channelUnread := <[e.1 := e.2]> (channelUnread c); directUnread := directUnread c |}.

Definition updateDirectConversationUnread (e : Z * Z) (c : Counts) : Counts :=
  syncMessageUnreadCount
    {| unreadCount := unreadCount c; messageUnreadCount := messageUnreadCount c;
       channelUnread := channelUnread c; directUnread := <[e.1 := e.2]> (directUnread c) |}.

(** An event of the user, with the channel or the conversation it is about. *)
Definition message_event (channel direct : option (Z * Z)) (c : Counts) : Counts :=
  let c := match channel with Some e => updateChannelUnread e c | None => c end in
  match direct with Some e => updateDirectConversationUnread e c | None => c end.

Inductive counts_step : Counts → Counts → Prop :=
  | counted_notifications n c : counts_step c (notifications_loaded n c)
  | counted_conversations ch d c : counts_step c (conversations_loaded ch d c)
  | counted_event ch d c : counts_step c (message_event ch d c).

Definition getNavUnreadCount (c : Counts) (path : str) : Z :=
  if eqs path (js "/announcements") then unreadCount c
  else if eqs path (js "/messages") then messageUnreadCount c else 0.

Lemma total_insert_new i n m : m !! i = None → total (<[i := n]> m) = total m + n.
Proof. intros H. unfold total. rewrite map_fold_insert_L; [done|intros; lia|done]. Qed.

(** A count that arrives takes the place of the one before it. *)
Lemma total_insert i n m : total (<[i := n]> m) = total m - default 0 (m !! i) + n.
Proof.
  destruct (m !! i) as [o|] eqn:E.
  - rewrite <- insert_delete_eq, total_insert_new by apply lookup_delete_eq.
    assert (T : total m = total (delete i m) + o).
    { rewrite <- (insert_delete_id m i o) at 1 by done. apply total_insert_new, lookup_delete_eq. }
    change (default 0 (Some o)) with o. lia.
  - rewrite total_insert_new by done. change (default 0 None) with 0. lia.
Qed.

Definition counted (c : Counts) : Prop := messageUnreadCount c = total (channelUnread c) + total (directUnread c).

Lemma counts_step_counted c c' : counts_step c c' → counted c → counted c'.
Proof. intros S H. destruct S; [by destruct n|done|]. by destruct ch, d. Qed.

(** An event of a channel changes the number by the difference of its counts. *)
Lemma event_difference c i n :
  counted c →
  messageUnreadCount (message_event (Some (i, n)) None c)
  = messageUnreadCount c + (n - default 0 (channelUnread c !! i)).
Proof. intros H. cbn. rewrite total_insert, H. lia. Qed.

(** A request that fails takes the counts of its conversations away. *)
Lemma failed_load_clears c ds :
  counted c → messageUnreadCount (conversations_loaded None ds c) = total (new_Map (default [] ds)).
Proof. intros _. cbn. done. Qed.

(** An answer that was asked for before an event replaces the count of the event. *)
Lemma late_counts_replace_event :
  let c := message_event (Some (4, 0)) None (conversations_loaded (Some [(4, 3)]) (Some []) no_counts) in
  messageUnreadCount c = 0 ∧ messageUnreadCount (conversations_loaded (Some [(4, 3)]) (Some []) c) = 3.
Proof. by vm_compute. Qed.

(** *** Presence *)

Record Presence := { lastPresenceUpdateAt : Z; presence_sent : list Z }.

Definition no_presence : Presence := {| lastPresenceUpdateAt := 0; presence_sent := [] |}.

Definition updatePresence (now : Z) (p : Presence) : Presence :=
  if now - lastPresenceUpdateAt p <? 5000 then p
  else {| lastPresenceUpdateAt := now; presence_sent := presence_sent p ++ [now] |}.

(** The interval, the focus of the window and a change of visibility, at their times. *)
Definition presence_tick (t : Z * bool) (p : Presence) : Presence := if t.2 then updatePresence t.1 p else p.

Definition presence_run (l : list (Z * bool)) (p : Presence) : Presence := foldl (λ p t, presence_tick t p) p l.

Definition spaced (p : Presence) : Prop :=
  StronglySorted (λ a b, a + 5000 <= b) (presence_sent p)
  ∧ Forall (λ a, a <= lastPresenceUpdateAt p) (presence_sent p)
  ∧ (presence_sent p = [] ∧ lastPresenceUpdateAt p = 0 ∨ lastPresenceUpdateAt p ∈ presence_sent p).

Lemma tick_spaced t p : spaced p → spaced (presence_tick t p).
Proof.
  intros (S & F & L). unfold presence_tick, updatePresence. destruct t.2; [|done].
  destruct (Z.ltb_spec (t.1 - lastPresenceUpdateAt p) 5000); [done|]. split; [|split]; cbn.
  - apply StronglySorted_app_2; [|done|repeat constructor]. intros a b A B%list_elem_of_singleton. subst b.
    rewrite Forall_forall in F. specialize (F _ A). lia.
  - apply Forall_app. split; [|repeat constructor; lia]. eapply Forall_impl; [exact F|]. cbn. lia.
  - right. apply elem_of_app. right. by apply list_elem_of_singleton.
Qed.

(** Presence is sent at most once in five seconds, and whenever the page is visible at one of
    its times it was sent less than five seconds before. *)
Theorem presence_throttled l p t :
  p = presence_run l no_presence → 5000 <= t → Forall (λ x, x.1 <= t) l →
  StronglySorted (λ a b, a + 5000 <= b) (presence_sent (presence_tick (t, true) p))
  ∧ ∃ a, a ∈ presence_sent (presence_tick (t, true) p) ∧ t - 5000 < a <= t.
Proof.
  intros -> T B. assert (R : ∀ q, spaced q ∧ lastPresenceUpdateAt q <= t →
    spaced (presence_run l q) ∧ lastPresenceUpdateAt (presence_run l q) <= t).
  { induction l as [|x l IH]; [done|]. intros q (Q & M). inversion B; subst. apply IH; [done|].
    split; [by apply tick_spaced|]. unfold presence_tick, updatePresence. destruct x.2; [case_match|]; cbn; lia. }
  destruct (R no_presence) as (S & M). { split; [|cbn; lia]. split; [constructor|]. split; [constructor|by left]. }
  assert (S' := tick_spaced (t, true) _ S). split; [apply S'|]. revert S'. unfold presence_tick, updatePresence. cbn [fst snd].
  destruct (Z.ltb_spec (t - lastPresenceUpdateAt (presence_run l no_presence)) 5000); intros (_ & _ & L).
  - destruct L as [(_ & Z)|L]; [lia|]. eexists. split; [exact L|lia].
  - exists t. split; [|lia]. cbn. apply elem_of_app. right. by apply list_elem_of_singleton.
Qed.

(** *** Navigation *)

Import Access.

Record NavItem := { to : string; label : string; exact : bool }.

Definition item (t l : string) : NavItem := {| to := t; label := l; exact := false |}.
Definition staff_home : NavItem := {| to := "/admin"; label := "Staff home"; exact := true |}.

Definition adminNav : list NavItem :=
  [staff_home; item "/admin/cohorts" "Cohorts"; item "/admin/content" "Content"; item "/admin/grading" "Grading";
   item "/admin/support" "Student support"; item "/admin/moderation" "Safety queue"; item "/messages" "Messages";
   item "/announcements" "Updates"; item "/admin/team" "Team"; item "/profile" "Profile"].

Definition instructorNav : list NavItem :=
  [staff_home; item "/admin/cohorts" "Cohorts"; item "/admin/grading" "Grading"; item "/admin/support" "Student support";
   item "/admin/moderation" "Safety queue"; item "/messages" "Messages"; item "/announcements" "Updates";
   item "/profile" "Profile"].

Definition studentNav : list NavItem :=
  [item "/dashboard" "Today"; item "/materials" "Learn"; item "/recordings" "Recordings"; item "/resources" "Resources";
   item "/messages" "Messages"; item "/announcements" "Updates"; item "/profile" "Profile"].

Definition navItems (a : auth_context) : list NavItem :=
  if isLoading a then []
  else if default false (is_admin <$> user a) then adminNav
  else if default false (is_staff <$> user a) then instructorNav else studentNav.

Definition bottom_paths : list str := map js ["/dashboard"; "/materials"; "/messages"; "/announcements"].

Definition studentBottomNav : list NavItem :=
  List.filter (λ i, bool_decide (js (to i) ∈ bottom_paths)) studentNav.

Definition isActive (pathname : str) (i : NavItem) : bool :=
  if eqs (js (to i)) (js "/dashboard") || exact i then eqs pathname (js (to i)) else startsWith pathname (js (to i)).

Definition getNavLabel (c : Counts) (i : NavItem) : str :=
  let count := getNavUnreadCount c (js (to i)) in
  if 0 <? count then js (label i) ++ js ", " ++ str_of_Z count ++ js " unread" else js (label i).

(** Of two items that are both active, the path of one begins with the path of the other. *)
Lemma prefix_total s p q : startsWith s p = true → startsWith s q = true → startsWith p q = true ∨ startsWith q p = true.
Proof.
  revert p q. induction s as [|c s IH]; intros [|x p] [|y q]; cbn; auto; [done..|].
  intros [H1%bool_decide_eq_true Hp]%andb_true_iff [H2%bool_decide_eq_true Hq]%andb_true_iff. subst.
  rewrite !bool_decide_eq_true_2 by done. cbn. by apply IH.
Qed.

Lemma active_prefix p i : isActive p i = true → startsWith p (js (to i)) = true.
Proof.
  unfold isActive. destruct (_ || _); [|done]. intros ->%eqs_true. rewrite <- (app_nil_r (js (to i))) at 1. apply startsWith_app.
Qed.

(** Items that can be active on one page. *)
Definition may_both (i j : NavItem) : bool :=
  let one a b := if eqs (js (to a)) (js "/dashboard") || exact a then isActive (js (to a)) b
                 else startsWith (js (to a)) (js (to b)) && negb (eqs (js (to b)) (js "/dashboard") || exact b) in
  one i j || one j i.

Lemma both_active p i j : isActive p i = true → isActive p j = true → may_both i j = true.
Proof.
  intros I J. assert (Pi := active_prefix _ _ I). assert (Pj := active_prefix _ _ J). unfold may_both. cbv zeta. apply orb_true_iff.
  unfold isActive in I, J. destruct (eqs (js (to i)) (js "/dashboard") || exact i) eqn:Ei.
  - left. apply eqs_true in I. subst p. unfold isActive. exact J.
  - destruct (eqs (js (to j)) (js "/dashboard") || exact j) eqn:Ej.
    + right. apply eqs_true in J. subst p. unfold isActive. by rewrite Ei.
    + cbn [negb]. rewrite !andb_true_r. by apply (prefix_total p).
Qed.

Definition separate (l : list NavItem) : bool :=
  forallb (λ i, forallb (λ j, eqs (js (to i)) (js (to j)) || negb (may_both i j)) l) l.

Lemma navs_separate a : separate (navItems a) = true.
Proof. unfold navItems. destruct (isLoading a), (default false (is_admin <$> user a)), (default false (is_staff <$> user a)); by vm_compute. Qed.

(** Who is let in everywhere: an account that is loaded, allowed, and accepted the standards. *)
Definition admitted (a : auth_context) (u : User) : Prop :=
  isLoading a = false ∧ isSignedIn a = true ∧ accessDenied a = false ∧ user a = Some u
  ∧ (∀ q, community_policy u = Some q → accepted q = true).

Definition guard_of (path : string) : option guard :=
  snd <$> List.find (λ r, eqs (js r.1) (js path)) AppRoutes.

(** What a role needs for an item. *)
Definition open_to (staff_ admin_ : bool) (i : NavItem) : bool :=
  match guard_of (to i) with
  | Some Public => true
  | Some (Protected None) => true
  | Some (Protected (Some staff)) => staff_
  | Some (Protected (Some admin)) => admin_
  | _ => false
  end.

Lemma items_open a i :
  i ∈ navItems a → open_to (default false (is_admin <$> user a) || default false (is_staff <$> user a))
                           (default false (is_admin <$> user a)) i = true.
Proof.
  assert (K : ∀ l s d, forallb (open_to s d) l = true → i ∈ l → open_to s d i = true).
  { intros l s d F H%list_elem_of_In. rewrite forallb_forall in F. by apply F. }
  unfold navItems. destruct (isLoading a); [by intros ?%not_elem_of_nil|].
  destruct (default false (is_admin <$> user a)); [apply K; by vm_compute|].
  destruct (default false (is_staff <$> user a)); apply K; by vm_compute.
Qed.

(** C26: Every item of the navigation of a user opens its page for that user, and on each page at
    most one item is marked as the current one. *)
Theorem navigation_correct a u :
  admitted a u → (is_admin u = true → is_staff u = true) →
  (∀ i, i ∈ navItems a → ∃ g, (to i, g) ∈ AppRoutes ∧ render a (js (to i)) g = Content)
  ∧ (∀ pathname i j, i ∈ navItems a → j ∈ navItems a → isActive pathname i = true → isActive pathname j = true → to i = to j).
Proof.
  intros (L & S & D & U & P) A. split.
  - intros i I. assert (O := items_open a i I). rewrite U in O. cbn in O. unfold open_to, guard_of in O.
    destruct (List.find _ AppRoutes) as [[r g]|] eqn:F; [|done]. apply List.find_some in F as (F & E). cbn in E, O.
    apply eqs_true, js_inj in E. subst r. exists g. split; [by apply list_elem_of_In|].
    destruct g as [|r]; [done|]. cbn [render]. apply protected_content. repeat split; [done..|]. exists u. repeat split; [done..|].
    intros x ->. destruct x; cbn; [done|done|]. by destruct (is_admin u); [apply A|].
  - intros p i j I J Ai Aj. assert (N := navs_separate a). unfold separate in N.
    rewrite forallb_forall in N. specialize (N i (proj1 (list_elem_of_In _ _) I)).
    rewrite forallb_forall in N. specialize (N j (proj1 (list_elem_of_In _ _) J)).
    rewrite (both_active p i j Ai Aj), orb_false_r in N. by apply eqs_true, js_inj in N.
Qed.

Lemma navigation_correct_witness :
  (∀ i, i ∈ navItems sample_context → ∃ g, (to i, g) ∈ AppRoutes ∧ render sample_context (js (to i)) g = Content)
  ∧ (∀ pathname i j, i ∈ navItems sample_context → j ∈ navItems sample_context →
       isActive pathname i = true → isActive pathname j = true → to i = to j).
Proof. apply (navigation_correct sample_context sample_staff); [|done]. repeat split. by intros q. Defined.

(** *** Sidebar of small screens *)

Inductive Focus := MenuButton | CloseButton | elsewhere.

(** [overflow] is the style of the body, [previousOverflow] what the effect keeps of it, and
    [frame] the frame that gives the focus back. *)
Record Sidebar := {
  sidebarOpen : bool; restoreMenuButtonFocus : bool; overflow : str; previousOverflow : str; frame : bool; focus : Focus;
}.

(** The effects run after a change of [sidebarOpen]. *)
Definition set_sidebar (open restore : bool) (s : Sidebar) : Sidebar :=
  if Bool.eqb open (sidebarOpen s)
  then {| sidebarOpen := open; restoreMenuButtonFocus := restore; overflow := overflow s;
          previousOverflow := previousOverflow s; frame := frame s; focus := focus s |}
  else if open
  then {| sidebarOpen := true; restoreMenuButtonFocus := restore; overflow := js "hidden"; previousOverflow := overflow s;
          frame := false; focus := CloseButton |}
  else {| sidebarOpen := false; restoreMenuButtonFocus := restore; overflow := previousOverflow s;
          previousOverflow := previousOverflow s; frame := restore; focus := focus s |}.

Inductive SidebarEvent :=
  | menu_pressed | escape | close_pressed | overlay_pressed | item_pressed | pathname_changed | frame_drawn | focus_moved.

Definition sidebar_event (e : SidebarEvent) (s : Sidebar) : Sidebar :=
  match e with
  | menu_pressed => if sidebarOpen s then s else set_sidebar true false s
  | escape | close_pressed | overlay_pressed => if sidebarOpen s then set_sidebar false true s else s
  | item_pressed => if sidebarOpen s then set_sidebar false false s else s
  | pathname_changed => set_sidebar false (restoreMenuButtonFocus s) s
  | frame_drawn =>
      if frame s
      then {| sidebarOpen := sidebarOpen s; restoreMenuButtonFocus := false; overflow := overflow s;
              previousOverflow := previousOverflow s; frame := false; focus := MenuButton |}
      else s
  | focus_moved =>
      {| sidebarOpen := sidebarOpen s; restoreMenuButtonFocus := restoreMenuButtonFocus s; overflow := overflow s;
         previousOverflow := previousOverflow s; frame := frame s; focus := elsewhere |}
  end.

Definition sidebar_start (o : str) : Sidebar :=
  {| sidebarOpen := false; restoreMenuButtonFocus := false; overflow := o; previousOverflow := []; frame := false; focus := elsewhere |}.

Definition sidebar_run (l : list SidebarEvent) (s : Sidebar) : Sidebar := foldl (λ s e, sidebar_event e s) s l.

Definition scroll_locked (o : str) (s : Sidebar) : Prop :=
  (if sidebarOpen s then overflow s = js "hidden" ∧ previousOverflow s = o ∧ restoreMenuButtonFocus s = false ∧ frame s = false
   else overflow s = o) ∧ (frame s = true → restoreMenuButtonFocus s = true).

Lemma sidebar_event_locked o e s : scroll_locked o s → scroll_locked o (sidebar_event e s).
Proof.
  destruct s as [op r ov pr f fo]; destruct e, op, r, f; unfold scroll_locked; cbn; intuition (subst; auto).
Qed.

(** The page behind the sidebar scrolls as before whenever the sidebar is closed; closing it by
    a key or its button gives the focus back to the button of the menu, opening another page does
    not. *)
Lemma sidebar_correct o l :
  let s := sidebar_run l (sidebar_start o) in
  overflow s = (if sidebarOpen s then js "hidden" else o)
  ∧ (sidebarOpen s = true → focus (sidebar_run [escape; frame_drawn] s) = MenuButton
       ∧ ∀ f, focus (sidebar_run [item_pressed; frame_drawn] s) = f → f = focus s).
Proof.
  assert (R : ∀ s, scroll_locked o s → scroll_locked o (sidebar_run l s)).
  { induction l as [|e l IH]; [done|]. intros s S. by apply IH, sidebar_event_locked. }
  specialize (R (sidebar_start o)). destruct R as (R & _); [done|]. cbv zeta. split; [by destruct (sidebarOpen _); [destruct R|]|].
  intros O. rewrite O in R. destruct R as (_ & _ & _ & F). unfold sidebar_run in *. cbn [foldl sidebar_event].
  unfold set_sidebar. rewrite O. cbn. by split; [|intros f <-].
Qed.

(** *** Collapsing *)

(** [storage] of [None] is a browser without it. *)
Definition read_collapsed (storage : option (option str)) : bool :=
  match storage with Some (Some v) => eqs v (js "true") | _ => false end.

Definition toggleCollapsed (x : bool * option (option str)) : bool * option (option str) :=
  let next := negb x.1 in
  (next, match x.2 with Some _ => Some (Some (js (if next then "true" else "false"))) | None => None end).

(** Reloading the page keeps the sidebar as it was left, where there is storage. *)
Lemma collapsed_kept c v : read_collapsed (toggleCollapsed (c, Some v)).2 = negb c.
Proof. by destruct c. Qed.

End Layout.

(** ** Preloading *)

Module Preload.

Definition routePreloaders : list (string * list string) :=
  [("/", ["home"]); ("/dashboard", ["dashboard"]); ("/materials", ["materials"; "moduleView"; "lessonView"]);
   ("/recordings", ["recordings"]); ("/resources", ["resources"]); ("/profile", ["profile"]);
   ("/announcements", ["announcements"]); ("/messages", ["messages"]); ("/admin", ["adminDashboard"]);
   ("/admin/support", ["supportQueue"; "helpRequestDetail"; "interventionDetail"]); ("/admin/moderation", ["moderation"]);
   ("/admin/help-requests", ["helpRequestDetail"]); ("/admin/interventions", ["interventionDetail"]);
   ("/admin/students", ["studentManagement"; "studentDetail"; "studentWorkspace"]);
   ("/admin/cohorts", ["cohortManagement"; "cohortDetail"; "cohortStudentView"; "cohortWatchProgress"; "studentWorkspace"]);
   ("/admin/content", ["contentManagement"; "lessonEditor"]);
   ("/admin/grading", ["grading"; "cohortModuleGrading"; "submissionDetail"]); ("/admin/submissions", ["submissionDetail"]);
   ("/admin/team", ["teamManagement"]); ("/sign-in", ["signIn"]); ("/sign-up", ["signUp"])].

Definition matches (path : str) (e : string * list string) : bool :=
  eqs path (js e.1) || startsWith path (js e.1 ++ js "/").

Definition longer (a b : string * list string) : Z := Z.of_nat (length (js b.1)) - Z.of_nat (length (js a.1)).

Definition matchingPreloaders (path : str) : list string :=
  flat_map snd (js_sort longer (List.filter (matches path) routePreloaders)).

Definition preloadPrimaryRoutes (paths : list str) : list string := flat_map matchingPreloaders paths.

Lemma longer_consistent : cmp_consistent longer (λ _, True).
Proof. split; unfold longer; lia. Qed.

(** A loader runs for the routes at and above the path, the most specific first; the page of
    every item of the navigation is among what is preloaded. *)
Lemma preload_correct path :
  (∀ x, x ∈ matchingPreloaders path ↔ ∃ e, e ∈ routePreloaders ∧ matches path e = true ∧ x ∈ e.2)
  ∧ StronglySorted (λ a b, (length (js b.1) <= length (js a.1))%nat) (js_sort longer (List.filter (matches path) routePreloaders)).
Proof.
  split.
  - intros x. unfold matchingPreloaders. rewrite list_elem_of_In, in_flat_map. split.
    + intros (e & E & X). apply list_elem_of_In in E. rewrite js_sort_perm, elem_of_bfilter in E.
      destruct E as (E & M). exists e. repeat split; [done..|]. by apply list_elem_of_In.
    + intros (e & E & M & X). exists e. split; [|by apply list_elem_of_In]. apply list_elem_of_In.
      by rewrite js_sort_perm, elem_of_bfilter.
  - assert (S := js_sort_sorted longer (λ _, True) (List.filter (matches path) routePreloaders) longer_consistent
      (proj2 (Forall_forall _ _) (λ _ _, I))).
    revert S. generalize (js_sort longer (List.filter (matches path) routePreloaders)) as l. intros l S.
    induction S as [|x r S IH F]; constructor; [done|]. eapply Forall_impl; [exact F|]. intros y. unfold longer. lia.
Qed.

Lemma navigation_preloaded a i : i ∈ Layout.navItems a → matchingPreloaders (js (Layout.to i)) ≠ [].
Proof.
  assert (K : ∀ l, forallb (λ i, negb (bool_decide (matchingPreloaders (js (Layout.to i)) = []))) l = true →
    i ∈ l → matchingPreloaders (js (Layout.to i)) ≠ []).
  { intros l F H%list_elem_of_In. rewrite forallb_forall in F. specialize (F i H). by apply negb_true_iff, bool_decide_eq_false in F. }
  unfold Layout.navItems. repeat case_match; [by intros ?%not_elem_of_nil|apply K; by vm_compute..].
Qed.

End Preload.

(** ** Dialogs *)

Module Modal.

(** A dialog with the elements inside it, those that can have the focus in their order. *)
Record Dialog := { did : Z; inside : list Z; focusable : list Z }.

(** What the effect of an open dialog keeps. *)
Record Opened := { dialog : Dialog; previouslyFocused : option Z; saved_overflow : str }.

(** The open dialogs in the order of the document. *)
Record Doc := { dialogs : list Opened; activeElement : option Z; overflow : str }.

Definition well_formed (d : Dialog) : Prop := did d ∈ inside d ∧ ∀ x, x ∈ focusable d → x ∈ inside d.

Definition contains (d : Dialog) (a : option Z) : bool := match a with Some x => bool_decide (x ∈ inside d) | None => false end.

(** [(firstFocusable || dialog).focus()] *)
Definition first_or_dialog (d : Dialog) : Z := match focusable d with f :: _ => f | [] => did d end.

Definition is_top (doc : Doc) (d : Dialog) : bool :=
  match last (dialogs doc) with Some o => did (dialog o) =? did d | None => false end.

Inductive Key := Escape | Tab (shift : bool) | OtherKey.

(** Whether the dialog is closed, and the element that takes the focus in place of the default. *)
Record Reaction := { closes : bool; takes : option Z }.

Definition nothing : Reaction := {| closes := false; takes := None |}.

Definition handleEsc (k : Key) (d : Dialog) (doc : Doc) : Reaction :=
  if negb (is_top doc d) then nothing
  else match k with
  | Escape => {| closes := true; takes := None |}
  | OtherKey => nothing
  | Tab shift =>
      match focusable d, last (focusable d) with
      | first :: _, Some final =>
          if negb (contains d (activeElement doc)) then {| closes := false; takes := Some (if shift then final else first) |}
          else if shift && bool_decide (activeElement doc = Some first) then {| closes := false; takes := Some final |}
          else if negb shift && bool_decide (activeElement doc = Some final) then {| closes := false; takes := Some first |}
          else nothing
      | _, _ => {| closes := false; takes := Some (did d) |}
      end
  end.

Definition focus (x : option Z) (doc : Doc) : Doc := {| dialogs := dialogs doc; activeElement := x; overflow := overflow doc |}.

Definition handleFocusIn (d : Dialog) (doc : Doc) : Doc :=
  match activeElement doc with
  | Some x => if bool_decide (x ∈ inside d) || negb (is_top doc d) then doc else focus (Some (first_or_dialog d)) doc
  | None => doc
  end.

(** The browser moves the focus from [a], out of the document with [None]. *)
Definition tab_key (default_ : bool → option Z → option Z) (shift : bool) (d : Dialog) (doc : Doc) : Doc :=
  let doc := match takes (handleEsc (Tab shift) d doc) with
             | Some x => focus (Some x) doc
             | None => focus (default_ shift (activeElement doc)) doc
             end in
  handleFocusIn d doc.

Definition open_dialog (d : Dialog) (doc : Doc) : Doc :=
  {| dialogs := dialogs doc ++ [{| dialog := d; previouslyFocused := activeElement doc; saved_overflow := overflow doc |}];
     activeElement := activeElement doc; overflow := js "hidden" |}.

(** The frame after opening. *)
Definition opened_frame (d : Dialog) (doc : Doc) : Doc := focus (Some (first_or_dialog d)) doc.

Definition close_dialog (i : Z) (doc : Doc) : Doc :=
  match List.find (λ o, did (dialog o) =? i) (dialogs doc) with
  | Some o =>
      {| dialogs := List.filter (λ o, negb (did (dialog o) =? i)) (dialogs doc);
         activeElement := match previouslyFocused o with Some x => Some x | None => activeElement doc end;
         overflow := saved_overflow o |}
  | None => doc
  end.

(** A press on the overlay closes when it is on the overlay itself. *)
Definition overlay_click (on_overlay : bool) : bool := on_overlay.

(** *** Keys go to the dialog on top *)

Lemma only_top_reacts k d o doc :
  last (dialogs doc) = Some o → did d ≠ did (dialog o) → handleEsc k d doc = nothing ∧ ∀ x, handleFocusIn d (focus x doc) = focus x doc.
Proof.
  intros L N. assert (T : is_top doc d = false) by (unfold is_top; rewrite L; lia). split.
  - unfold handleEsc. by rewrite T.
  - intros [x|]; [|done]. unfold handleFocusIn. cbn. change (is_top (focus (Some x) doc) d) with (is_top doc d). rewrite T.
    by rewrite orb_true_r.
Qed.

(** The order in which the browser visits the elements. *)
Definition next_in (order : list Z) (shift : bool) (a : option Z) : option Z :=
  x ← a; i ← list_find (x =.) order;
  if shift then match i.1 with O => None | S j => order !! j end else order !! S i.1.

Lemma find_in (order : list Z) i x : NoDup order → order !! i = Some x → list_find (x =.) order = Some (i, x).
Proof.
  intros N L. apply list_find_Some. repeat split; [done..|]. intros j y Y J ->. assert (i = j) by (by eapply NoDup_lookup). lia.
Qed.

Lemma focus_in_kept d doc : contains d (activeElement doc) = true → handleFocusIn d doc = doc.
Proof. unfold contains, handleFocusIn. by destruct (activeElement doc); [intros ->|]. Qed.

Lemma first_inside d : well_formed d → first_or_dialog d ∈ inside d.
Proof. intros (D & F). unfold first_or_dialog. destruct (focusable d) as [|f l]; [done|]. apply F. by left. Qed.

Lemma focus_in_inside d doc :
  well_formed d → is_top doc d = true →
  activeElement (handleFocusIn d doc) = None ∨ contains d (activeElement (handleFocusIn d doc)) = true.
Proof.
  intros W T. unfold handleFocusIn. destruct (activeElement doc) as [x|] eqn:A; [|by left]. right. rewrite T, orb_false_r.
  case_bool_decide as I; [rewrite A; cbn; by apply bool_decide_eq_true|]. cbn. apply bool_decide_eq_true. by apply first_inside.
Qed.

Lemma next_in_middle before l after i x y :
  NoDup (before ++ l ++ after) → l !! i = Some x → l !! S i = Some y →
  next_in (before ++ l ++ after) false (Some x) = Some y ∧ next_in (before ++ l ++ after) true (Some y) = Some x.
Proof.
  intros N X Y.
  assert (E : ∀ j z, l !! j = Some z → (before ++ l ++ after) !! (length before + j)%nat = Some z).
  { intros j z Z. rewrite lookup_app_r by lia. replace (length before + j - length before)%nat with j by lia. by apply lookup_app_l_Some. }
  unfold next_in. cbn. rewrite (find_in _ _ _ N (E _ _ X)), (find_in _ _ _ N (E _ _ Y)). cbn.
  replace (S (length before + i)) with (length before + S i)%nat by lia. rewrite (E _ _ Y). split; [done|].
  replace (length before + S i)%nat with (S (length before + i)) by lia. by apply E.
Qed.

Lemma tab_takes browser shift d doc x :
  well_formed d → x ∈ focusable d → takes (handleEsc (Tab shift) d doc) = Some x →
  activeElement (tab_key browser shift d doc) = Some x.
Proof.
  intros (_ & F) X T. unfold tab_key. rewrite T. rewrite focus_in_kept; [done|]. cbn. apply bool_decide_eq_true. by apply F.
Qed.

Lemma tab_default browser shift d doc x :
  well_formed d → x ∈ focusable d → takes (handleEsc (Tab shift) d doc) = None → browser shift (activeElement doc) = Some x →
  activeElement (tab_key browser shift d doc) = Some x.
Proof.
  intros (_ & F) X T B. unfold tab_key. rewrite T, B. rewrite focus_in_kept; [done|]. cbn. apply bool_decide_eq_true. by apply F.
Qed.

(** What the handler does with the tab key on one of its elements. *)
Lemma handle_tab d doc shift i x first final :
  well_formed d → is_top doc d = true → NoDup (focusable d) →
  focusable d !! i = Some x → activeElement doc = Some x →
  focusable d !! 0%nat = Some first → focusable d !! (length (focusable d) - 1)%nat = Some final →
  takes (handleEsc (Tab shift) d doc)
  = if shift then (if (i =? 0)%nat then Some final else None)
    else if (S i =? length (focusable d))%nat then Some first else None.
Proof.
  intros (_ & W) T N X A F L. unfold handleEsc. rewrite T. cbn [negb]. rewrite last_lookup.
  replace (Nat.pred (length (focusable d))) with (length (focusable d) - 1)%nat by lia. rewrite L.
  destruct (focusable d) as [|f l] eqn:E; [done|]. rewrite <- E in *. assert (f = first) by (rewrite E in F; by injection F). subst f.
  assert (C : contains d (activeElement doc) = true).
  { rewrite A. cbn. apply bool_decide_eq_true. apply W. by eapply list_elem_of_lookup_2. }
  rewrite C, A. cbn [negb]. assert (i < length (focusable d))%nat by (by eapply lookup_lt_Some).
  destruct shift; cbn [negb andb].
  - destruct (Nat.eqb_spec i 0) as [->|I]; case_bool_decide as B; try done; [congruence|].
    injection B as B. subst x. assert (i = 0)%nat by (by eapply NoDup_lookup). lia.
  - destruct (Nat.eqb_spec (S i) (length (focusable d))) as [I|I]; case_bool_decide as B; try done.
    + replace (length (focusable d) - 1)%nat with i in L by lia. congruence.
    + injection B as B. subst x. assert (i = length (focusable d) - 1)%nat by (by eapply NoDup_lookup). lia.
Qed.

(** Where the elements of the dialog follow each other in the order of the browser, the tab
    key goes through them in a circle, in both directions; with any behaviour of the browser
    the focus stays in the dialog or leaves the page. *)
Theorem focus_trapped (d : Dialog) (doc : Doc) :
  well_formed d → is_top doc d = true →
  (∀ browser shift, activeElement (tab_key browser shift d doc) = None
                    ∨ contains d (activeElement (tab_key browser shift d doc)) = true)
  ∧ (∀ before after i, NoDup (before ++ focusable d ++ after) → (i < length (focusable d))%nat → activeElement doc = focusable d !! i →
       let n := length (focusable d) in
       activeElement (tab_key (next_in (before ++ focusable d ++ after)) false d doc) = focusable d !! (S i mod n)%nat
       ∧ activeElement (tab_key (next_in (before ++ focusable d ++ after)) true d doc) = focusable d !! ((i + n - 1) mod n)%nat).
Proof.
  intros W T. split; [intros; by apply focus_in_inside; [|unfold tab_key; case_match]|].
  intros before after i N I A n. set (order := before ++ focusable d ++ after) in *.
  assert (Nd : NoDup (focusable d)) by (apply NoDup_app in N as (_ & _ & N); by apply NoDup_app in N as (N & _)).
  destruct (lookup_lt_is_Some_2 _ _ I) as [x X]. rewrite X in A.
  destruct (lookup_lt_is_Some_2 (focusable d) 0%nat) as [first F]; [lia|].
  destruct (lookup_lt_is_Some_2 (focusable d) (n - 1)%nat) as [final L]; [subst n; lia|].
  assert (H := λ s, handle_tab d doc s i x first final W T Nd X A F L). split.
  - specialize (H false). destruct (Nat.eqb_spec (S i) (length (focusable d))) as [E|E].
    + replace (S i) with n by lia. rewrite Nat.Div0.mod_same, F. eapply tab_takes; [done|by eapply list_elem_of_lookup_2|done].
    + rewrite Nat.mod_small by (subst n; lia). destruct (lookup_lt_is_Some_2 (focusable d) (S i)) as [y Y]; [lia|]. rewrite Y.
      eapply tab_default; [done|by eapply list_elem_of_lookup_2|done|]. rewrite A. by apply (next_in_middle before _ after i x y).
  - specialize (H true). destruct i as [|i].
    + replace (0 + n - 1)%nat with (n - 1)%nat by lia. rewrite Nat.mod_small, L by (subst n; lia). eapply tab_takes; [done|by eapply list_elem_of_lookup_2|done].
    + destruct (lookup_lt_is_Some_2 (focusable d) i) as [y Y]; [lia|].
      replace (S i + n - 1)%nat with (i + 1 * n)%nat by lia. rewrite Nat.Div0.mod_add, Nat.mod_small, Y by (subst n; lia).
      eapply tab_default; [done|by eapply list_elem_of_lookup_2|done|]. rewrite A. by apply (next_in_middle before _ after i y x).
Qed.

Lemma focus_trapped_witness :
  let d := {| did := 10; inside := [10; 11; 12]; focusable := [11; 12] |} in
  let doc := {| dialogs := [{| dialog := d; previouslyFocused := Some 1; saved_overflow := [] |}]; activeElement := Some 12;
                overflow := js "hidden" |} in
  activeElement (tab_key (next_in ([1] ++ [11; 12] ++ [2])) false d doc) = Some 11
  ∧ activeElement (tab_key (next_in ([1] ++ [11; 12] ++ [2])) true d doc) = Some 11.
Proof.
  intros d doc. apply (proj2 (focus_trapped d doc ltac:(split; [by vm_compute; left|intros x; set_solver]) eq_refl) [1] [2] 1%nat).
  - apply (bool_decide_unpack _). by vm_compute.
  - cbn. lia.
  - done.
Defined.

(** *** Opening and closing *)

Lemma close_opened d doc :
  (∀ o, o ∈ dialogs doc → did (dialog o) ≠ did d) → is_Some (activeElement doc) →
  close_dialog (did d) (opened_frame d (open_dialog d doc)) = doc.
Proof.
  intros F [a A]. unfold close_dialog. cbn [opened_frame open_dialog focus dialogs]. destruct doc as [ds ac ov]. cbn in *. subst ac.
  set (o := {| dialog := d; previouslyFocused := Some a; saved_overflow := ov |}).
  assert (N : ∀ o', o' ∈ ds → (did (dialog o') =? did d) = false) by (intros o' O; apply Z.eqb_neq, F, O).
  assert (E : List.find (λ o, did (dialog o) =? did d) (ds ++ [o]) = Some o).
  { clear F. induction ds as [|x r IH]; cbn; [by rewrite Z.eqb_refl|]. rewrite N by (by left). apply IH. intros y Y. apply N. by right. }
  rewrite E. f_equal. rewrite List.filter_app. cbn. rewrite Z.eqb_refl. cbn. rewrite app_nil_r. apply filter_absent.
  intros x X. by rewrite N.
Qed.

(** Dialogs that are closed in the reverse order give back the scrolling of the page and the
    element that had the focus. *)
Lemma nested_dialogs ds doc :
  NoDup (map did ds) → (∀ d o, d ∈ ds → o ∈ dialogs doc → did (dialog o) ≠ did d) → is_Some (activeElement doc) →
  foldr close_dialog (foldl (λ doc d, opened_frame d (open_dialog d doc)) doc ds) (map did ds) = doc.
Proof.
  revert doc. induction ds as [|d r IH]; intros doc N F A; [done|]. cbn [map foldl foldr]. cbn in N. apply NoDup_cons in N as (D & N).
  rewrite IH; [by apply close_opened; [intros o; apply F; left|]|done| |done].
  intros e o E. cbn. rewrite elem_of_app, list_elem_of_singleton. intros [O| ->]; [by apply F; [right|]|]. cbn. intros Q. apply D.
  rewrite Q. by apply list_elem_of_fmap_2.
Qed.

(** A dialog that is closed before one that was opened after it leaves the page locked. *)
Lemma out_of_order_locked :
  let a := {| did := 1; inside := [1]; focusable := [] |} in
  let b := {| did := 2; inside := [2]; focusable := [] |} in
  let doc := {| dialogs := []; activeElement := None; overflow := [] |} in
  let both := open_dialog b (open_dialog a doc) in
  overflow (close_dialog 1 (close_dialog 2 both)) = [] ∧ overflow (close_dialog 2 (close_dialog 1 both)) = js "hidden".
Proof. by vm_compute. Qed.

End Modal.

(** ** Markdown editor *)

Module MarkdownEditor.

Record Edit := { text : str; cursorStart : nat; cursorEnd : nat }.

(** A selection of the text area: [s] up to [e], both within the text. *)
Definition selection (t : str) (s e : nat) : str := take (e - s) (drop s t).

Definition str_default (x d : str) : str := if truthy x then x else d.

Definition wrap (t : str) (s e : nat) (before after : str) : Edit :=
  let selected := str_default (selection t s e) (js "text") in
  {| text := take s t ++ before ++ selected ++ after ++ drop e t;
     cursorStart := s + length before; cursorEnd := s + length before + length selected |}.

(** [t.lastIndexOf(c, from)]; an index below 0 is taken as 0. *)
Fixpoint last_upto (c : ascii) (t : str) (n : nat) : Z :=
  if bool_decide (t !! n = Some c) then Z.of_nat n else match n with O => -1 | S m => last_upto c t m end.

Definition lastIndexOf (c : ascii) (t : str) (from : Z) : Z := last_upto c t (Z.to_nat from).

Definition prefix (t : str) (s e : nat) (pre : str) : Edit :=
  let lineStart := Z.to_nat (lastIndexOf LF t (Z.of_nat s - 1) + 1) in
  let selected := str_default (selection t s e) (js "text") in
  {| text := take lineStart t ++ pre ++ take (s - lineStart) (drop lineStart t) ++ selected ++ drop e t;
     cursorStart := s + length pre; cursorEnd := s + length pre + length selected |}.

Definition link (t : str) (s e : nat) : Edit :=
  let selected := str_default (selection t s e) (js "link text") in
  {| text := take s t ++ js "[" ++ selected ++ js "](url)" ++ drop e t;
     cursorStart := s + length selected + 3; cursorEnd := s + length selected + 6 |}.

Inductive Format := Bold | Italic | InlineCode | CodeBlock | Link | Heading | Blockquote | BulletList | NumberedList.

#[export] Instance Format_eq_dec : EqDecision Format.
Proof. solve_decision. Defined.

Definition apply_ (f : Format) (t : str) (s e : nat) : Edit :=
  match f with
  | Bold => wrap t s e (js "**") (js "**")
  | Italic => wrap t s e (js "_") (js "_")
  | InlineCode => wrap t s e (js "`") (js "`")
  | CodeBlock => wrap t s e (js "```" ++ [LF]) (LF :: js "```")
  | Link => link t s e
  | Heading => prefix t s e (js "## ")
  | Blockquote => prefix t s e (js "> ")
  | BulletList => prefix t s e (js "- ")
  | NumberedList => prefix t s e (js "1. ")
  end.

(** The text, and the selection the text area gets in the next frame. *)
Definition applyFormat (f : Format) (t : str) (s e : nat) : str * (nat * nat) :=
  let r := apply_ f t s e in (text r, (cursorStart r, cursorEnd r)).

Lemma selection_of a b c : selection (a ++ b ++ c) (length a) (length a + length b) = b.
Proof. unfold selection. rewrite drop_app_length. replace (length a + length b - length a)%nat with (length b) by lia. by rewrite take_app_length. Qed.

Lemma selection_split t s e : (s <= e)%nat → (e <= length t)%nat → t = take s t ++ selection t s e ++ drop e t.
Proof.
  intros S E. unfold selection. rewrite <- (take_drop s t) at 1. f_equal. rewrite <- (take_drop (e - s) (drop s t)) at 1. f_equal.
  rewrite drop_drop. f_equal. lia.
Qed.

Lemma wrap_selects t s e before after :
  (s <= e)%nat → (e <= length t)%nat →
  let r := wrap t s e before after in
  selection (text r) (cursorStart r) (cursorEnd r) = str_default (selection t s e) (js "text").
Proof.
  intros S E. cbn. rewrite app_assoc. replace (s + length before)%nat with (length (take s t ++ before)) by (rewrite length_app, length_take; lia).
  apply selection_of.
Qed.

Lemma link_selects t s e :
  (s <= e)%nat → (e <= length t)%nat → let r := link t s e in selection (text r) (cursorStart r) (cursorEnd r) = js "url".
Proof.
  intros S E. cbn [link text cursorStart cursorEnd]. set (x := str_default _ _).
  change (js "](url)") with (js "](" ++ js "url" ++ js ")"). rewrite <- !(app_assoc (js "](")), <- (app_assoc (js "url")).
  rewrite (app_assoc x), (app_assoc (js "[")), (app_assoc (take s t)).
  replace (s + length x + 3)%nat with (length (take s t ++ js "[" ++ x ++ js "]("))
    by (rewrite !length_app, length_take; cbn; lia).
  replace (s + length x + 6)%nat with (length (take s t ++ js "[" ++ x ++ js "](") + length (js "url"))%nat
    by (rewrite !length_app, length_take; cbn; lia).
  apply selection_of.
Qed.

(** The line of the selection begins after the last line feed before it. *)
Lemma last_upto_spec c t n :
  (last_upto c t n = -1 ∧ ∀ j, (j <= n)%nat → t !! j ≠ Some c)
  ∨ ∃ i, last_upto c t n = Z.of_nat i ∧ (i <= n)%nat ∧ t !! i = Some c ∧ ∀ j, (i < j <= n)%nat → t !! j ≠ Some c.
Proof.
  induction n as [|n IH]; cbn; case_bool_decide as B.
  - right. exists 0%nat. repeat split; [done|done|]. intros j ?. lia.
  - left. split; [done|]. intros j J. by replace j with 0%nat by lia.
  - right. exists (S n). repeat split; [lia|done|]. intros j ?. lia.
  - destruct IH as [(-> & N)|(i & -> & I & C & N)].
    + left. split; [done|]. intros j J. destruct (decide (j = S n)) as [->|]; [done|]. apply N. lia.
    + right. exists i. repeat split; [lia|done|]. intros j J. destruct (decide (j = S n)) as [->|]; [done|]. apply N. lia.
Qed.

Definition line_start (t : str) (s : nat) (l : nat) : Prop :=
  (l <= s)%nat ∧ (l = 0%nat ∨ t !! (l - 1)%nat = Some LF) ∧ ∀ j, (l <= j < s)%nat → t !! j ≠ Some LF.

Lemma lineStart_ok t s :
  s ≠ 0%nat ∨ t !! 0%nat ≠ Some LF → line_start t s (Z.to_nat (lastIndexOf LF t (Z.of_nat s - 1) + 1)).
Proof.
  intros C. unfold lastIndexOf. replace (Z.to_nat (Z.of_nat s - 1)) with (s - 1)%nat by lia.
  destruct (last_upto_spec LF t (s - 1)) as [(-> & N)|(i & -> & I & L & N)].
  - repeat split; [lia|by left|]. intros j J. apply N. lia.
  - destruct (decide (s = 0%nat)) as [->|P]. { replace i with 0%nat in L by lia. by destruct C. }
    replace (Z.to_nat (Z.of_nat i + 1)) with (S i) by lia. repeat split; [lia| |].
    + right. by replace (S i - 1)%nat with i by lia.
    + intros j J. apply N. lia.
Qed.

Lemma prefix_correct t s e pre :
  (s <= e)%nat → (e <= length t)%nat → s ≠ 0%nat ∨ t !! 0%nat ≠ Some LF →
  let r := prefix t s e pre in
  let selected := str_default (selection t s e) (js "text") in
  selection (text r) (cursorStart r) (cursorEnd r) = selected
  ∧ ∃ l, line_start t s l ∧ text r = take l t ++ pre ++ drop l (take s t) ++ selected ++ drop e t.
Proof.
  intros S E C. assert (L := lineStart_ok t s C). cbn [prefix text cursorStart cursorEnd]. revert L.
  generalize (Z.to_nat (lastIndexOf LF t (Z.of_nat s - 1) + 1)) as l. intros l L. assert (K := proj1 L). split.
  - rewrite (app_assoc pre), (app_assoc (take l t)).
    assert (N : length (take l t ++ pre ++ take (s - l) (drop l t)) = (s + length pre)%nat)
      by (rewrite !length_app, !length_take, length_drop; lia).
    rewrite <- N. apply selection_of.
  - exists l. split; [done|]. do 3 f_equal. rewrite take_drop_commute. do 2 f_equal. lia.
Qed.

(** A button of the editor changes nothing outside the selection but its marks: around it, or
    at the start of its line; afterwards the selected text is selected again, in the address of
    the link for a link. *)
Theorem format_keeps_text f t s e :
  (s <= e)%nat → (e <= length t)%nat → s ≠ 0%nat ∨ t !! 0%nat ≠ Some LF →
  let r := apply_ f t s e in
  let selected := str_default (selection t s e) (js (if bool_decide (f = Link) then "link text" else "text")) in
  selection (text r) (cursorStart r) (cursorEnd r) = (if bool_decide (f = Link) then js "url" else selected)
  ∧ ((∃ before after, text r = take s t ++ before ++ selected ++ after ++ drop e t)
     ∨ ∃ pre l, line_start t s l ∧ text r = take l t ++ pre ++ drop l (take s t) ++ selected ++ drop e t).
Proof.
  intros S E C. destruct f; cbn [apply_];
    try (change (bool_decide _) with false; split; [by apply wrap_selects|left; by eexists _, _]);
    try (change (bool_decide _) with false; edestruct (prefix_correct t s e) as (P & l & L & T); [done..|];
         split; [exact P|right; eexists _, l; split; [exact L|exact T]]).
  change (bool_decide _) with true. split; [by apply link_selects|]. left. by eexists _, _.
Qed.

Lemma format_keeps_text_witness :
  let r := apply_ Heading (js "a" ++ LF :: js "bc") 2 3 in
  selection (text r) (cursorStart r) (cursorEnd r) = js "b"
  ∧ text r = js "a" ++ LF :: js "## bc".
Proof.
  split; [|by vm_compute].
  apply (format_keeps_text Heading (js "a" ++ LF :: js "bc") 2 3); [lia|cbn; lia|by left].
Defined.

(** At the start of a text that begins with a line feed, the line feed is doubled. *)
Lemma first_line_feed_doubled : text (apply_ Heading (LF :: js "abc") 0 0) = LF :: js "## text" ++ LF :: js "abc".
Proof. by vm_compute. Qed.

(** The marks of a list are put on the first line of the selection only. *)
Lemma one_mark_for_lines : text (apply_ BulletList (js "a" ++ LF :: js "b") 0 3) = js "- a" ++ LF :: js "b".
Proof. by vm_compute. Qed.

End MarkdownEditor.
