(* ===== verification/StudentHome.v ===== *)
(** * The pages of a student (web)

    [web/src/pages/student/Dashboard.tsx], [web/src/pages/student/Materials.tsx] and
    [web/src/pages/student/Resources.tsx]: how they load, also from saved answers, what they
    derive from the modules, and the modules that are collapsed. *)

From S2P Require Import Prelude.
From S2P Require Import Keyed.
From S2P Require Import Json.
From S2P Require Import CohortDetail.
From S2P Require Import Grading.

(** ** Loading *)

Module Load.

(** The state the dashboard and the materials keep of their request. *)
Record State (A : Type) := { data : option A; loading : bool; loadError : option str; showingSavedData : bool }.
Arguments data {A}. Arguments loading {A}. Arguments loadError {A}. Arguments showingSavedData {A}.

(** What the API answers: data, of the server or of the saved answers with the error they stand
    in for; no data; or a promise that is rejected with an [Error] or with something else. *)
Inductive Res (A : Type) := Got (a : A) (fromCache : bool) (error : option str) | NoData (error : option str) | Thrown (message : option str).
Arguments Got {A}. Arguments NoData {A}. Arguments Thrown {A}.

Section Page.
(** [enrolled]: the answer says whether the student is enrolled. *)
Context {A : Type} (unable : str) (enrolled : A → bool).

Definition start : State A := {| data := None; loading := true; loadError := None; showingSavedData := false |}.

Definition load (s : State A) : State A := {| data := data s; loading := true; loadError := None; showingSavedData := false |}.

Definition or_unable (e : option str) : str := match e with Some (c :: m) => c :: m | _ => unable end.

Definition answered (r : Res A) (s : State A) : State A :=
  match r with
  | Got a c e => {| data := Some a; loading := false; loadError := if c then e else None; showingSavedData := c |}
  | NoData e => {| data := data s; loading := false; loadError := Some (or_unable e); showingSavedData := showingSavedData s |}
  | Thrown m => {| data := data s; loading := false; loadError := Some (default unable m); showingSavedData := showingSavedData s |}
  end.

(** A page that is given its data shows it, the staff is sent to its own pages, and for others
    the data is asked for. *)
Inductive Begin := Previewed (s : State A) | Redirected | Requested (s : State A).

Definition loadDashboard (preview : option A) (redirect : bool) (s : State A) : Begin :=
  match preview with
  | Some a => Previewed {| data := Some a; loading := false; loadError := loadError s; showingSavedData := showingSavedData s |}
  | None => if redirect then Redirected else Requested (load s)
  end.

(** What is on the screen. *)
Inductive Screen := Spinner | CouldNotLoad (e : str) | NotEnrolled | Shown (a : A) (saved : bool).

Definition shown (a : A) (saved : bool) : Screen := if enrolled a then Shown a saved else NotEnrolled.

Definition screen (s : State A) : Screen :=
  if loading s then Spinner
  else match loadError s, data s with
       | Some (c :: e), None => CouldNotLoad (c :: e)
       | _, None => NotEnrolled
       | _, Some a => shown a (showingSavedData s)
       end.

(** Every answer ends the spinner: data is shown, marked when it is saved data; without data
    the page shows what it had before, or the error with the button to try again. *)
Lemma load_shows r s :
  unable ≠ [] → (∀ m, r = Thrown (Some m) → m ≠ []) →
  screen (answered r (load s)) =
    match r with
    | Got a c _ => shown a c
    | NoData e => match data s with Some a => shown a false | None => CouldNotLoad (or_unable e) end
    | Thrown m => match data s with Some a => shown a false | None => CouldNotLoad (default unable m) end
    end.
Proof.
  intros U M. unfold screen. destruct r as [a c e|e|m]; cbn.
  - by destruct c, e as [[|? ?]|].
  - assert (O : or_unable e ≠ []) by (destruct e as [[|? ?]|]; done). destruct (or_unable e), (data s); done.
  - destruct m as [m|]; cbn; [specialize (M m eq_refl); destruct m|destruct unable]; by destruct (data s).
Qed.

End Page.

(** *** The plan of the week *)

(** The number of the request that is waited for: the answer of an earlier one is dropped. *)
Record Plan (P : Type) := { weeklyPlan : option P; weeklyPlanLoaded : bool; current : nat }.
Arguments weeklyPlan {P}. Arguments weeklyPlanLoaded {P}. Arguments current {P}.

(** The effect of a user who is not staff, on a page without a preview. *)
Definition plan_effect {P} (p : Plan P) : Plan P := {| weeklyPlan := None; weeklyPlanLoaded := false; current := S (current p) |}.

(** [None] is an answer without a plan, or a promise that is rejected. *)
Definition plan_answered {P} (n : nat) (a : option P) (p : Plan P) : Plan P :=
  if (n =? current p)%nat
  then {| weeklyPlan := match a with Some x => Some x | None => weeklyPlan p end; weeklyPlanLoaded := true; current := current p |}
  else p.

Definition showWeeklyFallback {P} (enrolled : P → bool) (p : Plan P) : bool :=
  weeklyPlanLoaded p && negb (default false (enrolled <$> weeklyPlan p)).

(** After a change of the user the plan is the one of the last request, whatever order the
    answers arrive in. *)
Lemma plan_of_last {P} (p : Plan P) a b :
  let p1 := plan_effect p in
  let p2 := plan_effect p1 in
  plan_answered (current p1) a (plan_answered (current p2) b p2) = plan_answered (current p2) b p2
  ∧ plan_answered (current p2) b (plan_answered (current p1) a p2) = plan_answered (current p2) b p2
  ∧ weeklyPlan (plan_answered (current p2) b p2) = b.
Proof.
  cbn. unfold plan_answered. cbn [plan_effect current]. rewrite Nat.eqb_refl.
  assert (E : (S (current p) =? S (S (current p)))%nat = false) by (apply Nat.eqb_neq; lia). cbn [current]. rewrite E. cbn [current].
  rewrite ?Nat.eqb_refl. by destruct b.
Qed.

End Load.

(** ** Modules and lessons *)

Record Window := { week_number : Z; submissions_close_at : option str; submissions_closed : bool }.

Record Lesson := {
  id : Z; title : str; lesson_type : str; available : bool; completed : bool; unlock_date : option str;
  submission_window : option Window;
}.

Record Module_ := {
  mid : Z; name : str; module_type : str; mod_available : bool; completed_blocks : Z; total_blocks : Z; lessons : list Lesson;
}.

(** ** Dashboard *)

Module Dashboard.

(** [unlockTime]: infinite without a date; a date that cannot be read is not a number. *)
Inductive Time := At (t : Z) | Infinity | NaN.

Section Dates.
Context (b : Browser).

Definition unlockTime (d : option str) : Time :=
  match d with
  | Some (c :: s) => match Date_parse b (c :: s) with Some t => At t | None => NaN end
  | _ => Infinity
  end.

(** The sign of a difference for [sort]; what is not a number counts as 0. *)
Definition minus (x y : Time) : Z :=
  match x, y with
  | At t, At u => t - u
  | At _, Infinity => -1
  | Infinity, At _ => 1
  | _, _ => 0
  end.

Definition availableLessons (ms : list Module_) : list (Module_ * Lesson) :=
  flat_map (λ m, map (pair m) (List.filter available (lessons m))) ms.

Definition incompleteAvailableLessons (ms : list Module_) : list (Module_ * Lesson) :=
  List.filter (λ x, negb (completed x.2)) (availableLessons ms).

Definition nextAvailableLesson (ms : list Module_) : option (Module_ * Lesson) := head (incompleteAvailableLessons ms).

Definition lockedLessons (ms : list Module_) : list (Module_ * Lesson) :=
  flat_map (λ m, map (pair m) (List.filter (λ l, negb (available l)) (lessons m))) ms.

Definition by_unlock (x y : Module_ * Lesson) : Z := minus (unlockTime (unlock_date x.2)) (unlockTime (unlock_date y.2)).

Definition nextLockedLesson (ms : list Module_) : option (Module_ * Lesson) := head (js_sort by_unlock (lockedLessons ms)).

Definition completedModules (ms : list Module_) : nat :=
  length (List.filter (λ m, (0 <? total_blocks m) && (completed_blocks m =? total_blocks m)) ms).

Definition activeModules (ms : list Module_) : nat :=
  length (List.filter (λ m, mod_available m && (0 <? total_blocks m) && (completed_blocks m <? total_blocks m)) ms).

Definition lessonsWithWindows (ms : list Module_) : list (Module_ * Lesson) := flat_map (λ m, map (pair m) (lessons m)) ms.

Definition close_at (l : Lesson) : option str := w ← submission_window l; submissions_close_at w.
Definition closed (l : Lesson) : bool := match submission_window l with Some w => submissions_closed w | None => false end.

Definition has_deadline (x : Module_ * Lesson) : bool :=
  available x.2 && match close_at x.2 with Some (_ :: _) => negb (closed x.2) | _ => false end.

Definition by_close (x y : Module_ * Lesson) : Z := minus (unlockTime (close_at x.2)) (unlockTime (close_at y.2)).

Definition nextSubmissionDeadline (ms : list Module_) : option (Module_ * Lesson) :=
  head (js_sort by_close (List.filter has_deadline (lessonsWithWindows ms))).

(** The key of a window, with a week that is there when the window is. *)
Definition window_key (x : Module_ * Lesson) : str :=
  str_of_Z (mid x.1) ++ js ":" ++ match submission_window x.2 with Some w => str_of_Z (week_number w) | None => js "undefined" end.

Definition closedSubmissionWindowCount (ms : list Module_) : nat :=
  size (list_to_set (map window_key (List.filter (λ x, closed x.2) (lessonsWithWindows ms))) : gset str).

(** *** Next *)

Definition readable (d : option str) : Prop := unlockTime d ≠ NaN.

Lemma minus_consistent {A} (f : A → Time) : cmp_consistent (λ x y, minus (f x) (f y)) (λ x, f x ≠ NaN).
Proof. split; intros x y; [intros z|]; destruct (f x), (f y); try destruct (f z); cbn; intros; try done; lia. Qed.

(** The first element of a sorted list is not after any other. *)
Lemma head_least {A} (f : A → Time) l x :
  Forall (λ x, f x ≠ NaN) l → head (js_sort (λ x y, minus (f x) (f y)) l) = Some x →
  x ∈ l ∧ ∀ y, y ∈ l → minus (f x) (f y) <= 0.
Proof.
  intros F H. assert (S := js_sort_sorted _ _ l (minus_consistent f) F). set (s := js_sort _ l) in *.
  assert (E : ∀ y, y ∈ l ↔ y ∈ s) by (intros y; unfold s; by rewrite js_sort_elem). destruct s as [|z r]; [done|]. injection H as ->.
  split; [apply E; by left|]. intros y Y. apply E in Y. inversion S as [|? ? S' F']; subst. apply elem_of_cons in Y as [->|Y].
  - destruct (f x); cbn; lia.
  - rewrite Forall_forall in F'. by apply F'.
Qed.

Lemma in_modules (g : Module_ → list Lesson) ms x :
  x ∈ flat_map (λ m, map (pair m) (g m)) ms ↔ x.1 ∈ ms ∧ x.2 ∈ g x.1.
Proof.
  rewrite list_elem_of_In, in_flat_map. destruct x as [m l]. cbn. rewrite !list_elem_of_In. split.
  - intros (m' & M & X). by apply in_map_iff in X as (l' & [= -> ->] & L).
  - intros (M & L). exists m. split; [done|]. by apply in_map.
Qed.

(** What a student does next: the lesson to continue is open and not done, and nothing is named
    only when there is none; the lesson that is named as upcoming is the locked one that opens
    first; the deadline is the one that ends first of those that can still be met. *)
Theorem next_lessons_correct ms :
  (∀ m, m ∈ ms → ∀ l, l ∈ lessons m → readable (unlock_date l) ∧ readable (close_at l)) →
  (∀ m l, nextAvailableLesson ms = Some (m, l) → m ∈ ms ∧ l ∈ lessons m ∧ available l = true ∧ completed l = false)
  ∧ (nextAvailableLesson ms = None → ∀ m l, m ∈ ms → l ∈ lessons m → available l = true → completed l = true)
  ∧ (∀ m l, nextLockedLesson ms = Some (m, l) → m ∈ ms ∧ l ∈ lessons m ∧ available l = false
       ∧ ∀ m' l', m' ∈ ms → l' ∈ lessons m' → available l' = false → minus (unlockTime (unlock_date l)) (unlockTime (unlock_date l')) <= 0)
  ∧ (∀ m l, nextSubmissionDeadline ms = Some (m, l) → m ∈ ms ∧ l ∈ lessons m ∧ has_deadline (m, l) = true
       ∧ ∀ m' l', m' ∈ ms → l' ∈ lessons m' → has_deadline (m', l') = true → minus (unlockTime (close_at l)) (unlockTime (close_at l')) <= 0).
Proof.
  intros R. split_and!.
  - intros m l H. assert (I : (m, l) ∈ incompleteAvailableLessons ms) by (unfold nextAvailableLesson in H; by apply head_Some_elem_of).
    apply elem_of_bfilter in I as (I & C). apply in_modules in I as (M & L). apply elem_of_bfilter in L as (L & A).
    apply negb_true_iff in C. done.
  - intros H m l M L A. destruct (completed l) eqn:C; [done|]. exfalso. unfold nextAvailableLesson in H. apply head_None in H.
    apply (not_elem_of_nil (m, l)). rewrite <- H. apply elem_of_bfilter. cbn. rewrite C. split; [|done]. apply in_modules. cbn.
    split; [done|]. by apply elem_of_bfilter.
  - intros m l H. assert (F : Forall (λ x : Module_ * Lesson, unlockTime (unlock_date x.2) ≠ NaN) (lockedLessons ms)).
    { apply Forall_forall. intros x X. apply in_modules in X as (M & L). apply elem_of_bfilter in L as (L & _). by eapply R. }
    destruct (head_least _ _ _ F H) as (X & Y). apply in_modules in X as (M & L). apply elem_of_bfilter in L as (L & A).
    apply negb_true_iff in A. repeat split; [done..|]. intros m' l' M' L' A'. apply (Y (m', l')). apply in_modules. cbn.
    split; [done|]. apply elem_of_bfilter. by rewrite A'.
  - intros m l H. set (ls := List.filter has_deadline (lessonsWithWindows ms)).
    assert (F : Forall (λ x : Module_ * Lesson, unlockTime (close_at x.2) ≠ NaN) ls).
    { apply Forall_forall. intros x X. apply elem_of_bfilter in X as (X & _). apply in_modules in X as (M & L). by eapply R. }
    destruct (head_least _ _ _ F H) as (X & Y). apply elem_of_bfilter in X as (X & D). apply in_modules in X as (M & L).
    repeat split; [done..|]. intros m' l' M' L' D'. apply (Y (m', l')). apply elem_of_bfilter. split; [|done]. by apply in_modules.
Qed.

Lemma size_injective {A B} `{Countable A} `{Countable B} (f : A → B) (l : list A) :
  (∀ x y, f x = f y → x = y) → size (list_to_set (map f l) : gset B) = size (list_to_set l : gset A).
Proof.
  intros I. induction l as [|a l IH]; [done|]. cbn [map list_to_set]. destruct (decide (a ∈ l)) as [M|M].
  - rewrite !subseteq_union_1_L; [done|..]; apply singleton_subseteq_l, elem_of_list_to_set; [done|by apply list_elem_of_fmap_2].
  - rewrite !size_union, !size_singleton, IH; [done|..]; apply disjoint_singleton_l; rewrite elem_of_list_to_set; [done|].
    intros (y & E & Y)%list_elem_of_fmap. apply I in E. by subst.
Qed.

Definition closed_windows (ms : list Module_) : list (Z * Z) :=
  omap (λ x : Module_ * Lesson, w ← submission_window x.2; if submissions_closed w then Some (mid x.1, week_number w) else None)
    (lessonsWithWindows ms).

(** As many windows are counted as closed as there are pairs of a module and a week. *)
Lemma closed_counted ms : closedSubmissionWindowCount ms = size (list_to_set (closed_windows ms) : gset (Z * Z)).
Proof.
  unfold closedSubmissionWindowCount. rewrite <- (size_injective (λ p : Z * Z, Table.cell_key p.1 p.2)).
  - do 2 f_equal. unfold closed_windows. induction (lessonsWithWindows ms) as [|x l IH]; [done|]. cbn [List.filter omap list_omap].
    unfold closed at 1. destruct (submission_window x.2) as [w|] eqn:W; cbn; [|done]. destruct (submissions_closed w); [|done].
    cbn [map]. rewrite <- IH. f_equal. unfold window_key. by rewrite W.
  - intros [m v] [n w] E. apply Table.cell_key_inj in E as (E & F). cbn in *. congruence.
Qed.

End Dates.

End Dashboard.

(** ** Materials *)

Module Materials.

Inductive Status := locked | completed_ | ready.
Inductive Filter := f_ready | f_all | f_redo | f_completed | f_locked.

#[export] Instance Status_eq_dec : EqDecision Status.
Proof. solve_decision. Defined.

Definition lessonStatus (l : Lesson) : Status :=
  if negb (available l) then locked else if completed l then completed_ else ready.

(** [value.replaceAll('_', ' ')] *)
Definition formatTypeLabel (v : str) : str := map (λ c, if bool_decide (c = "_"%char) then " "%char else c) v.

Section View.
(** The lessons a redo is asked for, and the query. *)
Context (redo : list Z) (query : str).

Definition redoLessonIds : gset Z := list_to_set redo.
Definition q : str := toLowerCase (trim query).
Definition hasActiveSearch : bool := truthy q.

Definition matchesQuery (m : Module_) (l : Lesson) : bool :=
  negb hasActiveSearch
  || existsb (λ v, includes (toLowerCase v) q) [name m; formatTypeLabel (module_type m); title l; formatTypeLabel (lesson_type l)].

Definition in_filter (f : Filter) (l : Lesson) : bool :=
  match f with
  | f_all => true
  | f_redo => bool_decide (id l ∈ redoLessonIds)
  | f_completed => bool_decide (lessonStatus l = completed_)
  | f_locked => bool_decide (lessonStatus l = locked)
  | f_ready => bool_decide (lessonStatus l = ready) || bool_decide (id l ∈ redoLessonIds)
  end.

Definition with_lessons (ls : list Lesson) (m : Module_) : Module_ :=
  {| mid := mid m; name := name m; module_type := module_type m; mod_available := mod_available m;
     completed_blocks := completed_blocks m; total_blocks := total_blocks m; lessons := ls |}.

Definition visibleModules (f : Filter) (ms : list Module_) : list Module_ :=
  List.filter (λ m, match lessons m with [] => false | _ => true end)
    (map (λ m, with_lessons (List.filter (λ l, matchesQuery m l && in_filter f l) (lessons m)) m) ms).

Definition allLessons (ms : list Module_) : list Lesson := flat_map lessons ms.

Definition count_status (s : Status) (ms : list Module_) : nat :=
  length (List.filter (λ l, bool_decide (lessonStatus l = s)) (allLessons ms)).
Definition redoCount : nat := size redoLessonIds.
Definition readyOrRedoCount (ms : list Module_) : nat :=
  length (List.filter (λ l, bool_decide (lessonStatus l = ready) || bool_decide (id l ∈ redoLessonIds)) (allLessons ms)).

(** The number on each button. *)
Definition filters (f : Filter) (ms : list Module_) : nat :=
  match f with
  | f_ready => readyOrRedoCount ms
  | f_all => length (allLessons ms)
  | f_redo => redoCount
  | f_completed => count_status completed_ ms
  | f_locked => count_status locked ms
  end.

Lemma visible_lessons f ms :
  allLessons (visibleModules f ms) = flat_map (λ m, List.filter (λ l, matchesQuery m l && in_filter f l) (lessons m)) ms.
Proof.
  unfold visibleModules, allLessons. induction ms as [|m ms IH]; [done|]. cbn [map List.filter flat_map lessons with_lessons].
  rewrite <- IH. by destruct (List.filter _ (lessons m)) eqn:E.
Qed.

Lemma unsearched f ms : q = [] → allLessons (visibleModules f ms) = List.filter (in_filter f) (allLessons ms).
Proof.
  intros Q. rewrite visible_lessons. unfold allLessons. induction ms as [|m ms IH]; [done|]. cbn [flat_map].
  rewrite List.filter_app, IH. f_equal. apply List.filter_ext. intros l. unfold matchesQuery, hasActiveSearch. by rewrite Q.
Qed.

Lemma redo_counted ms :
  NoDup (map id (allLessons ms)) → (∀ i, i ∈ redo → i ∈ map id (allLessons ms)) →
  redoCount = length (List.filter (in_filter f_redo) (allLessons ms)).
Proof.
  intros N R. unfold redoCount.
  assert (E : redoLessonIds = list_to_set (map id (List.filter (in_filter f_redo) (allLessons ms)))).
  { apply set_eq. intros i. rewrite elem_of_list_to_set, list_elem_of_fmap. unfold redoLessonIds. rewrite elem_of_list_to_set. split.
    - intros I. destruct (proj1 (list_elem_of_fmap _ _ _) (R i I)) as (l & -> & L). exists l. split; [done|]. apply elem_of_bfilter.
      split; [done|]. cbn. apply bool_decide_eq_true. unfold redoLessonIds. by apply elem_of_list_to_set.
    - intros (l & -> & L). apply elem_of_bfilter in L as (_ & L). cbn in L. apply bool_decide_eq_true in L. unfold redoLessonIds in L.
      by apply elem_of_list_to_set in L. }
  rewrite E, size_list_to_set, length_map; [done|]. by apply NoDup_map_bfilter.
Qed.

Lemma status_partition ms :
  length (allLessons ms) = (count_status ready ms + count_status completed_ ms + count_status locked ms)%nat.
Proof.
  unfold count_status. induction (allLessons ms) as [|l ls IH]; [done|]. cbn [List.filter]. unfold length at 1. fold (length ls). rewrite IH.
  destruct (lessonStatus l); repeat (case_bool_decide; try done); cbn [length]; lia.
Qed.

(** Without a query the number on each button is the number of lessons it shows, for the lessons
    to redo when they are all among the modules; a query only takes lessons away; and no module
    is shown empty. *)
Theorem materials_correct f ms :
  NoDup (map id (allLessons ms)) → (∀ i, i ∈ redo → i ∈ map id (allLessons ms)) →
  (q = [] → filters f ms = length (allLessons (visibleModules f ms)))
  ∧ (∀ l, l ∈ allLessons (visibleModules f ms) → l ∈ allLessons ms ∧ in_filter f l = true)
  ∧ (∀ m, m ∈ visibleModules f ms → lessons m ≠ [])
  ∧ length (allLessons ms) = (count_status ready ms + count_status completed_ ms + count_status locked ms)%nat.
Proof.
  intros N R. split_and!.
  - intros Q. rewrite unsearched by done. destruct f; try done; [|by apply redo_counted]. cbn. f_equal. symmetry. by apply filter_absent.
  - intros l. rewrite visible_lessons. unfold allLessons. rewrite !list_elem_of_In, !in_flat_map. intros (m & M & L).
    apply filter_In in L as (L & F). apply andb_true_iff in F as (_ & F). split; [by exists m|done].
  - intros m M. apply elem_of_bfilter in M as (_ & M). by destruct (lessons m).
  - apply status_partition.
Qed.

End View.

Definition sample_lesson (i : Z) (a c : bool) : Lesson :=
  {| id := i; title := js "Loops"; lesson_type := js "video"; available := a; completed := c; unlock_date := None; submission_window := None |}.

Definition sample_modules : list Module_ :=
  [{| mid := 1; name := js "Basics"; module_type := js "live_class"; mod_available := true; completed_blocks := 1; total_blocks := 3;
      lessons := [sample_lesson 1 true true; sample_lesson 2 true false; sample_lesson 3 false false] |}].

Lemma materials_correct_witness :
  filters [1] f_redo sample_modules = length (allLessons (visibleModules [1] [] f_redo sample_modules)).
Proof.
  apply (materials_correct [1] [] f_redo sample_modules).
  - apply (bool_decide_unpack _). by vm_compute.
  - intros i ->%list_elem_of_singleton. cbn. by left.
  - done.
Defined.

(** A redo of a lesson that is not among the modules is counted, and not shown. *)
Lemma redo_counted_not_shown :
  filters [9] f_redo sample_modules = 1%nat ∧ visibleModules [9] [] f_redo sample_modules = [].
Proof. by vm_compute. Qed.

(** *** Collapsed modules *)

(** [localStorage], which can be missing. The set is kept in the order of its insertions. *)
Definition storage := option (gmap str str).

Record Page := { cohort : option Z; collapsedModules : list Z; store : storage }.

Definition key (c : Z) : str := js "csg-materials-collapsed:" ++ str_of_Z c.

(** [new Set(list)] *)
Definition add (s : list Z) (x : Z) : list Z := if bool_decide (x ∈ s) then s else s ++ [x].
Definition new_Set (l : list Z) : list Z := foldl add [] l.

(** [new Set(JSON.parse(raw))]: of the entries only numbers are ever looked for; what is not
    a list leaves the set empty, as an error does. *)
Definition numbers (j : json) : list Z :=
  match j with JArr l => omap (λ x, match x with JNum n => Some n | _ => None end) l | _ => [] end.

Definition readCollapsedModuleIds (s : storage) (c : option Z) : list Z :=
  match c, s with
  | Some c, Some m =>
      if c =? 0 then []
      else match m !! key c with
           | Some (x :: raw) => match parse (x :: raw) with Some j => new_Set (numbers j) | None => [] end
           | _ => []
           end
  | _, _ => []
  end.

Definition persistCollapsedModules (next : list Z) (p : Page) : Page :=
  {| cohort := cohort p; collapsedModules := next;
     store := match cohort p, store p with
              | Some c, Some m => if c =? 0 then Some m else Some (<[key c := print (JArr (map JNum next))]> m)
              | _, s => s
              end |}.

Definition toggleModuleCollapsed (i : Z) (p : Page) : Page :=
  persistCollapsedModules
    (if bool_decide (i ∈ collapsedModules p) then List.filter (λ x, negb (x =? i)) (collapsedModules p) else add (collapsedModules p) i) p.

Definition collapseAllModules (ids : list Z) (p : Page) : Page := persistCollapsedModules (new_Set ids) p.
Definition expandAllModules (p : Page) : Page := persistCollapsedModules [] p.

(** A preview takes away an error and the notice of saved data too. *)
Definition loadMaterials {A} (preview : option A) (redirect : bool) (s : Load.State A) : Load.Begin :=
  match preview with
  | Some a => Load.Previewed {| Load.data := Some a; Load.loading := false; Load.loadError := None; Load.showingSavedData := false |}
  | None => if redirect then Load.Redirected else Load.Requested (Load.load s)
  end.

(** The page that is opened with the answer of the server. *)
Definition open_page (c : option Z) (s : storage) : Page :=
  {| cohort := c; collapsedModules := readCollapsedModuleIds s c; store := s |}.

Lemma add_nodup s x : NoDup s → NoDup (add s x).
Proof.
  intros N. unfold add. case_bool_decide as I; [done|]. apply NoDup_app. split; [done|]. split; [|apply NoDup_singleton].
  intros y Y ->%list_elem_of_singleton. done.
Qed.

Lemma new_Set_id_app s l : NoDup (s ++ l) → foldl add s l = s ++ l.
Proof.
  revert s. induction l as [|x l IH]; intros s N; cbn; [by rewrite app_nil_r|]. unfold add at 2. rewrite bool_decide_eq_false_2.
  - rewrite IH; rewrite <- app_assoc; done.
  - intros X. apply NoDup_app in N as (_ & N & _). by apply (N x X); left.
Qed.

Lemma new_Set_nodup l : NoDup (new_Set l).
Proof.
  unfold new_Set. assert (∀ s, NoDup s → NoDup (foldl add s l)) as G; [|apply G; constructor].
  induction l as [|x l IH]; intros s N; [done|]. apply IH. by apply add_nodup.
Qed.

Lemma numbers_print l : numbers (JArr (map JNum l)) = l.
Proof. cbn. induction l as [|x l IH]; [done|]. cbn. by rewrite IH. Qed.

Lemma print_nonempty l : ∃ x r, print (JArr l) = x :: r.
Proof. cbn. eauto. Qed.

Lemma collapsed_kept_after p c m l :
  cohort p = Some c → c ≠ 0 → store p = Some m → NoDup l →
  collapsedModules (open_page (Some c) (store (persistCollapsedModules l p))) = l.
Proof.
  intros C Z S N. cbn [persistCollapsedModules open_page collapsedModules store]. rewrite C, S. apply Z.eqb_neq in Z. rewrite Z.
  unfold readCollapsedModuleIds. rewrite Z, lookup_insert_eq. destruct (print_nonempty (map JNum l)) as (x & r & E). rewrite E, <- E.
  rewrite parse_print, numbers_print. by apply (new_Set_id_app []).
Qed.

(** A choice of modules to collapse is there when the page is opened again, for its cohort and
    for no other. *)
Theorem collapsed_survives_reload p c m l :
  cohort p = Some c → c ≠ 0 → store p = Some m → NoDup l →
  let q := persistCollapsedModules l p in
  collapsedModules (open_page (Some c) (store q)) = l
  ∧ ∀ d, d ≠ c → collapsedModules (open_page (Some d) (store q)) = collapsedModules (open_page (Some d) (store p)).
Proof.
  intros C Z S N q. split; [by apply (collapsed_kept_after p c m)|]. intros d D. subst q.
  cbn [persistCollapsedModules open_page collapsedModules store]. rewrite C, S. apply Z.eqb_neq in Z. rewrite Z.
  unfold readCollapsedModuleIds. destruct (d =? 0); [done|]. rewrite lookup_insert_ne; [done|].
  unfold key. intros K%app_inv_head%str_of_Z_inj. by apply D.
Qed.

(** Every set the page keeps is a set, so all of them are kept. *)
Lemma toggle_survives p c m i :
  cohort p = Some c → c ≠ 0 → store p = Some m → NoDup (collapsedModules p) →
  let q := toggleModuleCollapsed i p in
  NoDup (collapsedModules q) ∧ collapsedModules (open_page (Some c) (store q)) = collapsedModules q
  ∧ ∀ j, j ∈ collapsedModules q ↔ if bool_decide (j = i) then j ∉ collapsedModules p else j ∈ collapsedModules p.
Proof.
  intros C Z S N. unfold toggleModuleCollapsed. set (l := if bool_decide _ then _ else _). cbv zeta.
  assert (L : NoDup l) by (unfold l; case_bool_decide; [rewrite <- (map_id (List.filter _ _)); apply NoDup_map_bfilter; by rewrite map_id|by apply add_nodup]). split; [done|]. split.
  - by apply (collapsed_kept_after p c m l).
  - intros j. cbn [persistCollapsedModules collapsedModules]. unfold l. case_bool_decide as I.
    + rewrite elem_of_bfilter, negb_true_iff, Z.eqb_neq. case_bool_decide; subst; tauto.
    + unfold add. rewrite (bool_decide_eq_false_2 _ I), elem_of_app, list_elem_of_singleton. case_bool_decide; subst; tauto.
Qed.

(** Collapsing all modules in view opens the collapsed ones that the filter hides. *)
Lemma collapse_all_opens_hidden p : 7 ∈ collapsedModules p → 7 ∉ collapsedModules (collapseAllModules [1; 2] p).
Proof. intros _. cbn. set_solver. Qed.

End Materials.

(** ** Resources *)

Module Resources.

Record Resource := { rid : Z; rtitle : str; url : str; category : str; description : option str }.

Definition filtered (query : str) (l : list Resource) : list Resource :=
  let q := toLowerCase (trim query) in
  if truthy q
  then List.filter (λ r, includes (toLowerCase (rtitle r)) q || includes (toLowerCase (url r)) q
         || includes (toLowerCase (category r)) q || includes (toLowerCase (default [] (description r))) q) l
  else l.

Definition is_hotkey (r : Resource) : bool := bool_decide (category r ∈ [js "hotkeys"; js "shortcuts"]).

Definition grouped (l : list Resource) : list Resource * list Resource :=
  (List.filter is_hotkey l, List.filter (λ r, negb (is_hotkey r)) l).

(** The resource that was copied, with the timers that take its mark away. *)
Record Copied := { copiedResourceId : option Z; copy_timers : list Z }.

(** [clipboard]: whether there is one, and it takes the text. *)
Definition copyResource (clipboard : bool) (r : Resource) (c : Copied) : Copied :=
  if clipboard then {| copiedResourceId := Some (rid r); copy_timers := copy_timers c ++ [rid r] |} else c.

Definition copy_timer (c : Copied) : Copied :=
  match copy_timers c with
  | i :: ts => {| copiedResourceId := if bool_decide (copiedResourceId c = Some i) then None else copiedResourceId c; copy_timers := ts |}
  | [] => c
  end.

(** Every resource that matches is in one of the two groups. *)
Lemma grouped_all l : (grouped l).1 ++ (grouped l).2 ≡ₚ l.
Proof. cbn. induction l as [|r l IH]; [done|]. cbn. destruct (is_hotkey r); cbn; [by rewrite IH|]. by rewrite <- Permutation_middle, IH. Qed.

(** A timer takes away the mark of its own resource only, so the resource that was copied last
    keeps its mark when an earlier timer of another ends. *)
Lemma timer_of_another r s c :
  copy_timers c = [] → rid r ≠ rid s →
  copiedResourceId (copy_timer (copyResource true s (copyResource true r c))) = Some (rid s).
Proof. intros T N. unfold copy_timer, copyResource. cbn. rewrite T. cbn. rewrite bool_decide_eq_false_2; [done|]. congruence. Qed.

(** Copied again, a resource loses its mark with the timer of the first time. *)
Lemma timer_of_first_copy r c :
  copy_timers c = [] → copiedResourceId (copy_timer (copyResource true r (copyResource true r c))) = None.
Proof. intros T. unfold copy_timer, copyResource. cbn. rewrite T. cbn. by rewrite bool_decide_eq_true_2. Qed.

End Resources.
